(* ===== verification/_CoqProject ===== *)
-Q . S2P
Prelude.v
Memory.v
Mmu.v
Syscall.v
Lottery.v
Kalloc.v
Vm.v
Exec.v
Frames.v
Paging.v
PagingDemo.v
Spinlock.v
Proc.v
ProcSpec.v
ProcRefine.v
ProcSteps.v
ProcCalls.v
ProcDemo.v
Cache.v
Bio.v
Ide.v
Log.v
LogDemo.v
Tx.v
Fs.v
Fcntl.v
Inode.v
Dir.v
DirSpec.v
Sysfile.v
Unlink.v
FsDemo.v
Airport.v
AirportDesks.v
Grep.v
Wc.v
Umalloc.v
Pipe.v
Printf.v
Sh.v
ShPrint.v
ShRun.v
Clock.v
Console.v
Kbd.v
File.v
FileSpec.v
FileIo.v
FileFs.v
FileDemo.v
Mkfs.v
Boot.v
