(* ===== verification/Prelude.v ===== *)
(** * Prelude: root of the development

    This library models and verifies the code of a teaching operating system, xv6 for the x86,
    in the variants its assignments produced, and one concurrent simulation:

    - offline_4/xv6: the whole kernel, with demand paging and a swap file per process added;
    - offline_3: the same kernel with a lottery scheduler in place of round robin;
    - offline_2: passengers of an airport as threads that share kiosks, belts and a channel.

    Code that the variants share is modelled once, from offline_4/xv6; the paths below are
    relative to it unless they name another directory. Definitions keep the names of the C
    functions they translate.

    ** How the parts fit together

    System calls enter through the argument fetchers (Syscall) and reach processes (Proc), open
    files (File) and the file system. A file is an inode (Inode, Dir) or one end of a pipe (Pipe).
    The file system reads and writes blocks inside transactions of the log (Log), which stores
    them through the buffer cache (Bio). Processes own page tables (Vm) whose frames come from
    the page allocator (Kalloc); under memory pressure Paging moves pages to the swap file.
    exec passes a program's arguments to the next (Exec). The shell and grep are user programs on
    top; Printf and Console carry text out and in, from the keyboard (Kbd) on. mkfs makes the
    disk image the kernel starts from (Mkfs, Boot).

    ** Conventions

    Kernel code is in the monad [M S A] below: a function from the state [S] to an [outcome],
    which is a value with a new state, a panic, a fault, or fuel that ran out. [int] and [uint]
    are integers with their wrap-around written out ([s32], [u32]). Pointers into tables are
    indices; memory that the code walks byte by byte is a function from addresses (Memory).
    Code outside the source (the linker's symbols, the boot loader's data, devices) and parts of
    the kernel another component only calls are parameters: [ProcEnv] in Proc, the paging
    environment in Paging, the device table in Inode, [InodeLayer] in File.

    The interfaces between components are classes that list operations with their laws, with the
    client proved against the class and the implementation an instance: [BlockCache] (Cache:
    Bio offers it, Log uses it), [LoggedDisk] (Tx: Log offers it, Fs, Inode and Dir use it) and
    [InodeLaws] (FileIo uses it, FileFs shows that Inode and Log offer it). The devices behind the
    ports are classes of the same kind, [AtaLaws] (Ide) and [KbcLaws] (Kbd).

    Loops without a syntactic bound take fuel, computed from the data they run over, and every
    theorem that says what such a loop does also says it returns: the fuel is enough. Bounds of
    the source (NPROC, NOFILE, LOGSIZE, PIPESIZE, ...) are definitions with the source's values.

    Calls that run under one lock from end to end are atomic. Where the code gives the lock away
    in the middle (sleep, sched, fork, exit, a full pipe, a console reader, a passenger's next
    step) the parts between are the steps of a relation, and the theorems are about every
    interleaving. Code that changes only what its process owns (a descriptor table, a child's
    slot that is still EMBRYO) is one step.

    ** The files

    - Prelude: integers, outcomes, the monad, tactics and the lemmas all share.
    - Memory (string.c, x86.h): memmove, memset, memcmp, strncpy, safestrcpy, on byte memory.
    - Mmu (mmu.h, memlayout.h): addresses, page-table entries and flags.
    - Kalloc (kalloc.c): the free list through the pages; it refines a stack of pages.
    - Vm (vm.c): walkpgdir, mappages, setupkvm, allocuvm, deallocuvm, copyuvm, freevm, uva2ka,
      copyout; what each maps, frees and copies, and what it does when memory runs out.
    - Exec (exec.c, sysfile.c): sys_exec and the stack exec builds; the strings the caller gives
      are the arguments main starts with.
    - Frames, Paging, PagingDemo (vm.c, trap.c, proc.c, exec.c): the queue of resident pages, the
      page-fault branch of trap; the queue refines a list, a fault keeps the user's bytes as
      long as there are resident pages and swap slots left.
    - Spinlock (spinlock.c): acquire, release, pushcli, popcli; the lock discipline.
    - Proc, ProcSpec, ProcRefine, ProcSteps, ProcCalls, ProcDemo (proc.c, proc.h): the process
      table, every call that changes it, and the abstract table the calls refine (ProcSpec,
      ProcRefine); the calls in pieces, fork, exit and sleep interleaved on any number of
      processors, and the safety of every state they reach (ProcSteps); what each call returns
      (ProcCalls).
    - Lottery (offline_3/proc.c, sysproc.c): random, the draw, the scheduler round, settickets,
      getpinfo; each process's share of winning numbers, and when a round dispatches nobody.
    - Syscall (syscall.c): fetchint, fetchstr, argint, argptr, argstr and their bounds checks.
    - Cache, Bio (bio.c, sleeplock.c, memide.c): the buffer cache, equal to the disk itself.
    - Ide (ide.c): the disk driver's queue of requests, over any controller that keeps the laws
      of the ATA commands it uses.
    - Log, LogDemo (log.c): begin_op, log_write, end_op, recovery; a crash at any disk write
      leaves whole commits.
    - Tx, Fs, Inode, Dir, DirSpec, FsDemo (fs.c, fs.h): the bitmap, inodes and their content,
      directories and paths; files hold what is written, a directory is a map from names.
    - Sysfile, Unlink (sysfile.c): link, unlink, create, mkdir, mknod, chdir on paths; unlink
      takes a name away and leaves a file that is open.
    - Fcntl, File, FileSpec (fcntl.h, file.c, pipe.c, sysfile.c, fs.c, proc.c): open files,
      descriptors, the swap files of processes, and the reference counts in every reachable
      state; which calls panic.
    - FileIo, FileFs, FileDemo (file.c, sysfile.c): read, write and fstat of any length; the
      promise they rest on, proved of the inodes inside transactions of the log.
    - Pipe (pipe.c): the ring buffer as a bounded queue, and who may sleep on it.
    - Printf (printf.c, console.c, ulib.c, fs.c): printint, printf, cprintf, itoa, atoi.
    - Clock (trap.c, sysproc.c): ticks, sys_sleep and kill; nobody sleeps past its time or
      returns before it, and who sleeps though killed is woken by the next tick.
    - Console (console.c): line editing, the readers, the screen.
    - Kbd (kbd.c, kbd.h): scan codes to characters, against a keyboard of held keys and lights;
      a line typed there reaches the console's reader.
    - Grep (grep.c), Wc (wc.c): the pattern matcher against the language of the pattern; the
      counts of a file.
    - Sh, ShPrint, ShRun (sh.c): the shell's parser against a printer of commands; the processes
      a command runs in and the descriptors each program starts with.
    - Mkfs, Boot (mkfs.c): the image mkfs makes has all that the kernel's file system assumes; a
      kernel booted on it serves the installed files.
    - Umalloc (umalloc.c, sysproc.c): malloc, free and morecore on the circular list of free
      blocks kept in the heap itself.
    - Airport, AirportDesks (offline_2/offline.cpp, helper.h): every passenger's accesses to
      shared state, interleaved; exclusion in the channel and at the desks, and the deadlock.

    Each file ends with, or is followed by a Demo file with, concrete states on which its
    theorems are exercised.

    ** What the theorems show

    - Safety and invariants: the process table, the log under crashes, page faults, locks,
      reference counts, sleepers and wakeups on pipes, the VIP channel and the desks.
    - Refinement and equivalence: the page allocator and a stack, the page queue and a list, the
      process calls and the abstract table, pipe and queue, console and line discipline,
      directory and map, cache and disk, disk requests and their order, grep's matcher and the language of its pattern.
    - Round trips: commands and their text, a line and the keys that type it; dinodes, numbers.
    - Functional results on all branches: fork, wait, exec's arguments, copyuvm, deallocuvm,
      file writes and reads, the lottery, the shell's wiring of pipes, mkfs and what a kernel
      reads from its image.
    - Bounds and errors: the blocks a chunk of filewrite logs; a log overflow by three admitted
      calls; the deadlock of the VIP channel; queues that fork shares.

    ** Not modelled

    Processor set-up and the drivers behind it (lapic.c, ioapic.c, picirq.c, uart.c, mp.c, main.c),
    assembly and boot code: port input and output, registers. The small user programs and
    usertests.c: sequences of system calls. exec's reading of the program file: it loads frames
    while the records of the process's pages are reset and evictions go through the old
    directory; the records are in Paging, the arguments in Exec. trap's dispatch to the device
    handlers and the table of syscall(): one call for each number; the page-fault branch is in
    Paging, the timer in Clock. The shell's main loop, which starts a child for each line. The
    contents of the swap file: parameters of Paging; its entry in the file table is in File, its
    name in the root directory a parameter there. Debugging output (procdump, getcallerpcs) changes no
    state. Time is not modelled: interrupts, the timer's too, and the ends of simulation
    threads' sleeps happen at any moment. *)

From Stdlib Require Export ZArith Lia.
From stdpp Require Export base strings gmap numbers.
From stdpp Require Export list.

#[global] Open Scope Z_scope.

(** ** Machine integers

    The code runs on a 32-bit x86: [uint] is a [Z] kept in [0, 2^32) by [u32], [int] a [Z] kept
    in [-2^31, 2^31) by [s32], [ushort] and [uchar] are [u16] and [u8]. *)

Definition u8 (x : Z) : Z := x mod 2 ^ 8.
Definition u16 (x : Z) : Z := x mod 2 ^ 16.
Definition u32 (x : Z) : Z := x mod 2 ^ 32.
Definition s32 (x : Z) : Z := (x + 2 ^ 31) mod 2 ^ 32 - 2 ^ 31.
Definition s16 (x : Z) : Z := (x + 2 ^ 15) mod 2 ^ 16 - 2 ^ 15.

(** The truth value of a C condition stored in an [int]. *)
Definition c_bool (b : bool) : Z := if b then 1 else 0.

(** ** Outcomes of kernel code

    A piece of kernel code either returns with a new state, calls [panic] (which prints its
    message and never returns), runs into behaviour the processor or the C standard leaves to
    a fault, or exhausts the fuel of a loop whose C counterpart has no syntactic bound. *)

Inductive fault_kind : Type :=
  | NullDeref
  | DivideError
  | OutOfRange
  | UninitRead.

Inductive outcome (S A : Type) : Type :=
  | Ret (a : A) (s : S)
  | Panic (msg : string)
  | Fault (k : fault_kind)
  | OutOfFuel.
Arguments Ret {S A} a s.
Arguments Panic {S A} msg.
Arguments Fault {S A} k.
Arguments OutOfFuel {S A}.

Definition M (S A : Type) : Type := S -> outcome S A.

#[global] Instance M_ret {S : Type} : MRet (M S) := fun A a s => Ret a s.
#[global] Instance M_bind {S : Type} : MBind (M S) := fun A B k m s =>
  match m s with
  | Ret a s' => k a s'
  | Panic msg => Panic msg
  | Fault f => Fault f
  | OutOfFuel => OutOfFuel
  end.

Declare Scope kernel_scope.
Delimit Scope kernel_scope with kernel.
#[global] Open Scope kernel_scope.

Definition panic {S A : Type} (msg : string) : M S A := fun _ => Panic msg.
Definition fault {S A : Type} (k : fault_kind) : M S A := fun _ => Fault k.
Definition get {S : Type} : M S S := fun s => Ret s s.
Definition put {S : Type} (s : S) : M S unit := fun _ => Ret tt s.
Definition gets {S A : Type} (f : S -> A) : M S A := fun s => Ret (f s) s.
Definition modify {S : Type} (f : S -> S) : M S unit := fun s => Ret tt (f s).
Definition ret {S A : Type} (a : A) : M S A := fun s => Ret a s.

(** [if(c) panic(msg);] and the dereference of a pointer that may be null. *)
Definition panic_if {S : Type} (c : bool) (msg : string) : M S unit :=
  if c then panic msg else ret tt.
Definition deref {S A : Type} (o : option A) : M S A :=
  match o with Some a => ret a | None => fault NullDeref end.

Definition when {S : Type} (c : bool) (m : M S unit) : M S unit := if c then m else ret tt.

(** Running code of a component whose state is a part of a larger state. *)
Definition zoom {S T A : Type} (proj : S -> T) (upd : T -> S -> S) (m : M T A) : M S A :=
  fun s => match m (proj s) with
           | Ret a t => Ret a (upd t s)
           | Panic msg => Panic msg
           | Fault k => Fault k
           | OutOfFuel => OutOfFuel
           end.

(** Partial and total correctness of a computation started in a state. *)
Definition returns {S A : Type} (m : M S A) (s : S) (Q : A -> S -> Prop) : Prop :=
  match m s with Ret a s' => Q a s' | _ => False end.
Definition if_returns {S A : Type} (m : M S A) (s : S) (Q : A -> S -> Prop) : Prop :=
  match m s with Ret a s' => Q a s' | _ => True end.

Section MonadLemmas.
Context {S A B : Type}.
Implicit Types (m : M S A) (k : A -> M S B) (s : S).

Lemma bind_ret m k s a s' : m s = Ret a s' -> (m ≫= k) s = k a s'.
Proof. intros E. unfold mbind, M_bind. by rewrite E. Qed.

Lemma bind_inv m k s b s' :
  (m ≫= k) s = Ret b s' -> exists a s1, m s = Ret a s1 /\ k a s1 = Ret b s'.
Proof. unfold mbind, M_bind. destruct (m s) eqn:E; naive_solver. Qed.

Lemma bind_panic m k s msg : m s = Panic msg -> (m ≫= k) s = Panic msg.
Proof. intros E. unfold mbind, M_bind. by rewrite E. Qed.

Lemma bind_fault m k s f : m s = Fault f -> (m ≫= k) s = Fault f.
Proof. intros E. unfold mbind, M_bind. by rewrite E. Qed.

Lemma returns_bind m k s (Q : B -> S -> Prop) :
  returns m s (fun a s1 => returns (k a) s1 Q) -> returns (m ≫= k) s Q.
Proof. unfold returns, mbind, M_bind. by destruct (m s). Qed.

Lemma if_returns_bind m k s (Q : B -> S -> Prop) :
  if_returns m s (fun a s1 => if_returns (k a) s1 Q) -> if_returns (m ≫= k) s Q.
Proof. unfold if_returns, mbind, M_bind. by destruct (m s). Qed.

Lemma returns_mono m s (P Q : A -> S -> Prop) :
  returns m s P -> (forall a s', P a s' -> Q a s') -> returns m s Q.
Proof. unfold returns. destruct (m s); naive_solver. Qed.

Lemma if_returns_mono m s (P Q : A -> S -> Prop) :
  if_returns m s P -> (forall a s', P a s' -> Q a s') -> if_returns m s Q.
Proof. unfold if_returns. destruct (m s); naive_solver. Qed.

Lemma returns_eq m s (Q : A -> S -> Prop) :
  returns m s Q <-> exists a s', m s = Ret a s' /\ Q a s'.
Proof. unfold returns. destruct (m s); naive_solver. Qed.
End MonadLemmas.

Lemma bind_assoc {S A B C : Type} (m : M S A) (f : A -> M S B) (g : B -> M S C) s :
  ((m ≫= f) ≫= g) s = (m ≫= fun a => f a ≫= g) s.
Proof. unfold mbind, M_bind. by destruct (m s). Qed.

Lemma bind_ext {X A B : Type} (m : M X A) (f g : A -> M X B) (w : X) :
  (forall a v, f a v = g a v) -> (m ≫= f) w = (m ≫= g) w.
Proof. intros E. unfold mbind, M_bind. destruct (m w); [apply E|done..]. Qed.

(** ** Automation *)

(** [inv_m H] decomposes [H : (x ← m; k x) s = Ret b s'] into the runs of its parts. *)
Ltac inv_m H :=
  let a := fresh "a" in let s1 := fresh "s" in let H1 := fresh "Hrun" in
  apply bind_inv in H as (a & s1 & H1 & H).

(** [step_m] executes the first action of a sequence whose result is known by [reflexivity]
    or by hypothesis. *)
Ltac step_m :=
  first [ erewrite bind_ret; [| reflexivity]
        | erewrite bind_ret; [| eassumption] ].

(** [lia] on goals with division and remainder by constants, powers of two included. *)
Ltac const_pow :=
  repeat match goal with
  | |- context [Z.pow 2 (Zpos ?p)] =>
      let v := eval vm_compute in (Z.pow 2 (Zpos p)) in change (Z.pow 2 (Zpos p)) with v
  | H : context [Z.pow 2 (Zpos ?p)] |- _ =>
      let v := eval vm_compute in (Z.pow 2 (Zpos p)) in change (Z.pow 2 (Zpos p)) with v in H
  end.
Ltac dlia := const_pow; zify; Z.to_euclidean_division_equations; lia.

Ltac case_if :=
  match goal with
  | |- context [if ?b then _ else _] => destruct b eqn:?
  | H : context [if ?b then _ else _] |- _ => destruct b eqn:?
  end.

(** Turns boolean comparisons in the context into propositions [lia] understands. *)
Ltac to_prop :=
  repeat match goal with
  | H : (_ =? _) = true |- _ => apply Z.eqb_eq in H
  | H : (_ =? _) = false |- _ => apply Z.eqb_neq in H
  | H : (_ <? _) = true |- _ => apply Z.ltb_lt in H
  | H : (_ <? _) = false |- _ => apply Z.ltb_ge in H
  | H : (_ <=? _) = true |- _ => apply Z.leb_le in H
  | H : (_ <=? _) = false |- _ => apply Z.leb_gt in H
  | H : _ && _ = true |- _ => apply andb_true_iff in H as [? ?]
  | H : _ || _ = false |- _ => apply orb_false_iff in H as [? ?]
  | H : negb _ = true |- _ => apply negb_true_iff in H
  | H : negb _ = false |- _ => apply negb_false_iff in H
  | H : bool_decide _ = true |- _ => apply bool_decide_eq_true in H
  | H : bool_decide _ = false |- _ => apply bool_decide_eq_false in H
  end.

Create HintDb kernel discriminated.
Create Rewrite HintDb word.

(** ** Integers *)

Lemma u32_small x : 0 <= x < 2 ^ 32 -> u32 x = x.
Proof. apply Z.mod_small. Qed.
Lemma u32_range x : 0 <= u32 x < 2 ^ 32.
Proof. apply Z.mod_pos_bound. lia. Qed.
Lemma u32_idem x : u32 (u32 x) = u32 x.
Proof. apply Z.mod_mod. lia. Qed.
Lemma u8_range x : 0 <= u8 x < 2 ^ 8.
Proof. apply Z.mod_pos_bound. lia. Qed.
Lemma u8_idem x : u8 (u8 x) = u8 x.
Proof. apply Z.mod_mod. lia. Qed.
Lemma u8_small x : 0 <= x < 2 ^ 8 -> u8 x = x.
Proof. apply Z.mod_small. Qed.
Lemma s32_small x : - 2 ^ 31 <= x < 2 ^ 31 -> s32 x = x.
Proof. intros. unfold s32. rewrite Z.mod_small; lia. Qed.
Lemma s32_range x : - 2 ^ 31 <= s32 x < 2 ^ 31.
Proof. unfold s32. pose proof (Z.mod_pos_bound (x + 2 ^ 31) (2 ^ 32)). lia. Qed.
Lemma u32_s32 x : u32 (s32 x) = u32 x.
Proof.
  unfold u32, s32. rewrite Zminus_mod_idemp_l. f_equal. lia.
Qed.
Lemma s32_u32 x : s32 (u32 x) = s32 x.
Proof. unfold s32, u32. by rewrite Zplus_mod_idemp_l. Qed.
Lemma s32_cong x y : u32 x = u32 y -> s32 x = s32 y.
Proof. intros H. by rewrite <- (s32_u32 x), H, s32_u32. Qed.
Lemma u32_add_l x y : u32 (u32 x + y) = u32 (x + y).
Proof. apply Zplus_mod_idemp_l. Qed.
Lemma u32_add_r x y : u32 (x + u32 y) = u32 (x + y).
Proof. apply Zplus_mod_idemp_r. Qed.
Lemma u32_sub_l x y : u32 (u32 x - y) = u32 (x - y).
Proof. apply Zminus_mod_idemp_l. Qed.
Lemma u32_sub_r x y : u32 (x - u32 y) = u32 (x - y).
Proof. apply Zminus_mod_idemp_r. Qed.

#[export] Hint Rewrite u32_idem u8_idem u32_s32 u32_add_l u32_add_r u32_sub_l u32_sub_r : word.
#[export] Hint Resolve u32_range u8_range s32_range : kernel.

(** ** Lists *)

(** The index and the first element satisfying a boolean predicate: the shape of every
    [for(p = table; p < &table[N]; p++) if(...) goto found;] loop of the kernel. *)
Fixpoint find_index {A : Type} (f : A -> bool) (l : list A) : option nat :=
  match l with
  | [] => None
  | x :: l => if f x then Some O else S <$> find_index f l
  end.

Section FindIndex.
Context {A : Type} (f : A -> bool).
Implicit Types l : list A.

Lemma find_index_Some l i :
  find_index f l = Some i <->
  exists x, l !! i = Some x /\ f x = true /\
            forall j y, (j < i)%nat -> l !! j = Some y -> f y = false.
Proof.
  revert i. induction l as [|x l IH]; intros i; simpl.
  { split; [done|]. intros (y & Hy & _). done. }
  destruct (f x) eqn:Hx.
  - split.
    + intros [= <-]. exists x. split_and!; [done..|]. intros j y Hj. lia.
    + intros (y & Hy & Hf & Hmin). destruct i as [|i]; [done|].
      specialize (Hmin O x ltac:(lia) eq_refl). congruence.
  - rewrite fmap_Some. setoid_rewrite IH. split.
    + intros (i' & (y & Hy & Hf & Hmin) & ->). exists y. split_and!; [done..|].
      intros [|j] z Hj Hz; simpl in *; [congruence|]. eapply Hmin; [|done]. lia.
    + intros (y & Hy & Hf & Hmin). destruct i as [|i]; simpl in *; [congruence|].
      exists i. split; [|done]. exists y. split_and!; [done..|].
      intros j z Hj Hz. apply (Hmin (S j) z); [lia|done].
Qed.

Lemma find_index_None l :
  find_index f l = None <-> forall i x, l !! i = Some x -> f x = false.
Proof.
  induction l as [|x l IH]; simpl.
  { split; [|done]. intros _ i x Hi. by rewrite lookup_nil in Hi. }
  destruct (f x) eqn:Hx.
  - split; [done|]. intros H. specialize (H O x eq_refl). congruence.
  - rewrite fmap_None, IH. split.
    + intros H [|i] y Hy; simpl in *; [congruence|]. eauto.
    + intros H i y Hy. apply (H (S i) y Hy).
Qed.

Lemma find_index_lt l i : find_index f l = Some i -> (i < length l)%nat.
Proof. intros (x & Hx & _)%find_index_Some. by eapply lookup_lt_Some. Qed.
End FindIndex.

Fixpoint sum_list_Z (l : list Z) : Z :=
  match l with [] => 0 | x :: l => x + sum_list_Z l end.

Lemma sum_list_Z_app l1 l2 : sum_list_Z (l1 ++ l2) = sum_list_Z l1 + sum_list_Z l2.
Proof. induction l1; simpl; lia. Qed.

Lemma sum_list_Z_nonneg l : Forall (fun x => 0 <= x) l -> 0 <= sum_list_Z l.
Proof. induction 1; simpl; lia. Qed.

(** Updating the element at an index, where the C code writes through a pointer that is known
    to point into the table. *)
Lemma lookup_alter_eq_Some {A : Type} (f : A -> A) (l : list A) i x :
  l !! i = Some x -> alter f i l !! i = Some (f x).
Proof. intros H. by rewrite list_lookup_alter, H, decide_True. Qed.

Lemma list_alter_insert {A : Type} (f : A -> A) (l : list A) i x :
  l !! i = Some x -> alter f i l = <[i := f x]> l.
Proof.
  intros H. apply list_eq. intros j. destruct (decide (i = j)) as [<-|Hne].
  - rewrite (lookup_alter_eq_Some _ _ _ x), list_lookup_insert_eq; [done| |done].
    by eapply lookup_lt_Some.
  - by rewrite list_lookup_alter_ne, list_lookup_insert_ne.
Qed.

(** Filters by conditions that agree on the list's elements. *)
Lemma filter_ext_in {A} (P Q : A -> Prop) `{forall a, Decision (P a), forall a, Decision (Q a)} (l : list A) :
  (forall a, a ∈ l -> P a <-> Q a) -> filter P l = filter Q l.
Proof.
  induction l as [|a l IH]; intros Hl; [done|]. specialize (IH (fun (c : A) Hc => Hl c (list_elem_of_further _ _ _ Hc))).
  rewrite !filter_cons, IH. pose proof (Hl a (list_elem_of_here _ _)). by repeat destruct (decide _); try tauto.
Qed.

(** Removing an element from a list without duplicates. *)
Lemma filter_ne_absent {A : Type} `{EqDecision A} (l : A) (h : list A) : l ∉ h -> filter (fun l' => l' <> l) h = h.
Proof.
  induction h as [|k h IH]; [done|]. rewrite not_elem_of_cons. intros [Hk Hh].
  rewrite filter_cons_True by congruence. by rewrite IH.
Qed.
Lemma filter_ne_length {A : Type} `{EqDecision A} (l : A) (h : list A) :
  NoDup h -> l ∈ h -> length h = S (length (filter (fun l' => l' <> l) h)).
Proof.
  induction 1 as [|k h Hk Hnd IH]; [by intros ?%elem_of_nil|].
  intros [->|Hin]%elem_of_cons.
  - rewrite filter_cons_False by tauto. by rewrite filter_ne_absent.
  - rewrite filter_cons_True by (by intros ->). simpl. by rewrite IH.
Qed.
