(* ===== verification/Memory.v ===== *)
(** * Memory: byte-addressed memory and the C string routines of string.c

    Memory is a function from addresses to cells. A store keeps the low 8 bits of what it
    stores and a load reads 8 bits, so every cell behaves as a [uchar]; 32-bit words are
    little-endian. Pointers are unwrapped [Z]s: an object lies inside the address space, and
    pointer arithmetic past its end is undefined in C. *)

From S2P Require Import Prelude.

Definition memory : Type := Z -> Z.

Definition load8 (m : memory) (a : Z) : Z := u8 (m a).
Definition store8 (m : memory) (a v : Z) : memory :=
  fun x => if x =? a then u8 v else m x.

Definition load32 (m : memory) (a : Z) : Z :=
  load8 m a + load8 m (a + 1) * 2 ^ 8 + load8 m (a + 2) * 2 ^ 16 + load8 m (a + 3) * 2 ^ 24.
Definition store32 (m : memory) (a v : Z) : memory :=
  store8 (store8 (store8 (store8 m a v) (a + 1) (v / 2 ^ 8)) (a + 2) (v / 2 ^ 16))
         (a + 3) (v / 2 ^ 24).

(** [rep stosb] and [rep stosl] of x86.h: [cnt] copies of a byte, of a 32-bit word. *)
Fixpoint stosb (m : memory) (addr data : Z) (cnt : nat) : memory :=
  match cnt with
  | O => m
  | S cnt => stosb (store8 m addr data) (addr + 1) data cnt
  end.
Fixpoint stosl (m : memory) (addr data : Z) (cnt : nat) : memory :=
  match cnt with
  | O => m
  | S cnt => stosl (store32 m addr data) (addr + 4) data cnt
  end.

Definition memset (m : memory) (dst c n : Z) : memory :=
  if (dst mod 4 =? 0) && (n mod 4 =? 0) then
    let c := Z.land c 0xFF in
    stosl m dst (Z.lor (Z.lor (Z.lor (Z.shiftl c 24) (Z.shiftl c 16)) (Z.shiftl c 8)) c)
          (Z.to_nat (n / 4))
  else stosb m dst c (Z.to_nat n).

(** memcmp: the first difference between the two ranges, or zero. *)
Fixpoint memcmp_loop (m : memory) (s1 s2 : Z) (n : nat) : Z :=
  match n with
  | O => 0
  | S n =>
      if negb (load8 m s1 =? load8 m s2) then load8 m s1 - load8 m s2
      else memcmp_loop m (s1 + 1) (s2 + 1) n
  end.
Definition memcmp (m : memory) (v1 v2 n : Z) : Z := memcmp_loop m v1 v2 (Z.to_nat n).

(** The two loops of memmove: ascending, and descending from the ends. *)
Fixpoint copy_up (m : memory) (d s : Z) (n : nat) : memory :=
  match n with
  | O => m
  | S n => copy_up (store8 m d (load8 m s)) (d + 1) (s + 1) n
  end.
Fixpoint copy_down (m : memory) (d s : Z) (n : nat) : memory :=
  match n with
  | O => m
  | S n => copy_down (store8 m (d - 1) (load8 m (s - 1))) (d - 1) (s - 1) n
  end.
Definition memmove (m : memory) (dst src n : Z) : memory :=
  if (src <? dst) && (dst <? src + n)
  then copy_down m (dst + n) (src + n) (Z.to_nat n)
  else copy_up m dst src (Z.to_nat n).
Definition memcpy (m : memory) (dst src n : Z) : memory := memmove m dst src n.

Fixpoint strncmp_loop (m : memory) (p q : Z) (n : nat) : Z :=
  match n with
  | O => 0
  | S n' =>
      if negb (load8 m p =? 0) && (load8 m p =? load8 m q)
      then strncmp_loop m (p + 1) (q + 1) n'
      else load8 m p - load8 m q
  end.
Definition strncmp (m : memory) (p q n : Z) : Z := strncmp_loop m p q (Z.to_nat n).

(** strncpy: the first loop copies up to and including the NUL, the second pads. *)
Fixpoint strncpy_loop (m : memory) (s t : Z) (n : nat) : memory :=
  match n with
  | O => m
  | S n =>
      let c := load8 m t in
      let m := store8 m s c in
      if c =? 0 then stosb m (s + 1) 0 n else strncpy_loop m (s + 1) (t + 1) n
  end.
Definition strncpy (m : memory) (s t n : Z) : memory := strncpy_loop m s t (Z.to_nat n).

(** safestrcpy: at most [n - 1] bytes, then always a NUL. *)
Fixpoint safestrcpy_loop (m : memory) (s t : Z) (n : nat) : memory :=
  match n with
  | O => store8 m s 0
  | S n =>
      let c := load8 m t in
      let m := store8 m s c in
      if c =? 0 then store8 m (s + 1) 0 else safestrcpy_loop m (s + 1) (t + 1) n
  end.
Definition safestrcpy (m : memory) (s t n : Z) : memory :=
  if n <=? 0 then m else safestrcpy_loop m s t (Z.to_nat (n - 1)).

(** strlen scans without a bound; [fuel] bounds the scan. *)
Fixpoint strlen_from (m : memory) (s n : Z) (fuel : nat) : option Z :=
  match fuel with
  | O => None
  | S fuel => if load8 m (s + n) =? 0 then Some n else strlen_from m s (n + 1) fuel
  end.
Definition strlen (m : memory) (s : Z) (fuel : nat) : option Z := strlen_from m s 0 fuel.

(** ** Lemmas *)

Lemma load8_range m a : 0 <= load8 m a < 2 ^ 8.
Proof. apply u8_range. Qed.

Lemma load8_store8_eq m a v : load8 (store8 m a v) a = u8 v.
Proof. unfold load8, store8. rewrite Z.eqb_refl. apply u8_idem. Qed.

Lemma store8_ne m a b v : a <> b -> store8 m a v b = m b.
Proof. intros. unfold store8. by rewrite (proj2 (Z.eqb_neq b a)). Qed.

Lemma load8_store8_ne m a b v : a <> b -> load8 (store8 m a v) b = load8 m b.
Proof. intros. unfold load8. by rewrite store8_ne. Qed.

Lemma load8_store8 m a b v :
  load8 (store8 m a v) b = if decide (a = b) then u8 v else load8 m b.
Proof.
  case_decide; [subst; apply load8_store8_eq | by apply load8_store8_ne].
Qed.

Lemma load32_range m a : 0 <= load32 m a < 2 ^ 32.
Proof.
  unfold load32.
  pose proof (load8_range m a). pose proof (load8_range m (a + 1)).
  pose proof (load8_range m (a + 2)). pose proof (load8_range m (a + 3)). lia.
Qed.

Lemma store32_lookup m a v x :
  load8 (store32 m a v) x =
    if decide (a <= x < a + 4) then u8 (v / 2 ^ (8 * (x - a))) else load8 m x.
Proof.
  unfold store32. rewrite !load8_store8.
  repeat case_decide; try lia; subst; try done.
  - by replace (8 * (a + 3 - a)) with 24 by lia.
  - by replace (8 * (a + 2 - a)) with 16 by lia.
  - by replace (8 * (a + 1 - a)) with 8 by lia.
  - replace (8 * (x - x)) with 0 by lia. by rewrite Z.div_1_r.
Qed.

Lemma byte_split v :
  u32 v = u8 v + u8 (v / 2 ^ 8) * 2 ^ 8 + u8 (v / 2 ^ 16) * 2 ^ 16 + u8 (v / 2 ^ 24) * 2 ^ 24.
Proof.
  unfold u32, u8.
  replace (v / 2 ^ 24) with (v / 2 ^ 8 / 2 ^ 8 / 2 ^ 8) by (rewrite !Z.div_div by lia; done).
  replace (v / 2 ^ 16) with (v / 2 ^ 8 / 2 ^ 8) by (rewrite !Z.div_div by lia; done).
  pose proof (Z.div_mod v (2 ^ 8) ltac:(lia)).
  pose proof (Z.div_mod (v / 2 ^ 8) (2 ^ 8) ltac:(lia)).
  pose proof (Z.div_mod (v / 2 ^ 8 / 2 ^ 8) (2 ^ 8) ltac:(lia)).
  pose proof (Z.div_mod (v / 2 ^ 8 / 2 ^ 8 / 2 ^ 8) (2 ^ 8) ltac:(lia)).
  pose proof (Z.mod_pos_bound v (2 ^ 8) ltac:(lia)).
  pose proof (Z.mod_pos_bound (v / 2 ^ 8) (2 ^ 8) ltac:(lia)).
  pose proof (Z.mod_pos_bound (v / 2 ^ 8 / 2 ^ 8) (2 ^ 8) ltac:(lia)).
  pose proof (Z.mod_pos_bound (v / 2 ^ 8 / 2 ^ 8 / 2 ^ 8) (2 ^ 8) ltac:(lia)).
  symmetry. apply Z.mod_unique with (q := v / 2 ^ 8 / 2 ^ 8 / 2 ^ 8 / 2 ^ 8).
  all: generalize dependent (v mod 2 ^ 8); intros; lia.
Qed.

Lemma load32_store32_eq m a v : load32 (store32 m a v) a = u32 v.
Proof.
  unfold load32. rewrite !store32_lookup, !decide_True by lia.
  replace (8 * (a - a)) with 0 by lia. replace (8 * (a + 1 - a)) with 8 by lia.
  replace (8 * (a + 2 - a)) with 16 by lia. replace (8 * (a + 3 - a)) with 24 by lia.
  rewrite Z.div_1_r. symmetry. apply byte_split.
Qed.

(** Two memories that agree on the four bytes of a word hold the same word there. *)
Lemma load32_ext m m' a :
  (forall x, a <= x < a + 4 -> load8 m x = load8 m' x) -> load32 m a = load32 m' a.
Proof. intros H. unfold load32. by rewrite !H by lia. Qed.

Lemma load32_store32_ne m a b v :
  a + 4 <= b \/ b + 4 <= a -> load32 (store32 m a v) b = load32 m b.
Proof.
  intros Hd. apply load32_ext. intros x Hx. rewrite store32_lookup, decide_False by lia. done.
Qed.

Lemma stosb_spec m addr c cnt x :
  load8 (stosb m addr c cnt) x =
    if decide (addr <= x < addr + Z.of_nat cnt) then u8 c else load8 m x.
Proof.
  revert m addr. induction cnt as [|cnt IH]; intros m addr; simpl.
  { rewrite decide_False by lia. done. }
  rewrite IH, load8_store8. repeat case_decide; try lia; done.
Qed.

Lemma stosl_spec m addr w cnt x :
  load8 (stosl m addr w cnt) x =
    if decide (addr <= x < addr + 4 * Z.of_nat cnt)
    then u8 (w / 2 ^ (8 * ((x - addr) mod 4))) else load8 m x.
Proof.
  revert m addr. induction cnt as [|cnt IH]; intros m addr; simpl.
  { rewrite decide_False by lia. done. }
  rewrite IH, store32_lookup. repeat case_decide; try lia; try done.
  - do 4 f_equal. replace (x - addr) with (x - (addr + 4) + 1 * 4) by lia.
    rewrite Z.mod_add by lia. done.
  - do 4 f_equal. rewrite Z.mod_small by lia. done.
Qed.

(** The word [stosl] stores holds the byte [c] four times. *)
Lemma repeat_byte c k :
  0 <= c < 2 ^ 8 -> 0 <= k < 4 ->
  u8 (Z.lor (Z.lor (Z.lor (Z.shiftl c 24) (Z.shiftl c 16)) (Z.shiftl c 8)) c / 2 ^ (8 * k)) = c.
Proof.
  intros Hc Hk.
  assert (Hhi : forall i, 8 <= i -> Z.testbit c i = false).
  { intros i Hi. destruct (decide (c = 0)) as [->|]; [apply Z.bits_0|].
    apply Z.bits_above_log2; [lia|]. apply Z.log2_lt_pow2; [lia|].
    eapply Z.lt_le_trans; [apply Hc|]. apply Z.pow_le_mono_r; lia. }
  unfold u8. rewrite <- Z.shiftr_div_pow2 by lia.
  apply Z.bits_inj'. intros i Hi.
  destruct (decide (i < 8)).
  2: { rewrite Z.mod_pow2_bits_high, Hhi by lia. done. }
  rewrite Z.mod_pow2_bits_low, Z.shiftr_spec by lia.
  rewrite !Z.lor_spec, !Z.shiftl_spec by lia.
  assert (k = 0 \/ k = 1 \/ k = 2 \/ k = 3) as [-> | [-> | [-> | ->]]] by lia;
    repeat first
      [ rewrite (Z.testbit_neg_r c) by lia
      | match goal with |- context [Z.testbit c ?j] =>
          lazymatch j with i => fail | _ =>
            first [ replace j with i by lia | rewrite (Hhi j) by lia ] end end ];
    rewrite ?orb_false_r, ?orb_false_l; done.
Qed.

Lemma memset_spec m dst c n x :
  0 <= n ->
  load8 (memset m dst c n) x =
    if decide (dst <= x < dst + n) then u8 c else load8 m x.
Proof.
  intros Hn. unfold memset. case_if; to_prop.
  - rewrite stosl_spec. rewrite Z2Nat.id by dlia.
    replace (dst + 4 * (n / 4)) with (dst + n) by dlia.
    case_decide; [|done].
    assert (Hc : 0 <= Z.land c 255 < 2 ^ 8).
    { change 255 with (Z.ones 8). rewrite Z.land_ones by lia. apply Z.mod_pos_bound. lia. }
    rewrite repeat_byte by (try apply Hc; apply Z.mod_pos_bound; lia).
    change 255 with (Z.ones 8). by rewrite Z.land_ones by lia.
  - rewrite stosb_spec, Z2Nat.id by lia. done.
Qed.

(** A word inside a range set to zero is zero. *)
Lemma load32_memset_zero m dst n a :
  0 <= n -> dst <= a -> a + 4 <= dst + n -> load32 (memset m dst 0 n) a = 0.
Proof.
  intros Hn Ha Hb. unfold load32. by rewrite !memset_spec, !decide_True by lia.
Qed.

Lemma load32_memset_out m dst c n a :
  0 <= n -> a + 4 <= dst \/ dst + n <= a -> load32 (memset m dst c n) a = load32 m a.
Proof.
  intros Hn Ha. apply load32_ext. intros x Hx. rewrite memset_spec, decide_False by lia. done.
Qed.

Lemma copy_up_spec m d s n x :
  d <= s \/ s + Z.of_nat n <= d ->
  load8 (copy_up m d s n) x =
    if decide (d <= x < d + Z.of_nat n) then load8 m (s + (x - d)) else load8 m x.
Proof.
  revert m d s. induction n as [|n IH]; intros m d s Hd; simpl.
  { by rewrite decide_False by lia. }
  rewrite IH by lia. rewrite !load8_store8.
  repeat case_decide; try lia; subst; try done.
  - f_equal. lia.
  - rewrite u8_small by apply load8_range. f_equal. lia.
Qed.

Lemma copy_down_spec m d s n x :
  s <= d \/ d <= s - Z.of_nat n ->
  load8 (copy_down m d s n) x =
    if decide (d - Z.of_nat n <= x < d) then load8 m (s - (d - x)) else load8 m x.
Proof.
  revert m d s. induction n as [|n IH]; intros m d s Hd; simpl.
  { by rewrite decide_False by lia. }
  rewrite IH by lia. rewrite !load8_store8.
  repeat case_decide; try lia; subst; try done.
  - f_equal. lia.
  - rewrite u8_small by apply load8_range. f_equal. lia.
Qed.

Lemma memmove_lookup m dst src n x :
  0 <= n ->
  load8 (memmove m dst src n) x =
    if decide (dst <= x < dst + n) then load8 m (src + (x - dst)) else load8 m x.
Proof.
  intros Hn. unfold memmove. case_if; to_prop.
  - rewrite copy_down_spec by lia. rewrite Z2Nat.id by lia.
    repeat case_decide; try lia. f_equal. lia.
  - rewrite copy_up_spec by (apply andb_false_iff in Heqb; destruct Heqb; to_prop; lia).
    by rewrite Z2Nat.id by lia.
Qed.

(** memmove copies: after [memmove(dst, src, n)] the destination range holds the bytes the
    source range held before the call, whichever way the two ranges overlap, and no byte
    outside the destination range changes. *)
Theorem memmove_correct (m : memory) (dst src n : Z) (Hn : 0 <= n) :
  (forall i, 0 <= i < n -> load8 (memmove m dst src n) (dst + i) = load8 m (src + i)) /\
  (forall a, ~ (dst <= a < dst + n) -> load8 (memmove m dst src n) a = load8 m a).
Proof.
  split.
  - intros i Hi. rewrite memmove_lookup, decide_True by lia. f_equal. lia.
  - intros a Ha. rewrite memmove_lookup, decide_False by lia. done.
Qed.

Lemma memmove_correct_witness :
  0 <= 3 /\
  load8 (memmove (fun a => a) 11 10 3) 13 = 12 /\ load8 (memmove (fun a => a) 11 10 3) 14 = 14.
Proof.
  split; [lia|]. split.
  - exact (proj1 (memmove_correct (fun a => a) 11 10 3 ltac:(lia)) 2 ltac:(lia)).
  - exact (proj2 (memmove_correct (fun a => a) 11 10 3 ltac:(lia)) 14 ltac:(lia)).
Defined.

(** ** C strings

    The string held by a field of at most [n] bytes: the bytes before the first NUL, all [n] of
    them when there is none, as in the name field of a directory entry. *)
Fixpoint field_string (m : memory) (p : Z) (n : nat) : list Z :=
  match n with
  | O => []
  | S n => if load8 m p =? 0 then [] else load8 m p :: field_string m (p + 1) n
  end.

Lemma field_string_S m p n :
  field_string m p (S n) =
    if load8 m p =? 0 then [] else load8 m p :: field_string m (p + 1) n.
Proof. done. Qed.

Lemma field_string_ext m m' p n :
  (forall a, p <= a < p + Z.of_nat n -> load8 m a = load8 m' a) ->
  field_string m p n = field_string m' p n.
Proof.
  revert p. induction n as [|n IH]; intros p H; simpl; [done|].
  rewrite (H p) by lia. destruct (load8 m' p =? 0); [done|].
  f_equal. apply IH. intros a Ha. apply H. lia.
Qed.

Lemma field_string_length m p n : (length (field_string m p n) <= n)%nat.
Proof.
  revert p. induction n as [|n IH]; intros p; simpl; [lia|].
  case_if; simpl; [lia|]. specialize (IH (p + 1)). lia.
Qed.

(** A field whose string is shorter than the field holds a NUL. *)
Lemma field_string_short m p n :
  0 <= n -> Z.of_nat (length (field_string m p (Z.to_nat n))) < n ->
  exists i, 0 <= i < n /\ load8 m (p + i) = 0.
Proof.
  intros Hn. apply Z_of_nat_complete in Hn as [k ->]. rewrite Nat2Z.id.
  revert p. induction k as [|k IH]; intros p Hl; cbn [field_string length] in Hl; [lia|].
  destruct (load8 m p =? 0) eqn:E; to_prop.
  - exists 0. rewrite Z.add_0_r. split; [lia|done].
  - destruct (IH (p + 1)) as (i & Hi & Hz); [cbn [length] in Hl; lia|].
    exists (i + 1). split; [lia|]. by replace (p + (i + 1)) with (p + 1 + i) by lia.
Qed.

Lemma strncmp_loop_zero m p q n :
  strncmp_loop m p q n = 0 <-> field_string m p n = field_string m q n.
Proof.
  revert p q. induction n as [|n IH]; intros p q; simpl; [done|].
  destruct (load8 m p =? 0) eqn:Ep, (load8 m q =? 0) eqn:Eq; to_prop; simpl.
  - rewrite Ep, Eq. done.
  - split; [lia | done].
  - destruct (load8 m p =? load8 m q) eqn:E; to_prop; [lia|]. split; [lia | done].
  - destruct (load8 m p =? load8 m q) eqn:E; to_prop.
    + rewrite IH, E. split; [by intros -> | by intros [= ->]].
    + split; [lia | intros [= ? ?]; lia].
Qed.

(** strncmp (and namecmp, which calls it with DIRSIZ) returns zero exactly when the two
    fields of at most [n] bytes hold the same string, NUL-terminated or full. *)
Theorem strncmp_zero_iff (m : memory) (p q n : Z) :
  strncmp m p q n = 0 <->
  field_string m p (Z.to_nat n) = field_string m q (Z.to_nat n).
Proof. apply strncmp_loop_zero. Qed.

Lemma strncpy_loop_out m s t n a :
  ~ (s <= a < s + Z.of_nat n) -> load8 (strncpy_loop m s t n) a = load8 m a.
Proof.
  revert m s t. induction n as [|n IH]; intros m s t Ha; cbn [strncpy_loop]; [done|].
  case_if.
  - rewrite stosb_spec, load8_store8, !decide_False by lia. done.
  - rewrite IH, load8_store8_ne by lia. done.
Qed.

Lemma strncpy_loop_string m s t n :
  t + Z.of_nat n <= s \/ s + Z.of_nat n <= t ->
  field_string (strncpy_loop m s t n) s n = field_string m t n.
Proof.
  revert m s t. induction n as [|n IH]; intros m s t Hd; cbn [strncpy_loop field_string]; [done|].
  pose proof (load8_range m t) as Hr.
  destruct (load8 m t =? 0) eqn:Heqb; to_prop.
  - rewrite stosb_spec, decide_False, load8_store8_eq, u8_small, Heqb by lia. done.
  - rewrite strncpy_loop_out, load8_store8_eq, u8_small by lia.
    rewrite (proj2 (Z.eqb_neq _ 0) Heqb). f_equal. rewrite IH by lia.
    apply field_string_ext. intros a Ha. apply load8_store8_ne. lia.
Qed.

(** strncpy into a field that does not overlap the source stores the source's string, and
    writes no byte outside the field. *)
Theorem strncpy_correct (m : memory) (s t n : Z)
    (Hd : t + Z.max 0 n <= s \/ s + Z.max 0 n <= t) :
  field_string (strncpy m s t n) s (Z.to_nat n) = field_string m t (Z.to_nat n) /\
  (forall a, ~ (s <= a < s + n) -> load8 (strncpy m s t n) a = load8 m a).
Proof.
  unfold strncpy. split.
  - apply strncpy_loop_string. lia.
  - intros a Ha. apply strncpy_loop_out. lia.
Qed.

Lemma strncpy_correct_witness :
  (100 + Z.max 0 4 <= 200 \/ 200 + Z.max 0 4 <= 100) /\
  field_string (strncpy (fun a => if a <? 103 then 65 else 0) 200 100 4) 200 4 = [65; 65; 65].
Proof.
  split; [left; discriminate|].
  exact (proj1 (strncpy_correct (fun a => if a <? 103 then 65 else 0) 200 100 4
    (or_introl (ltac:(discriminate) : 100 + Z.max 0 4 <= 200)))).
Defined.

Lemma safestrcpy_loop_out m s t n a :
  ~ (s <= a <= s + Z.of_nat n) -> load8 (safestrcpy_loop m s t n) a = load8 m a.
Proof.
  revert m s t. induction n as [|n IH]; intros m s t Ha; cbn [safestrcpy_loop].
  - by rewrite load8_store8_ne by lia.
  - case_if.
    + rewrite !load8_store8_ne by lia. done.
    + rewrite IH, load8_store8_ne by lia. done.
Qed.

Lemma safestrcpy_loop_string m s t n k :
  t + Z.of_nat n <= s \/ s + Z.of_nat n < t ->
  field_string (safestrcpy_loop m s t n) s (S n + k) = field_string m t n.
Proof.
  revert m s t. induction n as [|n IH]; intros m s t Hd; cbn [safestrcpy_loop].
  - cbn [Nat.add field_string]. by rewrite load8_store8_eq.
  - change (S (S n) + k)%nat with (S (S n + k)). rewrite !field_string_S.
    pose proof (load8_range m t) as Hr.
    destruct (load8 m t =? 0) eqn:Heqb; to_prop.
    + rewrite load8_store8_ne, load8_store8_eq, u8_small, Heqb by lia. done.
    + rewrite safestrcpy_loop_out, load8_store8_eq, u8_small by lia.
      rewrite (proj2 (Z.eqb_neq _ 0) Heqb). f_equal.
      rewrite (IH _ (s + 1)) by lia.
      apply field_string_ext. intros a Ha. apply load8_store8_ne. lia.
Qed.

(** safestrcpy with room for [n > 0] bytes leaves in the destination the first [n - 1]
    bytes of the source's string, always followed by a NUL inside the [n] bytes, and writes
    nothing outside them. *)
Theorem safestrcpy_terminates_string (m : memory) (s t n : Z) (Hn : 0 < n)
    (Hd : t + n <= s \/ s + n <= t) :
  field_string (safestrcpy m s t n) s (Z.to_nat n) = field_string m t (Z.to_nat (n - 1)) /\
  (exists i, 0 <= i < n /\ load8 (safestrcpy m s t n) (s + i) = 0) /\
  (forall a, ~ (s <= a < s + n) -> load8 (safestrcpy m s t n) a = load8 m a).
Proof.
  unfold safestrcpy. rewrite (proj2 (Z.leb_gt n 0)) by lia.
  assert (Hs : field_string (safestrcpy_loop m s t (Z.to_nat (n - 1))) s (Z.to_nat n)
               = field_string m t (Z.to_nat (n - 1))).
  { replace (Z.to_nat n) with (S (Z.to_nat (n - 1)) + 0)%nat by lia.
    apply safestrcpy_loop_string. lia. }
  split_and!; [done| |intros a Ha; apply safestrcpy_loop_out; lia].
  apply (field_string_short (safestrcpy_loop m s t (Z.to_nat (n - 1))) s n); [lia|].
  rewrite Hs. pose proof (field_string_length m t (Z.to_nat (n - 1))). lia.
Qed.

Lemma safestrcpy_terminates_string_witness :
  field_string (safestrcpy (fun a => if a <? 200 then 65 else 66) 200 100 4) 200 4 = [65; 65; 65].
Proof.
  exact (proj1 (safestrcpy_terminates_string (fun a => if a <? 200 then 65 else 66) 200 100 4
    (ltac:(reflexivity) : 0 < 4) (or_introl (ltac:(discriminate) : 100 + 4 <= 200)))).
Defined.
