(* ===== verification/Mmu.v ===== *)
(** * Mmu: addresses, page-table entries and their flags (mmu.h, memlayout.h) *)

From S2P Require Import Prelude.

Definition PGSIZE : Z := 4096.
Definition EXTMEM : Z := 0x100000.
Definition PHYSTOP : Z := 0xE000000.
Definition DEVSPACE : Z := 0xFE000000.
Definition KERNBASE : Z := 0x80000000.
Definition KERNLINK : Z := KERNBASE + EXTMEM.
Definition NPDENTRIES : Z := 1024.

Definition V2P (a : Z) : Z := u32 (a - KERNBASE).
Definition P2V (a : Z) : Z := u32 (a + KERNBASE).

Definition PTXSHIFT : Z := 12.
Definition PDXSHIFT : Z := 22.
Definition PDX (va : Z) : Z := Z.land (Z.shiftr (u32 va) PDXSHIFT) 0x3FF.
Definition PTX (va : Z) : Z := Z.land (Z.shiftr (u32 va) PTXSHIFT) 0x3FF.
Definition PGADDR (d t o : Z) : Z :=
  u32 (Z.lor (Z.lor (Z.shiftl d PDXSHIFT) (Z.shiftl t PTXSHIFT)) o).

Definition PGROUNDUP (sz : Z) : Z := Z.land (u32 (sz + PGSIZE - 1)) (Z.lnot (PGSIZE - 1)).
Definition PGROUNDDOWN (a : Z) : Z := Z.land (u32 a) (Z.lnot (PGSIZE - 1)).

Definition PTE_P : Z := 0x001.
Definition PTE_W : Z := 0x002.
Definition PTE_U : Z := 0x004.
Definition PTE_PG : Z := 0x200.
Definition PTE_ADDR (pte : Z) : Z := Z.land (u32 pte) (Z.lnot 0xFFF).
Definition PTE_FLAGS (pte : Z) : Z := Z.land (u32 pte) 0xFFF.

(** [e & flag] as a C condition. *)
Definition has_flag (e flag : Z) : bool := negb (Z.land e flag =? 0).

(** ** Arithmetic readings of the bit operations *)

Lemma land_lnot_ones a n : 0 <= n -> Z.land a (Z.lnot (Z.ones n)) = a / 2 ^ n * 2 ^ n.
Proof.
  intros Hn. rewrite <- Z.ldiff_land, Z.ldiff_ones_r by done.
  by rewrite Z.shiftl_mul_pow2, Z.shiftr_div_pow2 by done.
Qed.

Lemma PGROUNDDOWN_eq a : PGROUNDDOWN a = u32 a / PGSIZE * PGSIZE.
Proof. unfold PGROUNDDOWN. change (PGSIZE - 1) with (Z.ones 12). by rewrite land_lnot_ones. Qed.
Lemma PGROUNDUP_eq a : PGROUNDUP a = u32 (a + PGSIZE - 1) / PGSIZE * PGSIZE.
Proof. unfold PGROUNDUP. change (PGSIZE - 1) with (Z.ones 12). by rewrite land_lnot_ones. Qed.
Lemma PTE_ADDR_eq e : PTE_ADDR e = u32 e / PGSIZE * PGSIZE.
Proof. unfold PTE_ADDR. change 0xFFF with (Z.ones 12). by rewrite land_lnot_ones. Qed.
Lemma PTE_FLAGS_eq e : PTE_FLAGS e = u32 e mod PGSIZE.
Proof. unfold PTE_FLAGS. change 0xFFF with (Z.ones 12). by rewrite Z.land_ones. Qed.

Lemma PDX_eq va : PDX va = u32 va / 2 ^ 22.
Proof.
  unfold PDX, PDXSHIFT. change 0x3FF with (Z.ones 10).
  rewrite Z.land_ones, Z.shiftr_div_pow2 by lia. apply Z.mod_small.
  pose proof (u32_range va). dlia.
Qed.
Lemma PTX_eq va : PTX va = u32 va / 2 ^ 12 mod 2 ^ 10.
Proof.
  unfold PTX, PTXSHIFT. change 0x3FF with (Z.ones 10).
  by rewrite Z.land_ones, Z.shiftr_div_pow2 by lia.
Qed.

Lemma PDX_range va : 0 <= PDX va < NPDENTRIES.
Proof. rewrite PDX_eq. pose proof (u32_range va). unfold NPDENTRIES. dlia. Qed.
Lemma PTX_range va : 0 <= PTX va < NPDENTRIES.
Proof. rewrite PTX_eq. by apply Z.mod_pos_bound. Qed.

(** The page a virtual address lies in, and how the two indices determine it. *)
Definition vpn (va : Z) : Z := u32 va / PGSIZE.

Lemma vpn_indices va : vpn va = PDX va * 1024 + PTX va.
Proof. rewrite PDX_eq, PTX_eq. unfold vpn, PGSIZE. pose proof (u32_range va). dlia. Qed.

Lemma vpn_eq_iff va va' : vpn va = vpn va' <-> PDX va = PDX va' /\ PTX va = PTX va'.
Proof.
  rewrite !vpn_indices. pose proof (PTX_range va). pose proof (PTX_range va').
  unfold NPDENTRIES in *. lia.
Qed.

Lemma PGROUNDDOWN_aligned a : PGROUNDDOWN a mod PGSIZE = 0.
Proof. rewrite PGROUNDDOWN_eq. apply Z.mod_mul. done. Qed.

(** A page address and 12 bits of flags do not interfere in an entry. *)
Lemma lor_page_flags pa fl :
  pa mod PGSIZE = 0 -> 0 <= fl < PGSIZE -> Z.lor pa fl = pa + fl.
Proof.
  intros Hpa Hfl.
  assert (Hd : Z.land pa fl = 0); [|rewrite <- Z.add_lor_land, Hd; lia].
  apply Z.bits_inj'. intros i Hi. rewrite Z.land_spec, Z.bits_0.
  destruct (decide (i < 12)).
  - replace pa with (pa / PGSIZE * 2 ^ 12) by (unfold PGSIZE in *; dlia).
    by rewrite Z.mul_pow2_bits_low.
  - replace (Z.testbit fl i) with false; [apply andb_false_r|]. symmetry.
    destruct (decide (fl = 0)) as [->|]; [apply Z.bits_0|].
    apply Z.bits_above_log2; [lia|]. apply Z.log2_lt_pow2; [lia|].
    eapply Z.lt_le_trans; [apply Hfl|]. change PGSIZE with (2 ^ 12).
    apply Z.pow_le_mono_r; lia.
Qed.

Lemma PTE_ADDR_lor pa fl :
  pa mod PGSIZE = 0 -> 0 <= pa < 2 ^ 32 -> 0 <= fl < PGSIZE -> PTE_ADDR (Z.lor pa fl) = pa.
Proof.
  intros Ha Hr Hf. rewrite lor_page_flags, PTE_ADDR_eq by done.
  unfold PGSIZE in *. rewrite u32_small by dlia. dlia.
Qed.

Lemma has_flag_lor a b f : has_flag (Z.lor a b) f = has_flag a f || has_flag b f.
Proof.
  unfold has_flag. rewrite Z.land_lor_distr_l, <- negb_andb. f_equal.
  destruct (Z.eqb_spec (Z.lor (Z.land a f) (Z.land b f)) 0) as [E|E].
  - apply Z.lor_eq_0_iff in E as [-> ->]. done.
  - destruct (Z.eqb_spec (Z.land a f) 0) as [E1|], (Z.eqb_spec (Z.land b f) 0) as [E2|]; try done.
    by rewrite E1, E2 in E.
Qed.

Lemma P2V_V2P a : KERNBASE <= a < 2 ^ 32 -> P2V (V2P a) = a.
Proof. unfold P2V, V2P, KERNBASE. intros. rewrite u32_add_l. rewrite u32_small by lia. lia. Qed.
Lemma V2P_P2V a : 0 <= a < 2 ^ 31 -> V2P (P2V a) = a.
Proof. unfold P2V, V2P, KERNBASE. intros. rewrite u32_sub_l. rewrite u32_small by lia. lia. Qed.
