(* ===== verification/Syscall.v ===== *)
(** * Syscall: fetching system call arguments from user space (syscall.c)

    The user part of the address space of the calling process is the range [0, sz); the kernel
    reads the saved user stack and the blocks and strings its words point to. The functions
    return [None] where the C code returns -1. *)

From S2P Require Import Prelude Memory Mmu.

(** What the argument fetchers read of the calling process: [myproc()->sz],
    [myproc()->tf->esp], and memory through the process's page table. *)
Record uctx : Type := mkUctx { u_sz : Z; u_esp : Z; u_mem : memory }.

Definition fetchint (u : uctx) (addr : Z) : option Z :=
  if (u_sz u <=? addr) || (u_sz u <? u32 (addr + 4)) then None
  else Some (s32 (load32 (u_mem u) addr)).

(** The scan [for(s = *pp; s < ep; s++)] over the [n] bytes left before the end. *)
Fixpoint fetchstr_loop (m : memory) (start s : Z) (n : nat) : option Z :=
  match n with
  | O => None
  | S n => if load8 m s =? 0 then Some (s - start) else fetchstr_loop m start (s + 1) n
  end.

(** On success, the pointer stored in [*pp] and the length returned. *)
Definition fetchstr (u : uctx) (addr : Z) : option (Z * Z) :=
  if u_sz u <=? addr then None
  else n ← fetchstr_loop (u_mem u) addr addr (Z.to_nat (u_sz u - addr)); Some (addr, n).

Definition argint (u : uctx) (n : Z) : option Z := fetchint u (u32 (u_esp u + 4 + 4 * n)).

(** On success, the pointer stored in [*pp]. *)
Definition argptr (u : uctx) (n size : Z) : option Z :=
  i ← argint u n;
  if (size <? 0) || (u_sz u <=? u32 i) || (u_sz u <? u32 (u32 i + size)) then None
  else Some (u32 i).

Definition argstr (u : uctx) (n : Z) : option (Z * Z) :=
  addr ← argint u n; fetchstr u (u32 addr).

(** ** The fetchers stay inside the process *)

Lemma fetchint_inv u addr v :
  0 <= addr -> u_sz u <= KERNBASE -> fetchint u addr = Some v ->
  addr + 4 <= u_sz u /\ v = s32 (load32 (u_mem u) addr).
Proof.
  unfold fetchint, KERNBASE. intros Ha Hsz. case_if; [done|]. intros [= <-]. to_prop.
  rewrite u32_small in * by lia. lia.
Qed.

Lemma fetchstr_loop_spec m start s n :
  match fetchstr_loop m start s n with
  | Some k => s - start <= k < s - start + Z.of_nat n /\ load8 m (start + k) = 0 /\
              forall a, s <= a < start + k -> load8 m a <> 0
  | None => forall a, s <= a < s + Z.of_nat n -> load8 m a <> 0
  end.
Proof.
  revert s. induction n as [|n IH]; intros s; simpl; [intros a; lia|].
  destruct (load8 m s =? 0) eqn:E; to_prop.
  { split_and!; [lia|lia| |intros a; lia]. by replace (start + (s - start)) with s by lia. }
  specialize (IH (s + 1)). destruct (fetchstr_loop m start (s + 1) n) as [k|].
  - destruct IH as (? & ? & Hne). split_and!; [lia|lia|done|].
    intros a Ha. destruct (decide (a = s)) as [->|]; [done|]. apply Hne. lia.
  - intros a Ha. destruct (decide (a = s)) as [->|]; [done|]. apply IH. lia.
Qed.

(** argptr only ever hands the kernel a block that lies wholly inside the calling
    process: when it succeeds for a user image below KERNBASE, all [size] bytes from the
    pointer are below [sz], although the sum in its test is a wrapping 32-bit sum. *)
Theorem argptr_in_process (u : uctx) (n size p : Z)
    (Hsz : u_sz u <= KERNBASE) (Hsize : size < 2 ^ 31) (H : argptr u n size = Some p) :
  0 <= p /\ 0 <= size /\ p + size <= u_sz u.
Proof.
  unfold argptr in H. destruct (argint u n) as [i|]; simpl in H; [|done].
  destruct (_ || _) eqn:E in H; [done|]. injection H as <-. to_prop.
  pose proof (u32_range i). unfold KERNBASE in *.
  rewrite (u32_small (u32 i + size)) in * by lia. lia.
Qed.

Lemma argptr_in_process_witness :
  argptr (mkUctx 4096 100 (fun a => if a =? 105 then 8 else 0)) 0 16 = Some 2048 /\
  2048 + 16 <= 4096.
Proof.
  split; [vm_compute; reflexivity|].
  exact (proj2 (proj2 (argptr_in_process
    (mkUctx 4096 100 (fun a => if a =? 105 then 8 else 0)) 0 16 2048
    ltac:(unfold KERNBASE; simpl; lia) ltac:(lia) ltac:(vm_compute; reflexivity)))).
Defined.

(** fetchstr decides whether a NUL-terminated string starts at [addr] inside the process:
    it returns the length of that string (no NUL inside, a NUL after, all below [sz]), and
    fails exactly when [addr] is not below [sz] or no byte from [addr] to [sz] is NUL. *)
Theorem fetchstr_correct (u : uctx) (addr : Z) :
  match fetchstr u addr with
  | Some (p, n) =>
      p = addr /\ 0 <= n /\ addr + n < u_sz u /\ load8 (u_mem u) (addr + n) = 0 /\
      forall a, addr <= a < addr + n -> load8 (u_mem u) a <> 0
  | None => forall a, addr <= a < u_sz u -> load8 (u_mem u) a <> 0
  end.
Proof.
  unfold fetchstr. case_if; to_prop; [intros a; lia|].
  pose proof (fetchstr_loop_spec (u_mem u) addr addr (Z.to_nat (u_sz u - addr))) as Hl.
  destruct (fetchstr_loop _ _ _ _) as [k|]; simpl.
  - destruct Hl as (? & ? & Hne). split_and!; [done|lia|lia|done|done].
  - intros a Ha. apply Hl. lia.
Qed.
