(* ===== verification/Lottery.v ===== *)
(** * Lottery: the lottery scheduler (offline_3: proc.c, sysproc.c, proc.h, pstat.h)

    The process table, the pseudo-random draw, one round of the scheduler loop, and the two
    system calls settickets and getpinfo. The code that runs between the scheduler's critical
    sections (interrupt handlers, the chosen process until it switches back) is a parameter. *)

From S2P Require Import Prelude Memory Mmu Syscall.

Inductive procstate := UNUSED | EMBRYO | SLEEPING | RUNNABLE | RUNNING | ZOMBIE.
#[export] Instance procstate_eq_dec : EqDecision procstate.
Proof. solve_decision. Defined.

Definition NPROC : Z := 64.
Definition KSTACKSIZE : Z := 4096.

(** struct proc, less the fields no code of this file touches. *)
Record proc : Type := mkProc {
  pgdir : Z;
  kstack : Z;
  state : procstate;
  pid : Z;
  tickets : Z;
  init_ticks : Z;
  pticks : Z  (* the field is named [ticks], like the global *)
}.

Definition set_state (st : procstate) (p : proc) : proc :=
  mkProc (pgdir p) (kstack p) st (pid p) (tickets p) (init_ticks p) (pticks p).
Definition set_tickets (n : Z) (p : proc) : proc :=
  mkProc (pgdir p) (kstack p) (state p) (pid p) n (init_ticks p) (pticks p).
Definition set_init_ticks (n : Z) (p : proc) : proc :=
  mkProc (pgdir p) (kstack p) (state p) (pid p) (tickets p) n (pticks p).
Definition set_pticks (n : Z) (p : proc) : proc :=
  mkProc (pgdir p) (kstack p) (state p) (pid p) (tickets p) (init_ticks p) n.

(** The table, the global tick counter, and the scheduler's CPU: the process it runs, the page
    directory loaded in cr3 and the stack pointer in its task state. *)
Record kstate : Type := mkK {
  ptable : list proc;
  ticks : Z;
  cpu_proc : option nat;
  cr3 : Z;
  ts_esp0 : Z;
  kpgdir : Z
}.

Definition set_ptable (t : list proc) (s : kstate) : kstate :=
  mkK t (ticks s) (cpu_proc s) (cr3 s) (ts_esp0 s) (kpgdir s).
Definition set_cpu_proc (o : option nat) (s : kstate) : kstate :=
  mkK (ptable s) (ticks s) o (cr3 s) (ts_esp0 s) (kpgdir s).
Definition load_cr3 (v : Z) (s : kstate) : kstate :=
  mkK (ptable s) (ticks s) (cpu_proc s) v (ts_esp0 s) (kpgdir s).
Definition set_esp0 (v : Z) (s : kstate) : kstate :=
  mkK (ptable s) (ticks s) (cpu_proc s) (cr3 s) v (kpgdir s).

Definition with_proc (i : nat) (f : proc -> proc) (s : kstate) : kstate :=
  set_ptable (alter f i (ptable s)) s.

Definition is_runnable (p : proc) : bool := bool_decide (state p = RUNNABLE).

(** ** The draw *)

(** The loop of random(): a linear congruential step modulo the seed, in [uint] arithmetic. *)
Fixpoint random_loop {S : Type} (n : nat) (m xn : Z) : M S Z :=
  match n with
  | O => ret xn
  | Datatypes.S n =>
      if m =? 0 then fault DivideError
      else random_loop n m (u32 (5 * xn + 11) mod m)
  end.
Definition random {S : Type} (seed : Z) : M S Z := random_loop 500 seed seed.



(** The search for the winner: the index of the first RUNNABLE process whose running ticket
    count is not below the winning ticket. *)
Fixpoint pick (tbl : list proc) (ticket_count winning_ticket : Z) : option nat :=
  match tbl with
  | [] => None
  | p :: tbl =>
      if negb (is_runnable p) then S <$> pick tbl ticket_count winning_ticket
      else
        let ticket_count := s32 (ticket_count + tickets p) in
        if ticket_count <? winning_ticket
        then S <$> pick tbl ticket_count winning_ticket
        else Some O
  end.

(** ** Running the winner *)

Definition V2P (a : Z) : Z := u32 (a - KERNBASE).

Definition switchuvm (p : proc) : M kstate unit :=
  panic_if (kstack p =? 0) "switchuvm: no kstack";;
  panic_if (pgdir p =? 0) "switchuvm: no pgdir";;
  modify (set_esp0 (u32 (kstack p + KSTACKSIZE)));;
  modify (load_cr3 (V2P (pgdir p))).
Definition switchkvm : M kstate unit := modify (fun s => load_cr3 (V2P (kpgdir s)) s).

(** [p->ticks += ticks - p->init_ticks]: unsigned arithmetic stored back into an [int]. *)
Definition charge (now : Z) (p : proc) : proc :=
  set_pticks (s32 (pticks p + (now - init_ticks p))) p.

(** From the choice of a process to the end of its turn; [run i] is what happens from the
    switch to its context until it switches back to the scheduler. *)
Definition run_winner (run : nat -> kstate -> kstate) (i : nat) : M kstate unit :=
  s ← get; p ← deref (ptable s !! i);
  modify (set_cpu_proc (Some i));;
  switchuvm p;;
  modify (with_proc i (set_state RUNNING));;
  modify (fun s => with_proc i (set_init_ticks (s32 (ticks s))) s);;
  modify (run i);;
  switchkvm;;
  modify (fun s => with_proc i (charge (ticks s)) s);;
  modify (set_cpu_proc None).


(** ** System calls *)

(** struct pstat in user memory: inuse, tickets, pid and ticks, NPROC words each. *)
Definition pstat_inuse (i : Z) : Z := 4 * i.
Definition pstat_tickets (i : Z) : Z := 4 * (NPROC + i).
Definition pstat_pid (i : Z) : Z := 4 * (2 * NPROC + i).
Definition pstat_ticks (i : Z) : Z := 4 * (3 * NPROC + i).
Definition sizeof_pstat : Z := 4 * (4 * NPROC).

Fixpoint getpinfo_loop (m : memory) (temp index : Z) (tbl : list proc) : memory :=
  match tbl with
  | [] => m
  | p :: tbl =>
      let m :=
        if bool_decide (state p <> UNUSED) then
          let m := store32 m (temp + pstat_pid index) (pid p) in
          let m := store32 m (temp + pstat_ticks index) (pticks p) in
          let m := store32 m (temp + pstat_tickets index) (tickets p) in
          store32 m (temp + pstat_inuse index) 1
        else m in
      getpinfo_loop m temp (index + 1) tbl
  end.

(** The result of argptr is not tested: when the pointer is rejected the kernel goes on with
    an uninitialised one. *)
Definition sys_getpinfo (u : uctx) : M kstate (Z * memory) :=
  match argptr u 0 sizeof_pstat with
  | None => fault UninitRead
  | Some temp =>
      if temp =? 0 then ret (-1, u_mem u)
      else s ← get; ret (0, getpinfo_loop (u_mem u) temp 0 (ptable s))
  end.

Definition settickets (p t : Z) : M kstate Z :=
  if p <? 0 then ret (-1)
  else if t <? 0 then ret (-1)
  else
    s ← get;
    match find_index (fun q => pid q =? p) (ptable s) with
    | Some i => modify (with_proc i (set_tickets t));; ret 0
    | None => ret (-2)
    end.

(** As in getpinfo, the results of argint are not tested. *)
Definition sys_settickets (u : uctx) : M kstate Z :=
  match argint u 0, argint u 1 with
  | Some p, Some t => settickets p t
  | _, _ => fault UninitRead
  end.

(** ** The draw is in range *)

Lemma random_loop_spec {S : Type} n m xn (s : S) :
  0 <= xn < m -> returns (random_loop n m xn) s (fun r s' => s' = s /\ 0 <= r < m).
Proof.
  revert xn. induction n as [|n IH]; intros xn Hxn; simpl; [done|].
  rewrite (proj2 (Z.eqb_neq m 0)) by lia.
  apply IH, Z.mod_pos_bound. lia.
Qed.

Lemma random_loop_S {S : Type} n m xn :
  random_loop (S := S) (Datatypes.S n) m xn =
    if m =? 0 then fault DivideError else random_loop n m (u32 (5 * xn + 11) mod m).
Proof. done. Qed.

(** random(seed) always returns for a non-zero seed, with a value below the seed; with a
    zero seed the first step divides by zero. *)
Theorem random_total {S : Type} (seed : Z) (s : S) (Hseed : 0 <= seed < 2 ^ 32) :
  if seed =? 0 then random seed s = Fault DivideError
  else returns (random seed) s (fun r s' => s' = s /\ 0 <= r < seed).
Proof.
  unfold random. change 500%nat with (Datatypes.S 499). rewrite random_loop_S.
  case_if; to_prop; [done|]. apply random_loop_spec, Z.mod_pos_bound. lia.
Qed.

Lemma random_total_witness :
  0 <= 7 < 2 ^ 32 /\ random (S := unit) 7 tt = Ret 3 tt /\
  returns (random 7) tt (fun r s' => s' = tt /\ 0 <= r < 7).
Proof.
  split; [lia|]. split; [vm_compute; reflexivity|].
  exact (random_total 7 tt ltac:(lia)).
Defined.


(** ** The winner *)

(** The weight of a process in the draw, and the weight of a prefix of the table. *)
Definition weight (p : proc) : Z := if is_runnable p then tickets p else 0.
Definition weights (tbl : list proc) : Z := sum_list_Z (map weight tbl).

(** Tables on which the ticket arithmetic stays within [int]. *)
Record tickets_ok (tbl : list proc) : Prop := {
  tickets_nonneg : Forall (fun p => 0 <= tickets p) tbl;
  tickets_fit : weights tbl < 2 ^ 31 - 1
}.

Lemma weight_nonneg p : 0 <= tickets p -> 0 <= weight p.
Proof. unfold weight. case_if; lia. Qed.

Lemma weights_nonneg tbl : Forall (fun p => 0 <= tickets p) tbl -> 0 <= weights tbl.
Proof.
  unfold weights. induction 1 as [|p tbl Hp _ IH]; simpl; [lia|].
  pose proof (weight_nonneg p Hp). lia.
Qed.


Lemma weights_cons p tbl : weights (p :: tbl) = weight p + weights tbl.
Proof. done. Qed.

Lemma weights_app t1 t2 : weights (t1 ++ t2) = weights t1 + weights t2.
Proof. unfold weights. by rewrite map_app, sum_list_Z_app. Qed.

Lemma weight_runnable p : state p = RUNNABLE -> weight p = tickets p.
Proof. intros H. unfold weight, is_runnable. by rewrite bool_decide_true. Qed.
Lemma weight_not_runnable p : state p <> RUNNABLE -> weight p = 0.
Proof. intros H. unfold weight, is_runnable. by rewrite bool_decide_false. Qed.

(** The winner is the first RUNNABLE process at which the running count reaches the draw. *)
Lemma pick_spec tbl c w i :
  Forall (fun p => 0 <= tickets p) tbl -> 0 <= c -> c + weights tbl < 2 ^ 31 ->
  pick tbl c w = Some i <->
  exists p, tbl !! i = Some p /\ state p = RUNNABLE /\ w <= c + weights (take (S i) tbl) /\
    (forall j q, (j < i)%nat -> tbl !! j = Some q -> state q = RUNNABLE ->
                 c + weights (take (S j) tbl) < w).
Proof.
  intros Hf. revert c i. induction Hf as [|p tbl Hp Hf IH]; intros c i Hc Hb.
  { simpl. split; [done|]. by intros (? & ? & _). }
  pose proof (weights_nonneg tbl Hf) as Hw. rewrite weights_cons in Hb.
  assert (Hz : weights (take 0 tbl) = 0) by done.
  assert (Hskip : forall c', c' = c + weight p -> (state p = RUNNABLE -> c' < w) ->
    S <$> pick tbl c' w = Some i <-> exists q, (p :: tbl) !! i = Some q /\
      state q = RUNNABLE /\ w <= c + weights (take (S i) (p :: tbl)) /\
      (forall j r, (j < i)%nat -> (p :: tbl) !! j = Some r -> state r = RUNNABLE ->
                   c + weights (take (S j) (p :: tbl)) < w)).
  { intros c' -> Hlt. pose proof (weight_nonneg p Hp).
    rewrite fmap_Some. setoid_rewrite IH; [|lia|lia]. split.
    - intros (k & (q & Hq & Hr & Hle & Hall) & ->). exists q. cbn [take].
      rewrite weights_cons. split_and!; [done|done|lia|].
      intros [|j] r Hj Hlk Hrun; cbn [take] in *; rewrite weights_cons.
      + injection Hlk as ->. specialize (Hlt Hrun). lia.
      + specialize (Hall j r ltac:(lia) Hlk Hrun). lia.
    - intros (q & Hq & Hr & Hle & Hall). destruct i as [|i]; cbn [take] in *.
      + injection Hq as ->. rewrite weights_cons in Hle. specialize (Hlt Hr). lia.
      + exists i. split; [|done]. exists q. rewrite weights_cons in Hle.
        split_and!; [done|done|lia|]. intros j r Hj Hlk Hrun.
        specialize (Hall (S j) r ltac:(lia) Hlk Hrun). cbn [take] in Hall.
        rewrite weights_cons in Hall. lia. }
  simpl. unfold is_runnable in *. case_bool_decide as Hrun; simpl.
  - rewrite weight_runnable in * by done. rewrite s32_small by lia. case_if; to_prop.
    + apply Hskip; lia.
    + split.
      * intros [= <-]. exists p. cbn [take]. rewrite weights_cons, weight_runnable by done.
        split_and!; [done|done|lia|]. intros j. lia.
      * intros (q & Hq & Hr & Hle & Hall). destruct i as [|i]; [done|].
        specialize (Hall O p ltac:(lia) eq_refl Hrun). cbn [take] in Hall.
        rewrite weights_cons, weight_runnable in Hall by done. lia.
  - apply Hskip; [|done]. rewrite weight_not_runnable by done. lia.
Qed.

Lemma weights_take_mono tbl i j :
  Forall (fun p => 0 <= tickets p) tbl -> (i <= j)%nat ->
  weights (take i tbl) <= weights (take j tbl).
Proof.
  intros Hf Hij. replace j with (i + (j - i))%nat by lia.
  rewrite <- (take_drop i (take (i + (j - i)) tbl)).
  rewrite take_take, weights_app. replace (i `min` (i + (j - i)))%nat with i by lia.
  assert (0 <= weights (drop i (take (i + (j - i)) tbl))); [|lia].
  apply weights_nonneg. by apply Forall_drop, Forall_take.
Qed.

Lemma weights_take_S tbl i p :
  tbl !! i = Some p -> weights (take (S i) tbl) = weights (take i tbl) + weight p.
Proof.
  intros H. rewrite (take_S_r _ _ p) by done. rewrite weights_app.
  unfold weights at 2. simpl. lia.
Qed.

Definition first_runnable (tbl : list proc) (i : nat) : Prop :=
  Forall (fun q => state q <> RUNNABLE) (take i tbl).
#[export] Instance first_runnable_dec tbl i : Decision (first_runnable tbl i) := _.

Lemma first_runnable_lookup tbl i :
  first_runnable tbl i <->
  forall j q, (j < i)%nat -> tbl !! j = Some q -> state q <> RUNNABLE.
Proof.
  unfold first_runnable. rewrite Forall_lookup. setoid_rewrite lookup_take_Some. naive_solver.
Qed.

Lemma weights_first tbl i : first_runnable tbl i -> weights (take i tbl) = 0.
Proof.
  unfold first_runnable. induction 1 as [|p l Hp _ IH]; [done|].
  rewrite weights_cons, weight_not_runnable; lia || done.
Qed.

Lemma below_prefixes tbl w i :
  (forall j q, (j < i)%nat -> tbl !! j = Some q -> state q = RUNNABLE ->
               weights (take (S j) tbl) < w) ->
  first_runnable tbl i \/ weights (take i tbl) < w.
Proof.
  induction i as [|i IH]; intros H; [by left; apply Forall_nil|].
  destruct (tbl !! i) as [q|] eqn:Hq.
  - destruct (decide (state q = RUNNABLE)) as [Hr|Hr]; [right; by apply (H i q); [lia|..]|].
    rewrite (weights_take_S _ _ q), weight_not_runnable, Z.add_0_r by done.
    destruct IH as [Hf|]; [intros j r Hj; apply H; lia| |by right].
    left. unfold first_runnable. rewrite (take_S_r _ _ q) by done.
    apply Forall_app; split; [done|by apply Forall_singleton].
  - apply lookup_ge_None in Hq. unfold first_runnable. rewrite (take_ge tbl (S i)) by lia.
    unfold first_runnable in IH. rewrite (take_ge tbl i) in IH by lia.
    apply IH. intros j r Hj. apply H. lia.
Qed.

(** The draws that select a given process: from zero for the first RUNNABLE process, the
    half-open interval of its tickets for the others. *)
Lemma pick_interval tbl w i :
  tickets_ok tbl ->
  pick tbl 0 w = Some i <->
  exists p, tbl !! i = Some p /\ state p = RUNNABLE /\
    w <= weights (take i tbl) + tickets p /\
    (first_runnable tbl i \/ weights (take i tbl) < w).
Proof.
  intros [Hf Hb]. rewrite pick_spec by (done || lia). split.
  - intros (p & Hp & Hr & Hle & Hall). exists p.
    rewrite (weights_take_S _ _ p), weight_runnable in Hle by done.
    split_and!; [done|done|lia|]. by apply below_prefixes.
  - intros (p & Hp & Hr & Hle & Hc). exists p.
    rewrite (weights_take_S _ _ p), weight_runnable by done.
    split_and!; [done|done|lia|]. intros j q Hj Hq Hrq. destruct Hc as [Hc|Hc].
    + rewrite first_runnable_lookup in Hc. by destruct (Hc j q).
    + pose proof (weights_take_mono tbl (S j) i Hf ltac:(lia)). lia.
Qed.



(** How many of the winning numbers [0 .. total] select process [i]. *)
Definition winning_numbers (tbl : list proc) (i : nat) : nat :=
  length (filter (fun w => pick tbl 0 w = Some i) (seqZ 0 (weights tbl + 1))).

Lemma length_filter_interval (P : Z -> Prop) `{forall w, Decision (P w)} lo hi n :
  0 <= lo -> lo <= hi -> 0 <= n -> (forall w, 0 <= w < n -> P w <-> lo <= w < hi) ->
  length (filter P (seqZ 0 n)) = Z.to_nat (Z.min hi n - Z.min lo n).
Proof.
  intros Hlo Hhi Hn. revert n Hn. apply (natlike_ind (fun n =>
    (forall w, 0 <= w < n -> P w <-> lo <= w < hi) ->
    length (filter P (seqZ 0 n)) = Z.to_nat (Z.min hi n - Z.min lo n))).
  { intros _. simpl. lia. }
  intros n Hn IH HP. unfold Z.succ. rewrite seqZ_app, filter_app, length_app by lia.
  rewrite IH by (intros w Hw; apply HP; lia). clear IH.
  change (seqZ (0 + n) 1) with [0 + n]. rewrite filter_cons, filter_nil.
  specialize (HP (0 + n) ltac:(lia)). case_decide as Hd; simpl.
  - apply HP in Hd. lia.
  - rewrite HP in Hd. lia.
Qed.

(** C6: the share of each process in the lottery: of the [total + 1] equally ranked winning
    numbers [0 .. total], a RUNNABLE process is selected by as many as it holds tickets, except
    that the first RUNNABLE process of the table is also selected by number zero. *)
Theorem lottery_share (tbl : list proc) (i : nat) (p : proc)
    (Hok : tickets_ok tbl) (Hp : tbl !! i = Some p) (Hr : state p = RUNNABLE) :
  Z.of_nat (winning_numbers tbl i) =
    tickets p + (if decide (first_runnable tbl i) then 1 else 0).
Proof.
  destruct Hok as [Hf Hb]. unfold winning_numbers.
  assert (Hle : weights (take (S i) tbl) <= weights tbl).
  { rewrite <- (take_ge tbl (Nat.max (S i) (length tbl))) at 2 by lia.
    apply weights_take_mono; [done|lia]. }
  rewrite (weights_take_S _ _ p), weight_runnable in Hle by done.
  assert (Hpre : 0 <= weights (take i tbl)).
  { apply weights_nonneg. by apply Forall_take. }
  assert (Ht : 0 <= tickets p) by (rewrite Forall_lookup in Hf; by eapply Hf).
  set (lo := if decide (first_runnable tbl i) then 0 else weights (take i tbl) + 1).
  rewrite (length_filter_interval _ lo (weights (take i tbl) + tickets p + 1)).
  - unfold lo. case_decide as Hfst; [rewrite weights_first in * by done|]; lia.
  - unfold lo. case_decide; lia.
  - unfold lo. case_decide; lia.
  - lia.
  - intros w Hw. rewrite pick_interval by done. unfold lo. split.
    + intros (q & Hq & _ & Hwle & Hcase). simplify_eq. case_decide; destruct Hcase; lia || done.
    + intros Hw'. exists p. case_decide; (split_and!; [done|done|lia|]); [by left|right; lia].
Qed.

(** A table of three processes used as a concrete case: one asleep, two runnable. *)
Definition demo_proc (st : procstate) (pd n t : Z) : proc := mkProc (0x80400000 + n) 0x80500000 st pd t 0 0.
Definition demo_table : list proc :=
  [demo_proc RUNNABLE 1 0 2; demo_proc SLEEPING 2 4096 5; demo_proc RUNNABLE 3 8192 7].

Lemma demo_tickets_ok : tickets_ok demo_table.
Proof.
  split; [repeat (constructor; [simpl; lia|]); constructor | vm_compute; reflexivity].
Qed.

Lemma lottery_share_witness :
  tickets_ok demo_table /\
  Z.of_nat (winning_numbers demo_table 0) = 3 /\ Z.of_nat (winning_numbers demo_table 2) = 7.
Proof.
  split; [exact demo_tickets_ok|]. split.
  - exact (lottery_share demo_table 0 (demo_proc RUNNABLE 1 0 2) demo_tickets_ok eq_refl eq_refl).
  - exact (lottery_share demo_table 2 (demo_proc RUNNABLE 3 8192 7) demo_tickets_ok eq_refl eq_refl).
Defined.

(** ** One scheduling round *)

(** The state handed to the chosen process, and the state after its turn. *)
Definition at_switch (i : nat) (p : proc) (s : kstate) : kstate :=
  mkK (alter (fun q => set_init_ticks (s32 (ticks s)) (set_state RUNNING q)) i (ptable s))
      (ticks s) (Some i) (V2P (pgdir p)) (u32 (kstack p + KSTACKSIZE)) (kpgdir s).
Definition after_turn (i : nat) (s : kstate) : kstate :=
  mkK (alter (charge (ticks s)) i (ptable s)) (ticks s) None (V2P (kpgdir s)) (ts_esp0 s)
      (kpgdir s).

Lemma run_winner_spec run i p s :
  ptable s !! i = Some p -> kstack p <> 0 -> pgdir p <> 0 ->
  run_winner run i s = Ret tt (after_turn i (run i (at_switch i p s))).
Proof.
  intros Hp Hk Hg. unfold run_winner, switchuvm.
  unfold mbind, M_bind, get, deref, ret. rewrite Hp. unfold panic_if, panic, ret.
  rewrite (proj2 (Z.eqb_neq _ 0) Hk), (proj2 (Z.eqb_neq _ 0) Hg).
  unfold modify, ret, at_switch, after_turn. simpl.
  unfold with_proc, set_ptable, set_cpu_proc, load_cr3, set_esp0. simpl.
  by rewrite list_alter_alter_eq.
Qed.






(** CPU accounting: the chosen process is charged exactly the clock ticks of its turn, also
    when the 32-bit tick counter wraps around during the turn. *)
Theorem turn_charges_elapsed (run : nat -> kstate -> kstate) (i : nat) (p q : proc)
    (s : kstate) (d : Z)
    (Hp : ptable s !! i = Some p) (Hk : kstack p <> 0) (Hg : pgdir p <> 0)
    (Hd : ticks (run i (at_switch i p s)) = u32 (ticks s + d))
    (Hq : ptable (run i (at_switch i p s)) !! i = Some q)
    (Hinit : init_ticks q = s32 (ticks s)) (Hsame : pticks q = pticks p)
    (Hfit : 0 <= pticks p /\ 0 <= d /\ pticks p + d < 2 ^ 31) :
  returns (run_winner run i) s (fun _ s' =>
    exists q', ptable s' !! i = Some q' /\ pticks q' = pticks p + d).
Proof.
  unfold returns. rewrite (run_winner_spec _ _ p) by done. unfold after_turn. simpl.
  eexists. split; [by apply lookup_alter_eq_Some|]. simpl.
  rewrite Hinit, Hsame, Hd. rewrite <- (s32_small (pticks p + d)) by lia.
  apply s32_cong. rewrite <- u32_add_r, <- (u32_sub_l (u32 _)), u32_idem.
  rewrite <- (u32_sub_r _ (s32 _)), u32_s32, u32_sub_r, u32_sub_l, u32_add_r. f_equal. lia.
Qed.

Lemma turn_charges_elapsed_witness :
  let run := fun (_ : nat) s => mkK (ptable s) (u32 (ticks s + 6)) (cpu_proc s) (cr3 s)
                                    (ts_esp0 s) (kpgdir s) in
  let s := mkK demo_table (2 ^ 32 - 4) None 0 0 0x80300000 in
  returns (run_winner run 0) s (fun _ s' =>
    exists q', ptable s' !! 0%nat = Some q' /\ pticks q' = 6).
Proof.
  intros run s.
  apply (turn_charges_elapsed run 0 (demo_proc RUNNABLE 1 0 2)
           (set_init_ticks (-4) (set_state RUNNING (demo_proc RUNNABLE 1 0 2))) s 6);
    try reflexivity; simpl; lia.
Defined.

(** ** settickets *)

(** settickets on every branch: a negative pid or ticket count is refused with -1 and a pid
    no slot of the table holds with -2, both leaving the state alone; otherwise the first slot
    with that pid, and nothing else, gets the tickets and the call returns 0. *)
Theorem settickets_effect (p t : Z) (s : kstate) :
  exists r s', settickets p t s = Ret r s' /\
    ( ((p < 0 \/ t < 0) /\ r = -1 /\ s' = s)
   \/ (0 <= p /\ 0 <= t /\ (forall j q, ptable s !! j = Some q -> pid q <> p) /\
       r = -2 /\ s' = s)
   \/ (0 <= p /\ 0 <= t /\ exists i q, ptable s !! i = Some q /\ pid q = p /\
       (forall j q', (j < i)%nat -> ptable s !! j = Some q' -> pid q' <> p) /\
       r = 0 /\ ptable s' = <[i := set_tickets t q]> (ptable s) /\
       s' = set_ptable (ptable s') s)).
Proof.
  unfold settickets. case_if; to_prop; [by eexists _, _; split; [done|left; auto]|].
  case_if; to_prop; [by eexists _, _; split; [done|left; auto]|].
  rewrite (bind_ret _ _ _ s s) by done.
  destruct (find_index _ (ptable s)) as [i|] eqn:E.
  - apply find_index_Some in E as (q & Hq & Hpid & Hmin). to_prop.
    eexists _, _. split; [reflexivity|]. right. right. split_and!; [lia|lia|].
    exists i, q. split_and!; try done.
    + intros j q' Hj Hq' Heq. specialize (Hmin j q' Hj Hq'). to_prop. congruence.
    + unfold with_proc. simpl. by rewrite (list_alter_insert _ _ _ q).
  - rewrite find_index_None in E. eexists _, _. split; [reflexivity|].
    right. left. split_and!; [lia|lia| |done|done].
    intros j q Hq Heq. specialize (E j q Hq). to_prop. congruence.
Qed.

(** ** getpinfo *)

(** The four words of slot [i] of the caller's pstat. *)
Definition pstat_entry (m : memory) (temp i : Z) : Z * Z * Z * Z :=
  (load32 m (temp + pstat_inuse i), load32 m (temp + pstat_tickets i),
   load32 m (temp + pstat_pid i), load32 m (temp + pstat_ticks i)).

Lemma pstat_store m temp p k i :
  0 <= k < NPROC -> 0 <= i < NPROC ->
  pstat_entry (getpinfo_loop m temp k [p]) temp i =
    if decide (i = k /\ state p <> UNUSED)
    then (1, u32 (tickets p), u32 (pid p), u32 (pticks p)) else pstat_entry m temp i.
Proof.
  unfold NPROC. intros Hk Hi. simpl.
  unfold pstat_entry, pstat_inuse, pstat_tickets, pstat_pid, pstat_ticks, NPROC.
  case_bool_decide as Hs.
  - destruct (decide (i = k)) as [->|Hne].
    + rewrite decide_True by done.
      repeat (rewrite load32_store32_eq || rewrite load32_store32_ne by lia). done.
    + rewrite decide_False by tauto. by rewrite !load32_store32_ne by lia.
  - by rewrite decide_False by tauto.
Qed.

Lemma getpinfo_loop_cons m temp k p tbl :
  getpinfo_loop m temp k (p :: tbl) = getpinfo_loop (getpinfo_loop m temp k [p]) temp (k + 1) tbl.
Proof. done. Qed.

Lemma getpinfo_loop_spec m temp k tbl i :
  0 <= k -> k + Z.of_nat (length tbl) <= NPROC -> 0 <= i < NPROC ->
  pstat_entry (getpinfo_loop m temp k tbl) temp i =
    match (if i <? k then None else tbl !! Z.to_nat (i - k)) with
    | Some p => if decide (state p = UNUSED) then pstat_entry m temp i
                else (1, u32 (tickets p), u32 (pid p), u32 (pticks p))
    | None => pstat_entry m temp i
    end.
Proof.
  unfold NPROC. revert m k. induction tbl as [|p tbl IH]; intros m k Hk Hlen Hi.
  { simpl. case_if; by rewrite ?lookup_nil. }
  rewrite getpinfo_loop_cons, IH by (simpl in *; lia).
  rewrite pstat_store by (unfold NPROC; simpl in *; lia).
  destruct (Z.ltb_spec i k), (Z.ltb_spec i (k + 1)); try lia.
  - by rewrite decide_False by lia.
  - assert (i = k) as -> by lia. replace (Z.to_nat (k - k)) with O by lia. simpl.
    repeat case_decide; tauto.
  - rewrite decide_False by lia.
    replace (Z.to_nat (i - k)) with (S (Z.to_nat (i - (k + 1)))) by lia. done.
Qed.

Lemma getpinfo_loop_frame m temp k tbl a :
  0 <= k -> k + Z.of_nat (length tbl) <= NPROC ->
  ~ (temp <= a < temp + sizeof_pstat) ->
  load8 (getpinfo_loop m temp k tbl) a = load8 m a.
Proof.
  unfold sizeof_pstat, NPROC. revert m k. induction tbl as [|p tbl IH]; intros m k Hk Hlen Ha.
  { done. }
  simpl length in Hlen. rewrite getpinfo_loop_cons, IH by lia. simpl.
  case_bool_decide; [|done].
  unfold pstat_inuse, pstat_tickets, pstat_pid, pstat_ticks, NPROC.
  by rewrite !store32_lookup, !decide_False by lia.
Qed.

(** getpinfo with a good pointer returns 0; it stores, for every process that exists, its
    pid, ticks and tickets and an inuse word of 1 at its slot's index, leaves the four words
    of every UNUSED slot as the caller had them (in particular inuse is not cleared), and
    writes nothing outside the structure. *)
Theorem getpinfo_reports (u : uctx) (s : kstate) (temp : Z)
    (Hlen : length (ptable s) = Z.to_nat NPROC)
    (Harg : argptr u 0 sizeof_pstat = Some temp) (Hnz : temp <> 0) :
  exists m, sys_getpinfo u s = Ret (0, m) s /\
    (forall i p, ptable s !! i = Some p ->
       pstat_entry m temp (Z.of_nat i) =
         if decide (state p = UNUSED) then pstat_entry (u_mem u) temp (Z.of_nat i)
         else (1, u32 (tickets p), u32 (pid p), u32 (pticks p))) /\
    (forall a, ~ (temp <= a < temp + sizeof_pstat) -> load8 m a = load8 (u_mem u) a).
Proof.
  exists (getpinfo_loop (u_mem u) temp 0 (ptable s)). unfold sys_getpinfo. rewrite Harg.
  rewrite (proj2 (Z.eqb_neq _ _) Hnz). split_and!; [done| |].
  - intros i p Hp. pose proof (lookup_lt_Some _ _ _ Hp). unfold NPROC in *.
    rewrite getpinfo_loop_spec by (unfold NPROC; lia).
    rewrite (proj2 (Z.ltb_ge _ 0)) by lia.
    replace (Z.to_nat (Z.of_nat i - 0)) with i by lia. by rewrite Hp.
  - intros a Ha. apply getpinfo_loop_frame; [lia|unfold NPROC in *; lia|done].
Qed.

Definition idle_proc : proc := mkProc 0 0 UNUSED 0 0 0 0.
Definition full_table : list proc := demo_table ++ replicate 61 idle_proc.

Lemma getpinfo_reports_witness :
  let u := mkUctx 8192 100 (fun a => if a =? 105 then 16 else 0) in
  let s := mkK full_table 1000 None 0 0 0x80300000 in
  argptr u 0 sizeof_pstat = Some 4096 /\
  exists m, sys_getpinfo u s = Ret (0, m) s /\
            pstat_entry m 4096 2 = (1, 7, 3, 0) /\ pstat_entry m 4096 3 = (0, 0, 0, 0).
Proof.
  intros u s. split; [vm_compute; reflexivity|].
  destruct (getpinfo_reports u s 4096) as (m & Hm & Hent & _);
    [reflexivity | vm_compute; reflexivity | lia |].
  exists m. split_and!; [exact Hm| |].
  - exact (Hent 2%nat (demo_proc RUNNABLE 3 8192 7) eq_refl).
  - exact (Hent 3%nat idle_proc eq_refl).
Defined.
