(* ===== verification/Kalloc.v ===== *)
(** * Kalloc: the physical page allocator (kalloc.c)

    The free list is threaded through the free pages themselves: the first word of a free page
    holds the address of the next one. [kend] is the linker's symbol [end], the first address
    after the kernel image. *)

From S2P Require Import Prelude Memory Mmu.

(** struct kmem and the memory the pages live in. The spin lock is held or not; acquire by the
    CPU that holds it panics, as does release by one that does not. *)
Record kmem : Type := mkKmem {
  kmem_memory : memory;
  freelist : Z;
  use_lock : bool;
  kmem_locked : bool
}.

Definition set_memory (m : memory) (s : kmem) : kmem :=
  mkKmem m (freelist s) (use_lock s) (kmem_locked s).
Definition set_freelist (p : Z) (s : kmem) : kmem :=
  mkKmem (kmem_memory s) p (use_lock s) (kmem_locked s).
Definition set_use_lock (b : bool) (s : kmem) : kmem :=
  mkKmem (kmem_memory s) (freelist s) b (kmem_locked s).
Definition set_locked (b : bool) (s : kmem) : kmem :=
  mkKmem (kmem_memory s) (freelist s) (use_lock s) b.

Definition kmem_acquire : M kmem unit :=
  s ← get; panic_if (kmem_locked s) "acquire";; put (set_locked true s).
Definition kmem_release : M kmem unit :=
  s ← get; panic_if (negb (kmem_locked s)) "release";; put (set_locked false s).

Definition kload32 (a : Z) : M kmem Z := gets (fun s => load32 (kmem_memory s) a).
Definition kstore32 (a v : Z) : M kmem unit :=
  modify (fun s => set_memory (store32 (kmem_memory s) a v) s).
Definition kmemset (dst c n : Z) : M kmem unit :=
  modify (fun s => set_memory (memset (kmem_memory s) dst c n) s).
Definition kmemmove (dst src n : Z) : M kmem unit :=
  modify (fun s => set_memory (memmove (kmem_memory s) dst src n) s).

Section Kalloc.
Context (kend : Z).

Definition kfree (v : Z) : M kmem unit :=
  panic_if (negb (u32 v mod PGSIZE =? 0) || (v <? kend) || (PHYSTOP <=? V2P v)) "kfree";;
  kmemset v 1 PGSIZE;;
  ul ← gets use_lock;
  when ul kmem_acquire;;
  fl ← gets freelist;
  kstore32 v fl;;
  modify (set_freelist v);;
  when ul kmem_release.

Definition kalloc : M kmem Z :=
  ul ← gets use_lock;
  when ul kmem_acquire;;
  r ← gets freelist;
  (if r =? 0 then ret tt else next ← kload32 r; modify (set_freelist next));;
  when ul kmem_release;;
  ret r.

(** The loop advances by a page until the next page would end after [vend]. *)
Fixpoint freerange_loop (p vend : Z) (fuel : nat) : M kmem unit :=
  match fuel with
  | O => fun _ => OutOfFuel
  | S fuel =>
      if u32 (p + PGSIZE) <=? vend
      then kfree p;; freerange_loop (u32 (p + PGSIZE)) vend fuel
      else ret tt
  end.
Definition freerange (vstart vend : Z) : M kmem unit :=
  let p := PGROUNDUP vstart in
  freerange_loop p vend (S (Z.to_nat ((vend - p) / PGSIZE))).

Definition kinit1 (vstart vend : Z) : M kmem unit :=
  modify (set_locked false);;
  modify (set_use_lock false);;
  freerange vstart vend.
Definition kinit2 (vstart vend : Z) : M kmem unit :=
  freerange vstart vend;;
  modify (set_use_lock true).

(** ** The abstract view: a list of distinct free pages *)

(** Where user and kernel pages come from: between the kernel image and the top of memory. *)
Definition good_page (p : Z) : Prop :=
  p mod PGSIZE = 0 /\ kend <= p /\ p < KERNBASE + PHYSTOP.

(** [head] starts a chain through the first words of exactly the pages [l]. *)
Fixpoint chain (m : memory) (head : Z) (l : list Z) : Prop :=
  match l with
  | [] => head = 0
  | p :: l => head = p /\ chain m (load32 m p) l
  end.

Record kmem_free (s : kmem) (l : list Z) : Prop := {
  free_chain : chain (kmem_memory s) (freelist s) l;
  free_good : Forall good_page l;
  free_nodup : NoDup l;
  free_unlocked : kmem_locked s = false
}.

Hypothesis kend_high : KERNBASE < kend.

Lemma good_page_range p : good_page p -> KERNBASE < p /\ p + PGSIZE <= KERNBASE + PHYSTOP.
Proof.
  intros (Ha & Hlo & Hhi). split; [lia|].
  unfold PGSIZE, KERNBASE, PHYSTOP in *. dlia.
Qed.

Lemma page_disjoint p q :
  p mod PGSIZE = 0 -> q mod PGSIZE = 0 -> p <> q -> p + PGSIZE <= q \/ q + PGSIZE <= p.
Proof. unfold PGSIZE. intros. dlia. Qed.

Lemma chain_frame m m' head l :
  (forall p, p ∈ l -> load32 m' p = load32 m p) -> chain m head l -> chain m' head l.
Proof.
  revert head. induction l as [|p l IH]; intros head Hm; simpl; [done|].
  intros [-> Hc]. split; [done|]. rewrite Hm by (by left). apply IH; [|done].
  intros q Hq. apply Hm. by right.
Qed.

(** The free list survives any change of memory outside the free pages. *)
Lemma kmem_free_frame s l m :
  kmem_free s l -> (forall p, p ∈ l -> load32 m p = load32 (kmem_memory s) p) ->
  kmem_free (set_memory m s) l.
Proof. intros [Hc Hg Hn Hu] Hm. split; try done. by eapply chain_frame. Qed.

(** kalloc takes the first page of the free list and nothing else: with no free page it
    returns the null pointer and changes nothing; otherwise it returns a page-aligned page of
    the allocator's range that is no longer on the free list, without touching memory. It
    never panics and leaves the lock released. *)
Lemma kalloc_spec (s : kmem) (l : list Z) (Hl : kmem_free s l) :
  match l with
  | [] => kalloc s = Ret 0 s
  | p :: l' => exists s', kalloc s = Ret p s' /\ kmem_free s' l' /\ good_page p /\ (p ∉ l') /\
                 kmem_memory s' = kmem_memory s /\ use_lock s' = use_lock s
  end.
Proof.
  destruct Hl as [Hc Hg Hn Hu]. destruct s as [m h u k]. simpl in *. subst k.
  destruct l as [|p l]; simpl in Hc.
  - subst h. unfold kalloc, mbind, M_bind, gets, when, kmem_acquire, kmem_release, get, put.
    by destruct u.
  - destruct Hc as [-> Hc]. apply Forall_cons in Hg as [Hp Hg]. apply NoDup_cons in Hn as [Hni Hn].
    pose proof (good_page_range p Hp) as Hr. unfold KERNBASE in Hr.
    exists (mkKmem m (load32 m p) u false).
    split_and!; [|by split|done|done|done|done].
    unfold kalloc, mbind, M_bind, gets, when, kmem_acquire, kmem_release, get, put, kload32,
      modify, ret, panic_if; simpl.
    destruct u; simpl; rewrite (proj2 (Z.eqb_neq p 0)) by lia; done.
Qed.

(** kfree accepts exactly the page-aligned addresses between the kernel image and the top
    of physical memory and panics on every other; freeing a page that is not already free puts
    it in front of the free list and changes memory only inside that page. *)
Lemma kfree_spec (s : kmem) (l : list Z) (v : Z)
    (Hl : kmem_free s l) (Hv : 0 <= v < 2 ^ 32) (Hni : v ∉ l) :
  (good_page v /\ exists s', kfree v s = Ret tt s' /\ kmem_free s' (v :: l) /\
     use_lock s' = use_lock s /\
     (forall a, ~ (v <= a < v + PGSIZE) ->
        load8 (kmem_memory s') a = load8 (kmem_memory s) a)) \/
  (~ good_page v /\ kfree v s = Panic "kfree").
Proof.
  destruct Hl as [Hc Hg Hn Hu]. destruct s as [m h u k]. simpl in *. subst k.
  unfold kfree.
  destruct (negb (u32 v mod PGSIZE =? 0) || (v <? kend) || (PHYSTOP <=? V2P v)) eqn:E.
  { right. split; [|done]. intros (Ha & Hlo & Hhi). unfold V2P in E.
    rewrite !u32_small in E by (unfold KERNBASE, PHYSTOP in *; lia).
    rewrite (proj2 (Z.eqb_eq _ _) Ha) in E. unfold KERNBASE, PHYSTOP in *. simpl in E.
    apply orb_true_iff in E as [E|E]; [apply Z.ltb_lt in E|apply Z.leb_le in E]; lia. }
  left. to_prop. unfold V2P in *.
  rewrite !u32_small in * by (unfold KERNBASE, PHYSTOP in *; lia).
  assert (Hgv : good_page v) by (split_and!; [done|lia|unfold KERNBASE in *; lia]).
  pose proof (good_page_range v Hgv) as Hr.
  split; [done|].
  set (m' := store32 (memset m v 1 PGSIZE) v h).
  exists (mkKmem m' v u false). split_and!.
  - unfold mbind, M_bind, gets, when, kmem_acquire, kmem_release, get, put, kload32,
      modify, ret, panic_if, kmemset, kstore32; simpl. by destruct u.
  - assert (Hh : load32 m' v = h).
    { unfold m'. rewrite load32_store32_eq. apply u32_small.
      destruct l as [|p l]; simpl in Hc; [lia|]. destruct Hc as [-> _].
      apply Forall_cons in Hg as [Hp _]. pose proof (good_page_range p Hp).
      unfold KERNBASE, PHYSTOP, PGSIZE in *. lia. }
    split; simpl; [|by constructor|by constructor|done].
    split; [done|]. rewrite Hh. eapply chain_frame; [|exact Hc].
    intros p Hp. rewrite Forall_forall in Hg. destruct (Hg p Hp) as (Hpa & _ & _).
    assert (p <> v) by congruence.
    destruct (page_disjoint p v Hpa (proj1 Hgv) ltac:(done)); unfold PGSIZE in *; unfold m';
      rewrite load32_store32_ne, load32_memset_out by lia; done.
  - done.
  - intros a Ha. simpl. unfold m', PGSIZE in *.
    rewrite store32_lookup, decide_False, memset_spec, decide_False by lia. done.
Qed.

(** *** The allocator as a stack of pages *)

(** A client's request and the stack it acts on: freeing is for pages of the allocator's range
    that are not already free. *)
Inductive kmem_op : Type :=
  | OpAlloc
  | OpFree (v : Z).

Definition run_op (op : kmem_op) : M kmem Z :=
  match op with
  | OpAlloc => kalloc
  | OpFree v => kfree v;; ret 0
  end.
Fixpoint run_ops (ops : list kmem_op) : M kmem (list Z) :=
  match ops with
  | [] => ret []
  | op :: ops => r ← run_op op; rs ← run_ops ops; ret (r :: rs)
  end.

Definition good_pageb (p : Z) : bool :=
  (p mod PGSIZE =? 0) && (kend <=? p) && (p <? KERNBASE + PHYSTOP).
Definition stack_op (op : kmem_op) (l : list Z) : option (Z * list Z) :=
  match op, l with
  | OpAlloc, [] => Some (0, [])
  | OpAlloc, p :: l => Some (p, l)
  | OpFree v, _ => if good_pageb v && bool_decide (v ∉ l) then Some (0, v :: l) else None
  end.
Fixpoint stack_ops (ops : list kmem_op) (l : list Z) : option (list Z * list Z) :=
  match ops with
  | [] => Some ([], l)
  | op :: ops =>
      '(r, l1) ← stack_op op l;
      '(rs, l2) ← stack_ops ops l1;
      Some (r :: rs, l2)
  end.

Lemma good_pageb_spec p : good_pageb p = true -> good_page p.
Proof. unfold good_pageb. intros. to_prop. by split_and!. Qed.

(** C39: the allocator is a stack: any sequence of requests that never frees a page that is
    already free (or was never the allocator's) runs without panic, kalloc returns the pages in
    last-freed-first order and 0 exactly when the stack is empty (so a page in use is never
    handed out again before it is freed), and outside the pages freed during the sequence no
    byte of memory changes. *)
Theorem allocator_refines_stack (ops : list kmem_op) (s : kmem) (l rs l' : list Z)
    (Hf : kmem_free s l) (Hops : stack_ops ops l = Some (rs, l')) :
  exists s', run_ops ops s = Ret rs s' /\ kmem_free s' l' /\
    (forall a, (forall v, OpFree v ∈ ops -> ~ (v <= a < v + PGSIZE)) ->
       load8 (kmem_memory s') a = load8 (kmem_memory s) a).
Proof.
  revert s l rs Hf Hops. induction ops as [|op ops IH]; intros s l rs Hf Hops.
  { injection Hops as <- <-. by exists s. }
  cbn [stack_ops] in Hops. destruct (stack_op op l) as [[r l1]|] eqn:Hop; [|done].
  cbn in Hops. destruct (stack_ops ops l1) as [[rs1 l2]|] eqn:Hr; [|done].
  injection Hops as <- <-.
  assert (exists s1, run_op op s = Ret r s1 /\ kmem_free s1 l1 /\
            forall a, (forall v, OpFree v = op -> ~ (v <= a < v + PGSIZE)) ->
              load8 (kmem_memory s1) a = load8 (kmem_memory s) a) as (s1 & Hrun & Hf1 & Hm1).
  { destruct op as [|v]; simpl in Hop.
    - pose proof (kalloc_spec s l Hf) as Hk. destruct l as [|p l]; injection Hop as <- <-.
      + by exists s.
      + destruct Hk as (s1 & Hk & Hf1 & _ & _ & Hm & _). exists s1. by rewrite Hm.
    - case_if; [|done]. to_prop. injection Hop as <- <-.
      pose proof (good_page_range v (good_pageb_spec v H)) as Hg.
      destruct (kfree_spec s l v Hf) as [(_ & s1 & Hk & Hf1 & _ & Hm)|[[] _]];
        [unfold KERNBASE, PHYSTOP, PGSIZE in *; lia|done| |by apply good_pageb_spec].
      exists s1. split_and!; [simpl; by rewrite (bind_ret _ _ _ _ _ Hk)|done|].
      intros a Ha. apply Hm. by apply Ha. }
  destruct (IH s1 l1 rs1 Hf1 Hr) as (s' & Hrun' & Hf' & Hm').
  exists s'. split_and!.
  - cbn [run_ops]. by rewrite (bind_ret _ _ _ _ _ Hrun), (bind_ret _ _ _ _ _ Hrun').
  - done.
  - intros a Ha. rewrite Hm', Hm1; [done| |].
    + intros v <-. apply Ha. by left.
    + intros v Hv. apply Ha. by right.
Qed.

(** The [n] pages from [p] on. *)
Fixpoint pages_from (p : Z) (n : nat) : list Z :=
  match n with O => [] | S n => p :: pages_from (p + PGSIZE) n end.

Lemma elem_of_pages_from p n q :
  q ∈ pages_from p n <-> exists i, 0 <= i < Z.of_nat n /\ q = p + i * PGSIZE.
Proof.
  revert p. induction n as [|n IH]; intros p; simpl.
  { rewrite elem_of_nil. split; [done|]. intros (i & Hi & _). lia. }
  rewrite elem_of_cons, IH. split.
  - intros [->|(i & Hi & ->)]; [exists 0; lia|exists (i + 1); lia].
  - intros (i & Hi & ->). destruct (decide (i = 0)) as [->|]; [left; lia|].
    right. exists (i - 1). lia.
Qed.

Lemma freerange_loop_spec n p vend fuel s l :
  kmem_free s l -> p mod PGSIZE = 0 -> kend <= p ->
  p + Z.of_nat n * PGSIZE <= vend < p + (Z.of_nat n + 1) * PGSIZE ->
  vend <= KERNBASE + PHYSTOP -> (n < fuel)%nat ->
  (forall q, q ∈ pages_from p n -> q ∉ l) ->
  exists s', freerange_loop p vend fuel s = Ret tt s' /\
    kmem_free s' (reverse (pages_from p n) ++ l) /\ use_lock s' = use_lock s.
Proof.
  revert p fuel s l. induction n as [|n IH]; intros p fuel s l Hl Hp Hlo Hend Htop Hfuel Hni;
    (destruct fuel as [|fuel]; [lia|]); cbn [freerange_loop].
  - rewrite u32_small by (unfold KERNBASE, PHYSTOP, PGSIZE in *; lia).
    rewrite (proj2 (Z.leb_gt _ _)) by (unfold PGSIZE in *; lia). by exists s.
  - rewrite u32_small by (unfold KERNBASE, PHYSTOP, PGSIZE in *; lia).
    rewrite (proj2 (Z.leb_le _ _)) by (unfold PGSIZE in *; lia).
    assert (Hg : good_page p) by (split_and!; unfold PGSIZE in *; lia).
    destruct (kfree_spec s l p Hl) as [(_ & s1 & Hs1 & Hl1 & Hu1 & _)|[Hng _]].
    + unfold KERNBASE, PHYSTOP, PGSIZE in *. lia.
    + apply Hni. by left.
    + rewrite (bind_ret _ _ _ tt s1) by done.
      destruct (IH (p + PGSIZE) fuel s1 (p :: l)) as (s' & Hs' & Hl' & Hu').
      * done.
      * rewrite Zplus_mod, Hp. done.
      * unfold PGSIZE. lia.
      * unfold PGSIZE in *. lia.
      * done.
      * lia.
      * intros q Hq. rewrite not_elem_of_cons. split; [|apply Hni; by right].
        apply elem_of_pages_from in Hq as (i & Hi & ->). unfold PGSIZE. lia.
      * exists s'. split_and!; [done| |congruence].
        cbn [pages_from]. by rewrite reverse_cons, <- app_assoc.
    + done.
Qed.

(** freerange puts on the free list, last page first, exactly the whole pages that fit
    between its two addresses; it terminates and does not panic when the range lies between
    the kernel image and the top of memory and holds no page that is already free. *)
Theorem freerange_spec (s : kmem) (l : list Z) (vstart vend : Z)
    (Hl : kmem_free s l) (Hlo : kend <= vstart) (Horder : vstart <= vend)
    (Htop : vend <= KERNBASE + PHYSTOP)
    (Hni : forall p, p ∈ l -> ~ (vstart <= p < vend)) :
  let n := Z.to_nat ((vend - PGROUNDUP vstart) / PGSIZE) in
  vstart <= PGROUNDUP vstart < vstart + PGSIZE /\
  exists s', freerange vstart vend s = Ret tt s' /\
    kmem_free s' (reverse (pages_from (PGROUNDUP vstart) n) ++ l).
Proof.
  intros n. unfold freerange. pose proof (PGROUNDUP_eq vstart) as Hr. subst n.
  rewrite u32_small in Hr by (unfold KERNBASE, PHYSTOP, PGSIZE in *; lia).
  set (p := PGROUNDUP vstart) in *. set (n := Z.to_nat ((vend - p) / PGSIZE)).
  assert (Hp : vstart <= p < vstart + PGSIZE) by (rewrite Hr; unfold PGSIZE; dlia).
  split; [done|].
  destruct (decide (p <= vend)) as [Hle|Hgt].
  - destruct (freerange_loop_spec n p vend (S n) s l) as (s' & Hs' & Hl' & _); [done| |lia| |done|lia| |].
    + rewrite Hr. by apply Z.mod_mul.
    + unfold n, PGSIZE in *. clearbody p. clear n. zify. Z.to_euclidean_division_equations. lia.
    + intros q (i & Hi & ->)%elem_of_pages_from Hq. apply (Hni _ Hq).
      unfold n, PGSIZE in *. clearbody p. clear n. dlia.
    + by exists s'.
  - assert (n = O) as ->. { unfold n, PGSIZE in *. clearbody p. dlia. }
    exists s. split; [|done]. cbn [freerange_loop].
    rewrite u32_small by (unfold KERNBASE, PHYSTOP, PGSIZE in *; lia).
    rewrite (proj2 (Z.leb_gt _ _)) by (unfold PGSIZE in *; lia). done.
Qed.
End Kalloc.

(** ** Concrete cases *)

Definition demo_kend : Z := 0x80200000.
Definition empty_kmem : kmem := mkKmem (fun _ => 0) 0 true false.

Lemma demo_kend_high : KERNBASE < demo_kend.
Proof. done. Qed.

Lemma empty_kmem_free : kmem_free demo_kend empty_kmem [].
Proof. split; try done; constructor. Qed.

(** Two free pages, the first pointing to the second. *)
Definition two_pages_kmem : kmem :=
  mkKmem (store32 (fun _ => 0) 0x80300000 0x80301000) 0x80300000 true false.

Lemma two_pages_free : kmem_free demo_kend two_pages_kmem [0x80300000; 0x80301000].
Proof.
  split; [vm_compute; auto | | | done].
  - repeat constructor; done.
  - apply (bool_decide_unpack _). by vm_compute.
Qed.

Lemma allocator_refines_stack_witness :
  let ops := [OpAlloc; OpAlloc; OpAlloc; OpFree 0x80300000; OpAlloc] in
  kmem_free demo_kend two_pages_kmem [0x80300000; 0x80301000] /\
  stack_ops demo_kend ops [0x80300000; 0x80301000] =
    Some ([0x80300000; 0x80301000; 0; 0; 0x80300000], []) /\
  exists s', run_ops demo_kend ops two_pages_kmem =
    Ret [0x80300000; 0x80301000; 0; 0; 0x80300000] s' /\ kmem_free demo_kend s' [].
Proof.
  cbn zeta. split; [exact two_pages_free|]. split; [vm_compute; reflexivity|].
  destruct (allocator_refines_stack demo_kend demo_kend_high
    [OpAlloc; OpAlloc; OpAlloc; OpFree 0x80300000; OpAlloc] _ _
    [0x80300000; 0x80301000; 0; 0; 0x80300000] [] two_pages_free) as (s' & H1 & H2 & _);
    [vm_compute; reflexivity|].
  exists s'. split; [exact H1|exact H2].
Defined.

Lemma freerange_spec_witness :
  exists s', freerange demo_kend 0x80300004 0x80302fff empty_kmem = Ret tt s' /\
    kmem_free demo_kend s' [0x80301000].
Proof.
  exact (proj2 (freerange_spec demo_kend demo_kend_high empty_kmem [] 0x80300004 0x80302fff
    empty_kmem_free ltac:(done) ltac:(done) ltac:(done) ltac:(intros p H; inversion H))).
Defined.
