(* ===== verification/Vm.v ===== *)
(** * Vm: two-level page tables (vm.c of offline_4)

    Page directories and page tables are pages of 1024 32-bit words in the memory of [Kalloc];
    every function reads and writes those words. [kend] and [kdata] are the linker's symbols
    [end] and [data]. Loading cr3 is part of the state because code depends on it. *)

From S2P Require Import Prelude Memory Mmu Kalloc.

Section Vm.
Context (kend kdata : Z).

(** The address of the page-table entry, or 0. *)
Definition walkpgdir (pgdir va : Z) (alloc : bool) : M kmem Z :=
  let pde := pgdir + 4 * PDX va in
  e ← kload32 pde;
  if has_flag e PTE_P then ret (P2V (PTE_ADDR e) + 4 * PTX va)
  else if negb alloc then ret 0
  else
    pgtab ← kalloc;
    if pgtab =? 0 then ret 0
    else
      kmemset pgtab 0 PGSIZE;;
      kstore32 pde (Z.lor (Z.lor (Z.lor (V2P pgtab) PTE_P) PTE_W) PTE_U);;
      ret (pgtab + 4 * PTX va).

Fixpoint mappages_loop (pgdir a last pa perm : Z) (fuel : nat) : M kmem Z :=
  match fuel with
  | O => fun _ => OutOfFuel
  | S fuel =>
      pte ← walkpgdir pgdir a true;
      if pte =? 0 then ret (-1)
      else
        e ← kload32 pte;
        panic_if (has_flag e PTE_P) "remap";;
        kstore32 pte (Z.lor (Z.lor pa perm) PTE_P);;
        if a =? last then ret 0
        else mappages_loop pgdir (u32 (a + PGSIZE)) last (u32 (pa + PGSIZE)) perm fuel
  end.
Definition mappages (pgdir va size pa perm : Z) : M kmem Z :=
  let a := PGROUNDDOWN va in
  let last := PGROUNDDOWN (va + size - 1) in
  mappages_loop pgdir a last pa perm (S (Z.to_nat (u32 (last - a) / PGSIZE))).

(** A page of user memory whose page table is missing is skipped together with the rest of
    the 4 MB its directory entry covers. *)
Fixpoint deallocuvm_loop (pgdir a oldsz : Z) (fuel : nat) : M kmem unit :=
  match fuel with
  | O => fun _ => OutOfFuel
  | S fuel =>
      if negb (a <? oldsz) then ret tt
      else
        pte ← walkpgdir pgdir a false;
        a' ← (if pte =? 0 then ret (u32 (PGADDR (PDX a + 1) 0 0 - PGSIZE))
              else
                e ← kload32 pte;
                when (has_flag e PTE_P) (
                  let pa := PTE_ADDR e in
                  panic_if (pa =? 0) "kfree";;
                  kfree kend (P2V pa);;
                  kstore32 pte 0);;
                ret a);
        deallocuvm_loop pgdir (u32 (a' + PGSIZE)) oldsz fuel
  end.
Definition deallocuvm (pgdir oldsz newsz : Z) : M kmem Z :=
  if oldsz <=? newsz then ret oldsz
  else
    let a := PGROUNDUP newsz in
    deallocuvm_loop pgdir a oldsz (S (Z.to_nat ((oldsz - a) / PGSIZE) + 1));;
    ret newsz.

Fixpoint free_tables (pgdir i : Z) (n : nat) : M kmem unit :=
  match n with
  | O => ret tt
  | S n =>
      e ← kload32 (pgdir + 4 * i);
      when (has_flag e PTE_P) (kfree kend (P2V (PTE_ADDR e)));;
      free_tables pgdir (i + 1) n
  end.
Definition freevm (pgdir : Z) : M kmem unit :=
  panic_if (pgdir =? 0) "freevm: no pgdir";;
  deallocuvm pgdir KERNBASE 0;;
  free_tables pgdir 0 (Z.to_nat NPDENTRIES);;
  kfree kend pgdir.

(** The kernel's mappings: first virtual address, physical range, permissions. *)
Definition kmap : list (Z * Z * Z * Z) :=
  [ (KERNBASE, 0, EXTMEM, PTE_W);
    (KERNLINK, V2P KERNLINK, V2P kdata, 0);
    (kdata, V2P kdata, PHYSTOP, PTE_W);
    (DEVSPACE, DEVSPACE, 0, PTE_W) ].

Fixpoint setupkvm_loop (pgdir : Z) (k : list (Z * Z * Z * Z)) : M kmem Z :=
  match k with
  | [] => ret pgdir
  | (virt, phys_start, phys_end, perm) :: k =>
      r ← mappages pgdir virt (u32 (phys_end - phys_start)) phys_start perm;
      if r <? 0 then freevm pgdir;; ret 0 else setupkvm_loop pgdir k
  end.
Definition setupkvm : M kmem Z :=
  pgdir ← kalloc;
  if pgdir =? 0 then ret 0
  else
    kmemset pgdir 0 PGSIZE;;
    panic_if (DEVSPACE <? P2V PHYSTOP) "PHYSTOP too high";;
    setupkvm_loop pgdir kmap.

Definition inituvm (pgdir init sz : Z) : M kmem unit :=
  panic_if (PGSIZE <=? sz) "inituvm: more than a page";;
  mem ← kalloc;
  if mem =? 0 then fault NullDeref else
  kmemset mem 0 PGSIZE;;
  mappages pgdir 0 PGSIZE (V2P mem) (Z.lor PTE_W PTE_U);;
  kmemmove mem init sz.

Definition clearpteu (pgdir uva : Z) : M kmem unit :=
  pte ← walkpgdir pgdir uva false;
  panic_if (pte =? 0) "clearpteu";;
  e ← kload32 pte;
  kstore32 pte (Z.land e (Z.lnot PTE_U)).

(** The page-copying loop of copyuvm; the result is false where the C code jumps to [bad]. *)
Fixpoint copyuvm_loop (pgdir d i sz : Z) (fuel : nat) : M kmem bool :=
  match fuel with
  | O => fun _ => OutOfFuel
  | S fuel =>
      if negb (i <? sz) then ret true
      else
        pte ← walkpgdir pgdir i false;
        panic_if (pte =? 0) "copyuvm: pte should exist";;
        e ← kload32 pte;
        panic_if (negb (has_flag e PTE_P)) "copyuvm: page not present";;
        mem ← kalloc;
        if mem =? 0 then ret false
        else
          kmemmove mem (P2V (PTE_ADDR e)) PGSIZE;;
          r ← mappages d i PGSIZE (V2P mem) (PTE_FLAGS e);
          if r <? 0 then kfree kend mem;; ret false
          else copyuvm_loop pgdir d (u32 (i + PGSIZE)) sz fuel
  end.
Definition copyuvm (pgdir sz : Z) : M kmem Z :=
  d ← setupkvm;
  if d =? 0 then ret 0
  else
    ok ← copyuvm_loop pgdir d 0 sz (S (Z.to_nat (sz / PGSIZE) + 1));
    if (ok : bool) then ret d else freevm d;; ret 0.

(** The page-table entry is read without testing that it exists. *)
Definition uva2ka (pgdir uva : Z) : M kmem Z :=
  pte ← walkpgdir pgdir uva false;
  if pte =? 0 then fault NullDeref
  else
    e ← kload32 pte;
    if negb (has_flag e PTE_P) then ret 0
    else if negb (has_flag e PTE_U) then ret 0
    else ret (P2V (PTE_ADDR e)).

Fixpoint copyout_loop (pgdir va buf len : Z) (fuel : nat) : M kmem Z :=
  match fuel with
  | O => fun _ => OutOfFuel
  | S fuel =>
      if negb (0 <? len) then ret 0
      else
        let va0 := PGROUNDDOWN va in
        pa0 ← uva2ka pgdir va0;
        if pa0 =? 0 then ret (-1)
        else
          let n := PGSIZE - (va - va0) in
          let n := if len <? n then len else n in
          kmemmove (pa0 + (va - va0)) buf n;;
          copyout_loop pgdir (u32 (va0 + PGSIZE)) (buf + n) (len - n) fuel
  end.
Definition copyout (pgdir va p len : Z) : M kmem Z :=
  copyout_loop pgdir va p len (S (Z.to_nat (len / PGSIZE) + 2)).

(** ** The mapping a directory denotes *)

(** The page table a directory entry points to, and the entry of a virtual address (0 when
    there is no table). *)
Definition table_at (m : memory) (d i : Z) : option Z :=
  let e := load32 m (d + 4 * i) in
  if has_flag e PTE_P then Some (P2V (PTE_ADDR e)) else None.
Definition lookup_pt (m : memory) (d va : Z) : Z :=
  match table_at m d (PDX va) with
  | Some t => load32 m (t + 4 * PTX va)
  | None => 0
  end.

(** The pages a directory occupies: itself and its tables. *)
Definition owns (m : memory) (d p : Z) : Prop :=
  p = d \/ exists i, 0 <= i < NPDENTRIES /\ table_at m d i = Some p.

(** A directory whose pages are allocator pages, pairwise distinct and not free. *)
Record as_wf (m : memory) (d : Z) (l : list Z) : Prop := {
  wf_dir : good_page kend d;
  wf_dir_free : d ∉ l;
  wf_tables : forall i t, 0 <= i < NPDENTRIES -> table_at m d i = Some t ->
                good_page kend t /\ t <> d /\ t ∉ l;
  wf_distinct : forall i j t, 0 <= i < NPDENTRIES -> 0 <= j < NPDENTRIES ->
                  table_at m d i = Some t -> table_at m d j = Some t -> i = j
}.

(** Memory changes only inside the pages [P]. *)
Definition changes_only (P : Z -> Prop) (m m' : memory) : Prop :=
  forall a, (forall p, P p -> ~ (p <= a < p + PGSIZE)) -> load8 m' a = load8 m a.

Lemma changes_only_refl P m : changes_only P m m.
Proof. done. Qed.

Lemma changes_only_trans (P Q : Z -> Prop) m1 m2 m3 :
  (forall p, Q p -> P p) -> changes_only P m1 m2 -> changes_only Q m2 m3 ->
  changes_only P m1 m3.
Proof. intros H H1 H2 a Ha. rewrite H2, H1; [done|done|]. intros p Hp. apply Ha. auto. Qed.

(** The words of a page outside [P] keep their values. *)
Lemma changes_only_word (P : Z -> Prop) m m' p k :
  changes_only P m m' -> p mod PGSIZE = 0 -> (forall q, P q -> q mod PGSIZE = 0) ->
  ~ P p -> 0 <= k < NPDENTRIES -> load32 m' (p + 4 * k) = load32 m (p + 4 * k).
Proof.
  intros Hc Hp HP Hn Hk. unfold NPDENTRIES in Hk. apply load32_ext. intros a Ha. apply Hc.
  intros q Hq Hin. assert (p <> q) by congruence.
  destruct (page_disjoint p q Hp (HP q Hq) ltac:(done)); unfold PGSIZE in *; lia.
Qed.

Hypothesis kend_high : KERNBASE < kend.

(** *** Writing one entry *)

Lemma table_at_store m d l va t v i :
  as_wf m d l -> table_at m d (PDX va) = Some t -> 0 <= i < NPDENTRIES ->
  table_at (store32 m (t + 4 * PTX va) v) d i = table_at m d i.
Proof.
  intros Hwf Ht Hi. pose proof (PTX_range va) as Hr.
  destruct (wf_tables _ _ _ Hwf _ _ (PDX_range va) Ht) as (Hg & Hne & _).
  destruct (page_disjoint t d (proj1 Hg) (proj1 (wf_dir _ _ _ Hwf)) Hne);
    unfold table_at, PGSIZE, NPDENTRIES in *; by rewrite load32_store32_ne by lia.
Qed.

Lemma lookup_pt_store m d l va t v va' :
  as_wf m d l -> table_at m d (PDX va) = Some t -> 0 <= v < 2 ^ 32 ->
  lookup_pt (store32 m (t + 4 * PTX va) v) d va' =
    if decide (vpn va' = vpn va) then v else lookup_pt m d va'.
Proof.
  intros Hwf Ht Hv. unfold lookup_pt.
  rewrite (table_at_store _ _ l) by (done || apply PDX_range).
  pose proof (PTX_range va). pose proof (PTX_range va').
  case_decide as E; [apply vpn_eq_iff in E as [E1 E2]|].
  - rewrite E1, E2, Ht, load32_store32_eq. by apply u32_small.
  - destruct (table_at m d (PDX va')) as [t'|] eqn:Ht'; [|done].
    destruct (decide (t' = t)) as [->|Hne].
    + assert (PTX va' <> PTX va).
      { intros E'. apply E, vpn_eq_iff. split; [|done].
        eapply (wf_distinct _ _ _ Hwf); [apply PDX_range|apply PDX_range|done|done]. }
      unfold NPDENTRIES in *. rewrite load32_store32_ne by lia. done.
    + destruct (wf_tables _ _ _ Hwf _ _ (PDX_range va) Ht) as (Hg & _).
      destruct (wf_tables _ _ _ Hwf _ _ (PDX_range va') Ht') as (Hg' & _).
      destruct (page_disjoint t' t (proj1 Hg') (proj1 Hg) Hne);
        unfold PGSIZE, NPDENTRIES in *; by rewrite load32_store32_ne by lia.
Qed.

Lemma as_wf_store m d l va t v :
  as_wf m d l -> table_at m d (PDX va) = Some t ->
  as_wf (store32 m (t + 4 * PTX va) v) d l.
Proof.
  intros Hwf Ht. pose proof (table_at_store m d l va t v) as Hs.
  destruct Hwf as [H1 H2 H3 H4]. split; [done|done| |].
  - intros i t' Hi. rewrite Hs by done. by apply H3.
  - intros i j t' Hi Hj. rewrite !Hs by done. by apply H4.
Qed.

Lemma owns_store m d l va t v q :
  as_wf m d l -> table_at m d (PDX va) = Some t ->
  owns (store32 m (t + 4 * PTX va) v) d q <-> owns m d q.
Proof.
  intros Hwf Ht. unfold owns.
  split; (intros [->|(i & Hi & Hq)]; [by left|right; exists i; split; [done|]]);
    by rewrite (table_at_store _ _ l) in *.
Qed.

Lemma changes_store m t k v :
  0 <= k < NPDENTRIES -> changes_only (eq t) m (store32 m (t + 4 * k) v).
Proof.
  intros Hk a Ha. specialize (Ha t eq_refl). unfold PGSIZE, NPDENTRIES in *.
  by rewrite store32_lookup, decide_False by lia.
Qed.

(** *** Adding a page table *)

Lemma V2P_good p : good_page kend p -> 0 <= V2P p < 2 ^ 31 /\ V2P p mod PGSIZE = 0 /\ P2V (V2P p) = p.
Proof.
  intros Hg. pose proof (good_page_range kend kend_high p Hg) as Hr. destruct Hg as [Ha _].
  rewrite P2V_V2P by (unfold KERNBASE, PHYSTOP, PGSIZE in *; lia).
  unfold V2P, KERNBASE, PHYSTOP, PGSIZE in *. rewrite u32_small by lia.
  split_and!; [lia|lia| |done]. dlia.
Qed.

Definition new_table (m : memory) (d i p : Z) : memory :=
  store32 (memset m p 0 PGSIZE) (d + 4 * i)
          (Z.lor (Z.lor (Z.lor (V2P p) PTE_P) PTE_W) PTE_U).

Lemma pde_entry pa :
  0 <= pa < 2 ^ 32 -> pa mod PGSIZE = 0 ->
  let e := u32 (Z.lor (Z.lor (Z.lor pa PTE_P) PTE_W) PTE_U) in
  has_flag e PTE_P = true /\ PTE_ADDR e = pa.
Proof.
  intros Hpa Ha e. assert (He : e = Z.lor pa 7).
  { unfold e. rewrite <- !Z.lor_assoc. change (Z.lor PTE_P (Z.lor PTE_W PTE_U)) with 7.
    rewrite lor_page_flags by (unfold PGSIZE in *; done || lia).
    apply u32_small. unfold PGSIZE in *. dlia. }
  rewrite He. split; [|by apply PTE_ADDR_lor].
  rewrite has_flag_lor. apply orb_true_r.
Qed.

Section NewTable.
Context (m : memory) (d va p : Z) (l : list Z).
Context (Hwf : as_wf m d (p :: l)) (Hnone : table_at m d (PDX va) = None).
Context (Hp : good_page kend p) (Hpl : p ∉ l).
Let m' : memory := new_table m d (PDX va) p.

Local Lemma new_table_ne : d <> p.
Proof. pose proof (wf_dir_free _ _ _ Hwf) as H. rewrite not_elem_of_cons in H. tauto. Qed.

Local Lemma new_table_dir_word j :
  0 <= j < NPDENTRIES -> j <> PDX va -> load32 m' (d + 4 * j) = load32 m (d + 4 * j).
Proof.
  intros Hj Hne. pose proof (PDX_range va) as Hr. pose proof new_table_ne as Hdp.
  destruct (page_disjoint d p (proj1 (wf_dir _ _ _ Hwf)) (proj1 Hp) Hdp);
    unfold m', new_table, PGSIZE, NPDENTRIES in *;
    rewrite load32_store32_ne, load32_memset_out by lia; done.
Qed.

Lemma table_at_new_eq : table_at m' d (PDX va) = Some p.
Proof.
  unfold table_at, m', new_table. rewrite load32_store32_eq.
  destruct (V2P_good p Hp) as (Hr & Ha & Hpp).
  destruct (pde_entry (V2P p)) as [-> ->]; [lia|done|]. by rewrite Hpp.
Qed.

Lemma table_at_new_ne j :
  0 <= j < NPDENTRIES -> j <> PDX va -> table_at m' d j = table_at m d j.
Proof. intros Hj Hne. unfold table_at. by rewrite new_table_dir_word. Qed.

Lemma as_wf_new : as_wf m' d l.
Proof.
  destruct Hwf as [H1 H2 H3 H4]. rewrite not_elem_of_cons in H2.
  assert (Hcase : forall j t, 0 <= j < NPDENTRIES -> table_at m' d j = Some t ->
            (j = PDX va /\ t = p) \/ (j <> PDX va /\ table_at m d j = Some t)).
  { intros j t Hj Ht. destruct (decide (j = PDX va)) as [->|Hne].
    - left. rewrite table_at_new_eq in Ht. by injection Ht as <-.
    - right. by rewrite table_at_new_ne in Ht. }
  split; [done|tauto| |].
  - intros j t Hj Ht. destruct (Hcase j t Hj Ht) as [[-> ->]|[Hne Ht']].
    + split_and!; [done| |done]. apply not_eq_sym, new_table_ne.
    + destruct (H3 j t Hj Ht') as (Hg & Hd & Hf). rewrite not_elem_of_cons in Hf. tauto.
  - intros i j t Hi Hj Hti Htj.
    destruct (Hcase i t Hi Hti) as [[-> ->]|[Hnei Hti']],
      (Hcase j _ Hj Htj) as [[-> Hjp]|[Hnej Htj']]; try done.
    + destruct (H3 j p Hj Htj') as (_ & _ & Hf). rewrite not_elem_of_cons in Hf. tauto.
    + subst t. destruct (H3 i p Hi Hti') as (_ & _ & Hf). rewrite not_elem_of_cons in Hf. tauto.
    + by eapply H4.
Qed.

Lemma lookup_pt_new va' : lookup_pt m' d va' = lookup_pt m d va'.
Proof.
  pose proof (PTX_range va') as Hr. pose proof (PDX_range va) as Hr'.
  pose proof new_table_ne as Hdp. unfold lookup_pt.
  destruct (decide (PDX va' = PDX va)) as [->|Hne].
  - rewrite table_at_new_eq, Hnone. unfold m', new_table.
    destruct (page_disjoint d p (proj1 (wf_dir _ _ _ Hwf)) (proj1 Hp) Hdp);
      unfold PGSIZE, NPDENTRIES in *;
      rewrite load32_store32_ne, load32_memset_zero by lia; done.
  - rewrite table_at_new_ne by (done || apply PDX_range).
    destruct (table_at m d (PDX va')) as [t|] eqn:Ht; [|done].
    destruct (wf_tables _ _ _ Hwf _ _ (PDX_range va') Ht) as (Hg & Hd & Hf).
    rewrite not_elem_of_cons in Hf. destruct Hf as [Htp _].
    destruct (page_disjoint t d (proj1 Hg) (proj1 (wf_dir _ _ _ Hwf)) Hd),
      (page_disjoint t p (proj1 Hg) (proj1 Hp) Htp); unfold m', new_table, PGSIZE, NPDENTRIES in *;
      rewrite load32_store32_ne, load32_memset_out by lia; done.
Qed.

Lemma owns_new q : owns m' d q <-> owns m d q \/ q = p.
Proof.
  unfold owns. split.
  - intros [->|(i & Hi & Hq)]; [by left; left|]. destruct (decide (i = PDX va)) as [->|Hne].
    + rewrite table_at_new_eq in Hq. injection Hq as <-. by right.
    + rewrite table_at_new_ne in Hq by done. left. right. by exists i.
  - intros [[->|(i & Hi & Hq)]| ->]; [by left|right..].
    + exists i. rewrite table_at_new_ne; [done|done|]. intros ->. by rewrite Hnone in Hq.
    + exists (PDX va). split; [apply PDX_range|apply table_at_new_eq].
Qed.

Lemma changes_new : changes_only (fun q => q = d \/ q = p) m m'.
Proof.
  intros a Ha. pose proof (Ha d (or_introl eq_refl)). pose proof (Ha p (or_intror eq_refl)).
  pose proof (PDX_range va). unfold m', new_table, PGSIZE, NPDENTRIES in *.
  by rewrite store32_lookup, decide_False, memset_spec, decide_False by lia.
Qed.
End NewTable.

(** *** walkpgdir and mappages *)

(** What an operation that may add page tables to directory [d] preserves: the free list only
    loses pages from its front, the directory stays well formed, only the directory's pages
    and pages taken from the free list change, and every page taken becomes a page table. *)
Record grows (s : kmem) (d : Z) (l : list Z) (s' : kmem) (l' : list Z) : Prop := {
  grows_free : kmem_free kend s' l';
  grows_wf : as_wf (kmem_memory s') d l';
  grows_suffix : exists taken, l = taken ++ l';
  grows_changes : changes_only (fun p => owns (kmem_memory s) d p \/ p ∈ l)
                    (kmem_memory s) (kmem_memory s');
  grows_account : forall p, owns (kmem_memory s') d p \/ p ∈ l' <->
                            owns (kmem_memory s) d p \/ p ∈ l
}.

Lemma grows_refl s d l : kmem_free kend s l -> as_wf (kmem_memory s) d l -> grows s d l s l.
Proof. intros Hf Hw. by split; [done|done|exists []|done|]. Qed.

Lemma grows_trans s1 d l1 s2 l2 s3 l3 :
  grows s1 d l1 s2 l2 -> grows s2 d l2 s3 l3 -> grows s1 d l1 s3 l3.
Proof.
  intros [Hf1 Hw1 [t1 ->] Hc1 Ho1] [Hf2 Hw2 [t2 ->] Hc2 Ho2].
  split; [done|done|exists (t1 ++ t2); by rewrite app_assoc| |].
  - eapply changes_only_trans; [|done|done]. intros p Hp. by apply Ho1.
  - intros p. by rewrite Ho2.
Qed.

Lemma walkpgdir_present s d va t alloc :
  table_at (kmem_memory s) d (PDX va) = Some t ->
  walkpgdir d va alloc s = Ret (t + 4 * PTX va) s.
Proof.
  unfold table_at, walkpgdir. rewrite (bind_ret _ _ _ _ s) by done.
  intros H. destruct (has_flag _ _); [|done]. by injection H as <-.
Qed.

Lemma walkpgdir_absent s d va :
  table_at (kmem_memory s) d (PDX va) = None -> walkpgdir d va false s = Ret 0 s.
Proof.
  unfold table_at, walkpgdir. rewrite (bind_ret _ _ _ _ s) by done. by destruct (has_flag _ _).
Qed.

Lemma walkpgdir_alloc_spec s d va l :
  kmem_free kend s l -> as_wf (kmem_memory s) d l ->
  (l = [] /\ walkpgdir d va true s = Ret 0 s) \/
  exists t s' l', walkpgdir d va true s = Ret (t + 4 * PTX va) s' /\ grows s d l s' l' /\
    table_at (kmem_memory s') d (PDX va) = Some t /\
    (forall va', lookup_pt (kmem_memory s') d va' = lookup_pt (kmem_memory s) d va').
Proof.
  intros Hf Hw. destruct (table_at (kmem_memory s) d (PDX va)) as [t|] eqn:Ht.
  { right. exists t, s, l. split_and!; [by apply walkpgdir_present|by apply grows_refl|done|done]. }
  pose proof (kalloc_spec kend kend_high s l Hf) as Hk. unfold walkpgdir.
  rewrite (bind_ret _ _ _ _ s) by done. unfold table_at in Ht.
  destruct (has_flag _ _) eqn:Hp; [done|]. simpl. destruct l as [|p l].
  { left. split; [done|]. by rewrite (bind_ret _ _ _ _ _ Hk). }
  destruct Hk as (s1 & Hk & Hf1 & Hg & Hpl & Hm & _). right.
  assert (Hn : table_at (kmem_memory s) d (PDX va) = None) by (unfold table_at; by rewrite Hp).
  rewrite (bind_ret _ _ _ _ _ Hk). pose proof (good_page_range kend kend_high p Hg) as Hpr.
  unfold KERNBASE in Hpr. rewrite (proj2 (Z.eqb_neq p 0)) by lia.
  exists p, (set_memory (new_table (kmem_memory s) d (PDX va) p) s1), l.
  split_and!.
  - unfold mbind, M_bind, kmemset, kstore32, modify, ret, new_table. simpl. by rewrite Hm.
  - pose proof (wf_dir_free _ _ _ Hw) as Hdf. rewrite not_elem_of_cons in Hdf.
    assert (Hch : changes_only (fun q => q = d \/ q = p) (kmem_memory s)
                    (new_table (kmem_memory s) d (PDX va) p)) by apply changes_new.
    split; simpl.
    + apply kmem_free_frame; [done|]. intros q Hq. rewrite Hm.
      rewrite <- (Z.add_0_r q). eapply changes_only_word with (k := 0); [exact Hch| | | |done].
      * destruct Hf1 as [_ Hgl _ _]. rewrite Forall_forall in Hgl. by apply Hgl.
      * intros r [-> | ->]; [apply (wf_dir _ _ _ Hw)|apply Hg].
      * intros [->| ->]; tauto.
    + by apply as_wf_new.
    + by exists [p].
    + intros a Ha. apply Hch. intros q [->| ->]; apply Ha; [left; by left|right; by left].
    + intros q. rewrite elem_of_cons.
      pose proof (owns_new (kmem_memory s) d va p l Hw Hn Hg q) as Ho. simpl in Ho.
      rewrite Ho. tauto.
  - by apply table_at_new_eq.
  - intros va'. by apply (lookup_pt_new _ _ _ _ l).
Qed.

(** The entry mappages writes. *)
Definition map_entry (pa perm : Z) : Z := Z.lor (Z.lor pa perm) PTE_P.

Lemma map_entry_range pa perm :
  pa mod PGSIZE = 0 -> 0 <= pa < 2 ^ 32 -> 0 <= perm < PGSIZE ->
  0 <= map_entry pa perm < 2 ^ 32 /\ has_flag (map_entry pa perm) PTE_P = true /\
  PTE_ADDR (map_entry pa perm) = pa.
Proof.
  intros Ha Hr Hp. unfold map_entry.
  assert (Hl : 0 <= Z.lor perm PTE_P < PGSIZE).
  { assert (0 <= Z.lor perm PTE_P) by (apply Z.lor_nonneg; split; [lia|done]).
    split; [done|]. change PGSIZE with (2 ^ 12) in *.
    destruct (decide (Z.lor perm PTE_P = 0)) as [->|]; [done|].
    apply Z.log2_lt_pow2; [lia|].
    rewrite Z.log2_lor by (done || lia). apply Z.max_lub_lt; [|done].
    destruct (decide (perm = 0)) as [->|]; [done|]. apply Z.log2_lt_pow2; lia. }
  rewrite <- Z.lor_assoc. split_and!.
  - rewrite lor_page_flags by done. lia.
  - rewrite lor_page_flags by done. unfold PGSIZE in *. dlia.
  - rewrite !has_flag_lor. change (has_flag PTE_P PTE_P) with true. by rewrite !orb_true_r.
  - by apply PTE_ADDR_lor.
Qed.

Lemma vpn_add a i :
  a mod PGSIZE = 0 -> 0 <= a -> 0 <= i -> a + i * PGSIZE < 2 ^ 32 ->
  vpn (a + i * PGSIZE) = vpn a + i.
Proof.
  intros Ha H0 Hi Hb. unfold vpn. unfold PGSIZE in *. rewrite !u32_small by lia. dlia.
Qed.

Lemma grows_store s d l va t v :
  kmem_free kend s l -> as_wf (kmem_memory s) d l ->
  table_at (kmem_memory s) d (PDX va) = Some t ->
  grows s d l (set_memory (store32 (kmem_memory s) (t + 4 * PTX va) v) s) l.
Proof.
  intros Hf Hw Ht. pose proof (PTX_range va) as Hr.
  pose proof (changes_store (kmem_memory s) t (PTX va) v Hr) as Hc.
  destruct (wf_tables _ _ _ Hw _ _ (PDX_range va) Ht) as (Hg & Hd & Htl).
  split; simpl.
  - apply kmem_free_frame; [done|]. intros q Hq. rewrite <- (Z.add_0_r q).
    apply (changes_only_word _ _ _ q 0 Hc); [| | |done].
    + destruct Hf as [_ Hgl _ _]. rewrite Forall_forall in Hgl. by apply Hgl.
    + intros r <-. apply Hg.
    + intros ->. done.
  - by apply as_wf_store.
  - by exists [].
  - eapply changes_only_trans; [|apply changes_only_refl|exact Hc].
    intros q <-. left. right. eexists. split; [apply PDX_range|done].
  - intros q. by rewrite (owns_store _ _ l).
Qed.

(** One turn of the mappages loop: the entry found and the state after writing it. *)
Lemma map_page_step s d l a v :
  kmem_free kend s l -> as_wf (kmem_memory s) d l -> 0 <= v < 2 ^ 32 ->
  (l = [] /\ walkpgdir d a true s = Ret 0 s) \/
  exists t s1 l', walkpgdir d a true s = Ret (t + 4 * PTX a) s1 /\
    (t + 4 * PTX a =? 0) = false /\
    load32 (kmem_memory s1) (t + 4 * PTX a) = lookup_pt (kmem_memory s) d a /\
    let s2 := set_memory (store32 (kmem_memory s1) (t + 4 * PTX a) v) s1 in
    grows s d l s2 l' /\
    forall va, lookup_pt (kmem_memory s2) d va =
      if decide (vpn va = vpn a) then v else lookup_pt (kmem_memory s) d va.
Proof.
  intros Hf Hw Hv.
  destruct (walkpgdir_alloc_spec s d a l Hf Hw) as [?|(t & s1 & l1 & Hwalk & Hgr & Ht & Hlk)];
    [by left|right].
  pose proof Hgr as [Hf1 Hw1 _ _ _]. exists t, s1, l1.
  destruct (wf_tables _ _ _ Hw1 _ _ (PDX_range a) Ht) as (Hg & _).
  pose proof (good_page_range kend kend_high t Hg). pose proof (PTX_range a).
  split_and!; [done|apply Z.eqb_neq; unfold KERNBASE, NPDENTRIES in *; lia| |cbn zeta; split].
  - rewrite <- Hlk. unfold lookup_pt. by rewrite Ht.
  - eapply grows_trans; [exact Hgr|]. by apply grows_store.
  - intros va. simpl. rewrite (lookup_pt_store _ _ l1) by done. by rewrite Hlk.
Qed.

Lemma mappages_loop_spec n d perm a pa s l fuel :
  kmem_free kend s l -> as_wf (kmem_memory s) d l ->
  a mod PGSIZE = 0 -> 0 <= a -> a + Z.of_nat n * PGSIZE < 2 ^ 32 ->
  pa mod PGSIZE = 0 -> 0 <= pa -> pa + Z.of_nat n * PGSIZE < 2 ^ 32 ->
  0 <= perm < PGSIZE -> (n < fuel)%nat ->
  (forall i, 0 <= i <= Z.of_nat n ->
     has_flag (lookup_pt (kmem_memory s) d (a + i * PGSIZE)) PTE_P = false) ->
  exists r s' l' k,
    mappages_loop d a (a + Z.of_nat n * PGSIZE) pa perm fuel s = Ret r s' /\
    grows s d l s' l' /\
    (r = 0 /\ k = Z.of_nat n + 1 \/ r = -1 /\ l' = [] /\ 0 <= k <= Z.of_nat n) /\
    (forall va, lookup_pt (kmem_memory s') d va =
       if decide (vpn a <= vpn va < vpn a + k)
       then map_entry (pa + (vpn va - vpn a) * PGSIZE) perm
       else lookup_pt (kmem_memory s) d va).
Proof.
  revert a pa s l fuel.
  induction n as [|n IH]; intros a pa s l fuel Hf Hw Ha Ha0 Hab Hpa Hpa0 Hpb Hperm Hfuel Hnp;
    (destruct fuel as [|fuel]; [lia|]); cbn [mappages_loop];
    (destruct (map_entry_range pa perm) as (Hv & _); [done|unfold PGSIZE in *; lia|done|]);
    (destruct (map_page_step s d l a (map_entry pa perm) Hf Hw Hv) as
      [[-> Hwalk]|(t & s1 & l1 & Hwalk & Hnz & He & Hgr & Hlk)];
     rewrite (bind_ret _ _ _ _ _ Hwalk);
     [exists (-1), s, [], 0; split_and!;
        [done|by apply grows_refl|right; split_and!; done || lia|
         intros va; rewrite decide_False by lia; done]|]);
    rewrite Hnz, (bind_ret _ _ _ _ s1) by done; rewrite He;
    pose proof (Hnp 0 ltac:(lia)) as Hnp0; rewrite Z.mul_0_l, Z.add_0_r in Hnp0; rewrite Hnp0;
    fold (map_entry pa perm);
    (rewrite (bind_ret _ _ s1 tt s1) by done);
    (erewrite bind_ret by reflexivity).
  - rewrite Z.mul_0_l, Z.add_0_r, Z.eqb_refl.
    eexists 0, _, l1, 1. split_and!; [done|exact Hgr|by left|].
    intros va. rewrite Hlk. repeat case_decide; try lia.
    f_equal. unfold PGSIZE. lia.
  - rewrite (proj2 (Z.eqb_neq _ _)) by (unfold PGSIZE; lia).
    pose proof Hgr as [Hf2 Hw2 _ _ _].
    rewrite (u32_small (a + PGSIZE)), (u32_small (pa + PGSIZE)) by (unfold PGSIZE in *; lia).
    replace (a + Z.of_nat (S n) * PGSIZE) with (a + PGSIZE + Z.of_nat n * PGSIZE) by lia.
    assert (Hv1 : vpn (a + PGSIZE) = vpn a + 1).
    { replace (a + PGSIZE) with (a + 1 * PGSIZE) by lia. apply vpn_add; done || lia || unfold PGSIZE in *; lia. }
    destruct (IH (a + PGSIZE) (pa + PGSIZE) _ l1 fuel Hf2 Hw2) as (r & s' & l' & k & Hrun & Hgr' & Hr & Hlk').
    + rewrite Zplus_mod, Ha. done.
    + unfold PGSIZE; lia.
    + lia.
    + rewrite Zplus_mod, Hpa. done.
    + unfold PGSIZE; lia.
    + lia.
    + done.
    + lia.
    + intros i Hi. rewrite Hlk. replace (a + PGSIZE + i * PGSIZE) with (a + (i + 1) * PGSIZE) by lia.
      rewrite decide_False; [apply Hnp; lia|].
      rewrite vpn_add; [lia|done|lia|lia|unfold PGSIZE in *; lia].
    + exists r, s', l', (k + 1). split_and!; [done|by eapply grows_trans| |].
      * destruct Hr as [[-> ->]|(-> & -> & Hk)]; [left|right]; split_and!; done || lia.
      * intros va. rewrite Hlk', Hlk, Hv1. repeat case_decide; try lia;
          f_equal; unfold PGSIZE; lia.
Qed.

(** mappages maps what it is asked to and nothing else: for a range none of whose pages is
    mapped yet it never panics; if it returns 0, page [i] of the range holds the entry for
    physical page [i] with the requested permissions and the present bit, every other virtual
    page keeps its entry, and the page tables it added come off the free list; it returns -1
    only when the free list is empty, with a prefix of the range mapped. *)
Lemma mappages_spec (d va size pa perm : Z) (s : kmem) (l : list Z)
    (Hf : kmem_free kend s l) (Hw : as_wf (kmem_memory s) d l)
    (Hva : 0 <= va) (Hsize : 0 < size) (Hend : va + size <= 2 ^ 32)
    (Hpa : pa mod PGSIZE = 0) (Hpa0 : 0 <= pa)
    (Hpend : pa + (vpn (va + size - 1) - vpn va) * PGSIZE < 2 ^ 32)
    (Hperm : 0 <= perm < PGSIZE)
    (Hnew : forall va', vpn va <= vpn va' <= vpn (va + size - 1) ->
              has_flag (lookup_pt (kmem_memory s) d va') PTE_P = false) :
  exists r s' l' k,
    mappages d va size pa perm s = Ret r s' /\ grows s d l s' l' /\
    (r = 0 /\ k = vpn (va + size - 1) - vpn va + 1 \/
     r = -1 /\ l' = [] /\ 0 <= k <= vpn (va + size - 1) - vpn va) /\
    (forall va', lookup_pt (kmem_memory s') d va' =
       if decide (vpn va <= vpn va' < vpn va + k)
       then map_entry (pa + (vpn va' - vpn va) * PGSIZE) perm
       else lookup_pt (kmem_memory s) d va').
Proof.
  assert (Hdown : forall x, 0 <= x < 2 ^ 32 ->
            PGROUNDDOWN x = vpn x * PGSIZE /\ vpn (PGROUNDDOWN x) = vpn x /\
            0 <= PGROUNDDOWN x < 2 ^ 32).
  { intros x Hx. rewrite PGROUNDDOWN_eq. unfold vpn, PGSIZE.
    assert (0 <= u32 x / 4096 * 4096 < 2 ^ 32) by (rewrite u32_small by lia; dlia).
    split_and!; [done| |lia|lia]. rewrite (u32_small (_ * _)) by lia. by rewrite Z.div_mul. }
  destruct (Hdown va ltac:(lia)) as (Ha1 & Ha2 & Ha0).
  destruct (Hdown (va + size - 1) ltac:(lia)) as (Hl1 & Hl2 & Hb).
  assert (Hn : vpn va <= vpn (va + size - 1)).
  { unfold vpn. rewrite !u32_small by lia. unfold PGSIZE. dlia. }
  remember (vpn (va + size - 1) - vpn va) as n eqn:En.
  assert (Hlast : PGROUNDDOWN (va + size - 1) = PGROUNDDOWN va + Z.of_nat (Z.to_nat n) * PGSIZE)
    by (rewrite Hl1, Ha1; unfold PGSIZE; lia).
  unfold mappages. rewrite Hlast in *.
  replace (u32 (PGROUNDDOWN va + Z.of_nat (Z.to_nat n) * PGSIZE - PGROUNDDOWN va) / PGSIZE) with n.
  2: { rewrite u32_small by (unfold PGSIZE in *; lia). unfold PGSIZE in *. dlia. }
  destruct (mappages_loop_spec (Z.to_nat n) d perm (PGROUNDDOWN va) pa s l (S (Z.to_nat n)))
    as (r & s' & l' & k & Hrun & Hgr & Hr & Hlk);
    [done|done|apply PGROUNDDOWN_aligned|lia|lia|done|lia|lia|done|lia| |].
  - intros i Hi. apply Hnew. rewrite vpn_add; [|apply PGROUNDDOWN_aligned|lia|lia|].
    + rewrite Ha2. lia.
    + unfold PGSIZE in *. lia.
  - rewrite Ha2 in Hlk. exists r, s', l', k. split_and!; [done|done| |done].
    destruct Hr as [[-> ->]|(-> & -> & Hk)]; [left|right]; split_and!; done || lia.
Qed.

(** *** uva2ka and copyout *)

(** The kernel address of the frame a user-accessible virtual address lies in. *)
Definition frame_of (m : memory) (d va : Z) : option Z :=
  let e := lookup_pt m d va in
  if has_flag e PTE_P && has_flag e PTE_U then Some (P2V (PTE_ADDR e)) else None.

Lemma pte_nonzero m d l va t :
  as_wf m d l -> table_at m d (PDX va) = Some t -> (t + 4 * PTX va =? 0) = false.
Proof.
  intros Hw Ht. destruct (wf_tables _ _ _ Hw _ _ (PDX_range va) Ht) as (Hg & _).
  apply good_page_range in Hg; [|done]. pose proof (PTX_range va).
  apply Z.eqb_neq. unfold KERNBASE in *. lia.
Qed.

Lemma uva2ka_frame s d l va f :
  as_wf (kmem_memory s) d l -> frame_of (kmem_memory s) d va = Some f ->
  uva2ka d va s = Ret f s.
Proof.
  unfold frame_of, lookup_pt, uva2ka. intros Hw H.
  destruct (table_at (kmem_memory s) d (PDX va)) as [t|] eqn:Ht; [|done].
  rewrite (bind_ret _ _ _ _ _ (walkpgdir_present _ _ _ _ false Ht)), (pte_nonzero _ _ _ _ _ Hw Ht).
  rewrite (bind_ret _ _ _ _ s) by done.
  destruct (has_flag _ PTE_P); [|done]. destruct (has_flag _ PTE_U); [|done].
  simpl in *. by injection H as <-.
Qed.

(** Translation reads the directory's own pages only. *)
Lemma lookup_pt_frame m m' d l va :
  as_wf m d l -> (forall p a, owns m d p -> p <= a < p + PGSIZE -> load8 m' a = load8 m a) ->
  table_at m' d (PDX va) = table_at m d (PDX va) /\ lookup_pt m' d va = lookup_pt m d va.
Proof.
  intros Hw Hm.
  assert (Hword : forall p k, owns m d p -> 0 <= k < NPDENTRIES ->
            load32 m' (p + 4 * k) = load32 m (p + 4 * k)).
  { intros p k Hp Hk. apply load32_ext. intros a Ha. apply (Hm p); [done|].
    unfold NPDENTRIES, PGSIZE in *. lia. }
  assert (Ht : table_at m' d (PDX va) = table_at m d (PDX va)).
  { unfold table_at. rewrite Hword; [done|by left|apply PDX_range]. }
  split; [done|]. unfold lookup_pt. rewrite Ht.
  destruct (table_at m d (PDX va)) as [t|] eqn:E; [|done].
  apply Hword; [right; exists (PDX va); split; [apply PDX_range|done]|apply PTX_range].
Qed.

Lemma as_wf_frame m m' d l :
  as_wf m d l -> (forall p a, owns m d p -> p <= a < p + PGSIZE -> load8 m' a = load8 m a) ->
  as_wf m' d l.
Proof.
  intros Hw Hm.
  assert (Ht : forall i, 0 <= i < NPDENTRIES -> table_at m' d i = table_at m d i).
  { intros i Hi. unfold table_at. rewrite (load32_ext m' m); [done|].
    intros a Ha. apply (Hm d); [by left|]. unfold NPDENTRIES, PGSIZE in *. lia. }
  destruct Hw as [H1 H2 H3 H4]. split; [done|done| |].
  - intros i t Hi. rewrite Ht by done. by apply H3.
  - intros i j t Hi Hj. rewrite !Ht by done. by apply H4.
Qed.

(** A range of user addresses that copyout can write from the kernel buffer at [p]: every page
    is mapped user-accessible to a frame that is neither a page table nor part of the buffer,
    and no frame backs two of the pages. *)
Record user_range (m : memory) (d va p len : Z) : Prop := {
  ur_frame : forall i, 0 <= i < len -> exists f, frame_of m d (va + i) = Some f /\
               good_page kend f /\ ~ owns m d f /\ (p + len <= f \/ f + PGSIZE <= p);
  ur_inj : forall i j f, 0 <= i < len -> 0 <= j < len ->
             frame_of m d (va + i) = Some f -> frame_of m d (va + j) = Some f ->
             vpn (va + i) = vpn (va + j)
}.

Lemma user_range_drop m d va p len n :
  user_range m d va p len -> 0 <= n -> user_range m d (va + n) (p + n) (len - n).
Proof.
  intros [Hf Hi] Hn. split.
  - intros i Hr. destruct (Hf (n + i) ltac:(lia)) as (f & Hfr & Hg & Ho & Hd).
    exists f. rewrite <- Z.add_assoc. split_and!; [done..|lia].
  - intros i j f Hi' Hj. rewrite <- !Z.add_assoc. apply Hi; lia.
Qed.

Lemma owns_aligned m d l p : as_wf m d l -> owns m d p -> p mod PGSIZE = 0.
Proof.
  intros Hw [->|(i & Hi & Hp)]; [apply (wf_dir _ _ _ Hw)|].
  apply (wf_tables _ _ _ Hw i p Hi Hp).
Qed.

(** Writing a page the directory does not own changes no mapping. *)
Lemma unowned_write m m' d l f :
  as_wf m d l -> f mod PGSIZE = 0 -> ~ owns m d f ->
  (forall a, ~ (f <= a < f + PGSIZE) -> load8 m' a = load8 m a) ->
  as_wf m' d l /\ (forall p, owns m' d p <-> owns m d p) /\
  (forall va, table_at m' d (PDX va) = table_at m d (PDX va) /\
              lookup_pt m' d va = lookup_pt m d va).
Proof.
  intros Hw Hg Ho Hm.
  assert (Hown : forall p a, owns m d p -> p <= a < p + PGSIZE -> load8 m' a = load8 m a).
  { intros p a Hp Ha. apply Hm. intros Hfa.
    destruct (page_disjoint p f (owns_aligned _ _ _ _ Hw Hp) Hg); [by intros ->|lia|lia]. }
  split_and!; [by eapply as_wf_frame| |].
  - intros p. unfold owns.
    assert (Ht : forall i, 0 <= i < NPDENTRIES -> table_at m' d i = table_at m d i).
    { intros i Hi. unfold table_at. rewrite (load32_ext m' m); [done|].
      intros a Ha. apply (Hown d); [by left|]. unfold NPDENTRIES, PGSIZE in *. lia. }
    split; (intros [->|(i & Hi & Hp)]; [by left|right; exists i]); rewrite Ht in * by done; done.
  - intros va. apply (lookup_pt_frame _ _ _ _ va Hw Hown).
Qed.

Lemma frame_of_write m m' d l f va :
  as_wf m d l -> good_page kend f -> ~ owns m d f ->
  (forall a, ~ (f <= a < f + PGSIZE) -> load8 m' a = load8 m a) ->
  as_wf m' d l /\ (forall p, owns m' d p <-> owns m d p) /\
  frame_of m' d va = frame_of m d va.
Proof.
  intros Hw Hg Ho Hm. destruct (unowned_write _ _ _ _ _ Hw (proj1 Hg) Ho Hm) as (H1 & H2 & H3).
  split_and!; [done|done|]. unfold frame_of. by rewrite (proj2 (H3 va)).
Qed.

Lemma user_range_write m m' d l f va p len :
  as_wf m d l -> good_page kend f -> ~ owns m d f ->
  (forall a, ~ (f <= a < f + PGSIZE) -> load8 m' a = load8 m a) ->
  user_range m d va p len -> user_range m' d va p len.
Proof.
  intros Hw Hg Ho Hm [Hf Hi].
  pose proof (fun va => frame_of_write _ _ _ _ _ va Hw Hg Ho Hm) as HH. split.
  - intros i Hr. destruct (HH (va + i)) as (_ & Ho' & ->). setoid_rewrite Ho'. by apply Hf.
  - intros i j fr Hi' Hj. rewrite (proj2 (proj2 (HH (va + i)))), (proj2 (proj2 (HH (va + j)))).
    by apply Hi.
Qed.

(** What copying [len] bytes to user address [va] does to memory. *)
Definition copied (d va p len : Z) (m m' : memory) : Prop :=
  (forall i f, 0 <= i < len -> frame_of m d (va + i) = Some f ->
     load8 m' (f + (va + i) mod PGSIZE) = load8 m (p + i)) /\
  (forall a, (forall i f, 0 <= i < len -> frame_of m d (va + i) = Some f ->
                a <> f + (va + i) mod PGSIZE) -> load8 m' a = load8 m a).

Lemma vpn_step va i :
  0 <= va -> 0 <= i -> va + i < 2 ^ 32 -> i < PGSIZE - va mod PGSIZE ->
  vpn (va + i) = vpn va /\ (va + i) mod PGSIZE = va mod PGSIZE + i.
Proof. intros. unfold vpn, PGSIZE in *. rewrite !u32_small by lia. split; dlia. Qed.

Lemma copied_step m d l va p len n f m' :
  as_wf m d l -> user_range m d va p len -> 0 <= va -> va + len <= 2 ^ 32 ->
  0 < n <= len -> n <= PGSIZE - va mod PGSIZE -> frame_of m d va = Some f ->
  copied d (va + n) (p + n) (len - n) (memmove m (f + va mod PGSIZE) p n) m' ->
  (n < len -> n = PGSIZE - va mod PGSIZE) ->
  copied d va p len m m'.
Proof.
  intros Hw Hu Hva Hend Hn Hpg Hfr [Hc1 Hc2] Hfull.
  destruct (ur_frame _ _ _ _ _ Hu 0 ltac:(lia)) as (f0 & Hf0 & Hg & Ho & Hd).
  rewrite Z.add_0_r, Hfr in Hf0. injection Hf0 as <-.
  assert (Hoff : 0 <= va mod PGSIZE < PGSIZE) by (apply Z.mod_pos_bound; done).
  set (m1 := memmove m (f + va mod PGSIZE) p n) in *.
  assert (Hm1 : forall a, ~ (f <= a < f + PGSIZE) -> load8 m1 a = load8 m a).
  { intros a Ha. unfold m1. rewrite memmove_lookup, decide_False by lia. done. }
  pose proof (fun va => proj2 (proj2 (frame_of_write _ _ _ _ _ va Hw Hg Ho Hm1))) as Hfo.
  assert (Hother : forall i g, n <= i < len -> frame_of m d (va + i) = Some g ->
            g mod PGSIZE = 0 /\ (g + PGSIZE <= f \/ f + PGSIZE <= g)).
  { intros i g Hi Hg'. destruct (ur_frame _ _ _ _ _ Hu i ltac:(lia)) as (g0 & E & Hgg & _).
    rewrite Hg' in E. injection E as <-. split; [apply Hgg|].
    apply page_disjoint; [apply Hgg|apply Hg|]. intros ->.
    pose proof (ur_inj _ _ _ _ _ Hu i 0 f ltac:(lia) ltac:(lia) Hg') as E.
    rewrite Z.add_0_r in E. specialize (E Hfr). specialize (Hfull ltac:(lia)).
    unfold vpn, PGSIZE in *. rewrite !u32_small in E by lia. dlia. }
  split.
  - intros i g Hi Hg'. destruct (decide (i < n)) as [Hlt|Hge].
    + destruct (vpn_step va i) as [Hv ->]; [lia..|].
      assert (g = f) as ->.
      { unfold frame_of in Hg', Hfr. unfold lookup_pt in *.
        apply vpn_eq_iff in Hv as [E1 E2]. rewrite E1, E2 in Hg'. congruence. }
      rewrite Hc2.
      * unfold m1. rewrite memmove_lookup, decide_True by lia. f_equal. lia.
      * intros j h Hj. rewrite Hfo, <- Z.add_assoc. intros Hh.
        destruct (Hother (n + j) h ltac:(lia) Hh) as [_ Hdis].
        pose proof (Z.mod_pos_bound (va + (n + j)) PGSIZE ltac:(done)). lia.
    + specialize (Hc1 (i - n) g ltac:(lia)). rewrite Hfo in Hc1.
      replace (va + n + (i - n)) with (va + i) in Hc1 by lia.
      rewrite (Hc1 Hg'). replace (p + n + (i - n)) with (p + i) by lia. apply Hm1. lia.
  - intros a Ha. rewrite Hc2.
    + unfold m1. rewrite memmove_lookup by lia. case_decide as E; [|done]. exfalso.
      destruct (vpn_step va (a - (f + va mod PGSIZE))) as [Hv Hmod]; [lia..|].
      apply (Ha (a - (f + va mod PGSIZE)) f); [lia| |lia].
      unfold frame_of, lookup_pt in *. apply vpn_eq_iff in Hv as [-> ->]. done.
    + intros j h Hj. rewrite Hfo, <- Z.add_assoc. intros Hh. apply Ha; [lia|done].
Qed.

Lemma copyout_loop_spec fuel d l va p len s :
  as_wf (kmem_memory s) d l -> user_range (kmem_memory s) d va p len ->
  0 <= va -> 0 <= len -> va + len <= 2 ^ 32 ->
  len = 0 \/ va mod PGSIZE + len <= Z.of_nat fuel * PGSIZE ->
  exists m', copyout_loop d va p len (S fuel) s = Ret 0 (set_memory m' s) /\
             copied d va p len (kmem_memory s) m'.
Proof.
  revert va p len s. induction fuel as [|fuel IH]; intros va p len s Hw Hu Hva Hlen Hend Hfuel;
    cbn [copyout_loop].
  all: destruct (Z.ltb_spec 0 len) as [Hpos|Hz];
    [|exists (kmem_memory s); split; [by destruct s|split; [intros; lia|done]]].
  { unfold PGSIZE in *. dlia. }
  cbn [negb]. destruct (ur_frame _ _ _ _ _ Hu 0 ltac:(lia)) as (f & Hf & Hg & Ho & Hd).
  rewrite Z.add_0_r in Hf.
  assert (Hva0 : va - PGROUNDDOWN va = va mod PGSIZE).
  { rewrite PGROUNDDOWN_eq. unfold PGSIZE. rewrite u32_small by lia. dlia. }
  assert (Hf0 : frame_of (kmem_memory s) d (PGROUNDDOWN va) = Some f).
  { rewrite <- Hf. unfold frame_of, lookup_pt.
    destruct (vpn_step (PGROUNDDOWN va) (va mod PGSIZE)) as [Hv _].
    - rewrite PGROUNDDOWN_eq. pose proof (u32_range va). unfold PGSIZE. dlia.
    - by apply Z.mod_pos_bound.
    - lia.
    - rewrite PGROUNDDOWN_aligned. pose proof (Z.mod_pos_bound va PGSIZE ltac:(done)). lia.
    - replace (PGROUNDDOWN va + va mod PGSIZE) with va in Hv by lia.
      apply vpn_eq_iff in Hv as [-> ->]. done. }
  rewrite (bind_ret _ _ _ _ _ (uva2ka_frame _ _ _ _ _ Hw Hf0)).
  pose proof (good_page_range kend kend_high f Hg) as Hfr.
  rewrite (proj2 (Z.eqb_neq f 0)) by (unfold KERNBASE in *; lia). rewrite Hva0.
  set (n := if len <? PGSIZE - va mod PGSIZE then len else PGSIZE - va mod PGSIZE).
  pose proof (Z.mod_pos_bound va PGSIZE ltac:(done)) as Hoff.
  assert (Hn : 0 < n <= len /\ n <= PGSIZE - va mod PGSIZE /\ (n < len -> n = PGSIZE - va mod PGSIZE)).
  { unfold n. destruct (Z.ltb_spec len (PGSIZE - va mod PGSIZE)); lia. }
  clearbody n. destruct Hn as (Hn1 & Hn2 & Hn3).
  erewrite bind_ret by reflexivity.
  set (s1 := set_memory (memmove (kmem_memory s) (f + va mod PGSIZE) p n) s).
  assert (Hout : forall a, ~ (f <= a < f + PGSIZE) -> load8 (kmem_memory s1) a = load8 (kmem_memory s) a).
  { intros a Ha. unfold s1. simpl. rewrite memmove_lookup, decide_False by lia. done. }
  pose proof (user_range_drop _ _ _ _ _ n Hu ltac:(lia)) as Hu1.
  apply (user_range_write _ _ _ _ _ _ _ _ Hw Hg Ho Hout) in Hu1.
  destruct (frame_of_write _ _ _ _ _ va Hw Hg Ho Hout) as (Hw1 & _).
  assert (Hnext : len = n \/ u32 (PGROUNDDOWN va + PGSIZE) = va + n).
  { destruct (decide (len = n)); [by left|right]. rewrite u32_small by lia. lia. }
  destruct Hnext as [-> | Hnx].
  - replace (n - n) with 0 by lia. destruct fuel; cbn [copyout_loop]; eexists;
      (split; [reflexivity|]); (eapply (copied_step _ _ l va p n n f); try done);
      rewrite Z.sub_diag; split; [intros; lia|done|intros; lia|done].
  - rewrite Hnx. destruct (IH (va + n) (p + n) (len - n) s1) as (m' & Hrun & Hc);
      [done|done|lia|lia|lia| |].
    + destruct (decide (n = len)); [left; lia|right].
      assert (Hmod : (va + n) mod PGSIZE = 0).
      { rewrite (Hn3 ltac:(lia)). unfold PGSIZE. dlia. }
      rewrite Hmod. unfold PGSIZE in *. lia.
    + exists m'. split; [etransitivity; [exact Hrun|]; by destruct s|]. by eapply copied_step.
Qed.

(** copyout writes exactly the bytes it is given: when every page of the user range is
    mapped user-accessible, it returns 0, byte [i] of the kernel buffer is found at the
    physical location user address [va + i] translates to, across page boundaries, and no
    other byte of memory changes (page tables included). *)
Theorem copyout_correct (d va p len : Z) (s : kmem) (l : list Z)
    (Hw : as_wf (kmem_memory s) d l) (Hu : user_range (kmem_memory s) d va p len)
    (Hva : 0 <= va) (Hlen : 0 <= len) (Hend : va + len <= 2 ^ 32) :
  exists m', copyout d va p len s = Ret 0 (set_memory m' s) /\
    (forall i f, 0 <= i < len -> frame_of (kmem_memory s) d (va + i) = Some f ->
       load8 m' (f + (va + i) mod PGSIZE) = load8 (kmem_memory s) (p + i)) /\
    (forall a, (forall i f, 0 <= i < len -> frame_of (kmem_memory s) d (va + i) = Some f ->
                  a <> f + (va + i) mod PGSIZE) -> load8 m' a = load8 (kmem_memory s) a).
Proof.
  unfold copyout. apply (copyout_loop_spec _ d l va p len s); try done. right.
  pose proof (Z.mod_pos_bound va PGSIZE ltac:(done)).
  assert (0 <= len / PGSIZE) by (unfold PGSIZE; dlia).
  rewrite Nat2Z.inj_add, Z2Nat.id by done. unfold PGSIZE in *. dlia.
Qed.

(** *** Freeing user pages *)

(** The frame behind a present entry, user-accessible or not. *)
Definition pframe (m : memory) (d va : Z) : option Z :=
  let e := lookup_pt m d va in
  if has_flag e PTE_P then Some (P2V (PTE_ADDR e)) else None.

(** The page of [va] starts in [lo, hi). *)
Definition in_range (lo hi va : Z) : Prop := lo <= vpn va * PGSIZE < hi.
#[global] Instance in_range_dec lo hi va : Decision (in_range lo hi va).
Proof. apply _. Defined.

(** The frames of a range belong to it alone: allocator pages that are neither free nor page
    tables, each mapped once. *)
Record frames_ok (m : memory) (d : Z) (l : list Z) (lo hi : Z) : Prop := {
  fo_frame : forall va f, in_range lo hi va -> pframe m d va = Some f ->
               good_page kend f /\ ~ owns m d f /\ f ∉ l;
  fo_inj : forall va va' f, in_range lo hi va -> in_range lo hi va' ->
             pframe m d va = Some f -> pframe m d va' = Some f -> vpn va = vpn va'
}.

(** What freeing the pages of a range does. *)
Record shrinks (s : kmem) (d : Z) (l : list Z) (lo hi : Z) (s' : kmem) (l' : list Z) : Prop := {
  sh_free : kmem_free kend s' l';
  sh_wf : as_wf (kmem_memory s') d l';
  sh_owns : forall p, owns (kmem_memory s') d p <-> owns (kmem_memory s) d p;
  sh_lookup : forall va, lookup_pt (kmem_memory s') d va =
    if bool_decide (in_range lo hi va) && has_flag (lookup_pt (kmem_memory s) d va) PTE_P
    then 0 else lookup_pt (kmem_memory s) d va;
  sh_list : forall p, p ∈ l' <->
    p ∈ l \/ exists va, in_range lo hi va /\ pframe (kmem_memory s) d va = Some p
}.

Lemma free_page_step s d l f :
  kmem_free kend s l -> as_wf (kmem_memory s) d l -> good_page kend f ->
  ~ owns (kmem_memory s) d f -> f ∉ l ->
  exists s', kfree kend f s = Ret tt s' /\ kmem_free kend s' (f :: l) /\
    as_wf (kmem_memory s') d (f :: l) /\
    (forall p, owns (kmem_memory s') d p <-> owns (kmem_memory s) d p) /\
    (forall va, table_at (kmem_memory s') d (PDX va) = table_at (kmem_memory s) d (PDX va) /\
                lookup_pt (kmem_memory s') d va = lookup_pt (kmem_memory s) d va) /\
    (forall a, ~ (f <= a < f + PGSIZE) -> load8 (kmem_memory s') a = load8 (kmem_memory s) a).
Proof.
  intros Hf Hw Hg Ho Hl. pose proof (good_page_range kend kend_high f Hg) as Hr.
  destruct (kfree_spec kend kend_high s l f Hf) as [(_ & s' & Hrun & Hf' & _ & Hm)|[Hn _]];
    [unfold KERNBASE, PHYSTOP, PGSIZE in *; lia|done| |done].
  destruct (unowned_write _ _ _ _ _ Hw (proj1 Hg) Ho Hm) as (Hw' & Ho' & Hlk).
  exists s'. split_and!; [done|done| |done|done|done].
  assert (Hno : ~ owns (kmem_memory s') d f) by (by rewrite Ho').
  destruct Hw' as [H1 H2 H3 H4]. split; [done| | |done].
  - apply not_elem_of_cons. split; [|done]. intros ->. apply Hno. by left.
  - intros i t Hi Ht. destruct (H3 i t Hi Ht) as (? & ? & ?). split_and!; [done|done|].
    apply not_elem_of_cons. split; [|done]. intros ->. apply Hno. right. by exists i.
Qed.

Lemma in_range_first a hi va :
  a mod PGSIZE = 0 -> 0 <= a < hi -> hi <= 2 ^ 32 ->
  in_range a hi va <-> vpn va = vpn a \/ in_range (a + PGSIZE) hi va.
Proof. intros Ha H0 Hb. unfold in_range, vpn, PGSIZE in *. rewrite (u32_small a) by lia. dlia. Qed.

Lemma shrinks_refl s d l lo hi :
  kmem_free kend s l -> as_wf (kmem_memory s) d l ->
  (forall va, in_range lo hi va -> pframe (kmem_memory s) d va = None) ->
  shrinks s d l lo hi s l.
Proof.
  intros Hf Hw Hn. split; [done|done|done| |].
  - intros va. case_bool_decide as Hr; simpl; [|done]. specialize (Hn va Hr).
    unfold pframe in Hn. by destruct (has_flag _ _).
  - intros p. split; [by left|]. intros [?|(va & Hr & Hp)]; [done|]. by rewrite Hn in Hp.
Qed.

(** Skipping pages with nothing present in front of a range. *)
Lemma shrinks_skip s d l lo lo' hi s' l' :
  shrinks s d l lo' hi s' l' -> lo <= lo' ->
  (forall va, in_range lo hi va -> in_range lo' hi va \/ pframe (kmem_memory s) d va = None) ->
  shrinks s d l lo hi s' l'.
Proof.
  intros [H1 H2 H3 H4 H5] Hle Hsk. split; [done|done|done| |].
  - intros va. rewrite H4. repeat case_bool_decide; simpl; try done.
    + unfold in_range in *. lia.
    + destruct (Hsk va) as [?|Hn]; [done|done|]. unfold pframe in Hn. by destruct (has_flag _ _).
  - intros p. rewrite H5. split; (intros [?|(va & Hr & Hp)]; [by left|]).
    + right. exists va. split; [unfold in_range in *; lia|done].
    + destruct (Hsk va Hr) as [?|Hn]; [right; by exists va|congruence].
Qed.

Lemma as_wf_cons_inv m d p l : as_wf m d (p :: l) -> as_wf m d l.
Proof.
  intros [H1 H2 H3 H4]. rewrite not_elem_of_cons in H2. split; [done|tauto| |done].
  intros i t Hi Ht. destruct (H3 i t Hi Ht) as (? & ? & Hn). rewrite not_elem_of_cons in Hn. tauto.
Qed.

(** One turn of the deallocuvm loop on a present page. *)
Record freed_page (s : kmem) (d : Z) (l : list Z) (a f : Z) (s' : kmem) : Prop := {
  fp_free : kmem_free kend s' (f :: l);
  fp_wf : as_wf (kmem_memory s') d (f :: l);
  fp_owns : forall p, owns (kmem_memory s') d p <-> owns (kmem_memory s) d p;
  fp_lookup : forall va, lookup_pt (kmem_memory s') d va =
    if decide (vpn va = vpn a) then 0 else lookup_pt (kmem_memory s) d va
}.

Lemma free_mapped_step s d l a t f :
  kmem_free kend s l -> as_wf (kmem_memory s) d l ->
  table_at (kmem_memory s) d (PDX a) = Some t ->
  good_page kend f -> ~ owns (kmem_memory s) d f -> f ∉ l ->
  exists s', (kfree kend f;; kstore32 (t + 4 * PTX a) 0) s = Ret tt s' /\ freed_page s d l a f s'.
Proof.
  intros Hf Hw Ht Hg Ho Hl.
  destruct (free_page_step s d l f Hf Hw Hg Ho Hl) as (s1 & Hrun & Hf1 & Hw1 & Ho1 & Hlk1 & _).
  pose proof Ht as Ht1. rewrite <- (proj1 (Hlk1 a)) in Ht1.
  destruct (grows_store s1 d (f :: l) a t 0 Hf1 Hw1 Ht1) as [H1 H2 _ _ _].
  eexists. split; [rewrite (bind_ret _ _ _ _ _ Hrun); reflexivity|]. split.
  - exact H1.
  - exact H2.
  - intros p. rewrite <- Ho1. by apply (owns_store _ _ (f :: l)).
  - intros va. simpl. rewrite (lookup_pt_store _ _ (f :: l)) by done.
    by rewrite (proj2 (Hlk1 va)).
Qed.

Lemma frames_ok_step s d l a hi f s' :
  a mod PGSIZE = 0 -> 0 <= a < hi -> hi <= 2 ^ 32 ->
  frames_ok (kmem_memory s) d l a hi -> pframe (kmem_memory s) d a = Some f ->
  freed_page s d l a f s' -> frames_ok (kmem_memory s') d (f :: l) (a + PGSIZE) hi.
Proof.
  intros Ha H0 Hhi [Hfo Hinj] Hpf [_ _ Ho Hlk].
  assert (Hpf' : forall va, in_range (a + PGSIZE) hi va ->
            vpn va <> vpn a /\ pframe (kmem_memory s') d va = pframe (kmem_memory s) d va).
  { intros va Hr. assert (Hne : vpn va <> vpn a).
    { unfold in_range, vpn, PGSIZE in *. rewrite (u32_small a) by lia. dlia. }
    split; [done|]. unfold pframe. by rewrite Hlk, decide_False. }
  assert (Hra : in_range a hi a) by (apply in_range_first; auto).
  assert (Hsub : forall va, in_range (a + PGSIZE) hi va -> in_range a hi va).
  { intros va Hr. apply in_range_first; auto. }
  split.
  - intros va g Hr Hg. destruct (Hpf' va Hr) as [Hne E]. rewrite E in Hg.
    destruct (Hfo va g (Hsub va Hr) Hg) as (H1 & H2 & H3). rewrite Ho. split_and!; [done|done|].
    apply not_elem_of_cons. split; [|done]. intros ->.
    apply Hne. by apply (Hinj va a f); [apply Hsub| | |].
  - intros va va' g Hr Hr'. rewrite (proj2 (Hpf' va Hr)), (proj2 (Hpf' va' Hr')).
    apply Hinj; by apply Hsub.
Qed.

Lemma shrinks_cons s d l a hi f s1 s' l' :
  a mod PGSIZE = 0 -> 0 <= a < hi -> hi <= 2 ^ 32 -> pframe (kmem_memory s) d a = Some f ->
  freed_page s d l a f s1 -> shrinks s1 d (f :: l) (a + PGSIZE) hi s' l' ->
  shrinks s d l a hi s' l'.
Proof.
  intros Ha H0 Hhi Hpf [_ _ Ho Hlk] [H1 H2 H3 H4 H5].
  assert (Hlka : forall va, vpn va = vpn a ->
            lookup_pt (kmem_memory s) d va = lookup_pt (kmem_memory s) d a).
  { intros va [E1 E2]%vpn_eq_iff. unfold lookup_pt. by rewrite E1, E2. }
  split; [done|done| | |].
  - intros p. by rewrite H3.
  - intros va. rewrite H4, Hlk. pose proof (in_range_first a hi va Ha H0 Hhi) as Hin.
    case_decide as E.
    + rewrite (bool_decide_true (in_range a hi va)) by (apply Hin; by left).
      rewrite (Hlka va E). unfold pframe in Hpf. destruct (has_flag (lookup_pt _ d a) _); [|done].
      by destruct (_ && _).
    + rewrite (bool_decide_ext (in_range a hi va) (in_range (a + PGSIZE) hi va)) by tauto. done.
  - intros p. rewrite H5, elem_of_cons. split.
    + intros [[->|?]|(va & Hr & Hp)]; [right; exists a|by left|].
      * split; [apply in_range_first; auto|done].
      * unfold pframe in Hp. rewrite Hlk in Hp. case_decide as E; [done|].
        right. exists va. split; [apply in_range_first; auto|done].
    + intros [?|(va & Hr & Hp)]; [left; by right|]. apply in_range_first in Hr; [|done..].
      destruct (decide (vpn va = vpn a)) as [E|E].
      * left; left. unfold pframe in *. rewrite (Hlka va E) in Hp. congruence.
      * destruct Hr as [?|Hr]; [done|]. right. exists va. split; [done|].
        unfold pframe. by rewrite Hlk, decide_False.
Qed.

(** Where the walk resumes after a missing page table: the next 4 MB boundary, with no page of
    another table in between. *)
Lemma PGADDR_next a :
  a mod PGSIZE = 0 -> 0 <= a < 2 ^ 31 ->
  u32 (u32 (PGADDR (PDX a + 1) 0 0 - PGSIZE) + PGSIZE) = (PDX a + 1) * 2 ^ 22 /\
  ((PDX a + 1) * 2 ^ 22) mod PGSIZE = 0 /\ a + PGSIZE <= (PDX a + 1) * 2 ^ 22 /\
  (forall va hi, in_range a hi va -> PDX va <> PDX a -> hi <= 2 ^ 31 ->
     in_range ((PDX a + 1) * 2 ^ 22) hi va).
Proof.
  intros Ha Hr. rewrite PDX_eq. rewrite (u32_small a) by lia. set (q := a / 2 ^ 22).
  assert (Hq : 0 <= q < 512) by (unfold q; dlia).
  assert (Hqa : a + PGSIZE <= (q + 1) * 2 ^ 22) by (unfold q, PGSIZE in *; dlia).
  split_and!.
  - unfold PGADDR, PDXSHIFT, PTXSHIFT. rewrite !Z.shiftl_mul_pow2, Z.mul_0_l, !Z.lor_0_r by lia.
    rewrite (u32_small ((q + 1) * 2 ^ 22)) by lia. unfold PGSIZE in *.
    rewrite u32_add_l, u32_small by lia. lia.
  - unfold PGSIZE. replace ((q + 1) * 2 ^ 22) with ((q + 1) * 1024 * 4096) by lia.
    apply Z.mod_mul. done.
  - done.
  - intros va hi Hin Hne Hhi. rewrite PDX_eq in Hne. unfold in_range, vpn, PGSIZE in *.
    pose proof (u32_range va). generalize dependent (u32 va). intros v Hin Hne Hv.
    subst q. dlia.
Qed.

Lemma frames_ok_sub m d l lo lo' hi : lo <= lo' -> frames_ok m d l lo hi -> frames_ok m d l lo' hi.
Proof.
  intros Hle [H1 H2]. assert (Hs : forall va, in_range lo' hi va -> in_range lo hi va)
    by (unfold in_range; lia).
  split.
  - intros va f Hr. apply H1. by apply Hs.
  - intros va va' f Hr Hr'. apply H2; by apply Hs.
Qed.

Lemma pte_frame_nonzero e f :
  (if has_flag e PTE_P then Some (P2V (PTE_ADDR e)) else None) = Some f -> good_page kend f ->
  has_flag e PTE_P = true /\ (PTE_ADDR e =? 0) = false /\ P2V (PTE_ADDR e) = f.
Proof.
  destruct (has_flag e PTE_P); [|done]. intros [= <-] Hg. split_and!; [done| |done].
  apply Z.eqb_neq. intros E. apply good_page_range in Hg; [|done]. rewrite E in Hg.
  change (P2V 0) with KERNBASE in Hg. lia.
Qed.

Lemma deallocuvm_loop_spec fuel d hi a s l :
  kmem_free kend s l -> as_wf (kmem_memory s) d l -> frames_ok (kmem_memory s) d l a hi ->
  a mod PGSIZE = 0 -> 0 <= a -> hi <= KERNBASE -> hi - a <= Z.of_nat fuel * PGSIZE ->
  exists s' l', deallocuvm_loop d a hi (S fuel) s = Ret tt s' /\ shrinks s d l a hi s' l'.
Proof.
  unfold KERNBASE. revert a s l.
  induction fuel as [|fuel IH]; intros a s l Hf Hw Hfo Ha H0 Hhi Hfuel;
    cbn [deallocuvm_loop]; (destruct (Z.ltb_spec a hi) as [Hlt|Hge];
      [|exists s, l; split; [done|]; apply shrinks_refl; [done|done|];
        intros va Hr; unfold in_range in Hr; lia]).
  { unfold PGSIZE in *. lia. }
  cbn [negb]. assert (Hpa : a + PGSIZE <= 2 ^ 31) by (unfold PGSIZE in *; dlia).
  assert (Hra : in_range a hi a) by (apply in_range_first; auto; lia).
  destruct (table_at (kmem_memory s) d (PDX a)) as [t|] eqn:Ht.
  - rewrite (bind_ret _ _ _ _ _ (walkpgdir_present _ _ _ _ false Ht)), (pte_nonzero _ _ _ _ _ Hw Ht).
    assert (Hl : load32 (kmem_memory s) (t + 4 * PTX a) = lookup_pt (kmem_memory s) d a)
      by (unfold lookup_pt; by rewrite Ht).
    rewrite bind_assoc, (bind_ret _ _ _ _ s) by done. rewrite Hl, bind_assoc.
    destruct (pframe (kmem_memory s) d a) as [f|] eqn:Hpf.
    + destruct (fo_frame _ _ _ _ _ Hfo a f Hra Hpf) as (Hg & Ho & Hfl).
      destruct (pte_frame_nonzero _ _ Hpf Hg) as (-> & -> & ->).
      destruct (free_mapped_step s d l a t f) as (s1 & Hrun & Hfp); [done..|].
      cbn [when panic_if]. rewrite bind_assoc, (bind_ret _ _ s tt s) by done.
      rewrite (bind_ret _ _ _ _ _ Hrun), (bind_ret _ _ s1 a s1) by done.
      rewrite (u32_small (a + PGSIZE)) by (unfold PGSIZE in *; lia).
      destruct (IH (a + PGSIZE) s1 (f :: l)) as (s' & l' & Hrun' & Hsh).
      * apply Hfp.
      * apply Hfp.
      * eapply frames_ok_step; try done. lia.
      * rewrite Zplus_mod, Ha. done.
      * unfold PGSIZE; lia.
      * done.
      * unfold PGSIZE in *; lia.
      * exists s', l'. split; [done|]. eapply shrinks_cons; try done. lia.
    + unfold pframe in Hpf. destruct (has_flag _ _) eqn:Hp; [done|]. cbn [when].
      rewrite (bind_ret _ _ s tt s), (bind_ret _ _ s a s) by done.
      rewrite (u32_small (a + PGSIZE)) by (unfold PGSIZE in *; lia).
      destruct (IH (a + PGSIZE) s l) as (s' & l' & Hrun' & Hsh); try done.
      * eapply frames_ok_sub; [|done]. unfold PGSIZE; lia.
      * rewrite Zplus_mod, Ha. done.
      * unfold PGSIZE; lia.
      * unfold PGSIZE in *; lia.
      * exists s', l'. split; [done|]. eapply shrinks_skip; [done|unfold PGSIZE; lia|].
        intros va Hr. apply in_range_first in Hr as [E|?]; [|by left|done|lia|lia].
        right. unfold pframe, lookup_pt in *. apply vpn_eq_iff in E as [-> ->].
        rewrite Ht in *. by rewrite Hp.
  - rewrite (bind_ret _ _ _ _ _ (walkpgdir_absent _ _ _ Ht)).
    cbn [Z.eqb]. rewrite (bind_ret _ _ s (u32 (PGADDR (PDX a + 1) 0 0 - PGSIZE)) s) by done.
    destruct (PGADDR_next a) as (-> & Hnx1 & Hnx2 & Hnx3); [done|lia|].
    destruct (IH ((PDX a + 1) * 2 ^ 22) s l) as (s' & l' & Hrun' & Hsh); try done.
    + eapply frames_ok_sub; [|done]. unfold PGSIZE in *; lia.
    + unfold PGSIZE in *; lia.
    + unfold PGSIZE in *; lia.
    + exists s', l'. split; [done|]. eapply shrinks_skip; [done|unfold PGSIZE in *; lia|].
      intros va Hr. destruct (decide (PDX va = PDX a)) as [E|E].
      * right. unfold pframe, lookup_pt. by rewrite E, Ht.
      * left. apply Hnx3; [done|exact E|lia].
Qed.

Lemma deallocuvm_spec d oldsz newsz s l :
  kmem_free kend s l -> as_wf (kmem_memory s) d l ->
  0 <= newsz < oldsz -> oldsz <= KERNBASE ->
  frames_ok (kmem_memory s) d l (PGROUNDUP newsz) oldsz ->
  exists s' l', deallocuvm d oldsz newsz s = Ret newsz s' /\
                shrinks s d l (PGROUNDUP newsz) oldsz s' l'.
Proof.
  intros Hf Hw Hsz Hk Hfo. unfold deallocuvm. rewrite (proj2 (Z.leb_gt _ _)) by lia.
  assert (PGROUNDUP newsz mod PGSIZE = 0 /\ 0 <= PGROUNDUP newsz) as [Hup1 Hup2].
  { rewrite PGROUNDUP_eq. pose proof (u32_range (newsz + PGSIZE - 1)).
    split; [by apply Z.mod_mul|]. unfold PGSIZE in *. dlia. }
  destruct (deallocuvm_loop_spec (Z.to_nat ((oldsz - PGROUNDUP newsz) / PGSIZE) + 1)%nat
    d oldsz (PGROUNDUP newsz) s l) as (s' & l' & Hrun & Hsh); try done.
  - unfold PGSIZE. generalize (oldsz - PGROUNDUP newsz). intros x.
    assert (x < (x / 4096 + 1) * 4096) by dlia. lia.
  - exists s', l'. by rewrite (bind_ret _ _ _ _ _ Hrun).
Qed.

(** C38: deallocuvm returns to the allocator exactly the frames of the range it shrinks: it
    returns the new size, every present page between the rounded-up new size and the old size
    becomes unmapped, its frame goes to the free list (once: the list still has no
    duplicates) and nothing else does; all other mappings and the page tables stay. *)
Theorem deallocuvm_correct (d oldsz newsz : Z) (s : kmem) (l : list Z)
    (Hf : kmem_free kend s l) (Hw : as_wf (kmem_memory s) d l)
    (Hsz : 0 <= newsz < oldsz) (Hk : oldsz <= KERNBASE)
    (Hfo : frames_ok (kmem_memory s) d l (PGROUNDUP newsz) oldsz) :
  exists s' l', deallocuvm d oldsz newsz s = Ret newsz s' /\
    kmem_free kend s' l' /\ as_wf (kmem_memory s') d l' /\ NoDup l' /\
    (forall p, p ∈ l' <-> p ∈ l \/
       exists va, in_range (PGROUNDUP newsz) oldsz va /\ pframe (kmem_memory s) d va = Some p) /\
    (forall va, in_range (PGROUNDUP newsz) oldsz va -> pframe (kmem_memory s') d va = None) /\
    (forall va, ~ in_range (PGROUNDUP newsz) oldsz va ->
       lookup_pt (kmem_memory s') d va = lookup_pt (kmem_memory s) d va).
Proof.
  destruct (deallocuvm_spec d oldsz newsz s l) as (s' & l' & Hrun & [H1 H2 _ H4 H5]); [done..|].
  exists s', l'. split_and!; [done|done|done|apply H1|done| |].
  - intros va Hr. unfold pframe. rewrite H4, bool_decide_true by done. simpl.
    destruct (has_flag (lookup_pt (kmem_memory s) d va) PTE_P) eqn:E; [done|by rewrite E].
  - intros va Hr. by rewrite H4, bool_decide_false.
Qed.

(** *** freevm *)

(** Freeing the tables of directory entries [i ..]: the directory itself still holds their
    addresses, and is not among the freed pages. *)
Lemma free_tables_spec n d i s l :
  kmem_free kend s l -> good_page kend d -> d ∉ l -> 0 <= i -> i + Z.of_nat n <= NPDENTRIES ->
  (forall j t, i <= j < i + Z.of_nat n -> table_at (kmem_memory s) d j = Some t ->
     good_page kend t /\ t <> d /\ t ∉ l) ->
  (forall j k t, i <= j < i + Z.of_nat n -> i <= k < i + Z.of_nat n ->
     table_at (kmem_memory s) d j = Some t -> table_at (kmem_memory s) d k = Some t -> j = k) ->
  exists s' l', free_tables d i n s = Ret tt s' /\ kmem_free kend s' l' /\ (d ∉ l') /\
    (forall p, p ∈ l' <-> p ∈ l \/
       exists j, i <= j < i + Z.of_nat n /\ table_at (kmem_memory s) d j = Some p).
Proof.
  revert i s l. induction n as [|n IH]; intros i s l Hf Hd Hdl Hi Hn Ht Hinj; cbn [free_tables].
  { exists s, l. split_and!; [done|done|done|]. intros p. split; [by left|].
    intros [?|(j & Hj & _)]; [done|lia]. }
  rewrite (bind_ret _ _ _ (load32 (kmem_memory s) (d + 4 * i)) s) by done.
  destruct (table_at (kmem_memory s) d i) as [t|] eqn:Hti; pose proof Hti as Hti'; unfold table_at in Hti';
    (destruct (has_flag _ PTE_P); try done); cbn [when].
  - injection Hti' as ->. destruct (Ht i t ltac:(lia) Hti) as (Hg & Hne & Hl).
    pose proof (good_page_range kend kend_high t Hg) as Hr.
    destruct (kfree_spec kend kend_high s l t Hf) as [(_ & s1 & Hrun & Hf1 & _ & Hm)|[? _]];
      [unfold KERNBASE, PHYSTOP, PGSIZE in *; lia|done| |done].
    rewrite (bind_ret _ _ _ _ _ Hrun).
    assert (Htab : forall j, 0 <= j < NPDENTRIES ->
              table_at (kmem_memory s1) d j = table_at (kmem_memory s) d j).
    { intros j Hj. unfold table_at. rewrite (load32_ext (kmem_memory s1) (kmem_memory s)); [done|].
      intros a Ha. apply Hm. unfold NPDENTRIES, PGSIZE in *.
      destruct (page_disjoint t d (proj1 Hg) (proj1 Hd) Hne); unfold PGSIZE in *; lia. }
    destruct (IH (i + 1) s1 (t :: l)) as (s' & l' & Hrun' & Hf' & Hdl' & Hl');
      [done|done| |lia|lia| | |].
    + apply not_elem_of_cons. split; [|done]. by intros ->.
    + intros j t' Hj. rewrite Htab by lia. intros Htj.
      destruct (Ht j t' ltac:(lia) Htj) as (? & ? & ?). split_and!; [done|done|].
      apply not_elem_of_cons. split; [|done]. intros ->.
      assert (j = i) by (apply (Hinj j i t); [lia|lia|done|done]). lia.
    + intros j k t' Hj Hk. rewrite !Htab by lia. apply Hinj; lia.
    + exists s', l'. split_and!; [done|done|done|]. intros p. rewrite Hl', elem_of_cons. split.
      * intros [[->|?]|(j & Hj & Hp)]; [right; exists i; split; [lia|done]|by left|].
        rewrite Htab in Hp by lia. right. exists j. split; [lia|done].
      * intros [?|(j & Hj & Hp)]; [left; by right|]. destruct (decide (j = i)) as [->|].
        -- left; left. congruence.
        -- right. exists j. rewrite Htab by lia. split; [lia|done].
  - rewrite (bind_ret _ _ s tt s) by done.
    destruct (IH (i + 1) s l) as (s' & l' & Hrun' & Hf' & Hdl' & Hl'); [done|done|done|lia|lia| | |].
    + intros j t' Hj. apply Ht. lia.
    + intros j k t' Hj Hk. apply Hinj; lia.
    + exists s', l'. split_and!; [done|done|done|]. intros p. rewrite Hl'. split.
      * intros [?|(j & Hj & Hp)]; [by left|]. right. exists j. split; [lia|done].
      * intros [?|(j & Hj & Hp)]; [by left|]. destruct (decide (j = i)) as [->|]; [congruence|].
        right. exists j. split; [lia|done].
Qed.

Lemma freevm_spec d s l :
  kmem_free kend s l -> as_wf (kmem_memory s) d l -> frames_ok (kmem_memory s) d l 0 KERNBASE ->
  exists s' l', freevm d s = Ret tt s' /\ kmem_free kend s' l' /\
    (forall p, p ∈ l' <-> p ∈ l \/ owns (kmem_memory s) d p \/
       exists va, in_range 0 KERNBASE va /\ pframe (kmem_memory s) d va = Some p).
Proof.
  intros Hf Hw Hfo. pose proof (good_page_range kend kend_high d (wf_dir _ _ _ Hw)) as Hdr.
  unfold freevm. rewrite (proj2 (Z.eqb_neq d 0)) by (unfold KERNBASE in *; lia).
  cbn [panic_if]. rewrite (bind_ret _ _ s tt s) by done.
  destruct (deallocuvm_spec d KERNBASE 0 s l) as (s1 & l1 & Hrun1 & [Hf1 Hw1 Ho1 _ Hl1]);
    [done|done|done|done|done|].
  rewrite (bind_ret _ _ _ _ _ Hrun1). pose proof Hw1 as [Hd1 Hdl1 Ht1 Hi1].
  destruct (free_tables_spec (Z.to_nat NPDENTRIES) d 0 s1 l1) as (s2 & l2 & Hrun2 & Hf2 & Hdl2 & Hl2);
    [done|done|done|done|done|intros j t Hj; by apply Ht1|intros j k t Hj Hk; by apply Hi1|].
  rewrite (bind_ret _ _ _ _ _ Hrun2).
  destruct (kfree_spec kend kend_high s2 l2 d Hf2) as [(_ & s3 & Hrun3 & Hf3 & _)|[? _]];
    [unfold KERNBASE, PHYSTOP, PGSIZE in *; lia|done| |done].
  exists s3, (d :: l2). split_and!; [done|done|]. intros p.
  rewrite elem_of_cons, Hl2, Hl1, <- (Ho1 p). unfold owns. change (0 + Z.of_nat (Z.to_nat NPDENTRIES)) with NPDENTRIES.
  change (PGROUNDUP 0) with 0. tauto.
Qed.

(** *** setupkvm *)

Lemma changes_only_page (P : Z -> Prop) m m' p k :
  changes_only P m m' -> p mod PGSIZE = 0 -> (forall q, P q -> q mod PGSIZE = 0) ->
  ~ P p -> 0 <= k < PGSIZE -> load8 m' (p + k) = load8 m (p + k).
Proof.
  intros Hc Hp HP Hn Hk. apply Hc. intros q Hq Hin. assert (p <> q) by congruence.
  destruct (page_disjoint p q Hp (HP q Hq) ltac:(done)); lia.
Qed.

(** An entry of the kernel map: page-aligned, inside the kernel half, without overflow. *)
Definition kmap_size (e : Z * Z * Z * Z) : Z := let '(_, ps, pe, _) := e in u32 (pe - ps).
Definition kmap_hit (e : Z * Z * Z * Z) (va : Z) : Prop :=
  let '(virt, _, _, _) := e in vpn virt <= vpn va < vpn virt + kmap_size e / PGSIZE.
#[global] Instance kmap_hit_dec e va : Decision (kmap_hit e va).
Proof. destruct e as [[[? ?] ?] ?]. apply _. Defined.
Definition kmap_ok (e : Z * Z * Z * Z) : Prop :=
  let '(virt, ps, _, perm) := e in
  virt mod PGSIZE = 0 /\ KERNBASE <= virt /\ 0 < kmap_size e /\ kmap_size e mod PGSIZE = 0 /\
  virt + kmap_size e <= 2 ^ 32 /\ ps mod PGSIZE = 0 /\ 0 <= ps /\ ps + kmap_size e <= 2 ^ 32 /\
  0 <= perm < PGSIZE.

(** The entry the kernel map gives a virtual address; 0 where it maps nothing. *)
Fixpoint kernel_pte (k : list (Z * Z * Z * Z)) (va : Z) : Z :=
  match k with
  | [] => 0
  | (virt, ps, pe, perm) :: k =>
      if decide (kmap_hit (virt, ps, pe, perm) va)
      then map_entry (ps + (vpn va - vpn virt) * PGSIZE) perm else kernel_pte k va
  end.

Lemma kernel_pte_none k va : ~ Exists (fun e => kmap_hit e va) k -> kernel_pte k va = 0.
Proof.
  induction k as [|[[[virt ps] pe] perm] k IH]; intros Hx; cbn [kernel_pte]; [done|].
  rewrite decide_False.
  - apply IH. intros ?. apply Hx. by right.
  - intros ?. apply Hx. by left.
Qed.

Lemma frames_ok_empty m d l :
  (forall va, vpn va * PGSIZE < KERNBASE -> lookup_pt m d va = 0) -> frames_ok m d l 0 KERNBASE.
Proof.
  intros H. split; [intros va f [_ Hr]|intros va va' f [_ Hr] _]; unfold pframe; by rewrite H.
Qed.

Lemma kmap_last virt size :
  virt mod PGSIZE = 0 -> 0 <= virt -> 0 < size -> size mod PGSIZE = 0 -> virt + size <= 2 ^ 32 ->
  vpn (virt + size - 1) - vpn virt + 1 = size / PGSIZE.
Proof. intros. unfold vpn, PGSIZE in *. rewrite !u32_small by lia. dlia. Qed.

Lemma kmap_hit_high e va : kmap_ok e -> kmap_hit e va -> KERNBASE <= vpn va * PGSIZE.
Proof.
  destruct e as [[[virt ps] pe] perm]. intros (Ha & Hv & Hp & _ & He & _) [Hh _].
  unfold vpn, KERNBASE, PGSIZE in *. rewrite (u32_small virt) in Hh by lia. dlia.
Qed.

Lemma setupkvm_loop_spec k d s l :
  kmem_free kend s l -> as_wf (kmem_memory s) d l -> Forall kmap_ok k ->
  ForallOrdPairs (fun e e' => forall va, kmap_hit e va -> ~ kmap_hit e' va) k ->
  (forall e va, e ∈ k -> kmap_hit e va -> lookup_pt (kmem_memory s) d va = 0) ->
  (forall va, vpn va * PGSIZE < KERNBASE -> lookup_pt (kmem_memory s) d va = 0) ->
  (exists s' l', setupkvm_loop d k s = Ret d s' /\ grows s d l s' l' /\
     forall va, lookup_pt (kmem_memory s') d va =
       if decide (Exists (fun e => kmap_hit e va) k) then kernel_pte k va
       else lookup_pt (kmem_memory s) d va) \/
  (exists s' l', setupkvm_loop d k s = Ret 0 s' /\ kmem_free kend s' l' /\
     forall p, p ∈ l' <-> p ∈ l \/ owns (kmem_memory s) d p).
Proof.
  revert s l. induction k as [|e k IH]; intros s l Hf Hw Hok Hdis Hnew Hlow; cbn [setupkvm_loop].
  { left. exists s, l. split_and!; [done|by apply grows_refl|]. intros va. by rewrite decide_False by inversion 1. }
  apply Forall_cons in Hok as [He Hok]. inversion Hdis as [|? ? Hde Hdis']; subst.
  pose proof (fun va => kmap_hit_high e va He) as Hhigh.
  destruct e as [[[virt ps] pe] perm]. destruct He as (H1 & H2 & H3 & H4 & H5 & H6 & H7 & H8 & H9).
  pose proof (kmap_last virt (kmap_size (virt, ps, pe, perm)) H1) as Hlast.
  cbn [kmap_size] in *. set (size := u32 (pe - ps)) in *.
  specialize (Hlast ltac:(unfold KERNBASE in *; lia) H3 H4 H5).
  destruct (mappages_spec d virt size ps perm s l) as (r & s1 & l1 & n & Hrun & Hgr & Hr & Hlk);
    [done|done|unfold KERNBASE in *; lia|done|done|done|done| |done| |].
  { replace (vpn _ - vpn _) with (size / PGSIZE - 1) by lia. unfold PGSIZE in *. dlia. }
  { intros va Hva. rewrite (Hnew (virt, ps, pe, perm) va); [done|by left|].
    cbn [kmap_hit kmap_size]. fold size. lia. }
  rewrite (bind_ret _ _ _ _ _ Hrun).
  assert (Hin : forall va, vpn virt <= vpn va < vpn virt + n -> kmap_hit (virt, ps, pe, perm) va).
  { intros va Hva. cbn [kmap_hit kmap_size]. fold size. lia. }
  assert (Hlow1 : forall va, vpn va * PGSIZE < KERNBASE -> lookup_pt (kmem_memory s1) d va = 0).
  { intros va Hva. rewrite Hlk, decide_False; [by apply Hlow|]. intros Hh%Hin.
    apply Hhigh in Hh. lia. }
  pose proof Hgr as [Hf1 Hw1 _ _ Hac].
  destruct Hr as [[-> Hn]|(-> & -> & Hn)].
  2: { right. change (-1 <? 0) with true. cbn [Z.ltb].
    destruct (freevm_spec d s1 [] Hf1 Hw1) as (s2 & l2 & Hrun2 & Hf2 & Hl2); [by apply frames_ok_empty|].
    rewrite (bind_ret _ _ _ _ _ Hrun2). exists s2, l2. split_and!; [done|done|].
    intros p. rewrite Hl2. pose proof (Hac p) as Hp. split.
    - intros [?|[?|(va & [_ Hva] & Hfr)]]; [tauto..|]. unfold pframe in Hfr.
      by rewrite Hlow1 in Hfr.
    - tauto. }
  change (0 <? 0) with false. cbn match.
  destruct (IH s1 l1) as [(s2 & l2 & Hrun2 & Hgr2 & Hlk2)|(s2 & l2 & Hrun2 & Hf2 & Hl2)]; try done.
  - intros e va He Hh. rewrite Hlk, decide_False.
    + apply (Hnew e); [by right|done].
    + intros Hv%Hin. rewrite Forall_forall in Hde. by apply (Hde e He va).
  - left. exists s2, l2. split_and!; [done|by eapply grows_trans|]. intros va. rewrite Hlk2, Hlk.
    cbn [kernel_pte].
    assert (Hiff : kmap_hit (virt, ps, pe, perm) va <-> vpn virt <= vpn va < vpn virt + n).
    { cbn [kmap_hit kmap_size]. fold size. lia. }
    destruct (decide (kmap_hit (virt, ps, pe, perm) va)) as [Hh|Hh].
    + rewrite decide_False, decide_True, decide_True; [done|by left|by apply Hiff|].
      rewrite Exists_exists. intros (e & He & Hh'). rewrite Forall_forall in Hde. by apply (Hde e He va).
    + rewrite (decide_False (P := vpn virt <= _ < _)) by (by rewrite <- Hiff).
      destruct (decide (Exists _ k)) as [Hx|Hx]; [rewrite decide_True by (by right); done|].
      rewrite decide_False; [done|]. by inversion 1.
  - right. exists s2, l2. split_and!; [done|done|]. intros p. rewrite Hl2. pose proof (Hac p). tauto.
Qed.

(** The linker puts [data] on a page boundary behind the kernel's text. *)
Hypothesis kdata_aligned : kdata mod PGSIZE = 0.
Hypothesis kdata_range : KERNLINK < kdata < KERNBASE + PHYSTOP.

Lemma kdata_pages : exists k, kdata = k * PGSIZE /\ 0x80100 < k < 0x8E000 /\ V2P kdata = (k - 0x80000) * PGSIZE.
Proof.
  exists (kdata / PGSIZE). unfold KERNLINK, KERNBASE, EXTMEM, PHYSTOP, V2P, PGSIZE in *.
  assert (kdata = kdata / 4096 * 4096) by dlia. split_and!; [done|lia|lia|].
  rewrite u32_small by (unfold KERNBASE; lia). unfold KERNBASE. lia.
Qed.

Lemma kmap_all_ok : Forall kmap_ok kmap.
Proof.
  destruct kdata_pages as (k & Hk & Hr & Hv).
  assert (H2 : u32 (V2P kdata - V2P KERNLINK) = (k - 0x80100) * PGSIZE).
  { rewrite Hv. change (V2P KERNLINK) with (0x100 * 4096). unfold PGSIZE. rewrite u32_small; lia. }
  assert (H3 : u32 (PHYSTOP - V2P kdata) = (0x8E000 - k) * PGSIZE).
  { rewrite Hv. unfold PHYSTOP, PGSIZE. rewrite u32_small; lia. }
  unfold kmap. apply Forall_cons_2; [|apply Forall_cons_2; [|apply Forall_cons_2; [|apply Forall_cons_2; [|done]]]];
    unfold kmap_ok, kmap_size; rewrite ?H2, ?H3, ?Hv.
  - split_and!; done.
  - rewrite (Z.mod_mul (k - 0x80100)) by done. change (V2P KERNLINK) with 0x100000.
    split_and!; done || (unfold KERNLINK, KERNBASE, EXTMEM, PGSIZE; lia).
  - rewrite (Z.mod_mul (0x8E000 - k)), (Z.mod_mul (k - 0x80000)) by done.
    split_and!; done || (unfold PTE_W, KERNBASE, PGSIZE in *; lia).
  - split_and!; done.
Qed.

(** The four ranges of the kernel map in page numbers. *)
Lemma kmap_sizes :
  exists k, 0x80100 < k < 0x8E000 /\ vpn kdata = k /\
    u32 (V2P kdata - V2P KERNLINK) / PGSIZE = k - 0x80100 /\
    u32 (PHYSTOP - V2P kdata) / PGSIZE = 0x8E000 - k.
Proof.
  destruct kdata_pages as (k & Hk & Hr & Hv). exists k. split_and!; [lia|lia| | |].
  - unfold vpn. rewrite Hk, u32_small by (unfold PGSIZE; lia). by apply Z.div_mul.
  - rewrite Hv. change (V2P KERNLINK) with (0x100 * PGSIZE).
    rewrite <- Z.mul_sub_distr_r, u32_small by (unfold PGSIZE; lia). rewrite Z.div_mul by done. lia.
  - rewrite Hv. change PHYSTOP with (0xE000 * PGSIZE).
    rewrite <- Z.mul_sub_distr_r, u32_small by (unfold PGSIZE; lia). rewrite Z.div_mul by done. lia.
Qed.

Lemma kmap_disjoint :
  ForallOrdPairs (fun e e' => forall va, kmap_hit e va -> ~ kmap_hit e' va) kmap.
Proof.
  destruct kmap_sizes as (k & Hk & Hv & Hs1 & Hs2).
  unfold kmap. repeat constructor; intros va; unfold kmap_hit, kmap_size; rewrite ?Hs1, ?Hs2, ?Hv;
    change (vpn KERNBASE) with 0x80000; change (vpn KERNLINK) with 0x80100;
    change (vpn DEVSPACE) with 0xFE000; change (u32 (EXTMEM - 0) / PGSIZE) with 0x100;
    change (u32 (0 - DEVSPACE) / PGSIZE) with 0x2000; lia.
Qed.

(** The whole directory setupkvm builds, or the free list as it was. *)
Lemma setupkvm_spec s l :
  kmem_free kend s l ->
  (exists d s' l', setupkvm s = Ret d s' /\ d <> 0 /\ kmem_free kend s' l' /\
     as_wf (kmem_memory s') d l' /\
     (forall p, owns (kmem_memory s') d p \/ p ∈ l' <-> p ∈ l) /\
     changes_only (fun p => p ∈ l) (kmem_memory s) (kmem_memory s') /\
     (forall va, lookup_pt (kmem_memory s') d va = kernel_pte kmap va)) \/
  (exists s' l', setupkvm s = Ret 0 s' /\ kmem_free kend s' l' /\ forall p, p ∈ l' <-> p ∈ l).
Proof.
  intros Hf. pose proof (kalloc_spec kend kend_high s l Hf) as Hk. unfold setupkvm.
  destruct l as [|d l].
  { right. exists s, []. split_and!; [by rewrite (bind_ret _ _ _ _ _ Hk)|done|done]. }
  destruct Hk as (s1 & Hk & Hf1 & Hg & Hdl & Hm & _).
  rewrite (bind_ret _ _ _ _ _ Hk). pose proof (good_page_range kend kend_high d Hg) as Hr.
  rewrite (proj2 (Z.eqb_neq d 0)) by (unfold KERNBASE in *; lia).
  set (m := memset (kmem_memory s1) d 0 PGSIZE).
  rewrite (bind_ret _ _ _ tt (set_memory m s1)) by done.
  change (DEVSPACE <? P2V PHYSTOP) with false. cbn [panic_if].
  rewrite (bind_ret _ _ (set_memory m s1) tt (set_memory m s1)) by done.
  assert (Hc : changes_only (eq d) (kmem_memory s) m).
  { intros a Ha. specialize (Ha d eq_refl). unfold m. rewrite memset_spec, Hm by done.
    by rewrite decide_False. }
  assert (Ht : forall i, 0 <= i < NPDENTRIES -> table_at m d i = None).
  { intros i Hi. unfold table_at, m. rewrite load32_memset_zero; [done|done|lia|].
    unfold NPDENTRIES, PGSIZE in *. lia. }
  assert (Hlk : forall va, lookup_pt m d va = 0).
  { intros va. unfold lookup_pt. by rewrite Ht by apply PDX_range. }
  assert (Hown : forall p, owns m d p <-> p = d).
  { intros p. split; [|by left]. intros [?|(i & Hi & Hp)]; [done|]. by rewrite Ht in Hp. }
  assert (Hfm : kmem_free kend (set_memory m s1) l).
  { apply kmem_free_frame; [done|]. intros q Hq. rewrite Hm, <- (Z.add_0_r q).
    apply (changes_only_word _ _ _ q 0 Hc); [| | |done].
    - destruct Hf1 as [_ Hgl _ _]. rewrite Forall_forall in Hgl. by apply Hgl.
    - intros r <-. apply Hg.
    - intros ->. done. }
  assert (Hwm : as_wf m d l).
  { split; [done|done|intros i t Hi; by rewrite Ht|intros i j t Hi Hj; by rewrite Ht]. }
  destruct (setupkvm_loop_spec kmap d (set_memory m s1) l Hfm Hwm kmap_all_ok kmap_disjoint)
    as [(s2 & l2 & Hrun & [Hf2 Hw2 _ Hc2 Hac] & Hlk2)|(s2 & l2 & Hrun & Hf2 & Hl2)]; [done|done| |].
  - left. exists d, s2, l2. split_and!; [done|unfold KERNBASE in *; lia|done|done| | |].
    + intros p. rewrite Hac. simpl. rewrite Hown, elem_of_cons. tauto.
    + eapply changes_only_trans; [| |exact Hc2]; cycle 1.
      * intros a Ha. apply Hc. intros q <-. apply Ha. by left.
      * simpl. intros p. rewrite Hown, elem_of_cons. tauto.
    + intros va. rewrite Hlk2. case_decide as Hx; [done|].
      rewrite (kernel_pte_none kmap va) by done. apply Hlk.
  - right. exists s2, l2. split_and!; [done|done|]. intros p. rewrite Hl2. simpl.
    rewrite Hown, elem_of_cons. tauto.
Qed.

(** *** copyuvm *)

(** mappages on a single page. *)
Lemma mappages_one d i pa perm s l :
  kmem_free kend s l -> as_wf (kmem_memory s) d l -> i mod PGSIZE = 0 -> 0 <= i < KERNBASE ->
  pa mod PGSIZE = 0 -> 0 <= pa < 2 ^ 32 -> 0 <= perm < PGSIZE ->
  lookup_pt (kmem_memory s) d i = 0 ->
  exists r s' l', mappages d i PGSIZE pa perm s = Ret r s' /\ grows s d l s' l' /\
    (r = 0 \/ r = -1) /\
    (forall va, lookup_pt (kmem_memory s') d va =
       if decide (r = 0 /\ vpn va = vpn i) then map_entry pa perm
       else lookup_pt (kmem_memory s) d va).
Proof.
  intros Hf Hw Hi Hr Hpa Hpr Hperm H0.
  assert (Hv : vpn (i + PGSIZE - 1) - vpn i = 0).
  { unfold vpn, KERNBASE, PGSIZE in *. rewrite !u32_small by lia. dlia. }
  destruct (mappages_spec d i PGSIZE pa perm s l) as (r & s' & l' & k & Hrun & Hgr & Hk & Hlk);
    [done|done|lia|done|unfold KERNBASE, PGSIZE in *; lia|done|lia|lia|done| |].
  { intros va' Hva. replace (lookup_pt (kmem_memory s) d va') with (lookup_pt (kmem_memory s) d i).
    - by rewrite H0.
    - assert (vpn va' = vpn i) as [E1 E2]%vpn_eq_iff by lia. unfold lookup_pt. by rewrite E1, E2. }
  exists r, s', l'. split_and!; [done|done|lia|]. intros va. rewrite Hlk.
  destruct Hk as [[-> ->]|(-> & _ & Hk)]; repeat case_decide; try lia; try done.
  replace (pa + _) with pa by lia. done.
Qed.

Section CopyUvm.
Context (m0 : memory) (d0 : Z) (l0 : list Z).
Context (Hw0 : as_wf m0 d0 l0) (Hfo0 : frames_ok m0 d0 l0 0 KERNBASE).

(** The pages of the parent's address space. *)
Definition parent_page (p : Z) : Prop :=
  owns m0 d0 p \/ exists va, in_range 0 KERNBASE va /\ pframe m0 d0 va = Some p.

Lemma parent_page_good p : parent_page p -> p mod PGSIZE = 0 /\ p ∉ l0.
Proof.
  intros [Hp|(va & Hr & Hp)].
  - split; [by eapply owns_aligned|]. destruct Hp as [->|(i & Hi & Hp)].
    + apply (wf_dir_free _ _ _ Hw0).
    + apply (wf_tables _ _ _ Hw0 i p Hi Hp).
  - destruct (fo_frame _ _ _ _ _ Hfo0 va p Hr Hp) as (Hg & _ & Hn). split; [apply Hg|done].
Qed.

(** The state of the copy before page [i]: everything the child has came off the initial free
    list [l0] ([l] is what is left of it), the pages below [i] are private copies, the parent
    is untouched. *)
Record copied_state (d i : Z) (m : memory) (l : list Z) : Prop := {
  cs_wf : as_wf m d l;
  cs_frames : frames_ok m d l 0 KERNBASE;
  cs_account : forall p, p ∈ l0 <-> p ∈ l \/ owns m d p \/
                 exists va, in_range 0 i va /\ pframe m d va = Some p;
  cs_parent : forall p k, parent_page p -> 0 <= k < PGSIZE -> load8 m (p + k) = load8 m0 (p + k);
  cs_copied : forall va, in_range 0 i va -> exists f0 f, pframe m0 d0 va = Some f0 /\
                pframe m d va = Some f /\
                lookup_pt m d va = map_entry (V2P f) (PTE_FLAGS (lookup_pt m0 d0 va)) /\
                forall k, 0 <= k < PGSIZE -> load8 m (f + k) = load8 m0 (f0 + k);
  cs_rest : forall va, ~ in_range 0 i va -> lookup_pt m d va = kernel_pte kmap va
}.

Lemma kernel_pte_low va : vpn va * PGSIZE < KERNBASE -> kernel_pte kmap va = 0.
Proof.
  intros Hva. apply kernel_pte_none. rewrite Exists_exists. intros (e & He & Hh).
  pose proof kmap_all_ok as Hok. rewrite Forall_forall in Hok.
  pose proof (kmap_hit_high e va (Hok e He) Hh). lia.
Qed.

Lemma copied_parent_pt d i m l va :
  copied_state d i m l -> table_at m d0 (PDX va) = table_at m0 d0 (PDX va) /\
                          lookup_pt m d0 va = lookup_pt m0 d0 va.
Proof.
  intros Hc. eapply lookup_pt_frame; [exact Hw0|]. intros p a Hp Ha.
  replace a with (p + (a - p)) by lia. apply (cs_parent _ _ _ _ Hc); [by left|lia].
Qed.

Lemma copied_frame d i m l va f :
  copied_state d i m l -> i <= KERNBASE -> in_range 0 i va -> pframe m d va = Some f ->
  good_page kend f /\ ~ owns m d f /\ f ∉ l.
Proof.
  intros Hc Hi Hr. apply (fo_frame _ _ _ _ _ (cs_frames _ _ _ _ Hc)). unfold in_range in *. lia.
Qed.

(** Writing a page in hand, or on the free list, disturbs nothing. *)
Lemma copied_write d i m m' p l :
  copied_state d i m (p :: l) -> i <= KERNBASE -> good_page kend p ->
  (forall a, ~ (p <= a < p + PGSIZE) -> load8 m' a = load8 m a) ->
  copied_state d i m' (p :: l).
Proof.
  intros Hc Hi Hg Hm. pose proof (fun q => copied_frame d i m (p :: l) q) as Hcf.
  destruct Hc as [Hw Hfo Hac Hpar Hcp Hrest].
  assert (Hno : ~ owns m d p).
  { intros [->|(j & Hj & Hp)]; [by apply (wf_dir_free _ _ _ Hw); left|].
    apply (wf_tables _ _ _ Hw j p Hj Hp). by left. }
  destruct (unowned_write _ _ _ _ _ Hw (proj1 Hg) Hno Hm) as (Hw' & Ho & Hlk).
  assert (Hpf : forall va, pframe m' d va = pframe m d va).
  { intros va. unfold pframe. by rewrite (proj2 (Hlk va)). }
  assert (Hkeep : forall q k, q mod PGSIZE = 0 -> q <> p -> 0 <= k < PGSIZE ->
            load8 m' (q + k) = load8 m (q + k)).
  { intros q k Hq Hne Hk. apply Hm. destruct (page_disjoint q p Hq (proj1 Hg) Hne); lia. }
  assert (Hp0 : p ∈ l0) by (apply Hac; left; by left).
  split.
  - done.
  - destruct Hfo as [H1 H2]. split.
    + intros va f. rewrite Hpf, Ho. apply H1.
    + intros va va' f. rewrite !Hpf. apply H2.
  - intros q. rewrite Hac, Ho. by setoid_rewrite Hpf.
  - intros q k Hq Hk. destruct (parent_page_good q Hq) as [Hqa Hq0].
    rewrite Hkeep; [by apply Hpar|done|congruence|done].
  - intros va Hr. destruct (Hcp va Hr) as (f0 & f & E0 & E1 & E2 & E3).
    exists f0, f. rewrite Hpf, (proj2 (Hlk va)). split_and!; [done..|].
    intros k Hk. destruct (Hfo) as [Hff _].
    destruct (Hff va f) as (Hgf & _ & Hni); [unfold in_range in *; lia|done|].
    rewrite not_elem_of_cons in Hni. rewrite Hkeep; [by apply E3|apply Hgf|tauto|done].
  - intros va Hr. rewrite (proj2 (Hlk va)). by apply Hrest.
Qed.

(** Adding page tables to the child keeps the page in hand, the parent and the copies. *)
Lemma copied_grows d i s s' p l l' :
  copied_state d i (kmem_memory s) (p :: l) -> i <= KERNBASE -> good_page kend p -> (p ∉ l) ->
  Forall (good_page kend) l -> grows s d l s' l' ->
  as_wf (kmem_memory s') d (p :: l') /\
  (forall q, q ∈ l' -> q ∈ l) /\
  (forall q k, parent_page q \/ q = p \/
     (exists va, in_range 0 i va /\ pframe (kmem_memory s) d va = Some q) -> 0 <= k < PGSIZE ->
     load8 (kmem_memory s') (q + k) = load8 (kmem_memory s) (q + k)).
Proof.
  intros Hc Hi Hg Hpl Hgl [Hf' Hw' [tk ->] Hch Hac].
  pose proof (fun va f => copied_frame d i (kmem_memory s) (p :: tk ++ l') va f Hc Hi) as Hcf.
  pose proof (cs_wf _ _ _ _ Hc) as Hw.
  assert (Hno : ~ owns (kmem_memory s) d p).
  { intros [->|(j & Hj & Hp)]; [by apply (wf_dir_free _ _ _ Hw); left|].
    apply (wf_tables _ _ _ Hw j p Hj Hp). by left. }
  assert (Hno' : ~ owns (kmem_memory s') d p).
  { intros Hp. destruct (proj1 (Hac p)); [by left|tauto..]. }
  assert (Hsub : forall q, q ∈ l' -> q ∈ tk ++ l') by (intros q Hq; apply elem_of_app; by right).
  split_and!; [|done|].
  - destruct Hw' as [H1 H2 H3 H4]. split; [done| | |done].
    + apply not_elem_of_cons. split; [|done]. intros ->. apply Hno'. by left.
    + intros j t Hj Ht. destruct (H3 j t Hj Ht) as (? & ? & ?). split_and!; [done|done|].
      apply not_elem_of_cons. split; [|done]. intros ->. apply Hno'. right. by exists j.
  - intros q k Hq Hk. rewrite Forall_forall in Hgl.
    assert (Hq' : q mod PGSIZE = 0 /\ ~ (owns (kmem_memory s) d q \/ q ∈ tk ++ l')).
    { destruct Hq as [Hq|[->|(va & Hr & Hq)]].
      - destruct (parent_page_good q Hq) as [Hqa Hq0]. split; [done|]. intros Hx. apply Hq0.
        apply (cs_account _ _ _ _ Hc). destruct Hx; [right; by left|left; by right].
      - split; [apply Hg|tauto].
      - destruct (Hcf va q Hr Hq) as (Hgq & Hoq & Hlq). rewrite not_elem_of_cons in Hlq.
        split; [apply Hgq|tauto]. }
    destruct Hq' as [Hqa Hqn]. eapply changes_only_page; [exact Hch|done| |done|done].
    intros r [Hr|Hr]; [by eapply owns_aligned|]. by apply Hgl.
Qed.

Lemma in_range_last i va :
  i mod PGSIZE = 0 -> 0 <= i < 2 ^ 32 ->
  in_range 0 (i + PGSIZE) va <-> in_range 0 i va \/ vpn va = vpn i.
Proof.
  intros Hi Hr. unfold in_range, vpn, PGSIZE in *. rewrite (u32_small i) by lia.
  pose proof (u32_range va). dlia.
Qed.

Lemma pframe_map_entry p e :
  good_page kend p ->
  (if has_flag (map_entry (V2P p) (PTE_FLAGS e)) PTE_P
   then Some (P2V (PTE_ADDR (map_entry (V2P p) (PTE_FLAGS e)))) else None) = Some p.
Proof.
  intros Hg. destruct (V2P_good p Hg) as (Hr & Ha & Hpp).
  destruct (map_entry_range (V2P p) (PTE_FLAGS e)) as (_ & -> & ->); [done|lia| |by rewrite Hpp].
  rewrite PTE_FLAGS_eq. by apply Z.mod_pos_bound.
Qed.

(** The page in hand holds the parent's page [i] and is mapped at [i]. *)
Lemma copied_map_ok d i s s' p l l' f0 :
  copied_state d i (kmem_memory s) (p :: l) -> i mod PGSIZE = 0 -> 0 <= i < KERNBASE ->
  good_page kend p -> (p ∉ l) -> Forall (good_page kend) l -> grows s d l s' l' ->
  pframe m0 d0 i = Some f0 ->
  (forall k, 0 <= k < PGSIZE -> load8 (kmem_memory s) (p + k) = load8 m0 (f0 + k)) ->
  (forall va, lookup_pt (kmem_memory s') d va =
     if decide (vpn va = vpn i) then map_entry (V2P p) (PTE_FLAGS (lookup_pt m0 d0 i))
     else lookup_pt (kmem_memory s) d va) ->
  copied_state d (i + PGSIZE) (kmem_memory s') l'.
Proof.
  intros Hc Hi Hir Hg Hpl Hgl Hgr Hf0 Hcont Hlk.
  destruct (copied_grows d i s s' p l l' Hc) as (Hw' & Hsub & Hkeep); [lia|done..|].
  pose proof Hgr as [_ Hwl' _ _ Hac].
  pose proof (fun va => in_range_last i va Hi ltac:(unfold KERNBASE in *; lia)) as Hlast.
  destruct Hc as [Hw [Hfo1 Hfo2] Hacc Hpar Hcp Hrest].
  assert (Hpf : forall va, pframe (kmem_memory s') d va =
            if decide (vpn va = vpn i) then Some p else pframe (kmem_memory s) d va).
  { intros va. unfold pframe. rewrite Hlk. case_decide; [by apply pframe_map_entry|done]. }
  assert (Hnp : ~ owns (kmem_memory s') d p /\ p ∉ l').
  { split; [|by intros ?%Hsub]. intros [->|(j & Hj & Hp)]; [by apply (wf_dir_free _ _ _ Hw'); left|].
    apply (wf_tables _ _ _ Hw' j p Hj Hp). by left. }
  assert (Hnone : forall va, vpn va = vpn i -> ~ in_range 0 i va).
  { intros va E. unfold in_range, vpn, KERNBASE, PGSIZE in *. rewrite (u32_small i) in E by lia. dlia. }
  split; [done| | | | |].
  - split.
    + intros va f Hr. rewrite Hpf. case_decide; [intros [= <-]; by split|]. intros Hf.
      destruct (Hfo1 va f Hr Hf) as (H1 & H2 & H3). rewrite not_elem_of_cons in H3.
      pose proof (Hac f). split_and!; [done|tauto..].
    + intros va va' f Hr Hr'. rewrite !Hpf. repeat case_decide; [congruence| | |by apply Hfo2].
      * intros [= <-] Hf. destruct (Hfo1 va' p Hr' Hf) as (_ & _ & Hx). destruct Hx. by left.
      * intros Hf [= <-]. destruct (Hfo1 va p Hr Hf) as (_ & _ & Hx). destruct Hx. by left.
  - intros q. rewrite Hacc, elem_of_cons. pose proof (Hac q) as Hq. split.
    + intros [[->|?]|[?|(va & Hr & Hf)]]; [|tauto..|].
      * right; right. exists i. rewrite Hlast, Hpf, decide_True by done. split; [by right|done].
      * right; right. exists va. rewrite Hlast, Hpf, decide_False; [split; [by left|done]|].
        intros E. by apply (Hnone va).
    + intros [?|[?|(va & Hr & Hf)]]; [tauto..|]. rewrite Hpf in Hf.
      case_decide; [injection Hf as <-; by left; left|]. right; right. exists va.
      split; [|done]. apply Hlast in Hr. tauto.
  - intros q k Hq Hk. rewrite Hkeep; [by apply Hpar|by left|done].
  - intros va Hr%Hlast. rewrite Hpf, Hlk. destruct (decide (vpn va = vpn i)) as [E|E].
    + assert (Hsame : lookup_pt m0 d0 va = lookup_pt m0 d0 i).
      { apply vpn_eq_iff in E as [E1 E2]. unfold lookup_pt. by rewrite E1, E2. }
      exists f0, p. unfold pframe in Hf0 |- *. rewrite Hsame. split_and!; [done..|].
      intros k Hk. rewrite Hkeep; [by apply Hcont|right; by left|done].
    + destruct Hr as [Hr|Hr]; [|done]. destruct (Hcp va Hr) as (g0 & g & E0 & E1 & E2 & E3).
      exists g0, g. split_and!; [done..|]. intros k Hk.
      rewrite Hkeep; [by apply E3|right; right; by exists va|done].
  - intros va Hr. rewrite Hlast in Hr. rewrite Hlk, decide_False by tauto. apply Hrest. tauto.
Qed.

Lemma copied_map_fail d i s s' p l l' :
  copied_state d i (kmem_memory s) (p :: l) -> i <= KERNBASE ->
  good_page kend p -> (p ∉ l) -> Forall (good_page kend) l -> grows s d l s' l' ->
  (forall va, lookup_pt (kmem_memory s') d va = lookup_pt (kmem_memory s) d va) ->
  copied_state d i (kmem_memory s') (p :: l').
Proof.
  intros Hc Hi Hg Hpl Hgl Hgr Hlk.
  destruct (copied_grows d i s s' p l l' Hc) as (Hw' & Hsub & Hkeep); [done..|].
  pose proof Hgr as [_ _ _ _ Hac].
  assert (Hpf : forall va, pframe (kmem_memory s') d va = pframe (kmem_memory s) d va).
  { intros va. unfold pframe. by rewrite Hlk. }
  destruct Hc as [Hw [Hfo1 Hfo2] Hacc Hpar Hcp Hrest].
  split; [done| | | | |].
  - split.
    + intros va f Hr. rewrite Hpf. intros Hf. destruct (Hfo1 va f Hr Hf) as (H1 & H2 & H3).
      rewrite !not_elem_of_cons in *. pose proof (Hac f). split_and!; [done|tauto..].
    + intros va va' f. rewrite !Hpf. apply Hfo2.
  - intros q. rewrite Hacc, !elem_of_cons. setoid_rewrite Hpf. pose proof (Hac q). tauto.
  - intros q k Hq Hk. rewrite Hkeep; [by apply Hpar|by left|done].
  - intros va Hr. rewrite Hpf, Hlk. destruct (Hcp va Hr) as (g0 & g & E0 & E1 & E2 & E3).
    exists g0, g. split_and!; [done..|]. intros k Hk.
    rewrite Hkeep; [by apply E3|right; right; by exists va|done].
  - intros va Hr. rewrite Hlk. by apply Hrest.
Qed.

(** The loop ends with all pages copied, or out of memory with a prefix copied, or it panics
    on a page of the parent that is not present. *)
Definition copy_outcome (d sz : Z) (o : outcome kmem bool) : Prop :=
  (exists s i l, o = Ret true s /\ sz <= i < sz + PGSIZE /\ i mod PGSIZE = 0 /\
     kmem_free kend s l /\ copied_state d i (kmem_memory s) l) \/
  (exists s i l, o = Ret false s /\ i <= KERNBASE /\
     kmem_free kend s l /\ copied_state d i (kmem_memory s) l) \/
  (exists msg va, o = Panic msg /\ in_range 0 sz va /\ pframe m0 d0 va = None).

(** kalloc and the copy of the parent's page into the new page. *)
Lemma copy_alloc_step d i s l f0 :
  kmem_free kend s l -> copied_state d i (kmem_memory s) l -> 0 <= i < KERNBASE ->
  i mod PGSIZE = 0 -> pframe m0 d0 i = Some f0 ->
  (l = [] /\ kalloc s = Ret 0 s) \/
  exists p l1 s1, l = p :: l1 /\ kalloc s = Ret p s1 /\ (p =? 0) = false /\ good_page kend p /\
    (p ∉ l1) /\
    let s2 := set_memory (memmove (kmem_memory s1) p f0 PGSIZE) s1 in
    kmem_free kend s2 l1 /\ copied_state d i (kmem_memory s2) (p :: l1) /\
    forall k, 0 <= k < PGSIZE -> load8 (kmem_memory s2) (p + k) = load8 m0 (f0 + k).
Proof.
  intros Hf Hc Hi Hia Hf0. pose proof (kalloc_spec kend kend_high s l Hf) as Hk.
  destruct l as [|p l1]; [by left|right].
  destruct Hk as (s1 & Hk & Hf1 & Hg & Hpl & Hm & _).
  pose proof (good_page_range kend kend_high p Hg) as Hr.
  exists p, l1, s1. split_and!; [done|done|apply Z.eqb_neq; unfold KERNBASE in *; lia|done|done|].
  pose proof (memmove_lookup (kmem_memory s1) p f0 PGSIZE) as Hmv. rewrite Hm in Hmv |- *.
  generalize dependent (memmove (kmem_memory s) p f0 PGSIZE). intros m2 Hmv.
  assert (Hout : forall a, ~ (p <= a < p + PGSIZE) -> load8 m2 a = load8 (kmem_memory s) a).
  { intros a Ha. by rewrite Hmv, decide_False. }
  cbn zeta. simpl. split_and!.
  - apply kmem_free_frame; [done|]. intros q Hq. rewrite Hm. apply load32_ext. intros a Ha.
    apply Hout. destruct Hf1 as [_ Hgl _ _]. rewrite Forall_forall in Hgl.
    assert (q <> p) by congruence.
    destruct (page_disjoint q p (proj1 (Hgl q Hq)) (proj1 Hg) ltac:(done)); unfold PGSIZE in *; lia.
  - eapply copied_write; [exact Hc|lia|done|exact Hout].
  - intros k Hk'. rewrite Hmv, decide_True by (done || lia).
    replace (f0 + (p + k - p)) with (f0 + k) by lia.
    apply (cs_parent _ _ _ _ Hc); [|done]. right. exists i. split; [|done].
    unfold in_range, vpn, KERNBASE, PGSIZE in *. rewrite u32_small by lia. dlia.
Qed.

Lemma copyuvm_loop_spec fuel d i sz s l :
  kmem_free kend s l -> copied_state d i (kmem_memory s) l -> i mod PGSIZE = 0 ->
  0 <= i < sz + PGSIZE -> 0 <= sz <= KERNBASE -> sz - i <= Z.of_nat fuel * PGSIZE ->
  copy_outcome d sz (copyuvm_loop d0 d i sz (S fuel) s).
Proof.
  revert i s l. induction fuel as [|fuel IH]; intros i s l Hf Hc Hi Hir Hsz Hfuel;
    cbn [copyuvm_loop]; (destruct (Z.ltb_spec i sz) as [Hlt|Hge];
      [|left; exists s, i, l; split_and!; done || lia]).
  { unfold PGSIZE in *. lia. }
  cbn [negb].
  assert (Hri : in_range 0 sz i).
  { unfold in_range, vpn, KERNBASE, PGSIZE in *. rewrite u32_small by lia. dlia. }
  pose proof (copied_parent_pt d i (kmem_memory s) l i Hc) as [Ht0 Hl0].
  destruct (table_at m0 d0 (PDX i)) as [t|] eqn:Ht.
  2: { rewrite (bind_ret _ _ _ _ _ (walkpgdir_absent _ _ _ Ht0)). right; right.
       exists "copyuvm: pte should exist"%string, i. split_and!; [done|done|].
       unfold pframe, lookup_pt. by rewrite Ht. }
  rewrite (bind_ret _ _ _ _ _ (walkpgdir_present _ _ _ _ false Ht0)), (pte_nonzero _ _ _ _ _ Hw0 Ht).
  cbn [panic_if]. rewrite (bind_ret _ _ s tt s) by done.
  rewrite (bind_ret _ _ s (lookup_pt m0 d0 i) s).
  2: { rewrite <- Hl0. unfold lookup_pt. by rewrite Ht0. }
  destruct (pframe m0 d0 i) as [f0|] eqn:Hf0.
  2: { unfold pframe in Hf0. destruct (has_flag _ _) eqn:Hp; [done|]. right; right.
       exists "copyuvm: page not present"%string, i. split_and!; [done|done|].
       unfold pframe. by rewrite Hp. }
  assert (Hp : has_flag (lookup_pt m0 d0 i) PTE_P = true /\ P2V (PTE_ADDR (lookup_pt m0 d0 i)) = f0).
  { unfold pframe in Hf0. destruct (has_flag _ _); [|done]. by injection Hf0 as ->. }
  destruct Hp as [-> ->]. cbn [negb panic_if]. rewrite (bind_ret _ _ s tt s) by done.
  destruct (copy_alloc_step d i s l f0 Hf Hc) as
    [[-> Hk]|(p & l1 & s1 & -> & Hk & Hp0 & Hg & Hpl & Hf2 & Hc2 & Hcont)]; [lia|done|done| |];
    rewrite (bind_ret _ _ _ _ _ Hk).
  { right; left. exists s, i, []. split_and!; done || lia. }
  rewrite Hp0. set (s2 := set_memory (memmove (kmem_memory s1) p f0 PGSIZE) s1) in *.
  rewrite (bind_ret _ _ s1 tt s2) by done.
  destruct (V2P_good p Hg) as (Hvr & Hva & Hvp).
  assert (Hfl : 0 <= PTE_FLAGS (lookup_pt m0 d0 i) < PGSIZE)
    by (rewrite PTE_FLAGS_eq; by apply Z.mod_pos_bound).
  pose proof (cs_wf _ _ _ _ Hc2) as Hwp.
  assert (Hw2 : as_wf (kmem_memory s2) d l1) by (by eapply as_wf_cons_inv).
  assert (Hzero : lookup_pt (kmem_memory s2) d i = 0).
  { rewrite (cs_rest _ _ _ _ Hc2); unfold in_range, vpn, KERNBASE, PGSIZE in *;
      [apply kernel_pte_low; unfold vpn, KERNBASE, PGSIZE|]; rewrite u32_small by lia; dlia. }
  destruct (mappages_one d i (V2P p) (PTE_FLAGS (lookup_pt m0 d0 i)) s2 l1 Hf2 Hw2)
    as (r & s3 & l3 & Hrun & Hgr & Hr & Hlk); [done|lia|done|lia|done|done|].
  rewrite (bind_ret _ _ _ _ _ Hrun). pose proof Hgr as [Hf3 Hw3 _ _ _].
  assert (Hgl : Forall (good_page kend) l1) by apply Hf2.
  destruct Hr as [-> | ->].
  - change (0 <? 0) with false. cbn match.
    rewrite (u32_small (i + PGSIZE)) by (unfold KERNBASE, PGSIZE in *; lia).
    apply (IH (i + PGSIZE) s3 l3); [done| |by rewrite Zplus_mod, Hi|lia|done|unfold PGSIZE in *; lia].
    apply (copied_map_ok d i s2 s3 p l1 l3 f0); try done; [lia|].
    intros va. rewrite Hlk. repeat case_decide; tauto || done.
  - change (-1 <? 0) with true. cbn match.
    assert (Hc3 : copied_state d i (kmem_memory s3) (p :: l3)).
    { apply (copied_map_fail d i s2 s3 p l1 l3); done || lia. }
    pose proof (cs_wf _ _ _ _ Hc3) as Hwp3.
    pose proof (good_page_range kend kend_high p Hg) as Hrg.
    destruct (kfree_spec kend kend_high s3 l3 p Hf3) as [(_ & s4 & Hrun4 & Hf4 & _ & Hm4)|[? _]];
      [unfold KERNBASE, PHYSTOP, PGSIZE in *; lia| | |done].
    { destruct Hgr as [_ _ [tk ->] _ _]. intros Hin. apply Hpl, elem_of_app. by right. }
    rewrite (bind_ret _ _ _ _ _ Hrun4). right; left. exists s4, i, (p :: l3).
    split_and!; [done|lia|done|]. eapply copied_write; [exact Hc3|lia|done|exact Hm4].
Qed.
End CopyUvm.

(** C5: copyuvm gives fork a faithful private copy or nothing: it returns a directory in which
    every page below [sz] is a page taken off the free list, different for every virtual page,
    holding a copy of the parent's page under the same flags, every other address has the
    kernel's mapping, and the parent's mappings and pages are unchanged; or it returns 0 and
    the free list holds exactly the pages it held before, tables and copies included; or it
    panics, which happens only when a page of the parent below [sz] is not present (one moved
    to the swap file, for instance). *)
Theorem copyuvm_correct (d0 sz : Z) (s : kmem) (l : list Z)
    (Hf : kmem_free kend s l) (Hw : as_wf (kmem_memory s) d0 l)
    (Hfo : frames_ok (kmem_memory s) d0 l 0 KERNBASE) (Hsz : 0 <= sz <= KERNBASE) :
  let m := kmem_memory s in
  (exists d s' l', copyuvm d0 sz s = Ret d s' /\ d <> 0 /\ kmem_free kend s' l' /\
     as_wf (kmem_memory s') d l' /\ frames_ok (kmem_memory s') d l' 0 KERNBASE /\
     (forall va, in_range 0 sz va -> exists f0 f, pframe m d0 va = Some f0 /\
        pframe (kmem_memory s') d va = Some f /\ f ∈ l /\
        lookup_pt (kmem_memory s') d va = map_entry (V2P f) (PTE_FLAGS (lookup_pt m d0 va)) /\
        forall k, 0 <= k < PGSIZE -> load8 (kmem_memory s') (f + k) = load8 m (f0 + k)) /\
     (forall va, ~ in_range 0 sz va -> lookup_pt (kmem_memory s') d va = kernel_pte kmap va) /\
     (forall va, lookup_pt (kmem_memory s') d0 va = lookup_pt m d0 va) /\
     (forall p k, parent_page m d0 p -> 0 <= k < PGSIZE ->
        load8 (kmem_memory s') (p + k) = load8 m (p + k))) \/
  (exists s' l', copyuvm d0 sz s = Ret 0 s' /\ kmem_free kend s' l' /\ l' ≡ₚ l) \/
  (exists msg va, copyuvm d0 sz s = Panic msg /\ in_range 0 sz va /\ pframe m d0 va = None).
Proof.
  cbn zeta. unfold copyuvm.
  destruct (setupkvm_spec s l Hf) as [(d & s1 & l1 & Hrun & Hd0 & Hf1 & Hw1 & Hac & Hch & Hlk)|
    (s1 & l1 & Hrun & Hf1 & Hl1)]; rewrite (bind_ret _ _ _ _ _ Hrun).
  2: { right; left. exists s1, l1. split_and!; [done|done|]. apply NoDup_Permutation; [apply Hf1|apply Hf|done]. }
  rewrite (proj2 (Z.eqb_neq d 0)) by done.
  assert (Hempty : forall va, ~ in_range 0 0 va) by (unfold in_range; lia).
  assert (Hlow : forall va, vpn va * PGSIZE < KERNBASE -> lookup_pt (kmem_memory s1) d va = 0).
  { intros va Hva. rewrite Hlk. by apply kernel_pte_low. }
  assert (Hc : copied_state (kmem_memory s) d0 l d 0 (kmem_memory s1) l1).
  { split; [done|by apply frames_ok_empty| | | |intros va _; apply Hlk].
    - intros p. rewrite <- Hac. split; [tauto|]. intros [?|[?|(va & Hr & _)]]; [tauto..|].
      by destruct (Hempty va).
    - intros p k Hp Hk. destruct (parent_page_good _ _ _ Hw Hfo p Hp) as [Hpa Hpl].
      eapply changes_only_page; [exact Hch|done| |done|done].
      intros q Hq. destruct Hf as [_ Hgl _ _]. rewrite Forall_forall in Hgl. by apply Hgl.
    - intros va Hr. by destruct (Hempty va). }
  destruct (copyuvm_loop_spec (kmem_memory s) d0 l Hw Hfo (Z.to_nat (sz / PGSIZE) + 1)%nat d 0 sz
    s1 l1 Hf1 Hc) as [(s2 & i & l2 & Hr2 & Hi & Hia & Hf2 & Hc2)|
      [(s2 & i & l2 & Hr2 & Hi & Hf2 & Hc2)|(msg & va & Hr2 & Hva & Hnone)]].
  - done.
  - unfold PGSIZE; lia.
  - lia.
  - assert (0 <= sz / PGSIZE) by (unfold PGSIZE; dlia). unfold PGSIZE in *.
    rewrite Nat2Z.inj_add, Z2Nat.id by done. dlia.
  - left. rewrite (bind_ret _ _ _ _ _ Hr2).
    assert (Hrange : forall va, in_range 0 sz va <-> in_range 0 i va).
    { intros va. unfold in_range, PGSIZE in *. dlia. }
    exists d, s2, l2. destruct Hc2 as [H1 H2 H3 H4 H5 H6] eqn:Ec.
    split_and!; [done|done|done|done|done| | | |done].
    + intros va Hr%Hrange. destruct (H5 va Hr) as (f0 & f & E0 & E1 & E2 & E3).
      exists f0, f. split_and!; [done|done| |done|done]. apply H3. right; right. by exists va.
    + intros va Hr. apply H6. by rewrite <- Hrange.
    + intros va. eapply copied_parent_pt; [exact Hw|exact Hc2].
  - right; left. rewrite (bind_ret _ _ _ _ _ Hr2). destruct Hc2 as [H1 H2 H3 H4 H5 H6].
    destruct (freevm_spec d s2 l2 Hf2 H1 H2) as (s3 & l3 & Hr3 & Hf3 & Hl3).
    rewrite (bind_ret _ _ _ _ _ Hr3). exists s3, l3. split_and!; [done|done|].
    apply NoDup_Permutation; [apply Hf3|apply Hf|]. intros p. rewrite Hl3, H3.
    split; (intros [?|[?|(va & Hr & Hp)]]; [tauto..|right; right; exists va]); split; try done;
      [|unfold in_range in *; lia].
    destruct (decide (in_range 0 i va)); [done|]. unfold pframe in Hp.
    rewrite H6 in Hp by done. rewrite kernel_pte_low in Hp; [done|apply Hr].
  - right; right. exists msg, va. by rewrite (bind_panic _ _ _ _ Hr2).
Qed.
End Vm.

(** ** A concrete address space

    One directory, one page table and one user page at virtual address 0, with two pages on
    the free list. *)
Definition demo_pgdir : Z := 0x80302000.
Definition demo_kdata : Z := 0x80108000.
Definition demo_space : kmem :=
  mkKmem (store32 (store32 (kmem_memory two_pages_kmem) demo_pgdir 0x303007) 0x80303000 0x304007)
    0x80300000 true false.

Lemma demo_word a :
  a mod 4 = 0 ->
  load32 (kmem_memory demo_space) a =
    if decide (a = 0x80303000) then 0x304007 else if decide (a = demo_pgdir) then 0x303007
    else if decide (a = 0x80300000) then 0x80301000 else 0.
Proof.
  intros Ha. unfold demo_space, two_pages_kmem, demo_pgdir. cbn [kmem_memory].
  repeat case_decide; subst; [by vm_compute..|].
  assert (forall b, b mod 4 = 0 -> a <> b -> b + 4 <= a \/ a + 4 <= b) by (intros; dlia).
  rewrite !load32_store32_ne by (match goal with H : forall b, _ |- _ => apply H; done end). done.
Qed.

Lemma demo_free : kmem_free demo_kend demo_space [0x80300000; 0x80301000].
Proof.
  split; [| | |done].
  - split; [done|]. rewrite demo_word by done. split; [done|]. by rewrite demo_word by done.
  - repeat constructor; done.
  - apply (bool_decide_unpack _). by vm_compute.
Qed.

Lemma demo_table i :
  0 <= i < NPDENTRIES ->
  table_at (kmem_memory demo_space) demo_pgdir i = if decide (i = 0) then Some 0x80303000 else None.
Proof.
  intros Hi. unfold table_at, demo_pgdir, NPDENTRIES in *. rewrite demo_word by dlia.
  unfold demo_pgdir. repeat case_decide; try lia; done.
Qed.

Lemma demo_lookup va :
  lookup_pt (kmem_memory demo_space) demo_pgdir va = if decide (vpn va = 0) then 0x304007 else 0.
Proof.
  pose proof (PTX_range va). pose proof (PDX_range va). rewrite vpn_indices.
  unfold lookup_pt, NPDENTRIES in *. rewrite demo_table by (unfold NPDENTRIES; lia).
  case_decide as E; [|rewrite decide_False by lia; done]. rewrite E.
  rewrite demo_word by dlia. unfold demo_pgdir. repeat case_decide; try lia; done.
Qed.

Lemma demo_owns p : owns (kmem_memory demo_space) demo_pgdir p -> p = 0x80302000 \/ p = 0x80303000.
Proof.
  intros [->|(i & Hi & Hp)]; [by left|right]. rewrite demo_table in Hp by done.
  case_decide; [|done]. by injection Hp as <-.
Qed.

Lemma demo_wf : as_wf demo_kend (kmem_memory demo_space) demo_pgdir [0x80300000; 0x80301000].
Proof.
  split; [done|apply (bool_decide_unpack _); by vm_compute| |].
  - intros i t Hi. rewrite demo_table by done. case_decide; [|done]. intros [= <-].
    split_and!; [done|done|apply (bool_decide_unpack _); by vm_compute].
  - intros i j t Hi Hj. rewrite !demo_table by done. repeat case_decide; congruence || done.
Qed.

Lemma demo_pframe va f :
  pframe (kmem_memory demo_space) demo_pgdir va = Some f -> vpn va = 0 /\ f = 0x80304000.
Proof.
  unfold pframe. rewrite demo_lookup. case_decide; [|done].
  change (Some 0x80304000 = Some f -> vpn va = 0 /\ f = 0x80304000). by intros [= <-].
Qed.

Lemma demo_frames hi :
  frames_ok demo_kend (kmem_memory demo_space) demo_pgdir [0x80300000; 0x80301000] 0 hi.
Proof.
  split.
  - intros va f _ [_ ->]%demo_pframe. split_and!; [done| |apply (bool_decide_unpack _); by vm_compute].
    intros [?|?]%demo_owns; done.
  - intros va va' f _ _ [-> _]%demo_pframe [-> _]%demo_pframe. done.
Qed.

Lemma demo_frame va : 0 <= va < PGSIZE ->
  frame_of (kmem_memory demo_space) demo_pgdir va = Some 0x80304000.
Proof.
  intros Hva. unfold frame_of. rewrite demo_lookup, decide_True; [done|].
  unfold vpn, PGSIZE in *. rewrite u32_small by lia. dlia.
Qed.

#[local] Opaque demo_space.

Lemma copyout_correct_witness :
  user_range demo_kend (kmem_memory demo_space) demo_pgdir 10 0x80310000 5 /\
  exists m', copyout demo_pgdir 10 0x80310000 5 demo_space = Ret 0 (set_memory m' demo_space) /\
    load8 m' (0x80304000 + (10 + 2) mod PGSIZE) = load8 (kmem_memory demo_space) (0x80310000 + 2).
Proof.
  assert (Hu : user_range demo_kend (kmem_memory demo_space) demo_pgdir 10 0x80310000 5).
  { split.
    - intros i Hi. exists 0x80304000. rewrite demo_frame by (unfold PGSIZE; lia).
      split_and!; [done|done|by intros [?|?]%demo_owns|by right].
    - intros i j f Hi Hj _ _. unfold vpn, PGSIZE. rewrite !u32_small by lia. dlia. }
  split; [exact Hu|].
  destruct (copyout_correct demo_kend demo_kend_high demo_pgdir 10 0x80310000 5 demo_space _
    demo_wf Hu) as (m' & Hrun & Hc & _); [done..|].
  exists m'. split; [exact Hrun|].
  apply (Hc 2 0x80304000); [lia|]. apply demo_frame. unfold PGSIZE. lia.
Defined.

Lemma deallocuvm_correct_witness :
  exists s' (l' : list Z), deallocuvm demo_kend demo_pgdir PGSIZE 0 demo_space = Ret 0 s' /\
    0x80304000 ∈ l' /\ pframe (kmem_memory s') demo_pgdir 0 = None.
Proof.
  destruct (deallocuvm_correct demo_kend demo_kend_high demo_pgdir PGSIZE 0 demo_space _
    demo_free demo_wf ltac:(done) ltac:(done) (demo_frames _))
    as (s' & l' & Hrun & _ & _ & _ & Hl & Hn & _).
  exists s', l'. clear -Hrun Hl Hn. split; [exact Hrun|]. clear Hrun.
  split; [|apply Hn; split; reflexivity || discriminate].
  apply Hl. right. exists 0. split; [split; reflexivity || discriminate|].
  unfold pframe. rewrite demo_lookup. reflexivity.
Defined.

Lemma copyuvm_correct_witness :
  kmem_free demo_kend demo_space [0x80300000; 0x80301000] /\
  ((exists d s', copyuvm demo_kend demo_kdata demo_pgdir PGSIZE demo_space = Ret d s' /\ d <> 0) \/
   (exists s' l', copyuvm demo_kend demo_kdata demo_pgdir PGSIZE demo_space = Ret 0 s' /\
      l' ≡ₚ [0x80300000; 0x80301000])).
Proof.
  split; [exact demo_free|].
  destruct (copyuvm_correct demo_kend demo_kdata demo_kend_high ltac:(done) ltac:(done)
    demo_pgdir PGSIZE demo_space _ demo_free demo_wf (demo_frames _) ltac:(done))
    as [(d & s' & l' & H & Hd & _)|[(s' & l' & H & _ & Hl)|(msg & va & _ & Hva & Hn)]].
  - left. exists d, s'. split; [exact H|exact Hd].
  - right. exists s', l'. split; [exact H|exact Hl].
  - exfalso. unfold pframe in Hn. rewrite demo_lookup, decide_True in Hn; [discriminate Hn|].
    unfold in_range, PGSIZE in Hva. lia.
Defined.
