(* ===== verification/Exec.v ===== *)
(** * Exec: the arguments of a new program (exec.c, sys_exec of sysfile.c)

    sys_exec collects the pointers of the caller's argument vector in an array on the kernel
    stack; exec, once the new address space has its two top pages, makes the lower one
    inaccessible and pushes strings, pointers and main's frame onto the upper one. The running
    process's user memory is read at its virtual addresses (below KERNBASE), the new one's
    through its page directory. *)

From S2P Require Import Prelude Memory Mmu Kalloc Vm Syscall.

Definition MAXARG : Z := 32.

Section Exec.
(** The caller's sz and saved stack pointer; the arrays argv of sys_exec and ustack of exec on
    its kernel stack; a bound for strlen's scans. *)
Context (usz uesp argv ustack : Z) (slen : nat).

(** The caller as the argument fetchers see it. *)
Definition caller (s : kmem) : uctx := mkUctx usz uesp (kmem_memory s).

(** The loop of sys_exec that fills argv; false where it returns -1. *)
Fixpoint fetch_args (uargv i : Z) (n : nat) : M kmem bool :=
  match n with
  | O => ret false
  | S n =>
      u ← gets caller;
      match fetchint u (u32 (uargv + 4 * i)) with
      | None => ret false
      | Some uarg =>
          let uarg := u32 uarg in
          if uarg =? 0 then kstore32 (argv + 4 * i) 0;; ret true
          else
            match fetchstr u uarg with
            | None => ret false
            | Some (p, _) => kstore32 (argv + 4 * i) p;; fetch_args uargv (i + 1) n
            end
      end
  end.
(** sys_exec up to its call of exec: the path, when all arguments could be fetched. *)
Definition sys_exec_args : M kmem (option Z) :=
  u ← gets caller;
  match argstr u 0, argint u 1 with
  | Some (path, _), Some uargv =>
      kmemset argv 0 (4 * MAXARG);;
      ok ← fetch_args (u32 uargv) 0 (Z.to_nat MAXARG);
      ret (if (ok : bool) then Some path else None)
  | _, _ => ret None
  end.

Definition kstrlen (a : Z) : M kmem Z := fun s =>
  match strlen (kmem_memory s) a slen with Some n => Ret n s | None => OutOfFuel end.

(** exec's loop over argv: argc and sp at its end, or [None] where it goes to bad. *)
Fixpoint push_args (pgdir argc sp : Z) (n : nat) : M kmem (option (Z * Z)) :=
  match n with
  | O => fun _ => OutOfFuel
  | S n =>
      a ← kload32 (argv + 4 * argc);
      if a =? 0 then ret (Some (argc, sp))
      else if MAXARG <=? argc then ret None
      else
        len ← kstrlen a;
        let sp := Z.land (u32 (sp - (len + 1))) (Z.lnot 3) in
        r ← copyout pgdir sp a (len + 1);
        if r <? 0 then ret None
        else kstore32 (ustack + 4 * (3 + argc)) sp;; push_args pgdir (argc + 1) sp n
  end.

(** From clearpteu to the last copyout; [sz] is the new size, the result sp. *)
Definition exec_stack (pgdir sz : Z) : M kmem (option Z) :=
  clearpteu pgdir (u32 (sz - 2 * PGSIZE));;
  o ← push_args pgdir 0 sz (S (S (Z.to_nat MAXARG)));
  match o with
  | None => ret None
  | Some (argc, sp) =>
      kstore32 (ustack + 4 * (3 + argc)) 0;;
      kstore32 (ustack + 4 * 0) 0xffffffff;;
      kstore32 (ustack + 4 * 1) argc;;
      kstore32 (ustack + 4 * 2) (u32 (sp - (argc + 1) * 4));;
      let sp := u32 (sp - (3 + argc + 1) * 4) in
      r ← copyout pgdir sp ustack ((3 + argc + 1) * 4);
      ret (if r <? 0 then None else Some sp)
  end.

(** The scan for the last component of the path; [s] and [last] are its two pointers. *)
Fixpoint base_name (m : memory) (last s : Z) (n : nat) : option Z :=
  match n with
  | O => None
  | S n =>
      let c := load8 m s in
      if c =? 0 then Some last else base_name m (if c =? 47 then s + 1 else last) (s + 1) n
  end.

(** The program's name, for debugging: [name] is curproc->name, [n] a bound of the path. *)
Definition exec_name (m : memory) (path name : Z) (n : nat) : option memory :=
  last ← base_name m path path n; Some (safestrcpy m name last 16).
End Exec.

(** ** What main finds *)

Definition user_byte (m : memory) (d va : Z) : option Z :=
  f ← frame_of m d va; Some (load8 m (f + va mod PGSIZE)).
Definition user_word (m : memory) (d va : Z) : option Z :=
  a ← user_byte m d va; b ← user_byte m d (va + 1); c ← user_byte m d (va + 2); e ← user_byte m d (va + 3);
  Some (a + b * 2 ^ 8 + c * 2 ^ 16 + e * 2 ^ 24).
Definition user_string (m : memory) (d p : Z) (a : list Z) : Prop :=
  forall i b, (a ++ [0]) !! i = Some b -> user_byte m d (p + Z.of_nat i) = Some b.

(** main(argc, argv) about to start at stack pointer [sp]: a return address, argc, argv, and
    at argv the pointers to the strings, the last one null. *)
Record main_frame (m : memory) (d sp : Z) (args : list (list Z)) : Prop := {
  mf_return : user_word m d sp = Some 0xffffffff;
  mf_argc : user_word m d (sp + 4) = Some (Z.of_nat (length args));
  mf_argv : user_word m d (sp + 8) = Some (sp + 12);
  mf_args : forall i a, args !! i = Some a -> exists p,
    user_word m d (sp + 12 + 4 * Z.of_nat i) = Some p /\ user_string m d p a;
  mf_null : user_word m d (sp + 12 + 4 * Z.of_nat (length args)) = Some 0
}.

Definition align4 (x : Z) : Z := x / 4 * 4.
(** The stack pointer below the strings, and below everything. *)
Definition strings_sp (sp : Z) (args : list (list Z)) : Z :=
  foldl (fun sp a => align4 (sp - (Z.of_nat (length a) + 1))) sp args.
Definition main_sp (sp : Z) (args : list (list Z)) : Z := strings_sp sp args - (4 + Z.of_nat (length args)) * 4.

(** A pointer array and the strings it points to, in the caller's memory. *)
Definition string_at (m : memory) (p : Z) (a : list Z) : Prop :=
  0 < p /\ p + Z.of_nat (length a) < KERNBASE /\ Forall (fun b => b <> 0) a /\
  (forall i b, (a ++ [0]) !! i = Some b -> load8 m (p + Z.of_nat i) = b).
Definition vector_at (m : memory) (argv : Z) (args : list (list Z)) : Prop :=
  (forall i a, args !! i = Some a -> string_at m (load32 m (argv + 4 * Z.of_nat i)) a) /\
  load32 m (argv + 4 * Z.of_nat (length args)) = 0.

(** ** The stack page of a new address space *)

Lemma frame_of_page m d va va' : vpn va = vpn va' -> frame_of m d va = frame_of m d va'.
Proof. intros [E1 E2]%vpn_eq_iff. unfold frame_of, lookup_pt. by rewrite E1, E2. Qed.

Lemma page_vpn p i : 0 <= p -> p mod PGSIZE = 0 -> p + PGSIZE <= 2 ^ 32 -> 0 <= i < PGSIZE -> vpn (p + i) = vpn p.
Proof. intros. unfold vpn, PGSIZE in *. rewrite !u32_small by lia. dlia. Qed.

Lemma align4_eq x : 0 <= x < 2 ^ 32 -> Z.land (u32 x) (Z.lnot 3) = align4 x.
Proof. intros Hx. rewrite u32_small by done. change 3 with (Z.ones 2). by rewrite land_lnot_ones. Qed.

Lemma strlen_from_spec m p a : forall k fuel, (forall i b, (a ++ [0]) !! i = Some b -> load8 m (p + (k + Z.of_nat i)) = b) ->
  Forall (fun b => b <> 0) a -> (length a < fuel)%nat -> strlen_from m p k fuel = Some (k + Z.of_nat (length a)).
Proof.
  induction a as [|c a IH]; intros k [|fuel] Hm Ha Hf; cbn [length] in Hf; try lia; cbn [strlen_from].
  - specialize (Hm O 0 eq_refl). replace (p + (k + Z.of_nat 0)) with (p + k) in Hm by lia. rewrite Hm. cbn. f_equal. lia.
  - apply Forall_cons in Ha as [Hc Ha]. pose proof (Hm O c eq_refl) as E. replace (p + (k + Z.of_nat 0)) with (p + k) in E by lia.
    rewrite E, (proj2 (Z.eqb_neq c 0)), IH by (done || lia || (intros i b Hi; rewrite <- (Hm (S i) b Hi); f_equal; lia)).
    cbn [length]. f_equal. lia.
Qed.

Section Stack.
Context (kend : Z) (kend_high : KERNBASE < kend).
Context (d top f ks argv ustack : Z) (l : list Z) (slen : nat).

(** The page at [top] is user memory in frame [f], the one below is mapped but not for the
    user; [f] and the kernel stack [ks], with its two arrays, are no page tables. *)
Record stack_pages (m : memory) : Prop := {
  st_wf : as_wf kend m d l;
  st_frame : frame_of m d top = Some f;
  st_guard : frame_of m d (top - PGSIZE) = None;
  st_guard_table : is_Some (table_at m d (PDX (top - PGSIZE)));
  st_unowned : ~ owns m d f;
  st_ks : ~ owns m d ks
}.
Record stack_place : Prop := {
  sp_top : top mod PGSIZE = 0;
  sp_low : PGSIZE <= top;
  sp_high : top + PGSIZE <= KERNBASE;
  sp_good : good_page kend f;
  sp_good_ks : good_page kend ks;
  sp_apart : f <> ks;
  sp_argv : ks <= argv /\ argv + 4 * MAXARG <= ks + PGSIZE;
  sp_ustack : ks <= ustack /\ ustack + 4 * (MAXARG + 4) <= ks + PGSIZE;
  sp_arrays : argv + 4 * MAXARG <= ustack \/ ustack + 4 * (MAXARG + 4) <= argv
}.
Context (HP : stack_place).

Lemma top_vpn i : 0 <= i < PGSIZE -> vpn (top + i) = vpn top.
Proof. destruct HP. intros Hi. apply page_vpn; unfold KERNBASE, PGSIZE in *; lia. Qed.
Lemma guard_vpn i : 0 <= i < PGSIZE -> vpn (top - PGSIZE + i) = vpn (top - PGSIZE).
Proof. destruct HP. intros Hi. apply page_vpn; try (unfold KERNBASE, PGSIZE in *; lia). unfold PGSIZE in *. dlia. Qed.

(** Where the byte at a user address of the stack page is. *)
Definition place (va : Z) : Z := f + (va - top).

Lemma stack_byte m va : stack_pages m -> top <= va < top + PGSIZE -> user_byte m d va = Some (load8 m (place va)).
Proof.
  intros Hm Hva. unfold user_byte, place. replace va with (top + (va - top)) by lia.
  rewrite (frame_of_page m d (top + (va - top)) top) by (apply top_vpn; lia). rewrite (st_frame _ Hm). cbn.
  do 2 f_equal. destruct HP. unfold PGSIZE in *. dlia.
Qed.
Lemma stack_word m va : stack_pages m -> top <= va -> va + 4 <= top + PGSIZE -> user_word m d va = Some (load32 m (place va)).
Proof.
  intros Hm Hl Hh. unfold user_word. rewrite !stack_byte by (done || lia). cbn [mbind option_bind]. unfold load32.
  replace (place (va + 1)) with (place va + 1) by (unfold place; lia). replace (place (va + 2)) with (place va + 2) by (unfold place; lia).
  by replace (place (va + 3)) with (place va + 3) by (unfold place; lia).
Qed.

(** Writes to the frame and to the kernel stack leave the pages mapped as they are. *)
Lemma stack_pages_write q m m' : stack_pages m -> q = f \/ q = ks ->
  (forall a, ~ (q <= a < q + PGSIZE) -> load8 m' a = load8 m a) -> stack_pages m'.
Proof.
  intros [Hw Hf Hg Ht Ho Hk] Hq Hm.
  assert (Hgood : good_page kend q /\ ~ owns m d q) by (destruct HP; destruct Hq as [-> | ->]; done). destruct Hgood as [Hgq Hoq].
  destruct (unowned_write kend _ _ _ _ _ Hw (proj1 Hgq) Hoq Hm) as (H1 & H2 & H3).
  split; rewrite ?H2; try done.
  - unfold frame_of. rewrite (proj2 (H3 top)). exact Hf.
  - unfold frame_of. rewrite (proj2 (H3 (top - PGSIZE))). exact Hg.
  - by rewrite (proj1 (H3 (top - PGSIZE))).
Qed.

(** copyout to the stack page, from a buffer outside it. *)
Lemma copyout_stack s va p len : stack_pages (kmem_memory s) -> top <= va -> 0 <= len -> va + len <= top + PGSIZE ->
  p + len <= f \/ f + PGSIZE <= p ->
  exists m', copyout d va p len s = Ret 0 (set_memory m' s) /\ stack_pages m' /\
    forall a, load8 m' a = if decide (place va <= a < place va + len) then load8 (kmem_memory s) (p + (a - place va)) else load8 (kmem_memory s) a.
Proof.
  intros Hs Hl Hlen Hh Hd. assert (Hfr : forall i, 0 <= i < len -> frame_of (kmem_memory s) d (va + i) = Some f).
  { intros i Hi. replace (va + i) with (top + (va + i - top)) by lia. rewrite (frame_of_page _ d _ top) by (apply top_vpn; lia). apply Hs. }
  assert (Hmod : forall i, 0 <= i < len -> f + (va + i) mod PGSIZE = place va + i).
  { intros i Hi. unfold place. destruct HP. unfold PGSIZE in *. dlia. }
  destruct (copyout_correct kend kend_high d va p len s l (st_wf _ Hs)) as (m' & E & H1 & H2).
  - split.
    + intros i Hi. exists f. split_and!; [by apply Hfr|apply HP|apply Hs|done].
    + intros i j g Hi Hj _ _. replace (va + i) with (top + (va + i - top)) by lia. replace (va + j) with (top + (va + j - top)) by lia.
      by rewrite !top_vpn by lia.
  - destruct HP. unfold PGSIZE in *. lia.
  - done.
  - destruct HP. unfold KERNBASE, PGSIZE in *. lia.
  - assert (Hm' : forall a, load8 m' a = if decide (place va <= a < place va + len) then load8 (kmem_memory s) (p + (a - place va)) else load8 (kmem_memory s) a).
    { intros a. case_decide as Ha.
      - specialize (H1 (a - place va) f ltac:(lia) (Hfr (a - place va) ltac:(lia))). rewrite Hmod in H1 by lia.
        by replace (place va + (a - place va)) with a in H1 by lia.
      - apply H2. intros i g Hi Hg. rewrite Hfr in Hg by done. injection Hg as <-. rewrite Hmod by done. lia. }
    exists m'. split; [done|]. split; [|done]. apply (stack_pages_write f (kmem_memory s)); [done|by left|].
    intros a Ha. rewrite Hm', decide_False; [done|]. unfold place. lia.
Qed.

(** The same below it stops at the page the user cannot reach. *)
Lemma copyout_guard s va p len : stack_pages (kmem_memory s) -> top - PGSIZE <= va < top -> 0 < len ->
  copyout d va p len s = Ret (-1) s.
Proof.
  intros Hs Hva Hlen. unfold copyout.
  replace (S (Z.to_nat (len / PGSIZE) + 2)) with (S (S (S (Z.to_nat (len / PGSIZE))))) by lia. cbn [copyout_loop].
  rewrite (proj2 (Z.ltb_lt 0 len)) by done. cbn [negb].
  assert (E0 : PGROUNDDOWN va = top - PGSIZE).
  { rewrite PGROUNDDOWN_eq. destruct HP. unfold KERNBASE, PGSIZE in *. rewrite u32_small by lia. dlia. }
  rewrite E0. destruct (st_guard_table _ Hs) as [t Ht].
  assert (E : uva2ka d (top - PGSIZE) s = Ret 0 s).
  { unfold uva2ka. rewrite (bind_ret _ _ _ _ _ (walkpgdir_present _ _ _ _ false Ht)), (pte_nonzero kend kend_high _ _ l _ _ (st_wf _ Hs) Ht).
    rewrite (bind_ret _ _ _ _ s) by done. pose proof (st_guard _ Hs) as Hg. unfold frame_of, lookup_pt in Hg. rewrite Ht in Hg.
    destruct (has_flag _ PTE_P); [|done]. destruct (has_flag _ PTE_U); done. }
  by rewrite (bind_ret _ _ _ _ _ E).
Qed.

(** *** The loop over argv *)

(** Memory changes in the stack page and in ustack only. *)
Definition kept (m m' : memory) : Prop :=
  forall a, ~ (f <= a < f + PGSIZE) -> ~ (ustack <= a < ustack + 4 * (MAXARG + 4)) -> load8 m' a = load8 m a.
Lemma only_stack_trans m1 m2 m3 : kept m1 m2 -> kept m2 m3 -> kept m1 m3.
Proof. intros H1 H2 a Hf Hu. by rewrite H2, H1. Qed.

Lemma f_ks_disjoint a : f <= a < f + PGSIZE -> ks <= a < ks + PGSIZE -> False.
Proof.
  intros Hf Hk. destruct HP. destruct (page_disjoint f ks (proj1 sp_good0) (proj1 sp_good_ks0) sp_apart0); lia.
Qed.
Lemma kernel_pages : KERNBASE < f /\ KERNBASE < ks.
Proof. destruct HP. split; by apply (good_page_range kend kend_high). Qed.

Lemma vector_same m m' args : Z.of_nat (length args) < MAXARG ->
  (forall a, a < KERNBASE \/ argv <= a < argv + 4 * MAXARG -> load8 m' a = load8 m a) -> vector_at m argv args -> vector_at m' argv args.
Proof.
  intros Hlen Hm [Hs Hz].
  assert (Hw : forall i, (i <= length args)%nat -> load32 m' (argv + 4 * Z.of_nat i) = load32 m (argv + 4 * Z.of_nat i)).
  { intros i Hi. apply load32_ext. intros x Hx. apply Hm. lia. }
  split; [|by rewrite Hw by lia]. intros i a Hi. pose proof (lookup_lt_Some _ _ _ Hi). rewrite Hw by lia.
  destruct (Hs i a Hi) as (Hp & Hh & Ha & Hb). split_and!; try done. intros j b Hj. rewrite <- (Hb j b Hj).
  apply lookup_lt_Some in Hj. rewrite length_app in Hj. cbn [length] in Hj. apply Hm. lia.
Qed.
Lemma vector_kept m m' args : Z.of_nat (length args) < MAXARG -> kept m m' -> vector_at m argv args -> vector_at m' argv args.
Proof.
  intros Hlen Hk. apply vector_same; [done|]. intros a Ha. pose proof kernel_pages as [Hf Hks].
  apply Hk; destruct HP; [intros Hfx; destruct Ha; [lia|apply (f_ks_disjoint a Hfx); lia]|lia].
Qed.

Record pushed (m : memory) (sp : Z) (args : list (list Z)) (ps : list Z) : Prop := {
  pu_pages : stack_pages m;
  pu_sp : sp mod 4 = 0 /\ top <= sp <= top + PGSIZE;
  pu_length : length ps = length args;
  pu_string : forall i a p, args !! i = Some a -> ps !! i = Some p ->
    sp <= p /\ p + Z.of_nat (length a) + 1 <= top + PGSIZE /\
    (forall j b, (a ++ [0]) !! j = Some b -> load8 m (place (p + Z.of_nat j)) = b);
  pu_slot : forall i p, ps !! i = Some p -> load32 m (ustack + 4 * (3 + Z.of_nat i)) = p
}.

(** Writing below the strings, or in ustack outside their slots, keeps them. *)
Lemma pushed_write m m' sp sp' args ps : pushed m sp args ps -> stack_pages m' -> sp' mod 4 = 0 -> top <= sp' <= sp ->
  (forall a, place sp <= a < f + PGSIZE -> load8 m' a = load8 m a) ->
  (forall i, (i < length ps)%nat -> load32 m' (ustack + 4 * (3 + Z.of_nat i)) = load32 m (ustack + 4 * (3 + Z.of_nat i))) ->
  pushed m' sp' args ps.
Proof.
  intros [Hp Hsp Hlen Hs Hu] Hp' Hm Hle Hb Hw. split; try done; [lia| |].
  - intros i a p Ha Hi. destruct (Hs i a p Ha Hi) as (H1 & H2 & H3). split_and!; [lia|done|]. intros j b Hj. rewrite <- (H3 j b Hj).
    apply lookup_lt_Some in Hj. rewrite length_app in Hj. cbn [length] in Hj. apply Hb. unfold place. lia.
  - intros i p Hi. rewrite Hw by (by eapply lookup_lt_Some). by apply Hu.
Qed.

Lemma ustack_kept m k v : 0 <= k < MAXARG + 4 -> kept m (store32 m (ustack + 4 * k) v).
Proof. intros Hk a _ Hu. rewrite store32_lookup, decide_False by lia. done. Qed.
Lemma stack_pages_ustack m k v : 0 <= k < MAXARG + 4 -> stack_pages m -> stack_pages (store32 m (ustack + 4 * k) v).
Proof.
  intros Hk Hm. apply (stack_pages_write ks m); [done|by right|]. intros a Ha. rewrite store32_lookup, decide_False; [done|].
  destruct HP. lia.
Qed.
Lemma ustack_frame m k v a : 0 <= k < MAXARG + 4 -> f <= a < f + PGSIZE -> load8 (store32 m (ustack + 4 * k) v) a = load8 m a.
Proof.
  intros Hk Ha. rewrite store32_lookup, decide_False; [done|]. intros Hu. apply (f_ks_disjoint a Ha). destruct HP. lia.
Qed.

Lemma align4_bounds x : x - 4 < align4 x <= x /\ align4 x mod 4 = 0.
Proof. unfold align4. dlia. Qed.

Lemma push_one s sp args ps p a : pushed (kmem_memory s) sp args ps -> string_at (kmem_memory s) p a ->
  Z.of_nat (length args) < MAXARG ->
  let sp' := align4 (sp - (Z.of_nat (length a) + 1)) in top <= sp' ->
  exists m', copyout d sp' p (Z.of_nat (length a) + 1) s = Ret 0 (set_memory m' s) /\
    let m2 := store32 m' (ustack + 4 * (3 + Z.of_nat (length args))) sp' in
    pushed m2 sp' (args ++ [a]) (ps ++ [sp']) /\ kept (kmem_memory s) m2.
Proof.
  intros Hpu (Hp & Hpk & Hnz & Hb) Hargs sp' Hsp'. pose proof (align4_bounds (sp - (Z.of_nat (length a) + 1))) as [Hal Hmod]. fold sp' in Hal, Hmod.
  pose proof (pu_sp _ _ _ _ Hpu) as [Hm4 Hsp]. pose proof kernel_pages as [Hf Hks].
  destruct (copyout_stack s sp' p (Z.of_nat (length a) + 1) (pu_pages _ _ _ _ Hpu)) as (m' & E & Hst & Hm'); [lia..|].
  exists m'. split; [exact E|]. cbv zeta. set (k := 3 + Z.of_nat (length args)) in *. assert (Hk : 0 <= k < MAXARG + 4) by lia.
  assert (Hus : forall a, ustack <= a < ustack + 4 * (MAXARG + 4) -> load8 m' a = load8 (kmem_memory s) a).
  { intros b Hbu. rewrite Hm', decide_False; [done|]. intros Hpl. apply (f_ks_disjoint b); [unfold place in Hpl; lia|destruct HP; lia]. }
  split.
  2:{ eapply only_stack_trans; [|by apply ustack_kept]. intros b Hbf _. rewrite Hm', decide_False; [done|]. unfold place. lia. }
  assert (Hold : pushed (store32 m' (ustack + 4 * k) sp') sp' args ps).
  { eapply (pushed_write (kmem_memory s)); [exact Hpu|by apply stack_pages_ustack|done|lia| |].
    - intros b Hbr. rewrite ustack_frame by (done || (unfold place in Hbr; lia)). rewrite Hm', decide_False; [done|]. unfold place in *. lia.
    - intros i Hi. rewrite (pu_length _ _ _ _ Hpu) in Hi. rewrite load32_store32_ne by lia. apply load32_ext. intros x Hx. apply Hus. lia. }
  pose proof (pu_length _ _ _ _ Hpu) as Hlen. destruct Hold as [H1 H2 _ H4 H5]. split; try done.
  - rewrite !length_app, Hlen. done.
  - intros i a' p' Ha' Hp'. apply lookup_snoc_Some in Ha' as [[Hi Ha']|[-> <-]].
    + rewrite lookup_app_l in Hp' by lia. by apply H4 with i.
    + rewrite <- Hlen, list_lookup_middle in Hp' by done. injection Hp' as <-. split_and!; [lia|lia|]. intros j b Hj. rewrite <- (Hb j b Hj).
      apply lookup_lt_Some in Hj. rewrite length_app in Hj. cbn [length] in Hj.
      rewrite ustack_frame by (done || (unfold place; lia)). rewrite Hm', decide_True by (unfold place; lia). f_equal. unfold place. lia.
  - intros i p' Hp'. apply lookup_snoc_Some in Hp' as [[Hi Hp']|[-> <-]]; [by apply H5|].
    rewrite Hlen. fold k. rewrite load32_store32_eq. apply u32_small. destruct HP. unfold KERNBASE, PGSIZE in *. lia.
Qed.

Lemma strings_sp_le sp args : strings_sp sp args <= sp.
Proof.
  revert sp. induction args as [|a args IH]; intros sp; cbn [strings_sp foldl]; [lia|].
  etransitivity; [apply IH|]. pose proof (align4_bounds (sp - (Z.of_nat (length a) + 1))). lia.
Qed.

(** Strings of at most a page less 8 bytes, for which strlen's fuel is enough. *)
Definition short (a : list Z) : Prop := Z.of_nat (length a) + 8 <= PGSIZE /\ (length a < slen)%nat.

(** Strings that fit in the stack page are short. *)
Lemma strings_sp_each sp args a : a ∈ args -> strings_sp sp args <= sp - (Z.of_nat (length a) + 1).
Proof.
  revert sp. induction args as [|b args IH]; intros sp; [by intros ?%not_elem_of_nil|]. cbn [strings_sp foldl].
  pose proof (align4_bounds (sp - (Z.of_nat (length b) + 1))). intros [->|Ha]%elem_of_cons.
  - etransitivity; [apply strings_sp_le|]. lia.
  - etransitivity; [by apply IH|]. lia.
Qed.
Lemma fits_short args : top <= main_sp (top + PGSIZE) args -> Forall (fun a => length a < slen)%nat args -> Forall short args.
Proof.
  intros Hfit Hl. apply Forall_forall. intros a Ha. pose proof (proj1 (Forall_forall _ _) Hl a Ha).
  pose proof (strings_sp_each (top + PGSIZE) args a Ha). unfold main_sp in Hfit. split; [lia|done].
Qed.

Lemma push_args_run rest : forall done ps sp n s, pushed (kmem_memory s) sp done ps ->
  vector_at (kmem_memory s) argv (done ++ rest) -> Z.of_nat (length (done ++ rest)) < MAXARG -> Forall short rest -> (length rest < n)%nat ->
  exists m', push_args argv ustack slen d (Z.of_nat (length done)) sp n s =
      Ret (if top <=? strings_sp sp rest then Some (Z.of_nat (length (done ++ rest)), strings_sp sp rest) else None) (set_memory m' s) /\
    kept (kmem_memory s) m' /\ (top <= strings_sp sp rest -> exists ps', pushed m' (strings_sp sp rest) (done ++ rest) ps').
Proof.
  induction rest as [|a rest IH]; intros done ps sp [|n] s Hpu Hv Hmax Hsh Hn; cbn [length] in Hn; try lia; cbn [push_args];
    (erewrite bind_ret by reflexivity); pose proof (pu_sp _ _ _ _ Hpu) as [Hm4 Hsp].
  - destruct Hv as [_ Hz]. rewrite app_nil_r in *. rewrite Hz. cbn [Z.eqb strings_sp foldl].
    rewrite (proj2 (Z.leb_le top sp)) by lia. exists (kmem_memory s). split; [by destruct s|]. split; [done|]. intros _. by exists ps.
  - apply Forall_cons in Hsh as [[Hs1 Hs2] Hsh]. destruct Hv as [Hs Hz] eqn:Ev. clear Ev. pose proof (Hs (length done) a) as Ha.
    rewrite list_lookup_middle in Ha by done. specialize (Ha eq_refl). destruct Ha as (Hp & Hpk & Hnz & Hb) eqn:Ea. clear Ea.
    set (p := load32 (kmem_memory s) (argv + 4 * Z.of_nat (length done))) in *.
    rewrite (proj2 (Z.eqb_neq p 0)) by lia. rewrite length_app in Hmax. cbn [length] in Hmax.
    rewrite (proj2 (Z.leb_gt MAXARG (Z.of_nat (length done)))) by lia.
    assert (El : kstrlen slen p s = Ret (Z.of_nat (length a)) s).
    { unfold kstrlen, strlen. rewrite (strlen_from_spec _ p a 0) by (done || lia). by rewrite Z.add_0_l. }
    rewrite (bind_ret _ _ _ _ _ El). cbv zeta.
    pose proof (align4_bounds (sp - (Z.of_nat (length a) + 1))) as [Hal Hmod].
    rewrite align4_eq by (destruct HP; unfold KERNBASE, PGSIZE in *; lia). cbn [strings_sp foldl]. fold (strings_sp (align4 (sp - (Z.of_nat (length a) + 1))) rest).
    set (sp' := align4 (sp - (Z.of_nat (length a) + 1))) in *. destruct (decide (top <= sp')) as [Hfit|Hfit].
    + destruct (push_one s sp done ps p a Hpu) as (m' & E & Hpu' & Hk); [done|lia|exact Hfit|]. fold sp' in E, Hpu', Hk.
      rewrite (bind_ret _ _ _ _ _ E). cbn [Z.ltb Z.compare]. erewrite bind_ret by reflexivity.
      set (s2 := set_memory _ (set_memory m' s)).
      destruct (IH (done ++ [a]) (ps ++ [sp']) sp' n s2) as (m3 & E3 & Hk3 & Hp3); try done.
      * rewrite <- app_assoc. apply (vector_kept (kmem_memory s)); [rewrite length_app; cbn [app length]; lia|done|done].
      * rewrite <- app_assoc, length_app. cbn [app length]. lia.
      * lia.
      * exists m3. rewrite length_app, Nat2Z.inj_add in E3. rewrite <- app_assoc in E3, Hp3. split; [exact E3|].
        split; [by eapply only_stack_trans|done].
    + exists (kmem_memory s).
      pose proof (strings_sp_le sp' rest). rewrite (proj2 (Z.leb_gt top _)) by lia.
      split; [|split; [done|lia]]. rewrite (bind_ret _ _ _ _ _ (copyout_guard s sp' p (Z.of_nat (length a) + 1) (pu_pages _ _ _ _ Hpu) ltac:(unfold PGSIZE in *; lia) ltac:(lia))). by destruct s.
Qed.

(** *** The guard page *)

(** The address space as allocuvm left it: both pages mapped. *)
Record fresh (m : memory) : Prop := {
  fr_wf : as_wf kend m d l;
  fr_frame : frame_of m d top = Some f;
  fr_table : is_Some (table_at m d (PDX (top - PGSIZE)));
  fr_unowned : ~ owns m d f;
  fr_ks : ~ owns m d ks
}.

Lemma fresh_write m m' : fresh m -> (forall a, ~ (ks <= a < ks + PGSIZE) -> load8 m' a = load8 m a) -> fresh m'.
Proof.
  intros [Hw Hf Ht Ho Hk] Hm. destruct (unowned_write kend _ _ _ _ _ Hw (proj1 (sp_good_ks HP)) Hk Hm) as (H1 & H2 & H3).
  split; rewrite ?H2; try done.
  - unfold frame_of. rewrite (proj2 (H3 top)). exact Hf.
  - by rewrite (proj1 (H3 (top - PGSIZE))).
Qed.

Lemma guard_apart : vpn top <> vpn (top - PGSIZE).
Proof. destruct HP. unfold vpn, KERNBASE, PGSIZE in *. rewrite !u32_small by lia. dlia. Qed.

Lemma clearpteu_run s : fresh (kmem_memory s) ->
  exists m1, clearpteu d (top - PGSIZE) s = Ret tt (set_memory m1 s) /\ stack_pages m1 /\
    forall a, (forall p, owns (kmem_memory s) d p -> ~ (p <= a < p + PGSIZE)) -> load8 m1 a = load8 (kmem_memory s) a.
Proof.
  intros [Hw Hf [t Ht] Ho Hk]. set (pte := t + 4 * PTX (top - PGSIZE)). set (e := load32 (kmem_memory s) pte).
  set (v := Z.land e (Z.lnot PTE_U)).
  assert (Hv : 0 <= v < 2 ^ 32).
  { pose proof (load32_range (kmem_memory s) pte) as He. fold e in He. unfold v.
    assert (E : Z.land e (Z.lnot PTE_U) = Z.land e (Z.lnot PTE_U) mod 2 ^ 32); [|rewrite E; by apply Z.mod_pos_bound].
    rewrite <- Z.land_ones by lia. rewrite <- Z.land_assoc, (Z.land_comm (Z.lnot PTE_U)), Z.land_assoc, Z.land_ones by lia.
    by rewrite Z.mod_small by lia. }
  assert (El : lookup_pt (store32 (kmem_memory s) pte v) d (top - PGSIZE) = v).
  { unfold pte. by rewrite (lookup_pt_store kend _ d l), decide_True. }
  exists (store32 (kmem_memory s) pte v). split_and!.
  - unfold clearpteu. rewrite (bind_ret _ _ _ _ _ (walkpgdir_present _ _ _ _ false Ht)), (pte_nonzero kend kend_high _ _ l _ _ Hw Ht).
    by erewrite bind_ret by reflexivity.
  - split.
    + by apply as_wf_store.
    + unfold frame_of, pte. rewrite (lookup_pt_store kend _ d l), decide_False by (done || apply guard_apart). exact Hf.
    + unfold frame_of. rewrite El. unfold v. replace (has_flag (Z.land e (Z.lnot PTE_U)) PTE_U) with false; [by rewrite andb_false_r|].
      unfold has_flag. by rewrite <- Z.land_assoc, (Z.land_comm (Z.lnot PTE_U)), Z.land_lnot_diag, Z.land_0_r.
    + unfold pte. rewrite (table_at_store kend _ d l) by (done || apply PDX_range). by exists t.
    + unfold pte. by rewrite (owns_store kend _ d l).
    + unfold pte. by rewrite (owns_store kend _ d l).
  - intros a Ha. apply (changes_store (kmem_memory s) t); [apply PTX_range|]. intros q <-. apply Ha. right.
    exists (PDX (top - PGSIZE)). split; [apply PDX_range|done].
Qed.

(** *** ustack and main's frame *)

(** ustack once exec has filled it, before the last copyout. *)
Definition frame_words (m : memory) (sp argc : Z) : memory :=
  store32 (store32 (store32 (store32 m (ustack + 4 * (3 + argc)) 0) (ustack + 4 * 0) 0xffffffff) (ustack + 4 * 1) argc)
    (ustack + 4 * 2) (u32 (sp - (argc + 1) * 4)).

Lemma frame_words_other m sp argc k : 0 <= argc -> 3 <= k -> k <> 3 + argc ->
  load32 (frame_words m sp argc) (ustack + 4 * k) = load32 m (ustack + 4 * k).
Proof. intros. unfold frame_words. by rewrite !load32_store32_ne by lia. Qed.
Lemma frame_words_head m sp argc : 0 <= argc < MAXARG ->
  load32 (frame_words m sp argc) (ustack + 4 * 0) = 0xffffffff /\ load32 (frame_words m sp argc) (ustack + 4 * 1) = argc /\
  load32 (frame_words m sp argc) (ustack + 4 * 2) = u32 (sp - (argc + 1) * 4) /\ load32 (frame_words m sp argc) (ustack + 4 * (3 + argc)) = 0.
Proof.
  intros Ha. unfold MAXARG in Ha. unfold frame_words. split_and!.
  - by rewrite 2!load32_store32_ne, load32_store32_eq by lia.
  - rewrite load32_store32_ne, load32_store32_eq by lia. apply u32_small. lia.
  - by rewrite load32_store32_eq, u32_idem.
  - by rewrite 3!load32_store32_ne, load32_store32_eq by lia.
Qed.
Lemma frame_words_kept m sp argc : 0 <= argc < MAXARG -> kept m (frame_words m sp argc).
Proof.
  intros Ha. unfold frame_words. do 3 (eapply only_stack_trans; [|apply ustack_kept; unfold MAXARG in *; lia]). apply ustack_kept. lia.
Qed.
Lemma frame_words_pages m sp argc : 0 <= argc < MAXARG -> stack_pages m -> stack_pages (frame_words m sp argc).
Proof. intros Ha Hm. unfold frame_words. by repeat (apply stack_pages_ustack; [unfold MAXARG in *; lia|]). Qed.
Lemma frame_words_frame m sp argc a : 0 <= argc < MAXARG -> f <= a < f + PGSIZE -> load8 (frame_words m sp argc) a = load8 m a.
Proof. intros Ha Hf. unfold frame_words. by rewrite !ustack_frame by (done || (unfold MAXARG in *; lia)). Qed.

(** The words copied to the stack are main's frame. *)
Lemma frame_copied m m' sp args ps : pushed m sp args ps -> Z.of_nat (length args) < MAXARG ->
  let argc := Z.of_nat (length args) in let sp' := sp - (3 + argc + 1) * 4 in
  top <= sp' -> stack_pages m' ->
  (forall a, load8 m' a = if decide (place sp' <= a < place sp' + (3 + argc + 1) * 4)
                          then load8 (frame_words m sp argc) (ustack + (a - place sp')) else load8 (frame_words m sp argc) a) ->
  main_frame m' d sp' args.
Proof.
  intros Hpu Hmax argc sp' Hsp' Hst Hm'. pose proof (pu_sp _ _ _ _ Hpu) as [_ Hsp]. assert (Hargc : 0 <= argc < MAXARG) by lia.
  assert (Hw : forall k, 0 <= k < 3 + argc + 1 -> user_word m' d (sp' + 4 * k) = Some (load32 (frame_words m sp argc) (ustack + 4 * k))).
  { intros k Hk. rewrite stack_word by (done || lia). f_equal. unfold load32.
    assert (Hb : forall j, 0 <= j < 4 -> load8 m' (place (sp' + 4 * k) + j) = load8 (frame_words m sp argc) (ustack + 4 * k + j)).
    { intros j Hj. rewrite Hm', decide_True by (unfold place; lia). f_equal. unfold place. lia. }
    rewrite !Hb by lia. specialize (Hb 0 ltac:(lia)). rewrite !Z.add_0_r in Hb. by rewrite Hb. }
  destruct (frame_words_head m sp argc Hargc) as (H0 & H1 & H2 & H3). split.
  - specialize (Hw 0 ltac:(lia)). by rewrite H0, Z.add_0_r in Hw.
  - specialize (Hw 1 ltac:(lia)). by rewrite H1 in Hw.
  - specialize (Hw 2 ltac:(lia)). rewrite H2 in Hw. change (4 * 2) with 8 in Hw. rewrite Hw. f_equal. unfold sp'.
    rewrite u32_small by (destruct HP; unfold KERNBASE, PGSIZE in *; lia). lia.
  - intros i a Ha. pose proof (lookup_lt_Some _ _ _ Ha) as Hi.
    destruct (lookup_lt_is_Some_2 ps i) as [p Hp]; [by rewrite (pu_length _ _ _ _ Hpu)|].
    destruct (pu_string _ _ _ _ Hpu i a p Ha Hp) as (Hp1 & Hp2 & Hp3). exists p. split.
    + replace (sp' + 12 + 4 * Z.of_nat i) with (sp' + 4 * (3 + Z.of_nat i)) by lia. rewrite Hw by lia.
      by rewrite frame_words_other, (pu_slot _ _ _ _ Hpu i p Hp) by lia.
    + intros j b Hj. pose proof (Hp3 j b Hj) as Hb. apply lookup_lt_Some in Hj. rewrite length_app in Hj. cbn [length] in Hj.
      rewrite stack_byte by (done || lia). f_equal. rewrite Hm', decide_False by (unfold place; lia).
      rewrite frame_words_frame by (done || (unfold place; lia)). exact Hb.
  - replace (sp' + 12 + 4 * Z.of_nat (length args)) with (sp' + 4 * (3 + argc)) by lia. by rewrite Hw, H3 by lia.
Qed.

Lemma frame_words_run {A : Type} argc sp (g : unit -> M kmem A) s :
  (kstore32 (ustack + 4 * (3 + argc)) 0 ≫= fun _ => kstore32 (ustack + 4 * 0) 0xffffffff ≫= fun _ =>
   kstore32 (ustack + 4 * 1) argc ≫= fun _ => kstore32 (ustack + 4 * 2) (u32 (sp - (argc + 1) * 4)) ≫= g) s =
  g tt (set_memory (frame_words (kmem_memory s) sp argc) s).
Proof. by destruct s. Qed.

Lemma exec_stack_run args s : fresh (kmem_memory s) -> vector_at (kmem_memory s) argv args ->
  Z.of_nat (length args) < MAXARG -> Forall short args ->
  exists m', exec_stack argv ustack slen d (top + PGSIZE) s =
      Ret (if top <=? main_sp (top + PGSIZE) args then Some (main_sp (top + PGSIZE) args) else None) (set_memory m' s) /\
    (top <= main_sp (top + PGSIZE) args -> main_frame m' d (main_sp (top + PGSIZE) args) args) /\
    (forall a, (forall p, owns (kmem_memory s) d p -> ~ (p <= a < p + PGSIZE)) -> ~ (f <= a < f + PGSIZE) ->
       ~ (ustack <= a < ustack + 4 * (MAXARG + 4)) -> load8 m' a = load8 (kmem_memory s) a).
Proof.
  intros Hfr Hv Hmax Hsh. destruct (clearpteu_run s Hfr) as (m1 & E1 & Hst1 & Hm1). unfold exec_stack.
  replace (u32 (top + PGSIZE - 2 * PGSIZE)) with (top - PGSIZE) by (destruct HP; unfold KERNBASE, PGSIZE in *; rewrite u32_small; lia).
  rewrite (bind_ret _ _ _ _ _ E1). set (s1 := set_memory m1 s).
  assert (Hv1 : vector_at m1 argv args).
  { apply (vector_same (kmem_memory s)); [done| |done]. intros a Ha. apply Hm1. intros p Hp Hin. pose proof kernel_pages as [_ Hks].
    assert (Hgp : good_page kend p) by (destruct Hp as [-> | (j & Hj & Hp)]; [apply Hfr|by eapply (wf_tables _ _ _ _ (fr_wf _ Hfr))]).
    pose proof (good_page_range kend kend_high p Hgp). destruct Ha as [Ha|Ha]; [lia|].
    assert (p <> ks) by (intros ->; by apply (fr_ks _ Hfr)). destruct HP.
    destruct (page_disjoint p ks (proj1 Hgp) (proj1 sp_good_ks0)); [done|lia..]. }
  assert (Hpu : pushed m1 (top + PGSIZE) [] []).
  { split; try done. destruct HP. unfold PGSIZE in *. split; [dlia|lia]. }
  destruct (push_args_run args [] [] (top + PGSIZE) (S (S (Z.to_nat MAXARG))) s1 Hpu Hv1 Hmax Hsh) as (m2 & E2 & Hk2 & Hp2); [lia|].
  cbn [app length] in E2, Hp2. rewrite (bind_ret _ _ _ _ _ E2). unfold main_sp. set (sp := strings_sp (top + PGSIZE) args) in *.
  assert (Hsame : forall m', kept m2 m' -> forall a, (forall p, owns (kmem_memory s) d p -> ~ (p <= a < p + PGSIZE)) ->
    ~ (f <= a < f + PGSIZE) -> ~ (ustack <= a < ustack + 4 * (MAXARG + 4)) -> load8 m' a = load8 (kmem_memory s) a).
  { intros m' Hk a Ho Hf Hu. by rewrite Hk, Hk2, Hm1. }
  destruct (Z.leb_spec top sp) as [Hfit|Hfit].
  2:{ rewrite (proj2 (Z.leb_gt top _)) by lia. exists m2. split; [done|]. split; [lia|]. by apply Hsame. }
  destruct (Hp2 Hfit) as [ps Hps]. set (argc := Z.of_nat (length args)) in *. assert (Hargc : 0 <= argc < MAXARG) by lia.
  pose proof (pu_sp _ _ _ _ Hps) as [_ Hsp]. rewrite frame_words_run. cbn [kmem_memory set_memory].
  set (s3 := set_memory (frame_words m2 sp argc) _). cbv zeta. unfold MAXARG in Hargc.
  rewrite u32_small by (destruct HP; unfold KERNBASE, PGSIZE in *; lia). replace (3 + argc + 1) with (4 + argc) by lia.
  pose proof (frame_words_pages m2 sp argc ltac:(done) (pu_pages _ _ _ _ Hps)) as Hst3.
  destruct (Z.leb_spec top (sp - (4 + argc) * 4)) as [Hok|Hno].
  - destruct (copyout_stack s3 (sp - (4 + argc) * 4) ustack ((4 + argc) * 4) Hst3) as (m4 & E4 & Hst4 & Hm4); [lia..| |].
    { destruct HP. destruct (page_disjoint f ks (proj1 sp_good0) (proj1 sp_good_ks0) sp_apart0); unfold MAXARG in *; lia. }
    rewrite (bind_ret _ _ _ _ _ E4). exists m4. split; [done|]. split.
    + intros _. pose proof (frame_copied m2 m4 sp args ps Hps ltac:(done)) as Hfc. cbv zeta in Hfc. fold argc in Hfc.
      replace (3 + argc + 1) with (4 + argc) in Hfc by lia. by apply Hfc.
    + apply Hsame. eapply only_stack_trans; [by apply (frame_words_kept m2 sp argc)|]. intros a Hf _. rewrite Hm4, decide_False; [done|].
      unfold place. lia.
  - rewrite (bind_ret _ _ _ _ _ (copyout_guard s3 (sp - (4 + argc) * 4) ustack ((4 + argc) * 4) Hst3 ltac:(unfold PGSIZE in *; lia) ltac:(lia))).
    exists (frame_words m2 sp argc). split; [done|]. split; [lia|]. apply Hsame. by apply frame_words_kept.
Qed.
End Stack.

(** ** Fetching the arguments *)

Section Fetch.
Context (usz uesp argv ustack uargv : Z) (args : list (list Z)).

(** The caller's vector and strings, all inside its memory. *)
Definition user_vector (m : memory) : Prop :=
  0 <= uargv /\ uargv + 4 * (Z.of_nat (length args) + 1) <= usz /\ vector_at m uargv args /\
  (forall i a, args !! i = Some a -> load32 m (uargv + 4 * Z.of_nat i) + Z.of_nat (length a) < usz).
Context (Husz : usz <= KERNBASE) (Hargv : KERNBASE <= argv) (Hmax : Z.of_nat (length args) < MAXARG).

Lemma fetchint_word s i : user_vector (kmem_memory s) -> (i <= length args)%nat ->
  fetchint (caller usz uesp s) (u32 (uargv + 4 * Z.of_nat i)) = Some (s32 (load32 (kmem_memory s) (uargv + 4 * Z.of_nat i))).
Proof.
  intros (H0 & H1 & _ & _) Hi. unfold fetchint, caller. cbn [u_sz u_mem]. unfold KERNBASE in *.
  rewrite (u32_small (uargv + 4 * Z.of_nat i)), (u32_small (uargv + 4 * Z.of_nat i + 4)) by lia.
  by rewrite (proj2 (Z.leb_gt usz _)), (proj2 (Z.ltb_ge usz _)) by lia.
Qed.
Lemma fetchstr_loop_found m p a : forall k n, (forall i b, (a ++ [0]) !! i = Some b -> load8 m (k + Z.of_nat i) = b) ->
  Forall (fun b => b <> 0) a -> (length a < n)%nat -> fetchstr_loop m p k n = Some (k + Z.of_nat (length a) - p).
Proof.
  induction a as [|c a IH]; intros k [|n] Hm Ha Hn; cbn [length] in Hn; try lia; cbn [fetchstr_loop].
  - pose proof (Hm O 0 eq_refl) as E. rewrite Z.add_0_r in E. rewrite E. cbn. f_equal. lia.
  - apply Forall_cons in Ha as [Hc Ha]. pose proof (Hm O c eq_refl) as E. rewrite Z.add_0_r in E.
    rewrite E, (proj2 (Z.eqb_neq c 0)), IH by (done || lia || (intros i b Hi; rewrite <- (Hm (S i) b Hi); f_equal; lia)).
    cbn [length]. f_equal. lia.
Qed.
Lemma fetchstr_found s p a : string_at (kmem_memory s) p a -> p + Z.of_nat (length a) < usz ->
  fetchstr (caller usz uesp s) p = Some (p, Z.of_nat (length a)).
Proof.
  intros (Hp & _ & Ha & Hb) Hu. unfold fetchstr, caller. cbn [u_sz u_mem]. rewrite (proj2 (Z.leb_gt usz p)) by lia.
  rewrite (fetchstr_loop_found _ p a p) by (done || lia). cbn. do 2 f_equal. lia.
Qed.

(** Writes to argv leave the caller's memory alone. *)
Lemma user_vector_argv m m' : user_vector m -> (forall a, a < KERNBASE -> load8 m' a = load8 m a) -> user_vector m'.
Proof.
  intros (H0 & H1 & [Hs Hz] & H3) Hm.
  assert (Hw : forall i, (i <= length args)%nat -> load32 m' (uargv + 4 * Z.of_nat i) = load32 m (uargv + 4 * Z.of_nat i)).
  { intros i Hi. apply load32_ext. intros x Hx. apply Hm. lia. }
  split_and!; try done; [split|].
  - intros i a Hi. pose proof (lookup_lt_Some _ _ _ Hi). rewrite Hw by lia. destruct (Hs i a Hi) as (Hp & Hk & Ha & Hb).
    split_and!; try done. intros j b Hj. rewrite <- (Hb j b Hj). apply Hm.
    apply lookup_lt_Some in Hj. rewrite length_app in Hj. cbn [length] in Hj. lia.
  - by rewrite Hw by lia.
  - intros i a Hi. pose proof (lookup_lt_Some _ _ _ Hi). rewrite Hw by lia. by apply H3.
Qed.

Lemma fetch_args_run k : forall n i s, (i + k = length args)%nat -> (k < n)%nat -> user_vector (kmem_memory s) ->
  (forall j, (j < i)%nat -> load32 (kmem_memory s) (argv + 4 * Z.of_nat j) = load32 (kmem_memory s) (uargv + 4 * Z.of_nat j)) ->
  exists m', fetch_args usz uesp argv uargv (Z.of_nat i) n s = Ret true (set_memory m' s) /\ vector_at m' argv args /\
    forall a, ~ (argv <= a < argv + 4 * MAXARG) -> load8 m' a = load8 (kmem_memory s) a.
Proof.
  induction k as [|k IH]; intros [|n] i s Hi Hn Hu Hdone; try lia; cbn [fetch_args]; (erewrite bind_ret by reflexivity);
    rewrite fetchint_word by (done || lia); cbv zeta; rewrite u32_s32, u32_small by apply load32_range;
    pose proof Hu as (H0 & H1 & [Hs Hz] & H3).
  - assert (i = length args) as -> by lia. rewrite Hz. cbn [Z.eqb]. erewrite bind_ret by reflexivity.
    set (m' := store32 (kmem_memory s) (argv + 4 * Z.of_nat (length args)) 0). exists m'.
    assert (Hm' : forall a, ~ (argv <= a < argv + 4 * MAXARG) -> load8 m' a = load8 (kmem_memory s) a).
    { intros a Ha. unfold m'. rewrite store32_lookup, decide_False by lia. done. }
    split; [done|]. split; [|done]. split; [|unfold m'; by rewrite load32_store32_eq].
    intros j a Hj. pose proof (lookup_lt_Some _ _ _ Hj). unfold m'. rewrite load32_store32_ne, Hdone by lia. fold m'.
    destruct (Hs j a Hj) as (Hp & Hpk & Ha & Hb). split_and!; try done. intros x b Hx. rewrite <- (Hb x b Hx). apply Hm'.
    apply lookup_lt_Some in Hx. rewrite length_app in Hx. cbn [length] in Hx. lia.
  - destruct (lookup_lt_is_Some_2 args i) as [a Ha]; [lia|]. pose proof (Hs i a Ha) as Hstr. pose proof (proj1 Hstr) as Hp.
    set (p := load32 (kmem_memory s) (uargv + 4 * Z.of_nat i)) in *. rewrite (proj2 (Z.eqb_neq p 0)) by lia.
    rewrite (fetchstr_found s p a Hstr) by (by apply H3). erewrite bind_ret by reflexivity.
    set (m1 := store32 (kmem_memory s) (argv + 4 * Z.of_nat i) p). set (s1 := set_memory _ s).
    assert (Hm1 : forall b, ~ (argv <= b < argv + 4 * MAXARG) -> load8 m1 b = load8 (kmem_memory s) b).
    { intros b Hb. unfold m1. rewrite store32_lookup, decide_False by lia. done. }
    assert (Hword : forall j, (j <= length args)%nat -> load32 m1 (uargv + 4 * Z.of_nat j) = load32 (kmem_memory s) (uargv + 4 * Z.of_nat j)).
    { intros j Hj. apply load32_ext. intros x Hx. apply Hm1. lia. }
    destruct (IH n (S i) s1) as (m' & E & Hv & Hm'); [lia|lia| | |].
    + apply (user_vector_argv (kmem_memory s)); [done|]. intros b Hb. apply Hm1. lia.
    + intros j Hj. cbn [s1 set_memory kmem_memory]. fold m1. rewrite Hword by lia. destruct (decide (j = i)) as [->|Hne].
      * unfold m1. rewrite load32_store32_eq. apply u32_small, load32_range.
      * unfold m1. rewrite load32_store32_ne by lia. apply Hdone. lia.
    + exists m'. replace (Z.of_nat i + 1) with (Z.of_nat (S i)) by lia. split; [exact E|]. split; [done|].
      intros b Hb. rewrite Hm' by done. by apply Hm1.
Qed.

Lemma sys_exec_args_run s path plen : user_vector (kmem_memory s) ->
  argstr (caller usz uesp s) 0 = Some (path, plen) -> argint (caller usz uesp s) 1 = Some (s32 uargv) ->
  exists m', sys_exec_args usz uesp argv s = Ret (Some path) (set_memory m' s) /\ vector_at m' argv args /\
    forall a, ~ (argv <= a < argv + 4 * MAXARG) -> load8 m' a = load8 (kmem_memory s) a.
Proof.
  intros Hu Hp Ha. unfold sys_exec_args. erewrite bind_ret by reflexivity. rewrite Hp, Ha. erewrite bind_ret by reflexivity.
  set (m1 := memset (kmem_memory s) argv 0 (4 * MAXARG)). set (s1 := set_memory _ s).
  assert (Hm1 : forall b, ~ (argv <= b < argv + 4 * MAXARG) -> load8 m1 b = load8 (kmem_memory s) b).
  { intros b Hb. unfold m1. rewrite memset_spec, decide_False by (done || lia). done. }
  destruct Hu as (H0 & H1 & H2). rewrite u32_s32, (u32_small uargv) by (unfold KERNBASE in *; lia).
  destruct (fetch_args_run (length args) (Z.to_nat MAXARG) O s1) as (m' & E & Hv & Hm'); [lia|lia| |lia|].
  { apply (user_vector_argv (kmem_memory s)); [done|]. intros b Hb. apply Hm1. lia. }
  change (Z.of_nat 0) with 0 in E. rewrite (bind_ret _ _ _ _ _ E). exists m'. split; [done|]. split; [done|].
  intros b Hb. rewrite Hm' by done. by apply Hm1.
Qed.
End Fetch.

(** The scan ends at the part of the path after its last slash. *)
Lemma base_name_spec m a : forall last s n, Forall (fun b => b <> 0) a ->
  (forall i b, (a ++ [0]) !! i = Some b -> load8 m (s + Z.of_nat i) = b) -> (length a < n)%nat ->
  exists k, base_name m last s n = Some (if bool_decide (47 ∈ a) then s + Z.of_nat k else last) /\
    (47 ∈ a -> exists j, k = S j /\ a !! j = Some 47 /\ 47 ∉ drop k a).
Proof.
  induction a as [|c a IH]; intros last s [|n] Ha Hm Hn; cbn [length] in Hn; try lia; cbn [base_name].
  - pose proof (Hm O 0 eq_refl) as E. rewrite Z.add_0_r in E. rewrite E. exists O. split; [done|]. intros Hin. by apply not_elem_of_nil in Hin.
  - apply Forall_cons in Ha as [Hc Ha]. pose proof (Hm O c eq_refl) as E. rewrite Z.add_0_r in E. rewrite E, (proj2 (Z.eqb_neq c 0)) by done.
    destruct (IH (if c =? 47 then s + 1 else last) (s + 1) n Ha) as (k & -> & Hk); [|lia|].
    { intros i b Hi. rewrite <- (Hm (S i) b Hi). f_equal. lia. }
    destruct (decide (47 ∈ a)) as [Hin|Hin].
    + rewrite !bool_decide_eq_true_2 by set_solver. exists (S k). split; [f_equal; lia|]. intros _.
      destruct (Hk Hin) as (j & -> & Hj & Hd). by exists (S j).
    + rewrite (bool_decide_eq_false_2 (47 ∈ a)) by done. destruct (Z.eqb_spec c 47) as [->|Hne].
      * rewrite bool_decide_eq_true_2 by set_solver. exists 1%nat. split; [done|]. intros _. exists O. done.
      * rewrite bool_decide_eq_false_2 by set_solver. exists O. split; [done|]. set_solver.
Qed.

(** C10: the strings a program passes to exec are the arguments the new program's main starts
    with. When sys_exec has collected the caller's vector (fewer than MAXARG strings), and the
    new address space has its two top pages: if the strings and main's frame fit in the stack
    page, exec leaves there argc, argv, a pointer to a copy of each string and the null pointer,
    with sp at main's frame; if they do not fit, and none of the strings is longer than a page
    less 8 bytes, exec goes to bad. In both cases no byte changes but in the stack page, in
    ustack and in the new page tables. Nothing is claimed for a longer string: copyout fills the
    program's pages below the guard page before it fails there. [slen] is strlen's fuel. *)
Theorem exec_passes_arguments kend d top f ks argv ustack l slen usz uesp uargv args path plen s :
  KERNBASE < kend -> stack_place kend top f ks argv ustack -> usz <= KERNBASE ->
  Z.of_nat (length args) < MAXARG -> Forall (fun a => length a < slen)%nat args ->
  user_vector usz uargv args (kmem_memory s) ->
  argstr (caller usz uesp s) 0 = Some (path, plen) -> argint (caller usz uesp s) 1 = Some (s32 uargv) ->
  exists m1, sys_exec_args usz uesp argv s = Ret (Some path) (set_memory m1 s) /\
    (forall a, ~ (argv <= a < argv + 4 * MAXARG) -> load8 m1 a = load8 (kmem_memory s) a) /\
    forall s2, (forall a, a < KERNBASE \/ argv <= a < argv + 4 * MAXARG -> load8 (kmem_memory s2) a = load8 m1 a) ->
      fresh kend d top f ks l (kmem_memory s2) ->
      let sp := main_sp (top + PGSIZE) args in
      let rest_same m' := forall a, (forall p, owns (kmem_memory s2) d p -> ~ (p <= a < p + PGSIZE)) ->
          ~ (f <= a < f + PGSIZE) -> ~ (ustack <= a < ustack + 4 * (MAXARG + 4)) -> load8 m' a = load8 (kmem_memory s2) a in
      (top <= sp -> exists m', exec_stack argv ustack slen d (top + PGSIZE) s2 = Ret (Some sp) (set_memory m' s2) /\
         main_frame m' d sp args /\ rest_same m') /\
      (sp < top -> Forall (fun a => Z.of_nat (length a) <= PGSIZE - 8) args ->
       exists m', exec_stack argv ustack slen d (top + PGSIZE) s2 = Ret None (set_memory m' s2) /\ rest_same m').
Proof.
  intros Hk HP Husz Hmax Hlen Hu Hpath Hvec.
  assert (Hargv : KERNBASE <= argv) by (pose proof (kernel_pages kend Hk top f ks argv ustack HP); destruct HP; lia).
  destruct (sys_exec_args_run usz uesp argv uargv args Husz Hargv Hmax s path plen Hu Hpath Hvec) as (m1 & E & Hv & Hm1).
  exists m1. split; [done|]. split; [done|]. intros s2 Hs2 Hfr. cbv zeta.
  assert (Hv2 : vector_at (kmem_memory s2) argv args) by by apply (vector_same argv m1).
  pose proof (exec_stack_run kend Hk d top f ks argv ustack l slen HP args s2 Hfr Hv2 Hmax) as Hrun. split.
  - intros Hfit. destruct (Hrun (fits_short top slen args Hfit Hlen)) as (m' & E' & Hf & Hm').
    rewrite (proj2 (Z.leb_le _ _)) in E' by done. exists m'. auto.
  - intros Hno Hpg. destruct Hrun as (m' & E' & _ & Hm').
    { apply Forall_forall. intros a Ha. split; [|by apply (proj1 (Forall_forall _ _) Hlen)].
      pose proof (proj1 (Forall_forall _ _) Hpg a Ha) as Hle. simpl in Hle. lia. }
    rewrite (proj2 (Z.leb_gt _ _)) in E' by done. exists m'. auto.
Qed.

(** ** A caller and a new address space

    The caller has [uargv] at 0x100 and two strings; the new directory has one table with the
    pages at 0 and PGSIZE. *)

Definition poke (ws : list (Z * Z)) : memory := fold_right (fun w m => store32 m w.1 w.2) (fun _ => 0) ws.
Fixpoint word_in (ws : list (Z * Z)) (a : Z) : Z :=
  match ws with [] => 0 | (b, v) :: ws => if decide (b = a) then u32 v else word_in ws a end.

Lemma poke_words ws a : Forall (fun w => w.1 mod 4 = 0) ws -> a mod 4 = 0 -> load32 (poke ws) a = word_in ws a.
Proof.
  intros Hws Ha. induction ws as [|[b v] ws IH]; [done|]. apply Forall_cons in Hws as [Hb Hws]. cbn [poke fold_right word_in fst snd] in *.
  case_decide as E; [subst; apply load32_store32_eq|]. rewrite load32_store32_ne by dlia. by apply IH.
Qed.

Definition new_pgdir : Z := 0x80302000.
Definition new_frame : Z := 0x80305000.
Definition kernel_stack : Z := 0x80306000.
Definition exec_words : list (Z * Z) :=
  [(new_pgdir, 0x303007); (0x80303000, 0x304007); (0x80303004, 0x305007);
   (0x54, 0x200); (0x58, 0x100); (0x100, 0x200); (0x104, 0x210); (0x200, 0x736c); (0x210, 0x6c2d)].
Definition exec_space : kmem := mkKmem (poke exec_words) 0 true false.
(** "ls" and "-l". *)
Definition exec_args : list (list Z) := [[108; 115]; [45; 108]].

Lemma exec_word a : a mod 4 = 0 -> load32 (poke exec_words) a = word_in exec_words a.
Proof. apply poke_words. by repeat constructor. Qed.

Lemma exec_table i : 0 <= i < NPDENTRIES -> table_at (poke exec_words) new_pgdir i = if decide (i = 0) then Some 0x80303000 else None.
Proof.
  intros Hi. unfold table_at. unfold NPDENTRIES, new_pgdir in *. rewrite exec_word by dlia. unfold exec_words, new_pgdir, word_in.
  repeat case_decide; try lia; done.
Qed.

Lemma exec_place : stack_place demo_kend PGSIZE new_frame kernel_stack kernel_stack (kernel_stack + 0x200).
Proof. by split; try (split; by vm_compute); try (by vm_compute); left. Qed.

Lemma exec_fresh : fresh demo_kend new_pgdir PGSIZE new_frame kernel_stack [] (poke exec_words).
Proof.
  assert (Ho : forall p, owns (poke exec_words) new_pgdir p -> p = 0x80302000 \/ p = 0x80303000).
  { intros p [->|(i & Hi & Hp)]; [by left|right]. rewrite exec_table in Hp by done. case_decide; [|done]. by injection Hp as <-. }
  split.
  - split; [done|apply not_elem_of_nil| |].
    + intros i t Hi. rewrite exec_table by done. case_decide; [|done]. intros [= <-]. split_and!; [done|done|apply not_elem_of_nil].
    + intros i j t Hi Hj. rewrite !exec_table by done. repeat case_decide; congruence || done.
  - by vm_compute.
  - exists 0x80303000. by vm_compute.
  - intros [?|?]%Ho; done.
  - intros [?|?]%Ho; done.
Qed.

Lemma exec_passes_arguments_witness :
  exists m1, sys_exec_args 0x1000 0x50 kernel_stack exec_space = Ret (Some 0x200) (set_memory m1 exec_space) /\
    exists m' sp, exec_stack kernel_stack (kernel_stack + 0x200) 100 new_pgdir (PGSIZE + PGSIZE) (set_memory m1 exec_space)
                    = Ret (Some sp) (set_memory m' (set_memory m1 exec_space)) /\ main_frame m' new_pgdir sp exec_args.
Proof.
  destruct (exec_passes_arguments demo_kend new_pgdir PGSIZE new_frame kernel_stack kernel_stack (kernel_stack + 0x200) [] 100
    0x1000 0x50 0x100 exec_args 0x200 2 exec_space demo_kend_high exec_place) as (m1 & E & Hm1 & H).
  - by vm_compute.
  - by vm_compute.
  - by repeat constructor; vm_compute.
  - split; [lia|]. split; [by vm_compute|]. split.
    + split; [|by vm_compute]. intros [|[|i]] a [= <-]; (split; [by vm_compute|]; split; [by vm_compute|]; split; [by repeat constructor|]);
        intros [|[|[|j]]] b [= <-]; by vm_compute.
    + intros [|[|i]] a [= <-]; by vm_compute.
  - by vm_compute.
  - by vm_compute.
  - exists m1. split; [exact E|]. destruct (H (set_memory m1 exec_space)) as [Hfit _].
    + done.
    + apply (fresh_write demo_kend _ _ _ kernel_stack kernel_stack (kernel_stack + 0x200) [] exec_place (poke exec_words)); [apply exec_fresh|].
      intros a Ha. apply Hm1. unfold MAXARG, PGSIZE in *. lia.
    + destruct Hfit as (m' & E' & Hf & _); [by vm_compute|]. exists m', (main_sp (PGSIZE + PGSIZE) exec_args). by split.
Defined.
