(* ===== verification/Frames.v ===== *)
(** * Frames: page-table lemmas for taking a frame away from a page and giving it to another

    Shared by the swapping code of [Paging]: what happens to a directory, its frames and the
    free list when one page's frame is freed, or moves to another page. *)

From S2P Require Import Prelude Memory Mmu Kalloc Vm.

(** Storing a buffer at [a]. *)
Fixpoint store_bytes (m : memory) (a : Z) (bs : list Z) : memory :=
  match bs with [] => m | b :: bs => store_bytes (store8 m a b) (a + 1) bs end.

Lemma store_bytes_lookup m a bs x :
  load8 (store_bytes m a bs) x =
    if decide (a <= x < a + Z.of_nat (length bs)) then u8 (nth (Z.to_nat (x - a)) bs 0) else load8 m x.
Proof.
  revert m a. induction bs as [|b bs IH]; intros m a; cbn [store_bytes length nth].
  { by rewrite decide_False by lia. }
  rewrite IH, load8_store8. destruct (decide (a = x)) as [<-|Hne].
  - rewrite decide_False, decide_True by lia. by rewrite Z.sub_diag.
  - repeat case_decide; try lia.
    by replace (Z.to_nat (x - a)) with (S (Z.to_nat (x - (a + 1)))) by lia.
Qed.

Section Frames.
Context (kend : Z) (kend_high : KERNBASE < kend).

(** A page-aligned address of the user half. *)
Definition user_page (a : Z) : Prop := a mod PGSIZE = 0 /\ 0 <= a < KERNBASE.

Lemma user_page_vpn a : user_page a -> vpn a = a / PGSIZE /\ vpn a * PGSIZE = a.
Proof.
  intros [Ha Hr]. unfold vpn, KERNBASE, PGSIZE in *. rewrite u32_small by lia. split; [done|dlia].
Qed.
Lemma user_page_inj a b : user_page a -> user_page b -> vpn a = vpn b -> a = b.
Proof.
  intros Ha Hb E. destruct (user_page_vpn a Ha) as [_ <-], (user_page_vpn b Hb) as [_ <-].
  by rewrite E.
Qed.
Lemma user_page_range a : user_page a -> in_range 0 KERNBASE a.
Proof. intros Ha. unfold in_range. destruct (user_page_vpn a Ha) as [_ ->]. apply Ha. Qed.
Lemma user_page_PTE_ADDR a : user_page a -> PTE_ADDR a = a.
Proof. intros [Ha Hr]. rewrite PTE_ADDR_eq. unfold KERNBASE, PGSIZE in *. rewrite u32_small by lia. dlia. Qed.

Lemma lookup_pt_vpn m d va va' : vpn va = vpn va' -> lookup_pt m d va = lookup_pt m d va'.
Proof. intros [E1 E2]%vpn_eq_iff. unfold lookup_pt. by rewrite E1, E2. Qed.
Lemma pframe_vpn m d va va' : vpn va = vpn va' -> pframe m d va = pframe m d va'.
Proof. intros E. unfold pframe. by rewrite (lookup_pt_vpn _ _ _ _ E). Qed.

(** The contents of every mapped user page whose number is not in [skip] are the same. *)
Definition same_frames (m m' : memory) (d : Z) (skip : Z -> Prop) : Prop :=
  forall va f k, in_range 0 KERNBASE va -> ~ skip (vpn va) -> pframe m d va = Some f ->
    0 <= k < PGSIZE -> load8 m' (f + k) = load8 m (f + k).

(** Freeing the frame of page [a] and overwriting its entry with a non-present one. *)
Record evicted (s : kmem) (d : Z) (l : list Z) (a f v : Z) (s' : kmem) : Prop := {
  ev_free : kmem_free kend s' (f :: l);
  ev_wf : as_wf kend (kmem_memory s') d (f :: l);
  ev_frames : frames_ok kend (kmem_memory s') d (f :: l) 0 KERNBASE;
  ev_lookup : forall va, lookup_pt (kmem_memory s') d va =
    if decide (vpn va = vpn a) then v else lookup_pt (kmem_memory s) d va;
  ev_same : same_frames (kmem_memory s) (kmem_memory s') d (eq (vpn a))
}.

Lemma frame_not_owned m d l va f t :
  frames_ok kend m d l 0 KERNBASE -> as_wf kend m d l -> in_range 0 KERNBASE va ->
  pframe m d va = Some f -> owns m d t -> good_page kend f /\ (f + PGSIZE <= t \/ t + PGSIZE <= f).
Proof.
  intros Hfo Hw Hr Hf Ht. destruct (fo_frame _ _ _ _ _ _ Hfo va f Hr Hf) as (Hg & Ho & _).
  split; [done|]. apply page_disjoint; [apply Hg|by eapply owns_aligned|]. by intros ->.
Qed.

Lemma evict_page s d l a t f v :
  kmem_free kend s l -> as_wf kend (kmem_memory s) d l ->
  frames_ok kend (kmem_memory s) d l 0 KERNBASE -> user_page a ->
  table_at (kmem_memory s) d (PDX a) = Some t -> pframe (kmem_memory s) d a = Some f ->
  0 <= v < 2 ^ 32 -> has_flag v PTE_P = false ->
  exists s', (kfree kend f;; kstore32 (t + 4 * PTX a) v) s = Ret tt s' /\ evicted s d l a f v s'.
Proof.
  intros Hf Hw Hfo Ha Ht Hfr Hv Hvp.
  pose proof (user_page_range a Ha) as Hra.
  destruct (fo_frame _ _ _ _ _ _ Hfo a f Hra Hfr) as (Hg & Ho & Hl).
  destruct (free_page_step kend kend_high s d l f Hf Hw Hg Ho Hl)
    as (s1 & Hrun & Hf1 & Hw1 & Ho1 & Hlk1 & Hm1).
  pose proof Ht as Ht1. rewrite <- (proj1 (Hlk1 a)) in Ht1.
  destruct (grows_store kend s1 d (f :: l) a t v Hf1 Hw1 Ht1) as [H1 H2 _ _ _].
  assert (Hlk : forall va, lookup_pt (store32 (kmem_memory s1) (t + 4 * PTX a) v) d va =
            if decide (vpn va = vpn a) then v else lookup_pt (kmem_memory s) d va).
  { intros va. rewrite (lookup_pt_store kend _ _ (f :: l)) by done. by rewrite (proj2 (Hlk1 va)). }
  assert (Hpf : forall va g, pframe (store32 (kmem_memory s1) (t + 4 * PTX a) v) d va = Some g ->
            vpn va <> vpn a /\ pframe (kmem_memory s) d va = Some g).
  { intros va g. unfold pframe. rewrite Hlk. case_decide; [by rewrite Hvp|done]. }
  eexists. split; [rewrite (bind_ret _ _ _ _ _ Hrun); reflexivity|]. split.
  - exact H1.
  - exact H2.
  - split; simpl.
    + intros va g Hr [Hne Hg']%Hpf. destruct (fo_frame _ _ _ _ _ _ Hfo va g Hr Hg') as (? & ? & ?).
      split_and!; [done| |].
      * rewrite (owns_store kend _ _ (f :: l)) by done. by rewrite Ho1.
      * apply not_elem_of_cons. split; [|done]. intros ->.
        apply Hne. by apply (fo_inj _ _ _ _ _ _ Hfo va a f).
    + intros va va' g Hr Hr' [_ Hg1]%Hpf [_ Hg2]%Hpf. by apply (fo_inj _ _ _ _ _ _ Hfo va va' g).
  - exact Hlk.
  - intros va g k Hr Hne Hg' Hk. simpl.
    destruct (frame_not_owned _ _ _ va g t Hfo Hw Hr Hg') as [Hgg Hgt].
    { right. exists (PDX a). split; [apply PDX_range|done]. }
    destruct (page_disjoint g f (proj1 Hgg) (proj1 Hg)).
    { intros ->. apply Hne. by apply (fo_inj _ _ _ _ _ _ Hfo a va f). }
    all: pose proof (PTX_range a); unfold NPDENTRIES, PGSIZE in *;
      rewrite store32_lookup, decide_False by lia; apply Hm1; unfold PGSIZE; lia.
Qed.

(** Page [b] gives its frame to page [a], filled with new contents. *)
Record handed_over (s : kmem) (d : Z) (l : list Z) (a b f e v : Z) (bs : list Z) (s' : kmem) : Prop := {
  ho_free : kmem_free kend s' l;
  ho_wf : as_wf kend (kmem_memory s') d l;
  ho_frames : frames_ok kend (kmem_memory s') d l 0 KERNBASE;
  ho_lookup : forall va, lookup_pt (kmem_memory s') d va =
    if decide (vpn va = vpn b) then v else if decide (vpn va = vpn a) then e
    else lookup_pt (kmem_memory s) d va;
  ho_same : same_frames (kmem_memory s) (kmem_memory s') d (eq (vpn b));
  ho_new : forall k, 0 <= k < PGSIZE -> load8 (kmem_memory s') (f + k) = u8 (nth (Z.to_nat k) bs 0)
}.

Lemma kmem_free_write s l f m :
  kmem_free kend s l -> good_page kend f -> (f ∉ l) ->
  (forall a, ~ (f <= a < f + PGSIZE) -> load8 m a = load8 (kmem_memory s) a) ->
  kmem_free kend (set_memory m s) l.
Proof.
  intros Hf Hg Hl Hm. apply kmem_free_frame; [done|]. intros q Hq. apply load32_ext.
  intros x Hx. apply Hm. destruct Hf as [_ Hgl _ _]. rewrite Forall_forall in Hgl.
  assert (q <> f) by congruence.
  destruct (page_disjoint q f (proj1 (Hgl q Hq)) (proj1 Hg) ltac:(done)); unfold PGSIZE in *; lia.
Qed.

(** The entry of a page without a frame comes to name the frame [f], which is filled. *)
Lemma fill_frame s d l a b ta f e bs :
  kmem_free kend s l -> as_wf kend (kmem_memory s) d l -> frames_ok kend (kmem_memory s) d l 0 KERNBASE ->
  user_page b -> table_at (kmem_memory s) d (PDX a) = Some ta -> pframe (kmem_memory s) d b = Some f ->
  0 <= e < 2 ^ 32 -> length bs = Z.to_nat PGSIZE ->
  let m2 := store_bytes (store32 (kmem_memory s) (ta + 4 * PTX a) e) f bs in
  kmem_free kend (set_memory m2 s) l /\ as_wf kend m2 d l /\ (forall q, owns m2 d q <-> owns (kmem_memory s) d q) /\
  (forall va, table_at m2 d (PDX va) = table_at (kmem_memory s) d (PDX va)) /\
  (forall va, lookup_pt m2 d va = if decide (vpn va = vpn a) then e else lookup_pt (kmem_memory s) d va) /\
  (forall k, 0 <= k < PGSIZE -> load8 m2 (f + k) = u8 (nth (Z.to_nat k) bs 0)) /\
  (forall q, ~ (f <= q < f + PGSIZE) -> ~ (ta <= q < ta + PGSIZE) -> load8 m2 q = load8 (kmem_memory s) q).
Proof.
  intros Hf Hw Hfo Hb Hta Hfb He Hlen. cbn zeta.
  destruct (fo_frame _ _ _ _ _ _ Hfo b f (user_page_range b Hb) Hfb) as (Hg & Ho & Hl).
  destruct (grows_store kend s d l a ta e Hf Hw Hta) as [Hf1 Hw1 _ _ _]. simpl in Hw1.
  pose proof (fun q => owns_store kend _ _ _ _ _ e q Hw Hta) as Ho1.
  pose proof (fun va => lookup_pt_store kend _ _ _ _ _ e va Hw Hta He) as Hlk1.
  pose proof (fun i => table_at_store kend _ _ _ _ _ e i Hw Hta) as Ht1.
  pose proof (changes_store (kmem_memory s) ta (PTX a) e (PTX_range a)) as Hc1.
  set (m1 := store32 (kmem_memory s) (ta + 4 * PTX a) e) in *. clearbody m1.
  assert (Hno1 : ~ owns m1 d f) by (by rewrite Ho1).
  assert (Hm2 : forall q, ~ (f <= q < f + PGSIZE) -> load8 (store_bytes m1 f bs) q = load8 m1 q).
  { intros q Hq. rewrite store_bytes_lookup, decide_False; [done|]. rewrite Hlen. unfold PGSIZE in *. lia. }
  destruct (unowned_write kend _ _ _ _ _ Hw1 (proj1 Hg) Hno1 Hm2) as (Hw2 & Ho2 & Hlk2).
  split_and!.
  - exact (kmem_free_write _ _ _ _ Hf1 Hg Hl Hm2).
  - exact Hw2.
  - intros q. by rewrite Ho2.
  - intros va. rewrite (proj1 (Hlk2 va)). apply Ht1, PDX_range.
  - intros va. by rewrite (proj2 (Hlk2 va)), Hlk1.
  - intros k Hk. rewrite store_bytes_lookup, decide_True.
    + by replace (f + k - f) with k by lia.
    + rewrite Hlen. unfold PGSIZE in *. lia.
  - intros q Hq Hqt. rewrite Hm2 by done. apply Hc1. by intros p <-.
Qed.

(** Frames stay apart when one moves from the page [b] to the page [a]. *)
Lemma frames_moved m m' d l a b f :
  frames_ok kend m d l 0 KERNBASE -> user_page b -> pframe m d b = Some f ->
  (forall va, pframe m' d va = if decide (vpn va = vpn b) then None else if decide (vpn va = vpn a) then Some f else pframe m d va) ->
  (forall q, owns m' d q <-> owns m d q) -> frames_ok kend m' d l 0 KERNBASE.
Proof.
  intros Hfo Hb Hfb Hpf Hown. pose proof (user_page_range b Hb) as Hrb.
  destruct (fo_frame _ _ _ _ _ _ Hfo b f Hrb Hfb) as (Hg & Ho & Hl). split.
  - intros va g Hr. rewrite Hpf, Hown. repeat case_decide; [done| |apply Hfo; done]. intros [= <-]. by split_and!.
  - intros va va' g Hr Hr'. rewrite !Hpf. repeat case_decide; try done; try congruence.
    + intros [= <-] Hx'. exfalso. apply (fo_inj _ _ _ _ _ _ Hfo va' b f) in Hx'; done.
    + intros Hx' [= <-]. exfalso. apply (fo_inj _ _ _ _ _ _ Hfo va b f) in Hx'; done.
    + by apply (fo_inj _ _ _ _ _ _ Hfo va va' g).
Qed.

Lemma hand_over s d l a b ta tb f e x v bs :
  kmem_free kend s l -> as_wf kend (kmem_memory s) d l ->
  frames_ok kend (kmem_memory s) d l 0 KERNBASE -> user_page a -> user_page b -> a <> b ->
  table_at (kmem_memory s) d (PDX a) = Some ta -> table_at (kmem_memory s) d (PDX b) = Some tb ->
  pframe (kmem_memory s) d a = None -> pframe (kmem_memory s) d b = Some f ->
  0 <= e < 2 ^ 32 -> (if has_flag e PTE_P then Some (P2V (PTE_ADDR e)) else None) = Some f ->
  0 <= x < 2 ^ 32 -> 0 <= v < 2 ^ 32 -> has_flag v PTE_P = false ->
  length bs = Z.to_nat PGSIZE ->
  let m1 := store32 (kmem_memory s) (ta + 4 * PTX a) e in
  let m2 := store_bytes m1 f bs in
  handed_over s d l a b f e v bs
    (set_memory (store32 (store32 m2 (tb + 4 * PTX b) x) (tb + 4 * PTX b) v) s).
Proof.
  intros Hf Hw Hfo Ha Hb Hab Hta Htb Hfa Hfb He Hef Hx Hv Hvp Hlen. cbn zeta.
  pose proof (user_page_range b Hb) as Hrb. pose proof (user_page_range a Ha) as Hra.
  assert (Hvab : vpn a <> vpn b) by (intros E; by apply Hab, user_page_inj).
  destruct (fo_frame _ _ _ _ _ _ Hfo b f Hrb Hfb) as (Hg & Ho & Hl).
  destruct (fill_frame s d l a b ta f e bs Hf Hw Hfo Hb Hta Hfb He Hlen) as (Hf2 & Hw2 & Ho2 & Ht2 & Hlk2 & Hb2 & Hm2).
  generalize dependent (store_bytes (store32 (kmem_memory s) (ta + 4 * PTX a) e) f bs). intros m2 Hf2 Hw2 Ho2 Ht2 Hlk2 Hb2 Hm2.
  (* the entry of [b] *)
  assert (Htb2 : table_at m2 d (PDX b) = Some tb).
  { by rewrite Ht2. }
  destruct (grows_store kend _ d l b tb x Hf2 Hw2 Htb2) as [Hf3 Hw3 _ _ _].
  pose proof (table_at_store kend _ _ _ _ _ x (PDX b) Hw2 Htb2 (PDX_range b)) as Htb3.
  rewrite Htb2 in Htb3.
  destruct (grows_store kend _ d l b tb v Hf3 Hw3 Htb3) as [Hf4 Hw4 _ _ _].
  cbn [kmem_memory set_memory] in *.
  set (m4 := store32 (store32 m2 _ x) _ v) in *.
  assert (Hlk4 : forall va, lookup_pt m4 d va =
            if decide (vpn va = vpn b) then v else if decide (vpn va = vpn a) then e
            else lookup_pt (kmem_memory s) d va).
  { intros va. unfold m4. rewrite (lookup_pt_store kend _ _ l), (lookup_pt_store kend _ _ l) by done.
    rewrite Hlk2. by repeat case_decide. }
  assert (Hpf4 : forall va, pframe m4 d va =
            if decide (vpn va = vpn b) then None else if decide (vpn va = vpn a) then Some f
            else pframe (kmem_memory s) d va).
  { intros va. unfold pframe. rewrite Hlk4. repeat case_decide; [by rewrite Hvp|done|done]. }
  assert (Hown4 : forall q, owns m4 d q <-> owns (kmem_memory s) d q).
  { intros q. unfold m4. rewrite (owns_store kend _ _ l) by done.
    rewrite (owns_store kend _ _ l) by done. by rewrite Ho2. }
  assert (Hta' : owns (kmem_memory s) d ta) by (right; exists (PDX a); split; [apply PDX_range|done]).
  assert (Htb' : owns (kmem_memory s) d tb) by (right; exists (PDX b); split; [apply PDX_range|done]).
  assert (Hkeep : forall g k, (g + PGSIZE <= tb \/ tb + PGSIZE <= g) -> 0 <= k < PGSIZE ->
            load8 m4 (g + k) = load8 m2 (g + k)).
  { intros g k Hgt Hk. pose proof (PTX_range b). unfold m4, NPDENTRIES, PGSIZE in *.
    by rewrite !store32_lookup, !decide_False by lia. }
  split.
  - exact Hf4.
  - exact Hw4.
  - by apply (frames_moved (kmem_memory s) m4 d l a b f).
  - exact Hlk4.
  - intros va g k Hr Hne Hg' Hk. simpl.
    destruct (frame_not_owned _ _ _ va g tb Hfo Hw Hr Hg' Htb') as [Hgg Hgt].
    destruct (frame_not_owned _ _ _ va g ta Hfo Hw Hr Hg' Hta') as [_ Hga].
    rewrite Hkeep by done. apply Hm2; [|unfold PGSIZE in *; lia].
    destruct (page_disjoint g f (proj1 Hgg) (proj1 Hg)); [|lia|lia].
    intros ->. apply Hne. by apply (fo_inj _ _ _ _ _ _ Hfo b va f).
  - intros k Hk. simpl. rewrite Hkeep; [by apply Hb2| |done].
    by apply (frame_not_owned _ _ _ b f tb Hfo Hw Hrb Hfb Htb').
Qed.
End Frames.
