(* ===== verification/Paging.v ===== *)
(** * Paging: demand paging with a FIFO queue and a swap file (offline_4)

    Models the paging code the assignment adds to vm.c ([enqueueFIFO] to [swapPageIn],
    [allocuvm]), to trap.c (the page-fault branch) and to proc.c and exec.c (initialisation,
    copy on fork, reset on exec). A resident page occupies a slot of its process; the slots of
    a process form a queue through [next] pointers. Pointers to slots are pairs (index in the
    process table, index in the slot array), so that the aliasing fork creates is visible.
    cprintf is not modelled, except that [printQueue] follows pointers that may be null. *)

From S2P Require Import Prelude Memory Mmu Kalloc Vm Frames.

Definition MAX_PSYC_PAGES : Z := 15.

(** The swap file as the paging code uses it: filewrite and fileread at an offset, and what
    it relies on (the laws hold as long as the file stays within 15 pages). *)
Class SwapIO (F : Type) : Type := {
  swap_size : F -> Z;
  swap_byte : F -> Z -> Z;
  swap_write : F -> Z -> list Z -> Z * F;
  swap_read : F -> Z -> Z -> option (list Z);
  swap_size_nonneg : forall f, 0 <= swap_size f;
  swap_write_ok : forall f off bs,
    0 <= off <= swap_size f -> off + Z.of_nat (length bs) <= MAX_PSYC_PAGES * PGSIZE ->
    fst (swap_write f off bs) = Z.of_nat (length bs) /\
    swap_size (snd (swap_write f off bs)) = Z.max (swap_size f) (off + Z.of_nat (length bs)) /\
    forall k, swap_byte (snd (swap_write f off bs)) k =
      if decide (off <= k < off + Z.of_nat (length bs))
      then u8 (nth (Z.to_nat (k - off)) bs 0) else swap_byte f k;
  swap_byte_range : forall f k, 0 <= swap_byte f k < 2 ^ 8;
  swap_read_ok : forall f off n,
    0 <= off <= swap_size f -> 0 <= n ->
    swap_read f off n = Some (map (swap_byte f) (seqZ off (Z.min n (swap_size f - off))))
}.

(** A pointer to a slot: process, slot. *)
Definition slot_ref : Type := (nat * nat).

Record pageInPhyMem : Type := mkPhy {
  phy_address : Z;
  phy_next : option slot_ref;
  phy_in_use : Z
}.
Record pageInSwapFile : Type := mkSwp {
  swp_address : Z;
  swp_in_use : Z
}.

Record pgproc (F : Type) : Type := mkPgproc {
  pid : Z;
  pgdir : Z;
  swapFile : option F;
  nPagesInPhyMemory : Z;
  nPagesInSwapFile : Z;
  pagesInPhyMem : list pageInPhyMem;
  pagesInSwapFile : list pageInSwapFile;
  head : option slot_ref
}.
Arguments mkPgproc {F}.
Arguments pid {F}.
Arguments pgdir {F}.
Arguments swapFile {F}.
Arguments nPagesInPhyMemory {F}.
Arguments nPagesInSwapFile {F}.
Arguments pagesInPhyMem {F}.
Arguments pagesInSwapFile {F}.
Arguments head {F}.

(** The memory, the process table, and the index of [myproc()]. *)
Record pgstate (F : Type) : Type := mkPgstate {
  pg_kmem : kmem;
  pg_procs : list (pgproc F);
  pg_cur : nat
}.
Arguments mkPgstate {F}.
Arguments pg_kmem {F}.
Arguments pg_procs {F}.
Arguments pg_cur {F}.

Section Paging.
Context (kend : Z) {F : Type} `{SwapIO F}.
Implicit Types s : pgstate F.
Abbreviation P := (M (pgstate F)).

Definition set_counts (np ns : Z) (p : pgproc F) : pgproc F :=
  mkPgproc (pid p) (pgdir p) (swapFile p) np ns (pagesInPhyMem p) (pagesInSwapFile p) (head p).
Definition set_phys (l : list pageInPhyMem) (p : pgproc F) : pgproc F :=
  mkPgproc (pid p) (pgdir p) (swapFile p) (nPagesInPhyMemory p) (nPagesInSwapFile p) l
    (pagesInSwapFile p) (head p).
Definition set_swaps (l : list pageInSwapFile) (p : pgproc F) : pgproc F :=
  mkPgproc (pid p) (pgdir p) (swapFile p) (nPagesInPhyMemory p) (nPagesInSwapFile p)
    (pagesInPhyMem p) l (head p).
Definition set_head (h : option slot_ref) (p : pgproc F) : pgproc F :=
  mkPgproc (pid p) (pgdir p) (swapFile p) (nPagesInPhyMemory p) (nPagesInSwapFile p)
    (pagesInPhyMem p) (pagesInSwapFile p) h.
Definition set_swapFile (f : option F) (p : pgproc F) : pgproc F :=
  mkPgproc (pid p) (pgdir p) f (nPagesInPhyMemory p) (nPagesInSwapFile p)
    (pagesInPhyMem p) (pagesInSwapFile p) (head p).

Definition set_kmem (k : kmem) (s : pgstate F) : pgstate F := mkPgstate k (pg_procs s) (pg_cur s).
Definition in_kmem {A : Type} (m : M kmem A) : P A := zoom pg_kmem set_kmem m.

Definition myproc : P (pgproc F) := fun s =>
  match pg_procs s !! pg_cur s with Some p => Ret p s | None => Fault NullDeref end.
Definition upd_proc (i : nat) (f : pgproc F -> pgproc F) : P unit :=
  modify (fun s => mkPgstate (pg_kmem s) (alter f i (pg_procs s)) (pg_cur s)).
Definition upd_cur (f : pgproc F -> pgproc F) : P unit :=
  modify (fun s => mkPgstate (pg_kmem s) (alter f (pg_cur s) (pg_procs s)) (pg_cur s)).

Definition find_slot (s : pgstate F) (r : slot_ref) : option pageInPhyMem :=
  p ← pg_procs s !! r.1; pagesInPhyMem p !! r.2.
Definition read_slot (r : slot_ref) : P pageInPhyMem := fun s =>
  match find_slot s r with Some x => Ret x s | None => Fault OutOfRange end.
Definition write_slot (r : slot_ref) (f : pageInPhyMem -> pageInPhyMem) : P unit :=
  upd_proc r.1 (fun p => set_phys (alter f r.2 (pagesInPhyMem p)) p).

Definition set_next (n : option slot_ref) (x : pageInPhyMem) : pageInPhyMem :=
  mkPhy (phy_address x) n (phy_in_use x).
Definition set_used (a u : Z) (x : pageInPhyMem) : pageInPhyMem := mkPhy a (phy_next x) u.

(** Follows [next] pointers to the slot that has none. *)
Fixpoint find_tail (r : slot_ref) (fuel : nat) : P slot_ref :=
  match fuel with
  | O => fun _ => OutOfFuel
  | S fuel =>
      x ← read_slot r;
      match phy_next x with None => ret r | Some r' => find_tail r' fuel end
  end.
(** More slots than the process table has: a longer walk is an endless one. *)
Definition walk_fuel : nat := 1000.

(** The traversal printQueue makes; the head is dereferenced without a test. *)
Definition printQueue : P unit :=
  p ← myproc;
  if (pid p =? 1) || (pid p =? 2) then ret tt
  else match head p with
       | None => fault NullDeref
       | Some r => find_tail r walk_fuel;; ret tt
       end.

Definition enqueueFIFO (addr : Z) : P unit :=
  p ← myproc;
  c ← gets pg_cur;
  match find_index (fun x => phy_in_use x =? 0) (pagesInPhyMem p) with
  | None => ret tt
  | Some i =>
      (match head p with
       | None => upd_cur (set_head (Some (c, i)));; write_slot (c, i) (set_next None)
       | Some h =>
           t ← find_tail h walk_fuel;
           write_slot t (set_next (Some (c, i)));;
           write_slot (c, i) (set_next None)
       end);;
      write_slot (c, i) (set_used addr 1);;
      upd_cur (fun p => set_counts (s32 (nPagesInPhyMemory p + 1)) (nPagesInSwapFile p) p)
  end.

Definition dequeueFIFO : P Z :=
  printQueue;;
  p ← myproc;
  match head p with
  | None => ret (u32 (-1))
  | Some h =>
      x ← read_slot h;
      write_slot h (set_used 0 0);;
      upd_cur (set_head (phy_next x));;
      printQueue;;
      ret (phy_address x)
  end.

(** The [n] bytes at [a]. *)
Definition page_bytes (m : memory) (a n : Z) : list Z := map (fun k => load8 m (a + k)) (seqZ 0 n).

Definition writeToSwapFile (i : nat) (bs : list Z) (off : Z) : P Z := fun s =>
  match pg_procs s !! i with
  | None => Fault NullDeref
  | Some p =>
      match swapFile p with
      | None => Fault NullDeref
      | Some f =>
          let '(r, f') := swap_write f off bs in
          (upd_proc i (set_swapFile (Some f'));; ret r) s
      end
  end.
(** The bytes read; [None] is the result -1. *)
Definition readFromSwapFile (i : nat) (off n : Z) : P (option (list Z)) := fun s =>
  match pg_procs s !! i with
  | None => Fault NullDeref
  | Some p =>
      match swapFile p with
      | None => Fault NullDeref
      | Some f => Ret (swap_read f off n) s
      end
  end.

(** walkpgdir without allocation, and the entry it points to; the pointer is dereferenced
    without a test. *)
Definition walk_pte (d va : Z) : P (Z * Z) :=
  pte ← in_kmem (walkpgdir d va false);
  if pte =? 0 then fault NullDeref
  else e ← in_kmem (kload32 pte); ret (pte, e).

Definition moveToSwapFile (addr : Z) : P unit :=
  p ← myproc;
  c ← gets pg_cur;
  '(pte, e) ← walk_pte (pgdir p) addr;
  panic_if (e =? 0) "moveToSwapFile::Dequeued address not in page table";;
  (match find_index (fun x => swp_in_use x =? 0) (pagesInSwapFile p) with
   | None => ret tt
   | Some i =>
       upd_cur (fun p => set_swaps (alter (fun _ => mkSwp addr 1) i (pagesInSwapFile p)) p);;
       m ← gets (fun s => kmem_memory (pg_kmem s));
       n ← writeToSwapFile c (page_bytes m (P2V (PTE_ADDR e)) PGSIZE) (Z.of_nat i * PGSIZE);
       panic_if (n =? 0) "moveToSwapFile::Swap File Writing Error"
   end);;
  '(temp, e) ← walk_pte (pgdir p) (PTE_ADDR addr);
  panic_if (e =? 0) "moveToSwapFile::Page Table Entry Not Found";;
  when (has_flag e PTE_P) (
    in_kmem (kfree kend (P2V (PTE_ADDR e));;
             kstore32 temp (Z.lor (Z.lor PTE_W PTE_U) PTE_PG)));;
  upd_cur (fun p => set_counts (s32 (nPagesInPhyMemory p - 1)) (s32 (nPagesInSwapFile p + 1)) p).

Definition swapPageOut : P unit :=
  addr ← dequeueFIFO;
  moveToSwapFile addr.

(** The local buffer of swapPageIn: zeroes, overwritten by what was read. *)
Definition read_buffer (r : option (list Z)) : list Z :=
  match r with
  | None => replicate (Z.to_nat PGSIZE) 0
  | Some bs => bs ++ replicate (Z.to_nat PGSIZE - length bs) 0
  end.

Definition swapPageIn (fault_addr : Z) : P unit :=
  p ← myproc;
  c ← gets pg_cur;
  match find_index (fun x => swp_address x =? PTE_ADDR fault_addr) (pagesInSwapFile p) with
  | None => ret tt
  | Some i =>
      addr_to_replace ← dequeueFIFO;
      '(pte_fault_page, ef) ← walk_pte (pgdir p) fault_addr;
      panic_if (ef =? 0) "swapPageIn::Fault Page Entry not found";;
      '(pte_page_to_replace, er) ← walk_pte (pgdir p) addr_to_replace;
      panic_if (er =? 0) "swapPageIn::Dequeue Page Entry not found";;
      upd_cur (fun p => set_swaps (alter (fun x => mkSwp addr_to_replace (swp_in_use x)) i
                                     (pagesInSwapFile p)) p);;
      in_kmem (kstore32 pte_fault_page (Z.lor (Z.lor (Z.lor (PTE_ADDR er) PTE_U) PTE_W) PTE_P));;
      buffer ← readFromSwapFile c (Z.of_nat i * PGSIZE) PGSIZE;
      er ← in_kmem (kload32 pte_page_to_replace);
      m ← gets (fun s => kmem_memory (pg_kmem s));
      writeToSwapFile c (page_bytes m (P2V (PTE_ADDR er)) PGSIZE) (Z.of_nat i * PGSIZE);;
      '(_, ef) ← walk_pte (pgdir p) (PTE_ADDR fault_addr);
      in_kmem (modify (fun k => set_memory
        (store_bytes (kmem_memory k) (P2V (PTE_ADDR ef)) (read_buffer buffer)) k));;
      in_kmem (kstore32 pte_page_to_replace (Z.land ef (Z.lnot PTE_P)));;
      in_kmem (kstore32 pte_page_to_replace (Z.lor (Z.lor PTE_U PTE_W) PTE_PG));;
      enqueueFIFO fault_addr
  end.

(** The page-fault branch of trap: true when the fault was served and trap returns, false
    when it falls into the branch that kills the process. *)
Definition trap_pgflt (fault_addr : Z) : P bool :=
  p ← myproc;
  pde ← in_kmem (kload32 (pgdir p + 4 * PDX fault_addr));
  if has_flag pde PTE_P then
    e ← in_kmem (kload32 (P2V (PTE_ADDR pde) + 4 * PTX fault_addr));
    if has_flag e PTE_PG then
      swapPageOut;;
      swapPageIn (PTE_ADDR fault_addr);;
      ret true
    else ret false
  else ret false.

(** Growing a process: the limit on resident pages is the current process's, whatever
    directory is grown. *)
Fixpoint allocuvm_loop (d a oldsz newsz : Z) (fuel : nat) : P Z :=
  match fuel with
  | O => fun _ => OutOfFuel
  | S fuel =>
      if negb (a <? newsz) then ret newsz
      else
        p ← myproc;
        when (MAX_PSYC_PAGES <=? nPagesInPhyMemory p) swapPageOut;;
        mem ← in_kmem kalloc;
        if mem =? 0 then in_kmem (deallocuvm kend d newsz oldsz);; ret 0
        else
          in_kmem (kmemset mem 0 PGSIZE);;
          r ← in_kmem (mappages d a PGSIZE (V2P mem) (Z.lor PTE_W PTE_U));
          if r <? 0 then
            in_kmem (deallocuvm kend d newsz oldsz);;
            in_kmem (kfree kend mem);;
            ret 0
          else
            enqueueFIFO (PTE_ADDR a);;
            allocuvm_loop d (u32 (a + PGSIZE)) oldsz newsz fuel
  end.
Definition allocuvm (d oldsz newsz : Z) : P Z :=
  if KERNBASE <=? newsz then ret 0
  else if newsz <? oldsz then ret oldsz
  else allocuvm_loop d (PGROUNDUP oldsz) oldsz newsz (S (Z.to_nat ((newsz - oldsz) / PGSIZE) + 1)).

(** The metadata of allocproc and exec: no resident page, no page in the swap file. *)
Definition cleared (p : pgproc F) : pgproc F :=
  mkPgproc (pid p) (pgdir p) (swapFile p) 0 0
    (replicate (Z.to_nat MAX_PSYC_PAGES) (mkPhy 0 None 0))
    (replicate (Z.to_nat MAX_PSYC_PAGES) (mkSwp 0 0)) None.
(** [f] is the empty file createSwapFile makes. *)
Definition allocproc_metadata (i : nat) (f : F) : P unit := fun s =>
  match pg_procs s !! i with
  | None => Fault NullDeref
  | Some p =>
      when (negb ((pid p =? 1) || (pid p =? 2)))
        (upd_proc i (set_swapFile (Some f));; upd_proc i cleared) s
  end.
Definition exec_metadata : P unit := upd_cur cleared.

(** fork: the child [np] gets the parent's counters, slots (pointers included) and swap file.
    A result of -1 is not 0, so the loop goes on with the offset one lower. *)
Fixpoint copy_swap_loop (np : nat) (offset : Z) (r : option (list Z)) (fuel : nat) : P unit :=
  match fuel with
  | O => fun _ => OutOfFuel
  | S fuel =>
      match r with
      | Some [] => ret tt
      | Some bs =>
          writeToSwapFile np bs offset;;
          c ← gets pg_cur;
          r ← readFromSwapFile c (offset + Z.of_nat (length bs)) 1024;
          copy_swap_loop np (offset + Z.of_nat (length bs)) r fuel
      | None =>
          c ← gets pg_cur;
          r ← readFromSwapFile c (offset - 1) 1024;
          copy_swap_loop np (offset - 1) r fuel
      end
  end.
Definition fork_metadata (np : nat) (fuel : nat) : P unit :=
  p ← myproc;
  c ← gets pg_cur;
  when (negb ((pid p =? 1) || (pid p =? 2))) (
    upd_proc np (fun q => mkPgproc (pid q) (pgdir q) (swapFile q)
      (nPagesInPhyMemory p) (nPagesInSwapFile p) (pagesInPhyMem p) (pagesInSwapFile p) (head p));;
    r ← readFromSwapFile c 0 1024;
    copy_swap_loop np 0 r fuel).

(** ** The abstract queue *)

(** The slots from [h] on, with their indices and addresses, when process [c] uses only its own
    slots. *)
Fixpoint queue_from (slots : list pageInPhyMem) (c : nat) (h : option slot_ref)
    (q : list (nat * Z)) : Prop :=
  match q with
  | [] => h = None
  | (j, a) :: q => h = Some (c, j) /\
      exists n, slots !! j = Some (mkPhy a n 1) /\ queue_from slots c n q
  end.

Record queue_ok (c : nat) (p : pgproc F) (q : list (nat * Z)) : Prop := {
  qo_chain : queue_from (pagesInPhyMem p) c (head p) q;
  qo_nodup : NoDup q.*1;
  qo_free : forall j x, pagesInPhyMem p !! j = Some x -> j ∉ q.*1 -> phy_in_use x = 0;
  qo_len : length (pagesInPhyMem p) = Z.to_nat MAX_PSYC_PAGES
}.

(** What queue operations leave alone. *)
Definition same_paging (p p' : pgproc F) : Prop :=
  pid p' = pid p /\ pgdir p' = pgdir p /\ swapFile p' = swapFile p /\
  nPagesInSwapFile p' = nPagesInSwapFile p /\ pagesInSwapFile p' = pagesInSwapFile p.

Definition set_cur_proc (p : pgproc F) (s : pgstate F) : pgstate F :=
  mkPgstate (pg_kmem s) (<[pg_cur s := p]> (pg_procs s)) (pg_cur s).

Lemma myproc_run s p : pg_procs s !! pg_cur s = Some p -> myproc s = Ret p s.
Proof. intros Hp. unfold myproc. by rewrite Hp. Qed.

Lemma upd_cur_run f s p :
  pg_procs s !! pg_cur s = Some p -> upd_cur f s = Ret tt (set_cur_proc (f p) s).
Proof.
  intros Hp. unfold upd_cur, modify, set_cur_proc. by rewrite (list_alter_insert _ _ _ _ Hp).
Qed.

Lemma set_cur_proc_lookup s p p' :
  pg_procs s !! pg_cur s = Some p ->
  pg_procs (set_cur_proc p' s) !! pg_cur (set_cur_proc p' s) = Some p'.
Proof. intros Hp. simpl. apply list_lookup_insert_eq. by eapply lookup_lt_Some. Qed.

Lemma set_cur_proc_twice s p p' : set_cur_proc p' (set_cur_proc p s) = set_cur_proc p' s.
Proof. unfold set_cur_proc. simpl. by rewrite list_insert_insert_eq. Qed.

Lemma read_slot_run s c p j x :
  pg_procs s !! c = Some p -> pagesInPhyMem p !! j = Some x -> read_slot (c, j) s = Ret x s.
Proof. intros Hp Hx. unfold read_slot, find_slot. simpl. rewrite Hp. simpl. by rewrite Hx. Qed.

Lemma write_slot_run s p j f :
  pg_procs s !! pg_cur s = Some p ->
  write_slot (pg_cur s, j) f s = Ret tt (set_cur_proc (set_phys (alter f j (pagesInPhyMem p)) p) s).
Proof.
  intros Hp. unfold write_slot, upd_proc, modify, set_cur_proc. simpl.
  by rewrite (list_alter_insert _ _ _ _ Hp).
Qed.

Lemma queue_from_frame slots slots' c h q :
  (forall j, j ∈ q.*1 -> slots' !! j = slots !! j) ->
  queue_from slots c h q -> queue_from slots' c h q.
Proof.
  revert h. induction q as [|[j a] q IH]; intros h Hs; [done|].
  intros (-> & n & Hn & Hq). split; [done|]. exists n. split.
  - rewrite Hs; [done|]. by left.
  - apply IH; [|done]. intros k Hk. apply Hs. by right.
Qed.

Lemma queue_length c p q : queue_ok c p q -> (length q <= Z.to_nat MAX_PSYC_PAGES)%nat.
Proof.
  intros [Hc Hn _ <-].
  assert (Hb : forall j, j ∈ q.*1 -> (j < length (pagesInPhyMem p))%nat).
  { clear Hn. revert Hc. generalize (head p). induction q as [|[j a] q IH]; intros h; [by intros _ j ?%elem_of_nil|].
    intros (_ & n & Hj & Hq) k [->|Hk]%elem_of_cons; [by eapply lookup_lt_Some|by eapply IH]. }
  rewrite <- (length_fmap fst q), <- (length_seq (length (pagesInPhyMem p)) 0).
  apply submseteq_length, NoDup_submseteq; [done|]. intros j Hj. apply elem_of_seq.
  specialize (Hb j Hj). lia.
Qed.

Lemma find_tail_run s c p j a q fuel :
  pg_procs s !! c = Some p ->
  queue_from (pagesInPhyMem p) c (Some (c, j)) ((j, a) :: q) ->
  (length q < fuel)%nat ->
  exists jl al, last ((j, a) :: q) = Some (jl, al) /\
    find_tail (c, j) fuel s = Ret (c, jl) s.
Proof.
  intros Hp. revert j a fuel. induction q as [|[k b] q IH]; intros j a fuel (_ & n & Hj & Hq) Hf;
    (destruct fuel as [|fuel]; [simpl in Hf; lia|]); cbn [find_tail];
    rewrite (bind_ret _ _ _ _ _ (read_slot_run _ _ _ _ _ Hp Hj)).
  - simpl in Hq. subst n. by exists j, a.
  - pose proof Hq as (-> & _). cbn [phy_next].
    destruct (IH k b fuel Hq) as (jl & al & Hl & Hrun); [simpl in Hf; lia|].
    by exists jl, al.
Qed.

Lemma printQueue_run s p q :
  pg_procs s !! pg_cur s = Some p -> queue_ok (pg_cur s) p q ->
  q <> [] \/ pid p = 1 \/ pid p = 2 -> printQueue s = Ret tt s.
Proof.
  intros Hp Hq Hne. unfold printQueue. rewrite (bind_ret _ _ _ _ _ (myproc_run _ _ Hp)).
  destruct ((pid p =? 1) || (pid p =? 2)) eqn:E; [done|]. to_prop.
  destruct q as [|[j a] q]; [by destruct Hne as [?|[?|?]]|]. pose proof (queue_length _ _ _ Hq) as Hlen.
  pose proof (qo_chain _ _ _ Hq) as Hc. pose proof Hc as (Hh & _). rewrite Hh in *.
  destruct (find_tail_run s _ p j a q walk_fuel Hp Hc) as (jl & al & _ & Hrun).
  { cbn [length] in Hlen. unfold walk_fuel. change (Z.to_nat MAX_PSYC_PAGES) with 15%nat in Hlen. lia. }
  by rewrite (bind_ret _ _ _ _ _ Hrun).
Qed.

Lemma dequeue_spec s p j a q :
  pg_procs s !! pg_cur s = Some p -> queue_ok (pg_cur s) p ((j, a) :: q) ->
  q <> [] \/ pid p = 1 \/ pid p = 2 ->
  exists p', dequeueFIFO s = Ret a (set_cur_proc p' s) /\ queue_ok (pg_cur s) p' q /\
    same_paging p p' /\ nPagesInPhyMemory p' = nPagesInPhyMemory p.
Proof.
  intros Hp Hq Hne. unfold dequeueFIFO.
  rewrite (bind_ret _ _ _ _ _ (printQueue_run _ _ _ Hp Hq ltac:(by left))).
  rewrite (bind_ret _ _ _ _ _ (myproc_run _ _ Hp)).
  destruct Hq as [Hc Hn Hfr Hl]. pose proof Hc as (Hh & n & Hj & Hq). rewrite Hh.
  rewrite (bind_ret _ _ _ _ _ (read_slot_run _ _ _ _ _ Hp Hj)).
  rewrite (bind_ret _ _ _ _ _ (write_slot_run _ _ _ _ Hp)).
  rewrite (bind_ret _ _ _ _ _ (upd_cur_run _ _ _ (set_cur_proc_lookup _ _ _ Hp))).
  rewrite set_cur_proc_twice. cbn [phy_next phy_address].
  set (p' := set_head n _). simpl in Hn. apply NoDup_cons in Hn as [Hni Hn].
  assert (Hq' : queue_ok (pg_cur s) p' q).
  { split; simpl.
    - eapply queue_from_frame; [|exact Hq]. intros k Hk. apply list_lookup_alter_ne. by intros ->.
    - done.
    - intros k x Hx Hk. destruct (decide (k = j)) as [->|Hkj].
      + rewrite (lookup_alter_eq_Some _ _ _ _ Hj) in Hx. by injection Hx as <-.
      + rewrite list_lookup_alter_ne in Hx by done. apply (Hfr k x Hx). simpl.
        by apply not_elem_of_cons.
    - by rewrite length_alter. }
  exists p'. split_and!; [|done|done|done].
  by rewrite (bind_ret _ _ _ _ _ (printQueue_run (set_cur_proc p' s) p' q
    (set_cur_proc_lookup _ _ _ Hp) Hq' Hne)).
Qed.

Lemma queue_from_app slots c h q j a x :
  queue_from slots c h q -> (j ∉ q.*1) -> NoDup q.*1 -> slots !! j = Some x ->
  queue_from (alter (set_used a 1) j (alter (set_next None) j
      (match last q with
       | None => slots
       | Some (k, _) => alter (set_next (Some (c, j))) k slots
       end))) c (match q with [] => Some (c, j) | _ => h end) (q ++ [(j, a)]).
Proof.
  intros Hq Hj Hn Hx.
  assert (Hend : forall (sl : list pageInPhyMem) y, sl !! j = Some y ->
            alter (set_used a 1) j (alter (set_next None) j sl) !! j = Some (mkPhy a None 1)).
  { intros sl y Hy. by erewrite lookup_alter_eq_Some by (by eapply lookup_alter_eq_Some). }
  revert h slots Hq Hx. induction q as [|[k b] q IH]; intros h slots Hq Hx.
  { simpl. split; [done|]. exists None. split; [by eapply Hend|done]. }
  destruct Hq as (-> & n & Hk & Hq). simpl in Hj, Hn.
  apply not_elem_of_cons in Hj as [Hjk Hj]. apply NoDup_cons in Hn as [Hni Hn].
  rewrite <- app_comm_cons. split; [done|].
  destruct q as [|[k2 b2] q].
  - simpl in *. subst n. exists (Some (c, j)). split.
    + rewrite !list_lookup_alter_ne by done. by erewrite lookup_alter_eq_Some by done.
    + split; [done|]. exists None. split; [|done]. eapply Hend. by rewrite list_lookup_alter_ne.
  - change (last ((k, b) :: (k2, b2) :: q)) with (last ((k2, b2) :: q)). exists n. split.
    + destruct (last ((k2, b2) :: q)) as [[kl bl]|] eqn:Hl.
      * assert (kl <> k).
        { intros ->. apply Hni. apply last_Some in Hl as [l' Hl]. rewrite Hl, fmap_app.
          apply elem_of_app. right. by left. }
        by rewrite !list_lookup_alter_ne by done.
      * by apply last_None in Hl.
    + exact (IH Hj Hn n slots Hq Hx).
Qed.

Lemma enqueue_spec s p q a :
  pg_procs s !! pg_cur s = Some p -> queue_ok (pg_cur s) p q ->
  (length q < Z.to_nat MAX_PSYC_PAGES)%nat ->
  exists j p', enqueueFIFO a s = Ret tt (set_cur_proc p' s) /\
    queue_ok (pg_cur s) p' (q ++ [(j, a)]) /\ same_paging p p' /\
    nPagesInPhyMemory p' = s32 (nPagesInPhyMemory p + 1).
Proof.
  intros Hp Hqok Hlen. pose proof Hqok as [Hc Hn Hfr Hl]. unfold enqueueFIFO.
  rewrite (bind_ret _ _ _ _ _ (myproc_run _ _ Hp)), (bind_ret _ _ _ (pg_cur s) s) by done.
  destruct (find_index _ (pagesInPhyMem p)) as [j|] eqn:Hj.
  2: { exfalso. rewrite find_index_None in Hj.
    assert (Hall : forall i, (i < length (pagesInPhyMem p))%nat -> i ∈ q.*1).
    { intros i [x Hx]%lookup_lt_is_Some. destruct (decide (i ∈ q.*1)); [done|].
      specialize (Hfr i x Hx ltac:(done)). specialize (Hj i x Hx). to_prop. done. }
    assert (length (seq 0 (length (pagesInPhyMem p))) <= length q.*1)%nat.
    { apply submseteq_length, NoDup_submseteq; [apply NoDup_seq|].
      intros i Hi%elem_of_seq. apply Hall. lia. }
    rewrite length_seq, length_fmap in *. lia. }
  apply find_index_Some in Hj as (x & Hx & Hux & _). to_prop.
  assert (Hjq : j ∉ q.*1).
  { intros Hin. clear Hn Hfr Hlen Hqok. revert Hc Hin. generalize (head p).
    induction q as [|[k b] q IH]; intros h Hq Hin; [by apply elem_of_nil in Hin|].
    destruct Hq as (_ & n & Hk & Hq). apply elem_of_cons in Hin as [E|Hin]; [|by eapply IH].
    simpl in E. subst k. rewrite Hx in Hk. by injection Hk as ->. }
  pose proof (queue_from_app _ _ _ _ j a x Hc Hjq Hn Hx) as Hnew.
  set (sl := alter (set_used a 1) j _) in Hnew.
  set (h' := match q with [] => Some (pg_cur s, j) | _ => head p end) in Hnew.
  exists j, (set_counts (s32 (nPagesInPhyMemory p + 1)) (nPagesInSwapFile p)
               (set_head h' (set_phys sl p))).
  split_and!; [| |done..].
  - destruct q as [|[k b] q].
    + simpl in Hc. rewrite Hc. rewrite bind_assoc.
      rewrite (bind_ret _ _ _ _ _ (upd_cur_run _ _ _ Hp)).
      rewrite (bind_ret _ _ _ _ _ (write_slot_run _ _ j _ (set_cur_proc_lookup _ _ _ Hp))).
      rewrite set_cur_proc_twice.
      rewrite (bind_ret _ _ _ _ _ (write_slot_run _ _ j _ (set_cur_proc_lookup _ _ _ Hp))).
      rewrite set_cur_proc_twice, (upd_cur_run _ _ _ (set_cur_proc_lookup _ _ _ Hp)).
      by rewrite set_cur_proc_twice.
    + pose proof Hc as (Hh & _). rewrite Hh in *.
      destruct (find_tail_run s _ p k b q walk_fuel Hp Hc) as (jl & al & Hlast & Hrun).
      { cbn [length] in Hlen. unfold walk_fuel. change (Z.to_nat MAX_PSYC_PAGES) with 15%nat in Hlen. lia. }
      rewrite bind_assoc, (bind_ret _ _ _ _ _ Hrun), bind_assoc.
      rewrite (bind_ret _ _ _ _ _ (write_slot_run _ _ jl _ Hp)).
      rewrite (bind_ret _ _ _ _ _ (write_slot_run _ _ j _ (set_cur_proc_lookup _ _ _ Hp))).
      rewrite set_cur_proc_twice.
      rewrite (bind_ret _ _ _ _ _ (write_slot_run _ _ j _ (set_cur_proc_lookup _ _ _ Hp))).
      rewrite set_cur_proc_twice, (upd_cur_run _ _ _ (set_cur_proc_lookup _ _ _ Hp)).
      rewrite set_cur_proc_twice. subst sl h'. rewrite Hlast. destruct p; simpl in *; by subst.
  - split; cbn [head set_counts set_head pagesInPhyMem set_phys].
    + exact Hnew.
    + rewrite fmap_app. apply NoDup_app. split_and!; [done| |apply NoDup_singleton].
      intros i Hi ->%list_elem_of_singleton. done.
    + intros i y Hy Hi. rewrite fmap_app, not_elem_of_app in Hi. destruct Hi as [Hi1 Hi2].
      assert (i <> j) by (intros ->; apply Hi2; by left).
      subst sl. rewrite !list_lookup_alter_ne in Hy by done.
      destruct (last q) as [[k b]|] eqn:Hlast; [|by eapply Hfr].
      rewrite list_lookup_alter_ne in Hy; [by eapply Hfr|]. intros ->. apply Hi1.
      apply last_Some in Hlast as [l' ->]. rewrite fmap_app. apply elem_of_app. right. by left.
    + subst sl. rewrite !length_alter. destruct (last q) as [[k b]|]; [by rewrite length_alter|done].
Qed.

(** ** Pages, resident and swapped *)

(** The entry of a page in the swap file. *)
Definition swapped_entry : Z := Z.lor (Z.lor PTE_W PTE_U) PTE_PG.

(** The state of the current process's memory: [l] is the free list, [q] the queue of resident
    pages, the first [k] swap slots are in use and the swap file [f] covers them. *)
Record paged (s : pgstate F) (p : pgproc F) (f : F) (l : list Z) (q : list (nat * Z)) (k : nat) :
    Prop := {
  pd_cur : pg_procs s !! pg_cur s = Some p;
  pd_queue : queue_ok (pg_cur s) p q;
  pd_free : kmem_free kend (pg_kmem s) l;
  pd_wf : as_wf kend (kmem_memory (pg_kmem s)) (pgdir p) l;
  pd_frames : frames_ok kend (kmem_memory (pg_kmem s)) (pgdir p) l 0 KERNBASE;
  pd_file : swapFile p = Some f;
  pd_len : length (pagesInSwapFile p) = Z.to_nat MAX_PSYC_PAGES;
  pd_used : forall i x, pagesInSwapFile p !! i = Some x ->
    if decide (i < k)%nat then swp_in_use x = 1 else x = mkSwp 0 0;
  pd_size : Z.of_nat k * PGSIZE <= swap_size f;
  pd_resident : forall j a, (j, a) ∈ q -> user_page a /\
    has_flag (lookup_pt (kmem_memory (pg_kmem s)) (pgdir p) a) PTE_P = true;
  pd_resident_nodup : NoDup q.*2;
  pd_swapped : forall i x, (i < k)%nat -> pagesInSwapFile p !! i = Some x ->
    user_page (swp_address x) /\
    lookup_pt (kmem_memory (pg_kmem s)) (pgdir p) (swp_address x) = swapped_entry;
  pd_swapped_inj : forall i j x y, (i < k)%nat -> (j < k)%nat ->
    pagesInSwapFile p !! i = Some x -> pagesInSwapFile p !! j = Some y ->
    swp_address x = swp_address y -> i = j;
  pd_slot : forall a, user_page a ->
    has_flag (lookup_pt (kmem_memory (pg_kmem s)) (pgdir p) a) PTE_P = false ->
    has_flag (lookup_pt (kmem_memory (pg_kmem s)) (pgdir p) a) PTE_PG = true ->
    exists i x, (i < k)%nat /\ pagesInSwapFile p !! i = Some x /\ swp_address x = a
}.

(** Byte [b] of user page [a], wherever the page is. *)
Definition content (m : memory) (p : pgproc F) (f : F) (a b : Z) : option Z :=
  let e := lookup_pt m (pgdir p) a in
  if has_flag e PTE_P then Some (load8 m (P2V (PTE_ADDR e) + b))
  else if has_flag e PTE_PG then
    i ← find_index (fun x => swp_address x =? a) (pagesInSwapFile p);
    Some (swap_byte f (Z.of_nat i * PGSIZE + b))
  else None.

Lemma page_bytes_length m a n : 0 <= n -> length (page_bytes m a n) = Z.to_nat n.
Proof. intros Hn. unfold page_bytes. by rewrite length_map, length_seqZ. Qed.

Lemma nth_map_seqZ (g : Z -> Z) n k : 0 <= k < n -> nth (Z.to_nat k) (map g (seqZ 0 n)) 0 = g k.
Proof.
  intros Hk. apply nth_lookup_Some. rewrite list_lookup_fmap, lookup_seqZ_lt by lia.
  simpl. f_equal. f_equal. lia.
Qed.

Lemma nth_page_bytes m a n k : 0 <= k < n -> nth (Z.to_nat k) (page_bytes m a n) 0 = load8 m (a + k).
Proof. apply (nth_map_seqZ (fun k => load8 m (a + k))). Qed.

Lemma in_kmem_run {A : Type} (m : M kmem A) s a k :
  m (pg_kmem s) = Ret a k -> in_kmem m s = Ret a (set_kmem k s).
Proof. intros E. unfold in_kmem, zoom. by rewrite E. Qed.

Lemma set_kmem_same s : set_kmem (pg_kmem s) s = s.
Proof. by destruct s. Qed.

Lemma walk_pte_run s d l va t :
  as_wf kend (kmem_memory (pg_kmem s)) d l -> KERNBASE < kend ->
  table_at (kmem_memory (pg_kmem s)) d (PDX va) = Some t ->
  walk_pte d va s = Ret (t + 4 * PTX va, lookup_pt (kmem_memory (pg_kmem s)) d va) s.
Proof.
  intros Hw Hk Ht. unfold walk_pte.
  rewrite (bind_ret _ _ _ _ _ (in_kmem_run _ _ _ _ (walkpgdir_present _ _ _ _ false Ht))).
  rewrite set_kmem_same, (pte_nonzero kend Hk _ _ _ _ _ Hw Ht).
  rewrite (bind_ret _ _ s (lookup_pt (kmem_memory (pg_kmem s)) d va) s); [done|].
  unfold in_kmem, zoom, kload32, gets, lookup_pt. by rewrite Ht, set_kmem_same.
Qed.

Lemma lookup_table m d va : lookup_pt m d va <> 0 -> exists t, table_at m d (PDX va) = Some t.
Proof. unfold lookup_pt. destruct (table_at m d (PDX va)) as [t|]; [by exists t|done]. Qed.

Lemma has_flag_nonzero e fl : has_flag e fl = true -> e <> 0.
Proof. by intros Hfl ->. Qed.

Lemma writeToSwapFile_run s p f bs off :
  pg_procs s !! pg_cur s = Some p -> swapFile p = Some f ->
  writeToSwapFile (pg_cur s) bs off s =
    Ret (fst (swap_write f off bs))
        (set_cur_proc (set_swapFile (Some (snd (swap_write f off bs))) p) s).
Proof.
  intros Hp Hf. unfold writeToSwapFile. rewrite Hp, Hf. destruct (swap_write f off bs) as [r f'].
  unfold upd_proc. unfold mbind, M_bind, modify, ret. simpl. unfold set_cur_proc.
  by rewrite (list_alter_insert _ _ _ _ Hp).
Qed.

Lemma find_free_swap s p f l q k :
  paged s p f l q k -> (k < Z.to_nat MAX_PSYC_PAGES)%nat ->
  find_index (fun x => swp_in_use x =? 0) (pagesInSwapFile p) = Some k.
Proof.
  intros Hpd Hk. apply find_index_Some.
  destruct (lookup_lt_is_Some_2 (pagesInSwapFile p) k) as [x Hx]; [by rewrite (pd_len _ _ _ _ _ _ Hpd)|].
  exists x. split_and!; [done| |].
  - pose proof (pd_used _ _ _ _ _ _ Hpd k x Hx) as Hu. rewrite decide_False in Hu by lia. by subst.
  - intros j y Hj Hy. pose proof (pd_used _ _ _ _ _ _ Hpd j y Hy) as Hu.
    rewrite decide_True in Hu by lia. by rewrite Hu.
Qed.

Lemma find_swapped s p f l q k i x :
  paged s p f l q k -> (i < k)%nat -> pagesInSwapFile p !! i = Some x ->
  find_index (fun y => swp_address y =? swp_address x) (pagesInSwapFile p) = Some i.
Proof.
  intros Hpd Hi Hx. apply find_index_Some. exists x. split_and!; [done|by apply Z.eqb_eq|].
  intros j y Hj Hy. apply Z.eqb_neq. intros E.
  assert (j = i) by (eapply (pd_swapped_inj _ _ _ _ _ _ Hpd j i y x); (done || lia)). lia.
Qed.

Hypothesis kend_high : KERNBASE < kend.

(** The user sees the same bytes. *)
Definition same_contents (s : pgstate F) (p : pgproc F) (f : F) (s' : pgstate F) (p' : pgproc F)
    (f' : F) : Prop :=
  forall a b, user_page a -> 0 <= b < PGSIZE ->
    content (kmem_memory (pg_kmem s')) p' f' a b = content (kmem_memory (pg_kmem s)) p f a b.

Lemma content_swapped s p f l q k i x b :
  paged s p f l q k -> (i < k)%nat -> pagesInSwapFile p !! i = Some x ->
  content (kmem_memory (pg_kmem s)) p f (swp_address x) b = Some (swap_byte f (Z.of_nat i * PGSIZE + b)).
Proof.
  intros Hpd Hi Hx. destruct (pd_swapped _ _ _ _ _ _ Hpd i x Hi Hx) as [_ He].
  unfold content. rewrite He. change (has_flag swapped_entry PTE_P) with false.
  change (has_flag swapped_entry PTE_PG) with true. cbn match.
  by rewrite (find_swapped _ _ _ _ _ _ _ _ Hpd Hi Hx).
Qed.

Lemma content_present m p f a b fr :
  pframe m (pgdir p) a = Some fr -> content m p f a b = Some (load8 m (fr + b)).
Proof. unfold pframe, content. destruct (has_flag _ PTE_P); [|done]. by intros [= <-]. Qed.

(** Two states agree on the contents if they agree page by page: both present with the same
    bytes, both swapped with the same bytes, or neither. *)
Lemma content_other m p f a b :
  has_flag (lookup_pt m (pgdir p) a) PTE_P = false ->
  has_flag (lookup_pt m (pgdir p) a) PTE_PG = false -> content m p f a b = None.
Proof. intros H1 H2. unfold content. by rewrite H1, H2. Qed.

Lemma write_swap_page f k bs :
  Z.of_nat k * PGSIZE <= swap_size f -> (k < Z.to_nat MAX_PSYC_PAGES)%nat ->
  length bs = Z.to_nat PGSIZE ->
  let r := swap_write f (Z.of_nat k * PGSIZE) bs in
  fst r = PGSIZE /\
  swap_size (snd r) = Z.max (swap_size f) (Z.of_nat k * PGSIZE + PGSIZE) /\
  (forall b, 0 <= b < PGSIZE -> swap_byte (snd r) (Z.of_nat k * PGSIZE + b) = u8 (nth (Z.to_nat b) bs 0)) /\
  (forall i b, i <> k -> 0 <= b < PGSIZE ->
     swap_byte (snd r) (Z.of_nat i * PGSIZE + b) = swap_byte f (Z.of_nat i * PGSIZE + b)).
Proof.
  intros Hsz Hk Hl. cbn zeta.
  destruct (swap_write_ok f (Z.of_nat k * PGSIZE) bs) as (H1 & H2 & H3).
  - unfold PGSIZE in *; lia.
  - rewrite Hl. unfold MAX_PSYC_PAGES, PGSIZE in *. lia.
  - rewrite Hl in *. rewrite Z2Nat.id in * by done. split_and!; [done|done| |].
    + intros b Hb. rewrite H3, decide_True by (unfold PGSIZE in *; lia).
      by replace (_ + b - _) with b by lia.
    + intros i b Hi Hb. rewrite H3, decide_False; [done|]. unfold PGSIZE in *. lia.
Qed.

(** The metadata after page [a] went to swap slot [k]. *)
Definition moved_proc (p : pgproc F) (f' : F) (k : nat) (a : Z) : pgproc F :=
  let p1 := set_swapFile (Some f') (set_swaps (alter (fun _ => mkSwp a 1) k (pagesInSwapFile p)) p) in
  set_counts (s32 (nPagesInPhyMemory p - 1)) (s32 (nPagesInSwapFile p + 1)) p1.

Lemma moved_swaps s p f l q k a f' i x :
  paged s p f l q k -> pagesInSwapFile (moved_proc p f' k a) !! i = Some x ->
  (i = k /\ x = mkSwp a 1) \/ (i <> k /\ pagesInSwapFile p !! i = Some x).
Proof.
  intros Hpd. simpl. destruct (decide (i = k)) as [->|Hne].
  - intros Hx. left. split; [done|]. destruct (pagesInSwapFile p !! k) as [y|] eqn:Hy.
    + erewrite lookup_alter_eq_Some in Hx by done. by injection Hx.
    + apply lookup_ge_None in Hy. apply lookup_lt_Some in Hx. rewrite length_alter in Hx. lia.
  - rewrite list_lookup_alter_ne by done. by right.
Qed.

Lemma moved_paged s p f l q k a fr f' s' :
  paged s p f l q k -> (k < Z.to_nat MAX_PSYC_PAGES)%nat -> user_page a -> a ∉ q.*2 ->
  Z.of_nat (S k) * PGSIZE <= swap_size f' ->
  pframe (kmem_memory (pg_kmem s)) (pgdir p) a = Some fr ->
  evicted kend (pg_kmem s) (pgdir p) l a fr swapped_entry (pg_kmem s') ->
  pg_cur s' = pg_cur s -> pg_procs s' !! pg_cur s = Some (moved_proc p f' k a) ->
  paged s' (moved_proc p f' k a) f' (fr :: l) q (S k).
Proof.
  intros Hpd Hk Ha Haq Hsz Hfr [H1 H2 H3 H4 _] Hcur Hp.
  pose proof (moved_swaps s p f l q k a f') as Hsw.
  assert (Hak : forall b, user_page b -> vpn b = vpn a -> b = a).
  { intros b Hb E. by apply user_page_inj. }
  pose proof Hpd as [_ Hq _ _ _ _ Hlen Hused _ Hres Hnd Hswp Hinj Hslot].
  assert (Hap : has_flag (lookup_pt (kmem_memory (pg_kmem s)) (pgdir p) a) PTE_P = true).
  { unfold pframe in Hfr. by destruct (has_flag _ _). }
  split; try rewrite Hcur; try done.
  - by destruct Hq; split.
  - simpl. by rewrite length_alter.
  - intros i x Hx. destruct (Hsw i x Hpd Hx) as [[-> ->]|[Hne Hx']].
    + by rewrite decide_True by lia.
    + specialize (Hused i x Hx'). repeat case_decide; (done || lia).
  - intros j b Hin. destruct (Hres j b Hin) as [Hb Hbp]. split; [done|]. simpl. rewrite H4.
    rewrite decide_False; [done|]. intros E. apply Haq. rewrite <- (Hak b Hb E).
    apply list_elem_of_fmap. by exists (j, b).
  - intros i x Hi Hx. simpl. rewrite H4. destruct (Hsw i x Hpd Hx) as [[-> ->]|[Hne Hx']].
    + by rewrite decide_True.
    + destruct (Hswp i x ltac:(lia) Hx') as [Hb He]. split; [done|].
      rewrite decide_False; [done|]. intros E. rewrite (Hak _ Hb E) in He. rewrite He in Hap. done.
  - intros i j x y Hi Hj Hx Hy E.
    destruct (Hsw i x Hpd Hx) as [[-> ->]|[Hni Hx']], (Hsw j y Hpd Hy) as [[-> ->]|[Hnj Hy']];
      [done| | |].
    + exfalso. simpl in E. destruct (Hswp j y ltac:(lia) Hy') as [_ He]. rewrite <- E in He.
      by rewrite He in Hap.
    + exfalso. simpl in E. destruct (Hswp i x ltac:(lia) Hx') as [_ He]. rewrite E in He.
      by rewrite He in Hap.
    + eapply (Hinj i j x y); (done || lia).
  - intros b Hb. simpl. rewrite H4. case_decide as E.
    + intros _ _. exists k. destruct (lookup_lt_is_Some_2 (pagesInSwapFile p) k) as [y Hy];
        [by rewrite Hlen|]. exists (mkSwp a 1). split_and!; [lia| |by rewrite (Hak b Hb E)].
      by erewrite lookup_alter_eq_Some by done.
    + intros Hb1 Hb2. destruct (Hslot b Hb Hb1 Hb2) as (i & x & Hi & Hx & Hxb).
      exists i, x. split_and!; [lia| |done]. simpl. by rewrite list_lookup_alter_ne by lia.
Qed.

Lemma moved_contents s p f l q k a fr s' :
  let r := swap_write f (Z.of_nat k * PGSIZE)
             (page_bytes (kmem_memory (pg_kmem s)) fr PGSIZE) in
  paged s p f l q k -> (k < Z.to_nat MAX_PSYC_PAGES)%nat -> user_page a ->
  pframe (kmem_memory (pg_kmem s)) (pgdir p) a = Some fr ->
  evicted kend (pg_kmem s) (pgdir p) l a fr swapped_entry (pg_kmem s') ->
  paged s' (moved_proc p (snd r) k a) (snd r) (fr :: l) q (S k) ->
  same_contents s p f s' (moved_proc p (snd r) k a) (snd r).
Proof.
  cbn zeta. intros Hpd Hk Ha Hfr [_ _ _ H4 H5] Hpd' b o Hb Ho.
  destruct (write_swap_page f k (page_bytes (kmem_memory (pg_kmem s)) fr PGSIZE)
    (pd_size _ _ _ _ _ _ Hpd) Hk) as (_ & _ & Hnew & Hold); [by apply page_bytes_length|].
  set (f' := snd _) in *.
  destruct (decide (b = a)) as [->|Hba].
  - destruct (lookup_lt_is_Some_2 (pagesInSwapFile p) k) as [y Hy];
      [by rewrite (pd_len _ _ _ _ _ _ Hpd)|].
    rewrite (content_present _ _ _ _ _ _ Hfr).
    pose proof (content_swapped s' _ f' _ _ _ k (mkSwp a 1) o Hpd' ltac:(lia)) as Hc.
    simpl in Hc. rewrite Hc by (by erewrite lookup_alter_eq_Some by done).
    rewrite Hnew, nth_page_bytes by done. by rewrite u8_small by apply load8_range.
  - assert (Hv : vpn b <> vpn a) by (intros E; by apply Hba, user_page_inj).
    pose proof (H4 b) as Hlb. rewrite decide_False in Hlb by done.
    destruct (has_flag (lookup_pt (kmem_memory (pg_kmem s)) (pgdir p) b) PTE_P) eqn:Hbp.
    + assert (Hfb : pframe (kmem_memory (pg_kmem s)) (pgdir p) b =
                Some (P2V (PTE_ADDR (lookup_pt (kmem_memory (pg_kmem s)) (pgdir p) b))))
        by (unfold pframe; by rewrite Hbp).
      rewrite (content_present _ p f b o _ Hfb).
      rewrite (content_present _ (moved_proc p f' k a) f' b o
        (P2V (PTE_ADDR (lookup_pt (kmem_memory (pg_kmem s)) (pgdir p) b))));
        [|unfold pframe; simpl; by rewrite Hlb, Hbp].
      f_equal. apply (H5 b); [by apply user_page_range|done|done|done].
    + destruct (has_flag (lookup_pt (kmem_memory (pg_kmem s)) (pgdir p) b) PTE_PG) eqn:Hbg.
      2: { rewrite !content_other; simpl; rewrite ?Hlb; done. }
      destruct (pd_slot _ _ _ _ _ _ Hpd b Hb Hbp Hbg) as (i & x & Hi & Hx & <-).
      rewrite (content_swapped _ _ _ _ _ _ i x o Hpd Hi Hx).
      rewrite (content_swapped _ _ _ _ _ _ i x o Hpd' ltac:(lia)).
      * f_equal. apply Hold; [lia|done].
      * simpl. by rewrite list_lookup_alter_ne by lia.
Qed.

Lemma moveToSwapFile_spec s p f l q k a fr :
  paged s p f l q k -> (k < Z.to_nat MAX_PSYC_PAGES)%nat -> user_page a -> a ∉ q.*2 ->
  pframe (kmem_memory (pg_kmem s)) (pgdir p) a = Some fr ->
  exists s' f', moveToSwapFile a s = Ret tt s' /\ pg_cur s' = pg_cur s /\
    paged s' (moved_proc p f' k a) f' (fr :: l) q (S k) /\
    same_contents s p f s' (moved_proc p f' k a) f'.
Proof.
  intros Hpd Hk Ha Haq Hfr. unfold moveToSwapFile.
  pose proof Hpd as [Hp _ Hfree Hw Hfo Hfile Hlen _ Hsize _ _ _ _ _].
  set (m := kmem_memory (pg_kmem s)) in *.
  assert (He : has_flag (lookup_pt m (pgdir p) a) PTE_P = true /\
               P2V (PTE_ADDR (lookup_pt m (pgdir p) a)) = fr).
  { unfold pframe in Hfr. destruct (has_flag _ _); [|done]. by injection Hfr. }
  destruct He as [Hep Hefr]. pose proof (has_flag_nonzero _ _ Hep) as Hnz.
  destruct (lookup_table _ _ _ Hnz) as [t Ht].
  rewrite (bind_ret _ _ _ _ _ (myproc_run _ _ Hp)), (bind_ret _ _ _ (pg_cur s) s) by done.
  rewrite (bind_ret _ _ _ _ _ (walk_pte_run _ _ _ _ _ Hw kend_high Ht)).
  fold m. rewrite (proj2 (Z.eqb_neq _ _) Hnz). cbn [panic_if].
  rewrite (bind_ret _ _ s tt s) by done. rewrite (find_free_swap _ _ _ _ _ _ Hpd Hk), bind_assoc.
  rewrite (bind_ret _ _ _ _ _ (upd_cur_run _ _ _ Hp)).
  set (p1 := set_swaps _ p). rewrite bind_assoc.
  rewrite (bind_ret _ _ _ m (set_cur_proc p1 s)) by done. rewrite bind_assoc, Hefr.
  pose proof (set_cur_proc_lookup s p p1 Hp) as Hp1.
  rewrite (bind_ret _ _ _ _ _ (writeToSwapFile_run _ p1 f (page_bytes m fr PGSIZE)
    (Z.of_nat k * PGSIZE) Hp1 Hfile)).
  destruct (write_swap_page f k (page_bytes m fr PGSIZE) Hsize Hk) as (Hw1 & Hw2 & _);
    [by apply page_bytes_length|].
  set (r := swap_write f (Z.of_nat k * PGSIZE) (page_bytes m fr PGSIZE)) in *.
  rewrite Hw1, set_cur_proc_twice. cbn [panic_if Z.eqb]. 
  set (p2 := set_swapFile (Some (snd r)) p1). set (s2 := set_cur_proc p2 s).
  rewrite (bind_ret _ _ s2 tt s2) by done. rewrite (user_page_PTE_ADDR a Ha).
  rewrite (bind_ret _ _ s2 _ _ (walk_pte_run s2 _ _ _ _ Hw kend_high Ht)).
  change (kmem_memory (pg_kmem s2)) with m. rewrite (proj2 (Z.eqb_neq _ _) Hnz), Hep, Hefr.
  cbn [panic_if when]. rewrite (bind_ret _ _ s2 tt s2) by done.
  destruct (evict_page kend kend_high (pg_kmem s) (pgdir p) l a t fr swapped_entry)
    as (k' & Hrun & Hev); [done..|].
  rewrite (bind_ret _ _ _ _ _ (in_kmem_run _ s2 _ _ Hrun)).
  assert (Hp2 : pg_procs (set_kmem k' s2) !! pg_cur (set_kmem k' s2) = Some p2)
    by (apply (set_cur_proc_lookup s p p2 Hp)).
  rewrite (upd_cur_run _ _ _ Hp2).
  exists (set_cur_proc (moved_proc p (snd r) k a) (set_kmem k' s2)), (snd r).
  assert (Hpd' : paged (set_cur_proc (moved_proc p (snd r) k a) (set_kmem k' s2))
                   (moved_proc p (snd r) k a) (snd r) (fr :: l) q (S k)).
  { apply (moved_paged s p f l q k a fr (snd r)); try done.
    - rewrite Hw2. unfold PGSIZE in *. lia.
    - apply (set_cur_proc_lookup _ _ _ Hp2). }
  split_and!; [done|done|done|].
  by apply (moved_contents s p f l q k a fr).
Qed.

(** The metadata after page [b]'s contents replaced those of slot [i]. *)
Definition swapped_proc (p : pgproc F) (f' : F) (i : nat) (b : Z) : pgproc F :=
  set_swapFile (Some f')
    (set_swaps (alter (fun x => mkSwp b (swp_in_use x)) i (pagesInSwapFile p)) p).

Lemma swapped_swaps s p f l q k i b f' j x :
  paged s p f l q k -> (i < k)%nat -> pagesInSwapFile (swapped_proc p f' i b) !! j = Some x ->
  (j = i /\ x = mkSwp b 1) \/ (j <> i /\ pagesInSwapFile p !! j = Some x).
Proof.
  intros Hpd Hi. simpl. destruct (decide (j = i)) as [->|Hne].
  - intros Hx. left. split; [done|]. destruct (pagesInSwapFile p !! i) as [y|] eqn:Hy.
    + erewrite lookup_alter_eq_Some in Hx by done.
      pose proof (pd_used _ _ _ _ _ _ Hpd i y Hy) as Hu. rewrite decide_True in Hu by lia.
      rewrite Hu in Hx. by injection Hx.
    + apply lookup_ge_None in Hy. apply lookup_lt_Some in Hx. rewrite length_alter in Hx. lia.
  - rewrite list_lookup_alter_ne by done. by right.
Qed.

(** Page [b], just dequeued, gives its frame [fr] to page [a] of slot [i] and takes the slot. *)
Lemma swapped_paged s p f l q k a b fr i x e bs f' s' :
  paged s p f l q k -> (i < k)%nat -> pagesInSwapFile p !! i = Some x -> swp_address x = a ->
  user_page b -> b ∉ q.*2 -> pframe (kmem_memory (pg_kmem s)) (pgdir p) b = Some fr ->
  has_flag e PTE_P = true -> swap_size f <= swap_size f' ->
  handed_over kend (pg_kmem s) (pgdir p) l a b fr e swapped_entry bs (pg_kmem s') ->
  pg_cur s' = pg_cur s -> pg_procs s' !! pg_cur s = Some (swapped_proc p f' i b) ->
  paged s' (swapped_proc p f' i b) f' l q k.
Proof.
  intros Hpd Hi Hx Hxa Hb Hbq Hfr Hep Hsz [H1 H2 H3 H4 _ _] Hcur Hp.
  pose proof (fun j y => swapped_swaps s p f l q k i b f' j y Hpd Hi) as Hsw.
  destruct (pd_swapped _ _ _ _ _ _ Hpd i x Hi Hx) as [Ha Hae]. rewrite Hxa in Ha, Hae.
  pose proof Hpd as [_ Hq _ _ _ _ Hlen Hused Hsize Hres Hnd Hswp Hinj Hslot].
  assert (Hbp : has_flag (lookup_pt (kmem_memory (pg_kmem s)) (pgdir p) b) PTE_P = true).
  { unfold pframe in Hfr. by destruct (has_flag _ _). }
  assert (Hvb : forall c, user_page c -> vpn c = vpn b -> c = b) by (intros; by apply user_page_inj).
  assert (Hva : forall c, user_page c -> vpn c = vpn a -> c = a) by (intros; by apply user_page_inj).
  assert (Hnb : forall c, lookup_pt (kmem_memory (pg_kmem s)) (pgdir p) c = swapped_entry -> c <> b).
  { intros c Hc ->. by rewrite Hc in Hbp. }
  split; try rewrite Hcur; try done.
  - by destruct Hq; split.
  - simpl. by rewrite length_alter.
  - intros j y Hy. destruct (Hsw j y Hy) as [[-> ->]|[Hne Hy']].
    + by rewrite decide_True by lia.
    + by apply Hused.
  - lia.
  - intros j c Hin. destruct (Hres j c Hin) as [Hc Hcp]. split; [done|]. simpl. rewrite H4.
    rewrite decide_False; [by case_decide|]. intros E. apply Hbq. rewrite <- (Hvb c Hc E).
    apply list_elem_of_fmap. by exists (j, c).
  - intros j y Hj Hy. simpl. rewrite H4. destruct (Hsw j y Hy) as [[-> ->]|[Hne Hy']].
    + by rewrite decide_True.
    + destruct (Hswp j y Hj Hy') as [Hyu Hye]. split; [done|].
      rewrite decide_False by (intros E; by apply (Hnb _ Hye), Hvb).
      rewrite decide_False; [done|]. intros E. apply Hne. apply (Hinj j i y x Hj Hi Hy' Hx).
      rewrite Hxa. by apply Hva.
  - intros j1 j2 y1 y2 Hj1 Hj2 Hy1 Hy2 E.
    destruct (Hsw j1 y1 Hy1) as [[-> ->]|[Hn1 Hy1']], (Hsw j2 y2 Hy2) as [[-> ->]|[Hn2 Hy2']];
      [done| | |].
    + simpl in E. exfalso. by apply (Hnb (swp_address y2)); [apply (Hswp j2)|].
    + simpl in E. exfalso. by apply (Hnb (swp_address y1)); [apply (Hswp j1)|].
    + by apply (Hinj j1 j2 y1 y2).
  - intros c Hc. simpl. rewrite H4.
    destruct (decide (vpn c = vpn b)) as [E|_]; [|destruct (decide (vpn c = vpn a)) as [_|Hca]].
    + intros _ _. exists i. exists (mkSwp b 1). split_and!; [done| |by rewrite (Hvb c Hc E)].
      erewrite lookup_alter_eq_Some by done.
      specialize (Hused i x Hx). rewrite decide_True in Hused by lia. by rewrite Hused.
    + by rewrite Hep.
    + intros Hc1 Hc2. destruct (Hslot c Hc Hc1 Hc2) as (j & y & Hj & Hy & Hyc).
      exists j, y. split_and!; [done| |done]. simpl. rewrite list_lookup_alter_ne; [done|].
      intros <-. rewrite Hx in Hy. injection Hy as <-. congruence.
Qed.

Lemma swapped_contents s p f l q k a b fr i x e bs s' :
  let r := swap_write f (Z.of_nat i * PGSIZE) (page_bytes (kmem_memory (pg_kmem s)) fr PGSIZE) in
  let p' := swapped_proc p (snd r) i b in
  paged s p f l q k -> (i < k)%nat -> pagesInSwapFile p !! i = Some x -> swp_address x = a ->
  (k <= Z.to_nat MAX_PSYC_PAGES)%nat -> user_page b -> a <> b ->
  pframe (kmem_memory (pg_kmem s)) (pgdir p) b = Some fr ->
  (if has_flag e PTE_P then Some (P2V (PTE_ADDR e)) else None) = Some fr ->
  (forall o, 0 <= o < PGSIZE -> nth (Z.to_nat o) bs 0 = swap_byte f (Z.of_nat i * PGSIZE + o)) ->
  handed_over kend (pg_kmem s) (pgdir p) l a b fr e swapped_entry bs (pg_kmem s') ->
  paged s' p' (snd r) l q k -> same_contents s p f s' p' (snd r).
Proof.
  cbn zeta. intros Hpd Hi Hx Hxa Hk Hb Hab Hfr Hef Hbs [_ _ _ H4 H5 H6] Hpd' c o Hc Ho.
  assert (Hisz : Z.of_nat i * PGSIZE <= swap_size f).
  { pose proof (pd_size _ _ _ _ _ _ Hpd). unfold PGSIZE in *. lia. }
  destruct (write_swap_page f i (page_bytes (kmem_memory (pg_kmem s)) fr PGSIZE) Hisz)
    as (_ & _ & Hnew & Hold); [lia|by apply page_bytes_length|].
  destruct (pd_swapped _ _ _ _ _ _ Hpd i x Hi Hx) as [Ha Hae]. rewrite Hxa in Ha, Hae.
  set (f' := snd _) in *. set (p' := swapped_proc p f' i b) in *.
  assert (Hslot_i : pagesInSwapFile p' !! i = Some (mkSwp b 1)).
  { simpl. erewrite lookup_alter_eq_Some by done.
    pose proof (pd_used _ _ _ _ _ _ Hpd i x Hx) as Hu. rewrite decide_True in Hu by lia. by rewrite Hu. }
  assert (Hvab : vpn a <> vpn b) by (intros E; by apply Hab, user_page_inj).
  destruct (decide (c = b)) as [->|Hcb]; [|destruct (decide (c = a)) as [->|Hca]].
  - rewrite (content_present _ p f b o _ Hfr).
    pose proof (content_swapped s' p' f' _ _ _ i (mkSwp b 1) o Hpd' Hi Hslot_i) as Hcs.
    simpl in Hcs. rewrite Hcs, Hnew, nth_page_bytes by done.
    by rewrite u8_small by apply load8_range.
  - rewrite <- Hxa at 2. rewrite (content_swapped _ _ _ _ _ _ i x o Hpd Hi Hx).
    rewrite (content_present _ p' f' a o fr).
    + rewrite H6, Hbs by done. by rewrite u8_small by apply swap_byte_range.
    + unfold pframe. simpl. by rewrite H4, decide_False, decide_True.
  - assert (vpn c <> vpn b) by (intros E; by apply Hcb, user_page_inj).
    assert (vpn c <> vpn a) by (intros E; by apply Hca, user_page_inj).
    pose proof (H4 c) as Hlc. rewrite !decide_False in Hlc by done.
    destruct (has_flag (lookup_pt (kmem_memory (pg_kmem s)) (pgdir p) c) PTE_P) eqn:Hcp.
    + set (g := P2V (PTE_ADDR (lookup_pt (kmem_memory (pg_kmem s)) (pgdir p) c))).
      assert (Hg : pframe (kmem_memory (pg_kmem s)) (pgdir p) c = Some g)
        by (unfold pframe; by rewrite Hcp).
      rewrite (content_present _ p f c o g Hg), (content_present _ p' f' c o g).
      * f_equal. apply (H5 c); [by apply user_page_range|done|done|done].
      * unfold pframe. simpl. by rewrite Hlc, Hcp.
    + destruct (has_flag (lookup_pt (kmem_memory (pg_kmem s)) (pgdir p) c) PTE_PG) eqn:Hcg.
      2: { rewrite !content_other; simpl; rewrite ?Hlc; done. }
      destruct (pd_slot _ _ _ _ _ _ Hpd c Hc Hcp Hcg) as (j & y & Hj & Hy & <-).
      assert (j <> i) by (intros ->; congruence).
      rewrite (content_swapped _ _ _ _ _ _ j y o Hpd Hj Hy).
      rewrite (content_swapped _ _ _ _ _ _ j y o Hpd' Hj).
      * f_equal. by apply Hold.
      * simpl. by rewrite list_lookup_alter_ne by done.
Qed.

(** Queue operations inside [paged]. *)
Lemma paged_queue s p p' f l q q' k :
  paged s p f l q k -> same_paging p p' -> queue_ok (pg_cur s) p' q' ->
  (forall j a, (j, a) ∈ q' -> user_page a /\
     has_flag (lookup_pt (kmem_memory (pg_kmem s)) (pgdir p) a) PTE_P = true) ->
  NoDup q'.*2 -> paged (set_cur_proc p' s) p' f l q' k.
Proof.
  intros [Hp Hq Hf Hw Hfo Hfile Hlen Hused Hsz Hres Hnd Hswp Hinj Hslot] (E1 & E2 & E3 & E4 & E5)
    Hq' Hres' Hnd'.
  split; simpl; rewrite ?E2, ?E3, ?E5; try done. by apply (set_cur_proc_lookup s p p').
Qed.

Lemma same_paging_contents s p p' f s' :
  same_paging p p' -> pg_kmem s' = pg_kmem s -> same_contents s p f s' p' f.
Proof.
  intros (_ & E2 & _ & _ & E5) Ek a b _ _. unfold content. by rewrite E2, E5, Ek.
Qed.

Lemma same_contents_trans s1 p1 f1 s2 p2 f2 s3 p3 f3 :
  same_contents s1 p1 f1 s2 p2 f2 -> same_contents s2 p2 f2 s3 p3 f3 ->
  same_contents s1 p1 f1 s3 p3 f3.
Proof. intros Ha Hb a b Hu Hr. by rewrite Hb, Ha. Qed.

Lemma dequeue_paged s p f l j b q k :
  paged s p f l ((j, b) :: q) k -> q <> [] ->
  user_page b /\ (b ∉ q.*2) /\
  has_flag (lookup_pt (kmem_memory (pg_kmem s)) (pgdir p) b) PTE_P = true /\
  exists p', dequeueFIFO s = Ret b (set_cur_proc p' s) /\
    paged (set_cur_proc p' s) p' f l q k /\ same_paging p p' /\
    nPagesInPhyMemory p' = nPagesInPhyMemory p.
Proof.
  intros Hpd Hne. destruct (pd_resident _ _ _ _ _ _ Hpd j b) as [Hb Hbp]; [by left|].
  pose proof (pd_resident_nodup _ _ _ _ _ _ Hpd) as Hnd. simpl in Hnd.
  apply NoDup_cons in Hnd as [Hbq Hnd].
  destruct (dequeue_spec s p j b q (pd_cur _ _ _ _ _ _ Hpd) (pd_queue _ _ _ _ _ _ Hpd))
    as (p' & Hrun & Hq' & Hs & Hn); [by left|].
  split_and!; [done|done|done|]. exists p'. split_and!; [done| |done|done].
  eapply paged_queue; [done|done|done| |done].
  intros i c Hin. apply (pd_resident _ _ _ _ _ _ Hpd i c). by right.
Qed.

Lemma enqueue_paged s p f l q k a :
  paged s p f l q k -> (length q < Z.to_nat MAX_PSYC_PAGES)%nat -> user_page a -> (a ∉ q.*2) ->
  has_flag (lookup_pt (kmem_memory (pg_kmem s)) (pgdir p) a) PTE_P = true ->
  exists j p', enqueueFIFO a s = Ret tt (set_cur_proc p' s) /\
    paged (set_cur_proc p' s) p' f l (q ++ [(j, a)]) k /\ same_paging p p' /\
    nPagesInPhyMemory p' = s32 (nPagesInPhyMemory p + 1).
Proof.
  intros Hpd Hlen Ha Haq Hap.
  destruct (enqueue_spec s p q a (pd_cur _ _ _ _ _ _ Hpd) (pd_queue _ _ _ _ _ _ Hpd) Hlen)
    as (j & p' & Hrun & Hq' & Hs & Hn).
  exists j, p'. split_and!; [done| |done|done]. eapply paged_queue; [done|done|done| |].
  - intros i c Hin. apply elem_of_app in Hin as [Hin|Hin].
    + by apply (pd_resident _ _ _ _ _ _ Hpd i c).
    + apply list_elem_of_singleton in Hin. by injection Hin as -> ->.
  - rewrite fmap_app. apply NoDup_app. split_and!;
      [apply Hpd| |apply NoDup_singleton]. intros c Hc ->%list_elem_of_singleton. done.
Qed.

Lemma read_full_page f i :
  Z.of_nat (S i) * PGSIZE <= swap_size f ->
  exists bs, swap_read f (Z.of_nat i * PGSIZE) PGSIZE = Some bs /\
    length (read_buffer (Some bs)) = Z.to_nat PGSIZE /\
    forall o, 0 <= o < PGSIZE ->
      nth (Z.to_nat o) (read_buffer (Some bs)) 0 = swap_byte f (Z.of_nat i * PGSIZE + o).
Proof.
  intros Hsz. rewrite swap_read_ok by (unfold PGSIZE in *; lia).
  rewrite Z.min_l by (unfold PGSIZE in *; lia). eexists. split; [done|].
  set (bs := map _ _). assert (Hl : length bs = Z.to_nat PGSIZE).
  { unfold bs. by rewrite length_map, length_seqZ. }
  unfold read_buffer. rewrite length_app, Hl, Nat.sub_diag. cbn [replicate]. rewrite app_nil_r.
  split; [simpl length; lia|]. intros o Ho. apply nth_lookup_Some. unfold bs.
  by rewrite list_lookup_fmap, lookup_seqZ_lt, Z2Nat.id by (unfold PGSIZE in *; lia).
Qed.

Lemma swap_entry_frame eb fr :
  has_flag eb PTE_P = true -> P2V (PTE_ADDR eb) = fr ->
  let e := Z.lor (Z.lor (Z.lor (PTE_ADDR eb) PTE_U) PTE_W) PTE_P in
  0 <= e < 2 ^ 32 /\ has_flag e PTE_P = true /\ P2V (PTE_ADDR e) = fr.
Proof.
  intros Hp Hfr. cbn zeta. rewrite <- (Z.lor_assoc _ PTE_U PTE_W).
  assert (Ha : PTE_ADDR eb mod PGSIZE = 0) by (rewrite PTE_ADDR_eq; by apply Z.mod_mul).
  assert (Hr : 0 <= PTE_ADDR eb < 2 ^ 32).
  { rewrite PTE_ADDR_eq. pose proof (u32_range eb). unfold PGSIZE. dlia. }
  destruct (map_entry_range (PTE_ADDR eb) (Z.lor PTE_U PTE_W) Ha Hr) as (H1 & H2 & H3); [done|].
  unfold map_entry in *. split_and!; [apply H1..|done|by rewrite H3].
Qed.

Lemma page_bytes_ext m m' a :
  (forall k, 0 <= k < PGSIZE -> load8 m' (a + k) = load8 m (a + k)) ->
  page_bytes m' a PGSIZE = page_bytes m a PGSIZE.
Proof.
  intros Hm. apply map_ext_in. intros k Hk. apply Hm.
  apply list_elem_of_In, elem_of_seqZ in Hk. lia.
Qed.

(** Writing one entry of an existing table, seen from the kernel memory. *)
Lemma entry_write m d l va t v :
  as_wf kend m d l -> table_at m d (PDX va) = Some t -> 0 <= v < 2 ^ 32 ->
  let m' := store32 m (t + 4 * PTX va) v in
  as_wf kend m' d l /\ table_at m' d (PDX va) = Some t /\
  (forall va', table_at m' d (PDX va') = table_at m d (PDX va')) /\
  (forall va', lookup_pt m' d va' = if decide (vpn va' = vpn va) then v else lookup_pt m d va').
Proof.
  intros Hw Ht Hv. cbn zeta.
  assert (Hta : forall va', table_at (store32 m (t + 4 * PTX va) v) d (PDX va') = table_at m d (PDX va'))
    by (intros va'; apply (table_at_store kend _ _ l); (done || apply PDX_range)).
  split_and!; [by apply (as_wf_store kend)|by rewrite Hta|done|].
  intros va'. by apply (lookup_pt_store kend _ _ l).
Qed.

(** What swapPageIn does for the page [a] with the frame of the page [b]: the process, and the
    state, when it comes to queue [a]. *)
Definition swapping_proc (m : memory) (p1 : pgproc F) (f : F) (i : nat) (b : Z) : pgproc F :=
  swapped_proc p1 (snd (swap_write f (Z.of_nat i * PGSIZE) (page_bytes m (P2V (PTE_ADDR (lookup_pt m (pgdir p1) b))) PGSIZE))) i b.
Definition new_entry (m : memory) (p1 : pgproc F) (b : Z) : Z :=
  Z.lor (Z.lor (Z.lor (PTE_ADDR (lookup_pt m (pgdir p1) b)) PTE_U) PTE_W) PTE_P.
Definition swapped_memory (m : memory) (p1 : pgproc F) (a b ta tb : Z) (bs : list Z) : memory :=
  let e := new_entry m p1 b in
  store32 (store32 (store_bytes (store32 m (ta + 4 * PTX a) e) (P2V (PTE_ADDR (lookup_pt m (pgdir p1) b))) (read_buffer (Some bs)))
             (tb + 4 * PTX b) (Z.land e (Z.lnot PTE_P))) (tb + 4 * PTX b) swapped_entry.

Lemma swapPageIn_run s p f l j b q k i x p1 ta tb bs :
  paged s p f l ((j, b) :: q) k -> (i < k)%nat -> pagesInSwapFile p !! i = Some x ->
  let a := swp_address x in let m := kmem_memory (pg_kmem s) in
  dequeueFIFO s = Ret b (set_cur_proc p1 s) -> paged (set_cur_proc p1 s) p1 f l q k -> pgdir p1 = pgdir p ->
  user_page a -> user_page b -> a <> b -> lookup_pt m (pgdir p1) a = swapped_entry ->
  has_flag (lookup_pt m (pgdir p1) b) PTE_P = true ->
  table_at m (pgdir p1) (PDX a) = Some ta -> table_at m (pgdir p1) (PDX b) = Some tb ->
  swap_read f (Z.of_nat i * PGSIZE) PGSIZE = Some bs ->
  exists s2, pg_procs s2 !! pg_cur s2 = Some (set_swaps (alter (fun x => mkSwp b (swp_in_use x)) i (pagesInSwapFile p1)) p1) /\
    pg_cur s2 = pg_cur s /\
    swapPageIn a s = enqueueFIFO a (set_kmem (set_memory (swapped_memory m p1 a b ta tb bs) (pg_kmem s)) (set_cur_proc (swapping_proc m p1 f i b) s2)).
Proof.
  intros Hpd Hi Hx a m Hdq Hpd1 Edir Ha Hb Hab Hae Hbp Hta Htb Hread. unfold swapPageIn.
  pose proof (find_swapped _ _ _ _ _ _ _ _ Hpd Hi Hx) as Hfind. fold a in Hfind.
  rewrite (bind_ret _ _ _ _ _ (myproc_run _ _ (pd_cur _ _ _ _ _ _ Hpd))).
  rewrite (bind_ret _ _ _ (pg_cur s) s) by done.
  rewrite (user_page_PTE_ADDR a Ha), Hfind. rewrite (bind_ret _ _ _ _ _ Hdq). rewrite <- Edir.
  set (s1 := set_cur_proc p1 s) in *. set (d := pgdir p1) in *.
  pose proof Hpd1 as [Hp1 _ Hfree Hw Hfo Hfile _ _ _ Hres _ _ _ _].
  change (kmem_memory (pg_kmem s1)) with m in *. fold d in Hw, Hfo, Hres.
  assert (Hvab : vpn a <> vpn b) by (intros E; by apply Hab, user_page_inj).
  rewrite (bind_ret _ _ _ _ _ (walk_pte_run s1 d l a ta Hw kend_high Hta)).
  change (kmem_memory (pg_kmem s1)) with m. rewrite Hae. cbn [panic_if].
  change (swapped_entry =? 0) with false. rewrite (bind_ret _ _ s1 tt s1) by done.
  rewrite (bind_ret _ _ _ _ _ (walk_pte_run s1 d l b tb Hw kend_high Htb)).
  change (kmem_memory (pg_kmem s1)) with m.
  rewrite (proj2 (Z.eqb_neq _ _) (has_flag_nonzero _ _ Hbp)). cbn [panic_if].
  rewrite (bind_ret _ _ s1 tt s1) by done.
  rewrite (bind_ret _ _ _ _ _ (upd_cur_run _ _ _ Hp1)). set (p2 := set_swaps _ p1).
  destruct (swap_entry_frame _ _ Hbp eq_refl) as (Her & Hep & Hef).
  change (Z.lor (Z.lor (Z.lor (PTE_ADDR (lookup_pt m d b)) PTE_U) PTE_W) PTE_P) with (new_entry m p1 b) in *. set (e := new_entry m p1 b) in *.
  set (eb := lookup_pt m d b) in *. set (fr := P2V (PTE_ADDR eb)) in *.
  assert (Hbf : pframe m d b = Some fr) by (unfold pframe; fold eb; by rewrite Hbp).
  set (m1 := store32 m (ta + 4 * PTX a) e).
  set (s2 := set_kmem (set_memory m1 (pg_kmem s)) (set_cur_proc p2 s1)).
  rewrite (bind_ret _ _ _ tt s2) by done.
  assert (Hp2 : pg_procs s2 !! pg_cur s2 = Some p2) by apply (set_cur_proc_lookup _ _ _ Hp1).
  exists s2. split; [done|]. split; [done|].
  rewrite (bind_ret _ _ _ (Some bs) s2).
  2: { unfold readFromSwapFile. change (pg_cur s) with (pg_cur s2). rewrite Hp2. simpl. rewrite Hfile. by rewrite <- Hread. }
  destruct (entry_write m d l a ta e Hw Hta Her) as (Hw1 & Hta1 & Ht1 & Hlk1). fold m1 in Hw1, Hta1, Ht1, Hlk1.
  assert (Htb1 : table_at m1 d (PDX b) = Some tb) by (by rewrite Ht1).
  assert (Heb1 : load32 m1 (tb + 4 * PTX b) = eb).
  { transitivity (lookup_pt m1 d b); [unfold lookup_pt; by rewrite Htb1|]. by rewrite Hlk1, decide_False. }
  rewrite (bind_ret _ _ s2 eb s2) by (unfold in_kmem, zoom, kload32, gets; simpl; by rewrite Heb1).
  rewrite (bind_ret _ _ s2 m1 s2) by done. fold fr.
  assert (Hpb : page_bytes m1 fr PGSIZE = page_bytes m fr PGSIZE).
  { apply page_bytes_ext. intros o Ho. assert (Hown : owns m d ta) by (right; exists (PDX a); split; [apply PDX_range|done]).
    destruct (frame_not_owned kend m d l b fr ta Hfo Hw (user_page_range b Hb) Hbf Hown) as [_ Hd].
    pose proof (PTX_range a). unfold m1, NPDENTRIES, PGSIZE in *. by rewrite store32_lookup, decide_False by lia. }
  rewrite Hpb. change (pg_cur s) with (pg_cur s2).
  rewrite (bind_ret _ _ _ _ _ (writeToSwapFile_run s2 p2 f _ _ Hp2 Hfile)).
  change (set_swapFile (Some (snd (swap_write f (Z.of_nat i * PGSIZE) (page_bytes m fr PGSIZE)))) p2) with (swapping_proc m p1 f i b).
  set (s3 := set_cur_proc (swapping_proc m p1 f i b) s2).
  rewrite (bind_ret _ _ _ _ _ (walk_pte_run s3 d l a ta Hw1 kend_high Hta1)).
  change (kmem_memory (pg_kmem s3)) with m1. rewrite Hlk1, decide_True, Hef by done.
  rewrite (bind_ret _ _ s3 tt (set_kmem (set_memory (store_bytes m1 fr (read_buffer (Some bs))) (pg_kmem s)) s3)) by done.
  erewrite (bind_ret (in_kmem (kstore32 (tb + 4 * PTX b) (Z.land e (Z.lnot PTE_P))))) by reflexivity.
  by rewrite (bind_ret _ _ _ tt (set_kmem (set_memory (swapped_memory m p1 a b ta tb bs) (pg_kmem s)) s3)) by done.
Qed.

Lemma swapPageIn_spec s p f l j b q k i x :
  paged s p f l ((j, b) :: q) k -> q <> [] -> (k <= Z.to_nat MAX_PSYC_PAGES)%nat ->
  (i < k)%nat -> pagesInSwapFile p !! i = Some x ->
  exists j' s' p' f', swapPageIn (swp_address x) s = Ret tt s' /\ pg_cur s' = pg_cur s /\
    paged s' p' f' l (q ++ [(j', swp_address x)]) k /\ same_contents s p f s' p' f' /\
    has_flag (lookup_pt (kmem_memory (pg_kmem s')) (pgdir p') (swp_address x)) PTE_P = true /\
    nPagesInPhyMemory p' = s32 (nPagesInPhyMemory p + 1) /\
    nPagesInSwapFile p' = nPagesInSwapFile p /\ pid p' = pid p.
Proof.
  intros Hpd Hq Hk15 Hi Hx. set (a := swp_address x) in *.
  pose proof (queue_length _ _ _ (pd_queue _ _ _ _ _ _ Hpd)) as Hql.
  destruct (pd_swapped _ _ _ _ _ _ Hpd i x Hi Hx) as [Ha Hae]. fold a in Ha, Hae.
  destruct (dequeue_paged _ _ _ _ _ _ _ _ Hpd Hq) as (Hb & Hbq & Hbp & p1 & Hdq & Hpd1 & Hs1 & Hn1).
  pose proof Hs1 as (Epid & Edir & Efile & Ens & Esw). rewrite <- Edir in Hae, Hbp.
  set (m := kmem_memory (pg_kmem s)) in *. set (d := pgdir p1) in *.
  assert (Hab : a <> b) by (intros E; rewrite <- E, Hae in Hbp; done).
  assert (Hvab : vpn a <> vpn b) by (intros E; by apply Hab, user_page_inj).
  destruct (lookup_table m d a) as [ta Hta]; [by rewrite Hae|].
  destruct (lookup_table m d b (has_flag_nonzero _ _ Hbp)) as [tb Htb].
  destruct (read_full_page f i) as (bs & Hread & Hbl & Hbn).
  { pose proof (pd_size _ _ _ _ _ _ Hpd). unfold PGSIZE in *. lia. }
  destruct (swapPageIn_run s p f l j b q k i x p1 ta tb bs Hpd Hi Hx Hdq Hpd1 Edir Ha Hb Hab Hae Hbp Hta Htb Hread) as (s2 & Hp2 & Ecur & Erun).
  fold a m in Erun. rewrite <- Esw in Hx. set (s1 := set_cur_proc p1 s) in *. rewrite Erun.
  pose proof Hpd1 as [Hp1 _ Hfree Hw Hfo Hfile _ _ _ Hres _ _ _ _].
  change (kmem_memory (pg_kmem s1)) with m in *. fold d in Hw, Hfo, Hres.
  destruct (swap_entry_frame _ _ Hbp eq_refl) as (Her & Hep & Hef).
  set (eb := lookup_pt m d b) in *. set (fr := P2V (PTE_ADDR eb)) in *.
  change (Z.lor (Z.lor (Z.lor (PTE_ADDR eb) PTE_U) PTE_W) PTE_P) with (new_entry m p1 b) in *. set (e := new_entry m p1 b) in *.
  assert (Hbf : pframe m d b = Some fr) by (unfold pframe; fold eb; by rewrite Hbp).
  assert (Haf : pframe m d a = None) by (unfold pframe; by rewrite Hae).
  set (r := swap_write f (Z.of_nat i * PGSIZE) (page_bytes m fr PGSIZE)). set (p3 := swapping_proc m p1 f i b).
  set (s5 := set_kmem _ _). set (xe := Z.land e (Z.lnot PTE_P)).
  assert (Hxr : 0 <= xe < 2 ^ 32).
  { unfold xe. change PTE_P with (Z.ones 1). rewrite land_lnot_ones by done. dlia. }
  assert (Hho : handed_over kend (pg_kmem s1) d l a b fr e swapped_entry (read_buffer (Some bs))
                  (pg_kmem s5)).
  { apply (hand_over kend (pg_kmem s1) d l a b ta tb fr e xe swapped_entry);
      try done. by rewrite Hep, Hef. }
  assert (Hp5 : pg_procs s5 !! pg_cur s1 = Some p3).
  { change (pg_cur s1) with (pg_cur s). rewrite <- Ecur. exact (set_cur_proc_lookup s2 _ p3 Hp2). }
  destruct (write_swap_page f i (page_bytes m fr PGSIZE)) as (_ & Hsz & _).
  { pose proof (pd_size _ _ _ _ _ _ Hpd). unfold PGSIZE in *. lia. }
  { lia. }
  { by apply page_bytes_length. }
  assert (Hpd5 : paged s5 p3 (snd r) l q k).
  { apply (swapped_paged s1 p1 f l q k a b fr i x e (read_buffer (Some bs)) (snd r) s5 Hpd1 Hi);
      try done. fold r in Hsz. lia. }
  assert (Haq : a ∉ q.*2).
  { intros ([j2 c] & E & Hin)%list_elem_of_fmap. simpl in E. subst c.
    destruct (Hres j2 a Hin) as [_ Hap]. by rewrite Hae in Hap. }
  destruct (enqueue_paged s5 p3 (snd r) l q k a Hpd5) as (j' & p6 & Henq & Hpd6 & Hs6 & Hn6).
  - cbn [length] in Hql. lia.
  - done.
  - done.
  - change (pgdir p3) with d. by rewrite (ho_lookup _ _ _ _ _ _ _ _ _ _ _ Hho), decide_False, decide_True.
  - exists j', (set_cur_proc p6 s5), p6, (snd r). rewrite Henq. split_and!; [done|done|done| | | | |].
    + eapply same_contents_trans; [|by apply same_paging_contents].
      eapply same_contents_trans; [by apply (same_paging_contents s p p1 f s1)|].
      apply (swapped_contents s1 p1 f l q k a b fr i x e (read_buffer (Some bs)) s5); try done.
      by rewrite Hep, Hef.
    + destruct Hs6 as (_ & -> & _). change (pgdir p3) with d.
      simpl. by rewrite (ho_lookup _ _ _ _ _ _ _ _ _ _ _ Hho), decide_False, decide_True.
    + rewrite Hn6. simpl. by rewrite Hn1.
    + destruct Hs6 as (_ & _ & _ & -> & _). done.
    + destruct Hs6 as (-> & _). done.
Qed.

Lemma page_of_fault va :
  vpn va = vpn (PTE_ADDR va) /\ PDX va = PDX (PTE_ADDR va) /\ PTX va = PTX (PTE_ADDR va) /\
  PTE_ADDR (PTE_ADDR va) = PTE_ADDR va.
Proof.
  assert (Hv : vpn va = vpn (PTE_ADDR va)).
  { unfold vpn. rewrite PTE_ADDR_eq. pose proof (u32_range va). unfold PGSIZE.
    rewrite (u32_small (_ * _)) by dlia. by rewrite Z.div_mul. }
  pose proof (proj1 (vpn_eq_iff _ _) Hv) as [H1 H2]. split_and!; [done..|].
  rewrite !PTE_ADDR_eq. pose proof (u32_range va). unfold PGSIZE.
  rewrite (u32_small (_ * _)) by dlia. by rewrite Z.div_mul.
Qed.

Lemma trap_pgflt_entry s p f l q k va i x :
  paged s p f l q k -> (i < k)%nat -> pagesInSwapFile p !! i = Some x ->
  PTE_ADDR va = swp_address x ->
  trap_pgflt va s = (swapPageOut;; swapPageIn (PTE_ADDR va);; ret true) s.
Proof.
  intros Hpd Hi Hx Hva. destruct (pd_swapped _ _ _ _ _ _ Hpd i x Hi Hx) as [_ He].
  destruct (page_of_fault va) as (Hv & HD & HT & _). rewrite <- Hva in He.
  unfold trap_pgflt. rewrite (bind_ret _ _ _ _ _ (myproc_run _ _ (pd_cur _ _ _ _ _ _ Hpd))).
  set (m := kmem_memory (pg_kmem s)) in *.
  rewrite (bind_ret _ _ s (load32 m (pgdir p + 4 * PDX va)) s).
  2: { unfold in_kmem, zoom, kload32, gets. by rewrite set_kmem_same. }
  unfold lookup_pt, table_at in He. rewrite <- HD, <- HT in He.
  destruct (has_flag _ PTE_P); [|done].
  rewrite (bind_ret _ _ s swapped_entry s); [done|].
  unfold in_kmem, zoom, kload32, gets. rewrite set_kmem_same. f_equal. exact He.
Qed.

(** C4: a page fault is served transparently as long as there is room: when the faulting page
    is in the swap file, at least three pages are resident, a swap slot is free and reading and
    writing the swap file does not fail ([SwapIO]'s laws), the fault branch of trap
    succeeds, the faulting page becomes present and goes to the end of the queue, and every
    byte of every user page is what it was before, whether its page is resident or in the swap
    file; page tables, frames, free list and swap slots stay consistent. The conditions do not
    last: the queue loses its two oldest pages and gains one while the counter of resident
    pages is unchanged, and a swap slot is used up, so each fault leaves one resident page less
    and one free slot less, and at most fifteen faults of a process are served like this: then a
    page is lost ([full_swap_loses_page], with no slot free) or the kernel follows a null
    pointer (printQueue, when the second eviction takes the last resident page). *)
Theorem page_fault_transparent (s : pgstate F) (p : pgproc F) (f : F) (l : list Z)
    (j1 j2 : nat) (a1 a2 : Z) (q : list (nat * Z)) (k : nat) (va : Z) (i : nat) (x : pageInSwapFile)
    (Hpd : paged s p f l ((j1, a1) :: (j2, a2) :: q) k) (Hq : q <> [])
    (Hk : (k < Z.to_nat MAX_PSYC_PAGES)%nat)
    (Hi : (i < k)%nat) (Hx : pagesInSwapFile p !! i = Some x) (Hva : PTE_ADDR va = swp_address x) :
  exists s' p' f' l' j, trap_pgflt va s = Ret true s' /\
    paged s' p' f' l' (q ++ [(j, PTE_ADDR va)]) (S k) /\
    has_flag (lookup_pt (kmem_memory (pg_kmem s')) (pgdir p') va) PTE_P = true /\
    same_contents s p f s' p' f' /\
    nPagesInPhyMemory p' = s32 (nPagesInPhyMemory p) /\
    nPagesInSwapFile p' = s32 (nPagesInSwapFile p + 1).
Proof.
  rewrite (trap_pgflt_entry _ _ _ _ _ _ _ _ _ Hpd Hi Hx Hva).
  destruct (dequeue_paged _ _ _ _ _ _ _ _ Hpd) as (Ha & Haq & Hap & p1 & Hdq & Hpd1 & Hs1 & Hn1); [done|].
  pose proof Hs1 as (_ & Edir & _ & Ens & Esw).
  destruct (moveToSwapFile_spec _ _ _ _ _ _ a1
    (P2V (PTE_ADDR (lookup_pt (kmem_memory (pg_kmem s)) (pgdir p) a1))) Hpd1 Hk Ha Haq)
    as (s2 & f2 & Hmv & _ & Hpd2 & Hc2).
  { unfold pframe. rewrite Edir. simpl. by rewrite Hap. }
  assert (Hx2 : pagesInSwapFile (moved_proc p1 f2 k a1) !! i = Some x).
  { simpl. rewrite Esw. by rewrite list_lookup_alter_ne by lia. }
  destruct (swapPageIn_spec s2 _ f2 _ j2 a2 q (S k) i x Hpd2 Hq) as
    (j & s3 & p3 & f3 & Hin & _ & Hpd3 & Hc3 & Hp3 & Hn3 & Hns3 & _); [lia|lia|done|].
  exists s3, p3, f3, (P2V (PTE_ADDR (lookup_pt (kmem_memory (pg_kmem s)) (pgdir p) a1)) :: l), j.
  rewrite Hva in *. split_and!.
  - unfold swapPageOut. rewrite bind_assoc, (bind_ret _ _ _ _ _ Hdq), (bind_ret _ _ _ _ _ Hmv).
    by rewrite (bind_ret _ _ _ _ _ Hin).
  - done.
  - destruct (page_of_fault va) as (Hv & _). rewrite Hva in Hv. by rewrite (lookup_pt_vpn _ _ _ _ Hv).
  - eapply same_contents_trans; [|exact Hc3]. eapply same_contents_trans; [|exact Hc2].
    by apply same_paging_contents.
  - rewrite Hn3. simpl. rewrite Hn1. apply s32_cong.
    rewrite <- u32_add_l, u32_s32, u32_add_l. f_equal. lia.
  - rewrite Hns3. simpl. by rewrite Ens.
Qed.

(** ** The queue of resident pages as a bounded list *)

Inductive queue_op : Type :=
  | OpEnqueue (addr : Z)
  | OpDequeue.

Definition run_queue_op (op : queue_op) : P Z :=
  match op with
  | OpEnqueue a => enqueueFIFO a;; ret 0
  | OpDequeue => dequeueFIFO
  end.
Fixpoint run_queue_ops (ops : list queue_op) : P (list Z) :=
  match ops with
  | [] => ret []
  | op :: ops => r ← run_queue_op op; rs ← run_queue_ops ops; ret (r :: rs)
  end.

(** [None] stands for the kernel's null dereference. *)
Definition list_queue_op (quiet : bool) (op : queue_op) (l : list Z) : option (Z * list Z) :=
  match op, l with
  | OpEnqueue a, _ =>
      Some (0, if (length l <? Z.to_nat MAX_PSYC_PAGES)%nat then l ++ [a] else l)
  | OpDequeue, [] => if quiet then Some (u32 (-1), []) else None
  | OpDequeue, [a] => if quiet then Some (a, []) else None
  | OpDequeue, a :: l => Some (a, l)
  end.
Fixpoint list_queue_ops (quiet : bool) (ops : list queue_op) (l : list Z) :
    option (list Z * list Z) :=
  match ops with
  | [] => Some ([], l)
  | op :: ops =>
      '(r, l1) ← list_queue_op quiet op l;
      '(rs, l2) ← list_queue_ops quiet ops l1;
      Some (r :: rs, l2)
  end.

(** printQueue prints nothing for the first two processes. *)
Definition quiet_pid (p : pgproc F) : bool := (pid p =? 1) || (pid p =? 2).

Lemma enqueue_full s p q a :
  pg_procs s !! pg_cur s = Some p -> queue_ok (pg_cur s) p q ->
  length q = Z.to_nat MAX_PSYC_PAGES -> enqueueFIFO a s = Ret tt s.
Proof.
  intros Hp [Hc Hn Hfr Hl] Hlen. unfold enqueueFIFO.
  rewrite (bind_ret _ _ _ _ _ (myproc_run _ _ Hp)), (bind_ret _ _ _ (pg_cur s) s) by done.
  destruct (find_index _ (pagesInPhyMem p)) as [i|] eqn:Hi; [|done]. exfalso.
  apply find_index_Some in Hi as (x & Hx & Hux & _). to_prop.
  assert (Hin : forall h q', queue_from (pagesInPhyMem p) (pg_cur s) h q' -> i ∉ q'.*1).
  { intros h q'. revert h. induction q' as [|[j b] q' IH]; intros h Hq; [apply not_elem_of_nil|].
    destruct Hq as (_ & n & Hj & Hq). apply not_elem_of_cons. split; [|by eapply IH].
    intros ->. simpl in *. rewrite Hx in Hj. by injection Hj as ->. }
  assert (Hnd : NoDup (i :: q.*1)) by (apply NoDup_cons; split; [by eapply Hin|done]).
  assert (Hsub : i :: q.*1 ⊆+ seq 0 (length (pagesInPhyMem p))).
  { apply NoDup_submseteq; [done|]. intros j [->|Hj]%elem_of_cons.
    - apply elem_of_seq. apply lookup_lt_Some in Hx. lia.
    - apply elem_of_seq. split; [lia|]. simpl. revert Hc Hj. generalize (head p). clear.
      induction q as [|[k b] q IH]; intros h Hq Hj; [by apply elem_of_nil in Hj|].
      destruct Hq as (_ & n & Hk & Hq). apply elem_of_cons in Hj as [->|Hj]; [|by eapply IH].
      by eapply lookup_lt_Some. }
  apply submseteq_length in Hsub. rewrite length_seq in Hsub. simpl in Hsub.
  rewrite length_fmap in Hsub. lia.
Qed.

Lemma dequeue_null s p q :
  pg_procs s !! pg_cur s = Some p -> queue_ok (pg_cur s) p q -> quiet_pid p = false ->
  (length q <= 1)%nat -> dequeueFIFO s = Fault NullDeref.
Proof.
  intros Hp Hq Hquiet Hlen. unfold dequeueFIFO. unfold quiet_pid in Hquiet.
  destruct q as [|[j a] [|]]; [| |simpl in Hlen; lia].
  - apply bind_fault. unfold printQueue. rewrite (bind_ret _ _ _ _ _ (myproc_run _ _ Hp)), Hquiet.
    by rewrite (qo_chain _ _ _ Hq : head p = None).
  - rewrite (bind_ret _ _ _ _ _ (printQueue_run _ _ _ Hp Hq ltac:(by left))).
    rewrite (bind_ret _ _ _ _ _ (myproc_run _ _ Hp)).
    destruct Hq as [Hc _ _ _]. pose proof Hc as (Hh & n & Hj & Hq). simpl in Hq. subst n. rewrite Hh.
    rewrite (bind_ret _ _ _ _ _ (read_slot_run _ _ _ _ _ Hp Hj)).
    rewrite (bind_ret _ _ _ _ _ (write_slot_run _ _ _ _ Hp)).
    rewrite (bind_ret _ _ _ _ _ (upd_cur_run _ _ _ (set_cur_proc_lookup _ _ _ Hp))).
    rewrite set_cur_proc_twice. apply bind_fault. unfold printQueue.
    rewrite (bind_ret _ _ _ _ _ (myproc_run _ _ (set_cur_proc_lookup _ _ _ Hp))). simpl.
    by rewrite Hquiet.
Qed.

Lemma queue_op_refines op s p q :
  pg_procs s !! pg_cur s = Some p -> queue_ok (pg_cur s) p q ->
  match list_queue_op (quiet_pid p) op q.*2 with
  | Some (r, l') => exists p' q', run_queue_op op s = Ret r (set_cur_proc p' s) /\
      queue_ok (pg_cur s) p' q' /\ q'.*2 = l' /\ same_paging p p'
  | None => run_queue_op op s = Fault NullDeref
  end.
Proof.
  intros Hp Hq. pose proof (queue_length _ _ _ Hq) as Hlen.
  assert (Hid : set_cur_proc p s = s).
  { unfold set_cur_proc. rewrite list_insert_id by done. by destruct s. }
  destruct op as [a|]; cbn [list_queue_op run_queue_op].
  - rewrite length_fmap. destruct (Nat.ltb_spec (length q) (Z.to_nat MAX_PSYC_PAGES)).
    + destruct (enqueue_spec s p q a Hp Hq) as (j & p' & Hrun & Hq' & Hs & _); [done|].
      exists p', (q ++ [(j, a)]). rewrite (bind_ret _ _ _ _ _ Hrun). split_and!; [done|done| |done].
      by rewrite fmap_app.
    + rewrite (bind_ret _ _ _ _ _ (enqueue_full s p q a Hp Hq ltac:(lia))).
      exists p, q. rewrite Hid. by split_and!.
  - destruct (quiet_pid p) eqn:Hquiet.
    + assert (pid p = 1 \/ pid p = 2) as Hpid.
      { unfold quiet_pid in Hquiet. apply orb_true_iff in Hquiet as [?|?]; to_prop; auto. }
      destruct q as [|[j a] q].
      * exists p, []. rewrite Hid. split_and!; [|done|done|done]. unfold dequeueFIFO.
        rewrite (bind_ret _ _ _ _ _ (printQueue_run _ _ _ Hp Hq ltac:(auto))).
        rewrite (bind_ret _ _ _ _ _ (myproc_run _ _ Hp)).
        by rewrite (qo_chain _ _ _ Hq : head p = None).
      * destruct (dequeue_spec s p j a q Hp Hq ltac:(auto)) as (p' & Hrun & Hq' & Hs & _).
        destruct q as [|[j2 a2] q]; exists p'; eexists; split_and!; done.
    + destruct q as [|[j a] [|[j2 a2] q]]; 
        [by apply (dequeue_null s p [] Hp Hq); simpl; lia || done
        |by apply (dequeue_null s p [(j, a)] Hp Hq); simpl; lia || done|].
      destruct (dequeue_spec s p j a _ Hp Hq ltac:(by left)) as (p' & Hrun & Hq' & Hs & _).
      exists p'. eexists. by split_and!.
Qed.

(** C7: the linked slots of a process are a first-in first-out queue of at most 15 addresses:
    any sequence of enqueueFIFO and dequeueFIFO returns what the same sequence on a list
    returns and leaves the slots representing the resulting list; enqueueing into a full
    queue drops the address; dequeueing the last address (or from an empty queue) makes
    printQueue dereference the null head, except for pids 1 and 2, where an empty queue
    yields 0xFFFFFFFF. *)
Theorem queue_refines_list (ops : list queue_op) (s : pgstate F) (p : pgproc F) (q : list (nat * Z))
    (Hp : pg_procs s !! pg_cur s = Some p) (Hq : queue_ok (pg_cur s) p q) :
  match list_queue_ops (quiet_pid p) ops q.*2 with
  | Some (rs, l') => exists p' q', run_queue_ops ops s = Ret rs (set_cur_proc p' s) /\
      queue_ok (pg_cur s) p' q' /\ q'.*2 = l'
  | None => run_queue_ops ops s = Fault NullDeref
  end.
Proof.
  revert s p q Hp Hq. induction ops as [|op ops IH]; intros s p q Hp Hq.
  { exists p, q. split_and!; [|done|done]. unfold set_cur_proc.
    rewrite list_insert_id by done. by destruct s. }
  cbn [list_queue_ops run_queue_ops]. pose proof (queue_op_refines op s p q Hp Hq) as Hop.
  destruct (list_queue_op _ op _) as [[r l1]|]; [|by apply bind_fault].
  destruct Hop as (p1 & q1 & Hrun & Hq1 & <- & Hs). simpl.
  specialize (IH (set_cur_proc p1 s) p1 q1 (set_cur_proc_lookup _ _ _ Hp) Hq1).
  assert (Hqp : quiet_pid p1 = quiet_pid p) by (unfold quiet_pid; by destruct Hs as (-> & _)).
  rewrite Hqp in IH. rewrite (bind_ret _ _ _ _ _ Hrun).
  destruct (list_queue_ops _ ops _) as [[rs l2]|]; simpl; [|by apply bind_fault].
  destruct IH as (p2 & q2 & Hrun2 & Hq2 & Hl2). exists p2, q2.
  rewrite (bind_ret _ _ _ _ _ Hrun2), set_cur_proc_twice. by split_and!.
Qed.

(** ** Where the scheme breaks *)

(** with every swap slot in use, evicting a page destroys it: moveToSwapFile returns
    normally with swap slots and swap file unchanged, the page's frame (whose bytes were the
    page's contents) goes to the free list, and the page's entry says it is in the swap file,
    where no slot has it. *)
Theorem full_swap_loses_page (s : pgstate F) (p : pgproc F) (f : F) (l : list Z)
    (q : list (nat * Z)) (a fr : Z)
    (Hpd : paged s p f l q (Z.to_nat MAX_PSYC_PAGES)) (Ha : user_page a)
    (Hfr : pframe (kmem_memory (pg_kmem s)) (pgdir p) a = Some fr) :
  exists s' p', moveToSwapFile a s = Ret tt s' /\ pg_procs s' !! pg_cur s' = Some p' /\
    pagesInSwapFile p' = pagesInSwapFile p /\ swapFile p' = Some f /\
    kmem_free kend (pg_kmem s') (fr :: l) /\
    lookup_pt (kmem_memory (pg_kmem s')) (pgdir p') a = swapped_entry /\
    forall b, 0 <= b < PGSIZE ->
      content (kmem_memory (pg_kmem s)) p f a b = Some (load8 (kmem_memory (pg_kmem s)) (fr + b)) /\
      content (kmem_memory (pg_kmem s')) p' f a b = None.
Proof.
  pose proof Hpd as [Hp _ Hfree Hw Hfo Hfile Hlen Hused _ _ _ Hswp _ _].
  set (m := kmem_memory (pg_kmem s)) in *.
  assert (He : has_flag (lookup_pt m (pgdir p) a) PTE_P = true /\
               P2V (PTE_ADDR (lookup_pt m (pgdir p) a)) = fr).
  { unfold pframe in Hfr. destruct (has_flag _ _); [|done]. by injection Hfr. }
  destruct He as [Hep Hefr]. pose proof (has_flag_nonzero _ _ Hep) as Hnz.
  destruct (lookup_table _ _ _ Hnz) as [t Ht].
  assert (Hin : forall i x, pagesInSwapFile p !! i = Some x -> (i < Z.to_nat MAX_PSYC_PAGES)%nat)
    by (intros i x Hx; rewrite <- Hlen; by eapply lookup_lt_Some).
  assert (Hnone : find_index (fun x => swp_in_use x =? 0) (pagesInSwapFile p) = None).
  { apply find_index_None. intros i x Hx. pose proof (Hused i x Hx) as Hu.
    rewrite decide_True in Hu by (by eapply Hin). by rewrite Hu. }
  assert (Hgone : find_index (fun x => swp_address x =? a) (pagesInSwapFile p) = None).
  { apply find_index_None. intros i x Hx. apply Z.eqb_neq. intros Hxa.
    destruct (Hswp i x (Hin i x Hx) Hx) as [_ Hent]. rewrite Hxa in Hent. by rewrite Hent in Hep. }
  unfold moveToSwapFile. rewrite (bind_ret _ _ _ _ _ (myproc_run _ _ Hp)), (bind_ret _ _ _ (pg_cur s) s) by done.
  rewrite (bind_ret _ _ _ _ _ (walk_pte_run _ _ _ _ _ Hw kend_high Ht)). fold m.
  rewrite (proj2 (Z.eqb_neq _ _) Hnz), Hnone. cbn [panic_if].
  rewrite (bind_ret _ _ s tt s), (bind_ret _ _ s tt s), (user_page_PTE_ADDR a Ha) by done.
  rewrite (bind_ret _ _ _ _ _ (walk_pte_run _ _ _ _ _ Hw kend_high Ht)). fold m.
  rewrite (proj2 (Z.eqb_neq _ _) Hnz), Hep, Hefr. cbn [panic_if when].
  rewrite (bind_ret _ _ s tt s) by done.
  destruct (evict_page kend kend_high (pg_kmem s) (pgdir p) l a t fr swapped_entry)
    as (k' & Hrun & Hev); [done..|].
  rewrite (bind_ret _ _ _ _ _ (in_kmem_run _ s _ _ Hrun)).
  assert (Hp' : pg_procs (set_kmem k' s) !! pg_cur (set_kmem k' s) = Some p) by done.
  rewrite (upd_cur_run _ _ _ Hp'). eexists _, _.
  split_and!; [done|apply (set_cur_proc_lookup _ _ _ Hp')|done|done|apply Hev| |].
  - simpl. by rewrite (ev_lookup _ _ _ _ _ _ _ _ Hev), decide_True.
  - intros b Hb. split; [by apply content_present|]. unfold content. simpl.
    rewrite (ev_lookup _ _ _ _ _ _ _ _ Hev), decide_True by done.
    change (has_flag swapped_entry PTE_P) with false.
    change (has_flag swapped_entry PTE_PG) with true. simpl. by rewrite Hgone.
Qed.

(** *** fork *)

(** The child's swap file holds the first [off] bytes of the parent's. *)
Definition copied_prefix (f g : F) (off : Z) : Prop :=
  swap_size g = off /\ forall k, 0 <= k < off -> swap_byte g k = swap_byte f k.

Definition with_proc (i : nat) (p : pgproc F) (s : pgstate F) : pgstate F :=
  mkPgstate (pg_kmem s) (<[i := p]> (pg_procs s)) (pg_cur s).

Lemma copy_swap_loop_spec n s c p np child f g off fuel :
  pg_cur s = c -> pg_procs s !! c = Some p -> swapFile p = Some f -> np <> c ->
  pg_procs s !! np = Some child -> swapFile child = Some g -> copied_prefix f g off ->
  swap_size f <= MAX_PSYC_PAGES * PGSIZE -> 0 <= off <= swap_size f ->
  swap_size f - off <= Z.of_nat n * 1024 -> (n < fuel)%nat ->
  exists g', copy_swap_loop np off (swap_read f off 1024) fuel s =
      Ret tt (with_proc np (set_swapFile (Some g') child) s) /\ copied_prefix f g' (swap_size f).
Proof.
  revert s child g off fuel.
  induction n as [|n IH]; intros s child g off fuel Hcur Hp Hf Hne Hc Hg Hpre Hmax Hoff Hn Hfuel;
    (destruct fuel as [|fuel]; [lia|]); rewrite swap_read_ok by lia; cbn [copy_swap_loop];
    (destruct (decide (off = swap_size f)) as [->|Hlt];
      [exists g; rewrite Z.sub_diag; cbn; split; [|done];
       unfold with_proc; rewrite list_insert_id; [by destruct s|];
       rewrite Hc; by destruct child; simpl in *; subst|]); [lia|].
  set (len := Z.min 1024 (swap_size f - off)).
  assert (0 < len <= 1024 /\ len <= swap_size f - off /\ (len < 1024 -> len = swap_size f - off))
    as (Hl1 & Hl2 & Hl3) by (unfold len; lia).
  set (bs := map (swap_byte f) (seqZ off len)).
  assert (Hlen : Z.of_nat (length bs) = len).
  { unfold bs. rewrite length_map, length_seqZ. lia. }
  destruct bs as [|b0 bs0] eqn:Ebs; [simpl in Hlen; lia|]. rewrite <- Ebs in *. clear b0 bs0 Ebs.
  destruct Hpre as [Hsg Hbg].
  destruct (swap_write_ok g off bs) as (_ & Hsz & Hby); [lia|lia|].
  rewrite (bind_ret _ _ s (fst (swap_write g off bs))
    (with_proc np (set_swapFile (Some (snd (swap_write g off bs))) child) s)).
  2: { unfold writeToSwapFile. rewrite Hc, Hg. destruct (swap_write g off bs) as [r g1].
       unfold upd_proc, mbind, M_bind, modify, ret, with_proc. simpl.
       by rewrite (list_alter_insert _ _ _ _ Hc). }
  set (g1 := snd _) in *. set (s1 := with_proc np _ s).
  rewrite (bind_ret _ _ s1 c s1) by (unfold gets; simpl; by rewrite Hcur).
  rewrite Hlen.
  assert (Hp1 : pg_procs s1 !! c = Some p) by (simpl; by rewrite list_lookup_insert_ne).
  rewrite (bind_ret _ _ s1 (swap_read f (off + len) 1024) s1).
  2: { unfold readFromSwapFile. by rewrite Hp1, Hf. }
  destruct (IH s1 (set_swapFile (Some g1) child) g1 (off + len) fuel) as (g' & Hrun & Hg');
    try done.
  - simpl. apply list_lookup_insert_eq. by eapply lookup_lt_Some.
  - split; [lia|]. intros k Hk. rewrite Hby. case_decide as Hd.
    + unfold bs. rewrite (nth_lookup_Some _ _ _ (swap_byte f k)).
      * by rewrite u8_small by apply swap_byte_range.
      * rewrite list_lookup_fmap, lookup_seqZ_lt by lia. simpl. do 2 f_equal. lia.
    + apply Hbg. lia.
  - lia.
  - lia.
  - lia.
  - exists g'. split; [|done]. rewrite Hrun. unfold s1, with_proc. simpl.
    by rewrite list_insert_insert_eq.
Qed.

(** The child's metadata: its own swap file, everything else copied from the parent [p]. *)
Definition forked (p child : pgproc F) (g : F) : pgproc F :=
  mkPgproc (pid child) (pgdir child) (Some g) (nPagesInPhyMemory p) (nPagesInSwapFile p)
    (pagesInPhyMem p) (pagesInSwapFile p) (head p).

Lemma fork_metadata_spec s p np child f g fuel :
  pg_procs s !! pg_cur s = Some p -> quiet_pid p = false -> swapFile p = Some f ->
  np <> pg_cur s -> pg_procs s !! np = Some child -> swapFile child = Some g ->
  swap_size g = 0 -> swap_size f <= MAX_PSYC_PAGES * PGSIZE ->
  swap_size f <= (Z.of_nat fuel - 1) * 1024 ->
  exists g', fork_metadata np fuel s = Ret tt (with_proc np (forked p child g') s) /\
    copied_prefix f g' (swap_size f).
Proof.
  intros Hp Hquiet Hf Hne Hc Hg Hg0 Hmax Hfuel. unfold fork_metadata.
  rewrite (bind_ret _ _ _ _ _ (myproc_run _ _ Hp)), (bind_ret _ _ _ (pg_cur s) s) by done.
  unfold quiet_pid in Hquiet. rewrite Hquiet. cbn [negb when].
  set (s1 := with_proc np (forked p child g) s).
  rewrite (bind_ret _ _ s tt s1).
  2: { unfold upd_proc, modify, s1, with_proc, forked. rewrite (list_alter_insert _ _ _ _ Hc).
       by rewrite Hg. }
  assert (Hp1 : pg_procs s1 !! pg_cur s = Some p) by (simpl; by rewrite list_lookup_insert_ne).
  rewrite (bind_ret _ _ s1 (swap_read f 0 1024) s1).
  2: { unfold readFromSwapFile. by rewrite Hp1, Hf. }
  pose proof (swap_size_nonneg f).
  destruct (copy_swap_loop_spec (fuel - 1) s1 (pg_cur s) p np (forked p child g) f g 0 fuel)
    as (g' & Hrun & Hg'); try done.
  - simpl. apply list_lookup_insert_eq. by eapply lookup_lt_Some.
  - split; [done|]. intros k Hk. lia.
  - lia.
  - lia.
  - exists g'. split; [|done]. rewrite Hrun. unfold s1, with_proc. simpl.
    by rewrite list_insert_insert_eq.
Qed.

(** fork copies the swap file but shares the queue: the child's swap file gets the same
    bytes as the parent's and its counters and slots the same values, but its queue starts at
    the parent's slots: when the child then dequeues, the page's slot is released in the
    parent's table while the parent's queue still starts there, and the child's own table,
    where the page is still marked in use, does not change. *)
Theorem fork_shares_parent_queue (s : pgstate F) (p child : pgproc F) (np j : nat) (a : Z)
    (q : list (nat * Z)) (f g : F) (fuel : nat)
    (Hp : pg_procs s !! pg_cur s = Some p) (Hquiet : quiet_pid p = false)
    (Hquietc : quiet_pid child = false)
    (Hf : swapFile p = Some f) (Hne : np <> pg_cur s) (Hc : pg_procs s !! np = Some child)
    (Hg : swapFile child = Some g) (Hg0 : swap_size g = 0)
    (Hmax : swap_size f <= MAX_PSYC_PAGES * PGSIZE) (Hfuel : swap_size f <= (Z.of_nat fuel - 1) * 1024)
    (Hq : queue_ok (pg_cur s) p ((j, a) :: q)) (Hq2 : q <> []) :
  exists s1 c1 g1, fork_metadata np fuel s = Ret tt s1 /\
    pg_procs s1 !! np = Some c1 /\ pg_procs s1 !! pg_cur s = Some p /\
    swapFile c1 = Some g1 /\ swap_size g1 = swap_size f /\
    (forall k, 0 <= k < swap_size f -> swap_byte g1 k = swap_byte f k) /\
    pagesInPhyMem c1 = pagesInPhyMem p /\ pagesInSwapFile c1 = pagesInSwapFile p /\
    exists s2 p2 c2 n, dequeueFIFO (mkPgstate (pg_kmem s1) (pg_procs s1) np) = Ret a s2 /\
      pg_procs s2 !! pg_cur s = Some p2 /\ pg_procs s2 !! np = Some c2 /\
      head p2 = Some (pg_cur s, j) /\ pagesInPhyMem p2 !! j = Some (mkPhy 0 n 0) /\
      pagesInPhyMem c2 !! j = Some (mkPhy a n 1).
Proof.
  destruct (fork_metadata_spec s p np child f g fuel) as (g1 & Hrun & Hg1 & Hb1); [done..|].
  set (c1 := forked p child g1) in *. set (s1 := with_proc np c1 s) in *.
  assert (Hc1 : pg_procs s1 !! np = Some c1)
    by (apply list_lookup_insert_eq; by eapply lookup_lt_Some).
  assert (Hp1 : pg_procs s1 !! pg_cur s = Some p) by (simpl; by rewrite list_lookup_insert_ne).
  exists s1, c1, g1. split_and!; try done.
  pose proof (queue_length _ _ _ Hq) as Hlen. pose proof Hq as [Hch Hnd _ _].
  pose proof Hch as (Hh & n & Hj & Hchn).
  assert (Hwf : (length q < walk_fuel)%nat).
  { unfold walk_fuel. change (Z.to_nat MAX_PSYC_PAGES) with 15%nat in Hlen. simpl in Hlen. lia. }
  set (s1' := mkPgstate (pg_kmem s1) (pg_procs s1) np).
  assert (Hme : forall sx px, pg_procs sx !! np = Some px -> pg_cur sx = np -> myproc sx = Ret px sx).
  { intros sx px Hx E. apply myproc_run. by rewrite E. }
  assert (Hprint : forall sx cx px k b r, pg_cur sx = np -> pg_procs sx !! np = Some cx ->
            pid cx = pid child -> head cx = Some (pg_cur s, k) -> pg_procs sx !! pg_cur s = Some px ->
            queue_from (pagesInPhyMem px) (pg_cur s) (Some (pg_cur s, k)) ((k, b) :: r) ->
            (length r < walk_fuel)%nat -> printQueue sx = Ret tt sx).
  { intros sx cx px k b r E Hcx Hpid Hhd Hpx Hfrom Hl. unfold printQueue.
    rewrite (bind_ret _ _ _ _ _ (Hme _ _ Hcx E)), Hpid. unfold quiet_pid in Hquietc.
    rewrite Hquietc, Hhd. destruct (find_tail_run sx _ px k b r walk_fuel Hpx Hfrom Hl) as (jl & al & _ & Hft).
    by rewrite (bind_ret _ _ _ _ _ Hft). }
  rewrite Hh in Hch. unfold dequeueFIFO.
  rewrite (bind_ret _ _ _ _ _ (Hprint s1' c1 p j a q eq_refl Hc1 eq_refl Hh Hp1 Hch Hwf)).
  rewrite (bind_ret _ _ _ _ _ (Hme s1' c1 Hc1 eq_refl)).
  change (head c1) with (head p). rewrite Hh.
  rewrite (bind_ret _ _ _ _ _ (read_slot_run s1' _ _ _ _ Hp1 Hj)).
  set (p2 := set_phys (alter (set_used 0 0) j (pagesInPhyMem p)) p).
  set (s2 := with_proc (pg_cur s) p2 s1').
  rewrite (bind_ret _ _ s1' tt s2).
  2: { unfold write_slot, upd_proc, modify, s2, with_proc. by rewrite (list_alter_insert _ _ _ _ Hp1). }
  assert (Hc2 : pg_procs s2 !! np = Some c1) by (simpl; rewrite list_lookup_insert_ne; done).
  set (c2 := set_head n c1). set (s3 := with_proc np c2 s2).
  rewrite (bind_ret _ _ s2 tt s3).
  2: { unfold upd_cur, modify, s3, with_proc. by rewrite (list_alter_insert _ _ _ _ Hc2). }
  assert (Hp3 : pg_procs s3 !! pg_cur s = Some p2).
  { simpl. rewrite list_lookup_insert_ne by done. apply list_lookup_insert_eq.
    by eapply lookup_lt_Some. }
  assert (Hc3 : pg_procs s3 !! np = Some c2)
    by (apply list_lookup_insert_eq; by eapply lookup_lt_Some).
  destruct q as [|[k b] r]; [done|]. pose proof Hchn as (-> & _).
  rewrite (bind_ret _ _ s3 tt s3).
  2: { apply (Hprint s3 c2 p2 k b r); try done; [|simpl in Hwf; lia].
       eapply queue_from_frame; [|exact Hchn]. intros i Hi. simpl. apply list_lookup_alter_ne.
       simpl in Hnd. apply NoDup_cons in Hnd as [Hni _]. intros <-. by apply Hni. }
  eexists s3, p2, c2, _. split_and!; [done|done|done|done| |exact Hj].
  simpl. by erewrite lookup_alter_eq_Some by done.
Qed.
End Paging.
