(* ===== verification/PagingDemo.v ===== *)
(** * PagingDemo: a swap file in memory and a concrete process, for the witnesses of [Paging] *)

From S2P Require Import Prelude Memory Mmu Kalloc Vm Frames Paging.

(** ** A swap file kept as a list of bytes *)

Definition list_write (f : list Z) (off : Z) (bs : list Z) : Z * list Z :=
  if (0 <=? off) && (off <=? Z.of_nat (length f))
  then (Z.of_nat (length bs),
        take (Z.to_nat off) f ++ map u8 bs ++ drop (Z.to_nat off + length bs) f)
  else (-1, f).
Definition list_byte (f : list Z) (k : Z) : Z :=
  if 0 <=? k then u8 (nth (Z.to_nat k) f 0) else 0.
Definition list_read (f : list Z) (off n : Z) : option (list Z) :=
  if (0 <=? off) && (off <=? Z.of_nat (length f))
  then Some (map (list_byte f) (seqZ off (Z.min n (Z.of_nat (length f) - off))))
  else None.

Lemma list_byte_write f off bs k :
  0 <= off <= Z.of_nat (length f) ->
  list_byte (take (Z.to_nat off) f ++ map u8 bs ++ drop (Z.to_nat off + length bs) f) k =
    if decide (off <= k < off + Z.of_nat (length bs))
    then u8 (nth (Z.to_nat (k - off)) bs 0) else list_byte f k.
Proof.
  intros Hoff. unfold list_byte. destruct (Z.leb_spec 0 k).
  2: { rewrite decide_False by lia. done. }
  assert (Ht : length (take (Z.to_nat off) f) = Z.to_nat off) by (rewrite length_take; lia).
  case_decide as Hd.
  - rewrite app_nth2, Ht, app_nth1 by (rewrite ?length_map, ?Ht; lia).
    replace (Z.to_nat k - Z.to_nat off)%nat with (Z.to_nat (k - off)) by lia.
    rewrite (nth_indep _ 0 (u8 0)) by (rewrite length_map; lia).
    by rewrite map_nth, u8_idem.
  - f_equal. destruct (decide (k < off)).
    + rewrite app_nth1 by (rewrite Ht; lia). rewrite !nth_lookup, lookup_take_lt by lia. done.
    + rewrite app_nth2, Ht, app_nth2, length_map by (rewrite ?length_map, ?Ht; lia).
      rewrite !nth_lookup, lookup_drop. do 2 f_equal. lia.
Qed.

#[export, program] Instance list_swap : SwapIO (list Z) := {
  swap_size f := Z.of_nat (length f);
  swap_byte := list_byte;
  swap_write := list_write;
  swap_read := list_read
}.
Next Obligation. intros f. simpl. lia. Qed.
Next Obligation.
  intros f off bs Hoff _. unfold list_write.
  rewrite (proj2 (Z.leb_le _ _)), (proj2 (Z.leb_le _ _)) by lia. cbn [andb fst snd].
  split_and!; [done| |intros k; by apply list_byte_write].
  rewrite !length_app, length_map, length_take, length_drop. lia.
Qed.
Next Obligation.
  intros f k. simpl. unfold list_byte. destruct (0 <=? k); [apply u8_range|lia].
Qed.
Next Obligation.
  intros f off n Hoff Hn. unfold list_read.
  by rewrite (proj2 (Z.leb_le _ _)), (proj2 (Z.leb_le _ _)) by lia.
Qed.

(** ** A process with [r] resident pages and [k] in the swap file *)

(** Words written into zeroed memory. *)
Fixpoint poke (l : list (Z * Z)) : memory :=
  match l with [] => fun _ => 0 | (a, v) :: l => store32 (poke l) a v end.
Fixpoint poked (l : list (Z * Z)) (a : Z) : Z :=
  match l with [] => 0 | (b, v) :: l => if decide (a = b) then u32 v else poked l a end.

Lemma poke_word l a :
  Forall (fun x => x.1 mod 4 = 0) l -> a mod 4 = 0 -> load32 (poke l) a = poked l a.
Proof.
  intros Hl Ha. induction Hl as [|[b v] l Hb Hl IH]; [done|]. cbn [poke poked]. simpl in Hb.
  case_decide as E; [subst; apply load32_store32_eq|].
  rewrite load32_store32_ne; [done|]. dlia.
Qed.

Section Demo.
Context (r k : nat) (Hr : (r <= 16)%nat) (Hk : (k <= 16)%nat).

(** The entry of virtual page [n]: frames from 0x80304000 on, then swapped pages. *)
Definition demo_entry (n : nat) : Z :=
  if (n <? r)%nat then 0x304007 + Z.of_nat n * PGSIZE else swapped_entry.
Definition demo_ptes (n len : nat) : list (Z * Z) :=
  map (fun i => (0x80303000 + 4 * Z.of_nat i, demo_entry i)) (seq n len).
Definition demo_words : list (Z * Z) :=
  (0x80300000, 0x80301000) :: (0x80302000, 0x303007) :: demo_ptes 0 (r + k).
Definition demo_mem : memory := poke demo_words.
Definition demo_kmem : kmem := mkKmem demo_mem 0x80300000 true false.
Definition demo_list : list Z := [0x80300000; 0x80301000].

Lemma demo_entry_range n : (n < 32)%nat -> 0 <= demo_entry n < 2 ^ 32.
Proof. intros Hn. unfold demo_entry. case_if; [|done]. unfold PGSIZE. lia. Qed.

Lemma poked_ptes n len a :
  (n + len <= 32)%nat ->
  poked (demo_ptes n len) a =
    if decide (a mod 4 = 0 /\ 0x80303000 + 4 * Z.of_nat n <= a < 0x80303000 + 4 * Z.of_nat (n + len))
    then demo_entry (Z.to_nat ((a - 0x80303000) / 4)) else 0.
Proof.
  revert n. induction len as [|len IH]; intros n Hn; cbn [demo_ptes seq map poked].
  { by rewrite decide_False by lia. }
  destruct (decide (a = 0x80303000 + 4 * Z.of_nat n)) as [->|Hne].
  - rewrite decide_True by (split; [dlia|lia]).
    replace (_ - _) with (Z.of_nat n * 4) by lia. rewrite Z.div_mul, Nat2Z.id by done.
    apply u32_small. apply demo_entry_range. lia.
  - fold (demo_ptes (S n) len). rewrite IH by lia. repeat case_decide; try done; exfalso; dlia.
Qed.

Lemma demo_mem_word a :
  a mod 4 = 0 ->
  load32 demo_mem a =
    if decide (a = 0x80300000) then 0x80301000 else if decide (a = 0x80302000) then 0x303007
    else if decide (0x80303000 <= a < 0x80303000 + 4 * Z.of_nat (r + k))
    then demo_entry (Z.to_nat ((a - 0x80303000) / 4)) else 0.
Proof.
  intros Ha. unfold demo_mem. rewrite poke_word; [|clear Ha|done].
  - unfold demo_words. cbn [poked]. rewrite poked_ptes by lia. repeat case_decide; done || lia.
  - repeat (apply Forall_cons_2; [done|]). apply Forall_forall. intros x Hx. unfold demo_ptes in Hx.
    apply list_elem_of_fmap in Hx as (i & -> & _). simpl. dlia.
Qed.

Lemma demo_mem_table i :
  0 <= i < NPDENTRIES ->
  table_at demo_mem demo_pgdir i = if decide (i = 0) then Some 0x80303000 else None.
Proof.
  intros Hi. unfold table_at, demo_pgdir, NPDENTRIES in *. rewrite demo_mem_word by dlia.
  repeat case_decide; try lia; done.
Qed.

Lemma demo_mem_lookup va :
  lookup_pt demo_mem demo_pgdir va =
    if decide (vpn va < Z.of_nat (r + k)) then demo_entry (Z.to_nat (vpn va)) else 0.
Proof.
  pose proof (PTX_range va) as HT. pose proof (PDX_range va). rewrite vpn_indices.
  unfold lookup_pt, NPDENTRIES in *. rewrite demo_mem_table by (unfold NPDENTRIES; lia).
  destruct (decide (PDX va = 0)) as [E|E]; [|by rewrite !decide_False by lia]. rewrite E.
  rewrite demo_mem_word by dlia.
  replace (0x80303000 + 4 * PTX va - 0x80303000) with (PTX va * 4) by lia.
  rewrite Z.div_mul by done. repeat case_decide; try lia; done.
Qed.

Lemma demo_entry_frame n :
  (n < r)%nat -> has_flag (demo_entry n) PTE_P = true /\
  P2V (PTE_ADDR (demo_entry n)) = 0x80304000 + Z.of_nat n * PGSIZE.
Proof.
  intros Hn. unfold demo_entry. rewrite (proj2 (Nat.ltb_lt _ _)) by done.
  do 16 (destruct n as [|n]; [by vm_compute|]). lia.
Qed.

Lemma demo_vpn_nonneg va : 0 <= vpn va.
Proof. unfold vpn, PGSIZE. pose proof (u32_range va). dlia. Qed.

Lemma demo_mem_frame va f :
  pframe demo_mem demo_pgdir va = Some f ->
  0 <= vpn va < Z.of_nat r /\ f = 0x80304000 + vpn va * PGSIZE.
Proof.
  pose proof (demo_vpn_nonneg va). unfold pframe. rewrite demo_mem_lookup. case_decide; [|done].
  destruct (decide (Z.to_nat (vpn va) < r)%nat) as [Hlt|Hge].
  - destruct (demo_entry_frame _ Hlt) as [-> ->]. intros [= <-]. split; [lia|]. unfold PGSIZE. lia.
  - unfold demo_entry. by rewrite (proj2 (Nat.ltb_ge _ _)) by lia.
Qed.

Lemma demo_kmem_free : kmem_free demo_kend demo_kmem demo_list.
Proof.
  split; [| | |done].
  - split; [done|]. simpl kmem_memory. rewrite demo_mem_word by done. split; [done|].
    rewrite demo_mem_word by done. done.
  - repeat constructor; done.
  - apply (bool_decide_unpack _). by vm_compute.
Qed.

Lemma demo_mem_owns p : owns demo_mem demo_pgdir p -> p = 0x80302000 \/ p = 0x80303000.
Proof.
  intros [->|(i & Hi & Hp)]; [by left|right]. rewrite demo_mem_table in Hp by done.
  case_decide; [|done]. by injection Hp as <-.
Qed.

Lemma demo_mem_wf : as_wf demo_kend demo_mem demo_pgdir demo_list.
Proof.
  split; [done|apply (bool_decide_unpack _); by vm_compute| |].
  - intros i t Hi. rewrite demo_mem_table by done. case_decide; [|done]. intros [= <-].
    split_and!; [done|done|apply (bool_decide_unpack _); by vm_compute].
  - intros i j t Hi Hj. rewrite !demo_mem_table by done. repeat case_decide; congruence || done.
Qed.

Lemma demo_mem_frames : frames_ok demo_kend demo_mem demo_pgdir demo_list 0 KERNBASE.
Proof.
  split.
  - intros va f _ [Hv ->]%demo_mem_frame. split_and!.
    + unfold good_page, demo_kend, KERNBASE, PHYSTOP, PGSIZE. split_and!; [dlia|lia|lia].
    + intros [?|?]%demo_mem_owns; unfold PGSIZE in *; lia.
    + unfold demo_list. rewrite !not_elem_of_cons. unfold PGSIZE.
      split_and!; [lia|lia|apply not_elem_of_nil].
  - intros va va' f _ _ [_ ->]%demo_mem_frame [_ E]%demo_mem_frame. unfold PGSIZE in *. lia.
Qed.

(** The slots: resident pages linked in order, swapped pages in the first swap slots. *)
Definition demo_slots : list pageInPhyMem :=
  map (fun i => mkPhy (Z.of_nat i * PGSIZE) (if (S i <? r)%nat then Some (0%nat, S i) else None) 1) (seq 0 r) ++
  replicate (15 - r) (mkPhy 0 None 0).
Definition demo_swaps : list pageInSwapFile :=
  map (fun i => mkSwp (Z.of_nat (r + i) * PGSIZE) 1) (seq 0 k) ++ replicate (15 - k) (mkSwp 0 0).
Definition demo_file : list Z := replicate (Z.to_nat (Z.of_nat k * PGSIZE)) 7.
Definition demo_proc : pgproc (list Z) :=
  mkPgproc 3 demo_pgdir (Some demo_file) (Z.of_nat r) (Z.of_nat k) demo_slots demo_swaps
    (if (0 <? r)%nat then Some (0, 0)%nat else None).
Definition demo_queue : list (nat * Z) := map (fun i => (i, Z.of_nat i * PGSIZE)) (seq 0 r).
(** The process table: the process and a child that fork is filling in. *)
Definition demo_child : pgproc (list Z) :=
  cleared (mkPgproc 4 0 (Some []) 0 0 [] [] None).
Definition demo_state : pgstate (list Z) := mkPgstate demo_kmem [demo_proc; demo_child] 0.

Lemma demo_swaps_lookup i x :
  demo_swaps !! i = Some x ->
  if decide (i < k)%nat then x = mkSwp (Z.of_nat (r + i) * PGSIZE) 1 else x = mkSwp 0 0.
Proof.
  unfold demo_swaps. intros [Hx|[Hi Hx]]%lookup_app_Some.
  - rewrite list_lookup_fmap in Hx. apply fmap_Some in Hx as (j & Hj & ->).
    apply lookup_seq in Hj as [-> Hj]. by rewrite decide_True by lia.
  - rewrite length_map, length_seq in *. apply lookup_replicate in Hx as [-> _].
    by rewrite decide_False by lia.
Qed.

Lemma demo_user_page n : (n < 32)%nat -> user_page (Z.of_nat n * PGSIZE).
Proof.
  intros Hn. split; [by apply Z.mod_mul|]. unfold PGSIZE, KERNBASE. lia.
Qed.

Lemma demo_lookup_page n :
  (n < r + k)%nat -> lookup_pt demo_mem demo_pgdir (Z.of_nat n * PGSIZE) = demo_entry n.
Proof.
  intros Hn. destruct (user_page_vpn _ (demo_user_page n ltac:(lia))) as [Hv _].
  rewrite demo_mem_lookup, Hv, Z.div_mul by done. rewrite decide_True by lia. by rewrite Nat2Z.id.
Qed.

Lemma demo_paged :
  (k <= 15)%nat -> queue_ok 0 demo_proc demo_queue ->
  paged demo_kend demo_state demo_proc demo_file demo_list demo_queue k.
Proof.
  intros Hk' Hq.
  assert (Hswp : forall n, (r <= n < r + k)%nat ->
            lookup_pt demo_mem demo_pgdir (Z.of_nat n * PGSIZE) = swapped_entry).
  { intros n Hn. rewrite demo_lookup_page by lia. unfold demo_entry.
    by rewrite (proj2 (Nat.ltb_ge _ _)) by lia. }
  split; try done.
  - apply demo_kmem_free.
  - apply demo_mem_wf.
  - apply demo_mem_frames.
  - simpl. unfold demo_swaps. rewrite length_app, length_map, length_seq, length_replicate.
    change (Z.to_nat MAX_PSYC_PAGES) with 15%nat. lia.
  - intros i x Hx%demo_swaps_lookup. case_decide; by subst.
  - simpl. unfold demo_file. rewrite length_replicate. lia.
  - intros j a (i & [= -> ->] & Hi)%list_elem_of_fmap. apply elem_of_seq in Hi.
    split; [apply demo_user_page; lia|].
    change (has_flag (lookup_pt demo_mem demo_pgdir (Z.of_nat i * PGSIZE)) PTE_P = true).
    rewrite demo_lookup_page by lia. by apply demo_entry_frame; lia.
  - unfold demo_queue. rewrite <- list_fmap_compose. apply NoDup_fmap_2; [|apply NoDup_seq].
    intros x y E. simpl in E. unfold PGSIZE in E. lia.
  - intros i x Hi Hx%demo_swaps_lookup. rewrite decide_True in Hx by done. subst x. simpl.
    split; [apply demo_user_page; lia|]. apply Hswp. lia.
  - intros i j x y Hi Hj Hx%demo_swaps_lookup Hy%demo_swaps_lookup.
    rewrite decide_True in Hx by done. rewrite decide_True in Hy by done. subst x y. simpl. unfold PGSIZE. lia.
  - change (kmem_memory (pg_kmem demo_state)) with demo_mem.
    change (pgdir demo_proc) with demo_pgdir. intros a Ha.
    destruct (user_page_vpn a Ha) as [_ Hv]. rewrite demo_mem_lookup.
    pose proof (demo_vpn_nonneg a). case_decide; [|done].
    destruct (decide (Z.to_nat (vpn a) < r)%nat) as [Hlt|Hge].
    { intros Hx. by rewrite (proj1 (demo_entry_frame _ Hlt)) in Hx. }
    intros _ _. exists (Z.to_nat (vpn a) - r)%nat.
    destruct (lookup_lt_is_Some_2 demo_swaps (Z.to_nat (vpn a) - r)%nat) as [x Hx].
    { unfold demo_swaps. rewrite length_app, length_map, length_seq. lia. }
    exists x. pose proof (demo_swaps_lookup _ _ Hx) as E. rewrite decide_True in E by lia.
    split_and!; [lia|done|]. subst x. simpl. unfold PGSIZE in *. lia.
Qed.
End Demo.

(** ** Witnesses *)

Ltac demo_queue_tac :=
  split;
    [ repeat first [reflexivity | split | eexists]
    | apply (bool_decide_unpack _); by vm_compute
    | let j := fresh in let x := fresh in let Hx := fresh in let Hj := fresh in
      intros j x Hx Hj;
      do 15 (destruct j as [|j];
        [try (exfalso; apply Hj; apply (bool_decide_unpack _); by vm_compute);
         cbn in Hx; by injection Hx as <-|]);
      by cbn in Hx
    | reflexivity ].

Lemma demo_queue_3 : queue_ok 0 (demo_proc 3 1) (demo_queue 3).
Proof. demo_queue_tac. Qed.
Lemma demo_queue_1 : queue_ok 0 (demo_proc 1 15) (demo_queue 1).
Proof. demo_queue_tac. Qed.

Lemma demo_paged_3 :
  paged demo_kend (demo_state 3 1) (demo_proc 3 1) (demo_file 1) demo_list (demo_queue 3) 1.
Proof. apply demo_paged; [lia|lia|lia|exact demo_queue_3]. Qed.
Lemma demo_paged_full :
  paged demo_kend (demo_state 1 15) (demo_proc 1 15) (demo_file 15) demo_list (demo_queue 1) 15.
Proof. apply demo_paged; [lia|lia|lia|exact demo_queue_1]. Qed.

#[local] Opaque demo_mem demo_file.

Lemma page_fault_transparent_witness :
  exists s' p' f' l' j, trap_pgflt demo_kend 0x3004 (demo_state 3 1) = Ret true s' /\
    paged demo_kend s' p' f' l' [(2%nat, 0x2000); (j, 0x3000)] 2 /\
    same_contents (demo_state 3 1) (demo_proc 3 1) (demo_file 1) s' p' f' /\
    nPagesInPhyMemory p' = 3.
Proof.
  destruct (page_fault_transparent demo_kend demo_kend_high (demo_state 3 1) (demo_proc 3 1)
    (demo_file 1) demo_list 0 1 0 0x1000 [(2%nat, 0x2000)] 1 0x3004 0 (mkSwp 0x3000 1) demo_paged_3)
    as (s' & p' & f' & l' & j & H1 & H2 & _ & H3 & H4 & _).
  - discriminate.
  - vm_compute. lia.
  - lia.
  - reflexivity.
  - reflexivity.
  - exists s', p', f', l', j. split; [exact H1|]. split; [exact H2|]. split; [exact H3|exact H4].
Defined.

Lemma queue_refines_list_witness :
  exists p' q', run_queue_ops [OpDequeue; OpEnqueue 0x5000; OpDequeue] (demo_state 3 1) =
      Ret [0; 0; 0x1000] (set_cur_proc p' (demo_state 3 1)) /\
    queue_ok 0 p' q' /\ q'.*2 = [0x2000; 0x5000].
Proof.
  exact (queue_refines_list [OpDequeue; OpEnqueue 0x5000; OpDequeue] (demo_state 3 1)
    (demo_proc 3 1) (demo_queue 3) eq_refl demo_queue_3).
Defined.

Lemma full_swap_loses_page_witness :
  exists s' p', moveToSwapFile demo_kend 0 (demo_state 1 15) = Ret tt s' /\
    pagesInSwapFile p' = demo_swaps 1 15 /\
    content (kmem_memory (pg_kmem s')) p' (demo_file 15) 0 0 = None.
Proof.
  destruct (full_swap_loses_page demo_kend demo_kend_high (demo_state 1 15) (demo_proc 1 15)
    (demo_file 15) demo_list (demo_queue 1) 0 0x80304000 demo_paged_full)
    as (s' & p' & H1 & _ & H2 & _ & _ & _ & H3).
  - split; [reflexivity|split; [discriminate|reflexivity]].
  - change (pframe (demo_mem 1 15) demo_pgdir (Z.of_nat 0 * PGSIZE) = Some 0x80304000).
    unfold pframe. rewrite demo_lookup_page by lia. reflexivity.
  - exists s', p'. split; [exact H1|]. split; [exact H2|]. apply H3. unfold PGSIZE. lia.
Defined.

Lemma fork_shares_parent_queue_witness :
  exists s1 s2 p2, fork_metadata 1 5 (demo_state 3 1) = Ret tt s1 /\
    dequeueFIFO (mkPgstate (pg_kmem s1) (pg_procs s1) 1) = Ret 0 s2 /\
    pg_procs s2 !! 0%nat = Some p2 /\ head p2 = Some (0, 0)%nat /\
    exists n, pagesInPhyMem p2 !! 0%nat = Some (mkPhy 0 n 0).
Proof.
  assert (Hsz : swap_size (demo_file 1) = 4096).
  { cbn. Local Transparent demo_file. unfold demo_file. rewrite length_replicate. reflexivity. }
  destruct (fork_shares_parent_queue (demo_state 3 1) (demo_proc 3 1) demo_child 1 0 0
    [(1%nat, 0x1000); (2%nat, 0x2000)] (demo_file 1) [] 5)
    as (s1 & c1 & g1 & H1 & _ & _ & _ & _ & _ & _ & _ & s2 & p2 & c2 & n & H2 & H3 & _ & H4 & H5 & _).
  - reflexivity.
  - reflexivity.
  - reflexivity.
  - reflexivity.
  - discriminate.
  - reflexivity.
  - reflexivity.
  - reflexivity.
  - rewrite Hsz. discriminate.
  - rewrite Hsz. discriminate.
  - exact demo_queue_3.
  - discriminate.
  - exists s1, s2, p2. split; [exact H1|]. split; [exact H2|]. split; [exact H3|].
    split; [exact H4|]. exists n. exact H5.
Defined.
