(* ===== verification/Spinlock.v ===== *)
(** * Spinlock: spin locks and the interrupt flag (spinlock.c, mycpu and myproc of proc.c)

    Every processor has a nesting depth of [pushcli], the interrupt state to restore at depth
    zero, and its interrupt flag; a lock records whether it is taken and by which processor.
    The call-stack trace [pcs] kept for debugging is not modelled. *)

From S2P Require Import Prelude.

Record cpu : Type := mkCpu {
  ncli : Z;
  intena : bool;
  if_flag : bool;
  cpu_proc : option nat;
  cr3 : Z
}.
Record spinlock : Type := mkSpin { locked : bool; lk_cpu : option nat }.

(** The processors and the locks, by address. *)
Record machine : Type := mkMachine { cpus : list cpu; locks : gmap Z spinlock }.

Definition set_cpu (c : nat) (f : cpu -> cpu) (s : machine) : machine :=
  mkMachine (alter f c (cpus s)) (locks s).
Definition set_lock (l : Z) (x : spinlock) (s : machine) : machine :=
  mkMachine (cpus s) (<[l := x]> (locks s)).
Definition the_lock (s : machine) (l : Z) : spinlock := default (mkSpin false None) (locks s !! l).

Definition set_ncli (n : Z) (x : cpu) : cpu := mkCpu n (intena x) (if_flag x) (cpu_proc x) (cr3 x).
Definition set_intena (b : bool) (x : cpu) : cpu := mkCpu (ncli x) b (if_flag x) (cpu_proc x) (cr3 x).
Definition set_if (b : bool) (x : cpu) : cpu := mkCpu (ncli x) (intena x) b (cpu_proc x) (cr3 x).
Definition set_proc (p : option nat) (x : cpu) : cpu := mkCpu (ncli x) (intena x) (if_flag x) p (cr3 x).
Definition set_cr3 (a : Z) (x : cpu) : cpu := mkCpu (ncli x) (intena x) (if_flag x) (cpu_proc x) a.

Section Spinlock.
(** The processor that executes the code. *)
Context (c : nat).

Definition initlock (l : Z) : M machine unit := modify (set_lock l (mkSpin false None)).

(** The processor's own record; reading it is only allowed with interrupts off. *)
Definition this_cpu : M machine cpu := fun s =>
  match cpus s !! c with Some x => Ret x s | None => Panic "unknown apicid" end.
Definition upd_cpu (f : cpu -> cpu) : M machine unit := modify (set_cpu c f).
Definition readeflags_if : M machine bool := x ← this_cpu; ret (if_flag x).
Definition cli : M machine unit := upd_cpu (set_if false).
Definition sti : M machine unit := upd_cpu (set_if true).
Definition mycpu : M machine cpu :=
  i ← readeflags_if;
  panic_if i "mycpu called with interrupts enabled";;
  this_cpu.

Definition pushcli : M machine unit :=
  eflags ← readeflags_if;
  cli;;
  x ← mycpu;
  when (ncli x =? 0) (upd_cpu (set_intena eflags));;
  upd_cpu (fun x => set_ncli (ncli x + 1) x).

Definition popcli : M machine unit :=
  i ← readeflags_if;
  panic_if i "popcli - interruptible";;
  upd_cpu (fun x => set_ncli (ncli x - 1) x);;
  x ← mycpu;
  panic_if (ncli x <? 0) "popcli";;
  when ((ncli x =? 0) && intena x) sti.

Definition holding (l : Z) : M machine bool :=
  pushcli;;
  r ← gets (fun s => let k := the_lock s l in locked k && bool_decide (lk_cpu k = Some c));
  popcli;;
  ret r.

(** A wait that ends only when another processor acts. *)
Definition spin {S A : Type} : M S A := fun _ => OutOfFuel.

(** Taking a lock another processor holds spins: there is no result until it lets go. *)
Definition acquire (l : Z) : M machine unit :=
  pushcli;;
  h ← holding l;
  panic_if h "acquire";;
  k ← gets (fun s => the_lock s l);
  if locked k then spin
  else modify (set_lock l (mkSpin true (Some c))).

Definition release (l : Z) : M machine unit :=
  h ← holding l;
  panic_if (negb h) "release";;
  modify (set_lock l (mkSpin false None));;
  popcli.

Definition myproc : M machine (option nat) :=
  pushcli;;
  x ← mycpu;
  popcli;;
  ret (cpu_proc x).

(** ** What the nesting depth means *)

(** Processor [c] holds exactly the locks [h]; [b] is its interrupt state outside all of them. *)
Record cpu_ok (s : machine) (h : list Z) (b : bool) (p : option nat) : Prop := {
  ok_cpu : exists x, cpus s !! c = Some x /\ ncli x = Z.of_nat (length h) /\
             if_flag x = (if decide (h = []) then b else false) /\
             (h <> [] -> intena x = b) /\ cpu_proc x = p;
  ok_nodup : NoDup h;
  ok_held : forall l, l ∈ h <-> the_lock s l = mkSpin true (Some c)
}.

(** Locks and processors other than [c] stay as they are. *)
Definition others_same (s s' : machine) : Prop :=
  (forall c', c' <> c -> cpus s' !! c' = cpus s !! c') /\
  (forall l, lk_cpu (the_lock s l) <> Some c -> locked (the_lock s l) = true ->
     the_lock s' l = the_lock s l).

Lemma upd_cpu_run f s x :
  cpus s !! c = Some x -> upd_cpu f s = Ret tt (mkMachine (<[c := f x]> (cpus s)) (locks s)).
Proof. intros Hx. unfold upd_cpu, modify, set_cpu. by rewrite (list_alter_insert _ _ _ _ Hx). Qed.

Lemma this_cpu_run s x : cpus s !! c = Some x -> this_cpu s = Ret x s.
Proof. intros Hx. unfold this_cpu. by rewrite Hx. Qed.

Lemma insert_cpu_lookup s x y :
  cpus s !! c = Some x -> cpus (mkMachine (<[c := y]> (cpus s)) (locks s)) !! c = Some y.
Proof. intros Hx. apply list_lookup_insert_eq. by eapply lookup_lt_Some. Qed.

Definition after_push (x : cpu) : cpu :=
  mkCpu (ncli x + 1) (if ncli x =? 0 then if_flag x else intena x) false (cpu_proc x) (cr3 x).
Definition after_pop (x : cpu) : cpu :=
  mkCpu (ncli x - 1) (intena x) ((ncli x - 1 =? 0) && intena x) (cpu_proc x) (cr3 x).

Lemma pushcli_run s x :
  cpus s !! c = Some x ->
  pushcli s = Ret tt (mkMachine (<[c := after_push x]> (cpus s)) (locks s)).
Proof.
  intros Hx. unfold pushcli, readeflags_if, mycpu, cli.
  rewrite bind_assoc, (bind_ret _ _ _ _ _ (this_cpu_run _ _ Hx)).
  rewrite (bind_ret _ _ s (if_flag x) s) by done.
  rewrite (bind_ret _ _ _ _ _ (upd_cpu_run _ _ _ Hx)).
  pose proof (insert_cpu_lookup s x (set_if false x) Hx) as H1.
  unfold readeflags_if. rewrite bind_assoc, bind_assoc, (bind_ret _ _ _ _ _ (this_cpu_run _ _ H1)).
  rewrite (bind_ret _ _ _ false _) by done. cbn [panic_if].
  erewrite bind_ret by (erewrite bind_ret by reflexivity; by apply this_cpu_run).
  change (ncli (set_if false x)) with (ncli x). unfold when, after_push.
  destruct (ncli x =? 0) eqn:E.
  - rewrite (bind_ret _ _ _ _ _ (upd_cpu_run _ _ _ H1)).
    rewrite (upd_cpu_run _ _ _ (insert_cpu_lookup _ _ _ H1)). simpl.
    by rewrite !list_insert_insert_eq.
  - erewrite bind_ret by reflexivity. rewrite (upd_cpu_run _ _ _ H1). simpl.
    by rewrite list_insert_insert_eq.
Qed.

Lemma popcli_run s x :
  cpus s !! c = Some x -> if_flag x = false -> 1 <= ncli x ->
  popcli s = Ret tt (mkMachine (<[c := after_pop x]> (cpus s)) (locks s)).
Proof.
  intros Hx Hif Hn. unfold popcli, readeflags_if, mycpu.
  rewrite bind_assoc, (bind_ret _ _ _ _ _ (this_cpu_run _ _ Hx)).
  rewrite (bind_ret _ _ s (if_flag x) s), Hif by done. cbn [panic_if].
  rewrite (bind_ret _ _ s tt s), (bind_ret _ _ _ _ _ (upd_cpu_run _ _ _ Hx)) by done.
  pose proof (insert_cpu_lookup s x (set_ncli (ncli x - 1) x) Hx) as H1.
  unfold readeflags_if. rewrite bind_assoc, bind_assoc, (bind_ret _ _ _ _ _ (this_cpu_run _ _ H1)).
  rewrite (bind_ret _ _ _ false _) by (unfold ret; simpl; by rewrite Hif). cbn [panic_if].
  erewrite bind_ret by (erewrite bind_ret by reflexivity; by apply this_cpu_run).
  simpl. rewrite (proj2 (Z.ltb_ge _ _)) by lia. cbn [panic_if].
  erewrite bind_ret by reflexivity. unfold when, after_pop.
  destruct (((ncli x - 1) =? 0) && intena x) eqn:E.
  - unfold sti. rewrite (upd_cpu_run _ _ _ H1). simpl. by rewrite list_insert_insert_eq.
  - unfold set_ncli. by rewrite Hif.
Qed.

(** pushcli followed by popcli, as in [holding] and [myproc]. *)
Lemma push_pop (x : cpu) : (ncli x = 0 \/ if_flag x = false) -> 0 <= ncli x ->
  exists b, after_pop (after_push x) = mkCpu (ncli x) b (if_flag x) (cpu_proc x) (cr3 x) /\
    (ncli x <> 0 -> b = intena x).
Proof.
  intros Hor Hn. unfold after_pop, after_push. simpl.
  replace (ncli x + 1 - 1) with (ncli x) by lia. destruct (Z.eqb_spec (ncli x) 0) as [E|E].
  - exists (if_flag x). by rewrite andb_true_l.
  - exists (intena x). rewrite andb_false_l. split; [|done]. f_equal. destruct Hor; [done|congruence].
Qed.

Definition held_here (s : machine) (l : Z) : bool :=
  locked (the_lock s l) && bool_decide (lk_cpu (the_lock s l) = Some c).

Lemma held_here_spec s h b p l : cpu_ok s h b p -> held_here s l = bool_decide (l ∈ h).
Proof.
  intros [_ _ Hh]. unfold held_here. pose proof (Hh l) as Hl. destruct (decide (l ∈ h)) as [Hin|Hin].
  - rewrite (bool_decide_true (l ∈ h)) by done. apply Hl in Hin. rewrite Hin. simpl. by case_bool_decide.
  - rewrite (bool_decide_false (l ∈ h)) by done. destruct (the_lock s l) as [[] lc] eqn:El; [|done]. simpl. case_bool_decide; [|done].
    subst lc. exfalso. by apply Hin, Hl.
Qed.

Lemma holding_run s x l :
  cpus s !! c = Some x -> (ncli x = 0 \/ if_flag x = false) -> 0 <= ncli x ->
  exists y, holding l s = Ret (held_here s l) (mkMachine (<[c := y]> (cpus s)) (locks s)) /\
    ncli y = ncli x /\ if_flag y = if_flag x /\ cpu_proc y = cpu_proc x /\ cr3 y = cr3 x /\
    (ncli x <> 0 -> intena y = intena x).
Proof.
  intros Hx Hor Hn. destruct (push_pop x Hor Hn) as (b & E & Hb).
  exists (after_pop (after_push x)). rewrite E. split_and!; try done.
  unfold holding. rewrite (bind_ret _ _ _ _ _ (pushcli_run _ _ Hx)).
  erewrite bind_ret by reflexivity.
  assert (Hif : if_flag (after_push x) = false) by done.
  rewrite (bind_ret _ _ _ _ _ (popcli_run _ _ (insert_cpu_lookup _ _ _ Hx) Hif ltac:(simpl; lia))).
  unfold ret. simpl. by rewrite list_insert_insert_eq, E.
Qed.

Lemma cpu_ok_bounds s h b p x :
  cpu_ok s h b p -> cpus s !! c = Some x -> (ncli x = 0 \/ if_flag x = false) /\ 0 <= ncli x.
Proof.
  intros [(y & Hy & Hn & Hi & _) _ _] Hx. rewrite Hx in Hy. injection Hy as <-.
  split; [|lia]. destruct h; [left; by rewrite Hn|right; by rewrite Hi].
Qed.

(** What acquire does in each case: the lock is already held here, held elsewhere, or free. *)
Lemma acquire_spec s h b p l :
  cpu_ok s h b p ->
  if decide (l ∈ h) then acquire l s = Panic "acquire"
  else if locked (the_lock s l) then acquire l s = OutOfFuel
  else exists s', acquire l s = Ret tt s' /\ cpu_ok s' (l :: h) b p /\
         (forall l', l' <> l -> the_lock s' l' = the_lock s l').
Proof.
  intros Hok. pose proof Hok as [(x & Hx & Hn & Hi & Hb & Hp) Hnd Hh].
  unfold acquire. rewrite (bind_ret _ _ _ _ _ (pushcli_run _ _ Hx)).
  set (s1 := mkMachine (<[c := after_push x]> (cpus s)) (locks s)).
  assert (Hx1 : cpus s1 !! c = Some (after_push x)) by (by eapply insert_cpu_lookup).
  destruct (holding_run s1 (after_push x) l Hx1) as (y & Hrun & Yn & Yi & Yp & _ & Yb);
    [by right|simpl; lia|].
  rewrite (bind_ret _ _ _ _ _ Hrun).
  change (held_here s1 l) with (held_here s l). rewrite (held_here_spec _ _ _ _ _ Hok).
  destruct (decide (l ∈ h)) as [Hin|Hin]; [by rewrite bool_decide_true|].
  rewrite bool_decide_false by done. cbn [panic_if].
  erewrite bind_ret by reflexivity. erewrite bind_ret by reflexivity.
  change (the_lock _ l) with (the_lock s l). destruct (locked (the_lock s l)) eqn:El; [done|].
  eexists. split; [done|].
  assert (Hother : forall sx l', l' <> l -> locks sx = locks s ->
            the_lock (set_lock l (mkSpin true (Some c)) sx) l' = the_lock s l').
  { intros sx l' Hne E. unfold the_lock, set_lock. simpl. by rewrite lookup_insert_ne, E. }
  split; [|intros l' Hne; by apply Hother]. split.
  - exists y. simpl. split_and!.
    + rewrite list_insert_insert_eq. apply list_lookup_insert_eq. by eapply lookup_lt_Some.
    + rewrite Yn. simpl. lia.
    + by rewrite Yi.
    + intros _. rewrite Yb by (simpl; lia). simpl. rewrite Hn, Hi.
      destruct h; [done|]. rewrite (proj2 (Z.eqb_neq _ _)) by (simpl; lia). by apply Hb.
    + by rewrite Yp.
  - by apply NoDup_cons.
  - intros l'. rewrite elem_of_cons. destruct (decide (l' = l)) as [->|Hne].
    + split; [intros _|by left]. unfold the_lock, set_lock. simpl. by rewrite lookup_insert_eq.
    + rewrite Hother by done. rewrite <- Hh. tauto.
Qed.

Lemma release_spec s h b p l :
  cpu_ok s h b p ->
  if decide (l ∈ h)
  then exists s', release l s = Ret tt s' /\ cpu_ok s' (filter (fun l' => l' <> l) h) b p /\
         the_lock s' l = mkSpin false None /\
         (forall l', l' <> l -> the_lock s' l' = the_lock s l')
  else release l s = Panic "release".
Proof.
  intros Hok. pose proof Hok as [(x & Hx & Hn & Hi & Hb & Hp) Hnd Hh].
  destruct (cpu_ok_bounds _ _ _ _ _ Hok Hx) as [Hor Hge].
  destruct (holding_run s x l Hx Hor Hge) as (y & Hrun & Yn & Yi & Yp & _ & Yb).
  unfold release. rewrite (bind_ret _ _ _ _ _ Hrun), (held_here_spec _ _ _ _ _ Hok).
  destruct (decide (l ∈ h)) as [Hin|Hin];
    [rewrite bool_decide_true by done|by rewrite bool_decide_false].
  cbn [negb panic_if]. erewrite bind_ret by reflexivity. erewrite bind_ret by reflexivity.
  assert (Hlen : (1 <= length h)%nat) by (destruct h; [by apply elem_of_nil in Hin|simpl; lia]).
  assert (Hne : h <> []) by (intros ->; by apply elem_of_nil in Hin).
  set (s1 := set_lock l _ _).
  assert (Hy : cpus s1 !! c = Some y) by (apply list_lookup_insert_eq; by eapply lookup_lt_Some).
  rewrite (popcli_run _ _ Hy); [|by rewrite Yi, Hi, decide_False|lia].
  set (h' := filter _ h).
  assert (Hh' : length h = S (length h')) by (by apply filter_ne_length).
  eexists. split; [done|].
  assert (Hother : forall l', l' <> l -> the_lock s1 l' = the_lock s l').
  { intros l' Hl'. unfold the_lock, s1, set_lock. simpl. by rewrite lookup_insert_ne. }
  split_and!; [|unfold the_lock, s1, set_lock; simpl; by rewrite lookup_insert_eq|done].
  split.
  - exists (after_pop y). split_and!.
    + apply list_lookup_insert_eq. by eapply lookup_lt_Some.
    + simpl. lia.
    + simpl. rewrite Yn, Hn, Hh', Yb, Hb by (done || lia). clearbody h'.
      destruct h' as [|k h'']; [done|]. rewrite decide_False by done.
      by rewrite (proj2 (Z.eqb_neq _ _)) by (simpl; lia).
    + intros _. simpl. rewrite Yb by lia. by apply Hb.
    + simpl. by rewrite Yp.
  - by apply NoDup_filter.
  - intros l'. unfold h'. rewrite list_elem_of_filter. change (the_lock (mkMachine _ (locks s1)) l') with (the_lock s1 l').
    destruct (decide (l' = l)) as [->|Hl'].
    + split; [tauto|]. unfold the_lock, s1, set_lock. simpl. by rewrite lookup_insert_eq.
    + rewrite Hother by done. rewrite <- Hh. tauto.
Qed.

(** Reading the current process changes nothing the locking discipline speaks of. *)
Lemma myproc_spec s h b p :
  cpu_ok s h b p -> exists s', myproc s = Ret p s' /\ cpu_ok s' h b p /\ locks s' = locks s.
Proof.
  intros Hok. pose proof Hok as [(x & Hx & Hn & Hi & Hb & Hp) Hnd Hh].
  destruct (cpu_ok_bounds _ _ _ _ _ Hok Hx) as [Hor Hge].
  destruct (push_pop x Hor Hge) as (b' & E & Hb').
  unfold myproc. rewrite (bind_ret _ _ _ _ _ (pushcli_run _ _ Hx)).
  pose proof (insert_cpu_lookup s x (after_push x) Hx) as H1.
  erewrite (bind_ret (mycpu)) by (unfold mycpu, readeflags_if; rewrite bind_assoc,
    (bind_ret _ _ _ _ _ (this_cpu_run _ _ H1)); by apply this_cpu_run).
  rewrite (bind_ret _ _ _ _ _ (popcli_run _ _ H1 eq_refl ltac:(simpl; lia))).
  eexists. split; [unfold ret; simpl; by rewrite Hp|]. split; [|done].
  split; [|done|done]. simpl. rewrite E, list_insert_insert_eq.
  eexists. split; [apply list_lookup_insert_eq; by eapply lookup_lt_Some|]. simpl.
  split_and!; [done|done| |done]. intros Hne. rewrite Hb'; [by apply Hb|].
  destruct h; [done|]. simpl in Hn. lia.
Qed.

(** mycpu and readeflags, with a lock held. *)
Lemma mycpu_spec s h b p :
  cpu_ok s h b p -> h <> [] ->
  exists x, mycpu s = Ret x s /\ readeflags_if s = Ret false s /\
    ncli x = Z.of_nat (length h) /\ intena x = b.
Proof.
  intros [(x & Hx & Hn & Hi & Hb & Hp) _ _] Hne. exists x. rewrite decide_False in Hi by done.
  assert (Hr : readeflags_if s = Ret false s).
  { unfold readeflags_if. rewrite (bind_ret _ _ _ _ _ (this_cpu_run _ _ Hx)). by rewrite <- Hi. }
  split_and!; auto. unfold mycpu. rewrite (bind_ret _ _ _ _ _ Hr). by apply this_cpu_run.
Qed.

(** holding answers whether the processor has the lock. *)
Lemma holding_spec s h b p l :
  cpu_ok s h b p ->
  exists s', holding l s = Ret (bool_decide (l ∈ h)) s' /\ cpu_ok s' h b p /\ locks s' = locks s.
Proof.
  intros Hok. pose proof Hok as [(x & Hx & Hn & Hi & Hb & Hp) Hnd Hh].
  destruct (cpu_ok_bounds _ _ _ _ _ Hok Hx) as [Hor Hge].
  destruct (holding_run s x l Hx Hor Hge) as (y & Hrun & Yn & Yi & Yp & _ & Yb).
  rewrite (held_here_spec _ _ _ _ _ Hok) in Hrun. eexists. split; [exact Hrun|]. split; [|done].
  split; [|done|done]. exists y. simpl.
  split_and!; [apply list_lookup_insert_eq; by eapply lookup_lt_Some|congruence|congruence| |congruence].
  intros Hne. rewrite Yb; [by apply Hb|]. destruct h; [done|]. simpl in Hn. lia.
Qed.

(** Restoring another interrupt state, as sched does when a process comes back. *)
Lemma set_intena_spec s h b b' p :
  cpu_ok s h b p -> h <> [] ->
  exists s', upd_cpu (set_intena b') s = Ret tt s' /\ cpu_ok s' h b' p /\ locks s' = locks s.
Proof.
  intros [(x & Hx & Hn & Hi & Hb & Hp) Hnd Hh] Hne.
  eexists. split; [by apply upd_cpu_run|]. split; [|done]. split; [|done|done].
  exists (set_intena b' x). simpl.
  split_and!; [apply list_lookup_insert_eq; by eapply lookup_lt_Some|done| |done|done].
  rewrite Hi. by rewrite !decide_False.
Qed.

(** ** Sequences of lock operations *)

Inductive lock_op : Type :=
  | OpAcquire (l : Z)
  | OpRelease (l : Z).

Definition run_lock_op (op : lock_op) : M machine unit :=
  match op with OpAcquire l => acquire l | OpRelease l => release l end.
Fixpoint run_lock_ops (ops : list lock_op) : M machine unit :=
  match ops with [] => ret tt | op :: ops => run_lock_op op;; run_lock_ops ops end.

(** The locks held after a sequence, or how it goes wrong: [busy] are the locks other
    processors hold. *)
Inductive lock_result : Type :=
  | Held (h : list Z)
  | Panics (msg : string)
  | Spins.
Fixpoint lock_model (busy : list Z) (ops : list lock_op) (h : list Z) : lock_result :=
  match ops with
  | [] => Held h
  | OpAcquire l :: ops =>
      if decide (l ∈ h) then Panics "acquire"
      else if decide (l ∈ busy) then Spins else lock_model busy ops (l :: h)
  | OpRelease l :: ops =>
      if decide (l ∈ h) then lock_model busy ops (filter (fun l' => l' <> l) h)
      else Panics "release"
  end.

(** C8: the locking discipline of one processor: any sequence of acquire and release panics
    exactly when it takes a lock it holds or lets go of one it does not, spins exactly on
    locks other processors hold, and otherwise ends with the processor holding the locks the
    sequence leaves held, the nesting depth equal to their number, interrupts off while any is
    held, and the interrupt state it started with restored when none is, in whatever order
    they were released. *)
Theorem lock_discipline (ops : list lock_op) (s : machine) (h busy : list Z) (b : bool)
    (p : option nat) (Hok : cpu_ok s h b p)
    (Hbusy : forall l, l ∈ busy <-> locked (the_lock s l) = true /\ l ∉ h) :
  match lock_model busy ops h with
  | Held h' => exists s', run_lock_ops ops s = Ret tt s' /\ cpu_ok s' h' b p
  | Panics msg => run_lock_ops ops s = Panic msg
  | Spins => run_lock_ops ops s = OutOfFuel
  end.
Proof.
  revert s h Hok Hbusy. induction ops as [|[l|l] ops IH]; intros s h Hok Hbusy; cbn [lock_model run_lock_ops run_lock_op].
  - by exists s.
  - pose proof (acquire_spec s h b p l Hok) as Ha. pose proof (Hbusy l) as Hl.
    destruct (decide (l ∈ h)) as [Hin|Hin]; [by apply bind_panic|].
    destruct (decide (l ∈ busy)) as [Hb|Hb].
    + apply Hl in Hb as [Hb _]. rewrite Hb in Ha. unfold mbind, M_bind. by rewrite Ha.
    + destruct (locked (the_lock s l)) eqn:El; [exfalso; tauto|].
      destruct Ha as (s1 & Hrun & Hok1 & Hoth).
      specialize (IH s1 (l :: h) Hok1).
      assert (Hbusy1 : forall l', l' ∈ busy <-> locked (the_lock s1 l') = true /\ l' ∉ l :: h).
      { intros l'. rewrite not_elem_of_cons. destruct (decide (l' = l)) as [->|Hne]; [tauto|].
        rewrite Hoth, Hbusy by done. tauto. }
      specialize (IH Hbusy1). destruct (lock_model busy ops (l :: h)) as [h'|msg|];
        [destruct IH as (s' & Hrun' & Hok'); exists s'; split; [|done]|..];
        by rewrite (bind_ret _ _ _ _ _ Hrun).
  - pose proof (release_spec s h b p l Hok) as Hr.
    destruct (decide (l ∈ h)) as [Hin|Hin]; [|by apply bind_panic].
    destruct Hr as (s1 & Hrun & Hok1 & Hl & Hoth).
    specialize (IH s1 _ Hok1).
    assert (Hbusy1 : forall l', l' ∈ busy <->
              locked (the_lock s1 l') = true /\ l' ∉ filter (fun l' => l' <> l) h).
    { intros l'. rewrite list_elem_of_filter. destruct (decide (l' = l)) as [->|Hne].
      - rewrite Hl, Hbusy. simpl. naive_solver.
      - rewrite Hoth, Hbusy by done. tauto. }
    specialize (IH Hbusy1). destruct (lock_model busy ops _) as [h'|msg|];
      [destruct IH as (s' & Hrun' & Hok'); exists s'; split; [|done]|..];
      by rewrite (bind_ret _ _ _ _ _ Hrun).
Qed.
End Spinlock.

(** Two processors; the second holds lock 7, the first runs with interrupts on. *)
Definition demo_machine : machine :=
  mkMachine [mkCpu 0 false true None 0; mkCpu 1 true false None 0]
    {[ 7 := mkSpin true (Some 1%nat) ]}.

Lemma lock_discipline_witness :
  (exists s', run_lock_ops 0 [OpAcquire 1; OpAcquire 2; OpRelease 1; OpRelease 2] demo_machine =
    Ret tt s' /\ cpu_ok 0 s' [] true None) /\
  run_lock_ops 0 [OpAcquire 1; OpAcquire 7] demo_machine = OutOfFuel /\
  run_lock_ops 0 [OpAcquire 1; OpAcquire 1] demo_machine = Panic "acquire".
Proof.
  assert (Hlk : forall l, the_lock demo_machine l =
            if decide (l = 7) then mkSpin true (Some 1%nat) else mkSpin false None).
  { intros l. unfold the_lock, demo_machine. simpl. rewrite lookup_singleton.
    repeat case_decide; congruence || done. }
  assert (Hok : cpu_ok 0 demo_machine [] true None).
  { split; [|constructor|].
    - eexists. split; [reflexivity|]. done.
    - intros l. rewrite Hlk, elem_of_nil. split; [done|]. case_decide; done. }
  assert (Hbusy : forall l, l ∈ [7] <-> locked (the_lock demo_machine l) = true /\ l ∉ []).
  { intros l. rewrite Hlk, list_elem_of_singleton. split.
    - intros ->. split; [reflexivity|apply not_elem_of_nil].
    - intros [Hx _]. case_decide; done. }
  split; [|split].
  - exact (lock_discipline 0 [OpAcquire 1; OpAcquire 2; OpRelease 1; OpRelease 2] _ [] [7] _ _ Hok Hbusy).
  - exact (lock_discipline 0 [OpAcquire 1; OpAcquire 7] _ [] [7] _ _ Hok Hbusy).
  - exact (lock_discipline 0 [OpAcquire 1; OpAcquire 1] _ [] [7] _ _ Hok Hbusy).
Defined.
