(* ===== verification/Proc.v ===== *)
(** * Proc: the life cycle of processes (proc.c of offline_4)

    One processor executes an operation of proc.c from its call until it returns or gives the
    processor away in [sched]; there the scheduler's loop takes over with ptable.lock still
    held, and either dispatches another process, which resumes where it last called [sched]
    (or in [forkret]), or comes to the end of the table. The saved [context] is the place a
    process resumes at. The calls that give ptable.lock up on their way are composed of pieces
    ([alloc_slot], [alloc_stack], [fork_build] and [fork_finish] of fork; [exit_release] and
    [exit_locked] of exit; [sleep] and [sleep_end] of sleep), between which [ProcSteps] lets
    other processors run. Memory, files and the paging metadata belong to other components and
    are reached through the interface [ProcEnv], whose operations are treated as one step. *)

From S2P Require Import Prelude Mmu Spinlock.

Definition NPROC : Z := 64.
Definition NOFILE : Z := 16.

Inductive procstate : Type := UNUSED | EMBRYO | SLEEPING | RUNNABLE | RUNNING | ZOMBIE.
#[global] Instance procstate_eq_dec : EqDecision procstate.
Proof. solve_decision. Defined.

(** Sleep channels are addresses; those of the process table's entries get their own
    constructor. *)
Inductive channel : Type := NoChan | ProcChan (i : nat) | AddrChan (a : Z).
#[global] Instance channel_eq_dec : EqDecision channel.
Proof. solve_decision. Defined.

(** Where a process that does not run resumes: in forkret, in yield, in sleep (called with a
    lock other than ptable.lock, or by wait), or nowhere. Next to it, the interrupt state
    sched keeps on the process's kernel stack. *)
Inductive resume_point : Type :=
  | AtForkret
  | AtYield
  | AtSleep (lk : Z)
  | AtWait
  | AtExit.
Record context : Type := mkContext { ctx_point : resume_point; ctx_intena : bool }.

Record trapframe : Type := mkTrapframe {
  tf_eax : Z; tf_eip : Z; tf_esp : Z; tf_cs : Z; tf_ds : Z; tf_es : Z; tf_ss : Z; tf_eflags : Z
}.

Record proc : Type := mkProc {
  sz : Z;
  pgdir : Z;
  kstack : Z;
  state : procstate;
  pid : Z;
  parent : option nat;
  tf : trapframe;
  ctx : context;
  chan : channel;
  killed : Z;
  ofile : list Z;
  cwd : Z;
  name : string
}.

(** What proc.c calls in kalloc.c, vm.c, fs.c, file.c and the paging code. *)
Class ProcEnv (K : Type) : Type := {
  env_kalloc : M K Z;
  env_kfree : Z -> M K unit;
  env_setupkvm : M K Z;
  env_inituvm : Z -> M K unit;
  env_allocuvm : Z -> Z -> Z -> M K Z;
  env_deallocuvm : Z -> Z -> Z -> M K Z;
  env_copyuvm : Z -> Z -> M K Z;
  env_freevm : Z -> M K unit;
  env_filedup : Z -> M K Z;
  env_fileclose : Z -> M K unit;
  env_idup : Z -> M K Z;
  env_iput : Z -> M K unit;
  env_namei_root : M K Z;
  (** the swap file and the metadata of the process in a slot *)
  env_new_paging : nat -> Z -> M K unit;
  env_copy_paging : nat -> nat -> M K unit;
  env_removeSwapFile : nat -> M K Z;
  env_init_fs : M K unit
}.

Record kstate (K : Type) : Type := mkKstate {
  k_env : K;
  k_mach : machine;
  ptable : list proc;
  nextpid : Z;
  initproc : option nat;
  forkret_first : bool
}.
Arguments mkKstate {K}.
Arguments k_env {K}.
Arguments k_mach {K}.
Arguments ptable {K}.
Arguments nextpid {K}.
Arguments initproc {K}.
Arguments forkret_first {K}.

Definition set_state (x : procstate) (p : proc) : proc :=
  mkProc (sz p) (pgdir p) (kstack p) x (pid p) (parent p) (tf p) (ctx p) (chan p) (killed p) (ofile p) (cwd p) (name p).
Definition set_pid (x : Z) (p : proc) : proc :=
  mkProc (sz p) (pgdir p) (kstack p) (state p) x (parent p) (tf p) (ctx p) (chan p) (killed p) (ofile p) (cwd p) (name p).
Definition set_sz (x : Z) (p : proc) : proc :=
  mkProc x (pgdir p) (kstack p) (state p) (pid p) (parent p) (tf p) (ctx p) (chan p) (killed p) (ofile p) (cwd p) (name p).
Definition set_pgdir (x : Z) (p : proc) : proc :=
  mkProc (sz p) x (kstack p) (state p) (pid p) (parent p) (tf p) (ctx p) (chan p) (killed p) (ofile p) (cwd p) (name p).
Definition set_kstack (x : Z) (p : proc) : proc :=
  mkProc (sz p) (pgdir p) x (state p) (pid p) (parent p) (tf p) (ctx p) (chan p) (killed p) (ofile p) (cwd p) (name p).
Definition set_parent (x : option nat) (p : proc) : proc :=
  mkProc (sz p) (pgdir p) (kstack p) (state p) (pid p) x (tf p) (ctx p) (chan p) (killed p) (ofile p) (cwd p) (name p).
Definition set_tf (x : trapframe) (p : proc) : proc :=
  mkProc (sz p) (pgdir p) (kstack p) (state p) (pid p) (parent p) x (ctx p) (chan p) (killed p) (ofile p) (cwd p) (name p).
Definition set_ctx (x : context) (p : proc) : proc :=
  mkProc (sz p) (pgdir p) (kstack p) (state p) (pid p) (parent p) (tf p) x (chan p) (killed p) (ofile p) (cwd p) (name p).
Definition set_chan (x : channel) (p : proc) : proc :=
  mkProc (sz p) (pgdir p) (kstack p) (state p) (pid p) (parent p) (tf p) (ctx p) x (killed p) (ofile p) (cwd p) (name p).
Definition set_killed (x : Z) (p : proc) : proc :=
  mkProc (sz p) (pgdir p) (kstack p) (state p) (pid p) (parent p) (tf p) (ctx p) (chan p) x (ofile p) (cwd p) (name p).
Definition set_ofile (x : list Z) (p : proc) : proc :=
  mkProc (sz p) (pgdir p) (kstack p) (state p) (pid p) (parent p) (tf p) (ctx p) (chan p) (killed p) x (cwd p) (name p).
Definition set_cwd (x : Z) (p : proc) : proc :=
  mkProc (sz p) (pgdir p) (kstack p) (state p) (pid p) (parent p) (tf p) (ctx p) (chan p) (killed p) (ofile p) x (name p).
Definition set_name (x : string) (p : proc) : proc :=
  mkProc (sz p) (pgdir p) (kstack p) (state p) (pid p) (parent p) (tf p) (ctx p) (chan p) (killed p) (ofile p) (cwd p) x.

Section Proc.
Context {K : Type} `{ProcEnv K}.
(** The processor executing the code, the address of ptable.lock, and kpgdir. *)
Context (c : nat) (ptable_lock kpgdir : Z).
Abbreviation P := (M (kstate K)).

Definition with_mach {A : Type} (m : M machine A) : P A :=
  zoom k_mach (fun x s => mkKstate (k_env s) x (ptable s) (nextpid s) (initproc s) (forkret_first s)) m.
Definition with_env {A : Type} (m : M K A) : P A :=
  zoom k_env (fun x s => mkKstate x (k_mach s) (ptable s) (nextpid s) (initproc s) (forkret_first s)) m.
Definition set_ptable (t : list proc) (s : kstate K) : kstate K :=
  mkKstate (k_env s) (k_mach s) t (nextpid s) (initproc s) (forkret_first s).
Definition upd_procs (f : list proc -> list proc) : P unit :=
  modify (fun s => set_ptable (f (ptable s)) s).
Definition upd (i : nat) (f : proc -> proc) : P unit := upd_procs (alter f i).
Definition the_proc (i : nat) : P proc := fun s =>
  match ptable s !! i with Some p => Ret p s | None => Fault OutOfRange end.

(** myproc(), and the same where the code dereferences it at once. *)
Definition curproc : P nat := o ← with_mach (myproc c); deref o.

(** ** Allocation *)

(** allocproc while it holds ptable.lock: the first unused slot becomes an EMBRYO with the next
    pid. *)
Definition alloc_slot : P (option nat) :=
  with_mach (acquire c ptable_lock);;
  t ← gets ptable;
  match find_index (fun p => bool_decide (state p = UNUSED)) t with
  | None => with_mach (release c ptable_lock);; ret None
  | Some i =>
      n ← gets nextpid;
      upd i (fun p => set_pid n (set_state EMBRYO p));;
      modify (fun s => mkKstate (k_env s) (k_mach s) (ptable s) (s32 (n + 1)) (initproc s) (forkret_first s));;
      with_mach (release c ptable_lock);;
      ret (Some i)
  end.
(** allocproc after it gave the lock up: the kernel stack and the paging metadata of slot [i];
    without memory the slot is unused again. *)
Definition alloc_stack (i : nat) : P (option nat) :=
  k ← with_env env_kalloc;
  upd i (set_kstack k);;
  if k =? 0 then upd i (set_state UNUSED);; ret None
  else
    upd i (set_ctx (mkContext AtForkret false));;
    p ← the_proc i;
    when (negb ((pid p =? 1) || (pid p =? 2))) (with_env (env_new_paging i (pid p)));;
    ret (Some i).
Definition allocproc : P (option nat) :=
  o ← alloc_slot;
  match o with
  | None => ret None
  | Some i => alloc_stack i
  end.

Definition SEG_UCODE : Z := 3.
Definition SEG_UDATA : Z := 4.
Definition DPL_USER : Z := 3.
Definition FL_IF : Z := 0x200.

Definition userinit : P unit :=
  o ← allocproc;
  i ← deref o;
  modify (fun s => mkKstate (k_env s) (k_mach s) (ptable s) (nextpid s) (Some i) (forkret_first s));;
  d ← with_env env_setupkvm;
  upd i (set_pgdir d);;
  panic_if (d =? 0) "userinit: out of memory?";;
  with_env (env_inituvm d);;
  let cs := Z.lor (Z.shiftl SEG_UCODE 3) DPL_USER in
  let ds := Z.lor (Z.shiftl SEG_UDATA 3) DPL_USER in
  upd i (fun p => set_name "initcode" (set_tf (mkTrapframe 0 0 PGSIZE cs ds ds ds FL_IF) (set_sz PGSIZE p)));;
  w ← with_env env_namei_root;
  upd i (set_cwd w);;
  with_mach (acquire c ptable_lock);;
  upd i (set_state RUNNABLE);;
  with_mach (release c ptable_lock).

(** Loading the page directory of a process, or the kernel's. *)
Definition switchuvm (i : nat) : P unit :=
  p ← the_proc i;
  panic_if (kstack p =? 0) "switchuvm: no kstack";;
  panic_if (pgdir p =? 0) "switchuvm: no pgdir";;
  with_mach (pushcli c;; upd_cpu c (set_cr3 (V2P (pgdir p)));; popcli c).
Definition switchkvm : P unit := with_mach (upd_cpu c (set_cr3 (V2P kpgdir))).

Definition growproc (n : Z) : P Z :=
  i ← curproc;
  p ← the_proc i;
  r ← (if 0 <? n then with_env (env_allocuvm (pgdir p) (sz p) (u32 (sz p + n)))
       else if n <? 0 then with_env (env_deallocuvm (pgdir p) (sz p) (u32 (sz p + n)))
       else ret (sz p));
  if (r =? 0) && negb (n =? 0) then ret (-1)
  else upd i (set_sz r);; switchuvm i;; ret 0.

Fixpoint dup_files (i np : nat) (fds : list Z) (fd : nat) : P unit :=
  match fds with
  | [] => ret tt
  | f :: fds =>
      when (negb (f =? 0)) (
        f' ← with_env (env_filedup f);
        upd np (fun p => set_ofile (<[fd := f']> (ofile p)) p));;
      dup_files i np fds (S fd)
  end.

(** fork between allocproc and the last acquire: fills in the child [np] of process [i];
    [None] where the address space cannot be copied. *)
Definition fork_build (i np : nat) : P (option Z) :=
  p ← the_proc i;
  d ← with_env (env_copyuvm (pgdir p) (sz p));
  upd np (set_pgdir d);;
  if d =? 0 then
    q ← the_proc np;
    with_env (env_kfree (kstack q));;
    upd np (fun q => set_state UNUSED (set_kstack 0 q));;
    ret None
  else
    let t := tf p in
    upd np (fun q => set_tf (mkTrapframe 0 (tf_eip t) (tf_esp t) (tf_cs t) (tf_ds t) (tf_es t)
                               (tf_ss t) (tf_eflags t)) (set_parent (Some i) (set_sz (sz p) q)));;
    dup_files i np (ofile p) 0;;
    w ← with_env (env_idup (cwd p));
    upd np (fun q => set_name (name p) (set_cwd w q));;
    q ← the_proc np;
    when (negb ((pid p =? 1) || (pid p =? 2))) (with_env (env_copy_paging i np));;
    ret (Some (pid q)).
Definition fork_finish (np : nat) : P unit :=
  with_mach (acquire c ptable_lock);;
  upd np (set_state RUNNABLE);;
  with_mach (release c ptable_lock).
Definition fork : P Z :=
  i ← curproc;
  o ← allocproc;
  match o with
  | None => ret (-1)
  | Some np =>
      r ← fork_build i np;
      match r with
      | None => ret (-1)
      | Some n => fork_finish np;; ret n
      end
  end.

(** ** Sleeping and waking *)

Definition wakeup1 (ch : channel) : P unit :=
  upd_procs (map (fun p =>
    if bool_decide (state p = SLEEPING) && bool_decide (chan p = ch) then set_state RUNNABLE p else p)).
Definition wakeup (ch : channel) : P unit :=
  with_mach (acquire c ptable_lock);;
  wakeup1 ch;;
  with_mach (release c ptable_lock).

Definition kill (n : Z) : P Z :=
  with_mach (acquire c ptable_lock);;
  t ← gets ptable;
  match find_index (fun p => pid p =? n) t with
  | Some i =>
      upd i (fun p => let p := set_killed 1 p in
               if bool_decide (state p = SLEEPING) then set_state RUNNABLE p else p);;
      with_mach (release c ptable_lock);;
      ret 0
  | None => with_mach (release c ptable_lock);; ret (-1)
  end.

(** ** Giving the processor away *)

(** sched up to the switch to the scheduler's stack. *)
Definition sched (r : resume_point) : P unit :=
  i ← curproc;
  h ← with_mach (holding c ptable_lock);
  panic_if (negb h) "sched ptable.lock";;
  m ← with_mach (mycpu c);
  panic_if (negb (ncli m =? 1)) "sched locks";;
  p ← the_proc i;
  panic_if (bool_decide (state p = RUNNING)) "sched running";;
  e ← with_mach (readeflags_if c);
  panic_if e "sched interruptible";;
  upd i (set_ctx (mkContext r (intena m))).

(** Whether an operation kept the processor (with its result) or gave it to the scheduler. *)
Inductive leave (A : Type) : Type :=
  | Stay (a : A)
  | Switched.
Arguments Stay {A} a.
Arguments Switched {A}.

Definition yield : P (leave unit) :=
  with_mach (acquire c ptable_lock);;
  i ← curproc;
  upd i (set_state RUNNABLE);;
  sched AtYield;;
  ret Switched.

(** sleep up to the switch; [lk] may be ptable.lock itself. *)
Definition sleep (ch : channel) (lk : Z) (r : resume_point) : P unit :=
  o ← with_mach (myproc c);
  match o with
  | None => panic "sleep"
  | Some i =>
      panic_if (lk =? 0) "sleep without lk";;
      when (negb (lk =? ptable_lock)) (
        with_mach (acquire c ptable_lock);;
        with_mach (release c lk));;
      upd i (fun p => set_state SLEEPING (set_chan ch p));;
      sched r
  end.

Fixpoint close_files (i : nat) (fds : list Z) (fd : nat) : P unit :=
  match fds with
  | [] => ret tt
  | f :: fds =>
      when (negb (f =? 0)) (
        with_env (env_fileclose f);;
        upd i (fun p => set_ofile (<[fd := 0]> (ofile p)) p));;
      close_files i fds (S fd)
  end.

(** Handing the children of [i] to init; init is woken for each that is a zombie. *)
Fixpoint reparent (i : nat) (init : option nat) (j n : nat) : P unit :=
  match n with
  | O => ret tt
  | S n =>
      p ← the_proc j;
      when (bool_decide (parent p = Some i)) (
        upd j (set_parent init);;
        when (bool_decide (state p = ZOMBIE))
          (wakeup1 (match init with Some k => ProcChan k | None => NoChan end)));;
      reparent i init (S j) n
  end.

(** exit before it takes ptable.lock, and from there to the switch. *)
Definition exit_release (i : nat) : P unit :=
  p ← the_proc i;
  close_files i (ofile p) 0;;
  r ← with_env (env_removeSwapFile i);
  panic_if (negb (r =? 0)) "Swap File Remove Failed";;
  with_env (env_iput (cwd p));;
  upd i (set_cwd 0).
Definition exit_locked (i : nat) (init : option nat) : P unit :=
  with_mach (acquire c ptable_lock);;
  p ← the_proc i;
  wakeup1 (match parent p with Some k => ProcChan k | None => NoChan end);;
  n ← gets (fun s => length (ptable s));
  reparent i init 0 n;;
  upd i (set_state ZOMBIE);;
  sched AtExit.
Definition exit : P unit :=
  i ← curproc;
  init ← gets initproc;
  panic_if (bool_decide (init = Some i)) "init exiting";;
  exit_release i;;
  exit_locked i init.

(** wait's scan of the table, from after the lock is taken until it returns or sleeps. *)
Definition wait_scan (i : nat) : P (leave Z) :=
  t ← gets ptable;
  let child p := bool_decide (parent p = Some i) in
  match find_index (fun p => child p && bool_decide (state p = ZOMBIE)) t with
  | Some j =>
      p ← the_proc j;
      with_env (env_kfree (kstack p));;
      upd j (set_kstack 0);;
      with_env (env_freevm (pgdir p));;
      upd j (fun p => set_state UNUSED (set_killed 0 (set_name "" (set_parent None (set_pid 0 p)))));;
      with_mach (release c ptable_lock);;
      ret (Stay (pid p))
  | None =>
      p ← the_proc i;
      if negb (existsb child t) || negb (killed p =? 0) then
        with_mach (release c ptable_lock);; ret (Stay (-1))
      else
        sleep (ProcChan i) ptable_lock AtWait;;
        ret Switched
  end.
Definition wait : P (leave Z) :=
  i ← curproc;
  with_mach (acquire c ptable_lock);;
  wait_scan i.

(** ** The scheduler *)

Definition forkret : P unit :=
  with_mach (release c ptable_lock);;
  f ← gets forkret_first;
  when f (
    modify (fun s => mkKstate (k_env s) (k_mach s) (ptable s) (nextpid s) (initproc s) false);;
    with_env env_init_fs).

(** What a process does once switched to, until it has given ptable.lock up and runs on (with
    the result its interrupted call returns) or switches back. A process that resumes in sleep
    has yet to take back the lock it slept with, [sleep_end], which may have to wait for it. *)
Definition resume (i : nat) : P (leave Z) :=
  p ← the_proc i;
  match ctx_point (ctx p) with
  | AtForkret => forkret;; ret (Stay 0)
  | AtYield =>
      with_mach (upd_cpu c (set_intena (ctx_intena (ctx p))));;
      with_mach (release c ptable_lock);; ret (Stay 0)
  | AtSleep lk =>
      with_mach (upd_cpu c (set_intena (ctx_intena (ctx p))));;
      upd i (set_chan NoChan);;
      with_mach (release c ptable_lock);;
      ret (Stay 0)
  | AtWait =>
      with_mach (upd_cpu c (set_intena (ctx_intena (ctx p))));;
      upd i (set_chan NoChan);;
      wait_scan i
  | AtExit => panic "zombie exit"
  end.

(** The end of sleep, for a process that slept with [lk]. *)
Definition sleep_end (lk : Z) : P unit := with_mach (acquire c lk).

(** The scheduler's loop over the table from entry [i], with ptable.lock held. *)
Fixpoint scheduler_from (i n : nat) : P unit :=
  match n with
  | O => with_mach (release c ptable_lock)
  | S n =>
      p ← the_proc i;
      if negb (bool_decide (state p = RUNNABLE)) then scheduler_from (S i) n
      else
        with_mach (upd_cpu c (set_proc (Some i)));;
        switchuvm i;;
        upd i (set_state RUNNING);;
        r ← resume i;
        match r with
        | Stay _ => ret tt
        | Switched =>
            switchkvm;;
            with_mach (upd_cpu c (set_proc None));;
            scheduler_from (S i) n
        end
  end.
(** One pass of the endless loop. *)
Definition scheduler_pass : P unit :=
  with_mach (sti c);;
  with_mach (acquire c ptable_lock);;
  n ← gets (fun s => length (ptable s));
  scheduler_from 0 n.
(** The scheduler going on after process [i] switched to it. *)
Definition scheduler_resume (i : nat) : P unit :=
  switchkvm;;
  with_mach (upd_cpu c (set_proc None));;
  n ← gets (fun s => length (ptable s));
  scheduler_from (S i) (n - S i).
End Proc.
Arguments Stay {A} a.
Arguments Switched {A}.
