(* ===== verification/ProcSpec.v ===== *)
(** * ProcSpec: the process table as an abstract state machine, and its invariant

    What the life cycle of processes promises, without processors' registers, page tables and
    files: a transition system on the scheduling state, parent, pid and channel of every slot,
    the process each processor runs, and the slots fork is filling in ([pending]). The
    operations of [Proc] are shown to be sequences of these transitions in [ProcRefine]. *)

From S2P Require Import Prelude Spinlock Proc.

Record aproc : Type := mkAproc {
  a_state : procstate;
  a_pid : Z;
  a_parent : option nat;
  a_chan : channel
}.
Record astate : Type := mkAstate {
  a_procs : list aproc;
  a_next : Z;
  a_init : option nat;
  a_cur : list (option nat);
  a_pending : list nat
}.

Definition a_set_state (x : procstate) (p : aproc) : aproc := mkAproc x (a_pid p) (a_parent p) (a_chan p).
Definition a_set_chan (x : channel) (p : aproc) : aproc := mkAproc (a_state p) (a_pid p) (a_parent p) x.
Definition a_set_parent (x : option nat) (p : aproc) : aproc := mkAproc (a_state p) (a_pid p) x (a_chan p).

Definition a_wake (ch : channel) (p : aproc) : aproc :=
  if bool_decide (a_state p = SLEEPING) && bool_decide (a_chan p = ch) then a_set_state RUNNABLE p else p.
Definition parent_chan (o : option nat) : channel :=
  match o with Some k => ProcChan k | None => NoChan end.

Definition a_birth (n : Z) (p : aproc) : aproc := mkAproc EMBRYO n (a_parent p) (a_chan p).
Definition a_free (p : aproc) : aproc := mkAproc UNUSED 0 None (a_chan p).

(** The table after process [i] exits: its parent is woken, its children go to [init], init
    is woken if one of them is a zombie. *)
Definition a_orphan (i : nat) (init : option nat) (p : aproc) : aproc :=
  if bool_decide (a_parent p = Some i) then a_set_parent init p else p.
Definition has_zombie_child (i : nat) (t : list aproc) : bool :=
  existsb (fun p => bool_decide (a_parent p = Some i) && bool_decide (a_state p = ZOMBIE)) t.
Definition a_exit_table (i : nat) (init : option nat) (t : list aproc) : list aproc :=
  let t1 := map (a_wake (parent_chan (a_parent (nth i t (mkAproc UNUSED 0 None NoChan))))) t in
  let t2 := map (a_orphan i init) t1 in
  let t3 := if has_zombie_child i t then map (a_wake (parent_chan init)) t2 else t2 in
  alter (a_set_state ZOMBIE) i t3.

Definition with_procs (t : list aproc) (s : astate) : astate :=
  mkAstate t (a_next s) (a_init s) (a_cur s) (a_pending s).
Definition with_cur (c : nat) (o : option nat) (s : astate) : astate :=
  mkAstate (a_procs s) (a_next s) (a_init s) (<[c := o]> (a_cur s)) (a_pending s).
Definition with_pending (l : list nat) (s : astate) : astate :=
  mkAstate (a_procs s) (a_next s) (a_init s) (a_cur s) l.

Inductive astep : astate -> astate -> Prop :=
  | a_alloc s i p :
      a_procs s !! i = Some p -> a_state p = UNUSED -> a_next s + 1 < 2 ^ 31 ->
      astep s (mkAstate (alter (a_birth (a_next s)) i (a_procs s))
                 (a_next s + 1) (a_init s) (a_cur s) (i :: a_pending s))
  | a_boot s k p :
      k ∈ a_pending s -> a_procs s !! k = Some p -> a_parent p = None ->
      astep s (mkAstate (alter (a_set_state RUNNABLE) k (a_procs s)) (a_next s) (Some k) (a_cur s)
                 (filter (fun k' => k' <> k) (a_pending s)))
  | a_adopt s c i np :
      a_cur s !! c = Some (Some i) -> np ∈ a_pending s ->
      astep s (with_procs (alter (a_set_parent (Some i)) np (a_procs s)) s)
  | a_abort s np :
      np ∈ a_pending s ->
      astep s (with_pending (filter (fun k => k <> np) (a_pending s))
                 (with_procs (alter (a_set_state UNUSED) np (a_procs s)) s))
  | a_finish s np :
      np ∈ a_pending s ->
      astep s (with_pending (filter (fun k => k <> np) (a_pending s))
                 (with_procs (alter (a_set_state RUNNABLE) np (a_procs s)) s))
  | a_yield s c i :
      a_cur s !! c = Some (Some i) ->
      astep s (with_cur c None (with_procs (alter (a_set_state RUNNABLE) i (a_procs s)) s))
  | a_sleep s c i a :
      a_cur s !! c = Some (Some i) ->
      astep s (with_cur c None
        (with_procs (alter (fun p => a_set_state SLEEPING (a_set_chan (AddrChan a) p)) i (a_procs s)) s))
  | a_wait s c i :
      a_cur s !! c = Some (Some i) -> has_zombie_child i (a_procs s) = false ->
      astep s (with_cur c None
        (with_procs (alter (fun p => a_set_state SLEEPING (a_set_chan (ProcChan i) p)) i (a_procs s)) s))
  | a_reap s c i j p :
      a_cur s !! c = Some (Some i) -> a_procs s !! j = Some p ->
      a_parent p = Some i -> a_state p = ZOMBIE ->
      astep s (with_procs (alter a_free j (a_procs s)) s)
  | a_exit s c i :
      a_cur s !! c = Some (Some i) -> a_init s <> Some i ->
      astep s (with_cur c None (with_procs (a_exit_table i (a_init s) (a_procs s)) s))
  | a_wakeup s ch : astep s (with_procs (map (a_wake ch) (a_procs s)) s)
  | a_kill s i p :
      a_procs s !! i = Some p -> a_state p = SLEEPING ->
      astep s (with_procs (alter (a_set_state RUNNABLE) i (a_procs s)) s)
  | a_dispatch s c i p :
      a_cur s !! c = Some None -> a_procs s !! i = Some p -> a_state p = RUNNABLE ->
      astep s (with_cur c (Some i) (with_procs (alter (a_set_state RUNNING) i (a_procs s)) s))
  | a_wakes_up s c i :
      a_cur s !! c = Some (Some i) ->
      astep s (with_procs (alter (a_set_chan NoChan) i (a_procs s)) s).

(** ** The invariant *)

Record ainv (s : astate) : Prop := {
  (** no two slots have the same pid, stale pids of unused slots included *)
  inv_pids : forall i j p q, a_procs s !! i = Some p -> a_procs s !! j = Some q ->
    a_pid p = a_pid q -> a_pid p <> 0 -> i = j;
  inv_bound : 0 < a_next s /\ forall i p, a_procs s !! i = Some p -> 0 <= a_pid p < a_next s;
  (** no process sleeps in wait while it has a zombie child *)
  inv_wait : forall i j p q, a_procs s !! i = Some p -> a_procs s !! j = Some q ->
    a_state p = SLEEPING -> a_chan p = ProcChan i -> a_parent q = Some i -> a_state q <> ZOMBIE;
  (** a processor's current process is RUNNING, and is no other processor's *)
  inv_cur : forall c i, a_cur s !! c = Some (Some i) ->
    exists p, a_procs s !! i = Some p /\ a_state p = RUNNING;
  inv_excl : forall c c' i, a_cur s !! c = Some (Some i) -> a_cur s !! c' = Some (Some i) -> c = c';
  inv_pending : NoDup (a_pending s) /\
    forall i, i ∈ a_pending s -> exists p, a_procs s !! i = Some p /\ a_state p = EMBRYO;
  (** no process is its own parent *)
  inv_self : forall i p, a_procs s !! i = Some p -> a_parent p <> Some i;
  inv_init : forall k, a_init s = Some k -> (k ∉ a_pending s) /\
    exists p, a_procs s !! k = Some p /\ a_parent p = None /\ a_state p <> UNUSED
}.

(** ** Preservation *)

Lemma lookup_alter_inv {A : Type} (f : A -> A) (i j : nat) (l : list A) (q : A) :
  alter f i l !! j = Some q ->
  exists p, l !! j = Some p /\ ((i = j /\ q = f p) \/ (i <> j /\ q = p)).
Proof.
  destruct (decide (i = j)) as [->|Hne]; [|rewrite list_lookup_alter_ne by done; naive_solver].
  rewrite list_lookup_alter, decide_True by done. destruct (l !! j); naive_solver.
Qed.
Lemma lookup_map_inv {A B : Type} (f : A -> B) (j : nat) (l : list A) (q : B) :
  map f l !! j = Some q -> exists p, l !! j = Some p /\ q = f p.
Proof. rewrite list_lookup_fmap. destruct (l !! j); naive_solver. Qed.
Lemma lookup_alter_to {A : Type} (f : A -> A) (i j : nat) (l : list A) (p : A) :
  l !! j = Some p ->
  exists q, alter f i l !! j = Some q /\ ((i = j /\ q = f p) \/ (i <> j /\ q = p)).
Proof.
  intros E. destruct (decide (i = j)) as [->|Hne].
  - exists (f p). split; [by apply lookup_alter_eq_Some|by left].
  - exists p. rewrite list_lookup_alter_ne by done. auto.
Qed.
Lemma lookup_map_to {A B : Type} (f : A -> B) (j : nat) (l : list A) (p : A) :
  l !! j = Some p -> map f l !! j = Some (f p).
Proof. intros E. by rewrite list_lookup_fmap, E. Qed.

Section Slots.
(** A step that changes the slot [i] by [f], the processors and the pending slots. *)
Context (s : astate) (i : nat) (f : aproc -> aproc) (p : aproc).
Context (Hinv : ainv s) (Hp : a_procs s !! i = Some p).

Lemma alter_pids n :
  a_pid (f p) = a_pid p \/ (a_pid (f p) = a_next s /\ n = a_next s + 1) \/ a_pid (f p) = 0 ->
  a_next s <= n ->
  (forall j k q r, alter f i (a_procs s) !! j = Some q -> alter f i (a_procs s) !! k = Some r ->
     a_pid q = a_pid r -> a_pid q <> 0 -> j = k) /\
  0 < n /\ forall j q, alter f i (a_procs s) !! j = Some q -> 0 <= a_pid q < n.
Proof.
  intros Hf Hn. destruct Hinv as [Hpid [Hpos Hb] _ _ _ _ _ _]. pose proof (Hb _ _ Hp) as Hbp.
  split_and!; [|lia|].
  - intros j k q r (q0 & Hq & [[<- ->]|[Hj ->]])%lookup_alter_inv
      (r0 & Hr & [[<- ->]|[Hk ->]])%lookup_alter_inv E Hnz; [done|..].
    + rewrite Hp in Hq. injection Hq as <-. pose proof (Hb _ _ Hr).
      destruct Hf as [Hf|[[Hf _]|Hf]]; [|lia..]. eapply Hpid; eauto; congruence.
    + rewrite Hp in Hr. injection Hr as <-. pose proof (Hb _ _ Hq).
      destruct Hf as [Hf|[[Hf _]|Hf]]; [|lia..]. eapply Hpid; eauto; congruence.
    + eapply Hpid; eauto.
  - intros j q (q0 & Hq & [[<- ->]|[Hj ->]])%lookup_alter_inv.
    + rewrite Hp in Hq. injection Hq as <-. lia.
    + pose proof (Hb _ _ Hq). lia.
Qed.

Lemma ainv_alter n init cur pend :
  a_pid (f p) = a_pid p \/ (a_pid (f p) = a_next s /\ n = a_next s + 1) \/ a_pid (f p) = 0 ->
  a_next s <= n ->
  a_parent (f p) <> Some i ->
  (a_state (f p) = ZOMBIE -> a_state p = ZOMBIE /\ a_parent (f p) = a_parent p) ->
  (a_state (f p) = SLEEPING -> a_chan (f p) = ProcChan i ->
     (a_state p = SLEEPING /\ a_chan p = ProcChan i) \/ has_zombie_child i (a_procs s) = false) ->
  (forall c j, cur !! c = Some (Some j) ->
     (j = i /\ a_state (f p) = RUNNING) \/ (j <> i /\ exists c', a_cur s !! c' = Some (Some j))) ->
  (forall c c' j, cur !! c = Some (Some j) -> cur !! c' = Some (Some j) -> c = c') ->
  NoDup pend ->
  (forall j, j ∈ pend -> (j = i /\ a_state (f p) = EMBRYO) \/ (j <> i /\ j ∈ a_pending s)) ->
  (forall k, init = Some k -> (k ∉ pend) /\
     ((k = i /\ a_parent (f p) = None /\ a_state (f p) <> UNUSED) \/ (k <> i /\ a_init s = Some k))) ->
  ainv (mkAstate (alter f i (a_procs s)) n init cur pend).
Proof.
  intros Hf Hn Hs Hz Hw Hc Hx Hnd Hpd Hi. destruct (alter_pids n Hf Hn) as [H1 H2].
  destruct Hinv as [_ _ Hwait Hcur _ [_ Hpend] Hself Hinit].
  split; cbn [a_procs a_next a_init a_cur a_pending]; try done.
  - intros j k q r (q0 & Hq & Eq)%lookup_alter_inv (r0 & Hr & Er)%lookup_alter_inv Hsl Hch Hpar Hzo.
    assert (Hold : forall r1, a_procs s !! k = Some r1 -> a_parent r1 = Some j -> a_state r1 = ZOMBIE ->
              has_zombie_child j (a_procs s) = true).
    { intros r1 Hr1 E1 E2. unfold has_zombie_child. apply existsb_exists. exists r1. split.
      - by eapply list_elem_of_In, list_elem_of_lookup_2.
      - by rewrite !bool_decide_true. }
    destruct Er as [[<- ->]|[Hk ->]], Eq as [[<- ->]|[Hj ->]]; simplify_eq.
    + destruct (Hz Hzo) as [Hz1 Hz2]. rewrite Hz2 in Hpar. by eapply (Hwait j i).
    + destruct (Hw Hsl Hch) as [[Ha Hb]|Ha]; [by eapply (Hwait i k)|].
      by rewrite (Hold _ Hr Hpar Hzo) in Ha.
    + by eapply (Hwait j k).
  - intros c j Hcj. destruct (Hc _ _ Hcj) as [[-> Hst]|[Hne [c' Hc']]].
    + destruct (lookup_alter_to f i i _ _ Hp) as (q & Hq & [[_ ->]|[? _]]); [eauto|done].
    + destruct (Hcur _ _ Hc') as (q & Hq & Hst).
      destruct (lookup_alter_to f i j _ _ Hq) as (q' & Hq' & [[-> _]|[_ ->]]); [done|eauto].
  - split; [done|]. intros j Hj. destruct (Hpd _ Hj) as [[-> Hst]|[Hne Hj']].
    + destruct (lookup_alter_to f i i _ _ Hp) as (q & Hq & [[_ ->]|[? _]]); [eauto|done].
    + destruct (Hpend _ Hj') as (q & Hq & Hst).
      destruct (lookup_alter_to f i j _ _ Hq) as (q' & Hq' & [[-> _]|[_ ->]]); [done|eauto].
  - intros j q (q0 & Hq & [[<- ->]|[Hne ->]])%lookup_alter_inv; [simplify_eq|]; eauto.
  - intros k Hk. destruct (Hi _ Hk) as [Hnp [(-> & Ha & Hb)|[Hne Hk']]]; (split; [done|]).
    + destruct (lookup_alter_to f i i _ _ Hp) as (q & Hq & [[_ ->]|[? _]]); [eauto|done].
    + destruct (Hinit _ Hk') as (_ & q & Hq & Ha & Hb).
      destruct (lookup_alter_to f i k _ _ Hq) as (q' & Hq' & [[-> _]|[_ ->]]); [done|eauto].
Qed.
End Slots.

Lemma not_pending s i p : ainv s -> a_procs s !! i = Some p -> a_state p <> EMBRYO -> i ∉ a_pending s.
Proof. intros Hi Hp He Hin. destruct (inv_pending _ Hi) as [_ H]. destruct (H _ Hin) as (q & Hq & E). congruence. Qed.
Lemma not_running s i p c : ainv s -> a_procs s !! i = Some p -> a_state p <> RUNNING ->
  a_cur s !! c <> Some (Some i).
Proof. intros Hi Hp He Hin. destruct (inv_cur _ Hi _ _ Hin) as (q & Hq & E). congruence. Qed.

(** Processors other than [c] keep their process when [c]'s changes. *)
Lemma cur_insert_inv (l : list (option nat)) c o c' j :
  <[c := o]> l !! c' = Some (Some j) -> (c' = c /\ o = Some j) \/ (c' <> c /\ l !! c' = Some (Some j)).
Proof.
  destruct (decide (c = c')) as [<-|Hne]; [|rewrite list_lookup_insert_ne by done; auto].
  intros E. left. split; [done|]. destruct (decide (c < length l)%nat).
  - rewrite list_lookup_insert_eq in E by done. by injection E.
  - rewrite list_insert_ge in E by lia. apply lookup_lt_Some in E. lia.
Qed.

Lemma pending_elem s i : ainv s -> i ∈ a_pending s ->
  exists p, a_procs s !! i = Some p /\ a_state p = EMBRYO.
Proof. intros Hi. by apply (inv_pending _ Hi). Qed.

(** A change of a slot no processor runs and fork does not fill in. *)
Lemma ainv_alter_idle s i f p :
  ainv s -> a_procs s !! i = Some p -> a_state p <> RUNNING -> a_state p <> EMBRYO ->
  a_pid (f p) = a_pid p \/ a_pid (f p) = 0 -> a_parent (f p) <> Some i ->
  (a_state (f p) = ZOMBIE -> a_state p = ZOMBIE /\ a_parent (f p) = a_parent p) ->
  a_state (f p) <> SLEEPING ->
  (a_init s = Some i -> a_parent (f p) = None /\ a_state (f p) <> UNUSED) ->
  ainv (with_procs (alter f i (a_procs s)) s).
Proof.
  intros Hi Hp Hr He Hpid Hself Hz Hs Hin.
  apply (ainv_alter s i f p Hi Hp); try done; try tauto.
  - intros c j Hc. right. split; [|eauto]. intros ->. by eapply not_running.
  - apply (inv_excl _ Hi).
  - apply (inv_pending _ Hi).
  - intros j Hj. right. split; [|done]. intros ->. by eapply not_pending.
  - intros k Hk. split; [by apply (inv_init _ Hi)|]. destruct (decide (k = i)) as [->|]; tauto.
Qed.

(** A step of processor [c], which runs the process of slot [i]. *)
Lemma ainv_alter_running s c o i f :
  ainv s -> a_cur s !! c = Some (Some i) ->
  (forall p, a_pid (f p) = a_pid p /\ a_parent (f p) = a_parent p) ->
  (forall p, a_state p = RUNNING -> a_state (f p) <> ZOMBIE /\ a_state (f p) <> UNUSED) ->
  (forall p, a_state p = RUNNING -> a_state (f p) = SLEEPING -> a_chan (f p) = ProcChan i ->
     has_zombie_child i (a_procs s) = false) ->
  (o = None \/ (o = Some i /\ forall p, a_state p = RUNNING -> a_state (f p) = RUNNING)) ->
  ainv (with_cur c o (with_procs (alter f i (a_procs s)) s)).
Proof.
  intros Hi Hc Hf Hst Hsl Ho. destruct (inv_cur _ Hi _ _ Hc) as (p & Hp & Hr).
  destruct (Hf p) as [Hf1 Hf2]. destruct (Hst p Hr) as [Hz Hu].
  apply (ainv_alter s i f p Hi Hp); simpl; try done; try tauto.
  - rewrite Hf2. by apply (inv_self _ Hi).
  - intros H1 H2. right. eauto.
  - intros c' j [[-> ->]|[Hne Hc']]%cur_insert_inv.
    + destruct Ho as [|[[= ->] Ho]]; [done|]. left. auto.
    + right. split; [|eauto]. intros ->. by eapply Hne, (inv_excl _ Hi).
  - intros c1 c2 j [[-> ->]|[Hn1 H1]]%cur_insert_inv [[-> E]|[Hn2 H2]]%cur_insert_inv; try done.
    + destruct Ho as [|[[= ->] _]]; [done|]. exfalso. by eapply Hn2, (inv_excl _ Hi).
    + subst o. destruct Ho as [|[[= ->] _]]; [done|]. exfalso. by eapply Hn1, (inv_excl _ Hi).
    + by eapply (inv_excl _ Hi).
  - apply (inv_pending _ Hi).
  - intros j Hj. right. split; [|done]. intros ->. eapply not_pending; [done..| |done]. congruence.
  - intros k Hk. destruct (inv_init _ Hi _ Hk) as (Hnp & q & Hq & Hqp & _). split; [done|].
    destruct (decide (k = i)) as [->|]; [left|by right]. simplify_eq. by rewrite Hf2.
Qed.

(** A change of a slot that fork is filling in, which it keeps or gives up. *)
Lemma ainv_alter_pending s i f (keep : bool) p init :
  ainv s -> i ∈ a_pending s -> a_procs s !! i = Some p ->
  a_pid (f p) = a_pid p -> a_parent (f p) <> Some i ->
  a_state (f p) <> ZOMBIE -> a_state (f p) <> SLEEPING ->
  (keep = true -> a_state (f p) = EMBRYO) ->
  init = a_init s \/ (init = Some i /\ keep = false /\ a_parent (f p) = None /\ a_state (f p) <> UNUSED) ->
  ainv (mkAstate (alter f i (a_procs s)) (a_next s) init (a_cur s)
          (if keep then a_pending s else filter (fun k => k <> i) (a_pending s))).
Proof.
  intros Hi Hin Hp Hpid Hself Hz Hs Hk Hinit.
  destruct (pending_elem _ _ Hi Hin) as (p' & Hp' & He). simplify_eq.
  destruct (inv_pending _ Hi) as [Hnd _].
  apply (ainv_alter s i f p Hi Hp); try done; try tauto.
  - intros c j Hc. right. split; [|eauto]. intros ->. eapply not_running; [done..| |done]. congruence.
  - apply (inv_excl _ Hi).
  - destruct keep; [done|by apply NoDup_filter].
  - intros j Hj. destruct keep.
    + destruct (decide (j = i)) as [->|]; [left; auto|by right].
    + apply list_elem_of_filter in Hj. tauto.
  - intros k Hk'. destruct Hinit as [->|(-> & -> & Ha & Hb)].
    + destruct (inv_init _ Hi _ Hk') as (Hnp & _). split.
      * destruct keep; [done|]. rewrite list_elem_of_filter. tauto.
      * right. split; [by intros ->|done].
    + injection Hk' as <-. split; [|by left]. rewrite list_elem_of_filter. tauto.
Qed.

Lemma a_wake_frame ch p :
  a_pid (a_wake ch p) = a_pid p /\ a_parent (a_wake ch p) = a_parent p /\
  a_chan (a_wake ch p) = a_chan p /\
  ((a_state (a_wake ch p) = RUNNABLE /\ a_state p = SLEEPING /\ a_chan p = ch) \/
   (a_state (a_wake ch p) = a_state p /\ (a_state p = SLEEPING -> a_chan p <> ch))).
Proof.
  unfold a_wake. repeat case_bool_decide; simpl; tauto.
Qed.

(** What a wakeup or a reparenting may do to a slot. *)
Definition woken (p q : aproc) : Prop :=
  a_pid q = a_pid p /\ a_chan q = a_chan p /\
  (a_state q = a_state p \/ (a_state p = SLEEPING /\ a_state q = RUNNABLE)).

Lemma wake_lookup_inv ch t j q :
  map (a_wake ch) t !! j = Some q ->
  exists p, t !! j = Some p /\ woken p q /\ a_parent q = a_parent p /\
    (a_state q = SLEEPING -> a_chan p <> ch).
Proof.
  intros (p & Hp & ->)%lookup_map_inv. exists p. split; [done|].
  destruct (a_wake_frame ch p) as (H1 & H2 & H3 & H4). unfold woken.
  destruct H4 as [(E1 & E2 & E3)|(E1 & E2)]; rewrite E1; split_and!; auto; try done.
Qed.

Lemma wake_lookup_to ch t j p :
  t !! j = Some p -> exists q, map (a_wake ch) t !! j = Some q /\ woken p q /\ a_parent q = a_parent p.
Proof.
  intros Hp. exists (a_wake ch p). split; [by apply lookup_map_to|].
  destruct (a_wake_frame ch p) as (H1 & H2 & H3 & H4). unfold woken. naive_solver.
Qed.

Lemma woken_state p q x : woken p q -> a_state p = x -> x <> SLEEPING -> a_state q = x.
Proof. intros (_ & _ & H). destruct H as [H|[H _]]; congruence. Qed.
Lemma woken_back p q x : woken p q -> a_state q = x -> x <> RUNNABLE -> a_state p = x.
Proof. intros (_ & _ & H). destruct H as [H|[_ H]]; congruence. Qed.

Lemma ainv_wake s ch : ainv s -> ainv (with_procs (map (a_wake ch) (a_procs s)) s).
Proof.
  intros [Hpid [Hpos Hb] Hwait Hcur Hexcl [Hnd Hpend] Hself Hinit].
  split; simpl; try done.
  - intros i j p q (p0 & Hp & (P1 & _) & _)%wake_lookup_inv (q0 & Hq & (Q1 & _) & _)%wake_lookup_inv.
    rewrite P1, Q1. eauto.
  - split; [done|]. intros i p (p0 & Hp & (P1 & _) & _)%wake_lookup_inv. rewrite P1. eauto.
  - intros i j p q (p0 & Hp & Pw & _)%wake_lookup_inv (q0 & Hq & Qw & Qp & _)%wake_lookup_inv Hs Hc Hpar Hz.
    pose proof Pw as (_ & Pc & _). rewrite Pc in Hc. rewrite Qp in Hpar.
    eapply (Hwait i j p0 q0); try done; [by eapply woken_back|by eapply woken_back].
  - intros c i Hc. destruct (Hcur _ _ Hc) as (p & Hp & Hr).
    destruct (wake_lookup_to ch _ _ _ Hp) as (q & Hq & Hw & _). exists q. split; [done|]. by eapply woken_state.
  - split; [done|]. intros i Hi. destruct (Hpend _ Hi) as (p & Hp & Hr).
    destruct (wake_lookup_to ch _ _ _ Hp) as (q & Hq & Hw & _). exists q. split; [done|]. by eapply woken_state.
  - intros i p (p0 & Hp & _ & P1 & _)%wake_lookup_inv. rewrite P1. eauto.
  - intros k Hk. destruct (Hinit _ Hk) as (Hnp & p & Hp & Hpar & Hu). split; [done|].
    destruct (wake_lookup_to ch _ _ _ Hp) as (q & Hq & Hw & E). exists q. rewrite E. split_and!; try done.
    intros Hq'. by apply Hu, (woken_back p q).
Qed.

(** What exit does to a slot other than the exiting process's, and to its own. *)
Lemma exit_lookup i init t p0 :
  t !! i = Some p0 ->
  forall j q, a_exit_table i init t !! j = Some q ->
  exists p, t !! j = Some p /\ a_pid q = a_pid p /\ a_chan q = a_chan p /\
    a_parent q = (if decide (a_parent p = Some i) then init else a_parent p) /\
    (j = i -> a_state q = ZOMBIE) /\
    (j <> i -> woken p q /\
       (a_state q = SLEEPING -> a_chan p <> parent_chan (a_parent p0) /\
          (has_zombie_child i t = true -> a_chan p <> parent_chan init))).
Proof.
  intros Hi j q. unfold a_exit_table. rewrite (nth_lookup_Some _ _ _ _ Hi).
  intros (q3 & H3 & Hq)%lookup_alter_inv.
  assert (exists q2, map (a_orphan i init) (map (a_wake (parent_chan (a_parent p0))) t) !! j = Some q2 /\
    woken q2 q3 /\ a_parent q3 = a_parent q2 /\
    (a_state q3 = SLEEPING -> has_zombie_child i t = true -> a_chan q2 <> parent_chan init))
    as (q2 & H2 & W2 & P2 & S2).
  { destruct (has_zombie_child i t).
    - apply wake_lookup_inv in H3 as (q2 & H2 & W2 & P2 & S2). exists q2. auto.
    - exists q3. unfold woken. auto 10. }
  apply lookup_map_inv in H2 as (q1 & H1 & E1).
  apply wake_lookup_inv in H1 as (p & Hp & (W1 & W1c & W1s) & P1 & S1).
  exists p. split; [done|].
  assert (a_pid q2 = a_pid q1 /\ a_chan q2 = a_chan q1 /\ a_state q2 = a_state q1 /\
          a_parent q2 = if decide (a_parent q1 = Some i) then init else a_parent q1) as (E2 & E3 & E4 & E5).
  { subst q2. unfold a_orphan. by case_bool_decide; [rewrite decide_True|rewrite decide_False]. }
  destruct W2 as (W2 & W2c & W2s). rewrite P1 in E5.
  assert (Hq' : a_pid q = a_pid q3 /\ a_chan q = a_chan q3 /\ a_parent q = a_parent q3).
  { by destruct Hq as [[_ ->]|[_ ->]]. }
  destruct Hq' as (Q1 & Q2 & Q3). rewrite Q1, Q2, Q3, P2.
  split_and!; [congruence..| |].
  - intros ->. by destruct Hq as [[_ ->]|[? _]].
  - intros Hj. destruct Hq as [[-> _]|[_ ->]]; [done|]. split.
    + unfold woken. split_and!; [congruence..|]. rewrite E4 in W2s. intuition congruence.
    + intros Hs. rewrite E3, W1c in S2. split; [|auto]. apply S1. rewrite E4 in W2s. intuition congruence.
Qed.

Lemma exit_table_length i init t : length (a_exit_table i init t) = length t.
Proof.
  unfold a_exit_table. rewrite length_alter. destruct (has_zombie_child i t); by rewrite !length_map.
Qed.

Lemma exit_lookup_to i init t p0 j p :
  t !! i = Some p0 -> t !! j = Some p -> exists q, a_exit_table i init t !! j = Some q.
Proof.
  intros Hi Hj. apply lookup_lt_is_Some. rewrite exit_table_length. by eapply lookup_lt_Some.
Qed.

Lemma has_zombie_child_false i t j q :
  has_zombie_child i t = false -> t !! j = Some q -> a_parent q = Some i -> a_state q <> ZOMBIE.
Proof.
  intros Hf Hq Hpar Hz. assert (has_zombie_child i t = true); [|congruence].
  apply existsb_exists. exists q. split; [by eapply list_elem_of_In, list_elem_of_lookup_2|].
  by rewrite !bool_decide_true.
Qed.

(** The slots after an exit, when the invariant held before. *)
Lemma exit_wait s c i p0 :
  ainv s -> a_cur s !! c = Some (Some i) -> a_init s <> Some i -> a_procs s !! i = Some p0 ->
  forall j k q r, a_exit_table i (a_init s) (a_procs s) !! j = Some q ->
    a_exit_table i (a_init s) (a_procs s) !! k = Some r ->
    a_state q = SLEEPING -> a_chan q = ProcChan j -> a_parent r = Some j -> a_state r <> ZOMBIE.
Proof.
  intros Hi Hc Hne Hp0 j k q r Hq Hr Hs Hch Hpar Hz.
  destruct (inv_cur _ Hi _ _ Hc) as (p0' & E & Hrun). rewrite Hp0 in E. injection E as <-.
  destruct (exit_lookup i _ _ _ Hp0 _ _ Hq) as (qo & Hqo & _ & Qc & _ & Qi & Qn).
  destruct (exit_lookup i _ _ _ Hp0 _ _ Hr) as (ro & Hro & _ & _ & Rp & Ri & Rn).
  assert (Hji : j <> i) by (intros ->; rewrite Qi in Hs; done).
  destruct (Qn Hji) as (Qw & Hwk). destruct (Hwk Hs) as (Hw1 & Hw2). clear Qi Qn Hwk.
  rewrite Qc in Hch. destruct (decide (k = i)) as [->|Hki].
  - rewrite Hp0 in Hro. injection Hro as <-. rewrite decide_False in Rp by by apply (inv_self _ Hi).
    apply Hw1. by rewrite Hch, <- Rp, Hpar.
  - destruct (Rn Hki) as (Rw & _). apply (woken_back _ _ _ Rw) in Hz; [|done].
    destruct (decide (a_parent ro = Some i)) as [Hro'|Hro'].
    + rewrite Rp in Hpar. apply Hw2; [|by rewrite Hpar].
      destruct (has_zombie_child i (a_procs s)) eqn:Ez; [done|].
      by eapply has_zombie_child_false in Ez.
    + rewrite Rp in Hpar. apply (woken_back _ _ _ Qw) in Hs; [|done].
      by eapply (inv_wait _ Hi j k).
Qed.

Lemma ainv_exit s c i :
  ainv s -> a_cur s !! c = Some (Some i) -> a_init s <> Some i ->
  ainv (with_cur c None (with_procs (a_exit_table i (a_init s) (a_procs s)) s)).
Proof.
  intros Hi Hc Hne. destruct (inv_cur _ Hi _ _ Hc) as (p0 & Hp0 & Hrun).
  pose proof (exit_lookup i (a_init s) _ _ Hp0) as Hex.
  assert (Hto : forall j p x, a_procs s !! j = Some p -> j <> i -> a_state p = x -> x <> SLEEPING ->
    exists q, a_exit_table i (a_init s) (a_procs s) !! j = Some q /\ a_state q = x /\
      (a_parent p = None -> a_parent q = None)).
  { intros j p x Hj Hji Hx Hsl. destruct (exit_lookup_to i (a_init s) _ _ _ _ Hp0 Hj) as (q & Hq).
    exists q. destruct (Hex _ _ Hq) as (p' & Hp' & _ & _ & Hpar & _ & Hw).
    rewrite Hj in Hp'. injection Hp' as <-. destruct (Hw Hji) as (Hwk & _).
    split_and!; [done|by eapply woken_state|]. intros E. by rewrite Hpar, E. }
  split; simpl.
  - intros j k q r (q0 & Hq & Eq & _)%Hex (r0 & Hr & Er & _)%Hex. rewrite Eq, Er. by apply (inv_pids _ Hi).
  - destruct (inv_bound _ Hi) as [Hpos Hb]. split; [done|]. intros j q (q0 & Hq & Eq & _)%Hex. rewrite Eq. eauto.
  - by eapply exit_wait.
  - intros c' j [[-> ?]|[Hcc Hc']]%cur_insert_inv; [done|].
    destruct (inv_cur _ Hi _ _ Hc') as (p & Hp & Hr).
    destruct (Hto j p RUNNING Hp) as (q & Hq & Hs & _); try done; [|eauto].
    intros ->. by eapply Hcc, (inv_excl _ Hi).
  - intros c1 c2 j [[-> ?]|[Hn1 H1]]%cur_insert_inv [[-> ?]|[Hn2 H2]]%cur_insert_inv; try done.
    by eapply (inv_excl _ Hi).
  - destruct (inv_pending _ Hi) as [Hnd Hpend]. split; [done|]. intros j Hj.
    destruct (Hpend _ Hj) as (p & Hp & Hr). destruct (Hto j p EMBRYO Hp) as (q & Hq & Hs & _); try done; [|eauto].
    intros ->. congruence.
  - intros j q (q0 & Hq & _ & _ & Hpar & _)%Hex E. rewrite Hpar in E.
    destruct (decide (a_parent q0 = Some i)) as [E0|E0]; [|by eapply (inv_self _ Hi)].
    destruct (inv_init _ Hi _ E) as (_ & p & Hp & Hnone & _). congruence.
  - intros k Hk. destruct (inv_init _ Hi _ Hk) as (Hnp & p & Hp & Hnone & Hu). split; [done|].
    destruct (exit_lookup_to i (a_init s) _ _ _ _ Hp0 Hp) as (q & Hq). exists q. split; [done|].
    destruct (Hex _ _ Hq) as (p' & Hp' & _ & _ & Hpar & _ & Hw). simplify_eq.
    rewrite Hpar, Hnone. split; [done|]. destruct (Hw ltac:(congruence)) as (Hwk & _).
    intros E. by apply Hu, (woken_back _ _ _ Hwk).
Qed.

Lemma astep_ainv s s' : astep s s' -> ainv s -> ainv s'.
Proof.
  intros Hstep Hi. destruct Hstep as
    [s i p Hp Hu Hn|s k p Hk Hp Hpar|s c i np Hc Hnp|s np Hnp|s np Hnp|s c i Hc|s c i a Hc|s c i Hc Hz
    |s c i j p Hc Hp Hpar Hst|s c i Hc Hin|s ch|s i p Hp Hst|s c i p Hc Hp Hst|s c i Hc].
  - apply (ainv_alter s i (a_birth (a_next s)) p Hi Hp); simpl; try done; try (right; tauto).
    + lia.
    + apply (inv_self _ Hi _ _ Hp).
    + intros c j Hc. right. split; [|eauto]. intros ->. eapply not_running; [done..| |done]. congruence.
    + apply (inv_excl _ Hi).
    + apply NoDup_cons. split; [|apply (inv_pending _ Hi)]. eapply not_pending; [done..|]. congruence.
    + intros j [->|Hj]%elem_of_cons; [by left|]. right. split; [|done]. intros ->.
      eapply not_pending; [done..| |done]. congruence.
    + intros k Hk. destruct (inv_init _ Hi _ Hk) as (Hnp & q & Hq & _ & Hqu).
      assert (k <> i) by congruence. rewrite not_elem_of_cons. tauto.
  - apply (ainv_alter_pending s k (a_set_state RUNNABLE) false p); simpl; try done; [congruence|].
    right. done.
  - destruct (pending_elem _ _ Hi Hnp) as (p & Hp & He).
    destruct (inv_cur _ Hi _ _ Hc) as (q & Hq & Hr).
    apply (ainv_alter_pending s np (a_set_parent (Some i)) true p); simpl; try done; [|congruence..|by left].
    intros [= ->]. congruence.
  - destruct (pending_elem _ _ Hi Hnp) as (p & Hp & He).
    apply (ainv_alter_pending s np (a_set_state UNUSED) false p); simpl; try done; [|by left].
    by apply (inv_self _ Hi).
  - destruct (pending_elem _ _ Hi Hnp) as (p & Hp & He).
    apply (ainv_alter_pending s np (a_set_state RUNNABLE) false p); simpl; try done; [|by left].
    by apply (inv_self _ Hi).
  - apply ainv_alter_running; try done. by left.
  - apply ainv_alter_running; try done. by left.
  - apply ainv_alter_running; try done. by left.
  - apply (ainv_alter_idle s j a_free p); simpl; try done; try congruence; [by right|].
    intros Hk. destruct (inv_init _ Hi _ Hk) as (_ & q & Hq & Hqp & _). congruence.
  - by apply ainv_exit.
  - by apply ainv_wake.
  - apply (ainv_alter_idle s i (a_set_state RUNNABLE) p); simpl; try done; try congruence; [by left|..].
    + by apply (inv_self _ Hi).
    + intros Hk. destruct (inv_init _ Hi _ Hk) as (_ & q & Hq & Hqp & _). split; congruence.
  - apply (ainv_alter s i (a_set_state RUNNING) p Hi Hp); simpl; try done; try lia.
    + by apply (inv_self _ Hi).
    + intros c' j [[-> [= ->]]|[Hne Hc']]%cur_insert_inv; [by left|]. right. split; [|eauto].
      intros ->. eapply not_running; [done..| |done]. congruence.
    + intros c1 c2 j [[-> E1]|[Hn1 H1]]%cur_insert_inv [[-> E2]|[Hn2 H2]]%cur_insert_inv; try done.
      * exfalso. simplify_eq. eapply not_running; [done..| |done]. congruence.
      * exfalso. simplify_eq. eapply not_running; [done..| |done]. congruence.
      * by eapply (inv_excl _ Hi).
    + apply (inv_pending _ Hi).
    + intros j Hj. right. split; [|done]. intros ->. eapply not_pending; [done..| |done]. congruence.
    + intros k Hk. destruct (inv_init _ Hi _ Hk) as (Hnp & q & Hq & Hqp & _). split; [done|].
      destruct (decide (k = i)) as [->|]; [left|by right]. simplify_eq. done.
  - replace (with_procs _ s) with (with_cur c (Some i) (with_procs (alter (a_set_chan NoChan) i (a_procs s)) s)).
    + apply ainv_alter_running; simpl; try done.
      * intros p ->. done.
      * right. done.
    + unfold with_cur, with_procs. simpl. by rewrite list_insert_id.
Qed.

(** ** Reachable states *)

(** The table as the kernel is loaded: every slot is zero, the next pid 1. *)
Definition a_start (n ncpu : nat) : astate :=
  mkAstate (replicate n (mkAproc UNUSED 0 None NoChan)) 1 None (replicate ncpu None) [].

Lemma a_start_ainv n ncpu : ainv (a_start n ncpu).
Proof.
  assert (Hp : forall i p, a_procs (a_start n ncpu) !! i = Some p -> p = mkAproc UNUSED 0 None NoChan).
  { intros i p Hi. by apply lookup_replicate in Hi as [-> _]. }
  assert (Hc : forall c i, a_cur (a_start n ncpu) !! c = Some (Some i) -> False).
  { intros c i Hi. by apply lookup_replicate in Hi as [? _]. }
  split.
  - intros i j p q ->%Hp ->%Hp. done.
  - split; [done|]. intros i p ->%Hp. simpl. lia.
  - intros i j p q ->%Hp. done.
  - intros c i []%Hc.
  - intros c c' i []%Hc.
  - split; [constructor|]. intros i []%elem_of_nil.
  - intros i p ->%Hp. done.
  - done.
Qed.

Lemma reachable_ainv s n ncpu : rtc astep (a_start n ncpu) s -> ainv s.
Proof.
  intros H. pose proof (a_start_ainv n ncpu) as Hi. revert Hi.
  induction H as [|s s1 s2 Hs _ IH]; [done|]. intros Hi. by eapply IH, astep_ainv.
Qed.

(** ** exit, one slot at a time *)

Definition wake_if (b : bool) (ch : channel) (t : list aproc) : list aproc :=
  if b then map (a_wake ch) t else t.

Lemma wake_orphan ch i init p : a_orphan i init (a_wake ch p) = a_wake ch (a_orphan i init p).
Proof. unfold a_orphan, a_wake. repeat (case_bool_decide; simpl); try done; congruence. Qed.
Lemma wake_idem ch p : a_wake ch (a_wake ch p) = a_wake ch p.
Proof. unfold a_wake. repeat (case_bool_decide; simpl in *); done. Qed.
Lemma wake_if_wake b ch t : map (a_wake ch) (wake_if b ch t) = wake_if true ch t.
Proof. destruct b; [|done]. simpl. rewrite map_map. apply map_ext. intros p. apply wake_idem. Qed.
Lemma wake_if_lookup b ch t j p :
  wake_if b ch t !! j = Some p -> exists q, t !! j = Some q /\ p = (if b then a_wake ch q else q).
Proof. destruct b; simpl; [|eauto]. intros (q & Hq & ->)%lookup_map_inv. eauto. Qed.

(** The table when reparent has gone through its first [j] slots, [t] being what it was. *)
Definition reparented (i : nat) (init : option nat) (j : nat) (t : list aproc) : list aproc :=
  wake_if (has_zombie_child i (take j t)) (parent_chan init)
    (map (a_orphan i init) (take j t) ++ drop j t).

Lemma reparented_step i init j t q :
  t !! j = Some q ->
  reparented i init (S j) t =
    wake_if (has_zombie_child i (take j t) || (bool_decide (a_parent q = Some i) && bool_decide (a_state q = ZOMBIE)))
      (parent_chan init) (alter (a_orphan i init) j (map (a_orphan i init) (take j t) ++ drop j t)).
Proof.
  intros Hq. unfold reparented. rewrite (take_S_r _ _ _ Hq).
  pose proof (lookup_lt_Some _ _ _ Hq) as Hlt.
  assert (Hl : length (map (a_orphan i init) (take j t)) = j) by (rewrite length_map, length_take; lia).
  f_equal.
  - unfold has_zombie_child. rewrite existsb_app. simpl. by rewrite orb_false_r.
  - rewrite (drop_S _ _ _ Hq), map_app, <- app_assoc. simpl.
    rewrite (list_alter_insert _ _ _ q) by (by rewrite lookup_app_r, Hl, Nat.sub_diag by lia).
    by rewrite insert_app_r_alt, Hl, Nat.sub_diag by lia.
Qed.

Lemma alter_wake_if b ch i init j t :
  alter (a_orphan i init) j (wake_if b ch t) = wake_if b ch (alter (a_orphan i init) j t).
Proof.
  destruct b; [|done]. simpl. apply list_eq. intros k.
  rewrite list_lookup_alter, !list_lookup_fmap, list_lookup_alter. case_decide; [|done]. subst.
  destruct (t !! k); simpl; [by rewrite wake_orphan|done].
Qed.

Lemma reparented_lookup i init j t q p :
  t !! j = Some q -> reparented i init j t !! j = Some p ->
  a_parent p = a_parent q /\ (a_state p = ZOMBIE <-> a_state q = ZOMBIE).
Proof.
  intros Hq. pose proof (lookup_lt_Some _ _ _ Hq) as Hlt. unfold reparented.
  intros (r & Hr & ->)%wake_if_lookup.
  assert (Hl : length (map (a_orphan i init) (take j t)) = j) by (rewrite length_map, length_take; lia).
  rewrite lookup_app_r, Hl, Nat.sub_diag, lookup_drop, Nat.add_0_r, Hq in Hr by lia. injection Hr as <-.
  destruct (has_zombie_child i (take j t)); [|done].
  destruct (a_wake_frame (parent_chan init) q) as (_ & Hpar & _ & Hst). rewrite Hpar. split; [done|].
  destruct Hst as [(E1 & E2 & _)|(E1 & _)]; rewrite E1; [rewrite E2|]; done.
Qed.

Lemma has_zombie_child_wake i ch t : has_zombie_child i (map (a_wake ch) t) = has_zombie_child i t.
Proof.
  unfold has_zombie_child. induction t as [|p t IH]; [done|]. cbn [map existsb]. rewrite IH. f_equal.
  destruct (a_wake_frame ch p) as (_ & Hpar & _ & Hst). rewrite Hpar. f_equal.
  apply bool_decide_ext. destruct Hst as [(E1 & E2 & _)|(E1 & _)]; rewrite E1; [rewrite E2|]; done.
Qed.

Lemma a_exit_table_reparented i init t p :
  t !! i = Some p ->
  a_exit_table i init t =
    alter (a_set_state ZOMBIE) i (reparented i init (length t) (map (a_wake (parent_chan (a_parent p))) t)).
Proof.
  intros Hp. unfold a_exit_table, reparented. rewrite (nth_lookup_Some _ _ _ _ Hp).
  rewrite firstn_all2, drop_ge, app_nil_r by (rewrite length_map; lia).
  by rewrite has_zombie_child_wake.
Qed.
