(* ===== verification/ProcRefine.v ===== *)
(** * ProcRefine: the operations of [Proc] refine the abstract process table of [ProcSpec]

    [view] forgets everything but the scheduling state; each operation that returns has made a
    sequence of abstract transitions, whatever the memory, file and paging code it calls did.
    From there the invariant of [ProcSpec] holds of the kernel's own table. *)

From S2P Require Import Prelude Mmu Spinlock Proc ProcSpec.

(** ** The processors' current processes *)

Definition procs_of (x : machine) : list (option nat) := map cpu_proc (cpus x).

(** A piece of lock code that leaves every processor's current process alone. *)
Definition keeps {A : Type} (m : M machine A) : Prop :=
  forall x a x', m x = Ret a x' -> procs_of x' = procs_of x.

Section Keeps.
Context (c : nat).

Lemma keeps_ret {A : Type} (a : A) : keeps (ret a).
Proof. by intros x a' x' [= <- <-]. Qed.
Lemma keeps_gets {A : Type} (f : machine -> A) : keeps (gets f).
Proof. by intros x a' x' [= <- <-]. Qed.
Lemma keeps_panic {A : Type} (msg : string) : keeps (panic (A := A) msg).
Proof. done. Qed.
Lemma keeps_spin {A : Type} : keeps (spin (A := A)).
Proof. done. Qed.
Lemma keeps_bind {A B : Type} (m : M machine A) (k : A -> M machine B) :
  keeps m -> (forall a, keeps (k a)) -> keeps (m ≫= k).
Proof. intros Hm Hk x b x' H. inv_m H. rewrite (Hk _ _ _ _ H). by eapply Hm. Qed.
Lemma keeps_this_cpu : keeps (this_cpu c).
Proof. intros x a x'. unfold this_cpu. by destruct (cpus x !! c); intros [= <- <-]. Qed.
Lemma keeps_set_lock l y : keeps (modify (set_lock l y)).
Proof. by intros x a x' [= <- <-]. Qed.
Lemma keeps_upd_cpu f : (forall y, cpu_proc (f y) = cpu_proc y) -> keeps (upd_cpu c f).
Proof.
  intros Hf x a x' [= <- <-]. unfold procs_of, set_cpu. simpl. apply list_eq. intros j.
  rewrite !list_lookup_fmap, list_lookup_alter. case_decide; [|done]. subst.
  destruct (cpus x !! j); simpl; [by rewrite Hf|done].
Qed.
End Keeps.
#[export] Hint Resolve keeps_ret keeps_gets keeps_panic keeps_spin keeps_this_cpu keeps_set_lock : kernel.

Ltac keeps_tac :=
  repeat first
    [ apply keeps_bind; [|intros ?]
    | apply keeps_upd_cpu; done
    | progress unfold panic_if, when
    | case_if
    | solve [auto with kernel] ].

Section KeepsOps.
Context (c : nat).

Lemma keeps_pushcli : keeps (pushcli c).
Proof. unfold pushcli, mycpu, readeflags_if, cli. keeps_tac. Qed.
Lemma keeps_popcli : keeps (popcli c).
Proof. unfold popcli, mycpu, readeflags_if, sti. keeps_tac. Qed.
Lemma keeps_holding l : keeps (holding c l).
Proof. unfold holding. pose proof keeps_pushcli. pose proof keeps_popcli. keeps_tac. Qed.
Lemma keeps_acquire l : keeps (acquire c l).
Proof. unfold acquire. pose proof keeps_pushcli. pose proof (keeps_holding l). keeps_tac. Qed.
Lemma keeps_release l : keeps (release c l).
Proof. unfold release. pose proof keeps_popcli. pose proof (keeps_holding l). keeps_tac. Qed.
Lemma keeps_mycpu : keeps (mycpu c).
Proof. unfold mycpu, readeflags_if. keeps_tac. Qed.
Lemma keeps_if : keeps (readeflags_if c).
Proof. unfold readeflags_if. keeps_tac. Qed.
Lemma keeps_myproc : keeps (myproc c).
Proof. unfold myproc. pose proof keeps_pushcli. pose proof keeps_popcli. pose proof keeps_mycpu. keeps_tac. Qed.
Lemma keeps_switch a : keeps (pushcli c;; upd_cpu c (set_cr3 a);; popcli c).
Proof. pose proof keeps_pushcli. pose proof keeps_popcli. keeps_tac. Qed.
End KeepsOps.
#[export] Hint Resolve keeps_holding keeps_acquire keeps_release keeps_mycpu keeps_if keeps_myproc keeps_switch : kernel.

Section Refine.
Context {K : Type} `{ProcEnv K}.
Context (c : nat) (ptable_lock kpgdir : Z).
Abbreviation P := (M (kstate K)).
Implicit Types (s t : kstate K).

Definition abs (p : proc) : aproc := mkAproc (state p) (pid p) (parent p) (chan p).
Definition view (pend : list nat) s : astate :=
  mkAstate (map abs (ptable s)) (nextpid s) (initproc s) (procs_of (k_mach s)) pend.

(** Two kernel states the abstract machine cannot tell apart. *)
Definition veq s t : Prop := forall pend, view pend s = view pend t.

Definition silent {A : Type} (m : P A) : Prop := forall s a s', m s = Ret a s' -> veq s s'.

Lemma veq_refl s : veq s s.
Proof. done. Qed.
Lemma veq_trans s t (u : kstate K) : veq s t -> veq t u -> veq s u.
Proof. unfold veq. congruence. Qed.
Lemma veq_procs s t : veq s t -> map abs (ptable s) = map abs (ptable t).
Proof. intros E. by injection (E []). Qed.

Lemma silent_ret {A : Type} (a : A) : silent (ret a).
Proof. by intros s a' s' [= <- <-]. Qed.
Lemma silent_gets {A : Type} (f : kstate K -> A) : silent (gets f).
Proof. by intros s a' s' [= <- <-]. Qed.
Lemma silent_panic {A : Type} (msg : string) : silent (panic (A := A) msg).
Proof. done. Qed.
Lemma silent_fault {A : Type} (k : fault_kind) : silent (fault (A := A) k).
Proof. done. Qed.
Lemma silent_bind {A B : Type} (m : P A) (k : A -> P B) :
  silent m -> (forall a, silent (k a)) -> silent (m ≫= k).
Proof. intros Hm Hk s b s' E. inv_m E. eapply veq_trans; [by eapply Hm|by eapply Hk]. Qed.
Lemma silent_mach {A : Type} (m : M machine A) : keeps m -> silent (with_mach m).
Proof.
  intros Hm s a s' E. unfold with_mach, zoom in E. destruct (m (k_mach s)) as [a' x| | |] eqn:Ex; try done.
  injection E as <- <-. intros pend. unfold view. simpl. by rewrite (Hm _ _ _ Ex).
Qed.
Lemma silent_env {A : Type} (m : M K A) : silent (with_env m).
Proof.
  intros s a s' E. unfold with_env, zoom in E. destruct (m (k_env s)) as [a' x| | |] eqn:Ex; try done.
  by injection E as <- <-.
Qed.
Lemma silent_the_proc i : silent (the_proc i).
Proof. intros s a s'. unfold the_proc. by destruct (ptable s !! i); intros [= <- <-]. Qed.
Lemma silent_upd i f : (forall p, abs (f p) = abs p) -> silent (upd i f).
Proof.
  intros Hf s a s' [= <- <-] pend. unfold view. simpl. f_equal. apply list_eq. intros j.
  rewrite !list_lookup_fmap, list_lookup_alter. case_decide; [|done]. subst.
  destruct (ptable s !! j); simpl; [by rewrite Hf|done].
Qed.
Lemma silent_deref {A : Type} (o : option A) : silent (deref o).
Proof. destruct o; [apply silent_ret|apply silent_fault]. Qed.

(** What the operations change in the view. *)
Lemma loud_upd i f g s u s' pend :
  (forall p, abs (f p) = g (abs p)) -> upd i f s = Ret u s' ->
  view pend s' = with_procs (alter g i (a_procs (view pend s))) (view pend s).
Proof.
  intros Hf [= _ <-]. unfold view, with_procs. simpl. f_equal. apply list_eq. intros j.
  rewrite !list_lookup_fmap, !list_lookup_alter, ?list_lookup_fmap. case_decide; [|done]. subst.
  destruct (ptable s !! j); simpl; [by rewrite Hf|done].
Qed.
Lemma loud_map f g s u s' pend :
  (forall p, abs (f p) = g (abs p)) -> upd_procs (map f) s = Ret u s' ->
  view pend s' = with_procs (map g (a_procs (view pend s))) (view pend s).
Proof.
  intros Hf [= _ <-]. unfold view, with_procs. simpl. f_equal. rewrite !map_map. by apply map_ext.
Qed.
Lemma loud_set_proc o s u s' pend :
  with_mach (upd_cpu c (set_proc o)) s = Ret u s' -> view pend s' = with_cur c o (view pend s).
Proof.
  intros [= _ <-]. unfold view, with_cur, procs_of, set_cpu. simpl. f_equal. apply list_eq. intros j.
  rewrite list_lookup_fmap, list_lookup_alter. case_decide.
  - subst j. destruct (cpus (k_mach s) !! c) as [y|] eqn:Ey; simpl.
    + rewrite list_lookup_insert_eq; [done|]. rewrite length_map. by eapply lookup_lt_Some.
    + symmetry. apply lookup_ge_None_2. rewrite length_insert, length_map. by apply lookup_ge_None_1.
  - by rewrite list_lookup_insert_ne, list_lookup_fmap.
Qed.

Lemma myproc_value x o x' : myproc c x = Ret o x' -> procs_of x !! c = Some o.
Proof.
  unfold myproc. intros E. apply bind_inv in E as ([] & x1 & Hp & E).
  apply bind_inv in E as (y & x2 & Hm & E). apply bind_inv in E as ([] & x3 & _ & E). injection E as <- _.
  rewrite <- (keeps_pushcli c _ _ _ Hp). apply bind_inv in Hm as (f & x4 & Hf & Hm).
  apply bind_inv in Hm as ([] & x5 & Hpn & Hm). rewrite <- (keeps_if c _ _ _ Hf).
  destruct f; [done|]. injection Hpn as <-.
  unfold this_cpu in Hm. destruct (cpus x4 !! c) as [z|] eqn:Ez; [|done]. injection Hm as <- _.
  unfold procs_of. by rewrite list_lookup_fmap, Ez.
Qed.
Lemma silent_curproc : silent (curproc c).
Proof. apply silent_bind; [apply silent_mach; auto with kernel|apply silent_deref]. Qed.
Lemma curproc_value s i s' pend : curproc c s = Ret i s' -> a_cur (view pend s) !! c = Some (Some i).
Proof.
  intros E. inv_m E. destruct a as [j|]; [|done]. injection E as <- _.
  unfold with_mach, zoom in Hrun. destruct (myproc c (k_mach s)) as [o x| | |] eqn:Ex; try done.
  injection Hrun as -> _. by apply myproc_value in Ex.
Qed.
End Refine.
#[export] Hint Resolve silent_ret silent_gets silent_panic silent_fault silent_env silent_the_proc
  silent_curproc silent_deref : kernel.

(** [silent_tac] shows that code made of silent pieces is silent. *)
Ltac silent_tac :=
  repeat first
    [ apply silent_bind; [|intros ?]
    | apply silent_mach; solve [auto with kernel | apply keeps_upd_cpu; done]
    | apply silent_upd; done
    | progress unfold panic_if, when
    | case_if
    | solve [auto with kernel] ].

Section RefineOps.
Context {K : Type} `{ProcEnv K}.
Context (c : nat) (ptable_lock kpgdir : Z).
Implicit Types (s t : kstate K).

Lemma silent_sched r : silent (K := K) (sched c ptable_lock r).
Proof. unfold sched. silent_tac. Qed.
Lemma silent_switchuvm i : silent (K := K) (switchuvm c i).
Proof. unfold switchuvm. silent_tac. Qed.
Lemma silent_switchkvm : silent (K := K) (switchkvm c kpgdir).
Proof. unfold switchkvm. silent_tac. Qed.
Lemma silent_growproc n : silent (growproc c n).
Proof. unfold growproc. pose proof silent_switchuvm. silent_tac. Qed.
Lemma silent_close_files i fds fd : silent (close_files i fds fd).
Proof. revert fd. induction fds as [|f fds IH]; intros fd; simpl; [auto with kernel|]. silent_tac. Qed.
Lemma silent_exit_release i : silent (exit_release i).
Proof. unfold exit_release. pose proof silent_close_files. silent_tac. Qed.
Lemma silent_dup_files i np fds fd : silent (dup_files i np fds fd).
Proof. revert fd. induction fds as [|f fds IH]; intros fd; simpl; [auto with kernel|]. silent_tac. Qed.
Lemma silent_forkret : silent (forkret c ptable_lock).
Proof. unfold forkret. silent_tac. by intros s0 b s1 [= _ <-]. Qed.
End RefineOps.
#[export] Hint Resolve silent_sched silent_switchuvm silent_switchkvm silent_growproc
  silent_exit_release silent_dup_files silent_forkret : kernel.

Section Operations.
Context {K : Type} `{ProcEnv K}.
Context (c : nat) (ptable_lock kpgdir : Z).
Context (pend : list nat).
Implicit Types (s t : kstate K).
Abbreviation V := (view pend).

Lemma silent_view {A : Type} (m : M (kstate K) A) s a s' : silent m -> m s = Ret a s' -> V s' = V s.
Proof. intros Hm E. symmetry. by apply (Hm _ _ _ E). Qed.

(** The operation has kept the processor, or has given it up: then the scheduler, whose first
    action is to clear the processor's current process, has yet to run. *)
Definition after {A : Type} (r : leave A) s : astate :=
  match r with Stay _ => V s | Switched => with_cur c None (V s) end.

Lemma yield_refines s r s' :
  yield c ptable_lock s = Ret r s' -> rtc astep (V s) (after r s').
Proof.
  unfold yield. intros E. apply bind_inv in E as ([] & s1 & E1 & E).
  apply bind_inv in E as (i & s2 & E2 & E). apply bind_inv in E as ([] & s3 & E3 & E).
  apply bind_inv in E as ([] & s4 & E4 & E). injection E as <- <-. simpl.
  pose proof (curproc_value _ _ _ _ pend E2) as Hc.
  apply silent_view in E1; [|apply silent_mach; auto with kernel].
  apply silent_view in E2; [|auto with kernel]. apply silent_view in E4; [|auto with kernel].
  apply (loud_upd i _ (a_set_state RUNNABLE) _ _ _ pend) in E3; [|done].
  rewrite E4, E3, E2, <- E1. by apply rtc_once, a_yield.
Qed.

(** sleep: the process that calls it stores the channel and goes to sleep. *)
Lemma sleep_view ch lk r s s' :
  sleep c ptable_lock ch lk r s = Ret tt s' ->
  exists i, a_cur (V s) !! c = Some (Some i) /\
    V s' = with_procs (alter (fun p => a_set_state SLEEPING (a_set_chan ch p)) i (a_procs (V s))) (V s).
Proof.
  unfold sleep. intros E. apply bind_inv in E as (o & s1 & E1 & E).
  assert (Ho : a_cur (V s) !! c = Some o).
  { unfold with_mach, zoom in E1. destruct (myproc c (k_mach s)) as [o' x| | |] eqn:Ex; try done.
    injection E1 as -> _. by apply myproc_value in Ex. }
  apply silent_view in E1; [|apply silent_mach; auto with kernel].
  destruct o as [i|]; [|done]. exists i. split; [done|].
  apply bind_inv in E as ([] & s2 & E2 & E). apply silent_view in E2; [|silent_tac].
  apply bind_inv in E as ([] & s3 & E3 & E). apply silent_view in E3; [|silent_tac].
  apply bind_inv in E as ([] & s4 & E4 & E). apply silent_view in E; [|auto with kernel].
  apply (loud_upd i _ (fun p => a_set_state SLEEPING (a_set_chan ch p)) _ _ _ pend) in E4; [|done].
  by rewrite E, E4, E3, E2, E1.
Qed.

(** sleep on a channel that is not a process, as every caller but wait does. *)
Lemma sleep_refines a lk r s s' :
  sleep c ptable_lock (AddrChan a) lk r s = Ret tt s' -> rtc astep (V s) (with_cur c None (V s')).
Proof.
  intros (i & Hc & ->)%sleep_view. by apply rtc_once, a_sleep.
Qed.

Lemma wakeup_refines ch s s' : wakeup c ptable_lock ch s = Ret tt s' -> rtc astep (V s) (V s').
Proof.
  unfold wakeup. intros E. apply bind_inv in E as ([] & s1 & E1 & E).
  apply bind_inv in E as ([] & s2 & E2 & E).
  apply silent_view in E1; [|apply silent_mach; auto with kernel].
  apply silent_view in E; [|apply silent_mach; auto with kernel].
  apply (loud_map _ (a_wake ch) _ _ _ pend) in E2; [|intros p; unfold abs, a_wake; simpl; by case_if].
  rewrite E, E2, <- E1. apply rtc_once, a_wakeup.
Qed.

Lemma view_lookup s i p : ptable s !! i = Some p -> a_procs (V s) !! i = Some (abs p).
Proof. intros E. simpl. by rewrite list_lookup_fmap, E. Qed.

Lemma the_proc_inv i s p s' : the_proc i s = Ret p s' -> s' = s /\ ptable s !! i = Some p.
Proof. unfold the_proc. destruct (ptable s !! i); [|done]. by intros [= -> ->]. Qed.

Lemma kill_refines n r s s' : kill c ptable_lock n s = Ret r s' -> rtc astep (V s) (V s').
Proof.
  unfold kill. intros E. apply bind_inv in E as ([] & s1 & E1 & E).
  apply silent_view in E1; [|apply silent_mach; auto with kernel].
  apply bind_inv in E as (t & s2 & [= <- <-] & E).
  destruct (find_index _ _) as [i|] eqn:Ei.
  - apply find_index_Some in Ei as (p & Hp & _ & _).
    apply bind_inv in E as ([] & s2 & E2 & E). apply bind_inv in E as ([] & s3 & E3 & E).
    injection E as _ <-. apply silent_view in E3; [|apply silent_mach; auto with kernel].
    pose proof (view_lookup _ _ _ Hp) as Hv. rewrite E3, <- E1.
    destruct (decide (state p = SLEEPING)) as [Hs|Hs].
    + assert (Hg : V s2 = with_procs (alter (a_set_state RUNNABLE) i (a_procs (V s1))) (V s1)).
      { injection E2 as <-. unfold view, with_procs. simpl. f_equal.
        rewrite (list_alter_insert _ _ _ _ Hp), (list_alter_insert _ _ _ _ Hv), list_fmap_insert.
        f_equal. simpl. by rewrite bool_decide_true. }
      rewrite Hg. by eapply rtc_once, a_kill.
    + replace (V s2) with (V s1); [done|]. injection E2 as <-. unfold view. simpl. f_equal.
      rewrite (list_alter_insert _ _ _ _ Hp), list_fmap_insert, list_insert_id; [done|].
      rewrite list_lookup_fmap, Hp. simpl. by rewrite bool_decide_false.
  - apply bind_inv in E as ([] & s3 & E3 & E). injection E as _ <-.
    apply silent_view in E3; [|apply silent_mach; auto with kernel]. by rewrite E3, E1.
Qed.

(** ** exit *)

(** reparent from slot [j] on, when the first [j] slots of the table [t] are done. *)
Lemma reparent_view i init (t : list aproc) n : forall j s s',
  (length t = j + n)%nat -> a_procs (V s) = reparented i init j t ->
  reparent i init j n s = Ret tt s' ->
  V s' = with_procs (reparented i init (j + n) t) (V s).
Proof.
  induction n as [|n IH]; intros j s s' Hlen Ht E; cbn [reparent] in E.
  { injection E as <-. rewrite Nat.add_0_r, <- Ht. done. }
  apply bind_inv in E as (p & s1 & E1 & E). apply the_proc_inv in E1 as [-> Hp].
  apply bind_inv in E as ([] & s2 & E2 & E).
  destruct (lookup_lt_is_Some_2 t j) as [q Hq]; [lia|].
  pose proof (view_lookup _ _ _ Hp) as Hv. rewrite Ht in Hv.
  destruct (reparented_lookup _ _ _ _ _ _ Hq Hv) as [Hpar Hz]. simpl in Hpar, Hz.
  enough (Hs2 : V s2 = with_procs (reparented i init (S j) t) (V s)).
  { rewrite Nat.add_succ_r. change (S (j + n)) with (S j + n)%nat.
    rewrite (IH (S j) s2 s'); [by rewrite Hs2|lia|by rewrite Hs2|done]. }
  rewrite (reparented_step _ _ _ _ _ Hq), <- Hpar, <- (bool_decide_ext _ _ Hz).
  unfold reparented in Ht. destruct (bool_decide (parent p = Some i)) eqn:Ei; cbn [when] in E2.
  - apply bind_inv in E2 as ([] & s3 & E3 & E2).
    apply bool_decide_eq_true in Ei.
    assert (H3 : V s3 = with_procs (alter (a_orphan i init) j (a_procs (V s))) (V s)).
    { injection E3 as <-. unfold view, with_procs. simpl. f_equal.
      rewrite (list_alter_insert _ _ _ _ Hp), list_fmap_insert.
      rewrite (list_alter_insert _ _ _ (abs p)) by (by rewrite list_lookup_fmap, Hp).
      f_equal. unfold a_orphan. simpl. by rewrite bool_decide_true. }
    rewrite Ht, alter_wake_if in H3. rewrite andb_true_l.
    destruct (bool_decide (state p = ZOMBIE)); cbn [when] in E2.
    + apply (loud_map _ (a_wake (parent_chan init)) _ _ _ pend) in E2;
        [|intros r; unfold abs, a_wake, parent_chan; simpl; by destruct init; case_if].
      rewrite E2, H3, orb_true_r. simpl. by rewrite wake_if_wake.
    + injection E2 as <-. by rewrite H3, orb_false_r.
  - injection E2 as <-. rewrite andb_false_l, orb_false_r, <- alter_wake_if, <- Ht.
    assert (Ho : alter (a_orphan i init) j (a_procs (V s)) = a_procs (V s)); [|rewrite Ho; by destruct s].
    simpl. rewrite (list_alter_insert _ _ _ (abs p)) by (by rewrite list_lookup_fmap, Hp).
    apply list_insert_id. rewrite list_lookup_fmap, Hp. simpl. unfold a_orphan. simpl. by rewrite Ei.
Qed.

Lemma loud_wakeup1 o s u s' :
  wakeup1 (match o with Some k => ProcChan k | None => NoChan end) s = Ret u s' ->
  V s' = with_procs (map (a_wake (parent_chan o)) (a_procs (V s))) (V s).
Proof. apply loud_map. intros p. unfold abs, a_wake, parent_chan. simpl. by destruct o; case_if. Qed.

Lemma exit_locked_view i init s s' :
  exit_locked c ptable_lock i init s = Ret tt s' ->
  V s' = with_procs (a_exit_table i init (a_procs (V s))) (V s).
Proof.
  unfold exit_locked. intros E. apply bind_inv in E as ([] & s1 & E1 & E).
  apply silent_view in E1; [|apply silent_mach; auto with kernel].
  apply bind_inv in E as (p & s2 & E2 & E). apply the_proc_inv in E2 as [-> Hp].
  apply bind_inv in E as ([] & s3 & E3 & E). apply loud_wakeup1 in E3.
  apply bind_inv in E as (n & s4 & [= <- <-] & E).
  apply bind_inv in E as ([] & s4 & E4 & E). apply bind_inv in E as ([] & s5 & E5 & E).
  apply silent_view in E; [|auto with kernel].
  apply (loud_upd i _ (a_set_state ZOMBIE) _ _ _ pend) in E5; [|done].
  assert (Hlen : length (a_procs (V s3)) = length (ptable s3)) by (simpl; apply length_map).
  rewrite (reparent_view i init (a_procs (V s3)) (length (ptable s3)) 0 s3 s4) in E5; [|done|done|done].
  rewrite E, E5, <- E1, (a_exit_table_reparented _ _ _ _ (view_lookup _ _ _ Hp)).
  rewrite Nat.add_0_l, <- Hlen, E3. unfold with_procs. cbn [a_procs a_next a_init a_cur a_pending].
  by rewrite length_map.
Qed.

Lemma exit_locked_refines i s s' :
  exit_locked c ptable_lock i (initproc s) s = Ret tt s' ->
  a_cur (V s) !! c = Some (Some i) -> initproc s <> Some i -> rtc astep (V s) (with_cur c None (V s')).
Proof.
  intros E Hc Hi. apply exit_locked_view in E. rewrite E. by apply rtc_once, (a_exit (V s)).
Qed.

Lemma exit_refines s s' : exit c ptable_lock s = Ret tt s' -> rtc astep (V s) (with_cur c None (V s')).
Proof.
  unfold exit. intros E. apply bind_inv in E as (i & s1 & E1 & E).
  pose proof (curproc_value _ _ _ _ pend E1) as Hc. apply silent_view in E1; [|auto with kernel].
  apply bind_inv in E as (init & s2 & [= <- <-] & E). apply bind_inv in E as ([] & s2 & E2 & E).
  case_bool_decide as Hi; [done|]. injection E2 as <-.
  apply bind_inv in E as ([] & s3 & E3 & E). apply silent_view in E3; [|auto with kernel].
  assert (Hin : initproc s3 = initproc s1) by (by injection E3). rewrite <- Hin in E, Hi.
  apply exit_locked_refines in E; [|by rewrite E3, E1|done]. by rewrite <- E1, <- E3.
Qed.

(** ** wait *)

Lemma wait_scan_refines i s r s' :
  wait_scan c ptable_lock i s = Ret r s' -> a_cur (V s) !! c = Some (Some i) -> rtc astep (V s) (after r s').
Proof.
  unfold wait_scan. intros E Hc. apply bind_inv in E as (t & s1 & [= <- <-] & E).
  destruct (find_index _ _) as [j|] eqn:Ej.
  - apply find_index_Some in Ej as (q & Hq & Hz & _). to_prop.
    apply bind_inv in E as (p & s1 & E1 & E). apply the_proc_inv in E1 as [-> Hp].
    rewrite Hp in Hq. injection Hq as <-.
    apply bind_inv in E as ([] & s2 & E2 & E). apply silent_view in E2; [|auto with kernel].
    apply bind_inv in E as ([] & s3 & E3 & E). apply silent_view in E3; [|by apply silent_upd].
    apply bind_inv in E as ([] & s4 & E4 & E). apply silent_view in E4; [|auto with kernel].
    apply bind_inv in E as ([] & s5 & E5 & E). apply (loud_upd j _ a_free _ _ _ pend) in E5; [|done].
    apply bind_inv in E as ([] & s6 & E6 & E). apply silent_view in E6; [|apply silent_mach; auto with kernel].
    injection E as <- <-. simpl. rewrite E6, E5, E4, E3, E2.
    by eapply rtc_once, a_reap; [|apply (view_lookup _ _ _ Hp)|..].
  - pose proof (proj1 (find_index_None _ _) Ej) as Hnone.
    apply bind_inv in E as (p & s1 & E1 & E). apply the_proc_inv in E1 as [-> Hp].
    destruct (_ || _).
    + apply bind_inv in E as ([] & s2 & E2 & E). apply silent_view in E2; [|apply silent_mach; auto with kernel].
      injection E as <- <-. simpl. by rewrite E2.
    + apply bind_inv in E as ([] & s2 & E2 & E). injection E as <- <-. simpl.
      apply sleep_view in E2 as (i' & Hc' & ->). rewrite Hc in Hc'. injection Hc' as <-.
      apply rtc_once, a_wait; [done|]. apply not_true_iff_false. intros (x & Hx & Hxz)%existsb_exists.
      apply list_elem_of_In, list_elem_of_lookup in Hx as (k & Hk).
      simpl in Hk. apply lookup_map_inv in Hk as (y & Hy & ->). pose proof (Hnone _ _ Hy). simpl in *. congruence.
Qed.

Lemma wait_refines r s s' : wait c ptable_lock s = Ret r s' -> rtc astep (V s) (after r s').
Proof.
  unfold wait. intros E. apply bind_inv in E as (i & s1 & E1 & E).
  pose proof (curproc_value _ _ _ _ pend E1) as Hc. apply silent_view in E1; [|auto with kernel].
  apply bind_inv in E as ([] & s2 & E2 & E). apply silent_view in E2; [|apply silent_mach; auto with kernel].
  rewrite <- E1, <- E2. apply (wait_scan_refines i); [done|]. by rewrite E2, E1.
Qed.

(** ** The scheduler *)

Lemma resume_refines i s r s' :
  resume c ptable_lock i s = Ret r s' -> a_cur (V s) !! c = Some (Some i) -> rtc astep (V s) (after r s').
Proof.
  unfold resume. intros E Hc. apply bind_inv in E as (p & s1 & E1 & E). apply the_proc_inv in E1 as [-> Hp].
  destruct (ctx_point (ctx p)) as [| |lk| |]; [..|done].
  - apply bind_inv in E as ([] & s1 & E1 & E). injection E as <- <-.
    apply silent_view in E1; [|auto with kernel]. simpl. by rewrite E1.
  - apply bind_inv in E as ([] & s1 & E1 & E). apply bind_inv in E as ([] & s2 & E2 & E). injection E as <- <-.
    apply silent_view in E1; [|silent_tac]. apply silent_view in E2; [|silent_tac]. simpl. by rewrite E2, E1.
  - apply bind_inv in E as ([] & s1 & E1 & E). apply silent_view in E1; [|silent_tac].
    apply bind_inv in E as ([] & s2 & E2 & E).
    apply bind_inv in E as ([] & s3 & E3 & E). apply silent_view in E3; [|silent_tac].
    injection E as <- <-. simpl. apply (loud_upd i _ (a_set_chan NoChan) _ _ _ pend) in E2; [|done].
    rewrite E3, E2, E1. by eapply rtc_once, a_wakes_up.
  - apply bind_inv in E as ([] & s1 & E1 & E). apply silent_view in E1; [|silent_tac].
    apply bind_inv in E as ([] & s2 & E2 & E).
    apply (loud_upd i _ (a_set_chan NoChan) _ _ _ pend) in E2; [|done].
    eapply rtc_l; [by eapply a_wakes_up|]. rewrite <- E1, <- E2. apply (wait_scan_refines i); [done|].
    rewrite E2, E1. done.
Qed.

Lemma cur_after_idle s : (c < length (a_cur (V s)))%nat -> a_cur (with_cur c None (V s)) !! c = Some None.
Proof. intros Hl. simpl. by apply list_lookup_insert_eq. Qed.

Lemma astep_ncpu x y : astep x y -> length (a_cur y) = length (a_cur x).
Proof. destruct 1; simpl; by rewrite ?length_insert. Qed.
Lemma steps_ncpu x y : rtc astep x y -> length (a_cur y) = length (a_cur x).
Proof. induction 1 as [|x y z Hs _ IH]; [done|]. by rewrite IH, (astep_ncpu _ _ Hs). Qed.

Lemma scheduler_from_refines n : forall i s s',
  scheduler_from c ptable_lock kpgdir i n s = Ret tt s' -> a_cur (V s) !! c = Some None ->
  rtc astep (V s) (V s').
Proof.
  induction n as [|n IH]; intros i s s' E Hc; cbn [scheduler_from] in E.
  { apply silent_view in E; [|silent_tac]. by rewrite E. }
  apply bind_inv in E as (p & s1 & E1 & E). apply the_proc_inv in E1 as [-> Hp].
  case_bool_decide as Hr; cbn [negb] in E; [|by eapply IH].
  apply bind_inv in E as ([] & s1 & E1 & E). apply (loud_set_proc _ _ _ _ _ pend) in E1.
  apply bind_inv in E as ([] & s2 & E2 & E). apply silent_view in E2; [|auto with kernel].
  apply bind_inv in E as ([] & s3 & E3 & E).
  apply (loud_upd i _ (a_set_state RUNNING) _ _ _ pend) in E3; [|done].
  apply bind_inv in E as (r & s4 & E4 & E).
  assert (Hd : astep (V s) (V s3)).
  { rewrite E3, E2, E1. by eapply (a_dispatch (V s) c i (abs p)); [|apply view_lookup|]. }
  assert (Hc3 : a_cur (V s3) !! c = Some (Some i)).
  { rewrite E3, E2, E1. simpl. apply list_lookup_insert_eq. by eapply lookup_lt_Some. }
  apply resume_refines in E4; [|done]. eapply rtc_l; [done|].
  pose proof (steps_ncpu _ _ E4) as Hn.
  etransitivity; [exact E4|]. destruct r as [x|].
  - by injection E as <-.
  - apply bind_inv in E as ([] & s5 & E5 & E). apply silent_view in E5; [|auto with kernel].
    apply bind_inv in E as ([] & s6 & E6 & E). apply (loud_set_proc _ _ _ _ _ pend) in E6.
    simpl in Hn |- *. rewrite <- E5, <- E6. eapply IH; [done|]. rewrite E6, E5. apply cur_after_idle.
    rewrite length_insert in Hn. simpl. rewrite Hn. by eapply lookup_lt_Some.
Qed.

Lemma scheduler_pass_refines s s' :
  scheduler_pass c ptable_lock kpgdir s = Ret tt s' -> a_cur (V s) !! c = Some None -> rtc astep (V s) (V s').
Proof.
  unfold scheduler_pass. intros E Hc. apply bind_inv in E as ([] & s1 & E1 & E).
  apply silent_view in E1; [|apply silent_mach, keeps_upd_cpu; done].
  apply bind_inv in E as ([] & s2 & E2 & E). apply silent_view in E2; [|silent_tac].
  apply bind_inv in E as (n & s3 & [= <- <-] & E). rewrite <- E1, <- E2. eapply scheduler_from_refines; [done|].
  by rewrite E2, E1.
Qed.

(** The scheduler takes over from a process that gave the processor up. *)
Lemma scheduler_resume_refines i s s' :
  scheduler_resume c ptable_lock kpgdir i s = Ret tt s' -> (c < length (a_cur (V s)))%nat ->
  rtc astep (with_cur c None (V s)) (V s').
Proof.
  unfold scheduler_resume. intros E Hc.
  apply bind_inv in E as ([] & s1 & E1 & E). apply silent_view in E1; [|auto with kernel].
  apply bind_inv in E as ([] & s2 & E2 & E). apply (loud_set_proc _ _ _ _ _ pend) in E2.
  apply bind_inv in E as (n & s3 & [= <- <-] & E). rewrite <- E1, <- E2.
  eapply scheduler_from_refines; [done|]. rewrite E2, E1. by apply cur_after_idle.
Qed.
End Operations.

(** ** fork and the first process *)

Section Forking.
Context {K : Type} `{ProcEnv K}.
Context (c : nat) (ptable_lock kpgdir : Z).
Context (pend : list nat).
Implicit Types (s t : kstate K).
Abbreviation V := (view pend).

Lemma silent_eq {A : Type} (m : M (kstate K) A) s a s' : silent m -> m s = Ret a s' -> veq s' s.
Proof. intros Hm E q. symmetry. by apply (Hm _ _ _ E). Qed.

Definition alloced (i : nat) (x : astate) : astate :=
  mkAstate (alter (a_birth (a_next x)) i (a_procs x)) (a_next x + 1) (a_init x) (a_cur x) (i :: a_pending x).

(** The slot and the pid allocproc hands out, before it has a kernel stack. *)
Lemma alloc_step i p s s1 s2 s3 u u' n :
  veq s1 s -> find_index (fun p => bool_decide (state p = UNUSED)) (ptable s1) = Some i ->
  ptable s1 !! i = Some p -> state p = UNUSED -> n = nextpid s1 -> nextpid s + 1 < 2 ^ 31 -> 0 < nextpid s ->
  upd i (fun p => set_pid n (set_state EMBRYO p)) s1 = Ret u s2 ->
  modify (fun s => mkKstate (k_env s) (k_mach s) (ptable s) (s32 (n + 1)) (initproc s) (forkret_first s)) s2 = Ret u' s3 ->
  view (i :: pend) s3 = alloced i (V s) /\ astep (V s) (alloced i (V s)).
Proof.
  intros Hv Ei Hp Hu -> Hn Hpos E2 E3.
  assert (Hnext : nextpid s1 = nextpid s) by (by injection (Hv [])).
  apply (loud_upd i _ (a_birth (nextpid s1)) _ _ _ (i :: pend)) in E2; [|done].
  injection E3 as _ <-. rewrite s32_small by lia. split.
  - unfold view at 1. cbn [ptable initproc k_mach nextpid].
    change (map abs (ptable s2)) with (a_procs (view (i :: pend) s2)).
    change (initproc s2) with (a_init (view (i :: pend) s2)).
    change (procs_of (k_mach s2)) with (a_cur (view (i :: pend) s2)).
    rewrite E2, (Hv (i :: pend)), Hnext. reflexivity.
  - apply (a_alloc (V s) i (abs p)); [|done|done].
    rewrite <- (Hv pend). by apply view_lookup.
Qed.

Lemma alloc_slot_refines s o s' :
  alloc_slot c ptable_lock s = Ret o s' -> ainv (V s) -> nextpid s + 1 < 2 ^ 31 ->
  match o with
  | Some i => view (i :: pend) s' = alloced i (V s) /\ astep (V s) (alloced i (V s))
  | None => veq s' s
  end.
Proof.
  unfold alloc_slot. intros E Hi Hn. apply bind_inv in E as ([] & s1 & E1 & E).
  apply silent_eq in E1; [|apply silent_mach; auto with kernel].
  apply bind_inv in E as (t & s2 & [= <- <-] & E).
  destruct (find_index _ _) as [i|] eqn:Ei.
  - pose proof (proj1 (find_index_Some _ _ _) Ei) as (p & Hp & Hu & _). to_prop.
    apply bind_inv in E as (n & s2 & [= <- <-] & E).
    apply bind_inv in E as ([] & s2 & E2 & E). apply bind_inv in E as ([] & s3 & E3 & E).
    destruct (alloc_step i p s s1 s2 s3 tt tt _ E1 Ei Hp Hu eq_refl Hn) as [Hv3 Hst]; [|done..|].
    { destruct (inv_bound _ Hi) as [Hpos _]. exact Hpos. }
    clear E2 E3. apply bind_inv in E as ([] & s4 & E4 & E). apply silent_eq in E4; [|silent_tac].
    injection E as <- <-. by rewrite (E4 _).
  - apply bind_inv in E as ([] & s3 & E3 & E). injection E as <- <-.
    apply silent_eq in E3; [|silent_tac]. intros q. by rewrite (E3 q), (E1 q).
Qed.

(** Either the slot is kept or it goes back, and with it the pending entry. *)
Lemma alloc_stack_refines i o s s' :
  alloc_stack i s = Ret o s' -> i ∈ pend ->
  match o with
  | Some j => j = i /\ veq s' s
  | None => astep (V s) (view (filter (fun k => k <> i) pend) s')
  end.
Proof.
  unfold alloc_stack. intros E Hpend.
  apply bind_inv in E as (k & s5 & E5 & E). apply silent_eq in E5; [|silent_tac].
  apply bind_inv in E as ([] & s6 & E6 & E). apply silent_eq in E6; [|silent_tac].
  destruct (k =? 0).
  - apply bind_inv in E as ([] & s7 & E7 & E). injection E as <- <-.
    apply (loud_upd i _ (a_set_state UNUSED) _ _ _ (filter (fun k => k <> i) pend)) in E7; [|done].
    rewrite E7, (E6 _), (E5 _). by apply (a_abort (V s)).
  - apply bind_inv in E as ([] & s7 & E7 & E). apply silent_eq in E7; [|silent_tac].
    apply bind_inv in E as (q & s8 & E8 & E). apply silent_eq in E8; [|silent_tac].
    apply bind_inv in E as ([] & s9 & E9 & E). apply silent_eq in E9; [|silent_tac].
    injection E as <- <-. split; [done|]. intros p. by rewrite (E9 _), (E8 _), (E7 _), (E6 _), (E5 _).
Qed.

(** fork's child is in the pending slots from allocproc until it is made RUNNABLE. *)
Lemma fork_build_refines i np r s s' :
  fork_build i np s = Ret r s' -> ainv (V s) -> np ∈ pend -> a_cur (V s) !! c = Some (Some i) ->
  match r with
  | Some _ => rtc astep (V s) (V s')
  | None => rtc astep (V s) (view (filter (fun k => k <> np) pend) s')
  end.
Proof.
  unfold fork_build. intros E Hi Hnp Hc. apply bind_inv in E as (p & s1 & E1 & E).
  apply the_proc_inv in E1 as [-> Hp]. apply bind_inv in E as (d & s2 & E2 & E).
  apply silent_eq in E2; [|silent_tac]. apply bind_inv in E as ([] & s3 & E3 & E).
  apply silent_eq in E3; [|silent_tac]. destruct (d =? 0).
  - apply bind_inv in E as (q & s4 & E4 & E). apply silent_eq in E4; [|silent_tac].
    apply bind_inv in E as ([] & s5 & E5 & E). apply silent_eq in E5; [|silent_tac].
    apply bind_inv in E as ([] & s6 & E6 & E). injection E as <- <-.
    apply (loud_upd np _ (a_set_state UNUSED) _ _ _ (filter (fun k => k <> np) pend)) in E6; [|done].
    rewrite E6, (E5 _), (E4 _), (E3 _), (E2 _). apply rtc_once. by apply (a_abort (V s)).
  - apply bind_inv in E as ([] & s4 & E4 & E).
    apply (loud_upd np _ (a_set_parent (Some i)) _ _ _ pend) in E4; [|done].
    apply bind_inv in E as ([] & s5 & E5 & E). apply silent_eq in E5; [|auto with kernel].
    apply bind_inv in E as (w & s6 & E6 & E). apply silent_eq in E6; [|silent_tac].
    apply bind_inv in E as ([] & s7 & E7 & E). apply silent_eq in E7; [|silent_tac].
    apply bind_inv in E as (q & s8 & E8 & E). apply silent_eq in E8; [|silent_tac].
    apply bind_inv in E as ([] & s9 & E9 & E). apply silent_eq in E9; [|silent_tac].
    injection E as <- <-. rewrite (E9 _), (E8 _), (E7 _), (E6 _), (E5 _), E4, (E3 _), (E2 _).
    apply rtc_once. by apply (a_adopt (V s) c).
Qed.

Lemma fork_finish_refines np s s' :
  fork_finish c ptable_lock np s = Ret tt s' -> np ∈ pend ->
  astep (V s) (view (filter (fun k => k <> np) pend) s').
Proof.
  unfold fork_finish. intros E Hnp. apply bind_inv in E as ([] & s1 & E1 & E).
  apply bind_inv in E as ([] & s2 & E2 & E).
  apply silent_eq in E1; [|silent_tac]. apply silent_eq in E; [|silent_tac].
  apply (loud_upd np _ (a_set_state RUNNABLE) _ _ _ (filter (fun k => k <> np) pend)) in E2; [|done].
  rewrite (E _), E2, (E1 _). by apply (a_finish (V s)).
Qed.
End Forking.

Section Whole.
Context {K : Type} `{ProcEnv K}.
Context (c : nat) (ptable_lock kpgdir : Z).
Context (pend : list nat).
Implicit Types (s t : kstate K).
Abbreviation V := (view pend).

Lemma steps_ainv x y : rtc astep x y -> ainv x -> ainv y.
Proof. induction 1 as [|x y z Hs _ IH]; [done|]. intros Hx. by eapply IH, astep_ainv. Qed.

Lemma alloc_not_pending s i s' :
  astep (V s) (view (i :: pend) s') -> ainv (V s) -> filter (fun k => k <> i) (i :: pend) = pend.
Proof.
  intros Hs Hi. pose proof (inv_pending _ (astep_ainv _ _ Hs Hi)) as [[Hnp _]%NoDup_cons _].
  by rewrite filter_cons_False, filter_ne_absent by tauto.
Qed.

Lemma allocproc_refines s o s' :
  allocproc c ptable_lock s = Ret o s' -> ainv (V s) -> nextpid s + 1 < 2 ^ 31 ->
  match o with
  | Some i => view (i :: pend) s' = alloced i (V s) /\ astep (V s) (alloced i (V s))
  | None => rtc astep (V s) (V s')
  end.
Proof.
  unfold allocproc. intros E Hi Hn. apply bind_inv in E as (o1 & s1 & E1 & E).
  apply (alloc_slot_refines _ _ pend) in E1; [|done..]. destruct o1 as [i|].
  - destruct E1 as [Hv Hst]. pose proof Hst as Hst'. rewrite <- Hv in Hst'.
    apply (alloc_stack_refines (i :: pend)) in E; [|by left]. destruct o as [j|].
    + destruct E as [-> E]. by rewrite (E _).
    + rewrite (alloc_not_pending _ _ _ Hst' Hi) in E. eapply rtc_l; [exact Hst'|]. by apply rtc_once.
  - injection E as <- <-. by rewrite (E1 pend).
Qed.

Lemma fork_refines s r s' :
  fork c ptable_lock s = Ret r s' -> ainv (V s) -> nextpid s + 1 < 2 ^ 31 -> rtc astep (V s) (V s').
Proof.
  unfold fork. intros E Hi Hn. apply bind_inv in E as (i & s1 & E1 & E).
  pose proof (curproc_value _ _ _ _ pend E1) as Hc. apply silent_eq in E1; [|auto with kernel].
  apply bind_inv in E as (o & s2 & E2 & E).
  apply allocproc_refines in E2; [|by rewrite (E1 _)|by injection (E1 []) as _ -> _ _].
  rewrite (E1 _) in E2. destruct o as [np|]; [|by injection E as _ <-].
  destruct E2 as [Hv2 E2]. rewrite <- Hv2 in E2.
  pose proof (alloc_not_pending _ _ _ E2 Hi) as Hfil. pose proof (astep_ainv _ _ E2 Hi) as Hi2.
  apply bind_inv in E as (r2 & s3 & E3 & E).
  apply (fork_build_refines c (np :: pend)) in E3; [|done|by left|].
  2: { by rewrite Hv2. }
  eapply rtc_l; [exact E2|]. destruct r2 as [n|].
  - apply bind_inv in E as ([] & s4 & E4 & E). injection E as _ <-.
    apply (fork_finish_refines _ _ (np :: pend)) in E4; [|by left]. rewrite Hfil in E4.
    eapply rtc_r; [exact E3|exact E4].
  - injection E as _ <-. by rewrite Hfil in E3.
Qed.

Lemma userinit_refines s s' :
  userinit c ptable_lock s = Ret tt s' -> ainv (V s) -> nextpid s + 1 < 2 ^ 31 ->
  (forall i p, a_procs (V s) !! i = Some p -> a_parent p = None) -> rtc astep (V s) (V s').
Proof.
  unfold userinit. intros E Hi Hn Hnone. apply bind_inv in E as (o & s1 & E1 & E).
  apply allocproc_refines in E1; [|done..].
  apply bind_inv in E as (i & s2 & E2 & E). destruct o as [i'|]; [|done]. injection E2 as -> ->.
  destruct E1 as [Hv1 Hst]. rewrite <- Hv1 in Hst. pose proof (alloc_not_pending _ _ _ Hst Hi) as Hfil.
  apply bind_inv in E as ([] & s3 & E3 & E).
  assert (Hv3 : forall q, view q s3 = mkAstate (a_procs (view q s2)) (a_next (view q s2)) (Some i) (a_cur (view q s2)) q)
    by (injection E3 as <-; done). clear E3.
  apply bind_inv in E as (d & s4 & E4 & E). apply silent_eq in E4; [|silent_tac].
  apply bind_inv in E as ([] & s5 & E5 & E). apply silent_eq in E5; [|silent_tac].
  apply bind_inv in E as ([] & s6 & E6 & E). apply silent_eq in E6; [|silent_tac].
  apply bind_inv in E as ([] & s7 & E7 & E). apply silent_eq in E7; [|silent_tac].
  apply bind_inv in E as ([] & s8 & E8 & E). apply silent_eq in E8; [|silent_tac].
  apply bind_inv in E as (w & s9 & E9 & E). apply silent_eq in E9; [|silent_tac].
  apply bind_inv in E as ([] & s10 & E10 & E). apply silent_eq in E10; [|silent_tac].
  apply bind_inv in E as ([] & s11 & E11 & E). apply silent_eq in E11; [|silent_tac].
  apply bind_inv in E as ([] & s12 & E12 & E). apply silent_eq in E; [|silent_tac].
  apply (loud_upd i _ (a_set_state RUNNABLE) _ _ _ pend) in E12; [|done].
  rewrite (E11 _), (E10 _), (E9 _), (E8 _), (E7 _), (E6 _), (E5 _), (E4 _), Hv3 in E12.
  rewrite (E _), E12. eapply rtc_l; [exact Hst|]. apply rtc_once.
  pose proof (pending_elem _ _ (astep_ainv _ _ Hst Hi) ltac:(by left)) as (p & Hp & He).
  assert (Hpar : a_parent p = None).
  { rewrite Hv1 in Hp. apply lookup_alter_inv in Hp as (p0 & Hp0 & [[_ ->]|[? _]]); [|done].
    exact (Hnone _ _ Hp0). }
  pose proof (a_boot (view (i :: pend) s2) i p ltac:(by left) Hp Hpar) as Hb.
  replace (filter _ (a_pending _)) with pend in Hb by (symmetry; exact Hfil). exact Hb.
Qed.
End Whole.

(** ** Whole calls *)

Inductive kop : Type :=
  | OpFork
  | OpExit
  | OpWait
  | OpYield
  | OpSleep (a lk : Z)
  | OpWakeup (ch : channel)
  | OpKill (n : Z)
  | OpGrow (n : Z)
  | OpAcquire (lk : Z)
  | OpRelease (lk : Z)
  | OpIdle.

Section Kernel.
Context {K : Type} `{ProcEnv K}.
Context (ptable_lock kpgdir : Z).
Implicit Types (s t : kstate K).

(** An operation that may give the processor up, and the scheduler that then takes over. *)
Definition then_sched {A : Type} (c i : nat) (r : leave A) : M (kstate K) unit :=
  match r with Stay _ => ret tt | Switched => scheduler_resume c ptable_lock kpgdir i end.

(** One call on processor [c], by its current process, or a scheduler pass when it has none.
    The locks the rest of the kernel takes and gives up are those other than ptable.lock, which
    is proc.c's own. *)
Definition run_kop (c : nat) (op : kop) : M (kstate K) unit :=
  match op with
  | OpFork => fork c ptable_lock;; ret tt
  | OpKill n => kill c ptable_lock n;; ret tt
  | OpWakeup ch => wakeup c ptable_lock ch
  | OpGrow n => growproc c n;; ret tt
  | OpAcquire lk => with_mach (acquire c lk)
  | OpRelease lk => with_mach (release c lk)
  | OpExit => i ← curproc c; exit c ptable_lock;; scheduler_resume c ptable_lock kpgdir i
  | OpWait => i ← curproc c; r ← wait c ptable_lock; then_sched c i r
  | OpYield => i ← curproc c; r ← yield c ptable_lock; then_sched c i r
  | OpSleep a lk =>
      i ← curproc c; sleep c ptable_lock (AddrChan a) lk (AtSleep lk);;
      scheduler_resume c ptable_lock kpgdir i
  | OpIdle =>
      o ← with_mach (myproc c);
      match o with None => scheduler_pass c ptable_lock kpgdir | Some _ => ret tt end
  end.

Section Pending.
Context (pend : list nat).
Abbreviation V := (view pend).

Lemma cur_bound s c o : a_cur (V s) !! c = Some o -> (c < length (a_cur (V s)))%nat.
Proof. apply lookup_lt_Some. Qed.

Lemma then_sched_refines {A : Type} c i (r : leave A) s s' :
  then_sched c i r s = Ret tt s' -> (c < length (a_cur (V s)))%nat -> rtc astep (after c pend r s) (V s').
Proof.
  destruct r as [a|]; simpl.
  - by intros [= <-].
  - intros E Hc. by eapply scheduler_resume_refines.
Qed.

Lemma ncpu_after {A : Type} c (r : leave A) s : length (a_cur (after c pend r s)) = length (a_cur (V s)).
Proof. destruct r; simpl; by rewrite ?length_insert. Qed.

(** A call that may give the processor up, and then the scheduler. *)
Lemma resched_refines {A : Type} c i (r : leave A) s s' t :
  rtc astep (V s) (after c pend r t) -> a_cur (V s) !! c = Some (Some i) ->
  then_sched c i r t = Ret tt s' -> rtc astep (V s) (V s').
Proof.
  intros Hst Hc E. etransitivity; [exact Hst|]. eapply then_sched_refines; [exact E|].
  apply steps_ncpu in Hst. rewrite ncpu_after in Hst. rewrite Hst. by eapply cur_bound.
Qed.

Lemma sleep_resched_refines c i a lk s s1 s' :
  sleep c ptable_lock (AddrChan a) lk (AtSleep lk) s = Ret tt s1 ->
  scheduler_resume c ptable_lock kpgdir i s1 = Ret tt s' ->
  a_cur (V s) !! c = Some (Some i) -> rtc astep (V s) (V s').
Proof.
  intros E1 E2 Hc. apply (sleep_refines _ _ pend) in E1.
  by eapply (resched_refines c i (Switched (A := unit))).
Qed.

Lemma kop_refines c op s s' :
  run_kop c op s = Ret tt s' -> ainv (V s) -> (op = OpFork -> nextpid s + 1 < 2 ^ 31) -> rtc astep (V s) (V s').
Proof.
  intros E Hi Hn. destruct op as [| | | |a lk|ch|n|n|lk|lk|]; cbn [run_kop] in E.
  - apply bind_inv in E as (r & s2 & E2 & [= <-]). apply (fork_refines _ _ _ _ _ _ E2 Hi). auto.
  - apply bind_inv in E as (i & s2 & E2 & E). pose proof (curproc_value _ _ _ _ pend E2) as Hc.
    apply silent_eq in E2; [|auto with kernel]. apply bind_inv in E as ([] & s3 & E3 & E).
    apply (exit_refines _ _ pend) in E3. rewrite (E2 _) in E3.
    by eapply (resched_refines c i (Switched (A := unit))).
  - apply bind_inv in E as (i & s2 & E2 & E). pose proof (curproc_value _ _ _ _ pend E2) as Hc.
    apply silent_eq in E2; [|auto with kernel]. apply bind_inv in E as (r & s3 & E3 & E).
    apply (wait_refines _ _ pend) in E3. rewrite (E2 _) in E3. by eapply resched_refines.
  - apply bind_inv in E as (i & s2 & E2 & E). pose proof (curproc_value _ _ _ _ pend E2) as Hc.
    apply silent_eq in E2; [|auto with kernel]. apply bind_inv in E as (r & s3 & E3 & E).
    apply (yield_refines _ _ pend) in E3. rewrite (E2 _) in E3. by eapply resched_refines.
  - apply bind_inv in E as (i & s2 & E2 & E). pose proof (curproc_value _ _ _ _ pend E2) as Hc.
    apply silent_eq in E2; [|auto with kernel]. apply bind_inv in E as ([] & s3 & E3 & E).
    rewrite <- (E2 _) in Hc |- *. by eapply sleep_resched_refines.
  - by eapply wakeup_refines.
  - apply bind_inv in E as (r & s2 & E2 & [= <-]). by eapply kill_refines.
  - apply bind_inv in E as (r & s2 & E2 & [= <-]). apply silent_eq in E2; [|auto with kernel]. by rewrite (E2 _).
  - apply silent_eq in E; [|silent_tac]. by rewrite (E _).
  - apply silent_eq in E; [|silent_tac]. by rewrite (E _).
  - apply bind_inv in E as (o & s2 & E2 & E). pose proof E2 as Ho.
    apply silent_eq in E2; [|silent_tac]. unfold with_mach, zoom in Ho.
    destruct (myproc c (k_mach s)) as [o' x| | |] eqn:Ex; try done. injection Ho as -> _.
    apply myproc_value in Ex. destruct o as [i|]; [injection E as <-; by rewrite (E2 _)|].
    rewrite <- (E2 _). eapply scheduler_pass_refines; [exact E|]. by rewrite (E2 _).
Qed.
End Pending.

Abbreviation V := (view []).

(** The kernel's data before userinit: an empty table. *)
Definition boot_state (k : K) (nproc ncpu : nat) : kstate K :=
  mkKstate k (mkMachine (replicate ncpu (mkCpu 0 false false None 0)) ∅)
    (replicate nproc (mkProc 0 0 0 UNUSED 0 None (mkTrapframe 0 0 0 0 0 0 0 0) (mkContext AtForkret false)
       NoChan 0 (replicate (Z.to_nat NOFILE) 0) 0 "")) 1 None true.

Lemma boot_view k nproc ncpu : V (boot_state k nproc ncpu) = a_start nproc ncpu.
Proof.
  unfold view, a_start, procs_of. simpl. by rewrite !fmap_replicate.
Qed.

Lemma boot_ainv k nproc ncpu s :
  userinit 0 ptable_lock (boot_state k nproc ncpu) = Ret tt s -> ainv (V s).
Proof.
  intros E. pose proof (a_start_ainv nproc ncpu) as Hi. rewrite <- (boot_view k) in Hi.
  eapply steps_ainv; [|exact Hi]. eapply userinit_refines; [exact E|done|done|].
  rewrite boot_view. intros i p Hp. simpl in Hp. by apply lookup_replicate in Hp as [-> _].
Qed.

(** C3: every call of proc.c that returns, on any processor and with whatever the memory, file
    and paging code did in it, is a sequence of the abstract process table's transitions, when
    it starts in a state the invariant holds of; so the kernel's table only ever changes by
    allocation, adoption, completion, abortion, dispatch, yielding, sleeping, waking, killing,
    exit and reaping under the conditions [astep] attaches to each. *)
Theorem process_calls_refine (c : nat) (op : kop) (s s' : kstate K)
    (Hi : ainv (V s)) (Hpids : op = OpFork -> nextpid s + 1 < 2 ^ 31)
    (Hrun : run_kop c op s = Ret tt s') :
  rtc astep (V s) (V s') /\ ainv (V s').
Proof.
  pose proof (kop_refines [] _ _ _ _ Hrun Hi Hpids) as Hs. split; [done|]. by eapply steps_ainv.
Qed.

End Kernel.
