(* ===== verification/ProcSteps.v ===== *)
(** * ProcSteps: the calls of proc.c piece by piece, interleaved by any number of processors

    fork gives ptable.lock up between allocproc and its last lines, exit closes files before it
    takes the lock, and sleep takes its caller's lock back after it gave ptable.lock up. This
    file runs those calls in pieces, with a record of the calls under way, so that everything
    other processors, interrupts and other processes do in between is part of a run. The
    invariant of [ProcSpec] then holds of every state reached from boot, states with
    half-made children included. *)

From S2P Require Import Prelude Mmu Spinlock Proc ProcSpec ProcRefine.

(** Where a process is in a call that gives ptable.lock up on its way: fork with a child's slot
    but no stack for it, with the stack but not the rest, about to make the child RUNNABLE; exit
    before it closed the files, and before it takes ptable.lock; sleep before it has its lock
    back. *)
Inductive phase : Type :=
  | Allocating (np : nat)
  | Building (np : nat)
  | Finishing (np : nat)
  | Closing
  | Exiting
  | Retaking (lk : Z).

(** The slot the phase is filling in. *)
Definition phase_slot (ph : phase) : list nat :=
  match ph with
  | Allocating np | Building np | Finishing np => [np]
  | _ => []
  end.

Inductive call : Type := CFork | CExit | CSleep (a lk : Z).

(** The kernel, and the calls under way, each with the process that is in it. *)
Record ksys (K : Type) : Type := mkKsys { kern : kstate K; doing : list (nat * phase) }.
Arguments mkKsys {K}.
Arguments kern {K}.
Arguments doing {K}.

Definition taken (l : list (nat * phase)) : list nat := flat_map (fun e => phase_slot e.2) l.
Definition entry (i : nat) (next : option phase) : list (nat * phase) :=
  match next with Some ph => [(i, ph)] | None => [] end.

(** What a process may do in the middle of fork, exit or sleep, in code they call or on an
    interrupt; and the calls that are over in one step. *)
Definition inner (op : kop) : bool :=
  match op with OpYield | OpWakeup _ | OpAcquire _ | OpRelease _ => true | _ => false end.
Definition one_step (op : kop) : bool :=
  match op with OpFork | OpExit | OpSleep _ _ => false | _ => true end.

(** Code that leaves initproc alone. *)
Definition same_init {K A : Type} (m : M (kstate K) A) : Prop :=
  forall s a s', m s = Ret a s' -> initproc s' = initproc s.

Section SameInit.
Context {K : Type}.
Abbreviation P := (M (kstate K)).

Lemma init_ret {A : Type} (a : A) : same_init (K := K) (ret a).
Proof. by intros s a' s' [= <- <-]. Qed.
Lemma init_gets {A : Type} (f : kstate K -> A) : same_init (gets f).
Proof. by intros s a' s' [= <- <-]. Qed.
Lemma init_panic {A : Type} (msg : string) : same_init (K := K) (panic (A := A) msg).
Proof. done. Qed.
Lemma init_deref {A : Type} (o : option A) : same_init (K := K) (deref o).
Proof. destruct o; [apply init_ret|done]. Qed.
Lemma init_bind {A B : Type} (m : P A) (k : A -> P B) :
  same_init m -> (forall a, same_init (k a)) -> same_init (m ≫= k).
Proof. intros Hm Hk s b s' E. inv_m E. rewrite (Hk _ _ _ _ E). by eapply Hm. Qed.
Lemma init_mach {A : Type} (m : M machine A) : same_init (K := K) (with_mach m).
Proof.
  intros s a s' E. unfold with_mach, zoom in E. destruct (m (k_mach s)); try done. by injection E as <- <-.
Qed.
Lemma init_env {A : Type} (m : M K A) : same_init (with_env m).
Proof.
  intros s a s' E. unfold with_env, zoom in E. destruct (m (k_env s)); try done. by injection E as <- <-.
Qed.
Lemma init_the_proc i : same_init (K := K) (the_proc i).
Proof. intros s a s'. unfold the_proc. by destruct (ptable s !! i); intros [= <- <-]. Qed.
Lemma init_upd_procs f : same_init (K := K) (upd_procs f).
Proof. by intros s a s' [= <- <-]. Qed.
Lemma init_modify f : (forall s, initproc (f s) = initproc s) -> same_init (K := K) (modify f).
Proof. intros Hf s a s' [= <- <-]. apply Hf. Qed.
End SameInit.
#[export] Hint Resolve init_ret init_gets init_panic init_deref init_mach init_env init_the_proc
  init_upd_procs : kernel.

Ltac init_tac :=
  repeat first
    [ solve [auto with kernel]
    | apply init_bind; [|intros ?]
    | apply init_modify; done
    | progress unfold panic_if, when, upd
    | case_if
    | case_match ].

Section Steps.
Context {K : Type} `{ProcEnv K}.
Context (ptable_lock kpgdir : Z).
Implicit Types (s t : kstate K) (x y : ksys K) (l : list (nat * phase)).

(** Processor [c] runs process [i]. *)
Definition runs (c : nat) s (i : nat) : Prop := cpu_proc <$> cpus (k_mach s) !! c = Some (Some i).

(** The first piece of a call: the process that makes it, and what is then left of it. *)
Definition start_call (c : nat) (k : call) : M (kstate K) (nat * option phase) :=
  i ← curproc c;
  match k with
  | CFork => o ← alloc_slot c ptable_lock; ret (i, Allocating <$> o)
  | CExit =>
      init ← gets initproc;
      panic_if (bool_decide (init = Some i)) "init exiting";;
      ret (i, Some Closing)
  | CSleep a lk =>
      sleep c ptable_lock (AddrChan a) lk (AtSleep lk);;
      scheduler_resume c ptable_lock kpgdir i;;
      ret (i, Some (Retaking lk))
  end.

(** The next piece. *)
Definition run_phase (c i : nat) (ph : phase) : M (kstate K) (option phase) :=
  match ph with
  | Allocating np => o ← alloc_stack np; ret (Building <$> o)
  | Building np => r ← fork_build i np; ret ((fun _ => Finishing np) <$> r)
  | Finishing np => fork_finish c ptable_lock np;; ret None
  | Closing => exit_release i;; ret (Some Exiting)
  | Exiting =>
      init ← gets initproc;
      exit_locked c ptable_lock i init;;
      scheduler_resume c ptable_lock kpgdir i;;
      ret None
  | Retaking lk => sleep_end c lk;; ret None
  end.
Fixpoint run_phases (n c i : nat) (o : option phase) : M (kstate K) unit :=
  match n, o with
  | S n, Some ph => o ← run_phase c i ph; run_phases n c i o
  | _, _ => ret tt
  end.

(** Steps of the kernel: a processor, by its current process if it has one, makes a call that
    is over in one step; starts one that is not; or its process does the next piece of the
    innermost call it is in. fork has pids left to give. *)
Inductive kstep : ksys K -> ksys K -> Prop :=
  | KOp c op s s' l :
      one_step op = true ->
      (forall i, runs c s i -> i ∈ l.*1 -> inner op = true) ->
      run_kop ptable_lock kpgdir c op s = Ret tt s' ->
      kstep (mkKsys s l) (mkKsys s' l)
  | KStart c i k s s' l next :
      (i ∈ l.*1 -> exists a lk, k = CSleep a lk) ->
      (k = CFork -> nextpid s + 1 < 2 ^ 31) ->
      start_call c k s = Ret (i, next) s' ->
      kstep (mkKsys s l) (mkKsys s' (entry i next ++ l))
  | KPhase c i ph s s' l1 l2 next :
      runs c s i ->
      i ∉ l1.*1 ->
      run_phase c i ph s = Ret next s' ->
      kstep (mkKsys s (l1 ++ (i, ph) :: l2)) (mkKsys s' (l1 ++ entry i next ++ l2)).

(** The same steps as a function of the processor and of what it does, to run them. *)
Inductive action : Type := DoOp (c : nat) (op : kop) | DoStart (c : nat) (k : call) | DoPhase (c : nat).

Definition current (c : nat) s : option nat := mjoin (cpu_proc <$> cpus (k_mach s) !! c).
Definition in_call (i : nat) l : bool := existsb (fun e => (e.1 =? i)%nat) l.
Definition may_start (s : kstate K) (k : call) (i : nat) l : bool :=
  match k with
  | CFork => negb (in_call i l) && (nextpid s + 1 <? 2 ^ 31)
  | CExit => negb (in_call i l)
  | CSleep _ _ => true
  end.

Definition do_action (a : action) (x : ksys K) : option (ksys K) :=
  let '(mkKsys s l) := x in
  match a with
  | DoOp c op =>
      let free := match current c s with Some i => negb (in_call i l) || inner op | None => true end in
      if one_step op && free then
        match run_kop ptable_lock kpgdir c op s with Ret _ s' => Some (mkKsys s' l) | _ => None end
      else None
  | DoStart c k =>
      match start_call c k s with
      | Ret (i, next) s' => if may_start s k i l then Some (mkKsys s' (entry i next ++ l)) else None
      | _ => None
      end
  | DoPhase c =>
      i ← current c s;
      n ← find_index (fun e => (e.1 =? i)%nat) l;
      e ← l !! n;
      match run_phase c i e.2 s with
      | Ret next s' => Some (mkKsys s' (take n l ++ entry i next ++ drop (S n) l))
      | _ => None
      end
  end.
Fixpoint do_actions (acts : list action) (x : ksys K) : option (ksys K) :=
  match acts with
  | [] => Some x
  | a :: acts => y ← do_action a x; do_actions acts y
  end.

Lemma in_call_spec i l : in_call i l = true <-> i ∈ l.*1.
Proof.
  unfold in_call. rewrite existsb_exists, list_elem_of_fmap. split.
  - intros (e & He & E%Nat.eqb_eq). exists e. split; [done|]. by apply list_elem_of_In.
  - intros (e & -> & He). exists e. split; [by apply list_elem_of_In|apply Nat.eqb_refl].
Qed.
Lemma current_runs c s i : current c s = Some i <-> runs c s i.
Proof. unfold current, runs. destruct (cpus (k_mach s) !! c) as [y|]; simpl; [destruct (cpu_proc y); naive_solver|done]. Qed.

Lemma do_action_step a x y : do_action a x = Some y -> kstep x y.
Proof.
  destruct x as [s l], a as [c op|c k|c]; cbn [do_action]; intros E.
  - destruct (one_step op) eqn:Hone; [cbn [andb] in E|done].
    destruct (match current c s with Some i => _ | None => _ end) eqn:Hfree; [|done].
    destruct (run_kop _ _ _ _ _) as [[] s'| | |] eqn:Er; try done. injection E as <-.
    apply KOp with (c := c) (op := op); [done| |done].
    intros i Hi%current_runs Hin%in_call_spec. rewrite Hi, Hin in Hfree. exact Hfree.
  - destruct (start_call c k s) as [[i next] s'| | |] eqn:Er; try done.
    destruct (may_start s k i l) eqn:Hm; [|done]. injection E as <-.
    apply KStart with (c := c) (k := k); [..|done].
    + intros Hin%in_call_spec. unfold may_start in Hm. rewrite Hin in Hm. destruct k; [done..|eauto].
    + intros ->. cbn in Hm. apply andb_true_iff in Hm as [_ Hm]. lia.
  - destruct (current c s) as [i|] eqn:Hc; [cbn in E|done].
    destruct (find_index _ l) as [n|] eqn:Hn; [cbn in E|done].
    apply find_index_Some in Hn as ([j ph] & Hl & Hj & Hmin). apply Nat.eqb_eq in Hj. cbn in Hj. subst j.
    rewrite Hl in E. cbn in E.
    destruct (run_phase c i ph s) as [next s'| | |] eqn:Er; try done. injection E as <-.
    rewrite <- (take_drop_middle l n (i, ph) Hl) at 1.
    apply KPhase with (c := c); [by apply current_runs| |done].
    intros (e & Ei & He)%list_elem_of_fmap. apply list_elem_of_lookup in He as (m & Hm).
    apply lookup_take_Some in Hm as [Hm Hlt]. pose proof (Hmin _ _ Hlt Hm) as Hne. cbn in Hne.
    rewrite <- Ei, Nat.eqb_refl in Hne. done.
Qed.
Lemma do_actions_steps acts : forall x y, do_actions acts x = Some y -> rtc kstep x y.
Proof.
  induction acts as [|a acts IH]; intros x y E; cbn [do_actions] in E; [by injection E as ->|].
  destruct (do_action a x) as [z|] eqn:Ea; [|done]. apply (rtc_l _ _ z); [by eapply do_action_step|].
  by apply IH.
Qed.

(** ** The pieces of a call, done in a row, are the call *)

Lemma fork_in_phases c s :
  (fork c ptable_lock;; ret tt) s = (r ← start_call c CFork; run_phases 3 c r.1 r.2) s.
Proof.
  unfold fork, start_call, allocproc. rewrite !bind_assoc. apply bind_ext. intros i t.
  rewrite !bind_assoc. apply bind_ext. clear s t. intros [np|] s; [|done].
  rewrite (bind_ret (ret _) _ s (i, Allocating <$> Some np) s) by done.
  cbn [run_phases run_phase fst snd fmap option_fmap option_map]. rewrite !bind_assoc.
  apply bind_ext. clear s. intros [np'|] s; [|done].
  rewrite (bind_ret (ret _) _ s (Building <$> Some np') s) by done.
  cbn [run_phases run_phase fst snd fmap option_fmap option_map]. rewrite !bind_assoc.
  apply bind_ext. clear s. intros [n|] s; [|done].
  rewrite (bind_ret (ret _) _ s (Some (Finishing np')) s) by done.
  cbn [run_phases run_phase]. by rewrite !bind_assoc.
Qed.

Lemma init_close_files i fds fd : same_init (close_files i fds fd).
Proof. revert fd. induction fds as [|f fds IH]; intros fd; simpl; [auto with kernel|]. init_tac. Qed.
Lemma init_dup_files i np fds fd : same_init (dup_files i np fds fd).
Proof. revert fd. induction fds as [|f fds IH]; intros fd; simpl; [auto with kernel|]. init_tac. Qed.
Lemma init_exit_release i : same_init (exit_release i).
Proof. unfold exit_release. pose proof init_close_files. init_tac. Qed.

Lemma exit_in_phases c s :
  exit c ptable_lock s =
  (r ← start_call c CExit;
   run_phase c r.1 Closing;;
   init ← gets initproc; exit_locked c ptable_lock r.1 init) s.
Proof.
  unfold exit, start_call. rewrite !bind_assoc. apply bind_ext. clear s. intros i s.
  rewrite !bind_assoc.
  rewrite (bind_ret (gets initproc) _ s (initproc s) s) by done.
  rewrite (bind_ret (gets initproc) _ s (initproc s) s) by done.
  rewrite !bind_assoc. unfold panic_if. case_bool_decide as Hi; [done|].
  rewrite (bind_ret (ret tt) _ s tt s), (bind_ret (ret tt) _ s tt s) by done.
  rewrite (bind_ret (ret (i, Some Closing)) _ s (i, Some Closing) s) by done.
  cbn [run_phase fst snd]. rewrite !bind_assoc.
  destruct (exit_release i s) as [[] t| | |] eqn:E.
  - rewrite (bind_ret _ _ s tt t E), (bind_ret _ _ s tt t E).
    rewrite (bind_ret (ret (Some Exiting)) _ t (Some Exiting) t) by done.
    rewrite (bind_ret (gets initproc) _ t (initproc t) t) by done.
    by rewrite (init_exit_release i _ _ _ E).
  - by rewrite (bind_panic _ _ s _ E), (bind_panic _ _ s _ E).
  - by rewrite (bind_fault _ _ s _ E), (bind_fault _ _ s _ E).
  - unfold mbind, M_bind. by rewrite E.
Qed.

(** ** initproc is set once, by userinit *)

Lemma init_sched c r : same_init (K := K) (sched c ptable_lock r).
Proof. unfold sched, curproc. init_tac. Qed.
Lemma init_sleep c ch lk r : same_init (K := K) (sleep c ptable_lock ch lk r).
Proof. unfold sleep. pose proof init_sched. init_tac. Qed.
Lemma init_wait_scan c i : same_init (wait_scan c ptable_lock i).
Proof. unfold wait_scan. pose proof init_sleep. init_tac. Qed.
Lemma init_resume c i : same_init (resume c ptable_lock i).
Proof. unfold resume, forkret. pose proof init_wait_scan. init_tac. Qed.
Lemma init_switchuvm c i : same_init (K := K) (switchuvm c i).
Proof. unfold switchuvm. init_tac. Qed.
Lemma init_scheduler_from c n : forall i, same_init (scheduler_from c ptable_lock kpgdir i n).
Proof.
  pose proof init_resume. pose proof init_switchuvm.
  induction n as [|n IH]; intros i; cbn [scheduler_from]; unfold switchkvm; init_tac.
Qed.
Lemma init_scheduler_resume c i : same_init (scheduler_resume c ptable_lock kpgdir i).
Proof. unfold scheduler_resume, switchkvm. pose proof init_scheduler_from. init_tac. Qed.
Lemma init_reparent i init n : forall j, same_init (K := K) (reparent i init j n).
Proof. induction n as [|n IH]; intros j; cbn [reparent]; unfold wakeup1; init_tac. Qed.
Lemma init_exit_locked c i init : same_init (K := K) (exit_locked c ptable_lock i init).
Proof. unfold exit_locked, wakeup1. pose proof init_reparent. pose proof init_sched. init_tac. Qed.

Lemma init_run_kop c op : one_step op = true -> same_init (run_kop ptable_lock kpgdir c op).
Proof.
  intros Hone. destruct op; try done; cbn [run_kop].
  - unfold wait, curproc, then_sched. pose proof init_wait_scan. pose proof init_scheduler_resume. init_tac.
  - unfold yield, curproc, then_sched. pose proof init_sched. pose proof init_scheduler_resume. init_tac.
  - unfold wakeup, wakeup1. init_tac.
  - unfold kill. init_tac.
  - unfold growproc, curproc. pose proof init_switchuvm. init_tac.
  - init_tac.
  - init_tac.
  - unfold scheduler_pass. pose proof init_scheduler_from. init_tac.
Qed.
Lemma init_start_call c k : same_init (start_call c k).
Proof.
  unfold start_call, curproc. destruct k.
  - unfold alloc_slot. init_tac.
  - init_tac.
  - pose proof init_sleep. pose proof init_scheduler_resume. init_tac.
Qed.
Lemma init_run_phase c i ph : same_init (run_phase c i ph).
Proof.
  destruct ph; cbn [run_phase].
  - unfold alloc_stack. init_tac.
  - unfold fork_build. pose proof init_dup_files. init_tac.
  - unfold fork_finish. init_tac.
  - pose proof init_exit_release. init_tac.
  - pose proof init_exit_locked. pose proof init_scheduler_resume. init_tac.
  - unfold sleep_end. init_tac.
Qed.

(** ** The invariant of the kernel and its calls *)

Record kinv x : Prop := {
  k_table : ainv (view (taken (doing x)) (kern x));
  k_exits : forall i ph, (i, ph) ∈ doing x -> ph = Closing \/ ph = Exiting -> initproc (kern x) <> Some i
}.

Lemma taken_app l1 l2 : taken (l1 ++ l2) = taken l1 ++ taken l2.
Proof. apply flat_map_app. Qed.
Lemma taken_entry i ph : taken (entry i (Some ph)) = phase_slot ph.
Proof. apply app_nil_r. Qed.

Lemma ainv_perm p q s : p ≡ₚ q -> ainv (view p s) -> ainv (view q s).
Proof.
  intros Hpq [H1 H2 H3 H4 H5 [Hnd H6] H7 H8]. split; [done..| | |]; cbn [view a_pending] in *.
  - split; [by rewrite <- Hpq|]. intros i Hi. apply H6. by rewrite Hpq.
  - done.
  - intros k Hk. destruct (H8 k Hk) as [Hk1 Hk2]. split; [|done]. by rewrite <- Hpq.
Qed.

(** The slot of the call whose turn it is can be put first. *)
Lemma taken_front i o l1 l2 : taken (l1 ++ entry i o ++ l2) ≡ₚ taken (entry i o) ++ taken (l1 ++ l2).
Proof. rewrite !taken_app. solve_Permutation. Qed.

Lemma runs_cur pend c s i : runs c s i -> a_cur (view pend s) !! c = Some (Some i).
Proof. unfold runs. intros E. simpl. unfold procs_of. by rewrite list_lookup_fmap. Qed.

(** A slot that is given up was pending once. *)
Lemma slots_done np rest s :
  ainv (view (np :: rest) s) -> filter (fun k => k <> np) (np :: rest) = rest.
Proof.
  intros Hi. destruct (inv_pending _ Hi) as [[Hnp _]%NoDup_cons _].
  by rewrite filter_cons_False, filter_ne_absent by tauto.
Qed.

Lemma run_phase_ainv c i ph s next s' rest :
  run_phase c i ph s = Ret next s' -> runs c s i ->
  (ph = Exiting -> initproc s <> Some i) ->
  ainv (view (phase_slot ph ++ rest) s) -> ainv (view (taken (entry i next) ++ rest) s').
Proof.
  intros E Hc Hx Hi. destruct ph as [np|np|np| | |lk]; cbn [run_phase phase_slot app] in *.
  - apply bind_inv in E as (o & s1 & E1 & [= <- <-]).
    apply (alloc_stack_refines (np :: rest)) in E1; [|by left]. destruct o as [np'|]; cbn.
    + destruct E1 as [-> E1]. by rewrite (E1 _).
    + rewrite (slots_done _ _ _ Hi) in E1. by eapply astep_ainv.
  - apply bind_inv in E as (r & s1 & E1 & [= <- <-]).
    apply (fork_build_refines c (np :: rest)) in E1; [|done|by left|by apply runs_cur].
    rewrite (slots_done _ _ _ Hi) in E1. destruct r as [n|]; cbn; by eapply steps_ainv.
  - apply bind_inv in E as ([] & s1 & E1 & [= <- <-]).
    apply (fork_finish_refines _ _ (np :: rest)) in E1; [|by left].
    rewrite (slots_done _ _ _ Hi) in E1. by eapply astep_ainv.
  - apply bind_inv in E as ([] & s1 & E1 & [= <- <-]). cbn.
    apply silent_eq in E1; [|auto with kernel]. by rewrite (E1 _).
  - apply bind_inv in E as (init & s1 & [= <- <-] & E). apply bind_inv in E as ([] & s2 & E2 & E).
    apply bind_inv in E as ([] & s3 & E3 & [= <- <-]). cbn.
    apply (exit_locked_refines _ _ rest) in E2; [|by apply runs_cur|by apply Hx].
    eapply steps_ainv; [|exact Hi].
    by eapply (resched_refines _ _ rest c i (Switched (A := unit))); [exact E2|by apply runs_cur|].
  - apply bind_inv in E as ([] & s1 & E1 & [= <- <-]). cbn.
    apply silent_eq in E1; [|unfold sleep_end; silent_tac]. by rewrite (E1 _).
Qed.

Lemma start_call_ainv c k s i next s' rest :
  start_call c k s = Ret (i, next) s' -> (k = CFork -> nextpid s + 1 < 2 ^ 31) ->
  ainv (view rest s) -> ainv (view (taken (entry i next) ++ rest) s') /\
  (next = Some Closing -> initproc s' <> Some i) /\ next <> Some Exiting.
Proof.
  unfold start_call. intros E Hn Hi. apply bind_inv in E as (j & s1 & E1 & E).
  pose proof (curproc_value _ _ _ _ rest E1) as Hc. apply silent_eq in E1; [|auto with kernel].
  rewrite <- (E1 _) in Hi, Hc. destruct k as [| |a lk].
  - apply bind_inv in E as (o & s2 & E2 & [= <- <- <-]).
    apply (alloc_slot_refines _ _ rest) in E2; [|done|by injection (E1 []) as _ -> _ _; apply Hn].
    destruct o as [np|]; cbn.
    + destruct E2 as [Hv Hst]. rewrite Hv. split_and!; [by eapply astep_ainv|done..].
    + rewrite (E2 _). done.
  - apply bind_inv in E as (init & s2 & [= <- <-] & E). apply bind_inv in E as ([] & s3 & E3 & [= <- <- <-]).
    revert E3. unfold panic_if. case_bool_decide as Hb; [done|]. intros [= <-]. done.
  - apply bind_inv in E as ([] & s2 & E2 & E). apply bind_inv in E as ([] & s3 & E3 & [= <- <- <-]). cbn.
    split_and!; [|done..]. eapply steps_ainv; [|exact Hi]. by eapply sleep_resched_refines.
Qed.

Lemma entry_elem i ph j next : (j, ph) ∈ entry i next -> j = i /\ next = Some ph.
Proof. destruct next; simpl; [intros [= -> ->]%list_elem_of_singleton; done|by intros ?%not_elem_of_nil]. Qed.

Lemma run_phase_next c i ph s next s' :
  run_phase c i ph s = Ret next s' ->
  next = Some Closing \/ next = Some Exiting -> ph = Closing.
Proof.
  destruct ph as [np|np|np| | |lk]; cbn [run_phase]; intros E Hn.
  - apply bind_inv in E as ([np'|] & s1 & _ & [= <- <-]); naive_solver.
  - apply bind_inv in E as ([n|] & s1 & _ & [= <- <-]); naive_solver.
  - apply bind_inv in E as ([] & s1 & _ & [= <- <-]). naive_solver.
  - done.
  - apply bind_inv in E as (init & s1 & _ & E). apply bind_inv in E as ([] & s2 & _ & E).
    apply bind_inv in E as ([] & s3 & _ & [= <- <-]). naive_solver.
  - apply bind_inv in E as ([] & s1 & _ & [= <- <-]). naive_solver.
Qed.

Lemma kstep_kinv x y : kstep x y -> kinv x -> kinv y.
Proof.
  intros Hs [Hi Hx]. destruct Hs as [c op s s' l Hone _ E|c i k s s' l next _ Hn E|c i ph s s' l1 l2 next Hr _ E];
    cbn [kern doing] in *.
  - split; cbn [kern doing].
    + eapply steps_ainv; [|exact Hi]. eapply kop_refines; [exact E|done|]. by intros ->.
    + rewrite (init_run_kop c op Hone _ _ _ E). exact Hx.
  - destruct (start_call_ainv _ _ _ _ _ _ _ E Hn Hi) as (Hi' & Hcl & Hex).
    split; cbn [kern doing]; [by rewrite taken_app|].
    intros j ph [[-> ->]%entry_elem|Hin]%elem_of_app Hor; [naive_solver|].
    rewrite (init_start_call _ _ _ _ _ E). by eapply Hx.
  - change ((i, ph) :: l2) with (entry i (Some ph) ++ l2) in *.
    assert (Hin : (i, ph) ∈ l1 ++ entry i (Some ph) ++ l2) by (apply elem_of_app; right; by left).
    apply (ainv_perm _ _ _ (taken_front i (Some ph) l1 l2)) in Hi. rewrite taken_entry in Hi.
    split; cbn [kern doing].
    + eapply ainv_perm; [symmetry; apply taken_front|]. eapply run_phase_ainv; [exact E|done| |exact Hi].
      intros ->. by eapply Hx; [exact Hin|right].
    + rewrite (init_run_phase _ _ _ _ _ _ E).
      intros j ph' [Hj|[[-> ->]%entry_elem|Hj]%elem_of_app]%elem_of_app Hor.
      * eapply Hx; [|exact Hor]. apply elem_of_app. by left.
      * assert (ph = Closing) as -> by (eapply run_phase_next; [exact E|naive_solver]).
        by eapply Hx; [exact Hin|left].
      * eapply Hx; [|exact Hor]. apply elem_of_app. right. by right.
Qed.

Lemma ksteps_kinv x y : rtc kstep x y -> kinv x -> kinv y.
Proof. induction 1 as [|x y z Hs _ IH]; [done|]. intros Hx. by eapply IH, kstep_kinv. Qed.

Lemma boot_kinv k nproc ncpu s :
  userinit 0 ptable_lock (boot_state k nproc ncpu) = Ret tt s -> kinv (mkKsys s []).
Proof. intros E. split; [by eapply boot_ainv|]. by intros i ph ?%not_elem_of_nil. Qed.

(** C2: in every state the kernel reaches from boot, by any interleaving of whole calls and of
    the pieces of fork, exit and sleep on its processors, with other locks taken and given up
    in between, and as long as fork has pids below 2^31 to give: no two slots have the same
    pid; the current process of a processor is RUNNING and is no other processor's; no process
    sleeps in wait while it has a zombie child, so no exit is missed; no process is its own
    parent; and the slots that calls of fork are filling in are EMBRYO and each is one call's.
    Each piece is one step, the memory and file code in it included; the bound on the pids is a
    condition on the run, since nextpid wraps around in the code. *)
Theorem process_table_safe (k : K) (nproc ncpu : nat) (s0 : kstate K) (x : ksys K)
    (Hboot : userinit 0 ptable_lock (boot_state k nproc ncpu) = Ret tt s0)
    (Hrun : rtc kstep (mkKsys s0 []) x) :
  let t := ptable (kern x) in
  let m := cpus (k_mach (kern x)) in
  (forall i j p q, t !! i = Some p -> t !! j = Some q -> pid p = pid q -> pid p <> 0 -> i = j) /\
  (forall c z i, m !! c = Some z -> cpu_proc z = Some i ->
     (exists p, t !! i = Some p /\ state p = RUNNING) /\
     (forall c' z', m !! c' = Some z' -> cpu_proc z' = Some i -> c = c')) /\
  (forall i j p q, t !! i = Some p -> t !! j = Some q ->
     state p = SLEEPING -> chan p = ProcChan i -> parent q = Some i -> state q <> ZOMBIE) /\
  (forall i p, t !! i = Some p -> parent p <> Some i) /\
  NoDup (taken (doing x)) /\
  (forall np, np ∈ taken (doing x) -> exists p, t !! np = Some p /\ state p = EMBRYO).
Proof.
  destruct (ksteps_kinv _ _ Hrun (boot_kinv _ _ _ _ Hboot)) as [Hi _]. cbv zeta.
  destruct x as [s l]; cbn [kern doing] in *. clear Hrun Hboot.
  assert (Hv : forall i p, ptable s !! i = Some p -> a_procs (view (taken l) s) !! i = Some (abs p)).
  { intros. by apply view_lookup. }
  assert (Hc : forall c z i, cpus (k_mach s) !! c = Some z -> cpu_proc z = Some i ->
                 a_cur (view (taken l) s) !! c = Some (Some i)).
  { intros c z i Hy Ey. apply runs_cur. unfold runs. by rewrite Hy, <- Ey. }
  split_and!.
  - intros i j p q Hp Hq. apply (inv_pids _ Hi i j (abs p) (abs q)); auto.
  - intros c z i Hy Ey. pose proof (Hc _ _ _ Hy Ey) as Hci. split.
    + destruct (inv_cur _ Hi _ _ Hci) as (a & Ha & Hr). simpl in Ha.
      apply lookup_map_inv in Ha as (p & Hp & ->). eauto.
    + intros c' z' Hy' Ey'. eapply (inv_excl _ Hi); eauto.
  - intros i j p q Hp Hq. apply (inv_wait _ Hi i j (abs p) (abs q)); auto.
  - intros i p Hp. apply (inv_self _ Hi i (abs p)); auto.
  - exact (proj1 (inv_pending _ Hi)).
  - intros np Hnp. destruct (proj2 (inv_pending _ Hi) np Hnp) as (a & Ha & Hst). simpl in Ha.
    apply lookup_map_inv in Ha as (p & Hp & ->). eauto.
Qed.
End Steps.
