(* ===== verification/ProcCalls.v ===== *)
(** * ProcCalls: what the calls of proc.c return and leave behind

    Where [ProcRefine] follows the scheduling state through whatever happens, this file runs
    the calls: started on a processor that holds no lock, with ptable.lock free, they return,
    with a stated result, table and interrupt state. Then a small machine on which every
    theorem about processes is exercised. *)

From S2P Require Import Prelude Mmu Spinlock Proc ProcSpec ProcRefine.

Definition set_mach {K : Type} (x : machine) (s : kstate K) : kstate K :=
  mkKstate (k_env s) x (ptable s) (nextpid s) (initproc s) (forkret_first s).

Section Calls.
Context {K : Type} `{ProcEnv K}.
Context (c : nat) (ptable_lock : Z).
Implicit Types (s t : kstate K) (h : list Z) (b : bool).

(** Processor [c] runs process [o] holding the locks [h], ptable.lock is not held elsewhere,
    and [b] is the interrupt state it will have once it holds no lock. *)
Record in_kernel s h b (o : option nat) : Prop := {
  ik_cpu : cpu_ok c (k_mach s) h b o;
  ik_free : ptable_lock ∉ h -> locked (the_lock (k_mach s) ptable_lock) = false
}.

Lemma with_mach_run {A : Type} (m : M machine A) s a x :
  m (k_mach s) = Ret a x -> with_mach m s = Ret a (set_mach x s).
Proof. intros E. unfold with_mach, zoom. by rewrite E. Qed.

Lemma the_proc_run i s p : ptable s !! i = Some p -> the_proc i s = Ret p s.
Proof. intros E. unfold the_proc. by rewrite E. Qed.

Lemma in_kernel_locks s x h b b' o :
  in_kernel s h b o -> cpu_ok c x h b' o -> locks x = locks (k_mach s) -> in_kernel (set_mach x s) h b' o.
Proof. intros [H1 H2] Hok E. split; [done|]. unfold the_lock. simpl. by rewrite E. Qed.

(** Changes outside the machine. *)
Lemma in_kernel_mach s t h b o : in_kernel s h b o -> k_mach t = k_mach s -> in_kernel t h b o.
Proof. intros [H1 H2] E. by split; rewrite E. Qed.

Lemma acquire_run s b o :
  in_kernel s [] b o ->
  exists x, with_mach (acquire c ptable_lock) s = Ret tt (set_mach x s) /\
    in_kernel (set_mach x s) [ptable_lock] b o.
Proof.
  intros [Hok Hf]. pose proof (acquire_spec c _ _ _ _ ptable_lock Hok) as Ha.
  rewrite decide_False in Ha by apply not_elem_of_nil. rewrite Hf in Ha by apply not_elem_of_nil.
  destruct Ha as (x & Hx & Hok' & _). exists x. split; [by apply with_mach_run|]. split; [done|].
  intros Hn. destruct Hn. by left.
Qed.
Lemma release_run s b o :
  in_kernel s [ptable_lock] b o ->
  exists x, with_mach (release c ptable_lock) s = Ret tt (set_mach x s) /\ in_kernel (set_mach x s) [] b o.
Proof.
  intros [Hok Hf]. pose proof (release_spec c _ _ _ _ ptable_lock Hok) as Hr.
  rewrite decide_True in Hr by by left. destruct Hr as (x & Hx & Hok' & Hl & _).
  rewrite filter_cons_False in Hok' by tauto. exists x. split; [by apply with_mach_run|].
  split; [done|]. intros _. simpl. by rewrite Hl.
Qed.
Lemma in_kernel_myproc s h b o :
  in_kernel s h b o -> exists x, with_mach (myproc c) s = Ret o (set_mach x s) /\ in_kernel (set_mach x s) h b o.
Proof.
  intros Hik. destruct (myproc_spec c _ _ _ _ (ik_cpu _ _ _ _ Hik)) as (x & Hx & Hok & El).
  exists x. split; [by apply with_mach_run|by eapply in_kernel_locks].
Qed.
Lemma curproc_run s h b i :
  in_kernel s h b (Some i) -> exists x, curproc c s = Ret i (set_mach x s) /\ in_kernel (set_mach x s) h b (Some i).
Proof.
  intros Hik. destruct (in_kernel_myproc _ _ _ _ Hik) as (x & Hx & Hik'). exists x. split; [|done].
  unfold curproc. by rewrite (bind_ret _ _ _ _ _ Hx).
Qed.

(** sched, called the way its checks ask for. *)
Lemma sched_run s b i p r :
  in_kernel s [ptable_lock] b (Some i) -> ptable s !! i = Some p -> state p <> RUNNING ->
  exists x, sched c ptable_lock r s = Ret tt (set_ptable (<[i := set_ctx (mkContext r b) p]> (ptable s)) (set_mach x s)) /\
    in_kernel (set_mach x s) [ptable_lock] b (Some i).
Proof.
  intros Hik Hp Hr. unfold sched. destruct (curproc_run _ _ _ _ Hik) as (x1 & Hx1 & Hik1).
  rewrite (bind_ret _ _ _ _ _ Hx1).
  destruct (holding_spec c _ _ _ _ ptable_lock (ik_cpu _ _ _ _ Hik1)) as (x2 & Hx2 & Hok2 & El2).
  rewrite (bind_ret _ _ _ _ _ (with_mach_run _ _ _ _ Hx2)).
  rewrite bool_decide_true by by left. rewrite (bind_ret _ _ _ tt _) by done.
  pose proof (in_kernel_locks _ _ _ _ _ _ Hik1 Hok2 El2) as Hik2.
  change (set_mach x2 (set_mach x1 s)) with (set_mach x2 s) in *.
  destruct (mycpu_spec c _ _ _ _ (ik_cpu _ _ _ _ Hik2) ltac:(done)) as (y & Hy & Hif & Hn & Hint).
  rewrite (bind_ret _ _ _ _ _ (with_mach_run _ _ _ _ Hy)). rewrite Hn. simpl (Z.of_nat _ =? 1).
  rewrite (bind_ret _ _ _ tt _) by done.
  erewrite (bind_ret (the_proc i)) by (by apply the_proc_run).
  rewrite bool_decide_false by done. rewrite (bind_ret _ _ _ tt _) by done.
  erewrite bind_ret by (by apply with_mach_run). rewrite (bind_ret _ _ _ tt _) by done.
  exists x2. split; [|done]. unfold upd, upd_procs, modify. rewrite Hint. simpl.
  by rewrite (list_alter_insert _ _ _ _ Hp).
Qed.

(** ** yield and sleep, and coming back from them *)

Lemma yield_run s b i p :
  in_kernel s [] b (Some i) -> ptable s !! i = Some p ->
  exists s1, yield c ptable_lock s = Ret Switched s1 /\ in_kernel s1 [ptable_lock] b (Some i) /\
    ptable s1 = <[i := set_ctx (mkContext AtYield b) (set_state RUNNABLE p)]> (ptable s).
Proof.
  intros Hik Hp. unfold yield. destruct (acquire_run _ _ _ Hik) as (x1 & Hx1 & Hik1).
  rewrite (bind_ret _ _ _ _ _ Hx1). destruct (curproc_run _ _ _ _ Hik1) as (x2 & Hx2 & Hik2).
  rewrite (bind_ret _ _ _ _ _ Hx2). erewrite bind_ret by reflexivity.
  change (set_mach x2 (set_mach x1 s)) with (set_mach x2 s) in *.
  set (s2 := set_ptable _ _).
  assert (Ht2 : ptable s2 = <[i := set_state RUNNABLE p]> (ptable s)) by (unfold s2; simpl; by apply list_alter_insert).
  assert (Hp2 : ptable s2 !! i = Some (set_state RUNNABLE p)).
  { rewrite Ht2. apply list_lookup_insert_eq. by eapply lookup_lt_Some. }
  destruct (sched_run s2 b i _ AtYield (in_kernel_mach _ s2 _ _ _ Hik2 eq_refl) Hp2) as (x3 & Hx3 & Hik3); [done|].
  rewrite (bind_ret _ _ _ _ _ Hx3). eexists. split; [reflexivity|]. split; [by eapply in_kernel_mach|].
  simpl. rewrite (list_alter_insert _ _ _ _ Hp). by rewrite list_insert_insert_eq.
Qed.

Lemma set_intena_run s h b b' o :
  in_kernel s h b o -> h <> [] ->
  exists x, with_mach (upd_cpu c (set_intena b')) s = Ret tt (set_mach x s) /\ in_kernel (set_mach x s) h b' o.
Proof.
  intros Hik Hne. destruct (set_intena_spec c _ _ _ b' _ (ik_cpu _ _ _ _ Hik) Hne) as (x & Hx & Hok & El).
  exists x. split; [by apply with_mach_run|by eapply in_kernel_locks].
Qed.

Lemma resume_yield_run t b b' i q :
  in_kernel t [ptable_lock] b' (Some i) -> ptable t !! i = Some q -> ctx q = mkContext AtYield b ->
  exists x, resume c ptable_lock i t = Ret (Stay 0) (set_mach x t) /\ in_kernel (set_mach x t) [] b (Some i).
Proof.
  intros Hik Hq Hc. unfold resume. rewrite (bind_ret _ _ _ _ _ (the_proc_run _ _ _ Hq)), Hc. simpl.
  destruct (set_intena_run _ _ _ b _ Hik ltac:(done)) as (x1 & Hx1 & Hik1).
  rewrite (bind_ret _ _ _ _ _ Hx1). destruct (release_run _ _ _ Hik1) as (x2 & Hx2 & Hik2).
  rewrite (bind_ret _ _ _ _ _ Hx2). by exists x2.
Qed.

Section Sleep.
Context (lk : Z) (Hlk : lk <> ptable_lock).

(** Taking a lock with another one held, and giving the other one up. *)
Lemma swap_locks_run s b o l1 l2 :
  l1 <> l2 -> cpu_ok c (k_mach s) [l1] b o -> locked (the_lock (k_mach s) l2) = false ->
  exists x, (with_mach (acquire c l2);; with_mach (release c l1)) s = Ret tt (set_mach x s) /\
    cpu_ok c x [l2] b o /\ locked (the_lock x l1) = false.
Proof.
  intros Hne Hok Hf. pose proof (acquire_spec c _ _ _ _ l2 Hok) as Ha.
  rewrite decide_False, Hf in Ha by (rewrite list_elem_of_singleton; congruence).
  destruct Ha as (x1 & Hx1 & Hok1 & _). rewrite (bind_ret _ _ _ _ _ (with_mach_run _ _ _ _ Hx1)).
  pose proof (release_spec c _ _ _ _ l1 Hok1) as Hr.
  rewrite decide_True in Hr by (right; by left). destruct Hr as (x2 & Hx2 & Hok2 & Hl2 & _).
  rewrite filter_cons_True, filter_cons_False in Hok2 by (congruence || tauto).
  exists x2. split; [exact (with_mach_run _ (set_mach x1 s) _ _ Hx2)|]. split; [done|]. by rewrite Hl2.
Qed.

Lemma sleep_run s b i p ch r :
  in_kernel s [lk] b (Some i) -> ptable s !! i = Some p -> lk <> 0 ->
  exists s1, sleep c ptable_lock ch lk r s = Ret tt s1 /\ in_kernel s1 [ptable_lock] b (Some i) /\
    ptable s1 = <[i := set_ctx (mkContext r b) (set_state SLEEPING (set_chan ch p))]> (ptable s).
Proof.
  intros Hik Hp Hz. unfold sleep. destruct (in_kernel_myproc _ _ _ _ Hik) as (x1 & Hx1 & Hik1).
  rewrite (bind_ret _ _ _ _ _ Hx1). rewrite (proj2 (Z.eqb_neq _ _) Hz).
  rewrite (bind_ret _ _ _ tt _) by done. rewrite (proj2 (Z.eqb_neq _ _) Hlk). cbn [negb when].
  destruct Hik1 as [Hok1 Hf1].
  destruct (swap_locks_run _ _ _ lk ptable_lock Hlk Hok1) as (x2 & Hx2 & Hok2 & _).
  { apply Hf1. rewrite list_elem_of_singleton. congruence. }
  rewrite (bind_ret _ _ _ _ _ Hx2). erewrite bind_ret by reflexivity.
  set (s2 := set_ptable _ _).
  assert (Ht2 : ptable s2 = <[i := set_state SLEEPING (set_chan ch p)]> (ptable s)).
  { unfold s2. simpl. by rewrite (list_alter_insert _ _ _ _ Hp). }
  assert (Hp2 : ptable s2 !! i = Some (set_state SLEEPING (set_chan ch p))).
  { rewrite Ht2. apply list_lookup_insert_eq. by eapply lookup_lt_Some. }
  assert (Hik2 : in_kernel s2 [ptable_lock] b (Some i)).
  { split; [exact Hok2|]. intros Hn. destruct Hn. by left. }
  destruct (sched_run s2 b i _ r Hik2 Hp2) as (x3 & Hx3 & Hik3); [done|].
  rewrite Hx3. eexists. split; [reflexivity|]. split; [by eapply in_kernel_mach|].
  simpl. rewrite (list_alter_insert _ _ _ _ Hp). by rewrite list_insert_insert_eq.
Qed.

Lemma resume_sleep_run t b b' i q :
  in_kernel t [ptable_lock] b' (Some i) -> ptable t !! i = Some q -> ctx q = mkContext (AtSleep lk) b ->
  exists t', resume c ptable_lock i t = Ret (Stay 0) t' /\ in_kernel t' [] b (Some i) /\
    ptable t' = <[i := set_chan NoChan q]> (ptable t) /\
    the_lock (k_mach t') lk = the_lock (k_mach t) lk.
Proof.
  intros Hik Hq Hc. unfold resume. rewrite (bind_ret _ _ _ _ _ (the_proc_run _ _ _ Hq)), Hc. simpl.
  destruct (set_intena_spec c _ _ _ b _ (ik_cpu _ _ _ _ Hik) ltac:(done)) as (x1 & Hx1 & Hok1 & El1).
  rewrite (bind_ret _ _ _ _ _ (with_mach_run _ t _ _ Hx1)). erewrite bind_ret by reflexivity.
  set (t1 := set_ptable _ _).
  pose proof (release_spec c _ _ _ _ ptable_lock Hok1) as Hr.
  rewrite decide_True in Hr by by left. destruct Hr as (x2 & Hx2 & Hok2 & Hl2 & Hoth2).
  rewrite filter_cons_False in Hok2 by tauto.
  rewrite (bind_ret _ _ _ _ _ (with_mach_run _ t1 _ _ Hx2)).
  eexists. split; [reflexivity|]. split_and!.
  - split; [exact Hok2|]. intros _. simpl. by rewrite Hl2.
  - unfold t1. simpl. by rewrite (list_alter_insert _ _ _ _ Hq).
  - simpl. rewrite Hoth2 by done. unfold the_lock. by rewrite El1.
Qed.

(** Taking the lock back. *)
Lemma sleep_end_run t b i :
  in_kernel t [] b (Some i) -> locked (the_lock (k_mach t) lk) = false ->
  exists x, sleep_end c lk t = Ret tt (set_mach x t) /\ in_kernel (set_mach x t) [lk] b (Some i).
Proof.
  intros [Hok Hfr] Hf. pose proof (acquire_spec c _ _ _ _ lk Hok) as Ha.
  rewrite decide_False, Hf in Ha by apply not_elem_of_nil. destruct Ha as (x & Hx & Hok' & Hoth).
  exists x. split; [by apply with_mach_run|]. split; [exact Hok'|]. intros _. simpl.
  rewrite Hoth by congruence. apply Hfr. apply not_elem_of_nil.
Qed.
End Sleep.
End Calls.

(** ** wait and kill *)

Section WaitKill.
Context {K : Type} `{ProcEnv K}.
Context (c : nat) (ptable_lock : Z).
Implicit Types (s t : kstate K).

Definition child_of (i : nat) (p : proc) : bool := bool_decide (parent p = Some i).
Definition zombie_child (i : nat) (p : proc) : bool := child_of i p && bool_decide (state p = ZOMBIE).

(** A reaped slot: everything but the size, the files and the saved state is cleared. *)
Definition reaped (p : proc) : proc :=
  set_state UNUSED (set_killed 0 (set_name "" (set_parent None (set_pid 0 (set_kstack 0 p))))).

Lemma with_env_run {A : Type} (m : M K A) s a k :
  m (k_env s) = Ret a k ->
  with_env m s = Ret a (mkKstate k (k_mach s) (ptable s) (nextpid s) (initproc s) (forkret_first s)).
Proof. intros E. unfold with_env, zoom. by rewrite E. Qed.

Lemma alter_alter_insert (f g : proc -> proc) (l : list proc) (i : nat) (p : proc) :
  l !! i = Some p -> alter g i (alter f i l) = <[i := g (f p)]> l.
Proof.
  intros Hp. rewrite (list_alter_insert _ _ _ _ Hp).
  rewrite (list_alter_insert _ _ _ (f p)), list_insert_insert_eq; [done|].
  apply list_lookup_insert_eq. by eapply lookup_lt_Some.
Qed.

Lemma wait_reap s b i j q k1 k2 :
  in_kernel c ptable_lock s [ptable_lock] b (Some i) ->
  find_index (zombie_child i) (ptable s) = Some j -> ptable s !! j = Some q ->
  env_kfree (kstack q) (k_env s) = Ret tt k1 -> env_freevm (pgdir q) k1 = Ret tt k2 ->
  exists s', wait_scan c ptable_lock i s = Ret (Stay (pid q)) s' /\
    in_kernel c ptable_lock s' [] b (Some i) /\ ptable s' = <[j := reaped q]> (ptable s) /\ k_env s' = k2.
Proof.
  intros Hik Hj Hq E1 E2. unfold wait_scan. erewrite bind_ret by reflexivity.
  unfold zombie_child, child_of in Hj. rewrite Hj.
  rewrite (bind_ret _ _ _ _ _ (the_proc_run _ _ _ Hq)).
  rewrite (bind_ret _ _ _ _ _ (with_env_run _ _ _ _ E1)). erewrite bind_ret by reflexivity.
  set (s1 := set_ptable _ _). assert (Ek : k_env s1 = k1) by done.
  rewrite <- Ek in E2. rewrite (bind_ret _ _ _ _ _ (with_env_run _ _ _ _ E2)).
  erewrite bind_ret by reflexivity. set (s2 := set_ptable _ _).
  pose proof (in_kernel_mach c ptable_lock _ s2 _ _ _ Hik eq_refl) as Hik2.
  destruct (release_run _ _ _ _ _ Hik2) as (x & Hx & Hik3). rewrite (bind_ret _ _ _ _ _ Hx).
  eexists. split; [reflexivity|]. split; [exact Hik3|]. split; [|done].
  unfold s2, s1. simpl. by rewrite (alter_alter_insert _ _ _ _ _ Hq).
Qed.

Lemma existsb_child i (t : list proc) : existsb (fun p => bool_decide (parent p = Some i)) t = existsb (child_of i) t.
Proof. done. Qed.

Lemma wait_leave s b i p :
  in_kernel c ptable_lock s [ptable_lock] b (Some i) ->
  find_index (zombie_child i) (ptable s) = None -> ptable s !! i = Some p ->
  existsb (child_of i) (ptable s) = false \/ killed p <> 0 ->
  exists x, wait_scan c ptable_lock i s = Ret (Stay (-1)) (set_mach x s) /\
    in_kernel c ptable_lock (set_mach x s) [] b (Some i).
Proof.
  intros Hik Hj Hp Hor. unfold wait_scan. erewrite bind_ret by reflexivity.
  unfold zombie_child, child_of in Hj. rewrite Hj, (bind_ret _ _ _ _ _ (the_proc_run _ _ _ Hp)).
  rewrite existsb_child. destruct (negb _ || _) eqn:E.
  - destruct (release_run _ _ _ _ _ Hik) as (x & Hx & Hik3). rewrite (bind_ret _ _ _ _ _ Hx). by exists x.
  - apply orb_false_iff in E as [E1%negb_false_iff E2%negb_false_iff%Z.eqb_eq].
    destruct Hor; congruence.
Qed.

Lemma wait_sleep s b i p :
  in_kernel c ptable_lock s [ptable_lock] b (Some i) ->
  find_index (zombie_child i) (ptable s) = None -> ptable s !! i = Some p ->
  existsb (child_of i) (ptable s) = true -> killed p = 0 -> ptable_lock <> 0 ->
  exists s', wait_scan c ptable_lock i s = Ret Switched s' /\
    in_kernel c ptable_lock s' [ptable_lock] b (Some i) /\
    ptable s' = <[i := set_ctx (mkContext AtWait b) (set_state SLEEPING (set_chan (ProcChan i) p))]> (ptable s).
Proof.
  intros Hik Hj Hp Hch Hk Hz. unfold wait_scan. erewrite bind_ret by reflexivity.
  unfold zombie_child, child_of in Hj. rewrite Hj, (bind_ret _ _ _ _ _ (the_proc_run _ _ _ Hp)).
  rewrite existsb_child, Hch, Hk. simpl. unfold sleep. rewrite bind_assoc.
  destruct (in_kernel_myproc _ _ _ _ _ _ Hik) as (x1 & Hx1 & Hik1). rewrite (bind_ret _ _ _ _ _ Hx1).
  rewrite (proj2 (Z.eqb_neq _ _) Hz), Z.eqb_refl. simpl.
  rewrite bind_assoc, (bind_ret _ _ _ tt _) by done. rewrite bind_assoc, (bind_ret _ _ _ tt _) by done.
  rewrite bind_assoc. erewrite bind_ret by reflexivity. set (s2 := set_ptable _ _).
  assert (Ht2 : ptable s2 = <[i := set_state SLEEPING (set_chan (ProcChan i) p)]> (ptable s)).
  { unfold s2. simpl. by rewrite (list_alter_insert _ _ _ _ Hp). }
  assert (Hp2 : ptable s2 !! i = Some (set_state SLEEPING (set_chan (ProcChan i) p))).
  { rewrite Ht2. apply list_lookup_insert_eq. by eapply lookup_lt_Some. }
  pose proof (in_kernel_mach c ptable_lock _ s2 _ _ _ Hik1 eq_refl) as Hik2.
  destruct (sched_run c ptable_lock s2 b i _ AtWait Hik2 Hp2) as (x3 & Hx3 & Hik3); [done|].
  rewrite (bind_ret _ _ _ _ _ Hx3). eexists. split; [reflexivity|]. split; [by eapply in_kernel_mach|].
  simpl. rewrite (list_alter_insert _ _ _ _ Hp). by rewrite list_insert_insert_eq.
Qed.

Definition mark_killed (p : proc) : proc :=
  let p := set_killed 1 p in if bool_decide (state p = SLEEPING) then set_state RUNNABLE p else p.

Lemma kill_run s b o n :
  in_kernel c ptable_lock s [] b o ->
  exists x, kill c ptable_lock n s =
      match find_index (fun p => pid p =? n) (ptable s) with
      | Some i => Ret 0 (set_ptable (alter mark_killed i (ptable s)) (set_mach x s))
      | None => Ret (-1) (set_mach x s)
      end /\ in_kernel c ptable_lock (set_mach x s) [] b o.
Proof.
  intros Hik. unfold kill. destruct (acquire_run _ _ _ _ _ Hik) as (x1 & Hx1 & Hik1).
  rewrite (bind_ret _ _ _ _ _ Hx1). erewrite bind_ret by reflexivity.
  change (ptable (set_mach x1 s)) with (ptable s).
  destruct (find_index _ (ptable s)) as [i|] eqn:Ei.
  - erewrite bind_ret by reflexivity. set (s2 := set_ptable _ _).
    pose proof (in_kernel_mach c ptable_lock _ s2 _ _ _ Hik1 eq_refl) as Hik2.
    destruct (release_run _ _ _ _ _ Hik2) as (x & Hx & Hik3). rewrite (bind_ret _ _ _ _ _ Hx).
    exists x. split; [done|]. by eapply in_kernel_mach.
  - destruct (release_run _ _ _ _ _ Hik1) as (x & Hx & Hik3). rewrite (bind_ret _ _ _ _ _ Hx). by exists x.
Qed.
End WaitKill.

(** ** allocproc and fork, when memory and files are there *)

Section ForkRun.
Context {K : Type} `{ProcEnv K}.
Context (c : nat) (ptable_lock : Z).
Implicit Types (s t : kstate K).

Definition newborn (n a : Z) (p : proc) : proc :=
  set_ctx (mkContext AtForkret false) (set_kstack a (set_pid n (set_state EMBRYO p))).

Lemma alloc_slot_run s b o i p :
  in_kernel c ptable_lock s [] b o ->
  find_index (fun p => bool_decide (state p = UNUSED)) (ptable s) = Some i -> ptable s !! i = Some p ->
  exists s', alloc_slot c ptable_lock s = Ret (Some i) s' /\ in_kernel c ptable_lock s' [] b o /\
    ptable s' = <[i := set_pid (nextpid s) (set_state EMBRYO p)]> (ptable s) /\ k_env s' = k_env s /\
    nextpid s' = s32 (nextpid s + 1) /\ initproc s' = initproc s.
Proof.
  intros Hik Hi Hp. unfold alloc_slot. destruct (acquire_run _ _ _ _ _ Hik) as (x1 & Hx1 & Hik1).
  rewrite (bind_ret _ _ _ _ _ Hx1). erewrite bind_ret by reflexivity.
  change (ptable (set_mach x1 s)) with (ptable s). rewrite Hi.
  erewrite bind_ret by reflexivity. erewrite bind_ret by reflexivity. erewrite bind_ret by reflexivity.
  set (s2 := mkKstate _ _ _ _ _ _).
  pose proof (in_kernel_mach c ptable_lock _ s2 _ _ _ Hik1 eq_refl) as Hik2.
  destruct (release_run _ _ _ _ _ Hik2) as (x & Hx & Hik3). rewrite (bind_ret _ _ _ _ _ Hx).
  exists (set_mach x s2). split; [done|]. split; [done|]. split; [|done].
  unfold s2. simpl. by rewrite (list_alter_insert _ _ _ _ Hp).
Qed.

Lemma alloc_stack_run s b o i p a k1 k2 :
  in_kernel c ptable_lock s [] b o -> ptable s !! i = Some p ->
  env_kalloc (k_env s) = Ret a k1 -> a <> 0 ->
  (when (negb ((pid p =? 1) || (pid p =? 2))) (env_new_paging i (pid p))) k1 = Ret tt k2 ->
  exists s', alloc_stack i s = Ret (Some i) s' /\ in_kernel c ptable_lock s' [] b o /\
    ptable s' = <[i := set_ctx (mkContext AtForkret false) (set_kstack a p)]> (ptable s) /\ k_env s' = k2 /\
    nextpid s' = nextpid s /\ initproc s' = initproc s.
Proof.
  intros Hik Hp E1 Ha E2. unfold alloc_stack.
  rewrite (bind_ret _ _ _ _ _ (with_env_run _ s _ _ E1)). erewrite bind_ret by reflexivity.
  rewrite (proj2 (Z.eqb_neq _ _) Ha). erewrite bind_ret by reflexivity. set (s3 := set_ptable _ _).
  set (np := set_ctx (mkContext AtForkret false) (set_kstack a p)).
  assert (Ht3 : ptable s3 = <[i := np]> (ptable s)).
  { unfold s3. simpl. by rewrite (alter_alter_insert _ _ _ _ _ Hp). }
  assert (Hp3 : ptable s3 !! i = Some np).
  { rewrite Ht3. apply list_lookup_insert_eq. by eapply lookup_lt_Some. }
  rewrite (bind_ret _ _ _ _ _ (the_proc_run _ _ _ Hp3)).
  change (pid np) with (pid p). clearbody np.
  destruct (negb _); cbn [when] in E2 |- *.
  - rewrite (bind_ret _ _ _ _ _ (with_env_run _ s3 _ _ E2)). eexists. split; [reflexivity|].
    split; [eapply in_kernel_mach; [exact Hik|done]|]. by rewrite <- Ht3.
  - injection E2 as <-. rewrite (bind_ret _ _ _ tt s3) by done. eexists. split; [reflexivity|].
    split; [eapply in_kernel_mach; [exact Hik|done]|]. by rewrite <- Ht3.
Qed.

Lemma alloc_run s b o i p a k1 k2 :
  in_kernel c ptable_lock s [] b o ->
  find_index (fun p => bool_decide (state p = UNUSED)) (ptable s) = Some i -> ptable s !! i = Some p ->
  env_kalloc (k_env s) = Ret a k1 -> a <> 0 ->
  (when (negb ((nextpid s =? 1) || (nextpid s =? 2))) (env_new_paging i (nextpid s))) k1 = Ret tt k2 ->
  exists s', allocproc c ptable_lock s = Ret (Some i) s' /\ in_kernel c ptable_lock s' [] b o /\
    ptable s' = <[i := newborn (nextpid s) a p]> (ptable s) /\ k_env s' = k2 /\
    nextpid s' = s32 (nextpid s + 1) /\ initproc s' = initproc s.
Proof.
  intros Hik Hi Hp E1 Ha E2. unfold allocproc.
  destruct (alloc_slot_run s b o i p Hik Hi Hp) as (s1 & Hs1 & Hik1 & Ht1 & Ek1 & Hn1 & Hi1).
  rewrite (bind_ret _ _ _ _ _ Hs1). rewrite <- Ek1 in E1.
  destruct (alloc_stack_run s1 b o i _ a k1 k2 Hik1
    ltac:(rewrite Ht1; apply list_lookup_insert_eq; by eapply lookup_lt_Some) E1 Ha E2)
    as (s2 & Hs2 & Hik2 & Ht2 & Ek2 & Hn2 & Hi2).
  exists s2. split_and!; [done|done| |done|congruence|congruence].
  by rewrite Ht2, Ht1, list_insert_insert_eq.
Qed.

(** The child's open files: the parent's, and its slot's old entries where the parent has none. *)
Fixpoint inherit (fds old : list Z) : list Z :=
  match fds, old with
  | f :: fds, g :: old => (if f =? 0 then g else f) :: inherit fds old
  | _, _ => old
  end.

Lemma inherit_step fds old fd f :
  fds !! fd = Some f -> length fds = length old ->
  inherit (take (S fd) fds) old =
    (if f =? 0 then inherit (take fd fds) old else <[fd := f]> (inherit (take fd fds) old)).
Proof.
  revert old fd. induction fds as [|g fds IH]; intros [|o old] [|fd] Hf Hlen; try done.
  - injection Hf as ->. simpl. destruct (f =? 0), fds, old; done.
  - simpl in *. change (take (S fd) (g :: fds)) with (g :: take fd fds).
    rewrite (IH old fd Hf) by lia. destruct (f =? 0); done.
Qed.

Section Dup.
Context (Hdup : forall f k, exists k', env_filedup f k = Ret f k').

Lemma dup_files_run i np fds0 q n : forall fd s,
  ptable s !! np = Some (set_ofile (inherit (take fd fds0) (ofile q)) q) ->
  length fds0 = length (ofile q) -> (fd + n = length fds0)%nat ->
  exists k, dup_files i np (drop fd fds0) fd s =
    Ret tt (mkKstate k (k_mach s) (<[np := set_ofile (inherit fds0 (ofile q)) q]> (ptable s))
              (nextpid s) (initproc s) (forkret_first s)).
Proof.
  induction n as [|n IH]; intros fd s Hq Hlen Hfd.
  - rewrite drop_ge by lia. exists (k_env s). rewrite firstn_all2 in Hq by lia. simpl.
    rewrite list_insert_id by done. by destruct s.
  - destruct (lookup_lt_is_Some_2 fds0 fd) as [f Hf]; [lia|]. rewrite (drop_S _ _ _ Hf). cbn [dup_files].
    pose proof (inherit_step _ _ _ _ Hf Hlen) as Hst. destruct (f =? 0) eqn:E; cbn [negb when].
    + rewrite (bind_ret _ _ _ tt s) by done. apply IH; [by rewrite Hst|done|lia].
    + destruct (Hdup f (k_env s)) as (k' & Hk).
      erewrite bind_ret by (erewrite bind_ret by (by apply with_env_run); reflexivity).
      set (s1 := set_ptable _ _).
      assert (Ht1 : ptable s1 = <[np := set_ofile (inherit (take (S fd) fds0) (ofile q)) q]> (ptable s)).
      { unfold s1. simpl. by rewrite (list_alter_insert _ _ _ _ Hq), Hst. }
      destruct (IH (S fd) s1) as (k & Hrun); [|done|lia|].
      { rewrite Ht1. apply list_lookup_insert_eq. by eapply lookup_lt_Some. }
      rewrite Hrun. exists k. by rewrite Ht1, list_insert_insert_eq.
Qed.

Context (Hidup : forall w k, exists k', env_idup w k = Ret w k').
Context (Hcopy : forall i j k, exists k', env_copy_paging i j k = Ret tt k').

(** The process [q] in the child's slot, as fork leaves it for the parent [p] of slot [i]. *)
Definition fork_child (i : nat) (p : proc) (d : Z) (q : proc) : proc :=
  let t := tf p in
  mkProc (sz p) d (kstack q) (state q) (pid q) (Some i)
    (mkTrapframe 0 (tf_eip t) (tf_esp t) (tf_cs t) (tf_ds t) (tf_es t) (tf_ss t) (tf_eflags t))
    (ctx q) (chan q) (killed q) (inherit (ofile p) (ofile q)) (cwd p) (name p).

Lemma fork_build_run s b i np p q d k1 :
  in_kernel c ptable_lock s [] b (Some i) ->
  ptable s !! i = Some p -> ptable s !! np = Some q -> length (ofile p) = length (ofile q) ->
  env_copyuvm (pgdir p) (sz p) (k_env s) = Ret d k1 -> d <> 0 ->
  exists s', fork_build i np s = Ret (Some (pid q)) s' /\ in_kernel c ptable_lock s' [] b (Some i) /\
    ptable s' = <[np := fork_child i p d q]> (ptable s) /\ nextpid s' = nextpid s /\ initproc s' = initproc s.
Proof.
  intros Hik Hp Hq Hlen E Hd. unfold fork_build.
  rewrite (bind_ret _ _ _ _ _ (the_proc_run _ _ _ Hp)).
  rewrite (bind_ret _ _ _ _ _ (with_env_run _ s _ _ E)).
  erewrite bind_ret by reflexivity. rewrite (proj2 (Z.eqb_neq _ _) Hd).
  erewrite bind_ret by reflexivity. set (s2 := set_ptable _ _).
  set (q2 := set_tf (mkTrapframe 0 (tf_eip (tf p)) (tf_esp (tf p)) (tf_cs (tf p)) (tf_ds (tf p)) (tf_es (tf p))
    (tf_ss (tf p)) (tf_eflags (tf p))) (set_parent (Some i) (set_sz (sz p) (set_pgdir d q)))).
  assert (Ht2 : ptable s2 = <[np := q2]> (ptable s)).
  { unfold s2. simpl. by rewrite (alter_alter_insert _ _ _ _ _ Hq). }
  assert (Hq2 : ptable s2 !! np = Some q2).
  { rewrite Ht2. apply list_lookup_insert_eq. by eapply lookup_lt_Some. }
  destruct (dup_files_run i np (ofile p) q2 (length (ofile p)) 0 s2) as (k3 & Hrun); [|done|done|].
  { by rewrite Hq2. }
  rewrite drop_0 in Hrun. rewrite (bind_ret _ _ _ _ _ Hrun). set (s3 := mkKstate _ _ _ _ _ _).
  destruct (Hidup (cwd p) k3) as (k4 & Hk4). rewrite (bind_ret _ _ _ _ _ (with_env_run _ s3 _ _ Hk4)).
  erewrite bind_ret by reflexivity. set (s4 := set_ptable _ _).
  assert (Ht4 : ptable s4 = <[np := fork_child i p d q]> (ptable s)).
  { change (alter (fun q => set_name (name p) (set_cwd (cwd p) q)) np (<[np := set_ofile (inherit (ofile p) (ofile q2)) q2]> (ptable s2)) = <[np := fork_child i p d q]> (ptable s)). rewrite Ht2.
    rewrite (list_alter_insert _ _ _ (set_ofile (inherit (ofile p) (ofile q2)) q2)), !list_insert_insert_eq.
    - done.
    - rewrite list_insert_insert_eq. apply list_lookup_insert_eq. by eapply lookup_lt_Some. }
  assert (Hq4 : ptable s4 !! np = Some (fork_child i p d q)).
  { rewrite Ht4. apply list_lookup_insert_eq. by eapply lookup_lt_Some. }
  rewrite (bind_ret _ _ _ _ _ (the_proc_run _ _ _ Hq4)). destruct (negb _); cbn [when].
  - destruct (Hcopy i np (k_env s4)) as (k5 & Hk5). rewrite (bind_ret _ _ _ _ _ (with_env_run _ s4 _ _ Hk5)).
    eexists. split; [reflexivity|]. split; [eapply in_kernel_mach; [exact Hik|done]|]. by rewrite <- Ht4.
  - rewrite (bind_ret _ _ _ tt s4) by done.
    eexists. split; [reflexivity|]. split; [eapply in_kernel_mach; [exact Hik|done]|]. by rewrite <- Ht4.
Qed.

Lemma fork_finish_run s b o np q :
  in_kernel c ptable_lock s [] b o -> ptable s !! np = Some q ->
  exists s', fork_finish c ptable_lock np s = Ret tt s' /\ in_kernel c ptable_lock s' [] b o /\
    ptable s' = <[np := set_state RUNNABLE q]> (ptable s) /\ nextpid s' = nextpid s /\ initproc s' = initproc s.
Proof.
  intros Hik Hq. unfold fork_finish. destruct (acquire_run _ _ _ _ _ Hik) as (x1 & Hx1 & Hik1).
  rewrite (bind_ret _ _ _ _ _ Hx1). erewrite bind_ret by reflexivity. set (s2 := set_ptable _ _).
  pose proof (in_kernel_mach c ptable_lock _ s2 _ _ _ Hik1 eq_refl) as Hik2.
  destruct (release_run _ _ _ _ _ Hik2) as (x & Hx & Hik3). rewrite Hx. eexists. split; [reflexivity|].
  split; [done|]. simpl. by rewrite (list_alter_insert _ _ _ _ Hq).
Qed.
End Dup.
End ForkRun.

Section RoundTrips.
Context {K : Type} `{ProcEnv K}.
Implicit Types (s t : kstate K).

(** yield, from a process that holds no lock, always reaches the scheduler with ptable.lock
    as the only lock held and the process RUNNABLE; and whenever a scheduler, on any processor
    and in any later state, switches back to the process, yield returns there with no lock held
    and with interrupts as they were on the processor that yielded. *)
Theorem yield_resume (ptable_lock : Z) (c : nat) (b : bool) (i : nat) (p : proc) s
    (Hik : in_kernel c ptable_lock s [] b (Some i)) (Hp : ptable s !! i = Some p) :
  exists s1, yield c ptable_lock s = Ret Switched s1 /\
    in_kernel c ptable_lock s1 [ptable_lock] b (Some i) /\
    ptable s1 = <[i := set_ctx (mkContext AtYield b) (set_state RUNNABLE p)]> (ptable s) /\
    forall c' b' t q, in_kernel c' ptable_lock t [ptable_lock] b' (Some i) ->
      ptable t !! i = Some q -> ctx q = mkContext AtYield b ->
      exists t', resume c' ptable_lock i t = Ret (Stay 0) t' /\
        in_kernel c' ptable_lock t' [] b (Some i) /\ ptable t' = ptable t.
Proof.
  destruct (yield_run c ptable_lock s b i p Hik Hp) as (s1 & H1 & H2 & H3). exists s1.
  split_and!; [done..|]. intros c' b' t q Ht Hq Hc.
  destruct (resume_yield_run c' ptable_lock t b b' i q Ht Hq Hc) as (x & Hx & Hikx). by exists (set_mach x t).
Qed.

(** sleep gives up the lock it is called with and marks the process SLEEPING on its channel
    without ptable.lock ever being free in between, so no wakeup can fall in the gap; when the
    process is switched back to, its channel is cleared and it runs on with the interrupt state
    it was called with and no lock; and once the lock it slept with is free, sleep returns
    holding exactly that lock. *)
Theorem sleep_resume (ptable_lock lk : Z) (ch : channel) (c : nat) (b : bool) (i : nat) (p : proc) s
    (Hlk : lk <> ptable_lock) (Hnz : lk <> 0)
    (Hik : in_kernel c ptable_lock s [lk] b (Some i)) (Hp : ptable s !! i = Some p) :
  exists s1, sleep c ptable_lock ch lk (AtSleep lk) s = Ret tt s1 /\
    in_kernel c ptable_lock s1 [ptable_lock] b (Some i) /\
    ptable s1 = <[i := set_ctx (mkContext (AtSleep lk) b) (set_state SLEEPING (set_chan ch p))]> (ptable s) /\
    (forall c' b' t q, in_kernel c' ptable_lock t [ptable_lock] b' (Some i) ->
      ptable t !! i = Some q -> ctx q = mkContext (AtSleep lk) b ->
      exists t', resume c' ptable_lock i t = Ret (Stay 0) t' /\
        in_kernel c' ptable_lock t' [] b (Some i) /\
        ptable t' = <[i := set_chan NoChan q]> (ptable t)) /\
    (forall c' t, in_kernel c' ptable_lock t [] b (Some i) -> locked (the_lock (k_mach t) lk) = false ->
      exists t', sleep_end c' lk t = Ret tt t' /\
        in_kernel c' ptable_lock t' [lk] b (Some i) /\ ptable t' = ptable t).
Proof.
  destruct (sleep_run c ptable_lock lk Hlk s b i p ch (AtSleep lk) Hik Hp Hnz) as (s1 & H1 & H2 & H3).
  exists s1. split_and!; [done..| |].
  - intros c' b' t q Ht Hq Hc.
    destruct (resume_sleep_run c' ptable_lock lk Hlk t b b' i q Ht Hq Hc) as (t' & Ht1 & Ht2 & Ht3 & _). by exists t'.
  - intros c' t Ht Hf. destruct (sleep_end_run c' ptable_lock lk Hlk t b i Ht Hf) as (x & Hx & Hikx).
    by exists (set_mach x t).
Qed.

(** C9: fork succeeds when there is a free slot, a kernel stack and memory for the copy: it
    returns the next pid, interrupts and locks are as before, and the only slot that changed is
    the first free one, which now holds a RUNNABLE child of the caller with the new pid, the
    copied page table, the caller's size, name, directory and open files, and the caller's
    registers but for the result, which is 0; it will start in forkret. *)
Theorem fork_makes_child (ptable_lock : Z) (c : nat) (b : bool) (i j : nat) (p q : proc) (a d : Z) (k1 k2 k3 : K) s
    (Hdup : forall f k, exists k', env_filedup f k = Ret f k')
    (Hidup : forall w k, exists k', env_idup w k = Ret w k')
    (Hcopy : forall i j k, exists k', env_copy_paging i j k = Ret tt k')
    (Hik : in_kernel c ptable_lock s [] b (Some i)) (Hp : ptable s !! i = Some p) (Hr : state p = RUNNING)
    (Hj : find_index (fun p => bool_decide (state p = UNUSED)) (ptable s) = Some j)
    (Hq : ptable s !! j = Some q) (Hfiles : length (ofile p) = length (ofile q))
    (Ek : env_kalloc (k_env s) = Ret a k1) (Ha : a <> 0)
    (En : (when (negb ((nextpid s =? 1) || (nextpid s =? 2))) (env_new_paging j (nextpid s))) k1 = Ret tt k2)
    (Ec : env_copyuvm (pgdir p) (sz p) k2 = Ret d k3) (Hd : d <> 0) :
  exists s', fork c ptable_lock s = Ret (nextpid s) s' /\ in_kernel c ptable_lock s' [] b (Some i) /\
    nextpid s' = s32 (nextpid s + 1) /\
    ptable s' = <[j := set_state RUNNABLE (fork_child i p d (newborn (nextpid s) a q))]> (ptable s).
Proof.
  unfold fork. destruct (curproc_run _ _ _ _ _ _ Hik) as (x1 & Hx1 & Hik1). rewrite (bind_ret _ _ _ _ _ Hx1).
  destruct (alloc_run c ptable_lock (set_mach x1 s) b (Some i) j q a k1 k2 Hik1 Hj Hq Ek Ha En)
    as (s2 & Hs2 & Hik2 & Ht2 & Ek2 & Hn2 & Hi2).
  rewrite (bind_ret _ _ _ _ _ Hs2). cbn [set_mach ptable nextpid] in Ht2, Hn2.
  assert (Hne : j <> i).
  { intros ->. apply find_index_Some in Hj as (q' & Hq' & Hu & _). to_prop. congruence. }
  assert (Hp2 : ptable s2 !! i = Some p) by (by rewrite Ht2, list_lookup_insert_ne).
  assert (Hq2 : ptable s2 !! j = Some (newborn (nextpid s) a q)).
  { rewrite Ht2. apply list_lookup_insert_eq. by eapply lookup_lt_Some. }
  rewrite <- Ek2 in Ec.
  destruct (fork_build_run c ptable_lock Hdup Hidup Hcopy s2 b i j p _ d k3 Hik2 Hp2 Hq2 Hfiles Ec Hd)
    as (s3 & Hs3 & Hik3 & Ht3 & Hn3 & _).
  rewrite (bind_ret _ _ _ _ _ Hs3). cbv beta iota. change (pid (newborn (nextpid s) a q)) with (nextpid s).
  assert (Hq3 : ptable s3 !! j = Some (fork_child i p d (newborn (nextpid s) a q))).
  { rewrite Ht3. apply list_lookup_insert_eq. by eapply lookup_lt_Some. }
  destruct (fork_finish_run c ptable_lock s3 b (Some i) j _ Hik3 Hq3) as (s4 & Hs4 & Hik4 & Ht4 & Hn4 & _).
  rewrite (bind_ret _ _ _ _ _ Hs4). exists s4. split; [done|]. split; [done|]. split; [congruence|].
  by rewrite Ht4, Ht3, Ht2, !list_insert_insert_eq.
Qed.

(** C12: wait returns the pid of the first of the caller's zombie children, whose slot it
    clears and frees; without one it returns -1 at once if the caller has no child or has been
    killed, and otherwise gives the processor up, asleep on its own slot. *)
Theorem wait_cases (ptable_lock : Z) (c : nat) (b : bool) (i : nat) (p : proc) s
    (Hfree : forall a k, exists k', env_kfree a k = Ret tt k')
    (Hvm : forall a k, exists k', env_freevm a k = Ret tt k')
    (Hz : ptable_lock <> 0)
    (Hik : in_kernel c ptable_lock s [] b (Some i)) (Hp : ptable s !! i = Some p) :
  match find_index (zombie_child i) (ptable s) with
  | Some j => exists q s', ptable s !! j = Some q /\ wait c ptable_lock s = Ret (Stay (pid q)) s' /\
      in_kernel c ptable_lock s' [] b (Some i) /\ ptable s' = <[j := reaped q]> (ptable s)
  | None =>
      if negb (existsb (child_of i) (ptable s)) || negb (killed p =? 0)
      then exists s', wait c ptable_lock s = Ret (Stay (-1)) s' /\
        in_kernel c ptable_lock s' [] b (Some i) /\ ptable s' = ptable s
      else exists s', wait c ptable_lock s = Ret Switched s' /\
        in_kernel c ptable_lock s' [ptable_lock] b (Some i) /\
        ptable s' = <[i := set_ctx (mkContext AtWait b) (set_state SLEEPING (set_chan (ProcChan i) p))]> (ptable s)
  end.
Proof.
  unfold wait. destruct (curproc_run _ _ _ _ _ _ Hik) as (x1 & Hx1 & Hik1). rewrite (bind_ret _ _ _ _ _ Hx1).
  destruct (acquire_run _ _ _ _ _ Hik1) as (x2 & Hx2 & Hik2). rewrite (bind_ret _ _ _ _ _ Hx2).
  change (set_mach x2 (set_mach x1 s)) with (set_mach x2 s) in *.
  destruct (find_index _ (ptable s)) as [j|] eqn:Ej.
  - pose proof (proj1 (find_index_Some _ _ _) Ej) as (q & Hq & _ & _). exists q.
    destruct (Hfree (kstack q) (k_env s)) as (k1 & E1). destruct (Hvm (pgdir q) k1) as (k2 & E2).
    destruct (wait_reap c ptable_lock (set_mach x2 s) b i j q k1 k2 Hik2 Ej Hq E1 E2) as (s' & Hs' & Hik' & Ht & _).
    by exists s'.
  - destruct (negb _ || _) eqn:E.
    + destruct (wait_leave c ptable_lock (set_mach x2 s) b i p Hik2 Ej Hp) as (x & Hx & Hikx).
      { apply orb_true_iff in E as [E%negb_true_iff|E%negb_true_iff%Z.eqb_neq]; auto. }
      by exists (set_mach x s).
    + apply orb_false_iff in E as [E1%negb_false_iff E2%negb_false_iff%Z.eqb_eq].
      destruct (wait_sleep c ptable_lock (set_mach x2 s) b i p Hik2 Ej Hp E1 E2 Hz) as (s' & Hs' & Hik' & Ht).
      by exists s'.
Qed.

(** kill looks at every slot of the table, free ones too: when the first slot with the pid
    is the free slot the next allocproc will use (as for pid 0 on a fresh table), kill reports
    success, and the process born in that slot starts out killed. *)
Theorem kill_before_birth (ptable_lock : Z) (c : nat) (b : bool) (o : option nat) (n : Z) (i : nat) (p : proc)
    (a : Z) (k1 k2 : K) s
    (Hik : in_kernel c ptable_lock s [] b o) (Hp : ptable s !! i = Some p)
    (Hn : find_index (fun p => pid p =? n) (ptable s) = Some i)
    (Hu : find_index (fun p => bool_decide (state p = UNUSED)) (ptable s) = Some i)
    (Ek : env_kalloc (k_env s) = Ret a k1) (Ha : a <> 0)
    (En : (when (negb ((nextpid s =? 1) || (nextpid s =? 2))) (env_new_paging i (nextpid s))) k1 = Ret tt k2) :
  exists s1 s2 q, kill c ptable_lock n s = Ret 0 s1 /\ allocproc c ptable_lock s1 = Ret (Some i) s2 /\
    ptable s2 !! i = Some q /\ state q = EMBRYO /\ pid q = nextpid s /\ killed q = 1.
Proof.
  destruct (kill_run c ptable_lock s b o n Hik) as (x & Hx & Hikx). rewrite Hn in Hx.
  pose proof (proj1 (find_index_Some _ _ _) Hu) as (p' & Hp' & Hst & Hmin). rewrite Hp in Hp'. injection Hp' as <-.
  to_prop. set (s1 := set_ptable _ _) in Hx.
  assert (Hq : mark_killed p = set_killed 1 p) by (unfold mark_killed; simpl; by rewrite Hst).
  assert (Ht1 : ptable s1 = <[i := set_killed 1 p]> (ptable s)).
  { unfold s1. simpl. by rewrite (list_alter_insert _ _ _ _ Hp), Hq. }
  assert (Hu1 : find_index (fun p => bool_decide (state p = UNUSED)) (ptable s1) = Some i).
  { apply find_index_Some. rewrite Ht1. exists (set_killed 1 p). split_and!.
    - apply list_lookup_insert_eq. by eapply lookup_lt_Some.
    - by rewrite bool_decide_true.
    - intros j y Hj Hy. rewrite list_lookup_insert_ne in Hy by lia. by eapply Hmin. }
  assert (Hp1 : ptable s1 !! i = Some (set_killed 1 p)).
  { rewrite Ht1. apply list_lookup_insert_eq. by eapply lookup_lt_Some. }
  pose proof (in_kernel_mach c ptable_lock _ s1 _ _ _ Hikx eq_refl) as Hik1.
  destruct (alloc_run c ptable_lock s1 b o i _ a k1 k2 Hik1 Hu1 Hp1 Ek Ha En) as (s2 & Hs2 & _ & Ht2 & _).
  exists s1, s2, (newborn (nextpid s1) a (set_killed 1 p)). split; [done|]. split; [done|]. split; [|done].
  rewrite Ht2. apply list_lookup_insert_eq. by eapply lookup_lt_Some.
Qed.
End RoundTrips.
