(* ===== verification/ProcDemo.v ===== *)
(** * ProcDemo: a small machine on which the theorems about processes are exercised

    Four slots and two processors; the memory and file code is replaced by code that hands out
    fresh addresses and always succeeds. Init is started and forks, piece by piece, while the
    other processor's scheduler finds nothing to run; it sleeps on a channel with a lock of its
    own, its child wakes it, and it takes the lock back on the other processor; it waits for
    its child, which exits and is reaped. *)

From S2P Require Import Prelude Mmu Spinlock Proc ProcSpec ProcRefine ProcSteps ProcCalls.

#[global] Instance demo_env : ProcEnv Z := {|
  env_kalloc := fun k => Ret k (k + 1);
  env_kfree _ := ret tt;
  env_setupkvm := fun k => Ret k (k + 1);
  env_inituvm _ := ret tt;
  env_allocuvm _ _ n := ret n;
  env_deallocuvm _ _ n := ret n;
  env_copyuvm _ _ := fun k => Ret k (k + 1);
  env_freevm _ := ret tt;
  env_filedup f := ret f;
  env_fileclose _ := ret tt;
  env_idup w := ret w;
  env_iput _ := ret tt;
  env_namei_root := ret 5;
  env_new_paging _ _ := ret tt;
  env_copy_paging _ _ := ret tt;
  env_removeSwapFile _ := ret 0;
  env_init_fs := ret tt
|}.

Definition demo_lock : Z := 100.
Definition demo_boot : kstate Z := boot_state 1 4 2.
Definition end_of {S A : Type} (d : S) (o : outcome S A) : S :=
  match o with Ret _ s => s | _ => d end.
Definition demo_init : kstate Z := Eval vm_compute in end_of demo_boot (userinit 0 demo_lock demo_boot).
Definition demo_op (op : kop) (s : kstate Z) : kstate Z := end_of demo_boot (run_kop demo_lock 200 0 op s).
Definition demo_running : kstate Z := Eval vm_compute in demo_op OpIdle demo_init.
Definition demo_forked : kstate Z := Eval vm_compute in demo_op OpFork demo_running.

(** The run, in parts. *)
Definition demo_do (acts : list action) (x : ksys Z) : ksys Z :=
  match do_actions demo_lock 200 acts x with Some y => y | None => mkKsys demo_boot [] end.
Definition part1 : list action := [DoOp 0 OpIdle; DoStart 0 CFork; DoOp 1 OpIdle; DoPhase 0; DoOp 1 OpIdle].
Definition part2 : list action := [DoPhase 0; DoPhase 0; DoOp 0 (OpAcquire 7); DoStart 0 (CSleep 40 7)].
Definition part3 : list action := [DoOp 0 (OpWakeup (AddrChan 40)); DoOp 1 OpIdle; DoPhase 1; DoOp 1 (OpRelease 7)].
Definition part4 : list action := [DoOp 1 OpWait; DoStart 0 CExit; DoPhase 0; DoPhase 0].
Definition demo_x0 : ksys Z := Eval vm_compute in mkKsys demo_init [].
Definition demo_x1 : ksys Z := Eval vm_compute in demo_do part1 demo_x0.
Definition demo_x2 : ksys Z := Eval vm_compute in demo_do part2 demo_x1.
Definition demo_x3 : ksys Z := Eval vm_compute in demo_do part3 demo_x2.
Definition demo_x4 : ksys Z := Eval vm_compute in demo_do part4 demo_x3.
Definition demo_x5 : ksys Z := Eval vm_compute in demo_do [DoOp 1 OpIdle] demo_x4.

(** Each slot's state, and the calls under way: fork with its child's slot half made; init
    asleep while its child runs; init back with its lock; init woken by its child's exit; the
    child reaped. *)
Example demo_states :
  map (fun x => (map state (ptable (kern x)), doing x)) [demo_x1; demo_x2; demo_x3; demo_x4; demo_x5] =
  [([RUNNING; EMBRYO; UNUSED; UNUSED], [(0%nat, Building 1)]);
   ([SLEEPING; RUNNING; UNUSED; UNUSED], [(0%nat, Retaking 7)]);
   ([RUNNING; RUNNING; UNUSED; UNUSED], []);
   ([RUNNABLE; ZOMBIE; UNUSED; UNUSED], []);
   ([RUNNING; UNUSED; UNUSED; UNUSED], [])].
Proof. reflexivity. Qed.

Lemma demo_run : rtc (kstep demo_lock 200) demo_x0 demo_x5.
Proof. apply (do_actions_steps _ _ (part1 ++ part2 ++ part3 ++ part4 ++ [DoOp 1 OpIdle])). reflexivity. Qed.
(** Up to the middle of fork. *)
Lemma demo_run_embryo : rtc (kstep demo_lock 200) demo_x0 demo_x1.
Proof. apply (do_actions_steps _ _ part1). reflexivity. Qed.

Lemma process_table_safe_witness :
  rtc (kstep demo_lock 200) demo_x0 demo_x1 /\
  (forall np, np ∈ taken (doing demo_x1) -> exists p, ptable (kern demo_x1) !! np = Some p /\ state p = EMBRYO) /\
  rtc (kstep demo_lock 200) demo_x0 demo_x5 /\
  forall i p, ptable (kern demo_x5) !! i = Some p -> parent p <> Some i.
Proof.
  assert (Hb : userinit 0 demo_lock (boot_state 1 4 2) = Ret tt demo_init) by reflexivity.
  pose proof (process_table_safe demo_lock 200 1 4 2 demo_init demo_x1 Hb demo_run_embryo) as H1.
  pose proof (process_table_safe demo_lock 200 1 4 2 demo_init demo_x5 Hb demo_run) as H5.
  cbv zeta in H1, H5. destruct H1 as (_ & _ & _ & _ & _ & Hs). destruct H5 as (_ & _ & _ & Hself & _ & _).
  split; [exact demo_run_embryo|]. split; [exact Hs|]. split; [exact demo_run|exact Hself].
Defined.

Lemma process_calls_refine_witness :
  run_kop demo_lock 200 0 OpFork demo_running = Ret tt demo_forked /\ ainv (view [] demo_forked).
Proof.
  assert (Hr : run_kop demo_lock 200 0 OpFork demo_running = Ret tt demo_forked) by reflexivity.
  split; [exact Hr|]. apply (process_calls_refine demo_lock 200 0 OpFork demo_running demo_forked).
  - assert (Hi : ainv (view [] demo_init)) by (apply (boot_ainv demo_lock 1 4 2); reflexivity).
    eapply steps_ainv; [|exact Hi]. by apply (kop_refines demo_lock 200 [] 0 OpIdle).
  - intros _. reflexivity.
  - exact Hr.
Defined.

(** ** The processor that runs init *)

Lemma demo_locks : locks (k_mach demo_running) = {[ demo_lock := mkSpin false None ]}.
Proof. reflexivity. Qed.
Lemma demo_lock_free l : the_lock (k_mach demo_running) l = mkSpin false None.
Proof.
  unfold the_lock. rewrite demo_locks. destruct (decide (l = demo_lock)) as [->|Hne].
  - by rewrite lookup_singleton_eq.
  - by rewrite lookup_singleton_ne.
Qed.
Lemma demo_in_kernel : in_kernel 0 demo_lock demo_running [] true (Some 0%nat).
Proof.
  split; [split|].
  - eexists. split; [reflexivity|]. split_and!; [reflexivity|reflexivity|done|reflexivity].
  - constructor.
  - intros l. rewrite demo_lock_free, elem_of_nil. done.
  - intros _. by rewrite demo_lock_free.
Qed.
(** The same with lock 7 taken. *)
Definition demo_locked : kstate Z := Eval vm_compute in end_of demo_boot (with_mach (acquire 0 7) demo_running).
Lemma demo_locked_in_kernel : in_kernel 0 demo_lock demo_locked [7] true (Some 0%nat).
Proof.
  pose proof (acquire_spec 0 _ _ _ _ 7 (ik_cpu _ _ _ _ _ _ demo_in_kernel)) as Ha.
  rewrite decide_False in Ha by apply not_elem_of_nil. rewrite demo_lock_free in Ha. cbn [locked] in Ha.
  destruct Ha as (x & Hx & Hok & Hoth).
  assert (Ex : x = k_mach demo_locked) by (vm_compute in Hx; injection Hx as <-; reflexivity).
  subst x. split; [exact Hok|]. intros _. rewrite Hoth by done. by rewrite demo_lock_free.
Qed.

Definition demo_proc : proc := Eval vm_compute in
  nth 0 (ptable demo_running) (mkProc 0 0 0 UNUSED 0 None (mkTrapframe 0 0 0 0 0 0 0 0) (mkContext AtForkret false) NoChan 0 [] 0 "").
Definition demo_slot : proc := Eval vm_compute in nth 1 (ptable demo_running) demo_proc.

Lemma yield_resume_witness :
  ptable demo_running !! 0%nat = Some demo_proc /\
  exists s1, yield 0 demo_lock demo_running = Ret Switched s1 /\
    in_kernel 0 demo_lock s1 [demo_lock] true (Some 0%nat).
Proof.
  assert (Hp : ptable demo_running !! 0%nat = Some demo_proc) by reflexivity.
  destruct (yield_resume demo_lock 0 true 0 demo_proc demo_running demo_in_kernel Hp) as (s1 & H1 & H2 & _).
  split; [exact Hp|]. exists s1. split; [exact H1|exact H2].
Defined.

Lemma sleep_resume_witness :
  exists s1, sleep 0 demo_lock (AddrChan 40) 7 (AtSleep 7) demo_locked = Ret tt s1 /\
    in_kernel 0 demo_lock s1 [demo_lock] true (Some 0%nat).
Proof.
  assert (Hp : ptable demo_locked !! 0%nat = Some demo_proc) by reflexivity.
  assert (Hne : 7 <> demo_lock) by discriminate. assert (Hz : 7 <> 0) by discriminate.
  destruct (sleep_resume demo_lock 7 (AddrChan 40) 0 true 0 demo_proc demo_locked Hne Hz demo_locked_in_kernel Hp)
    as (s1 & H1 & H2 & _).
  exists s1. split; [exact H1|exact H2].
Defined.

Lemma fork_makes_child_witness :
  exists s', fork 0 demo_lock demo_running = Ret 2 s' /\ in_kernel 0 demo_lock s' [] true (Some 0%nat) /\
    state <$> ptable s' !! 1%nat = Some RUNNABLE.
Proof.
  assert (Hp : ptable demo_running !! 0%nat = Some demo_proc) by reflexivity.
  assert (Hq : ptable demo_running !! 1%nat = Some demo_slot) by reflexivity.
  assert (Ek : env_kalloc (k_env demo_running) = Ret 3 4) by reflexivity.
  destruct (fork_makes_child demo_lock 0 true 0 1 demo_proc demo_slot 3 4 4 4 5 demo_running
    ltac:(intros; eexists; reflexivity) ltac:(intros; eexists; reflexivity) ltac:(intros; eexists; reflexivity)
    demo_in_kernel Hp eq_refl eq_refl Hq eq_refl Ek ltac:(discriminate) eq_refl eq_refl ltac:(discriminate))
    as (s' & H1 & H2 & H3 & H4).
  exists s'. split; [exact H1|]. split; [exact H2|]. rewrite H4. reflexivity.
Defined.

Lemma wait_cases_witness :
  exists s', wait 0 demo_lock demo_running = Ret (Stay (-1)) s' /\
    in_kernel 0 demo_lock s' [] true (Some 0%nat) /\ ptable s' = ptable demo_running.
Proof.
  assert (Hp : ptable demo_running !! 0%nat = Some demo_proc) by reflexivity.
  exact (wait_cases demo_lock 0 true 0 demo_proc demo_running
    ltac:(intros; eexists; reflexivity) ltac:(intros; eexists; reflexivity) ltac:(discriminate)
    demo_in_kernel Hp).
Defined.

(** kill(0) while init runs: slot 1 has never been used. *)
Lemma kill_before_birth_witness :
  exists s1 s2 q, kill 0 demo_lock 0 demo_running = Ret 0 s1 /\
    allocproc 0 demo_lock s1 = Ret (Some 1%nat) s2 /\
    ptable s2 !! 1%nat = Some q /\ state q = EMBRYO /\ pid q = 2 /\ killed q = 1.
Proof.
  assert (Hq : ptable demo_running !! 1%nat = Some demo_slot) by reflexivity.
  assert (Ek : env_kalloc (k_env demo_running) = Ret 3 4) by reflexivity.
  exact (kill_before_birth demo_lock 0 true (Some 0%nat) 0 1 demo_slot 3 4 4 demo_running
    demo_in_kernel Hq eq_refl eq_refl Ek ltac:(discriminate) eq_refl).
Defined.
