(* ===== verification/Cache.v ===== *)
(** * Cache: what the buffer cache promises to the code above it

    The contents of a disk as the kernel sees them ([v_data]) and as they are on the medium
    ([v_disk]); the blocks pinned in memory because they are dirty; the blocks whose buffer the
    caller holds. [BlockCache] lists the operations bio.c offers with their laws; [Bio] proves
    them of its buffers, [Log] uses nothing else. *)

From S2P Require Import Prelude Memory.

Definition BSIZE : Z := 512.
Definition MAXOPBLOCKS : Z := 10.

(** A block is a memory of its own, at offsets 0 to BSIZE - 1. *)
Definition block : Type := memory.

Definition upd_block (d : Z -> block) (n : Z) (x : block) : Z -> block :=
  fun k => if k =? n then x else d k.

Lemma upd_block_eq d n x : upd_block d n x n = x.
Proof. unfold upd_block. by rewrite Z.eqb_refl. Qed.
Lemma upd_block_ne d n x k : k <> n -> upd_block d n x k = d k.
Proof. intros H. unfold upd_block. by rewrite (proj2 (Z.eqb_neq _ _) H). Qed.
Lemma upd_block_cases d n x k : upd_block d n x k = if decide (k = n) then x else d k.
Proof. destruct (decide (k = n)) as [->|H]; [apply upd_block_eq|by apply upd_block_ne]. Qed.

(** The disk after a sequence of writes, oldest first. *)
Definition apply_writes (ws : list (Z * block)) (d : Z -> block) : Z -> block :=
  fold_left (fun d w => upd_block d w.1 w.2) ws d.

Lemma apply_writes_app ws1 ws2 d : apply_writes (ws1 ++ ws2) d = apply_writes ws2 (apply_writes ws1 d).
Proof. apply fold_left_app. Qed.
Lemma apply_writes_out ws d n : n ∉ ws.*1 -> apply_writes ws d n = d n.
Proof.
  revert d. induction ws as [|[k x] ws IH]; intros d; [done|].
  rewrite fmap_cons, not_elem_of_cons. intros [Hk Hn]. simpl in *. rewrite IH by done. by apply upd_block_ne.
Qed.

Record cview : Type := mkView {
  v_data : Z -> block;
  v_disk : Z -> block;
  v_pinned : gset Z;
  v_held : gset Z;
  v_writes : list (Z * block)
}.

Definition v_hold (n : Z) (v : cview) : cview :=
  mkView (v_data v) (v_disk v) (v_pinned v) ({[n]} ∪ v_held v) (v_writes v).
Definition v_release (n : Z) (v : cview) : cview :=
  mkView (v_data v) (v_disk v) (v_pinned v) (v_held v ∖ {[n]}) (v_writes v).
Definition v_store (n : Z) (x : block) (v : cview) : cview :=
  mkView (upd_block (v_data v) n x) (v_disk v) (v_pinned v) (v_held v) (v_writes v).
Definition v_pin (n : Z) (v : cview) : cview :=
  mkView (v_data v) (v_disk v) ({[n]} ∪ v_pinned v) (v_held v) (v_writes v).
(** The block goes to the disk and need not stay in memory. *)
Definition v_write (n : Z) (v : cview) : cview :=
  mkView (v_data v) (upd_block (v_disk v) n (v_data v n)) (v_pinned v ∖ {[n]}) (v_held v)
    (v_writes v ++ [(n, v_data v n)]).

(** Views that agree on every block. *)
Record view_eq (v w : cview) : Prop := {
  ve_data : forall n, v_data v n = v_data w n;
  ve_disk : forall n, v_disk v n = v_disk w n;
  ve_pinned : v_pinned v = v_pinned w;
  ve_held : v_held v = v_held w;
  ve_writes : v_writes v = v_writes w
}.

Class BlockCache (S : Type) : Type := {
  cache_bread : Z -> M S nat;
  cache_data : nat -> M S block;
  cache_store : nat -> (block -> block) -> M S unit;
  cache_blockno : nat -> M S Z;
  cache_pin : nat -> M S unit;
  cache_bwrite : nat -> M S unit;
  cache_brelse : nat -> M S unit;

  (** the state shows this view; buffer [i] is held and caches block [n] *)
  cache_rep : S -> cview -> Prop;
  cache_buf : S -> nat -> Z -> Prop;
  cache_size : nat;
  cache_blocks : S -> Z;

  clean_law s v n : cache_rep s v -> n ∉ v_pinned v -> n ∉ v_held v -> v_data v n = v_disk v n;
  bread_law s v n :
    cache_rep s v -> n ∉ v_held v -> 0 <= n < cache_blocks s ->
    n ∈ v_pinned v \/ (size (v_pinned v ∪ v_held v) < cache_size)%nat ->
    exists i s', cache_bread n s = Ret i s' /\ cache_rep s' (v_hold n v) /\ cache_buf s' i n /\
      (forall j k, cache_buf s j k -> cache_buf s' j k) /\ cache_blocks s' = cache_blocks s;
  data_law s v i n :
    cache_rep s v -> cache_buf s i n -> cache_data i s = Ret (v_data v n) s;
  blockno_law s i n : cache_buf s i n -> cache_blockno i s = Ret n s;
  store_law s v i n f :
    cache_rep s v -> cache_buf s i n ->
    exists s', cache_store i f s = Ret tt s' /\ cache_rep s' (v_store n (f (v_data v n)) v) /\
      (forall j k, cache_buf s j k -> cache_buf s' j k) /\ cache_blocks s' = cache_blocks s;
  pin_law s v i n :
    cache_rep s v -> cache_buf s i n ->
    exists s', cache_pin i s = Ret tt s' /\ cache_rep s' (v_pin n v) /\
      (forall j k, cache_buf s j k -> cache_buf s' j k) /\ cache_blocks s' = cache_blocks s;
  bwrite_law s v i n :
    cache_rep s v -> cache_buf s i n ->
    exists s', cache_bwrite i s = Ret tt s' /\ cache_rep s' (v_write n v) /\
      (forall j k, cache_buf s j k -> cache_buf s' j k) /\ cache_blocks s' = cache_blocks s;
  brelse_law s v i n :
    cache_rep s v -> cache_buf s i n -> n ∈ v_pinned v \/ v_data v n = v_disk v n ->
    exists s', cache_brelse i s = Ret tt s' /\ cache_rep s' (v_release n v) /\
      (forall j k, k <> n -> cache_buf s j k -> cache_buf s' j k) /\ cache_blocks s' = cache_blocks s
}.
