(* ===== verification/Bio.v ===== *)
(** * Bio: the buffer cache and the disk under it (bio.c, sleeplock.c, memide.c, buf.h)

    Buffers are numbered; the doubly linked list of the cache is the list of their numbers,
    most recently used first. The flag bits B_VALID and B_DIRTY are two booleans. The disk is the memory disk of memide.c, with
    a record of the writes made to it, oldest first. One process executes at a time, so the
    spin locks around each operation are not modelled; a sleep lock that is taken makes its
    caller wait. Pids are not 0. *)

From S2P Require Import Prelude Memory Spinlock Cache.

Definition NBUF : Z := MAXOPBLOCKS * 3.

(** ** Sleep locks *)

Record sleeplock : Type := mkSleep { sl_locked : bool; sl_pid : Z }.
Definition initsleeplock : sleeplock := mkSleep false 0.

Record buf : Type := mkBuf {
  b_valid : bool;
  b_dirty : bool;
  b_dev : Z;
  b_blockno : Z;
  b_lock : sleeplock;
  b_refcnt : Z;
  b_data : block
}.
Definition set_valid (x : bool) (b : buf) : buf :=
  mkBuf x (b_dirty b) (b_dev b) (b_blockno b) (b_lock b) (b_refcnt b) (b_data b).
Definition set_dirty (x : bool) (b : buf) : buf :=
  mkBuf (b_valid b) x (b_dev b) (b_blockno b) (b_lock b) (b_refcnt b) (b_data b).
Definition set_block (d n : Z) (b : buf) : buf :=
  mkBuf (b_valid b) (b_dirty b) d n (b_lock b) (b_refcnt b) (b_data b).
Definition set_slock (x : sleeplock) (b : buf) : buf :=
  mkBuf (b_valid b) (b_dirty b) (b_dev b) (b_blockno b) x (b_refcnt b) (b_data b).
Definition set_refcnt (x : Z) (b : buf) : buf :=
  mkBuf (b_valid b) (b_dirty b) (b_dev b) (b_blockno b) (b_lock b) x (b_data b).
Definition set_data (x : block) (b : buf) : buf :=
  mkBuf (b_valid b) (b_dirty b) (b_dev b) (b_blockno b) (b_lock b) (b_refcnt b) x.

Record bstate : Type := mkB {
  bufs : list buf;
  mru : list nat;
  memdisk : Z -> block;
  disksize : Z;
  writes : list (Z * block);
  cur_pid : Z
}.

Abbreviation B := (M bstate).

Definition with_bufs (l : list buf) (s : bstate) : bstate :=
  mkB l (mru s) (memdisk s) (disksize s) (writes s) (cur_pid s).
Definition upd_buf (i : nat) (f : buf -> buf) : B unit := modify (fun s => with_bufs (alter f i (bufs s)) s).
Definition the_buf (i : nat) : B buf := fun s =>
  match bufs s !! i with Some b => Ret b s | None => Fault OutOfRange end.

Definition acquiresleep (i : nat) : B unit :=
  b ← the_buf i;
  if sl_locked (b_lock b) then spin
  else
    p ← gets cur_pid;
    upd_buf i (set_slock (mkSleep true p)).
Definition releasesleep (i : nat) : B unit := upd_buf i (set_slock (mkSleep false 0)).
Definition holdingsleep (i : nat) : B bool :=
  b ← the_buf i;
  p ← gets cur_pid;
  ret (sl_locked (b_lock b) && (sl_pid (b_lock b) =? p)).

(** ** The memory disk *)

Definition iderw (i : nat) : B unit :=
  h ← holdingsleep i;
  panic_if (negb h) "iderw: buf not locked";;
  b ← the_buf i;
  panic_if (b_valid b && negb (b_dirty b)) "iderw: nothing to do";;
  panic_if (negb (b_dev b =? 1)) "iderw: request not for disk 1";;
  n ← gets disksize;
  panic_if (n <=? b_blockno b) "iderw: block out of range";;
  if b_dirty b then
    upd_buf i (set_dirty false);;
    modify (fun s => mkB (bufs s) (mru s) (upd_block (memdisk s) (b_blockno b) (b_data b)) (disksize s)
                       (writes s ++ [(b_blockno b, b_data b)]) (cur_pid s));;
    upd_buf i (set_valid true)
  else
    d ← gets memdisk;
    upd_buf i (set_data (d (b_blockno b)));;
    upd_buf i (set_valid true).

(** ** The cache *)

(** binit links the buffers in front of one another, the last one first. *)
Definition binit_order (n : nat) : list nat := rev (seq 0 n).
Definition zero_buf : buf := mkBuf false false 0 0 initsleeplock 0 (fun _ => 0).
Definition binit (n : nat) (disk : Z -> block) (size pid : Z) : bstate :=
  mkB (replicate n zero_buf) (binit_order n) disk size [] pid.

(** The first buffer in a list of numbers that passes a test. *)
Fixpoint find_buf (f : buf -> bool) (order : list nat) (l : list buf) : option nat :=
  match order with
  | [] => None
  | i :: order =>
      match l !! i with
      | Some b => if f b then Some i else find_buf f order l
      | None => None
      end
  end.

Definition bget (dev blockno : Z) : B nat :=
  s ← get;
  match find_buf (fun b => (b_dev b =? dev) && (b_blockno b =? blockno)) (mru s) (bufs s) with
  | Some i =>
      upd_buf i (fun b => set_refcnt (b_refcnt b + 1) b);;
      acquiresleep i;;
      ret i
  | None =>
      match find_buf (fun b => (b_refcnt b =? 0) && negb (b_dirty b)) (rev (mru s)) (bufs s) with
      | Some i =>
          upd_buf i (fun b => set_refcnt 1 (set_valid false (set_dirty false (set_block dev blockno b))));;
          acquiresleep i;;
          ret i
      | None => panic "bget: no buffers"
      end
  end.

Definition bread (dev blockno : Z) : B nat :=
  i ← bget dev blockno;
  b ← the_buf i;
  when (negb (b_valid b)) (iderw i);;
  ret i.

Definition bwrite (i : nat) : B unit :=
  h ← holdingsleep i;
  panic_if (negb h) "bwrite";;
  upd_buf i (set_dirty true);;
  iderw i.

Definition brelse (i : nat) : B unit :=
  h ← holdingsleep i;
  panic_if (negb h) "brelse";;
  releasesleep i;;
  upd_buf i (fun b => set_refcnt (b_refcnt b - 1) b);;
  b ← the_buf i;
  when (b_refcnt b =? 0)
    (modify (fun s => mkB (bufs s) (i :: filter (fun j => j <> i) (mru s)) (memdisk s) (disksize s) (writes s) (cur_pid s))).

(** The client's own store into a buffer it holds. *)
Definition set_bytes (i : nat) (f : block -> block) : B unit := upd_buf i (fun b => set_data (f (b_data b)) b).

(** ** The cache keeps its promise *)

Section Rep.
(** The device the file system is on. *)
Abbreviation dev := 1.

(** What holds of every buffer: it is either held by the running process, or not in use. *)
Record buf_ok (s : bstate) (b : buf) : Prop := {
  bo_lock : (sl_locked (b_lock b) = true /\ sl_pid (b_lock b) = cur_pid s /\ b_refcnt b = 1 /\ b_valid b = true /\ b_dev b = dev)
            \/ (sl_locked (b_lock b) = false /\ b_refcnt b = 0);
  bo_dirty : b_dirty b = true -> b_valid b = true /\ b_dev b = dev;
  bo_range : b_dev b = dev -> 0 <= b_blockno b < disksize s
}.

Definition caches (s : bstate) (i : nat) (n : Z) (b : buf) : Prop :=
  bufs s !! i = Some b /\ b_dev b = dev /\ b_blockno b = n.

Record rep (s : bstate) (v : cview) : Prop := {
  rep_order : mru s ≡ₚ seq 0 (length (bufs s));
  rep_size : length (bufs s) = Z.to_nat NBUF;
  rep_ok : forall i b, bufs s !! i = Some b -> buf_ok s b;
  rep_unique : forall i j n b b', caches s i n b -> caches s j n b' -> i = j;
  rep_data : forall i n b, caches s i n b -> b_valid b = true -> v_data v n = b_data b;
  rep_clean : forall n, n ∉ v_pinned v -> n ∉ v_held v -> v_data v n = v_disk v n;
  rep_disk : forall n, v_disk v n = memdisk s n;
  rep_pinned : forall n, n ∈ v_pinned v <-> exists i b, caches s i n b /\ b_dirty b = true;
  rep_held : forall n, n ∈ v_held v <-> exists i b, caches s i n b /\ sl_locked (b_lock b) = true;
  rep_writes : v_writes v = writes s
}.

Definition is_buf (s : bstate) (i : nat) (n : Z) : Prop :=
  exists b, caches s i n b /\ sl_locked (b_lock b) = true.

Lemma find_buf_Some f order l i :
  find_buf f order l = Some i -> i ∈ order /\ exists b, l !! i = Some b /\ f b = true.
Proof.
  induction order as [|k order IH]; [done|]. simpl. destruct (l !! k) as [b|] eqn:Ek; [|done].
  destruct (f b) eqn:Ef; [intros [= <-]; split; [by left|eauto]|].
  intros [H1 H2]%IH. split; [by right|done].
Qed.
Lemma find_buf_None f order l :
  (forall i, i ∈ order -> is_Some (l !! i)) ->
  find_buf f order l = None -> forall i b, i ∈ order -> l !! i = Some b -> f b = false.
Proof.
  induction order as [|k order IH]; intros Hall Hf i b Hi Hb; [by apply elem_of_nil in Hi|].
  simpl in Hf. destruct (Hall k ltac:(by left)) as [b' Hb']. rewrite Hb' in Hf.
  destruct (f b') eqn:Ef; [done|]. apply elem_of_cons in Hi as [->|Hi]; [congruence|].
  eapply IH; eauto. intros j Hj. apply Hall. by right.
Qed.

Lemma mru_lookup s v i : rep s v -> i ∈ mru s <-> is_Some (bufs s !! i).
Proof.
  intros Hr. rewrite (rep_order _ _ Hr), elem_of_seq, lookup_lt_is_Some. lia.
Qed.

(** There is a free buffer as long as fewer blocks are pinned or held than there are buffers. *)
Lemma free_buffer s v :
  rep s v -> (size (v_pinned v ∪ v_held v) < length (bufs s))%nat ->
  exists i b, bufs s !! i = Some b /\ b_refcnt b = 0 /\ b_dirty b = false.
Proof.
  intros Hr Hsz.
  destruct (decide (Exists (fun b => b_refcnt b = 0 /\ b_dirty b = false) (bufs s))) as [He|He].
  - apply Exists_exists in He as (b & Hb & H1). apply list_elem_of_lookup in Hb as (i & Hi). eauto.
  - exfalso. apply not_Exists_Forall in He; [|intros ?; apply _].
    assert (Hbusy : forall i b, bufs s !! i = Some b -> b_dev b = dev /\ b_blockno b ∈ v_pinned v ∪ v_held v).
    { intros i b Hb. pose proof (Forall_lookup_1 _ _ _ _ He Hb) as Hn. simpl in Hn.
      destruct (rep_ok _ _ Hr _ _ Hb) as [[(L1 & _ & _ & _ & L5)|[_ L2]] Hd _].
      - split; [done|]. apply elem_of_union_r, (rep_held _ _ Hr). by exists i, b.
      - destruct (b_dirty b) eqn:Ed; [|tauto]. destruct (Hd eq_refl) as [_ Hdv]. split; [done|].
        apply elem_of_union_l, (rep_pinned _ _ Hr). by exists i, b. }
    assert (Hnd : NoDup (b_blockno <$> bufs s)).
    { apply NoDup_alt. intros i j n (b & -> & Hb)%list_lookup_fmap_Some_1 (b' & Hn & Hb')%list_lookup_fmap_Some_1.
      apply (rep_unique _ _ Hr i j (b_blockno b) b b'); split_and!; auto; by eapply Hbusy. }
    assert (Hsub : list_to_set (b_blockno <$> bufs s) ⊆ v_pinned v ∪ v_held v).
    { intros n. rewrite elem_of_list_to_set, list_elem_of_fmap. intros (b & -> & Hb).
      apply list_elem_of_lookup in Hb as (i & Hi). by eapply Hbusy. }
    apply subseteq_size in Hsub. rewrite size_list_to_set, length_fmap in Hsub by done. lia.
Qed.

(** Replacing a buffer. *)
Definition put (i : nat) (b : buf) (s : bstate) : bstate := with_bufs (<[i := b]> (bufs s)) s.

Lemma caches_put s i b b' j m x :
  bufs s !! i = Some b ->
  caches (put i b' s) j m x <->
  (j = i /\ x = b' /\ b_dev b' = dev /\ b_blockno b' = m) \/ (j <> i /\ caches s j m x).
Proof.
  intros Hb. unfold caches, put. simpl. pose proof (lookup_lt_Some _ _ _ Hb).
  destruct (decide (j = i)) as [->|Hne].
  - rewrite list_lookup_insert_eq by done. naive_solver.
  - rewrite list_lookup_insert_ne by done. naive_solver.
Qed.

Lemma put_lookup s i b b' j x :
  bufs s !! i = Some b -> bufs (put i b' s) !! j = Some x -> (j = i /\ x = b') \/ (j <> i /\ bufs s !! j = Some x).
Proof.
  intros Hb. unfold put. simpl. pose proof (lookup_lt_Some _ _ _ Hb).
  destruct (decide (j = i)) as [->|Hne].
  - rewrite list_lookup_insert_eq by done. naive_solver.
  - rewrite list_lookup_insert_ne by done. naive_solver.
Qed.

(** The running process takes the buffer [i], free until now, for block [n]. *)
Lemma rep_hold s v i b b' n :
  rep s v -> bufs s !! i = Some b -> n ∉ v_held v -> sl_locked (b_lock b) = false ->
  0 <= n < disksize s ->
  (b_dev b = dev /\ b_blockno b = n /\ b_dirty b' = b_dirty b) \/
  (b_dirty b = false /\ b_dirty b' = false /\ forall j x, ~ caches s j n x) ->
  b_valid b' = true -> b_dev b' = dev -> b_blockno b' = n -> b_refcnt b' = 1 ->
  b_lock b' = mkSleep true (cur_pid s) -> b_data b' = v_data v n ->
  rep (put i b' s) (v_hold n v).
Proof.
  intros Hr Hb Hn Hul Hrange Hcase Hv' Hd' Hn' Hr' Hl' Hdata.
  pose proof (fun j m x => caches_put s i b b' j m x Hb) as Hc.
  assert (Hother : forall j x, caches s j n x -> j = i).
  { intros j x Hx. destruct Hcase as [(D1 & D2 & _)|(_ & _ & Hno)]; [|by destruct (Hno j x)].
    by apply (rep_unique _ _ Hr j i n x b). }
  split; simpl.
  - by rewrite length_insert, (rep_order _ _ Hr).
  - by rewrite length_insert, (rep_size _ _ Hr).
  - intros j x [[-> ->]|[Hj Hx]]%(put_lookup s i b); [|destruct (rep_ok _ _ Hr _ _ Hx); by split|done].
    split; simpl; [left; by rewrite Hl'|done|lia].
  - intros j k m x x' [(-> & -> & _ & E)|[Hj Hx]]%Hc [(-> & -> & _ & E')|[Hk Hx']]%Hc; [done|..].
    + rewrite Hn' in E. subst m. by apply Hother in Hx'.
    + rewrite Hn' in E'. subst m. by apply Hother in Hx.
    + by eapply (rep_unique _ _ Hr).
  - intros j m x [(-> & -> & _ & E)|[Hj Hx]]%Hc Hv; [|by eapply rep_data]. congruence.
  - intros m Hm [_ Hmh]%not_elem_of_union. by apply (rep_clean _ _ Hr).
  - apply (rep_disk _ _ Hr).
  - intros m. rewrite (rep_pinned _ _ Hr). split; intros (j & x & Hx & Hdx).
    + destruct (decide (j = i)) as [->|Hj]; [|exists j, x; split; [by apply Hc; right|done]].
      destruct Hx as (Hx & D & E). rewrite Hb in Hx. injection Hx as <-.
      destruct Hcase as [(_ & D2 & D3)|(D1 & _)]; [|congruence].
      exists i, b'. split; [apply Hc; left; repeat split; congruence|congruence].
    + apply Hc in Hx as [(-> & -> & _ & E)|[Hj Hx]]; [|by exists j, x].
      destruct Hcase as [(D1 & D2 & D3)|(_ & D2 & _)]; [|congruence].
      exists i, b. split; [repeat split; congruence|congruence].
  - intros m. rewrite elem_of_union, elem_of_singleton, (rep_held _ _ Hr). split.
    + intros [->|(j & x & Hx & Hlx)].
      * exists i, b'. split; [apply Hc; left; repeat split; congruence|by rewrite Hl'].
      * exists j, x. split; [|done]. apply Hc. right. split; [|done]. intros ->.
        destruct Hx as (Hx & _). rewrite Hb in Hx. congruence.
    + intros (j & x & [(-> & -> & _ & E)|[Hj Hx]]%Hc & Hlx); [left; congruence|right; by exists j, x].
  - apply (rep_writes _ _ Hr).
Qed.

(** ** Running the operations *)

Lemma the_buf_run s i b : bufs s !! i = Some b -> the_buf i s = Ret b s.
Proof. intros E. unfold the_buf. by rewrite E. Qed.
Lemma upd_buf_run f s i b : bufs s !! i = Some b -> upd_buf i f s = Ret tt (put i (f b) s).
Proof. intros E. unfold upd_buf, modify, put. by rewrite (list_alter_insert _ _ _ _ E). Qed.
Lemma put_eq s i b b' : bufs s !! i = Some b -> bufs (put i b' s) !! i = Some b'.
Proof. intros E. apply list_lookup_insert_eq. by eapply lookup_lt_Some. Qed.
Lemma put_put s i b b' : put i b' (put i b s) = put i b' s.
Proof. unfold put, with_bufs. simpl. by rewrite list_insert_insert_eq. Qed.
Lemma put_same s i b : bufs s !! i = Some b -> put i b s = s.
Proof. intros E. unfold put, with_bufs. rewrite list_insert_id by done. by destruct s. Qed.

Lemma holdingsleep_run s i b :
  bufs s !! i = Some b -> b_lock b = mkSleep true (cur_pid s) -> holdingsleep i s = Ret true s.
Proof.
  intros E El. unfold holdingsleep. rewrite (bind_ret _ _ _ _ _ (the_buf_run _ _ _ E)), El.
  erewrite bind_ret by reflexivity. by rewrite Z.eqb_refl.
Qed.

Lemma iderw_read s i b :
  bufs s !! i = Some b -> b_lock b = mkSleep true (cur_pid s) -> b_valid b = false -> b_dirty b = false ->
  b_dev b = dev -> b_blockno b < disksize s ->
  iderw i s = Ret tt (put i (set_valid true (set_data (memdisk s (b_blockno b)) b)) s).
Proof.
  intros E El Hv Hd Hdev Hlt. unfold iderw.
  rewrite (bind_ret _ _ _ _ _ (holdingsleep_run _ _ _ E El)), (bind_ret _ _ _ tt s) by done.
  rewrite (bind_ret _ _ _ _ _ (the_buf_run _ _ _ E)), Hv, Hdev, Hd, (bind_ret _ _ _ tt s) by done.
  rewrite (bind_ret _ _ _ tt s) by done. erewrite bind_ret by reflexivity.
  rewrite (proj2 (Z.leb_gt _ _)) by done. rewrite (bind_ret _ _ _ tt s) by done.
  erewrite bind_ret by reflexivity. rewrite (bind_ret _ _ _ _ _ (upd_buf_run _ _ _ _ E)).
  by rewrite (upd_buf_run _ _ _ _ (put_eq _ _ _ _ E)), put_put.
Qed.

(** The state after a write of buffer [i] to the disk. *)
Definition flushed (i : nat) (b : buf) (s : bstate) : bstate :=
  mkB (<[i := set_valid true (set_dirty false b)]> (bufs s)) (mru s) (upd_block (memdisk s) (b_blockno b) (b_data b))
    (disksize s) (writes s ++ [(b_blockno b, b_data b)]) (cur_pid s).

Lemma iderw_write s i b :
  bufs s !! i = Some b -> b_lock b = mkSleep true (cur_pid s) -> b_dirty b = true ->
  b_dev b = dev -> b_blockno b < disksize s ->
  iderw i s = Ret tt (flushed i b s).
Proof.
  intros E El Hd Hdev Hlt. unfold iderw.
  rewrite (bind_ret _ _ _ _ _ (holdingsleep_run _ _ _ E El)), (bind_ret _ _ _ tt s) by done.
  rewrite (bind_ret _ _ _ _ _ (the_buf_run _ _ _ E)), Hdev, Hd, andb_false_r, (bind_ret _ _ _ tt s) by done.
  rewrite (bind_ret _ _ _ tt s) by done. erewrite bind_ret by reflexivity.
  rewrite (proj2 (Z.leb_gt _ _)) by done. rewrite (bind_ret _ _ _ tt s) by done.
  rewrite (bind_ret _ _ _ _ _ (upd_buf_run _ _ _ _ E)). erewrite bind_ret by reflexivity.
  set (s1 := mkB _ _ _ _ _ _).
  assert (E1 : bufs s1 !! i = Some (set_dirty false b)) by exact (put_eq _ _ _ _ E).
  rewrite (upd_buf_run _ _ _ _ E1). unfold flushed, put, with_bufs, s1. simpl. by rewrite list_insert_insert_eq.
Qed.

(** bget has given the running process buffer [i], whose contents may have to be read. *)
Lemma bread_finish s i b n :
  bufs s !! i = Some b -> sl_locked (b_lock b) = false -> b_dev b = dev -> b_blockno b = n -> n < disksize s ->
  (b_valid b = false -> b_dirty b = false) ->
  exists b', (acquiresleep i;; ret i) s = Ret i (put i (set_slock (mkSleep true (cur_pid s)) b) s) /\
    (x ← the_buf i; when (negb (b_valid x)) (iderw i);; ret i) (put i (set_slock (mkSleep true (cur_pid s)) b) s) =
      Ret i (put i b' s) /\
    b' = mkBuf true (b_dirty b) dev n (mkSleep true (cur_pid s)) (b_refcnt b)
           (if b_valid b then b_data b else memdisk s n).
Proof.
  intros E Hul Hdev Hn Hlt Hvd. eexists. split; [|split; [|reflexivity]].
  - unfold acquiresleep. rewrite bind_assoc, (bind_ret _ _ _ _ _ (the_buf_run _ _ _ E)), Hul.
    rewrite bind_assoc. erewrite bind_ret by reflexivity. by rewrite (bind_ret _ _ _ _ _ (upd_buf_run _ _ _ _ E)).
  - set (b1 := set_slock _ b). assert (E1 : bufs (put i b1 s) !! i = Some b1) by (by eapply put_eq).
    rewrite (bind_ret _ _ _ _ _ (the_buf_run _ _ _ E1)). change (b_valid b1) with (b_valid b).
    destruct (b_valid b) eqn:Ev; cbn [negb when].
    + rewrite (bind_ret _ _ _ tt (put i b1 s)) by done. unfold ret, b1, set_slock. rewrite Ev, Hdev, Hn. done.
    + rewrite (bind_ret _ _ _ _ _ (iderw_read _ _ _ E1 eq_refl Ev (Hvd eq_refl) Hdev ltac:(subst; simpl; lia))).
      rewrite put_put. unfold ret, b1, set_slock, set_valid, set_data. simpl. by rewrite Hdev, Hn.
Qed.

Lemma bread_split dev' n :
  bread dev' n = (i ← bget dev' n; x ← the_buf i; when (negb (b_valid x)) (iderw i);; ret i).
Proof. done. Qed.

Lemma bread_spec s v n :
  rep s v -> n ∉ v_held v -> 0 <= n < disksize s ->
  n ∈ v_pinned v \/ (size (v_pinned v ∪ v_held v) < Z.to_nat NBUF)%nat ->
  exists i b b', bread dev n s = Ret i (put i b' s) /\ rep (put i b' s) (v_hold n v) /\
    bufs s !! i = Some b /\ sl_locked (b_lock b) = false /\ caches (put i b' s) i n b' /\ sl_locked (b_lock b') = true.
Proof.
  intros Hr Hn Hrange Hroom. rewrite bread_split. unfold bget. rewrite bind_assoc. erewrite bind_ret by reflexivity.
  destruct (find_buf _ (mru s) (bufs s)) as [i|] eqn:Ef.
  - apply find_buf_Some in Ef as (_ & b & Hb & Ht). to_prop. exists i, b.
    pose proof (rep_ok _ _ Hr _ _ Hb) as [Hl Hdv Hrg].
    assert (Hcb : caches s i n b) by done.
    destruct Hl as [(L1 & _)|[Hul Href]].
    { exfalso. apply Hn, (rep_held _ _ Hr). by exists i, b. }
    rewrite bind_assoc, (bind_ret _ _ _ _ _ (upd_buf_run _ _ _ _ Hb)).
    set (b1 := set_refcnt _ b). pose proof (put_eq s i b b1 Hb) as Hb1.
    destruct (bread_finish (put i b1 s) i b1 n Hb1 Hul ltac:(done) ltac:(done) ltac:(simpl; lia)) as (b' & R1 & R2 & Eb').
    { intros Hv. change (b_valid b1) with (b_valid b) in Hv. destruct (b_dirty b1) eqn:Ed; [|done].
      destruct (Hdv Ed). congruence. }
    rewrite (bind_ret _ _ _ _ _ R1), R2, put_put. exists b'. split; [done|]. clear R1 R2.
    assert (Hrep : rep (put i b' s) (v_hold n v)).
    { apply (rep_hold s v i b b' n); try done; rewrite Eb'; simpl; try done.
      - left. done.
      - unfold b1; simpl; by rewrite Href.
      - change (b_valid b1) with (b_valid b). change (b_data b1) with (b_data b). destruct (b_valid b) eqn:Ev.
        + symmetry. by apply (rep_data _ _ Hr i).
        + rewrite (rep_clean _ _ Hr), (rep_disk _ _ Hr); [done| |done].
          intros Hp. apply (rep_pinned _ _ Hr) in Hp as (j & x & Hx & Hd).
          assert (j = i) as -> by (by eapply (rep_unique _ _ Hr)). destruct Hx as (Hx & _).
          rewrite Hb in Hx. injection Hx as <-. destruct (Hdv Hd). congruence. }
    split_and!; try done; [|by rewrite Eb'].
    apply (caches_put s i b b' i n b' Hb). left. by rewrite Eb'.
  - assert (Hall : forall i, i ∈ mru s -> is_Some (bufs s !! i)) by (intros; by eapply mru_lookup).
    assert (Hno : forall j x, ~ caches s j n x).
    { intros j x (Hj & D & E). pose proof (find_buf_None _ _ _ Hall Ef j x) as Hf.
      rewrite (mru_lookup _ _ _ Hr) in Hf. specialize (Hf ltac:(eauto) Hj). simpl in Hf.
      by rewrite D, E, !Z.eqb_refl in Hf. }
    destruct Hroom as [Hp|Hroom].
    { apply (rep_pinned _ _ Hr) in Hp as (j & x & Hx & _). by destruct (Hno j x). }
    rewrite <- (rep_size _ _ Hr) in Hroom.
    destruct (free_buffer s v Hr Hroom) as (k & bk & Hk & Hrk & Hdk).
    destruct (find_buf _ (rev (mru s)) (bufs s)) as [i|] eqn:Ef2.
    2: { exfalso. apply (find_buf_None _ _ _) with (i := k) (b := bk) in Ef2; [|..|done].
         - by rewrite Hrk, Hdk in Ef2.
         - intros j Hj. by apply Hall, list_elem_of_In, in_rev, list_elem_of_In.
         - apply list_elem_of_In, (proj1 (in_rev _ _)), list_elem_of_In, (mru_lookup _ _ _ Hr). eauto. }
    apply find_buf_Some in Ef2 as (_ & b & Hb & Ht). to_prop. exists i, b.
    pose proof (rep_ok _ _ Hr _ _ Hb) as [Hl _ _].
    destruct Hl as [(_ & _ & L3 & _)|[Hul _]]; [congruence|].
    rewrite bind_assoc, (bind_ret _ _ _ _ _ (upd_buf_run _ _ _ _ Hb)).
    set (b1 := set_refcnt _ _). pose proof (put_eq s i b b1 Hb) as Hb1.
    destruct (bread_finish (put i b1 s) i b1 n Hb1 Hul ltac:(done) ltac:(done) ltac:(simpl; lia)) as (b' & R1 & R2 & Eb'); [done|].
    rewrite (bind_ret _ _ _ _ _ R1), R2, put_put. exists b'. split; [done|]. clear R1 R2.
    assert (Hrep : rep (put i b' s) (v_hold n v)).
    { apply (rep_hold s v i b b' n); try done; rewrite Eb'; simpl; try done.
      - right. done.
      - rewrite (rep_clean _ _ Hr), (rep_disk _ _ Hr); [done| |done].
        intros Hp. apply (rep_pinned _ _ Hr) in Hp as (j & x & Hx & _). by destruct (Hno j x). }
    split_and!; try done; [|by rewrite Eb'].
    apply (caches_put s i b b' i n b' Hb). left. by rewrite Eb'.
Qed.

(** A change of the contents, the dirty bit or the disk copy of the block in a held buffer. *)
Lemma rep_update s v i n b b' dk w v' :
  rep s v -> caches s i n b -> sl_locked (b_lock b) = true ->
  b_valid b' = true -> b_dev b' = dev -> b_blockno b' = n -> b_lock b' = b_lock b -> b_refcnt b' = b_refcnt b ->
  v_held v' = v_held v -> v_writes v' = w ->
  (forall m, v_data v' m = if decide (m = n) then b_data b' else v_data v m) ->
  (forall m, v_disk v' m = dk m) -> (forall m, m <> n -> dk m = memdisk s m) ->
  (forall m, m ∈ v_pinned v' <-> if decide (m = n) then b_dirty b' = true else m ∈ v_pinned v) ->
  rep (mkB (<[i := b']> (bufs s)) (mru s) dk (disksize s) w (cur_pid s)) v'.
Proof.
  intros Hr Hcb Hlk Hv' Hdev Hn Hl Hrc Hheld Hw Hdata Hdisk Hdk Hpin. pose proof Hcb as (Hb & Hd & Hbn).
  pose proof (fun j m x => caches_put s i b b' j m x Hb) as Hc.
  assert (Hcp : forall j m x, caches (mkB (<[i := b']> (bufs s)) (mru s) dk (disksize s) w (cur_pid s)) j m x <->
                  caches (put i b' s) j m x) by done.
  assert (Hother : forall j x m, j <> i -> caches s j m x -> m <> n).
  { intros j x m Hj Hx ->. by apply Hj, (rep_unique _ _ Hr j i n x b). }
  pose proof (rep_ok _ _ Hr _ _ Hb) as [Hok _ Hrg].
  destruct Hok as [(L1 & L2 & L3 & L4 & L5)|[L1 _]]; [|congruence].
  split; simpl.
  - by rewrite length_insert, (rep_order _ _ Hr).
  - by rewrite length_insert, (rep_size _ _ Hr).
  - intros j x Hx. apply (put_lookup s i b b' j x Hb) in Hx as [[-> ->]|[Hj Hx]].
    + split; [left|done|]; simpl; [by rewrite Hl, Hrc|]. intros _. rewrite Hn, <- Hbn. by apply Hrg.
    + destruct (rep_ok _ _ Hr _ _ Hx). by split.
  - intros j k m x x' [(-> & -> & _ & E)|[Hj Hx]]%Hcp%Hc [(-> & -> & _ & E')|[Hk Hx']]%Hcp%Hc; [done|..].
    + exfalso. by eapply Hother; [exact Hk|exact Hx'|congruence].
    + exfalso. by eapply Hother; [exact Hj|exact Hx|congruence].
    + by eapply (rep_unique _ _ Hr).
  - intros j m x [(-> & -> & _ & E)|[Hj Hx]]%Hcp%Hc Hv; rewrite Hdata.
    + by rewrite decide_True by congruence.
    + rewrite decide_False by by eapply Hother. by eapply rep_data.
  - intros m Hm Hmh. rewrite Hheld in Hmh.
    assert (Hmn : m <> n) by (intros ->; apply Hmh, (rep_held _ _ Hr); by exists i, b).
    rewrite Hdata, Hdisk, decide_False, Hdk by done. rewrite Hpin, decide_False in Hm by done.
    rewrite <- (rep_disk _ _ Hr). by apply (rep_clean _ _ Hr).
  - done.
  - intros m. rewrite Hpin. destruct (decide (m = n)) as [->|Hmn].
    + split.
      * intros Hdt. exists i, b'. split; [|done]. apply Hcp, Hc. left. done.
      * intros (j & x & [(-> & -> & _ & E)|[Hj Hx]]%Hcp%Hc & Hdx); [done|]. exfalso. by eapply Hother.
    + rewrite (rep_pinned _ _ Hr). split; intros (j & x & Hx & Hdx).
      * exists j, x. split; [|done]. apply Hcp, Hc. right. split; [|done]. intros ->.
        destruct Hx as (Hx & _ & Hxm). rewrite Hb in Hx. congruence.
      * apply Hcp, Hc in Hx as [(-> & -> & _ & E)|[Hj Hx]]; [congruence|]. by exists j, x.
  - intros m. rewrite Hheld, (rep_held _ _ Hr). split; intros (j & x & Hx & Hlx).
    + destruct (decide (j = i)) as [->|Hj].
      * destruct Hx as (Hx & Hxd & Hxm). rewrite Hb in Hx. injection Hx as <-.
        exists i, b'. split; [|congruence]. apply Hcp, Hc. left. repeat split; congruence.
      * exists j, x. split; [|done]. apply Hcp, Hc. by right.
    + apply Hcp, Hc in Hx as [(-> & -> & _ & E)|[Hj Hx]]; [|by exists j, x].
      exists i, b. split; [|congruence]. repeat split; congruence.
  - done.
Qed.

(** A held buffer stays held by a change that keeps its block and its lock. *)
Lemma is_buf_put s i b b' j m dk w :
  bufs s !! i = Some b -> b_dev b' = b_dev b -> b_blockno b' = b_blockno b -> b_lock b' = b_lock b ->
  is_buf s j m -> is_buf (mkB (<[i := b']> (bufs s)) (mru s) dk (disksize s) w (cur_pid s)) j m.
Proof.
  intros Hb E1 E2 E3 (x & Hx & Hlx). destruct (decide (j = i)) as [->|Hj].
  - destruct Hx as (Hx & Hd & Hm). rewrite Hb in Hx. injection Hx as <-. exists b'. split; [|congruence].
    apply (caches_put s i b b' i m b' Hb). left. repeat split; congruence.
  - exists x. split; [|done]. apply (caches_put s i b b' j m x Hb). by right.
Qed.

Lemma held_buf s v i n b :
  rep s v -> caches s i n b -> sl_locked (b_lock b) = true ->
  b_lock b = mkSleep true (cur_pid s) /\ b_refcnt b = 1 /\ b_valid b = true /\ 0 <= n < disksize s /\ b_data b = v_data v n.
Proof.
  intros Hr Hc Hl. pose proof Hc as (Hb & Hd & Hn). destruct (rep_ok _ _ Hr _ _ Hb) as [Hok _ Hrg].
  destruct Hok as [(L1 & L2 & L3 & L4 & L5)|[L1 _]]; [|congruence].
  split_and!; try done.
  - destruct (b_lock b) as [lk p]. simpl in *. congruence.
  - destruct (Hrg Hd). lia.
  - destruct (Hrg Hd). lia.
  - symmetry. by apply (rep_data _ _ Hr i).
Qed.

Lemma set_bytes_spec s v i n f :
  rep s v -> is_buf s i n ->
  exists s', set_bytes i f s = Ret tt s' /\ rep s' (v_store n (f (v_data v n)) v) /\
    (forall j k, is_buf s j k -> is_buf s' j k) /\ disksize s' = disksize s.
Proof.
  intros Hr (b & Hc & Hl). pose proof Hc as (Hb & Hd & Hn).
  destruct (held_buf _ _ _ _ _ Hr Hc Hl) as (El & Erc & Ev & Hrg & Ed).
  unfold set_bytes. rewrite (upd_buf_run _ _ _ _ Hb). eexists. split; [done|]. split; [|split; [|done]].
  - apply (rep_update s v i n b _ (memdisk s) (writes s)); try done; simpl.
    + apply (rep_writes _ _ Hr).
    + intros m. rewrite upd_block_cases. by rewrite Ed.
    + apply (rep_disk _ _ Hr).
    + intros m. destruct (decide (m = n)) as [->|]; [|done]. rewrite (rep_pinned _ _ Hr). split.
      * intros (j & x & Hx & Hdx). assert (j = i) as -> by (by eapply (rep_unique _ _ Hr)).
        destruct Hx as (Hx & _). congruence.
      * intros Hdx. by exists i, b.
  - intros j k. by apply (is_buf_put s i b).
Qed.

Lemma pin_spec s v i n :
  rep s v -> is_buf s i n ->
  exists s', upd_buf i (set_dirty true) s = Ret tt s' /\ rep s' (v_pin n v) /\
    (forall j k, is_buf s j k -> is_buf s' j k) /\ disksize s' = disksize s.
Proof.
  intros Hr (b & Hc & Hl). pose proof Hc as (Hb & Hd & Hn).
  destruct (held_buf _ _ _ _ _ Hr Hc Hl) as (El & Erc & Ev & Hrg & Ed).
  rewrite (upd_buf_run _ _ _ _ Hb). eexists. split; [done|]. split; [|split; [|done]].
  - apply (rep_update s v i n b _ (memdisk s) (writes s)); try done; simpl.
    + apply (rep_writes _ _ Hr).
    + intros m. destruct (decide (m = n)) as [->|]; [by rewrite Ed|done].
    + apply (rep_disk _ _ Hr).
    + intros m. rewrite elem_of_union, elem_of_singleton. destruct (decide (m = n)) as [->|]; naive_solver.
  - intros j k. by apply (is_buf_put s i b).
Qed.

Lemma bwrite_spec s v i n :
  rep s v -> is_buf s i n ->
  exists s', bwrite i s = Ret tt s' /\ rep s' (v_write n v) /\
    (forall j k, is_buf s j k -> is_buf s' j k) /\ disksize s' = disksize s.
Proof.
  intros Hr (b & Hc & Hl). pose proof Hc as (Hb & Hd & Hn).
  destruct (held_buf _ _ _ _ _ Hr Hc Hl) as (El & Erc & Ev & Hrg & Ed).
  unfold bwrite. rewrite (bind_ret _ _ _ _ _ (holdingsleep_run _ _ _ Hb El)), (bind_ret _ _ _ tt s) by done.
  rewrite (bind_ret _ _ _ _ _ (upd_buf_run _ _ _ _ Hb)).
  set (b1 := set_dirty true b). pose proof (put_eq s i b b1 Hb) as Hb1.
  rewrite (iderw_write _ _ _ Hb1 El eq_refl Hd ltac:(unfold b1; simpl; lia)).
  set (b2 := set_valid true (set_dirty false b1)).
  replace (flushed i b1 (put i b1 s)) with
    (mkB (<[i := b2]> (bufs s)) (mru s) (upd_block (memdisk s) n (b_data b)) (disksize s)
       (writes s ++ [(n, b_data b)]) (cur_pid s)).
  2: { unfold flushed, put, with_bufs, b2, b1. simpl. by rewrite list_insert_insert_eq, Hn. }
  eexists. split; [done|]. split; [|split; [|done]].
  - apply (rep_update s v i n b b2); try done; simpl.
    + by rewrite (rep_writes _ _ Hr), Ed.
    + intros m. destruct (decide (m = n)) as [->|]; [by rewrite <- Ed|done].
    + intros m. rewrite !upd_block_cases, Ed. destruct (decide (m = n)); [done|apply (rep_disk _ _ Hr)].
    + intros m Hm. by rewrite upd_block_ne.
    + intros m. rewrite elem_of_difference, elem_of_singleton. destruct (decide (m = n)) as [->|]; naive_solver.
  - intros j k. by apply (is_buf_put s i b).
Qed.

(** Letting go of a buffer, and moving it to the front. *)
Lemma rep_release s v i n b b' :
  rep s v -> caches s i n b -> sl_locked (b_lock b) = true ->
  b' = set_refcnt 0 (set_slock (mkSleep false 0) b) ->
  n ∈ v_pinned v \/ v_data v n = v_disk v n ->
  rep (mkB (<[i := b']> (bufs s)) (i :: filter (fun j => j <> i) (mru s)) (memdisk s) (disksize s) (writes s) (cur_pid s))
    (v_release n v).
Proof.
  intros Hr Hcb Hlk Eb' Hpin. pose proof Hcb as (Hb & Hd & Hbn).
  destruct (held_buf _ _ _ _ _ Hr Hcb Hlk) as (El & Erc & Ev & Hrg & Ed).
  pose proof (fun j m x => caches_put s i b b' j m x Hb) as Hc.
  set (s' := mkB _ _ _ _ _ _).
  assert (Hcp : forall j m x, caches s' j m x <-> caches (put i b' s) j m x) by done.
  assert (Hother : forall j x m, j <> i -> caches s j m x -> m <> n).
  { intros j x m Hj Hx ->. by apply Hj, (rep_unique _ _ Hr j i n x b). }
  assert (Hb' : b_valid b' = true /\ b_dev b' = dev /\ b_blockno b' = n /\ b_data b' = b_data b /\ b_dirty b' = b_dirty b /\
                sl_locked (b_lock b') = false /\ b_refcnt b' = 0) by (by subst b').
  clear Eb'. destruct Hb' as (B1 & B2 & B3 & B4 & B5 & B6 & B7).
  split; simpl.
  - assert (Hi : i ∈ mru s) by (apply (mru_lookup _ _ _ Hr); eauto).
    assert (Hnd : NoDup (mru s)) by (rewrite (rep_order _ _ Hr); apply NoDup_seq).
    rewrite length_insert, <- (rep_order _ _ Hr).
    apply NoDup_Permutation; [|done|].
    + apply NoDup_cons. rewrite list_elem_of_filter. split; [tauto|by apply NoDup_filter].
    + intros k. rewrite elem_of_cons, list_elem_of_filter. destruct (decide (k = i)) as [->|]; tauto.
  - by rewrite length_insert, (rep_size _ _ Hr).
  - intros j x Hx. apply (put_lookup s i b b' j x Hb) in Hx as [[-> ->]|[Hj Hx]].
    + split; [by right|by rewrite B5; intros; split|]. intros _. simpl. lia.
    + destruct (rep_ok _ _ Hr _ _ Hx). by split.
  - intros j k m x x' [(-> & -> & _ & E)|[Hj Hx]]%Hcp%Hc [(-> & -> & _ & E')|[Hk Hx']]%Hcp%Hc; [done|..].
    + exfalso. by eapply Hother; [exact Hk|exact Hx'|congruence].
    + exfalso. by eapply Hother; [exact Hj|exact Hx|congruence].
    + by eapply (rep_unique _ _ Hr).
  - intros j m x [(-> & -> & _ & E)|[Hj Hx]]%Hcp%Hc Hv; [|by eapply rep_data]. congruence.
  - intros m Hm Hmh. destruct (decide (m = n)) as [->|Hmn]; [tauto|].
    apply (rep_clean _ _ Hr); [done|]. rewrite elem_of_difference, elem_of_singleton in Hmh. tauto.
  - apply (rep_disk _ _ Hr).
  - intros m. rewrite (rep_pinned _ _ Hr). split; intros (j & x & Hx & Hdx).
    + destruct (decide (j = i)) as [->|Hj].
      * destruct Hx as (Hx & Hxd & Hxm). rewrite Hb in Hx. injection Hx as <-.
        exists i, b'. split; [|congruence]. apply Hcp, Hc. left. repeat split; congruence.
      * exists j, x. split; [|done]. apply Hcp, Hc. by right.
    + apply Hcp, Hc in Hx as [(-> & -> & _ & E)|[Hj Hx]]; [|by exists j, x].
      exists i, b. split; [|congruence]. repeat split; congruence.
  - intros m. rewrite elem_of_difference, elem_of_singleton, (rep_held _ _ Hr). split.
    + intros ((j & x & Hx & Hlx) & Hmn). exists j, x. split; [|done]. apply Hcp, Hc. right. split; [|done].
      intros ->. destruct Hx as (Hx & _ & Hxm). rewrite Hb in Hx. congruence.
    + intros (j & x & [(-> & -> & _ & E)|[Hj Hx]]%Hcp%Hc & Hlx); [congruence|]. split; [by exists j, x|].
      by eapply Hother.
  - apply (rep_writes _ _ Hr).
Qed.

Lemma brelse_spec s v i n :
  rep s v -> is_buf s i n -> n ∈ v_pinned v \/ v_data v n = v_disk v n ->
  exists s', brelse i s = Ret tt s' /\ rep s' (v_release n v) /\
    (forall j k, k <> n -> is_buf s j k -> is_buf s' j k) /\ disksize s' = disksize s.
Proof.
  intros Hr (b & Hc & Hl) Hpin. pose proof Hc as (Hb & Hd & Hn).
  destruct (held_buf _ _ _ _ _ Hr Hc Hl) as (El & Erc & Ev & Hrg & Ed).
  unfold brelse. rewrite (bind_ret _ _ _ _ _ (holdingsleep_run _ _ _ Hb El)), (bind_ret _ _ _ tt s) by done.
  unfold releasesleep. rewrite (bind_ret _ _ _ _ _ (upd_buf_run _ _ _ _ Hb)).
  set (b1 := set_slock _ b). pose proof (put_eq s i b b1 Hb) as Hb1.
  rewrite (bind_ret _ _ _ _ _ (upd_buf_run _ _ _ _ Hb1)), put_put.
  set (b2 := set_refcnt _ b1). pose proof (put_eq s i b b2 Hb) as Hb2.
  rewrite (bind_ret _ _ _ _ _ (the_buf_run _ _ _ Hb2)).
  assert (E2 : b2 = set_refcnt 0 (set_slock (mkSleep false 0) b)) by (unfold b2, b1; simpl; by rewrite Erc).
  rewrite E2. simpl. eexists. split; [reflexivity|]. split; [|split; [|done]].
  - simpl. by apply (rep_release s v i n b).
  - intros j k Hk (x & Hx & Hlx). exists x. split; [|done].
    apply (caches_put s i b _ j k x Hb). right. split; [|done]. intros ->.
    destruct Hx as (Hx & _ & Hxk). rewrite Hb in Hx. congruence.
Qed.
End Rep.

(** ** bio.c implements the interface *)

Definition buf_data (i : nat) : B block := b ← the_buf i; ret (b_data b).
Definition buf_blockno (i : nat) : B Z := b ← the_buf i; ret (b_blockno b).

#[global] Program Instance bio_cache : BlockCache bstate := {|
  cache_bread := bread 1;
  cache_data := buf_data;
  cache_store := set_bytes;
  cache_blockno := buf_blockno;
  cache_pin i := upd_buf i (set_dirty true);
  cache_bwrite := bwrite;
  cache_brelse := brelse;
  cache_rep := rep;
  cache_buf := is_buf;
  cache_size := Z.to_nat NBUF;
  cache_blocks := disksize
|}.
Next Obligation. intros s v n Hr. apply (rep_clean _ _ Hr). Qed.
Next Obligation.
  intros s v n Hr Hn Hrg Hroom.
  destruct (bread_spec s v n Hr Hn Hrg Hroom) as (i & b & b' & H1 & H2 & Hb & Hul & H3 & H4).
  exists i, (put i b' s). split; [done|]. split; [done|]. split; [by exists b'|]. split; [|done].
  intros j k (x & Hx & Hlx). exists x. split; [|done]. apply (caches_put s i b b' j k x Hb). right.
  split; [|done]. intros ->. destruct Hx as (Hx & _). congruence.
Qed.
Next Obligation.
  intros s v i n Hr (b & Hc & Hl). destruct (held_buf _ _ _ _ _ Hr Hc Hl) as (_ & _ & _ & _ & Ed).
  unfold buf_data. rewrite (bind_ret _ _ _ _ _ (the_buf_run _ _ _ (proj1 Hc))). by rewrite <- Ed.
Qed.
Next Obligation.
  intros s i n (b & (Hb & _ & Hn) & _). unfold buf_blockno.
  rewrite (bind_ret _ _ _ _ _ (the_buf_run _ _ _ Hb)). by rewrite <- Hn.
Qed.
Next Obligation. intros. by apply set_bytes_spec. Qed.
Next Obligation. intros. by apply pin_spec. Qed.
Next Obligation. intros. by apply bwrite_spec. Qed.
Next Obligation. intros. by apply brelse_spec. Qed.

(** The cache as binit leaves it shows the disk. *)
Lemma binit_rep disk size pid :
  rep (binit (Z.to_nat NBUF) disk size pid) (mkView disk disk ∅ ∅ []).
Proof.
  assert (Hno : forall i n b, ~ caches (binit (Z.to_nat NBUF) disk size pid) i n b).
  { intros i n b (Hb & Hd & _). by apply lookup_replicate in Hb as [-> _]. }
  split.
  - cbn [binit mru bufs]. unfold binit_order. by rewrite <- Permutation_rev, length_replicate.
  - apply length_replicate.
  - intros i b [-> _]%lookup_replicate. split; simpl; [by right|done|lia].
  - intros i j n b b' Hc. by apply Hno in Hc.
  - intros i n b Hc. by apply Hno in Hc.
  - done.
  - done.
  - intros n. split; [by intros ?%elem_of_empty|]. intros (i & b & Hc & _). by apply Hno in Hc.
  - intros n. split; [by intros ?%elem_of_empty|]. intros (i & b & Hc & _). by apply Hno in Hc.
  - done.
Qed.

(** ** Reading and writing through the cache *)

Inductive disk_op : Type :=
  | DRead (n : Z)
  | DWrite (n : Z) (f : block -> block).
Definition op_block (op : disk_op) : Z := match op with DRead n | DWrite n _ => n end.

(** A client's use of one block; it answers with the contents it found. *)
Definition run_disk_op (op : disk_op) : B block :=
  match op with
  | DRead n => i ← bread 1 n; x ← buf_data i; brelse i;; ret x
  | DWrite n f => i ← bread 1 n; x ← buf_data i; set_bytes i f;; bwrite i;; brelse i;; ret x
  end.
Fixpoint run_disk_ops (ops : list disk_op) : B (list block) :=
  match ops with
  | [] => ret []
  | op :: ops => x ← run_disk_op op; xs ← run_disk_ops ops; ret (x :: xs)
  end.

(** The same on the disk itself. *)
Fixpoint direct (ops : list disk_op) (d : Z -> block) : list block :=
  match ops with
  | [] => []
  | DRead n :: ops => d n :: direct ops d
  | DWrite n f :: ops => d n :: direct ops (upd_block d n (f (d n)))
  end.

Definition settled (s : bstate) (d : Z -> block) : Prop :=
  exists v, rep s v /\ v_pinned v = ∅ /\ v_held v = ∅ /\ forall n, v_data v n = d n.

Lemma disk_op_spec op s d :
  settled s d -> 0 <= op_block op < disksize s ->
  exists s' d', run_disk_op op s = Ret (d (op_block op)) s' /\ settled s' d' /\ disksize s' = disksize s /\
    forall n, d' n = match op with DRead _ => d n | DWrite k f => upd_block d k (f (d k)) n end.
Proof.
  intros (v & Hr & Hp & Hh & Hd) Hrange. set (n := op_block op) in *.
  destruct (bread_law s v n) as (i & s1 & E1 & R1 & I1 & _ & Z1); [exact Hr|rewrite Hh; apply not_elem_of_empty|done| |].
  { right. rewrite Hp, Hh, union_empty_l_L, size_empty. change (0 < Z.to_nat NBUF)%nat. unfold NBUF, MAXOPBLOCKS. lia. }
  pose proof (data_law s1 _ i n R1 I1) as Ed. cbn in E1, R1, I1, Ed, Z1.
  assert (Hclean : v_data v n = v_disk v n) by (apply (rep_clean _ _ Hr); [rewrite Hp|rewrite Hh]; apply not_elem_of_empty).
  destruct op as [k|k f]; cbn [run_disk_op op_block] in *; subst n.
  - destruct (brelse_spec s1 _ i k R1 I1) as (s2 & E2 & R2 & _ & Z2); [by right|].
    exists s2, d. rewrite (bind_ret _ _ _ _ _ E1), (bind_ret _ _ _ _ _ Ed), (bind_ret _ _ _ _ _ E2), Hd.
    split; [done|]. split; [|split; [congruence|done]]. eexists. split; [exact R2|]. cbn. split_and!; try done.
    rewrite Hh. set_solver.
  - destruct (set_bytes_spec s1 _ i k f R1 I1) as (s2 & E2 & R2 & I2 & Z2).
    destruct (bwrite_spec s2 _ i k R2 (I2 _ _ I1)) as (s3 & E3 & R3 & I3 & Z3).
    destruct (brelse_spec s3 _ i k R3 (I3 _ _ (I2 _ _ I1))) as (s4 & E4 & R4 & _ & Z4).
    { right. cbn. by rewrite !upd_block_eq. }
    exists s4, (upd_block d k (f (d k))).
    rewrite (bind_ret _ _ _ _ _ E1), (bind_ret _ _ _ _ _ Ed), (bind_ret _ _ _ _ _ E2), (bind_ret _ _ _ _ _ E3),
      (bind_ret _ _ _ _ _ E4). cbn [v_hold v_data]. rewrite Hd. split; [done|].
    split; [|split; [congruence|done]]. eexists. split; [exact R4|]. cbn. split_and!.
    + rewrite Hp. set_solver.
    + rewrite Hh. set_solver.
    + intros m. rewrite !upd_block_cases. destruct (decide (m = k)); [by rewrite Hd|apply Hd].
Qed.

Lemma direct_ext ops d d' : (forall n, d n = d' n) -> direct ops d = direct ops d'.
Proof.
  revert d d'. induction ops as [|[n|n f] ops IH]; intros d d' E; simpl; [done|by rewrite E, (IH d d')|].
  rewrite E. f_equal. apply IH. intros m. rewrite !upd_block_cases, E. by destruct (decide (m = n)).
Qed.

(** C13: the cache cannot be told from the disk: started on a disk by binit, any sequence of
    reads and writes of blocks through bread, bwrite and brelse, however many blocks it
    touches and whatever is evicted on the way, always finds a buffer, never waits or panics,
    and reads of every block what the same sequence on the disk itself would read. *)
Theorem cache_equals_disk (ops : list disk_op) (disk : Z -> block) (size pid : Z)
    (Hrange : Forall (fun op => 0 <= op_block op < size) ops) :
  exists s', run_disk_ops ops (binit (Z.to_nat NBUF) disk size pid) = Ret (direct ops disk) s'.
Proof.
  assert (Hs : settled (binit (Z.to_nat NBUF) disk size pid) disk).
  { eexists. split; [apply binit_rep|]. done. }
  set (s := binit _ disk size pid) in *. assert (Hz : disksize s = size) by done. clearbody s.
  revert s disk Hs Hz. induction Hrange as [|op ops Hop _ IH]; intros s d Hs Hz; [by exists s|].
  cbn [run_disk_ops]. rewrite <- Hz in Hop.
  destruct (disk_op_spec op s d Hs Hop) as (s1 & d1 & E1 & S1 & Z1 & Hd1).
  destruct (IH s1 d1 S1 ltac:(congruence)) as (s2 & E2).
  exists s2. rewrite (bind_ret _ _ _ _ _ E1), (bind_ret _ _ _ _ _ E2). unfold ret. f_equal.
  destruct op as [n|n f]; simpl; f_equal; by apply direct_ext.
Qed.

(** Forty blocks are rewritten through thirty buffers, then read again. *)
Lemma cache_equals_disk_witness :
  exists s', run_disk_ops (map (fun n => DWrite n (fun b => store8 b 0 n)) (seqZ 0 40) ++ map DRead (seqZ 0 40))
    (binit (Z.to_nat NBUF) (fun _ _ => 0) 1000 1) = Ret
      (direct (map (fun n => DWrite n (fun b => store8 b 0 n)) (seqZ 0 40) ++ map DRead (seqZ 0 40)) (fun _ _ => 0)) s'.
Proof.
  apply (cache_equals_disk _ (fun _ _ => 0) 1000 1). apply Forall_app. split.
  - apply Forall_forall. intros op (n & -> & Hn)%list_elem_of_fmap. apply elem_of_seqZ in Hn. simpl. lia.
  - apply Forall_forall. intros op (n & -> & Hn)%list_elem_of_fmap. apply elem_of_seqZ in Hn. simpl. lia.
Defined.
