(* ===== verification/Ide.v ===== *)
(** * Ide: the disk driver's queue and commands (offline_4/xv6/ide.c)

    The controller is a parameter [Ata]: its ports and, as laws, what the ATA standard says a
    command does. A call of iderw runs to its first sleep, ideintr to its end, both under
    idelock; the controller finishes its job at any moment and raises the interrupt. A buffer
    pointer is an index. *)

From S2P Require Import Prelude Cache.

Definition SECTOR_SIZE : Z := 512.
Definition IDE_BSY : Z := 0x80.
Definition IDE_DRDY : Z := 0x40.
Definition IDE_DF : Z := 0x20.
Definition IDE_ERR : Z := 0x01.
Definition IDE_CMD_READ : Z := 0x20.
Definition IDE_CMD_WRITE : Z := 0x30.
Definition IDE_CMD_RDMUL : Z := 0xc4.
Definition IDE_CMD_WRMUL : Z := 0xc5.
Definition FSSIZE : Z := 1000.

(** A command the controller works on: write or read, drive, sector, the words to write. *)
Record job : Type := mkJob { j_write : bool; j_drive : Z; j_sector : Z; j_data : list Z }.

Definition failed (status : Z) : bool := negb (Z.land status (Z.lor IDE_DF IDE_ERR) =? 0).
Definition ready (status : Z) : bool := Z.land status (Z.lor IDE_BSY IDE_DRDY) =? IDE_DRDY.

(** The ports, and what the laws speak of: the register behind a port, the contents of a drive's
    sectors, the command at work, and the states its end may lead to. *)
Class Ata (D : Type) : Type := {
  outb : Z -> Z -> D -> D;
  inb : Z -> D -> Z;
  outsl : Z -> list Z -> D -> D;
  insl : Z -> nat -> D -> list Z;
  reg : D -> Z -> Z;
  sectors : D -> Z -> Z -> list Z;
  at_work : D -> option job;
  finishes : D -> D -> Prop
}.

(** 28-bit addresses: bits 0 to 7, 8 to 15, 16 to 23 in three registers, 24 to 27 and the drive
    in a fourth. *)
Definition lba {D} `{Ata D} (d : D) : Z :=
  reg d 0x1f3 + 2 ^ 8 * reg d 0x1f4 + 2 ^ 16 * reg d 0x1f5 + 2 ^ 24 * (reg d 0x1f6 mod 16).
Definition drive {D} `{Ata D} (d : D) : Z := reg d 0x1f6 / 16 mod 2.

(** An idle controller is ready and takes values for its registers; a command written to port
    0x1f7 starts a job of one sector at the address in the registers; once it ends without an
    error the sector is written, or its words can be read from the data port. *)
Class AtaLaws (D : Type) `{Ata D} : Prop := {
  ata_status d : ready (inb 0x1f7 d) = true <-> at_work d = None;
  ata_reg d p v : at_work d = None -> p <> 0x1f7 -> p <> 0x1f0 -> 0 <= v < 256 ->
    at_work (outb p v d) = None /\ sectors (outb p v d) = sectors d /\
    forall q, reg (outb p v d) q = if decide (q = p) then v else reg d q;
  ata_read d : at_work d = None -> reg d 0x1f2 = 1 -> reg d 0x1f6 / 32 = 7 ->
    at_work (outb 0x1f7 IDE_CMD_READ d) = Some (mkJob false (drive d) (lba d) []) /\
    sectors (outb 0x1f7 IDE_CMD_READ d) = sectors d;
  ata_write d ws : at_work d = None -> reg d 0x1f2 = 1 -> reg d 0x1f6 / 32 = 7 ->
    at_work (outsl 0x1f0 ws (outb 0x1f7 IDE_CMD_WRITE d)) = Some (mkJob true (drive d) (lba d) ws) /\
    sectors (outsl 0x1f0 ws (outb 0x1f7 IDE_CMD_WRITE d)) = sectors d;
  ata_finish d d' j : at_work d = Some j -> finishes d d' ->
    at_work d' = None /\
    (failed (inb 0x1f7 d') = false ->
       if j_write j then forall a b, sectors d' a b = if decide (a = j_drive j /\ b = j_sector j) then j_data j else sectors d a b
       else sectors d' = sectors d /\ insl 0x1f0 (Z.to_nat (BSIZE / 4)) d' = sectors d (j_drive j) (j_sector j))
}.

Record buf : Type := mkBuf {
  b_dev : Z;
  b_blockno : Z;
  b_data : list Z;
  b_valid : bool;
  b_dirty : bool;
  qnext : option nat;
  b_held : bool
}.
Definition set_qnext (q : option nat) (b : buf) : buf := mkBuf (b_dev b) (b_blockno b) (b_data b) (b_valid b) (b_dirty b) q (b_held b).
Definition set_data (l : list Z) (b : buf) : buf := mkBuf (b_dev b) (b_blockno b) l (b_valid b) (b_dirty b) (qnext b) (b_held b).
Definition set_served (b : buf) : buf := mkBuf (b_dev b) (b_blockno b) (b_data b) true false (qnext b) (b_held b).

Section Driver.
Context {D : Type} `{Ata D}.

(** The driver's variables and the buffers, with the controller. *)
Record ide : Type := mkIde { bufs : list buf; idequeue : option nat; havedisk1 : bool; port : D }.
Abbreviation P := (M ide).
Definition set_bufs (x : list buf) (s : ide) : ide := mkIde x (idequeue s) (havedisk1 s) (port s).
Definition set_idequeue (x : option nat) (s : ide) : ide := mkIde (bufs s) x (havedisk1 s) (port s).
Definition set_port (x : D) (s : ide) : ide := mkIde (bufs s) (idequeue s) (havedisk1 s) x.

Definition the_buf (b : nat) : P buf := x ← gets (fun s => bufs s !! b); deref x.
Definition upd_buf (b : nat) (f : buf -> buf) : P unit := modify (fun s => set_bufs (alter f b (bufs s)) s).
Definition out (p v : Z) : P unit := modify (fun s => set_port (outb p v (port s)) s).

Definition no_end {A} : P A := fun _ => OutOfFuel.
(** The loop reads the status until the drive is ready; a drive that is not makes it wait. *)
Definition idewait (checkerr : bool) : P Z :=
  r ← gets (fun s => inb 0x1f7 (port s));
  if negb (ready r) then no_end
  else if checkerr && failed r then ret (-1) else ret 0.

Definition idestart (b : option nat) : P unit :=
  match b with
  | None => panic "idestart"
  | Some b =>
      x ← the_buf b;
      panic_if (FSSIZE <=? b_blockno x) "incorrect blockno";;
      let sector_per_block := BSIZE / SECTOR_SIZE in
      let sector := b_blockno x * sector_per_block in
      let read_cmd := if sector_per_block =? 1 then IDE_CMD_READ else IDE_CMD_RDMUL in
      let write_cmd := if sector_per_block =? 1 then IDE_CMD_WRITE else IDE_CMD_WRMUL in
      panic_if (7 <? sector_per_block) "idestart";;
      idewait false;;
      out 0x3f6 0;;
      out 0x1f2 sector_per_block;;
      out 0x1f3 (Z.land sector 0xff);;
      out 0x1f4 (Z.land (Z.shiftr sector 8) 0xff);;
      out 0x1f5 (Z.land (Z.shiftr sector 16) 0xff);;
      out 0x1f6 (Z.lor (Z.lor 0xe0 (Z.shiftl (Z.land (b_dev x) 1) 4)) (Z.land (Z.shiftr sector 24) 0x0f));;
      if b_dirty x then
        out 0x1f7 write_cmd;;
        modify (fun s => set_port (outsl 0x1f0 (b_data x) (port s)) s)
      else out 0x1f7 read_cmd
  end.

Definition ideintr : P unit :=
  q ← gets idequeue;
  match q with
  | None => ret tt
  | Some b =>
      x ← the_buf b;
      modify (set_idequeue (qnext x));;
      (if negb (b_dirty x) then
         r ← idewait true;
         when (0 <=? r) (l ← gets (fun s => insl 0x1f0 (Z.to_nat (BSIZE / 4)) (port s)); upd_buf b (set_data l))
       else ret tt);;
      upd_buf b set_served;;
      q ← gets idequeue;
      match q with Some _ => idestart q | None => ret tt end
  end.

(** Reads the status up to [n] times to see whether a second disk answers. *)
Fixpoint probe (n : nat) : P unit :=
  match n with
  | O => ret tt
  | S n =>
      r ← gets (fun s => inb 0x1f7 (port s));
      if negb (r =? 0) then modify (fun s => mkIde (bufs s) (idequeue s) true (port s)) else probe n
  end.
Definition ideinit : P unit :=
  idewait false;;
  out 0x1f6 (Z.lor 0xe0 (Z.shiftl 1 4));;
  probe 1000;;
  out 0x1f6 (Z.lor 0xe0 (Z.shiftl 0 4)).

(** The last buffer of the queue from [p] on. *)
Fixpoint queue_end (p : nat) (fuel : nat) : P nat :=
  match fuel with
  | O => no_end
  | S fuel => x ← the_buf p; match qnext x with Some q => queue_end q fuel | None => ret p end
  end.

(** iderw to its sleep. *)
Definition iderw (b : nat) : P unit :=
  x ← the_buf b;
  panic_if (negb (b_held x)) "iderw: buf not locked";;
  panic_if (b_valid x && negb (b_dirty x)) "iderw: nothing to do";;
  h ← gets havedisk1;
  panic_if (negb (b_dev x =? 0) && negb h) "iderw: ide disk 1 not present";;
  upd_buf b (set_qnext None);;
  q ← gets idequeue;
  s ← get;
  match q with
  | None => modify (set_idequeue (Some b))
  | Some p => p ← queue_end p (length (bufs s)); upd_buf p (set_qnext (Some b))
  end;;
  q ← gets idequeue;
  if bool_decide (q = Some b) then idestart (Some b) else ret tt.
End Driver.

(** ** What runs may happen

    The queue of requests is the list [q]. A holder of a buffer that is not queued does what it
    likes with it; a process asks for a buffer; the controller ends its job; its interrupt is
    handled. *)
Section Runs.
Context {D : Type} `{Ata D}.
Implicit Types (s : ide (D := D)) (x : buf) (q : list nat).

Definition requestable s x : Prop :=
  b_held x = true /\ b_valid x && negb (b_dirty x) = false /\ 0 <= b_blockno x < FSSIZE /\ (b_dev x = 0 \/ havedisk1 s = true).

Inductive run : ide (D := D) -> list nat -> Prop :=
  | run_start s : idequeue s = None -> at_work (port s) = None -> run s []
  | run_use s q b f : run s q -> (b ∉ q) -> run (set_bufs (alter f b (bufs s)) s) q
  | run_rw s q b x s' : run s q -> bufs s !! b = Some x -> (b ∉ q) -> requestable s x -> iderw b s = Ret tt s' -> run s' (q ++ [b])
  | run_finish s q j d : run s q -> at_work (port s) = Some j -> finishes (port s) d -> run (set_port d s) q
  | run_intr s b q s' : run s (b :: q) -> at_work (port s) = None -> ideintr s = Ret tt s' -> run s' q.
End Runs.

(** What the controller is told to do for a buffer. *)
Definition job_of (x : buf) : job :=
  mkJob (b_dirty x) (b_dev x mod 2) (b_blockno x) (if b_dirty x then b_data x else []).

(** The queue runs from [p] through the [qnext] fields. *)
Fixpoint chain (l : list buf) (p : option nat) (q : list nat) : Prop :=
  match q with
  | [] => p = None
  | b :: q => p = Some b /\ exists x, l !! b = Some x /\ chain l (qnext x) q
  end.

Lemma chain_lookup l q : forall p b, chain l p q -> b ∈ q -> exists x, l !! b = Some x.
Proof.
  induction q as [|c q IH]; intros p b Hc Hb; [by apply elem_of_nil in Hb|]. destruct Hc as (_ & x & Hx & Hc).
  apply elem_of_cons in Hb as [->|Hb]; [eauto|by apply (IH _ _ Hc)].
Qed.
Lemma chain_alter f b l q : (b ∉ q) -> forall p, chain l p q -> chain (alter f b l) p q.
Proof.
  induction q as [|c q IH]; intros Hb p Hc; [done|]. apply not_elem_of_cons in Hb as [Hn Hb]. destruct Hc as (-> & x & Hx & Hc).
  split; [done|]. exists x. split; [by rewrite list_lookup_alter_ne|by apply IH].
Qed.
Lemma chain_length l p q : chain l p q -> NoDup q -> (length q <= length l)%nat.
Proof.
  intros Hc Hnd. assert (Hs : q ⊆+ seq 0 (length l)).
  { apply NoDup_submseteq; [done|]. intros b Hb. destruct (chain_lookup _ _ _ _ Hc Hb) as [x Hx%lookup_lt_Some]. apply elem_of_seq. lia. }
  apply submseteq_length in Hs. by rewrite length_seq in Hs.
Qed.
Lemma chain_snoc l b x q z : forall p, chain l p (q ++ [z]) -> NoDup (q ++ [z]) -> (b ∉ q ++ [z]) -> l !! b = Some x -> qnext x = None ->
  chain (alter (set_qnext (Some b)) z l) p ((q ++ [z]) ++ [b]).
Proof.
  induction q as [|c q IH]; intros p Hc Hnd Hb Hx Hn.
  - destruct Hc as (-> & y & Hy & _). split; [done|]. exists (set_qnext (Some b) y). split; [by apply lookup_alter_eq_Some|].
    split; [done|]. exists x. split; [|done]. rewrite list_lookup_alter_ne by set_solver. done.
  - destruct Hc as (-> & y & Hy & Hc). apply NoDup_cons in Hnd as [Hcn Hnd]. apply not_elem_of_cons in Hb as [Hbn Hb].
    split; [done|]. exists y. split; [rewrite list_lookup_alter_ne by set_solver; done|by apply IH].
Qed.

Section Correct.
Context {D : Type} `{!Ata D, !AtaLaws D}.
Implicit Types (s : ide (D := D)) (x : buf) (q : list nat) (d : D).

Lemma idewait_idle c s : at_work (port s) = None -> idewait c s = Ret (if c && failed (inb 0x1f7 (port s)) then -1 else 0) s.
Proof using AtaLaws0.
  intros Hd. apply ata_status in Hd. unfold idewait, gets, mbind, M_bind. rewrite Hd. cbn [negb]. by destruct (c && _).
Qed.

(** The seven register writes set up the sector of the buffer, and the command starts it. *)
Lemma registers d v2 v3 v4 v5 v6 : at_work d = None -> 0 <= v2 < 256 -> 0 <= v3 < 256 -> 0 <= v4 < 256 -> 0 <= v5 < 256 -> 0 <= v6 < 256 ->
  let d' := outb 0x1f6 v6 (outb 0x1f5 v5 (outb 0x1f4 v4 (outb 0x1f3 v3 (outb 0x1f2 v2 (outb 0x3f6 0 d))))) in
  at_work d' = None /\ sectors d' = sectors d /\ reg d' 0x1f2 = v2 /\ reg d' 0x1f3 = v3 /\ reg d' 0x1f4 = v4 /\ reg d' 0x1f5 = v5 /\ reg d' 0x1f6 = v6.
Proof using AtaLaws0.
  intros H0 H2 H3 H4 H5 H6 d'. subst d'.
  destruct (ata_reg d 0x3f6 0 H0) as (W0 & S0 & R0); [lia..|].
  destruct (ata_reg _ 0x1f2 v2 W0) as (W2 & S2 & R2); [lia..|].
  destruct (ata_reg _ 0x1f3 v3 W2) as (W3 & S3 & R3); [lia..|].
  destruct (ata_reg _ 0x1f4 v4 W3) as (W4 & S4 & R4); [lia..|].
  destruct (ata_reg _ 0x1f5 v5 W4) as (W5 & S5 & R5); [lia..|].
  destruct (ata_reg _ 0x1f6 v6 W5) as (W6 & S6 & R6); [lia..|].
  split; [done|]. split; [congruence|]. split_and!; repeat (rewrite ?R6, ?R5, ?R4, ?R3, ?R2; cbn [decide decide_rel Z.eq_dec]; try done).
Qed.

Lemma sector_bytes n : 0 <= n < FSSIZE ->
  Z.land n 0xff = n mod 2 ^ 8 /\ Z.land (Z.shiftr n 8) 0xff = n / 2 ^ 8 /\ Z.land (Z.shiftr n 16) 0xff = 0 /\ Z.land (Z.shiftr n 24) 0x0f = 0.
Proof.
  intros Hn. unfold FSSIZE in Hn. rewrite !Z.shiftr_div_pow2 by lia. change 0xff with (Z.ones 8). change 0x0f with (Z.ones 4).
  rewrite !Z.land_ones by lia. split_and!; dlia.
Qed.
Lemma drive_byte v : let w := Z.lor (Z.lor 0xe0 (Z.shiftl (Z.land v 1) 4)) 0 in 0 <= w < 256 /\ w / 32 = 7 /\ w / 16 mod 2 = v mod 2 /\ w mod 16 = 0.
Proof.
  cbv zeta. change 1 with (Z.ones 1) at 1 2 3 4 5. rewrite Z.land_ones by lia. change (2 ^ 1) with 2.
  pose proof (Z.mod_pos_bound v 2 ltac:(lia)). assert (v mod 2 = 0 \/ v mod 2 = 1) as [-> | ->] by lia; vm_compute; repeat split; congruence.
Qed.

Definition started s d x : Prop := at_work d = Some (job_of x) /\ sectors d = sectors (port s).

Lemma idestart_starts s b x : bufs s !! b = Some x -> at_work (port s) = None -> 0 <= b_blockno x < FSSIZE ->
  exists d, idestart (Some b) s = Ret tt (set_port d s) /\ started s d x.
Proof using AtaLaws0.
  intros Hx Hidle Hb. destruct (sector_bytes _ Hb) as (E3 & E4 & E5 & E6). destruct (drive_byte (b_dev x)) as (Hw & Hw7 & Hwd & Hw0).
  set (w := Z.lor (Z.lor 0xe0 (Z.shiftl (Z.land (b_dev x) 1) 4)) 0) in *.
  pose proof (registers (port s) 1 (b_blockno x mod 2 ^ 8) (b_blockno x / 2 ^ 8) 0 w Hidle) as R. cbv zeta in R.
  unfold FSSIZE in Hb. destruct R as (Rw & Rs & R2 & R3 & R4 & R5 & R6); [lia|dlia|dlia|lia|done|].
  set (d := outb 0x1f6 w _) in *.
  assert (Hl : lba d = b_blockno x) by (unfold lba; rewrite R3, R4, R5, R6, Hw0; dlia).
  assert (Hd : drive d = b_dev x mod 2) by (unfold drive; by rewrite R6).
  assert (Es : idestart (Some b) s = (if b_dirty x then out 0x1f7 IDE_CMD_WRITE;; modify (fun s => set_port (outsl 0x1f0 (b_data x) (port s)) s) else out 0x1f7 IDE_CMD_READ) (set_port d s)).
  { unfold idestart. cbv zeta. change (BSIZE / SECTOR_SIZE) with 1. cbn [Z.eqb Pos.eqb].
    assert (Eg : the_buf b s = Ret x s) by (unfold the_buf, gets, mbind, M_bind; by rewrite Hx).
    rewrite (bind_ret _ _ _ _ _ Eg), Z.mul_1_r. replace (FSSIZE <=? b_blockno x) with false by (symmetry; apply Z.leb_gt; unfold FSSIZE; lia).
    step_m. change (7 <? 1) with false. step_m.
    rewrite (bind_ret _ _ _ _ _ (idewait_idle false s Hidle)). rewrite E3, E4, E5, E6. by destruct s. }
  assert (Hr : started s (if b_dirty x then outsl 0x1f0 (b_data x) (outb 0x1f7 IDE_CMD_WRITE d) else outb 0x1f7 IDE_CMD_READ d) x).
  { unfold started, job_of. destruct (b_dirty x).
    - destruct (ata_write d (b_data x) Rw R2) as [W S]; [by rewrite R6|]. by rewrite W, S, Hl, Hd.
    - destruct (ata_read d Rw R2) as [W S]; [by rewrite R6|]. by rewrite W, S, Hl, Hd. }
  rewrite Es. destruct (b_dirty x); eexists; (split; [|exact Hr]); by destruct s.
Qed.

Lemma queue_end_last s : forall q p fuel, chain (bufs s) (Some p) (q : list nat) -> q <> [] -> (length q <= fuel)%nat ->
  exists z, last q = Some z /\ queue_end p fuel s = Ret z s.
Proof.
  induction q as [|b q IH]; intros p fuel Hc Hne Hf; [done|]. destruct Hc as ([= <-] & x & Hx & Hc). destruct fuel as [|fuel]; [simpl in Hf; lia|].
  cbn [queue_end]. assert (Eg : the_buf p s = Ret x s) by (unfold the_buf, gets, mbind, M_bind; by rewrite Hx).
  rewrite (bind_ret _ _ _ _ _ Eg). destruct q as [|c q]; [exists p; simpl in Hc; by rewrite Hc|].
  pose proof Hc as Hc'. destruct Hc as (Eq & _). rewrite Eq in *. destruct (IH c fuel Hc') as (z & Hz & Hr); [done|simpl in *; lia|]. by exists z.
Qed.

(** The head's job is at work, or it has ended and its result waits for the interrupt. *)
Definition result x d : Prop :=
  failed (inb 0x1f7 d) = false ->
  if b_dirty x then sectors d (b_dev x mod 2) (b_blockno x) = b_data x
  else insl 0x1f0 (Z.to_nat (BSIZE / 4)) d = sectors d (b_dev x mod 2) (b_blockno x).
Definition head_ok s q : Prop :=
  match q with
  | [] => at_work (port s) = None
  | b :: _ => exists x, bufs s !! b = Some x /\ (at_work (port s) = Some (job_of x) \/ at_work (port s) = None /\ result x (port s))
  end.
Definition asked s (b : nat) : Prop := exists x, bufs s !! b = Some x /\ 0 <= b_blockno x < FSSIZE.
Record ide_ok s q : Prop := {
  io_nodup : NoDup q;
  io_chain : chain (bufs s) (idequeue s) q;
  io_asked : Forall (asked s) q;
  io_head : head_ok s q
}.

Lemma asked_alter f s s' b q : bufs s' = alter f b (bufs s) -> (forall x, b_blockno (f x) = b_blockno x) -> Forall (asked s) q -> Forall (asked s') q.
Proof.
  intros Eb Hf Hq. apply (Forall_impl _ _ _ Hq). intros c (x & Hx & Hr). unfold asked. rewrite Eb. destruct (decide (b = c)) as [<-|Hne].
  - exists (f x). split; [by apply lookup_alter_eq_Some|by rewrite Hf].
  - exists x. by rewrite list_lookup_alter_ne.
Qed.
Lemma asked_absent f s s' b q : bufs s' = alter f b (bufs s) -> (b ∉ q) -> Forall (asked s) q -> Forall (asked s') q.
Proof.
  intros Eb Hb. rewrite !Forall_forall. intros Hq c Hc. destruct (Hq c Hc) as (x & Hx & Hr). exists x. split; [|done].
  rewrite Eb, list_lookup_alter_ne by (by intros ->). done.
Qed.
Lemma head_absent f s s' b q : bufs s' = alter f b (bufs s) -> port s' = port s -> (b ∉ q) -> head_ok s q -> head_ok s' q.
Proof.
  unfold head_ok. intros Eb -> Hb. destruct q as [|c q]; [done|]. apply not_elem_of_cons in Hb as [Hb _].
  rewrite Eb, list_lookup_alter_ne by done. done.
Qed.

Lemma use_ok s q b f : ide_ok s q -> (b ∉ q) -> ide_ok (set_bufs (alter f b (bufs s)) s) q.
Proof.
  intros [Hn Hc Ha Hh] Hb. split; [done|by apply chain_alter|by apply (asked_absent f s _ b)|by apply (head_absent f s _ b)].
Qed.

Lemma finish_ok s q j d : ide_ok s q -> at_work (port s) = Some j -> finishes (port s) d -> ide_ok (set_port d s) q.
Proof using AtaLaws0.
  intros [Hn Hc Ha Hh] Hj Hd. split; [done..|]. destruct (ata_finish _ _ _ Hj Hd) as [Hw Hres]. unfold head_ok in *.
  destruct q as [|b q]; [congruence|]. destruct Hh as (x & Hx & [Hjob|[Hno _]]); [|congruence]. exists x. split; [done|]. right. split; [done|].
  rewrite Hj in Hjob. injection Hjob as ->. intros Hf. specialize (Hres Hf). unfold job_of in Hres. cbn [j_write j_drive j_sector j_data] in Hres.
  cbn [port set_port]. destruct (b_dirty x); [by rewrite Hres, decide_True|]. destruct Hres as [-> ->]. done.
Qed.

Lemma iderw_ok s q b x : ide_ok s q -> bufs s !! b = Some x -> (b ∉ q) -> requestable s x -> exists s', iderw b s = Ret tt s' /\ ide_ok s' (q ++ [b]).
Proof using AtaLaws0.
  intros Hok Hx Hb (Hheld & Hwork & Hrange & Hdev).
  set (s1 := set_bufs (alter (set_qnext None) b (bufs s)) s).
  assert (Hx1 : bufs s1 !! b = Some (set_qnext None x)) by (by apply lookup_alter_eq_Some).
  destruct (use_ok s q b (set_qnext None) Hok Hb) as [Hn Hc Ha Hh]. fold s1 in Hc, Ha, Hh.
  assert (Eg : the_buf b s = Ret x s) by (unfold the_buf, gets, mbind, M_bind; by rewrite Hx).
  assert (Er : iderw b s = ((match idequeue s1 with None => modify (set_idequeue (Some b)) | Some p => p ← queue_end p (length (bufs s1)); upd_buf p (set_qnext (Some b)) end);;
    q ← gets idequeue; if bool_decide (q = Some b) then idestart (Some b) else ret tt) s1).
  { unfold iderw. rewrite (bind_ret _ _ _ _ _ Eg), Hheld, Hwork. cbn [negb panic_if]. step_m. step_m. step_m.
    replace (negb (b_dev x =? 0) && negb (havedisk1 s)) with false; [by step_m|].
    destruct Hdev as [-> | ->]; [done|by rewrite andb_false_r]. }
  rewrite Er. assert (Hnd : NoDup (q ++ [b])) by (apply NoDup_app; split_and!; [done|set_solver|apply NoDup_singleton]).
  assert (Hab : asked s1 b) by (by eexists).
  destruct (list_eq_dec q []) as [->|Hne].
  - cbn [chain head_ok] in Hc, Hh. rewrite Hc. set (s2 := set_idequeue (Some b) s1).
    destruct (idestart_starts s2 b _ Hx1 Hh Hrange) as (d & Hd & Hw & Hs). exists (set_port d s2).
    split; [unfold gets, modify, mbind, M_bind; fold s2; cbn [idequeue s2 set_idequeue]; by rewrite bool_decide_eq_true_2|].
    split; [done|split; [done|by eexists]|apply Forall_singleton; exact Hab|]. exists (set_qnext None x). split; [done|by left].
  - destruct (exists_last Hne) as (q0 & z & ->). destruct (idequeue s1) as [p|] eqn:Ep; [|by destruct q0; destruct Hc].
    destruct (queue_end_last s1 _ p (length (bufs s1)) Hc Hne (chain_length _ _ _ Hc Hn)) as (z' & Hz & Hr).
    rewrite last_snoc in Hz. injection Hz as <-. rewrite (bind_assoc (queue_end _ _)), (bind_ret _ _ _ _ _ Hr).
    set (s2 := set_bufs (alter (set_qnext (Some b)) z (bufs s1)) s1). assert (Epb : p <> b).
    { intros ->. apply Hb. destruct q0; destruct Hc as [[= ->] _]; [by left|by left]. }
    exists s2. split; [unfold upd_buf, modify, gets, mbind, M_bind; fold s2; cbn [idequeue s2 set_bufs]; rewrite Ep, bool_decide_eq_false_2 by congruence; done|].
    assert (Hb2 : bufs s2 = alter (set_qnext (Some b)) z (bufs s1)) by done.
    split; [done| | |].
    + cbn [idequeue s2 set_bufs]. rewrite Ep, Hb2. by apply (chain_snoc _ _ (set_qnext None x)).
    + apply (asked_alter _ s1 s2 z _ Hb2); [done|]. apply Forall_app. split; [done|]. by apply Forall_singleton.
    + unfold head_ok in *. rewrite Hb2. change (port s2) with (port s1). destruct (q0 ++ [z]) as [|c q1] eqn:Eq; [by destruct q0|].
      cbn [app]. destruct Hh as (y & Hy & Hh). destruct (decide (c = z)) as [->|Hcz].
      * exists (set_qnext (Some b) y). split; [by apply lookup_alter_eq_Some|done].
      * exists y. by rewrite list_lookup_alter_ne by congruence.
Qed.

(** What the interrupt leaves in the buffer of the request. *)
Definition after_intr x d : buf :=
  set_served (if negb (b_dirty x) && negb (failed (inb 0x1f7 d)) then set_data (insl 0x1f0 (Z.to_nat (BSIZE / 4)) d) x else x).

Lemma ideintr_ok s q b x : ide_ok s (b :: q) -> bufs s !! b = Some x -> at_work (port s) = None ->
  exists s', ideintr s = Ret tt s' /\ ide_ok s' q /\ bufs s' !! b = Some (after_intr x (port s)) /\ sectors (port s') = sectors (port s).
Proof using AtaLaws0.
  intros [Hn Hc Ha Hh] Hx Hidle. apply NoDup_cons in Hn as [Hb Hn]. apply Forall_cons in Ha as [_ Ha]. destruct Hc as (Eq & x' & Hx' & Hc).
  assert (x' = x) as -> by congruence. assert (Eg : the_buf b s = Ret x s) by (unfold the_buf, gets, mbind, M_bind; by rewrite Hx).
  set (s1 := set_bufs (<[b := after_intr x (port s)]> (bufs s)) (set_idequeue (qnext x) s)).
  assert (Hbx : bufs s1 = alter (fun _ => after_intr x (port s)) b (bufs s)) by (cbn [bufs s1 set_bufs]; by rewrite (list_alter_insert _ _ _ x)).
  assert (Ei : ideintr s = match qnext x with Some c => idestart (Some c) s1 | None => Ret tt s1 end).
  { unfold ideintr. step_m. rewrite Eq, (bind_ret _ _ _ _ _ Eg). step_m. unfold s1, after_intr.
    assert (Hins : forall s0, bufs s0 = bufs s -> upd_buf b set_served s0 = Ret tt (set_bufs (<[b := set_served x]> (bufs s)) s0)).
    { intros s0 E0. unfold upd_buf, modify. rewrite E0, (list_alter_insert _ _ _ x) by done. done. }
    destruct (b_dirty x); cbn [negb andb].
    - step_m. rewrite (bind_ret _ _ _ _ _ (Hins (set_idequeue (qnext x) s) eq_refl)). by destruct (qnext x).
    - rewrite bind_assoc, (bind_ret _ _ _ _ _ (idewait_idle true (set_idequeue (qnext x) s) Hidle)). cbn [andb port set_idequeue].
      destruct (failed (inb 0x1f7 (port s))); cbn [negb].
      + cbn [Z.leb Z.compare when]. step_m. rewrite (bind_ret _ _ _ _ _ (Hins (set_idequeue (qnext x) s) eq_refl)). by destruct (qnext x).
      + cbn [Z.leb Z.compare when]. unfold upd_buf, gets, modify, mbind, M_bind. cbn [bufs set_bufs set_idequeue port idequeue].
        rewrite (list_alter_insert _ (bufs s) b x), (list_alter_insert _ _ b (set_data (insl 0x1f0 (Z.to_nat (BSIZE / 4)) (port s)) x)), list_insert_insert_eq by (try done; apply list_lookup_insert_eq; by eapply lookup_lt_Some).
        by destruct (qnext x). }
  assert (Hb1 : bufs s1 !! b = Some (after_intr x (port s))) by (rewrite Hbx; by apply (lookup_alter_eq_Some (fun _ => after_intr x (port s)) _ _ x)).
  assert (Hc1 : chain (bufs s1) (idequeue s1) q) by (rewrite Hbx; by apply chain_alter).
  assert (Ha1 : Forall (asked s1) q) by (by apply (asked_absent (fun _ => after_intr x (port s)) s _ b)).
  rewrite Ei. destruct q as [|c q].
  - cbn [chain] in Hc. rewrite Hc. exists s1. split; [done|]. split; [by split|done].
  - pose proof Hc as [-> _]. apply Forall_cons in Ha1 as Hac. destruct Hac as [(y & Hy & Hr) _].
    destruct (idestart_starts s1 c y Hy Hidle Hr) as (d & Hd & Hw & Hs). exists (set_port d s1). split; [done|]. split; [|done].
    split; [done..|]. exists y. split; [done|by left].
Qed.

Lemma run_ok s q : run s q -> ide_ok s q.
Proof using AtaLaws0.
  induction 1 as [s Hq Hd|s q b f _ IH Hb|s q b x s' _ IH Hx Hb Hr Hrun|s q j d _ IH Hj Hd|s b q s' _ IH Hd Hrun].
  - split; [apply NoDup_nil_2|done|by apply Forall_nil_2|done].
  - by apply use_ok.
  - destruct (iderw_ok s q b x IH Hx Hb Hr) as (s1 & E & Hok). congruence.
  - by apply (finish_ok s q j).
  - destruct (chain_lookup _ _ _ b (io_chain _ _ IH)) as [x Hx]; [by left|].
    destruct (ideintr_ok s q b x IH Hx Hd) as (s1 & E & Hok & _). congruence.
Qed.

(** Start-up finds the controller idle and leaves it idle with drive 0 selected; the second disk
    is present when the status it shows is not 0. *)
Lemma ideinit_idle s : at_work (port s) = None ->
  exists s', ideinit s = Ret tt s' /\ at_work (port s') = None /\ idequeue s' = idequeue s /\ sectors (port s') = sectors (port s) /\ drive (port s') = 0.
Proof using AtaLaws0.
  intros Hidle. destruct (ata_reg (port s) 0x1f6 (Z.lor 0xe0 (Z.shiftl 1 4)) Hidle) as (W1 & S1 & _); [lia..|by vm_compute|].
  destruct (ata_reg _ 0x1f6 (Z.lor 0xe0 (Z.shiftl 0 4)) W1) as (W2 & S2 & R2); [lia..|by vm_compute|].
  unfold ideinit. rewrite (bind_ret _ _ _ _ _ (idewait_idle false s Hidle)). step_m.
  assert (Hp : forall n s0, exists h, probe n s0 = Ret tt (mkIde (bufs s0) (idequeue s0) h (port s0))).
  { intros n s0. induction n as [|n IH]; [by exists (havedisk1 s0); destruct s0|]. cbn [probe]. step_m. destruct (negb _); [by exists true|done]. }
  destruct (Hp 1000%nat (set_port (outb 0x1f6 (Z.lor 0xe0 (Z.shiftl 1 4)) (port s)) s)) as (h & Eh). rewrite (bind_ret _ _ _ _ _ Eh).
  eexists. split; [reflexivity|]. cbn [port set_port idequeue]. split_and!; [done|done|congruence|]. unfold drive. by rewrite R2.
Qed.

(** C26: in every run of the driver, of the processes that ask for buffers and of the controller,
    the requests are served in the order they came in. A call of iderw with a locked buffer
    that needs the disk returns without a panic, the buffer behind all the others; the
    controller works on the first request only, so no command is given to a busy drive; the
    interrupt takes the first request out and, when the controller reports no error, the buffer
    is then the content of its sector, which for a write is what the process put into it. *)
Theorem requests_served s q : run s q ->
  (forall b x, bufs s !! b = Some x -> (b ∉ q) -> requestable s x -> exists s', iderw b s = Ret tt s' /\ run s' (q ++ [b])) /\
  (forall j, at_work (port s) = Some j -> exists b q' x, q = b :: q' /\ bufs s !! b = Some x /\ j = job_of x) /\
  (forall b q', q = b :: q' -> at_work (port s) = None ->
     exists s' x x', ideintr s = Ret tt s' /\ run s' q' /\ bufs s !! b = Some x /\ bufs s' !! b = Some x' /\
       b_valid x' = true /\ b_dirty x' = false /\ sectors (port s') = sectors (port s) /\
       (failed (inb 0x1f7 (port s)) = false ->
          b_data x' = sectors (port s') (b_dev x mod 2) (b_blockno x) /\ (b_dirty x = true -> b_data x' = b_data x))).
Proof using AtaLaws0.
  intros Hrun. pose proof (run_ok s q Hrun) as Hok. split_and!.
  - intros b x Hx Hb Hr. destruct (iderw_ok s q b x Hok Hx Hb Hr) as (s' & E & _). exists s'. split; [done|]. by apply (run_rw s q b x).
  - intros j Hj. pose proof (io_head _ _ Hok) as Hh. destruct q as [|b q]; cbn [head_ok] in Hh; [congruence|].
    destruct Hh as (x & Hx & [Hw|[Hw _]]); [|congruence]. exists b, q, x. by rewrite Hj in Hw; injection Hw as ->.
  - intros b q' -> Hidle. destruct (io_head _ _ Hok) as (x & Hx & Hh).
    destruct (ideintr_ok s q' b x Hok Hx Hidle) as (s' & E & _ & Hx' & Hs). exists s', x, (after_intr x (port s)).
    do 4 (split; [first [done|by apply (run_intr s b)]|]). split; [by unfold after_intr|]. split; [by unfold after_intr|]. split; [done|].
    intros Hf. rewrite Hs. destruct Hh as [Hw|[_ Hres]]; [congruence|]. specialize (Hres Hf). unfold after_intr. rewrite Hf.
    destruct (b_dirty x); by split.
Qed.

(** An error is lost on the way: the interrupt marks the buffer of a failed read valid, with the
    bytes it had before. *)
Lemma failed_read_marked_valid s q b x : ide_ok s (b :: q) -> bufs s !! b = Some x -> at_work (port s) = None -> b_dirty x = false ->
  failed (inb 0x1f7 (port s)) = true -> exists s', ideintr s = Ret tt s' /\ bufs s' !! b = Some (set_served x).
Proof using AtaLaws0.
  intros Hok Hx Hidle Hd Hf. destruct (ideintr_ok s q b x Hok Hx Hidle) as (s' & E & _ & Hx' & _). exists s'. split; [done|].
  unfold after_intr in Hx'. by rewrite Hd, Hf in Hx'.
Qed.
End Correct.

(** ** A controller *)

Record sim : Type := mkSim { m_regs : Z -> Z; m_sectors : Z -> Z -> list Z; m_job : option job; m_words : list Z; m_error : bool }.
Definition sim_lba (r : Z -> Z) : Z := r 0x1f3 + 2 ^ 8 * r 0x1f4 + 2 ^ 16 * r 0x1f5 + 2 ^ 24 * (r 0x1f6 mod 16).
Definition sim_outb (p v : Z) (m : sim) : sim :=
  if p =? 0x1f7 then
    mkSim (m_regs m) (m_sectors m) (Some (mkJob (v =? IDE_CMD_WRITE) (m_regs m 0x1f6 / 16 mod 2) (sim_lba (m_regs m)) [])) (m_words m) false
  else mkSim (fun q => if decide (q = p) then v else m_regs m q) (m_sectors m) (m_job m) (m_words m) (m_error m).
Definition sim_inb (p : Z) (m : sim) : Z :=
  if p =? 0x1f7 then match m_job m with Some _ => IDE_BSY | None => if m_error m then 0x41 else 0x40 end else m_regs m p.
Definition sim_outsl (p : Z) (ws : list Z) (m : sim) : sim :=
  mkSim (m_regs m) (m_sectors m) ((fun j => mkJob (j_write j) (j_drive j) (j_sector j) ws) <$> m_job m) (m_words m) (m_error m).
Definition sim_done (m : sim) : sim :=
  match m_job m with
  | Some (mkJob true a b ws) => mkSim (m_regs m) (fun a' b' => if decide (a' = a /\ b' = b) then ws else m_sectors m a' b') None (m_words m) false
  | Some (mkJob false a b _) => mkSim (m_regs m) (m_sectors m) None (m_sectors m a b) false
  | None => m
  end.
Definition sim_failed (m : sim) : sim := mkSim (m_regs m) (m_sectors m) None (m_words m) true.
#[export] Instance sim_ata : Ata sim := {
  outb := sim_outb; inb := sim_inb; outsl := sim_outsl; insl := fun _ _ m => m_words m; reg := m_regs; sectors := m_sectors; at_work := m_job;
  finishes := fun m m' => m' = sim_done m \/ m' = sim_failed m
}.
#[export] Instance sim_laws : AtaLaws sim.
Proof.
  split.
  - intros d. cbn. unfold sim_inb. simpl. destruct (m_job d); [by split|]. by destruct (m_error d).
  - intros d p v Hd Hp _ _. cbn. unfold sim_outb. by destruct (Z.eqb_spec p 0x1f7).
  - done.
  - done.
  - intros d d' [w a b ws] Hj [-> | ->]; [|done]. cbn in *. unfold sim_done. rewrite Hj. by destruct w.
Qed.

(** One request to read block 5 comes in while block 3 is written. *)
Definition one_word (w : Z) : list Z := [w].
Definition demo_ide : ide (D := sim) :=
  mkIde [mkBuf 0 3 (one_word 33) true true None true; mkBuf 0 5 (one_word 0) false false None true] None false
    (mkSim (fun _ => 0) (fun _ b => one_word (100 + b)) None [] false).
Definition after {S A} (m : M S A) (s : S) : S := match m s with Ret _ s' => s' | _ => s end.
Definition demo_two : ide (D := sim) := after (iderw 1) (after (iderw 0) demo_ide).
Definition demo_done : ide (D := sim) := set_port (sim_done (port demo_two)) demo_two.

Lemma demo_done_run : run demo_done [0%nat; 1%nat].
Proof.
  apply (run_finish demo_two [0%nat; 1%nat] (mkJob true 0 3 [33])); [|reflexivity|by left].
  apply (run_rw (after (iderw 0) demo_ide) [0%nat] 1 (mkBuf 0 5 (one_word 0) false false None true)); [|reflexivity|set_solver|repeat split; first [by left|vm_compute; congruence]|reflexivity].
  apply (run_rw demo_ide [] 0 (mkBuf 0 3 (one_word 33) true true None true)); [by apply run_start|reflexivity|set_solver|repeat split; first [by left|vm_compute; congruence]|reflexivity].
Qed.

Lemma requests_served_witness :
  run demo_done [0%nat; 1%nat] /\
  exists s' x x', ideintr demo_done = Ret tt s' /\ run s' [1%nat] /\ bufs demo_done !! 0%nat = Some x /\ bufs s' !! 0%nat = Some x' /\
    b_valid x' = true /\ b_dirty x' = false /\ sectors (port s') = sectors (port demo_done) /\
    (failed (inb 0x1f7 (port demo_done)) = false ->
       b_data x' = sectors (port s') (b_dev x mod 2) (b_blockno x) /\ (b_dirty x = true -> b_data x' = b_data x)).
Proof.
  split; [apply demo_done_run|]. destruct (requests_served demo_done [0%nat; 1%nat] demo_done_run) as (_ & _ & K).
  exact (K 0%nat [1%nat] eq_refl eq_refl).
Defined.
