(* ===== verification/Log.v ===== *)
(** * Log: the write-ahead log of the file system (log.c)

    The log is a client of the buffer cache, through [BlockCache]. System calls group their
    writes between begin_op and end_op; the last end_op commits them all. Calls of begin_op,
    end_op and log_write are atomic here: log.lock is held around each, and commit runs with
    [committing] set, which keeps everyone else out. A crash is the disk after a prefix of the
    writes made to it. *)

From S2P Require Import Prelude Memory Spinlock Cache.

Definition LOGSIZE : Z := MAXOPBLOCKS * 3.

Record logstate : Type := mkLog {
  l_start : Z;
  l_size : Z;
  outstanding : Z;
  committing : bool;
  lh_n : Z;
  lh_block : list Z
}.

Record lstate (T : Type) : Type := mkL { lg_cache : T; lg : logstate }.
Arguments mkL {T}.
Arguments lg_cache {T}.
Arguments lg {T}.

(** The on-disk header: the int [n], then the int array [block]. *)
Definition header_n (b : block) : Z := s32 (load32 b 0).
Definition header_block (b : block) (i : nat) : Z := s32 (load32 b (4 * (Z.of_nat i + 1))).
Fixpoint store_blocks (b : block) (l : list Z) (i : nat) : block :=
  match l with [] => b | n :: l => store_blocks (store32 b (4 * (Z.of_nat i + 1)) n) l (S i) end.
Definition store_header (n : Z) (l : list Z) (b : block) : block := store_blocks (store32 b 0 n) l 0.

(** memmove of a whole block. *)
Definition copy_block (src : block) (dst : block) : block := src.

Section Log.
Context {T : Type} `{BlockCache T}.
Abbreviation L := (M (lstate T)).

Definition in_cache {A : Type} (m : M T A) : L A := zoom lg_cache (fun c s => mkL c (lg s)) m.
Definition upd_log (f : logstate -> logstate) : L unit := modify (fun s => mkL (lg_cache s) (f (lg s))).
Definition set_lh (n : Z) (l : list Z) (x : logstate) : logstate :=
  mkLog (l_start x) (l_size x) (outstanding x) (committing x) n l.
Definition set_outstanding (n : Z) (x : logstate) : logstate :=
  mkLog (l_start x) (l_size x) n (committing x) (lh_n x) (lh_block x).
Definition set_committing (b : bool) (x : logstate) : logstate :=
  mkLog (l_start x) (l_size x) (outstanding x) b (lh_n x) (lh_block x).

(** log.lh.block[i], read and written; the array has LOGSIZE entries. *)
Definition get_block (i : nat) : L Z := fun s =>
  match lh_block (lg s) !! i with Some n => Ret n s | None => Fault OutOfRange end.
Definition set_block_no (i : nat) (n : Z) : L unit := fun s =>
  if bool_decide (i < length (lh_block (lg s)))%nat
  then Ret tt (mkL (lg_cache s) (set_lh (lh_n (lg s)) (<[i := n]> (lh_block (lg s))) (lg s)))
  else Fault OutOfRange.

Fixpoint install_loop (tail k : nat) : L unit :=
  match k with
  | O => ret tt
  | S k =>
      x ← gets lg;
      lbuf ← in_cache (cache_bread (l_start x + Z.of_nat tail + 1));
      n ← get_block tail;
      dbuf ← in_cache (cache_bread n);
      src ← in_cache (cache_data lbuf);
      in_cache (cache_store dbuf (copy_block src));;
      in_cache (cache_bwrite dbuf);;
      in_cache (cache_brelse lbuf);;
      in_cache (cache_brelse dbuf);;
      install_loop (S tail) k
  end.
Definition install_trans : L unit := x ← gets lg; install_loop 0 (Z.to_nat (lh_n x)).

Fixpoint read_blocks (hb : block) (i k : nat) : L unit :=
  match k with
  | O => ret tt
  | S k => set_block_no i (header_block hb i);; read_blocks hb (S i) k
  end.
Definition read_head : L unit :=
  x ← gets lg;
  b ← in_cache (cache_bread (l_start x));
  hb ← in_cache (cache_data b);
  upd_log (fun y => set_lh (header_n hb) (lh_block y) y);;
  read_blocks hb 0 (Z.to_nat (header_n hb));;
  in_cache (cache_brelse b).

Definition write_head : L unit :=
  x ← gets lg;
  b ← in_cache (cache_bread (l_start x));
  in_cache (cache_store b (store_header (lh_n x) (take (Z.to_nat (lh_n x)) (lh_block x))));;
  in_cache (cache_bwrite b);;
  in_cache (cache_brelse b).

Definition recover_from_log : L unit :=
  read_head;;
  install_trans;;
  upd_log (fun y => set_lh 0 (lh_block y) y);;
  write_head.

(** initlog, given the superblock's logstart and nlog. *)
Definition initlog (logstart nlog : Z) : L unit :=
  upd_log (fun y => mkLog logstart nlog (outstanding y) (committing y) (lh_n y) (lh_block y));;
  recover_from_log.

(** The caller waits for a commit, or for space, until another process acts. *)
Definition begin_op : L unit :=
  x ← gets lg;
  if committing x then spin
  else if LOGSIZE <? lh_n x + (outstanding x + 1) * MAXOPBLOCKS then spin
  else upd_log (fun y => set_outstanding (outstanding y + 1) y).

Fixpoint write_log_loop (tail k : nat) : L unit :=
  match k with
  | O => ret tt
  | S k =>
      x ← gets lg;
      to ← in_cache (cache_bread (l_start x + Z.of_nat tail + 1));
      n ← get_block tail;
      from ← in_cache (cache_bread n);
      src ← in_cache (cache_data from);
      in_cache (cache_store to (copy_block src));;
      in_cache (cache_bwrite to);;
      in_cache (cache_brelse from);;
      in_cache (cache_brelse to);;
      write_log_loop (S tail) k
  end.
Definition write_log : L unit := x ← gets lg; write_log_loop 0 (Z.to_nat (lh_n x)).

Definition commit : L unit :=
  x ← gets lg;
  when (0 <? lh_n x) (
    write_log;;
    write_head;;
    install_trans;;
    upd_log (fun y => set_lh 0 (lh_block y) y);;
    write_head).

Definition end_op : L unit :=
  upd_log (fun y => set_outstanding (outstanding y - 1) y);;
  x ← gets lg;
  panic_if (committing x) "log.committing";;
  when (outstanding x =? 0) (
    upd_log (set_committing true);;
    commit;;
    upd_log (set_committing false)).

Definition log_write (b : nat) : L unit :=
  x ← gets lg;
  panic_if ((LOGSIZE <=? lh_n x) || (l_size x - 1 <=? lh_n x)) "too big a transaction";;
  panic_if (outstanding x <? 1) "log_write outside of trans";;
  no ← in_cache (cache_blockno b);
  let i := default (Z.to_nat (lh_n x)) (find_index (fun n => n =? no) (take (Z.to_nat (lh_n x)) (lh_block x))) in
  set_block_no i no;;
  when (bool_decide (i = Z.to_nat (lh_n x))) (upd_log (fun y => set_lh (lh_n y + 1) (lh_block y) y));;
  in_cache (cache_pin b).

(** ** Runs of the cache, as the log sees them *)

Implicit Types (s : lstate T) (v w : cview).

(** [v'] is [v] after the writes [ws] through the cache, with the buffers held as before. *)
Record wrote (ws : list (Z * block)) v v' : Prop := {
  w_data : forall m, v_data v' m = apply_writes ws (v_data v) m;
  w_disk : forall m, v_disk v' m = apply_writes ws (v_disk v) m;
  w_pinned : v_pinned v' = v_pinned v ∖ list_to_set ws.*1;
  w_held : v_held v' = v_held v;
  w_writes : v_writes v' = v_writes v ++ ws
}.

Lemma wrote_nil v : wrote [] v v.
Proof. split; simpl; try done; [set_solver|by rewrite app_nil_r]. Qed.

Lemma apply_writes_ext ws d d' m : (forall k, d k = d' k) -> apply_writes ws d m = apply_writes ws d' m.
Proof.
  revert d d'. induction ws as [|[n x] ws IH]; intros d d' E; [apply E|]. simpl. apply IH.
  intros k. rewrite !upd_block_cases, E. done.
Qed.

Lemma wrote_app ws1 ws2 v v1 v2 : wrote ws1 v v1 -> wrote ws2 v1 v2 -> wrote (ws1 ++ ws2) v v2.
Proof.
  intros [A1 A2 A3 A4 A5] [B1 B2 B3 B4 B5]. split.
  - intros m. rewrite apply_writes_app, B1. by apply apply_writes_ext.
  - intros m. rewrite apply_writes_app, B2. by apply apply_writes_ext.
  - rewrite B3, A3, fmap_app, list_to_set_app_L. set_solver.
  - congruence.
  - by rewrite B5, A5, app_assoc.
Qed.

Lemma in_cache_run {A : Type} (m : M T A) s a c :
  m (lg_cache s) = Ret a c -> in_cache m s = Ret a (mkL c (lg s)).
Proof. intros E. unfold in_cache, zoom. by rewrite E. Qed.

Definition room v : Prop := (size (v_pinned v ∪ v_held v) < cache_size)%nat.

(** Copying block [a] over block [b] through two buffers, once both are held. *)
Lemma copy_run s v i j a b (k : L unit) :
  cache_rep (lg_cache s) v -> cache_buf (lg_cache s) i a -> cache_buf (lg_cache s) j b -> a <> b ->
  a ∈ v_pinned v \/ v_data v a = v_disk v a ->
  exists s' v', (src ← in_cache (cache_data i); in_cache (cache_store j (copy_block src));;
      in_cache (cache_bwrite j);; in_cache (cache_brelse i);; in_cache (cache_brelse j);; k) s = k s' /\
    lg s' = lg s /\ cache_blocks (lg_cache s') = cache_blocks (lg_cache s) /\
    cache_rep (lg_cache s') v' /\
    (forall m, v_data v' m = upd_block (v_data v) b (v_data v a) m) /\
    (forall m, v_disk v' m = upd_block (v_disk v) b (v_data v a) m) /\
    v_pinned v' = v_pinned v ∖ {[b]} /\ v_held v' = (v_held v ∖ {[a]}) ∖ {[b]} /\
    v_writes v' = v_writes v ++ [(b, v_data v a)].
Proof.
  intros Hr Ha Hb Hne Hclean.
  rewrite (bind_ret _ _ _ _ _ (in_cache_run _ s _ _ (data_law _ _ _ _ Hr Ha))). set (s0 := mkL _ _).
  destruct (store_law _ _ _ _ (copy_block (v_data v a)) Hr Hb) as (c1 & E1 & R1 & I1 & Z1).
  rewrite (bind_ret _ _ _ _ _ (in_cache_run _ s0 _ _ E1)). set (s1 := mkL _ _).
  destruct (bwrite_law _ _ _ _ R1 (I1 _ _ Hb)) as (c2 & E2 & R2 & I2 & Z2).
  rewrite (bind_ret _ _ _ _ _ (in_cache_run _ s1 _ _ E2)). set (s2 := mkL _ _).
  destruct (brelse_law _ _ _ _ R2 (I2 _ _ (I1 _ _ Ha))) as (c3 & E3 & R3 & I3 & Z3).
  { unfold v_write, v_store. simpl. rewrite !upd_block_ne by done. destruct Hclean; [left; set_solver|by right]. }
  rewrite (bind_ret _ _ _ _ _ (in_cache_run _ s2 _ _ E3)). set (s3 := mkL _ _).
  destruct (brelse_law _ _ _ _ R3 (I3 _ _ (not_eq_sym Hne) (I2 _ _ (I1 _ _ Hb)))) as (c4 & E4 & R4 & I4 & Z4).
  { right. simpl. by rewrite !upd_block_eq. }
  rewrite (bind_ret _ _ _ _ _ (in_cache_run _ s3 _ _ E4)).
  eexists _, _. split; [reflexivity|]. split; [done|]. split; [simpl; congruence|]. split; [exact R4|].
  simpl. split_and!; try done.
  - intros m. by rewrite upd_block_eq.
  - unfold copy_block. by rewrite upd_block_eq.
Qed.

(** Where the log lies on the disk, and the blocks that are not part of it. *)
Record geom (x : logstate) (blocks : Z) : Prop := {
  g_start : 0 <= l_start x;
  g_size : 1 <= l_size x;
  g_end : l_start x + l_size x <= blocks <= 2 ^ 31;
  g_cache : l_size x <= Z.of_nat cache_size /\ (2 < cache_size)%nat;
  g_array : length (lh_block x) = Z.to_nat LOGSIZE
}.
Definition data_block (x : logstate) (n : Z) : Prop := ~ (l_start x <= n < l_start x + l_size x).
Definition slot (x : logstate) (i : nat) : Z := l_start x + Z.of_nat i + 1.

(** The writes write_log and install_trans make for the blocks [l], from slot [i] on. *)
Fixpoint log_writes (x : logstate) (d : Z -> block) (i : nat) (l : list Z) : list (Z * block) :=
  match l with [] => [] | n :: l => (slot x i, d n) :: log_writes x d (S i) l end.
Fixpoint install_writes (x : logstate) (d : Z -> block) (i : nat) (l : list Z) : list (Z * block) :=
  match l with [] => [] | n :: l => (n, d (slot x i)) :: install_writes x d (S i) l end.

Lemma log_writes_ext x d d' i l :
  (forall n, n ∈ l -> d n = d' n) -> log_writes x d i l = log_writes x d' i l.
Proof.
  revert i. induction l as [|n l IH]; intros i E; [done|]. simpl. rewrite E by by left.
  f_equal. apply IH. intros m Hm. apply E. by right.
Qed.
Lemma install_writes_ext x d d' i l :
  (forall j, (i <= j < i + length l)%nat -> d (slot x j) = d' (slot x j)) ->
  install_writes x d i l = install_writes x d' i l.
Proof.
  revert i. induction l as [|n l IH]; intros i E; [done|]. simpl. rewrite E by (simpl; lia).
  f_equal. apply IH. intros m Hm. apply E. simpl. lia.
Qed.

(** Only where the log starts matters. *)
Lemma install_writes_start x y d i l : l_start x = l_start y -> install_writes x d i l = install_writes y d i l.
Proof. intros E. revert i. induction l as [|n l IH]; intros i; [done|]. simpl. unfold slot. by rewrite E, IH. Qed.

Lemma get_block_run s i n : lh_block (lg s) !! i = Some n -> get_block i s = Ret n s.
Proof. intros E. unfold get_block. by rewrite E. Qed.

(** What a piece of log code leaves alone. *)
Definition same_log s s' : Prop := lg s' = lg s /\ cache_blocks (lg_cache s') = cache_blocks (lg_cache s).

Lemma bread_run s v n (k : nat -> L unit) :
  cache_rep (lg_cache s) v -> n ∉ v_held v -> 0 <= n < cache_blocks (lg_cache s) ->
  n ∈ v_pinned v \/ room v ->
  exists i c, (i ← in_cache (cache_bread n); k i) s = k i (mkL c (lg s)) /\ cache_rep c (v_hold n v) /\
    cache_buf c i n /\ (forall j m, cache_buf (lg_cache s) j m -> cache_buf c j m) /\
    cache_blocks c = cache_blocks (lg_cache s).
Proof.
  intros Hr Hn Hrg Hroom. destruct (bread_law _ _ _ Hr Hn Hrg Hroom) as (i & c & E & R & I & Ho & Z).
  exists i, c. split; [|done]. by rewrite (bind_ret _ _ _ _ _ (in_cache_run _ _ _ _ E)).
Qed.

Lemma write_log_loop_run k : forall tail s v,
  cache_rep (lg_cache s) v -> geom (lg s) (cache_blocks (lg_cache s)) -> v_held v = ∅ ->
  (size (v_pinned v) < cache_size)%nat -> Z.of_nat (tail + k) < l_size (lg s) ->
  (tail + k <= length (lh_block (lg s)))%nat ->
  (forall n, n ∈ take k (drop tail (lh_block (lg s))) ->
     data_block (lg s) n /\ 0 <= n < cache_blocks (lg_cache s) /\ n ∈ v_pinned v) ->
  exists s' v', write_log_loop tail k s = Ret tt s' /\ same_log s s' /\ cache_rep (lg_cache s') v' /\
    wrote (log_writes (lg s) (v_data v) tail (take k (drop tail (lh_block (lg s))))) v v'.
Proof.
  induction k as [|k IH]; intros tail s v Hr Hg Hh Hsz Htl Hlen Hall.
  { exists s, v. split; [done|]. split; [done|]. split; [done|]. apply wrote_nil. }
  destruct (lookup_lt_is_Some_2 (lh_block (lg s)) tail) as [n Hn]; [lia|].
  assert (Htake : take (S k) (drop tail (lh_block (lg s))) = n :: take k (drop (S tail) (lh_block (lg s))))
    by (by rewrite (drop_S _ _ _ Hn)).
  rewrite Htake in Hall |- *. destruct (Hall n ltac:(by left)) as (Hdn & Hrn & Hpn).
  set (sl := slot (lg s) tail).
  assert (Hsl : 0 <= sl < cache_blocks (lg_cache s) /\ ~ data_block (lg s) sl).
  { destruct Hg. unfold sl, slot, data_block. lia. }
  destruct Hsl as [Hsl1 Hsl2]. assert (Hne : n <> sl) by (intros E; rewrite E in Hdn; done).
  cbn [write_log_loop]. erewrite bind_ret by reflexivity. fold sl.
  change (l_start (lg s) + Z.of_nat tail + 1) with sl.
  destruct (bread_run s v sl (fun to => n' ← get_block tail; from ← in_cache (cache_bread n');
    src ← in_cache (cache_data from); in_cache (cache_store to (copy_block src));; in_cache (cache_bwrite to);;
    in_cache (cache_brelse from);; in_cache (cache_brelse to);; write_log_loop (S tail) k))
    as (to & c1 & E1 & R1 & I1 & _ & Z1); [done|rewrite Hh; apply not_elem_of_empty|done| |].
  { right. unfold room. rewrite Hh, union_empty_r_L. done. }
  rewrite E1. set (s1 := mkL c1 (lg s)). erewrite bind_ret by (apply (get_block_run s1); exact Hn).
  destruct (bread_run s1 (v_hold sl v) n (fun from =>
    src ← in_cache (cache_data from); in_cache (cache_store to (copy_block src));; in_cache (cache_bwrite to);;
    in_cache (cache_brelse from);; in_cache (cache_brelse to);; write_log_loop (S tail) k))
    as (from & c2 & E2 & R2 & I2 & O2 & Z2); [done|simpl; rewrite Hh; set_solver|simpl; lia|by left|].
  rewrite E2. set (s2 := mkL c2 (lg s1)).
  destruct (copy_run s2 (v_hold n (v_hold sl v)) from to n sl (write_log_loop (S tail) k) R2 I2 (O2 _ _ I1) Hne)
    as (s3 & v3 & E3 & L3 & Z3 & R3 & D3 & K3 & P3 & H3 & W3); [by left|].
  rewrite E3. simpl in D3, K3, P3, H3, W3.
  assert (Hlg : lg s3 = lg s) by done.
  assert (Hblocks : cache_blocks (lg_cache s3) = cache_blocks (lg_cache s)) by exact (eq_trans Z3 (eq_trans Z2 Z1)).
  assert (Hd3 : forall m, m <> sl -> v_data v3 m = v_data v m) by (intros m Hm; rewrite D3; by apply upd_block_ne).
  assert (Hw1 : wrote [(sl, v_data v n)] v v3).
  { split; simpl; [done|done|rewrite P3; set_solver|rewrite H3, Hh; set_solver|done]. }
  destruct (IH (S tail) s3 v3) as (s4 & v4 & E4 & L4 & R4 & W4); rewrite ?Hlg, ?Hblocks; try done.
  - rewrite H3, Hh. set_solver.
  - rewrite P3. eapply Nat.le_lt_trans; [|exact Hsz]. apply subseteq_size. set_solver.
  - lia.
  - lia.
  - intros m Hm. destruct (Hall m ltac:(by right)) as (H1 & H2 & H4). split_and!; try done; [lia..|].
    rewrite P3. apply elem_of_difference. split; [done|]. rewrite elem_of_singleton.
    intros E. rewrite E in H1. done.
  - exists s4, v4. split; [done|]. split; [split; [by destruct L4 as [-> _]|destruct L4; congruence]|].
    split; [done|]. cbn [log_writes]. fold sl. apply (wrote_app [_] _ _ v3); [done|].
    rewrite Hlg in W4. erewrite log_writes_ext; [exact W4|]. intros m Hm. simpl. symmetry. apply Hd3.
    destruct (Hall m ltac:(by right)) as (H1 & _). intros E. rewrite E in H1. done.
Qed.

Lemma install_loop_run k : forall tail s v,
  cache_rep (lg_cache s) v -> geom (lg s) (cache_blocks (lg_cache s)) -> v_held v = ∅ ->
  (size (v_pinned v) < cache_size)%nat -> Z.of_nat (tail + k) < l_size (lg s) ->
  (tail + k <= length (lh_block (lg s)))%nat ->
  NoDup (take k (drop tail (lh_block (lg s)))) ->
  (forall j, Z.of_nat j + 1 < l_size (lg s) -> slot (lg s) j ∉ v_pinned v) ->
  (forall n, n ∈ take k (drop tail (lh_block (lg s))) ->
     data_block (lg s) n /\ 0 <= n < cache_blocks (lg_cache s) /\ (n ∈ v_pinned v \/ v_pinned v = ∅)) ->
  exists s' v', install_loop tail k s = Ret tt s' /\ same_log s s' /\ cache_rep (lg_cache s') v' /\
    wrote (install_writes (lg s) (v_data v) tail (take k (drop tail (lh_block (lg s))))) v v'.
Proof.
  induction k as [|k IH]; intros tail s v Hr Hg Hh Hsz Htl Hlen Hnd Hslots Hall.
  { exists s, v. split; [done|]. split; [done|]. split; [done|]. apply wrote_nil. }
  destruct (lookup_lt_is_Some_2 (lh_block (lg s)) tail) as [n Hn]; [lia|].
  assert (Htake : take (S k) (drop tail (lh_block (lg s))) = n :: take k (drop (S tail) (lh_block (lg s))))
    by (by rewrite (drop_S _ _ _ Hn)).
  rewrite Htake in Hall, Hnd |- *. destruct (Hall n ltac:(by left)) as (Hdn & Hrn & Hpn).
  apply NoDup_cons in Hnd as [Hnin Hnd].
  set (sl := slot (lg s) tail).
  assert (Hsl : 0 <= sl < cache_blocks (lg_cache s) /\ ~ data_block (lg s) sl).
  { destruct Hg. unfold sl, slot, data_block. lia. }
  destruct Hsl as [Hsl1 Hsl2]. assert (Hne : n <> sl) by (intros E; rewrite E in Hdn; done).
  cbn [install_loop]. erewrite bind_ret by reflexivity.
  change (l_start (lg s) + Z.of_nat tail + 1) with sl.
  destruct (bread_run s v sl (fun lbuf => n' ← get_block tail; dbuf ← in_cache (cache_bread n');
    src ← in_cache (cache_data lbuf); in_cache (cache_store dbuf (copy_block src));; in_cache (cache_bwrite dbuf);;
    in_cache (cache_brelse lbuf);; in_cache (cache_brelse dbuf);; install_loop (S tail) k))
    as (lbuf & c1 & E1 & R1 & I1 & _ & Z1); [done|rewrite Hh; apply not_elem_of_empty|done| |].
  { right. unfold room. rewrite Hh, union_empty_r_L. done. }
  rewrite E1. set (s1 := mkL c1 (lg s)). erewrite bind_ret by (apply (get_block_run s1); exact Hn).
  destruct (bread_run s1 (v_hold sl v) n (fun dbuf =>
    src ← in_cache (cache_data lbuf); in_cache (cache_store dbuf (copy_block src));; in_cache (cache_bwrite dbuf);;
    in_cache (cache_brelse lbuf);; in_cache (cache_brelse dbuf);; install_loop (S tail) k))
    as (dbuf & c2 & E2 & R2 & I2 & O2 & Z2); [done|simpl; rewrite Hh; set_solver|simpl; lia| |].
  { destruct Hpn as [Hpn|Hpn]; [by left|right]. unfold room. simpl. rewrite Hpn, Hh, union_empty_l_L, union_empty_r_L.
    rewrite size_singleton. destruct Hg. lia. }
  rewrite E2. set (s2 := mkL c2 (lg s1)).
  destruct (copy_run s2 (v_hold n (v_hold sl v)) lbuf dbuf sl n (install_loop (S tail) k) R2 (O2 _ _ I1) I2 (not_eq_sym Hne))
    as (s3 & v3 & E3 & L3 & Z3 & R3 & D3 & K3 & P3 & H3 & W3).
  { right. apply (clean_law _ _ _ Hr); [apply Hslots; lia|]. rewrite Hh. apply not_elem_of_empty. }
  rewrite E3. simpl in D3, K3, P3, H3, W3.
  assert (Hlg : lg s3 = lg s) by done.
  assert (Hblocks : cache_blocks (lg_cache s3) = cache_blocks (lg_cache s)) by exact (eq_trans Z3 (eq_trans Z2 Z1)).
  assert (Hd3 : forall m, m <> n -> v_data v3 m = v_data v m) by (intros m Hm; rewrite D3; by apply upd_block_ne).
  assert (Hw1 : wrote [(n, v_data v sl)] v v3).
  { split; simpl; [done|done|rewrite P3; set_solver|rewrite H3, Hh; set_solver|done]. }
  destruct (IH (S tail) s3 v3) as (s4 & v4 & E4 & L4 & R4 & W4); rewrite ?Hlg, ?Hblocks; try done.
  - rewrite H3, Hh. set_solver.
  - rewrite P3. eapply Nat.le_lt_trans; [|exact Hsz]. apply subseteq_size. set_solver.
  - lia.
  - lia.
  - intros j Hj. rewrite P3. specialize (Hslots j Hj). set_solver.
  - intros m Hm. destruct (Hall m ltac:(by right)) as (H1 & H2 & H4). split_and!; try done; [lia..|].
    rewrite P3. destruct H4 as [H4|H4]; [left|right; rewrite H4; set_solver].
    apply elem_of_difference. split; [done|]. rewrite elem_of_singleton. intros ->. done.
  - exists s4, v4. split; [done|]. split; [split; [by destruct L4 as [-> _]|destruct L4; congruence]|].
    split; [done|]. cbn [install_writes]. fold sl. apply (wrote_app [_] _ _ v3); [done|].
    rewrite Hlg in W4. erewrite install_writes_ext; [exact W4|]. intros j Hj. simpl. symmetry. apply Hd3.
    intros E. rewrite <- E in Hdn. apply Hdn. destruct Hg. unfold slot.
    rewrite length_take, length_drop in Hj. lia.
Qed.

Lemma write_head_run s v :
  cache_rep (lg_cache s) v -> geom (lg s) (cache_blocks (lg_cache s)) -> v_held v = ∅ ->
  (size (v_pinned v) < cache_size)%nat ->
  exists s' v', write_head s = Ret tt s' /\ same_log s s' /\ cache_rep (lg_cache s') v' /\
    wrote [(l_start (lg s), store_header (lh_n (lg s)) (take (Z.to_nat (lh_n (lg s))) (lh_block (lg s)))
                               (v_data v (l_start (lg s))))] v v'.
Proof.
  intros Hr Hg Hh Hsz. unfold write_head. erewrite bind_ret by reflexivity.
  set (st := l_start (lg s)). set (f := store_header _ _).
  destruct (bread_run s v st (fun b => in_cache (cache_store b f);; in_cache (cache_bwrite b);; in_cache (cache_brelse b)))
    as (b & c1 & E1 & R1 & I1 & _ & Z1);
    [done|rewrite Hh; apply not_elem_of_empty|unfold st; destruct Hg; lia|right; unfold room; by rewrite Hh, union_empty_r_L|].
  rewrite E1. set (s1 := mkL c1 (lg s)).
  destruct (store_law _ _ _ _ f R1 I1) as (c2 & E2 & R2 & I2 & Z2).
  rewrite (bind_ret _ _ _ _ _ (in_cache_run _ s1 _ _ E2)). set (s2 := mkL _ _).
  destruct (bwrite_law _ _ _ _ R2 (I2 _ _ I1)) as (c3 & E3 & R3 & I3 & Z3).
  rewrite (bind_ret _ _ _ _ _ (in_cache_run _ s2 _ _ E3)). set (s3 := mkL _ _).
  destruct (brelse_law _ _ _ _ R3 (I3 _ _ (I2 _ _ I1))) as (c4 & E4 & R4 & _ & Z4).
  { right. simpl. by rewrite !upd_block_eq. }
  rewrite (in_cache_run _ s3 _ _ E4). eexists _, _. split; [reflexivity|]. split; [split; [done|simpl; congruence]|].
  split; [exact R4|]. split; simpl.
  - intros m. done.
  - intros m. by rewrite upd_block_eq.
  - set_solver.
  - rewrite Hh. set_solver.
  - by rewrite upd_block_eq.
Qed.

(** ** Sequences of writes *)

Lemma log_writes_take x d i l k : take k (log_writes x d i l) = log_writes x d i (take k l).
Proof. revert i k. induction l as [|n l IH]; intros i [|k]; [done..|]. simpl. by rewrite IH. Qed.

Lemma log_writes_keys x d i l n :
  n ∈ (log_writes x d i l).*1 -> exists j, (i <= j < i + length l)%nat /\ n = slot x j.
Proof.
  revert i. induction l as [|m l IH]; intros i; [by intros ?%elem_of_nil|]. simpl.
  intros [->|Hn]%elem_of_cons; [exists i; split; [lia|done]|].
  destruct (IH _ Hn) as (j & Hj & ->). exists j. split; [lia|done].
Qed.

Lemma slot_inj x i j : slot x i = slot x j -> i = j.
Proof. unfold slot. lia. Qed.

Lemma apply_log_writes x d d0 l i j n :
  l !! j = Some n -> apply_writes (log_writes x d i l) d0 (slot x (i + j)) = d n.
Proof.
  revert d0 i j. induction l as [|m l IH]; intros d0 i j Hj; [done|]. cbn [log_writes].
  change (apply_writes (log_writes x d (S i) l) (upd_block d0 (slot x i) (d m)) (slot x (i + j)) = d n).
  destruct j as [|j].
  - injection Hj as ->. rewrite Nat.add_0_r, apply_writes_out; [by rewrite upd_block_eq|].
    intros (j & Hj & E)%log_writes_keys. apply slot_inj in E. lia.
  - replace (i + S j)%nat with (S i + j)%nat by lia. by apply IH.
Qed.

(** Writing home what [d] holds. *)
Definition home_writes (d : Z -> block) (l : list Z) : list (Z * block) := map (fun n => (n, d n)) l.

Lemma apply_home_writes d d0 l m :
  apply_writes (home_writes d l) d0 m = if decide (m ∈ l) then d m else d0 m.
Proof.
  revert d0. induction l as [|n l IH]; intros d0; [by rewrite decide_False by apply not_elem_of_nil|].
  cbn [home_writes map]. change (apply_writes (home_writes d l) (upd_block d0 n (d n)) m = if decide (m ∈ n :: l) then d m else d0 m).
  rewrite IH, upd_block_cases.
  destruct (decide (m ∈ l)); [by rewrite decide_True by by right|].
  destruct (decide (m = n)) as [->|]; [by rewrite decide_True by by left|].
  rewrite decide_False; [done|]. by rewrite not_elem_of_cons.
Qed.

Lemma install_writes_home x d d' l i :
  (forall j n, l !! j = Some n -> d' (slot x (i + j)) = d n) -> install_writes x d' i l = home_writes d l.
Proof.
  revert i. induction l as [|n l IH]; intros i E; [done|]. simpl. f_equal.
  - f_equal. by rewrite <- (E 0%nat n), Nat.add_0_r.
  - apply IH. intros j m Hj. rewrite <- (E (S j) m Hj). do 2 f_equal. lia.
Qed.

(** Everything commit writes, when [d] is what the cache shows. *)
Definition commit_writes (x : logstate) (d : Z -> block) (l : list Z) : list (Z * block) :=
  let h := store_header (Z.of_nat (length l)) l (d (l_start x)) in
  log_writes x d 0 l ++ [(l_start x, h)] ++ home_writes d l ++ [(l_start x, store_header 0 [] h)].

Definition logged (x : logstate) : list Z := take (Z.to_nat (lh_n x)) (lh_block x).

(** Between operations: nothing is held, the logged blocks are the pinned ones, and the log on
    the disk is empty. *)
Record log_ok s v : Prop := {
  lo_rep : cache_rep (lg_cache s) v;
  lo_geom : geom (lg s) (cache_blocks (lg_cache s));
  lo_held : v_held v = ∅;
  lo_n : 0 <= lh_n (lg s) < l_size (lg s) /\ lh_n (lg s) <= LOGSIZE;
  lo_nodup : NoDup (logged (lg s));
  lo_pinned : v_pinned v = list_to_set (logged (lg s));
  lo_blocks : forall n, n ∈ logged (lg s) -> data_block (lg s) n /\ 0 <= n < cache_blocks (lg_cache s);
  lo_header : header_n (v_disk v (l_start (lg s))) = 0
}.

Lemma logged_length s v : log_ok s v -> length (logged (lg s)) = Z.to_nat (lh_n (lg s)).
Proof.
  intros Ho. destruct (lo_n _ _ Ho), (lo_geom _ _ Ho). unfold logged. rewrite length_take, g_array0. unfold LOGSIZE, MAXOPBLOCKS in *. lia.
Qed.

Lemma log_ok_size s v : log_ok s v -> (size (v_pinned v) < cache_size)%nat.
Proof.
  intros Ho. rewrite (lo_pinned _ _ Ho), size_list_to_set by apply (lo_nodup _ _ Ho).
  rewrite (logged_length _ _ Ho). destruct (lo_n _ _ Ho), (lo_geom _ _ Ho). lia.
Qed.

Lemma log_region_unpinned s v n : log_ok s v -> ~ data_block (lg s) n -> n ∉ v_pinned v.
Proof.
  intros Ho Hn Hp. rewrite (lo_pinned _ _ Ho), elem_of_list_to_set in Hp.
  by destruct (lo_blocks _ _ Ho _ Hp).
Qed.
Lemma log_clean s v n : log_ok s v -> n ∉ logged (lg s) -> v_data v n = v_disk v n.
Proof.
  intros Ho Hn. apply (clean_law _ _ _ (lo_rep _ _ Ho)).
  - by rewrite (lo_pinned _ _ Ho), elem_of_list_to_set.
  - rewrite (lo_held _ _ Ho). apply not_elem_of_empty.
Qed.

Lemma wrote_size ws v v' : wrote ws v v' -> (size (v_pinned v) < cache_size)%nat -> (size (v_pinned v') < cache_size)%nat.
Proof. intros W Hs. eapply Nat.le_lt_trans; [|exact Hs]. apply subseteq_size. rewrite (w_pinned _ _ _ W). set_solver. Qed.

Lemma upd_log_run f s : upd_log f s = Ret tt (mkL (lg_cache s) (f (lg s))).
Proof. done. Qed.

(** commit up to its first write_head: the blocks are in the log, and the header names them. *)
Lemma write_log_run s v : log_ok s v ->
  let x := lg s in let l := logged x in
  exists s1 s2 v2, write_log s = Ret tt s1 /\ write_head s1 = Ret tt s2 /\ lg s2 = x /\
    cache_blocks (lg_cache s2) = cache_blocks (lg_cache s) /\ cache_rep (lg_cache s2) v2 /\
    wrote (log_writes x (v_data v) 0 l ++ [(l_start x, store_header (Z.of_nat (length l)) l (v_data v (l_start x)))]) v v2.
Proof.
  intros Ho. cbn zeta. pose proof (log_ok_size _ _ Ho) as Hsz. pose proof (logged_length _ _ Ho) as Hlen.
  pose proof (lo_geom _ _ Ho) as Hg. pose proof (lo_n _ _ Ho) as [Hn Hn'].
  assert (Harr : length (lh_block (lg s)) = Z.to_nat LOGSIZE) by apply Hg.
  set (x := lg s) in *. set (l := logged x) in *. set (n := Z.to_nat (lh_n x)) in *.
  assert (Hl : take n (drop 0 (lh_block x)) = l) by done.
  (* write_log *)
  destruct (write_log_loop_run n 0 s v) as (s1 & v1 & E1 & L1 & R1 & W1); try done;
    [apply (lo_rep _ _ Ho)|apply (lo_held _ _ Ho)|fold x; lia|fold x; unfold LOGSIZE, MAXOPBLOCKS in *; lia|..].
  { fold x. rewrite Hl. intros m Hm. destruct (lo_blocks _ _ Ho _ Hm) as [H1 H2]. split_and!; try done; [lia..|].
    by rewrite (lo_pinned _ _ Ho), elem_of_list_to_set. }
  fold x in W1. rewrite Hl in W1.
  assert (Ew : write_log s = Ret tt s1) by (unfold write_log; erewrite bind_ret by reflexivity; exact E1).
  destruct L1 as [L1 Z1]. fold x in L1.
  (* write_head *)
  destruct (write_head_run s1 v1) as (s2 & v2 & E2 & [L2 Z2] & R2 & W2);
    [done|by rewrite L1, Z1|by rewrite (w_held _ _ _ W1), (lo_held _ _ Ho)|by eapply wrote_size|].
  rewrite L1 in W2, L2. fold (logged x) l in W2.
  assert (Hst : v_data v1 (l_start x) = v_data v (l_start x)).
  { rewrite (w_data _ _ _ W1). apply apply_writes_out. intros (j & _ & E)%log_writes_keys. unfold slot in E. lia. }
  rewrite Hst in W2. fold n in W2.
  assert (Hnl : lh_n x = Z.of_nat (length l)) by (rewrite Hlen; lia). rewrite Hnl in W2 at 1.
  exists s1, s2, v2. split_and!; try done; [congruence|]. by apply (wrote_app _ _ _ _ _ W1 W2).
Qed.

Lemma commit_run s v :
  log_ok s v -> 0 < lh_n (lg s) ->
  exists s' v', commit s = Ret tt s' /\ lg s' = set_lh 0 (lh_block (lg s)) (lg s) /\
    cache_blocks (lg_cache s') = cache_blocks (lg_cache s) /\ cache_rep (lg_cache s') v' /\
    wrote (commit_writes (lg s) (v_data v) (logged (lg s))) v v'.
Proof.
  intros Ho Hpos. pose proof (log_ok_size _ _ Ho) as Hsz. pose proof (logged_length _ _ Ho) as Hlen.
  pose proof (lo_geom _ _ Ho) as Hg. pose proof (lo_n _ _ Ho) as [Hn Hn'].
  assert (Harr : length (lh_block (lg s)) = Z.to_nat LOGSIZE) by apply Hg.
  set (x := lg s) in *. set (l := logged x) in *. set (n := Z.to_nat (lh_n x)) in *.
  assert (Hl : take n (drop 0 (lh_block x)) = l) by done.
  unfold commit. erewrite bind_ret by reflexivity. fold x. rewrite (proj2 (Z.ltb_lt _ _) Hpos). cbn [when].
  destruct (write_log_run s v Ho) as (s1 & s2 & v2 & Ew & E2 & L2 & Z2 & R2 & W12). fold x l in W12, L2.
  rewrite (bind_ret _ _ _ _ _ Ew), (bind_ret _ _ _ _ _ E2).
  set (h := store_header (Z.of_nat (length l)) l (v_data v (l_start x))) in *.
  (* install_trans *)
  assert (Hp2 : forall m, data_block x m -> m ∈ v_pinned v -> m ∈ v_pinned v2).
  { intros m Hm Hpm. rewrite (w_pinned _ _ _ W12). apply elem_of_difference. split; [done|].
    rewrite elem_of_list_to_set, fmap_app, elem_of_app. intros [(j & Hj & ->)%log_writes_keys|Hj].
    - apply Hm. unfold slot. simpl in Hj. lia.
    - simpl in Hj. apply list_elem_of_singleton in Hj. subst m. apply Hm. destruct Hg. lia. }
  destruct (install_loop_run n 0 s2 v2) as (s3 & v3 & E3 & [L3 Z3] & R3 & W3); rewrite ?L2, ?Z2; try done.
  { by rewrite (w_held _ _ _ W12), (lo_held _ _ Ho). }
  { by eapply wrote_size. }
  { lia. }
  { unfold LOGSIZE, MAXOPBLOCKS in *; lia. }
  { rewrite Hl. apply (lo_nodup _ _ Ho). }
  { intros j Hj Hp. apply (log_region_unpinned _ _ (slot x j) Ho); [unfold data_block, slot; fold x; lia|].
    rewrite (w_pinned _ _ _ W12) in Hp. set_solver. }
  { rewrite Hl. intros m Hm. destruct (lo_blocks _ _ Ho _ Hm) as [H1 H2]. split_and!; try done; [lia..|].
    left. apply Hp2; [done|]. by rewrite (lo_pinned _ _ Ho), elem_of_list_to_set. }
  rewrite L2, Hl in W3. rewrite (install_writes_home x (v_data v)) in W3.
  2: { intros j m Hm. rewrite (w_data _ _ _ W12), apply_writes_app. rewrite apply_writes_out.
       - by apply (apply_log_writes x (v_data v) (v_data v) l 0 j m).
       - simpl. rewrite list_elem_of_singleton. unfold slot. lia. }
  assert (Ei : install_trans s2 = Ret tt s3).
  { unfold install_trans. erewrite bind_ret by reflexivity. rewrite L2. exact E3. }
  rewrite (bind_ret _ _ _ _ _ Ei). rewrite (bind_ret _ _ _ _ _ (upd_log_run _ _)).
  set (s3' := mkL _ _). pose proof (wrote_app _ _ _ _ _ W12 W3) as W123.
  (* the second write_head *)
  assert (L3' : lg s3' = set_lh 0 (lh_block x) x) by (simpl; rewrite L3, L2; done).
  assert (Z3' : cache_blocks (lg_cache s3') = cache_blocks (lg_cache s)) by (simpl; congruence).
  destruct (write_head_run s3' v3) as (s4 & v4 & E4 & [L4 Z4] & R4 & W4);
    [done|rewrite L3', Z3'; by destruct Hg|by rewrite (w_held _ _ _ W123), (lo_held _ _ Ho)|by eapply wrote_size|].
  exists s4, v4. split; [done|]. split; [congruence|]. split; [congruence|]. split; [done|].
  rewrite L3' in W4. cbn [lh_n lh_block l_start set_lh] in W4.
  replace (v_data v3 (l_start x)) with h in W4.
  - pose proof (wrote_app _ _ _ _ _ W123 W4) as W. unfold commit_writes. fold h. by rewrite <- !app_assoc in W.
  - rewrite (w_data _ _ _ W123), apply_writes_app, apply_writes_out.
    + rewrite apply_writes_app. simpl. by rewrite upd_block_eq.
    + unfold home_writes. rewrite <- list_fmap_compose. intros (m & E & Hm)%list_elem_of_fmap. simpl in E.
      destruct (lo_blocks _ _ Ho _ Hm) as [H1 _]. apply H1. destruct Hg. change (lg s) with x. lia.
Qed.

(** ** What recovery makes of a disk *)

(** The blocks a header lists. *)
Definition header_list (b : block) : list Z := map (header_block b) (seq 0 (Z.to_nat (header_n b))).
(** The disk after recovery, the log region aside. *)
Definition redo (x : logstate) (d : Z -> block) : Z -> block :=
  apply_writes (install_writes x d 0 (header_list (d (l_start x)))) d.

Lemma store_blocks_out b l i a :
  a + 4 <= 4 * (Z.of_nat i + 1) -> load32 (store_blocks b l i) a = load32 b a.
Proof.
  revert b i. induction l as [|n l IH]; intros b i Ha; [done|]. simpl.
  rewrite IH by lia. rewrite load32_store32_ne; [done|lia].
Qed.
Lemma store_blocks_in b l i j n :
  l !! j = Some n -> load32 (store_blocks b l i) (4 * (Z.of_nat (i + j) + 1)) = u32 n.
Proof.
  revert b i j. induction l as [|m l IH]; intros b i j Hj; [done|]. simpl. destruct j as [|j].
  - injection Hj as ->. rewrite Nat.add_0_r, store_blocks_out by lia. by rewrite load32_store32_eq.
  - replace (i + S j)%nat with (S i + j)%nat by lia. by apply IH.
Qed.

Lemma header_store_n n l b : 0 <= n < 2 ^ 31 -> header_n (store_header n l b) = n.
Proof.
  intros Hn. unfold header_n, store_header. rewrite store_blocks_out by lia.
  rewrite load32_store32_eq, s32_u32. by apply s32_small; lia.
Qed.
Lemma header_store_list l b :
  Z.of_nat (length l) < 2 ^ 31 -> (forall n, n ∈ l -> 0 <= n < 2 ^ 31) ->
  header_list (store_header (Z.of_nat (length l)) l b) = l.
Proof.
  intros Hlen Hl. unfold header_list. rewrite header_store_n by lia. rewrite Nat2Z.id.
  apply list_eq. intros j. destruct (decide (j < length l)%nat) as [Hj|Hj].
  - destruct (lookup_lt_is_Some_2 l j Hj) as [n Hn]. rewrite list_lookup_fmap, lookup_seq_lt, Hn by done. simpl.
    f_equal. unfold header_block, store_header. rewrite (store_blocks_in _ l 0 j n Hn), s32_u32.
    apply s32_small. pose proof (Hl n ltac:(by eapply list_elem_of_lookup_2)). lia.
  - rewrite !lookup_ge_None_2; [done|lia|]. rewrite length_map, length_seq. lia.
Qed.

Lemma redo_empty x d m : header_n (d (l_start x)) = 0 -> redo x d m = d m.
Proof. intros E. unfold redo, header_list. by rewrite E. Qed.

(** After the header is on the disk, recovery finishes the transaction, from wherever commit
    had got to. *)
Lemma redo_header x d0 d l m :
  header_list (d0 (l_start x)) = l ->
  (forall j n, l !! j = Some n -> d0 (slot x j) = d n) ->
  redo x d0 m = if decide (m ∈ l) then d m else d0 m.
Proof.
  intros Eh Hs. unfold redo. rewrite Eh, (install_writes_home x d); [apply apply_home_writes|done].
Qed.

Lemma log_writes_length x d i l : length (log_writes x d i l) = length l.
Proof. revert i. induction l as [|n l IH]; intros i; [done|]. simpl. by rewrite IH. Qed.
Lemma home_writes_keys d l : (home_writes d l).*1 = l.
Proof. unfold home_writes. rewrite <- list_fmap_compose. induction l as [|n l IH]; [done|]. simpl. by f_equal. Qed.
Lemma home_writes_take d l k : take k (home_writes d l) = home_writes d (take k l).
Proof. symmetry. apply (fmap_take (fun n => (n, d n))). Qed.

(** The crash lemma: every prefix of commit's writes recovers to the old contents of the disk,
    or to what the cache showed. *)
Lemma commit_crash x (d0 d : Z -> block) l k blocks :
  geom x blocks -> header_n (d0 (l_start x)) = 0 -> Z.of_nat (length l) < l_size x ->
  (forall n, n ∈ l -> data_block x n /\ 0 <= n < blocks) ->
  (forall m, m ∉ l -> d m = d0 m) ->
  let ws := commit_writes x d l in
  forall m, data_block x m ->
    redo x (apply_writes (take k ws) d0) m = (if decide (k <= length l)%nat then d0 m else d m).
Proof.
  intros Hg H0 Hlen Hall Hsame ws m Hm.
  assert (Hst : forall j l', l_start x ∉ (log_writes x d j l').*1).
  { intros j l' (i & _ & E)%log_writes_keys. unfold slot in E. lia. }
  assert (Hslot : forall l', (length l' <= length l)%nat -> m ∉ (log_writes x d 0 l').*1).
  { intros l' Hl' (i & Hi & E)%log_writes_keys. apply Hm. unfold slot in E. simpl in Hi. destruct Hg. lia. }
  assert (Hdata : l_start x ∉ l).
  { intros Hin. destruct (Hall _ Hin) as [Hd _]. apply Hd. destruct Hg. lia. }
  unfold ws, commit_writes. set (h := store_header _ l _). rewrite take_app, log_writes_length, log_writes_take.
  destruct (decide (k <= length l)%nat) as [Hk|Hk].
  - replace (k - length l)%nat with 0%nat by lia. rewrite take_0, app_nil_r.
    rewrite redo_empty by (by rewrite apply_writes_out). apply apply_writes_out, Hslot.
    rewrite length_take. lia.
  - rewrite firstn_all2 by lia. destruct (k - length l)%nat as [|j] eqn:Ej; [lia|]. cbn [app take].
    rewrite take_app, home_writes_take. unfold home_writes at 2. rewrite length_map.
    set (d1 := upd_block (apply_writes (log_writes x d 0 l) d0) (l_start x) h).
    assert (Hd1 : apply_writes (log_writes x d 0 l ++ (l_start x, h) ::
              home_writes d (take j l) ++ take (j - length l) [(l_start x, store_header 0 [] h)]) d0 =
            apply_writes (take (j - length l) [(l_start x, store_header 0 [] h)])
              (apply_writes (home_writes d (take j l)) d1)).
    { rewrite apply_writes_app. cbn [apply_writes fold_left fst snd]. fold d1.
      rewrite <- apply_writes_app. done. }
    rewrite Hd1. clear Hd1. set (d2 := apply_writes (home_writes d (take j l)) d1).
    assert (Htk : forall n, n ∈ take j l -> n ∈ l).
    { intros n Hn. rewrite <- (take_drop j l). apply elem_of_app. by left. }
    assert (Hh2 : d2 (l_start x) = h).
    { unfold d2. rewrite apply_home_writes, decide_False by (intros ?%Htk; done). apply upd_block_eq. }
    assert (Hm2 : d2 m = if decide (m ∈ take j l) then d m else d0 m).
    { unfold d2. rewrite apply_home_writes. destruct (decide (m ∈ take j l)); [done|].
      unfold d1. rewrite upd_block_ne; [by apply apply_writes_out, Hslot|].
      intros ->. apply Hm. destruct Hg. lia. }
    destruct (j - length l)%nat as [|r] eqn:Er.
    + cbn [take]. change (apply_writes [] d2) with d2. rewrite (redo_header x d2 d l).
      * destruct (decide (m ∈ l)) as [Hin|Hin]; [done|]. rewrite Hm2, decide_False by (intros ?%Htk; done).
        by rewrite Hsame.
      * rewrite Hh2. apply header_store_list.
        -- destruct Hg. lia.
        -- intros n Hn. destruct (Hall _ Hn) as [_ Hb]. destruct Hg. lia.
      * intros i n Hi. pose proof (lookup_lt_Some _ _ _ Hi) as Hil. unfold d2. rewrite apply_home_writes, decide_False.
        -- unfold d1. rewrite upd_block_ne by (unfold slot; lia). by apply (apply_log_writes x d d0 l 0).
        -- intros Hin%Htk. destruct (Hall _ Hin) as [Hd _]. apply Hd. unfold slot. destruct Hg. lia.
    + change (take (S r) [(l_start x, store_header 0 [] h)]) with ((l_start x, store_header 0 [] h) :: take r []).
      rewrite take_nil. cbn [apply_writes fold_left fst snd]. rewrite redo_empty.
      * rewrite upd_block_ne by (intros ->; apply Hm; destruct Hg; lia). rewrite Hm2.
        rewrite firstn_all2 by lia. destruct (decide (m ∈ l)) as [|Hin]; [done|by rewrite Hsame].
      * rewrite upd_block_eq. by apply header_store_n.
Qed.

(** ** Recovery *)

(** A disk whose log header lists blocks outside the log, once each. *)
Record disk_ok (x : logstate) (blocks : Z) (d : Z -> block) : Prop := {
  do_n : header_n (d (l_start x)) < l_size x /\ header_n (d (l_start x)) <= LOGSIZE;
  do_nodup : NoDup (header_list (d (l_start x)));
  do_blocks : forall n, n ∈ header_list (d (l_start x)) -> data_block x n /\ 0 <= n < blocks
}.

Definition recover_writes (x : logstate) (d : Z -> block) : list (Z * block) :=
  install_writes x d 0 (header_list (d (l_start x))) ++ [(l_start x, store_header 0 [] (d (l_start x)))].

Lemma header_list_length b : length (header_list b) = Z.to_nat (header_n b).
Proof. unfold header_list. by rewrite length_map, length_seq. Qed.

Lemma apply_install_writes x d d0 i l j n :
  NoDup l -> l !! j = Some n -> apply_writes (install_writes x d i l) d0 n = d (slot x (i + j)).
Proof.
  revert d0 i j. induction l as [|m l IH]; intros d0 i j Hnd Hj; [done|].
  apply NoDup_cons in Hnd as [Hnin Hnd]. cbn [install_writes].
  change (apply_writes (install_writes x d (S i) l) (upd_block d0 m (d (slot x i))) n = d (slot x (i + j))).
  destruct j as [|j].
  - injection Hj as ->. rewrite Nat.add_0_r, apply_writes_out; [by rewrite upd_block_eq|].
    intros Hn. apply Hnin. clear - Hn. revert i Hn. induction l as [|a l IHl]; intros i Hn; [done|].
    cbn in Hn. apply elem_of_cons in Hn as [->|Hn]; [by left|right; by eapply IHl].
  - replace (i + S j)%nat with (S i + j)%nat by lia. by apply IH.
Qed.
Lemma redo_listed x d j n :
  NoDup (header_list (d (l_start x))) -> header_list (d (l_start x)) !! j = Some n -> redo x d n = d (slot x j).
Proof. intros Hnd Hj. by apply (apply_install_writes x d d 0). Qed.

Lemma recover_writes_home x d :
  NoDup (header_list (d (l_start x))) ->
  install_writes x d 0 (header_list (d (l_start x))) = home_writes (redo x d) (header_list (d (l_start x))).
Proof. intros Hnd. apply install_writes_home. intros j n Hj. by rewrite (redo_listed x d j n). Qed.

(** A crash during recovery loses nothing: recovering again gives the same disk. *)
Lemma recover_crash x d k blocks m :
  geom x blocks -> disk_ok x blocks d -> data_block x m ->
  redo x (apply_writes (take k (recover_writes x d)) d) m = redo x d m.
Proof.
  intros Hg Hd Hm. pose proof (do_nodup _ _ _ Hd) as Hnd. set (l := header_list (d (l_start x))) in *.
  assert (Hdata : l_start x ∉ l).
  { intros Hin. destruct (do_blocks _ _ _ Hd _ Hin) as [H1 _]. apply H1. destruct Hg. lia. }
  assert (Hout : forall n, n ∉ l -> redo x d n = d n).
  { intros n Hn. apply apply_writes_out. fold l. unfold l at 1. rewrite (recover_writes_home x d Hnd), home_writes_keys. done. }
  assert (Hlen : Z.of_nat (length l) < l_size x).
  { unfold l. rewrite header_list_length. destruct (do_n _ _ _ Hd), Hg. lia. }
  unfold recover_writes. fold l. unfold l at 1. rewrite (recover_writes_home x d Hnd). fold l.
  rewrite take_app, apply_writes_app, home_writes_take. set (d2 := apply_writes (home_writes _ _) d).
  assert (Htk : forall n, n ∈ take k l -> n ∈ l).
  { intros n Hn. rewrite <- (take_drop k l). apply elem_of_app. by left. }
  assert (Hst : d2 (l_start x) = d (l_start x)).
  { unfold d2. rewrite apply_home_writes, decide_False; [done|]. by intros ?%Htk. }
  assert (Hm2 : d2 m = if decide (m ∈ take k l) then redo x d m else d m) by apply apply_home_writes.
  unfold home_writes. rewrite length_map. destruct (k - length l)%nat as [|r] eqn:Er.
  - cbn [take]. change (apply_writes [] d2) with d2. rewrite (redo_header x d2 (redo x d) l).
    + destruct (decide (m ∈ l)) as [|Hin]; [done|]. rewrite Hm2, decide_False by (by intros ?%Htk). by rewrite Hout.
    + by rewrite Hst.
    + intros j n Hj. rewrite (redo_listed x d j n Hnd Hj). unfold d2. rewrite apply_home_writes, decide_False; [done|].
      intros Hin%Htk. destruct (do_blocks _ _ _ Hd _ Hin) as [H1 _]. apply H1. apply lookup_lt_Some in Hj.
      unfold slot. fold l in Hj. destruct Hg. lia.
  - cbn [take]. rewrite take_nil. cbn [apply_writes fold_left fst snd]. rewrite redo_empty.
    + rewrite upd_block_ne by (intros ->; apply Hm; destruct Hg; lia). rewrite Hm2, firstn_all2 by lia.
      destruct (decide (m ∈ l)) as [|Hin]; [done|]. by rewrite Hout.
    + rewrite upd_block_eq. by apply header_store_n.
Qed.

Lemma read_blocks_run hb k : forall i s,
  (i + k <= length (lh_block (lg s)))%nat ->
  exists l, read_blocks hb i k s = Ret tt (mkL (lg_cache s) (set_lh (lh_n (lg s)) l (lg s))) /\
    length l = length (lh_block (lg s)) /\
    take (i + k) l = take i (lh_block (lg s)) ++ map (header_block hb) (seq i k).
Proof.
  induction k as [|k IH]; intros i s Hl.
  { exists (lh_block (lg s)). split; [by destruct s as [? []]|]. split; [done|]. by rewrite Nat.add_0_r, app_nil_r. }
  cbn [read_blocks]. unfold set_block_no at 1, mbind, M_bind. rewrite bool_decide_true by lia.
  destruct (IH (S i) (mkL (lg_cache s) (set_lh (lh_n (lg s)) (<[i:=header_block hb i]> (lh_block (lg s))) (lg s))))
    as (l & E & Hlen & Ht).
  { simpl. rewrite length_insert. lia. }
  exists l. split; [exact E|]. simpl in Hlen, Ht. rewrite length_insert in Hlen. split; [done|].
  replace (i + S k)%nat with (S i + k)%nat by lia. simpl. rewrite Ht.
  rewrite (take_S_r _ _ (header_block hb i)) by (apply list_lookup_insert_eq; lia).
  rewrite take_insert_ge by lia. by rewrite <- app_assoc.
Qed.

Lemma read_head_run s v :
  cache_rep (lg_cache s) v -> geom (lg s) (cache_blocks (lg_cache s)) -> v_held v = ∅ -> v_pinned v = ∅ ->
  disk_ok (lg s) (cache_blocks (lg_cache s)) (v_data v) ->
  exists c l, read_head s = Ret tt (mkL c (set_lh (header_n (v_data v (l_start (lg s)))) l (lg s))) /\
    cache_rep c v /\ cache_blocks c = cache_blocks (lg_cache s) /\ length l = length (lh_block (lg s)) /\
    take (Z.to_nat (header_n (v_data v (l_start (lg s))))) l = header_list (v_data v (l_start (lg s))).
Proof.
  intros Hr Hg Hh Hp Hd. unfold read_head. erewrite bind_ret by reflexivity. set (st := l_start (lg s)).
  destruct (bread_run s v st (fun b => hb ← in_cache (cache_data b);
      upd_log (fun y => set_lh (header_n hb) (lh_block y) y);;
      read_blocks hb 0 (Z.to_nat (header_n hb));; in_cache (cache_brelse b)))
    as (b & c1 & E1 & R1 & I1 & _ & Z1);
    [done|rewrite Hh; apply not_elem_of_empty|unfold st; destruct Hg; lia| |].
  { right. unfold room. rewrite Hh, Hp, union_empty_l_L, size_empty. destruct Hg. lia. }
  rewrite E1. set (s1 := mkL c1 (lg s)).
  rewrite (bind_ret _ _ _ _ _ (in_cache_run _ s1 _ _ (data_law _ _ _ _ R1 I1))).
  change (v_data (v_hold st v) st) with (v_data v st). set (hb := v_data v st).
  rewrite (bind_ret _ _ _ _ _ (upd_log_run _ _)). set (s2 := mkL _ _).
  destruct (read_blocks_run hb (Z.to_nat (header_n hb)) 0 s2) as (l & E2 & Hlen & Ht).
  { simpl. destruct (do_n _ _ _ Hd) as [_ D2]. change (v_data v (l_start (lg s))) with hb in D2.
    rewrite (g_array _ _ Hg). lia. }
  rewrite (bind_ret _ _ _ _ _ E2). set (s3 := mkL _ _).
  destruct (brelse_law _ _ _ _ R1 I1) as (c2 & E3 & R2 & _ & Z2).
  { right. simpl. apply (clean_law _ _ _ Hr); [rewrite Hp|rewrite Hh]; apply not_elem_of_empty. }
  rewrite (in_cache_run _ s3 _ _ E3). exists c2, l. split; [done|].
  split; [|split; [congruence|split; [done|exact Ht]]].
  replace (v_release st (v_hold st v)) with v in R2; [done|]. destruct v as [vd vk vp vh vw]. simpl in *. subst.
  unfold v_release, v_hold. simpl. f_equal. set_solver.
Qed.

Lemma recover_run s v :
  cache_rep (lg_cache s) v -> geom (lg s) (cache_blocks (lg_cache s)) -> v_held v = ∅ -> v_pinned v = ∅ ->
  disk_ok (lg s) (cache_blocks (lg_cache s)) (v_data v) ->
  exists s' v' l, recover_from_log s = Ret tt s' /\ lg s' = set_lh 0 l (lg s) /\
    cache_blocks (lg_cache s') = cache_blocks (lg_cache s) /\
    wrote (recover_writes (lg s) (v_data v)) v v' /\ log_ok s' v'.
Proof.
  intros Hr Hg Hh Hp Hd. unfold recover_from_log.
  destruct (read_head_run s v Hr Hg Hh Hp Hd) as (c1 & l & E1 & R1 & Z1 & Hlen & Ht).
  rewrite (bind_ret _ _ _ _ _ E1). set (x := lg s) in *. set (hb := v_data v (l_start x)) in *.
  set (s1 := mkL _ _). pose proof (do_n _ _ _ Hd) as [Hn1 Hn2]. fold hb in Hn1, Hn2.
  pose proof (g_array _ _ Hg) as Harr. assert (Hg' := Hg). destruct Hg' as [G1 G2 G3 [G4 G5] _].
  assert (Htd : take (Z.to_nat (header_n hb)) (drop 0 (lh_block (lg s1))) = header_list hb) by exact Ht.
  destruct (install_loop_run (Z.to_nat (header_n hb)) 0 s1 v) as (s2 & v2 & E2 & [L2 Z2] & R2 & W2).
  { done. }
  { simpl. rewrite Z1. split; simpl; try done. by rewrite Hlen. }
  { done. }
  { rewrite Hp, size_empty. lia. }
  { simpl. lia. }
  { simpl. rewrite Hlen, Harr. lia. }
  { rewrite Htd. apply (do_nodup _ _ _ Hd). }
  { intros j _. rewrite Hp. apply not_elem_of_empty. }
  { rewrite Htd. cbn [s1 lg lg_cache]. rewrite Z1. intros n Hin. destruct (do_blocks _ _ _ Hd _ Hin). split_and!; try done; try lia. by right. }
  rewrite Htd, (install_writes_start _ x) in W2 by done. cbn [s1 lg lg_cache] in L2, Z2.
  assert (Ei : install_trans s1 = Ret tt s2) by (unfold install_trans; erewrite bind_ret by reflexivity; exact E2).
  rewrite (bind_ret _ _ _ _ _ Ei), (bind_ret _ _ _ _ _ (upd_log_run _ _)). rewrite L2. set (s3 := mkL _ _).
  assert (Hg3 : geom (lg s3) (cache_blocks (lg_cache s3))).
  { simpl. rewrite Z2, Z1. split; simpl; try done. by rewrite Hlen. }
  destruct (write_head_run s3 v2) as (s4 & v4 & E4 & [L4 Z4] & R4 & W4);
    [done|done|by rewrite (w_held _ _ _ W2)|eapply wrote_size; [exact W2|rewrite Hp, size_empty; lia]|].
  cbn [s3 lg set_lh l_start lh_n lh_block] in W4.
  assert (Hst : v_data v2 (l_start x) = hb).
  { rewrite (w_data _ _ _ W2). apply apply_writes_out.
    unfold hb at 1. rewrite (recover_writes_home x (v_data v) (do_nodup _ _ _ Hd)), home_writes_keys.
    intros Hin. destruct (do_blocks _ _ _ Hd _ Hin) as [H1 _]. apply H1. lia. }
  rewrite Hst in W4. pose proof (wrote_app _ _ _ _ _ W2 W4) as W.
  change (wrote (recover_writes x (v_data v)) v v4) in W.
  exists s4, v4, l. split; [done|]. split; [done|]. split; [simpl in Z4; congruence|]. split; [done|].
  split; try (rewrite L4, ?Z4); try done.
  - by rewrite (w_held _ _ _ W).
  - simpl. unfold LOGSIZE, MAXOPBLOCKS. lia.
  - constructor.
  - rewrite (w_pinned _ _ _ W), Hp. set_solver.
  - intros n. unfold logged. simpl. by intros ?%elem_of_nil.
  - simpl. rewrite (w_disk _ _ _ W). unfold recover_writes. rewrite apply_writes_app. simpl.
    rewrite upd_block_eq. by apply header_store_n.
Qed.

(** ** Transactions *)

(** A system call's use of the log: begin_op, changes of blocks, each by reading the block,
    storing into its buffer, log_write and brelse, and end_op. *)
Inductive tx_op : Type :=
  | TBegin
  | TWrite (n : Z) (f : block -> block)
  | TEnd.

Definition tx_write (n : Z) (f : block -> block) : L unit :=
  b ← in_cache (cache_bread n);
  in_cache (cache_store b f);;
  log_write b;;
  in_cache (cache_brelse b).
Definition run_tx (op : tx_op) : L unit :=
  match op with TBegin => begin_op | TWrite n f => tx_write n f | TEnd => end_op end.
Fixpoint run_txs (ops : list tx_op) : L unit :=
  match ops with [] => ret tt | op :: ops => run_tx op;; run_txs ops end.

(** What the calls promise: how many are in progress, the blocks changed since the last commit,
    the contents they see, and the contents committed so far, the latest first. *)
Record tx_state : Type := mkTx {
  t_out : Z;
  t_logged : list Z;
  t_cur : Z -> block;
  t_coms : list (Z -> block)
}.
Inductive tx_result : Type :=
  | TxOk (t : tx_state)
  | TxWait
  | TxPanic (msg : string).

Definition tx_step (size : Z) (op : tx_op) (t : tx_state) : tx_result :=
  let len := Z.of_nat (length (t_logged t)) in
  match op with
  | TBegin =>
      if LOGSIZE <? len + (t_out t + 1) * MAXOPBLOCKS then TxWait
      else TxOk (mkTx (t_out t + 1) (t_logged t) (t_cur t) (t_coms t))
  | TWrite n f =>
      if (LOGSIZE <=? len) || (size - 1 <=? len) then TxPanic "too big a transaction"
      else if t_out t <? 1 then TxPanic "log_write outside of trans"
      else TxOk (mkTx (t_out t) (if decide (n ∈ t_logged t) then t_logged t else t_logged t ++ [n])
                   (upd_block (t_cur t) n (f (t_cur t n))) (t_coms t))
  | TEnd =>
      if t_out t - 1 =? 0 then TxOk (mkTx 0 [] (t_cur t) (t_cur t :: t_coms t))
      else TxOk (mkTx (t_out t - 1) (t_logged t) (t_cur t) (t_coms t))
  end.
Fixpoint tx_steps (size : Z) (ops : list tx_op) (t : tx_state) : tx_result :=
  match ops with
  | [] => TxOk t
  | op :: ops =>
      match tx_step size op t with TxOk t' => tx_steps size ops t' | r => r end
  end.

Definition tx_block_ok (x : logstate) (blocks : Z) (op : tx_op) : Prop :=
  match op with TWrite n _ => data_block x n /\ 0 <= n < blocks | _ => True end.

Lemma redo_start x y d m : l_start x = l_start y -> redo x d m = redo y d m.
Proof. intros E. unfold redo. by rewrite E, (install_writes_start x y). Qed.

(** The state [s] is what the calls promise, and so is every disk a crash could leave, [d0]
    being the disk before the writes [ws]. *)
Record tx_rel (x0 : logstate) (blocks : Z) (d0 : Z -> block) (w0 : list (Z * block)) s v (t : tx_state) : Prop := {
  tr_ok : log_ok s v;
  tr_place : l_start (lg s) = l_start x0 /\ l_size (lg s) = l_size x0 /\ cache_blocks (lg_cache s) = blocks;
  tr_out : outstanding (lg s) = t_out t /\ committing (lg s) = false;
  tr_logged : logged (lg s) = t_logged t;
  tr_cur : forall m, data_block x0 m -> v_data v m = t_cur t m;
  tr_com : exists c coms, t_coms t = c :: coms /\ forall m, data_block x0 m -> v_disk v m = c m;
  tr_writes : exists ws, v_writes v = w0 ++ ws /\ (forall m, v_disk v m = apply_writes ws d0 m) /\
    forall k, exists c, c ∈ t_coms t /\ forall m, data_block x0 m -> redo x0 (apply_writes (take k ws) d0) m = c m
}.

Lemma place_data x y m : l_start x = l_start y -> l_size x = l_size y -> data_block x m <-> data_block y m.
Proof. intros E1 E2. unfold data_block. by rewrite E1, E2. Qed.

Lemma view_after_write v n y :
  v_held v = ∅ -> v_held (v_release n (v_pin n (v_store n y (v_hold n v)))) = ∅.
Proof. intros E. simpl. rewrite E. set_solver. Qed.

Lemma logged_insert x i n :
  (i = length (logged x)) -> (i < length (lh_block x))%nat -> Z.to_nat (lh_n x) = i -> 0 <= lh_n x ->
  logged (set_lh (lh_n x + 1) (<[i := n]> (lh_block x)) x) = logged x ++ [n].
Proof.
  intros Hi Hlt Hn H0. unfold logged in *. cbn [lh_n lh_block set_lh].
  replace (Z.to_nat (lh_n x + 1)) with (S i) by lia.
  rewrite (take_S_r _ _ n) by (by apply list_lookup_insert_eq).
  rewrite take_insert_ge by lia. by rewrite Hn.
Qed.

Lemma log_write_run s v b n :
  cache_rep (lg_cache s) v -> cache_buf (lg_cache s) b n ->
  0 <= lh_n (lg s) < LOGSIZE -> lh_n (lg s) < l_size (lg s) - 1 -> 1 <= outstanding (lg s) ->
  length (lh_block (lg s)) = Z.to_nat LOGSIZE ->
  exists c y, log_write b s = Ret tt (mkL c y) /\ cache_rep c (v_pin n v) /\
    (forall j k, cache_buf (lg_cache s) j k -> cache_buf c j k) /\ cache_blocks c = cache_blocks (lg_cache s) /\
    logged y = (if decide (n ∈ logged (lg s)) then logged (lg s) else logged (lg s) ++ [n]) /\
    lh_n y = Z.of_nat (length (logged y)) /\ length (lh_block y) = length (lh_block (lg s)) /\
    l_start y = l_start (lg s) /\ l_size y = l_size (lg s) /\ outstanding y = outstanding (lg s) /\
    committing y = committing (lg s).
Proof.
  intros Hr Hb Hn1 Hn2 Hout Harr. set (x := lg s) in *.
  assert (Hlen : length (logged x) = Z.to_nat (lh_n x)).
  { unfold logged. rewrite length_take, Harr. unfold LOGSIZE, MAXOPBLOCKS in *. lia. }
  unfold log_write. erewrite bind_ret by reflexivity. fold x.
  rewrite (proj2 (Z.leb_gt LOGSIZE _)), (proj2 (Z.leb_gt (l_size x - 1) _)) by lia. cbn [orb panic_if].
  rewrite (bind_ret _ _ _ tt s) by done. rewrite (proj2 (Z.ltb_ge _ _)) by lia. cbn [panic_if].
  rewrite (bind_ret _ _ _ tt s) by done.
  rewrite (bind_ret _ _ _ _ _ (in_cache_run _ s _ _ (blockno_law _ _ _ Hb))). fold (logged x).
  destruct (find_index (fun n' => n' =? n) (logged x)) as [i|] eqn:Ei; cbn [default from_option id]; unfold id; cbv zeta.
  - apply find_index_Some in Ei as (n' & Hi & E%Z.eqb_eq & _). subst n'.
    pose proof (lookup_lt_Some _ _ _ Hi) as Hlt. rewrite bool_decide_false by (change (i <> Z.to_nat (lh_n x)); lia). cbn [when].
    assert (Hli : lh_block x !! i = Some n) by (unfold logged in Hi; rewrite lookup_take_lt in Hi by lia; done).
    assert (Es : set_block_no i n (mkL (lg_cache s) x) = Ret tt (mkL (lg_cache s) x)).
    { unfold set_block_no. pose proof (lookup_lt_Some _ _ _ Hli). cbn [lg lg_cache]. rewrite bool_decide_true by done.
      rewrite list_insert_id by done. by destruct x. }
    fold x. rewrite (bind_ret _ _ _ _ _ Es), (bind_ret _ _ _ tt (mkL (lg_cache s) x)) by done.
    destruct (pin_law _ _ _ _ Hr Hb) as (c & Ec & Rc & Ic & Zc).
    rewrite (in_cache_run _ (mkL (lg_cache s) x) _ _ Ec). exists c, x. split; [done|].
    rewrite decide_True by by eapply list_elem_of_lookup_2. split_and!; try done. rewrite Hlen. lia.
  - rewrite bool_decide_true by done. cbn [when].
    pose proof (proj1 (find_index_None _ _) Ei) as Hno.
    assert (Hnin : n ∉ logged x).
    { intros (i & Hi)%list_elem_of_lookup. specialize (Hno _ _ Hi). cbv beta in Hno. by rewrite Z.eqb_refl in Hno. }
    assert (Hil : (Z.to_nat (lh_n x) < length (lh_block x))%nat) by (rewrite Harr; lia).
    unfold set_block_no at 1. unfold mbind at 1, M_bind at 1. cbn [lg lg_cache]. fold x. rewrite bool_decide_true by done.
    rewrite (bind_ret _ _ _ _ _ (upd_log_run _ _)). cbn [lg lg_cache lh_n lh_block set_lh].
    destruct (pin_law _ _ _ _ Hr Hb) as (c & Ec & Rc & Ic & Zc).
    set (s1 := mkL _ _). rewrite (in_cache_run _ s1 _ _ Ec). eexists c, _. split; [reflexivity|].
    rewrite decide_False by done.
    assert (Hlog : logged (lg s1) = logged x ++ [n]) by (apply (logged_insert x); [by rewrite Hlen|done|done|lia]).
    split_and!; try done.
    + rewrite Hlog, length_app, Hlen. simpl. lia.
    + simpl. by rewrite length_insert.
Qed.

(** The write of a system call, when the log has space: the block joins the transaction. *)
Lemma tx_write_run s v n f :
  log_ok s v -> data_block (lg s) n -> 0 <= n < cache_blocks (lg_cache s) ->
  lh_n (lg s) < LOGSIZE -> lh_n (lg s) < l_size (lg s) - 1 -> 1 <= outstanding (lg s) ->
  exists s' v', tx_write n f s = Ret tt s' /\ log_ok s' v' /\
    logged (lg s') = (if decide (n ∈ logged (lg s)) then logged (lg s) else logged (lg s) ++ [n]) /\
    l_start (lg s') = l_start (lg s) /\ l_size (lg s') = l_size (lg s) /\
    outstanding (lg s') = outstanding (lg s) /\ committing (lg s') = committing (lg s) /\
    cache_blocks (lg_cache s') = cache_blocks (lg_cache s) /\
    v_data v' = upd_block (v_data v) n (f (v_data v n)) /\ v_disk v' = v_disk v /\ v_writes v' = v_writes v.
Proof.
  intros Ho Hdn Hrn Hn1 Hn2 Hout. unfold tx_write.
  pose proof (log_ok_size _ _ Ho) as Hsz. pose proof (lo_held _ _ Ho) as Hh.
  destruct (bread_run s v n (fun b => in_cache (cache_store b f);; log_write b;; in_cache (cache_brelse b)))
    as (b & c1 & E1 & R1 & I1 & _ & Z1);
    [apply (lo_rep _ _ Ho)|rewrite Hh; apply not_elem_of_empty|done|right; unfold room; by rewrite Hh, union_empty_r_L|].
  rewrite E1. set (s1 := mkL c1 (lg s)).
  destruct (store_law _ _ _ _ f R1 I1) as (c2 & E2 & R2 & I2 & Z2).
  rewrite (bind_ret _ _ _ _ _ (in_cache_run _ s1 _ _ E2)). set (s2 := mkL _ _).
  destruct (log_write_run s2 _ b n R2 (I2 _ _ I1)) as (c3 & y & E3 & R3 & I3 & Z3 & G1 & G2 & G3 & G4 & G5 & G6 & G7);
    [destruct (lo_n _ _ Ho); simpl; lia|done|done|apply (lo_geom _ _ Ho)|].
  rewrite (bind_ret _ _ _ _ _ E3). set (s3 := mkL c3 y).
  destruct (brelse_law _ _ _ _ R3 (I3 _ _ (I2 _ _ I1))) as (c4 & E4 & R4 & _ & Z4); [left; simpl; set_solver|].
  rewrite (in_cache_run _ s3 _ _ E4). cbn [s1 s2 s3 lg lg_cache] in *.
  assert (Hblocks : cache_blocks c4 = cache_blocks (lg_cache s)) by congruence.
  exists (mkL c4 y), (v_release n (v_pin n (v_store n (f (v_data v n)) (v_hold n v)))). cbn [lg lg_cache].
  split; [done|]. split; [|split_and!; try done].
  pose proof (logged_length _ _ Ho) as Hlen. pose proof (lo_n _ _ Ho) as [HA HB].
  assert (Hy : lh_n y = lh_n (lg s) \/ lh_n y = lh_n (lg s) + 1).
  { rewrite G2, G1. destruct (decide _); [left|right; rewrite length_app; simpl]; lia. }
  split; cbn [lg lg_cache].
  - exact R4.
  - rewrite Hblocks. destruct (lo_geom _ _ Ho) as [A1 A2 A3 A4 A5]. split; rewrite ?G4, ?G5; try done. congruence.
  - by apply view_after_write.
  - rewrite G5. lia.
  - rewrite G1. destruct (decide (n ∈ logged (lg s))); [apply (lo_nodup _ _ Ho)|].
    apply NoDup_app. split; [apply (lo_nodup _ _ Ho)|]. split; [|apply NoDup_singleton].
    intros m Hm Hmn%list_elem_of_singleton. congruence.
  - simpl. rewrite (lo_pinned _ _ Ho), G1. destruct (decide (n ∈ logged (lg s))) as [Hin|Hin].
    + apply set_eq. intros m. rewrite elem_of_union, elem_of_singleton, elem_of_list_to_set. naive_solver.
    + rewrite list_to_set_app_L. set_solver.
  - intros m. rewrite G1, Hblocks, (place_data y (lg s)) by done. intros Hm.
    destruct (decide (n ∈ logged (lg s))); [by apply (lo_blocks _ _ Ho)|].
    apply elem_of_app in Hm as [Hm| ->%list_elem_of_singleton]; [by apply (lo_blocks _ _ Ho)|done].
  - simpl. rewrite G4. apply (lo_header _ _ Ho).
Qed.

(** A commit starting between operations, with the flag that keeps others out. *)
Lemma commit_ok s v :
  log_ok s v ->
  exists s' v' ws, commit s = Ret tt s' /\ log_ok s' v' /\ logged (lg s') = [] /\
    l_start (lg s') = l_start (lg s) /\ l_size (lg s') = l_size (lg s) /\
    outstanding (lg s') = outstanding (lg s) /\ committing (lg s') = committing (lg s) /\
    cache_blocks (lg_cache s') = cache_blocks (lg_cache s) /\
    v_writes v' = v_writes v ++ ws /\ (forall m, v_disk v' m = apply_writes ws (v_disk v) m) /\
    (forall m, data_block (lg s) m -> v_data v' m = v_data v m /\ v_disk v' m = v_data v m) /\
    forall k m, data_block (lg s) m ->
      redo (lg s) (apply_writes (take k ws) (v_disk v)) m =
        (if decide (k <= length (logged (lg s)))%nat then v_disk v m else v_data v m).
Proof.
  intros Ho. pose proof (lo_n _ _ Ho) as [Hn Hn']. pose proof (logged_length _ _ Ho) as Hlen.
  set (x := lg s) in *. destruct (decide (0 < lh_n x)) as [Hpos|Hz].
  - destruct (commit_run s v Ho Hpos) as (s' & v' & E & L' & Z' & R' & W). fold x in L', W.
    set (ws := commit_writes x (v_data v) (logged x)) in *.
    assert (Hcrash : forall k m, data_block x m ->
      redo x (apply_writes (take k ws) (v_disk v)) m =
        if decide (k <= length (logged x))%nat then v_disk v m else v_data v m).
    { intros k m Hm. apply (commit_crash x (v_disk v) (v_data v) (logged x) k _ (lo_geom _ _ Ho) (lo_header _ _ Ho)); try done.
      - fold x. lia.
      - apply (lo_blocks _ _ Ho).
      - intros n Hin. by apply (log_clean s). }
    assert (Hend : header_n (v_disk v' (l_start x)) = 0).
    { rewrite (w_disk _ _ _ W). unfold ws, commit_writes. rewrite app_assoc, app_assoc, apply_writes_app.
      simpl. rewrite upd_block_eq. by apply header_store_n. }
    assert (Hdisk : forall m, data_block x m -> v_disk v' m = v_data v m).
    { intros m Hm. rewrite <- (redo_empty x (v_disk v') m Hend). transitivity (redo x (apply_writes (take (length ws) ws) (v_disk v)) m).
      - rewrite firstn_all. unfold redo. rewrite (w_disk _ _ _ W (l_start x)). erewrite install_writes_ext.
        + apply apply_writes_ext. apply (w_disk _ _ _ W).
        + intros j _. apply (w_disk _ _ _ W).
      - rewrite Hcrash, decide_False; [done| |done]. unfold ws, commit_writes.
        rewrite !length_app, log_writes_length. simpl. lia. }
    assert (Hlog' : log_ok s' v').
    { split; rewrite ?L', ?Z'; cbn [set_lh lh_n lh_block l_start l_size]; try done.
      - by destruct (lo_geom _ _ Ho).
      - by rewrite (w_held _ _ _ W), (lo_held _ _ Ho).
      - unfold LOGSIZE, MAXOPBLOCKS. lia.
      - constructor.
      - rewrite (w_pinned _ _ _ W), (lo_pinned _ _ Ho). unfold ws, commit_writes.
        rewrite !fmap_app, home_writes_keys, !list_to_set_app_L. unfold logged at 3. simpl. set_solver.
      - intros n. unfold logged. simpl. by intros ?%elem_of_nil. }
    exists s', v', ws. split; [done|]. split; [done|].
    assert (Hl0 : logged (lg s') = []) by (by rewrite L').
    split; [done|]. rewrite L'. split_and!; try done; [apply (w_writes _ _ _ W)|apply (w_disk _ _ _ W)|].
    intros m Hm. split; [|by apply Hdisk]. rewrite <- Hdisk by done. apply (log_clean s' v' m Hlog').
    rewrite Hl0. apply not_elem_of_nil.
  - assert (Hl0 : logged x = []) by (apply nil_length_inv; lia).
    exists s, v, []. unfold commit. erewrite bind_ret by reflexivity. fold x. rewrite (proj2 (Z.ltb_ge _ _)) by lia.
    split_and!; try done.
    + by rewrite app_nil_r.
    + intros m Hm. split; [done|]. symmetry. apply (log_clean s); [done|]. fold x. rewrite Hl0. apply not_elem_of_nil.
    + intros k m Hm. rewrite take_nil. change (apply_writes [] (v_disk v)) with (v_disk v).
      rewrite redo_empty by apply (lo_header _ _ Ho). destruct (decide _); [done|].
      symmetry. apply (log_clean s); [done|]. fold x. rewrite Hl0. apply not_elem_of_nil.
Qed.

Section History.
Context (x0 : logstate) (blocks : Z) (d0 : Z -> block) (w0 : list (Z * block)).

Lemma tx_write_rel n f s v t :
  tx_rel x0 blocks d0 w0 s v t -> data_block x0 n -> 0 <= n < blocks ->
  match tx_step (l_size x0) (TWrite n f) t with
  | TxOk t' => exists s' v', run_tx (TWrite n f) s = Ret tt s' /\ tx_rel x0 blocks d0 w0 s' v' t'
  | TxPanic msg => run_tx (TWrite n f) s = Panic msg
  | TxWait => False
  end.
Proof.
  intros [Ho (P1 & P2 & P3) (O1 & O2) Hl Hcur Hcom Hw] Hdn Hrn.
  pose proof (logged_length _ _ Ho) as Hlen. pose proof (lo_n _ _ Ho) as [Hn1 Hn2]. rewrite Hl in Hlen.
  cbn [tx_step run_tx]. assert (Hlh : Z.of_nat (length (t_logged t)) = lh_n (lg s)) by lia. rewrite Hlh.
  assert (Hdn' : data_block (lg s) n) by (by apply (place_data (lg s) x0)).
  assert (Hfront : forall msg, (forall c b, log_write b (mkL c (lg s)) = Panic msg) -> tx_write n f s = Panic msg).
  { intros msg Hmsg. unfold tx_write.
    destruct (bread_run s v n (fun b => in_cache (cache_store b f);; log_write b;; in_cache (cache_brelse b)))
      as (b & c1 & E1 & R1 & I1 & _ & Z1);
      [apply (lo_rep _ _ Ho)|rewrite (lo_held _ _ Ho); apply not_elem_of_empty|lia| |].
    { right. unfold room. rewrite (lo_held _ _ Ho), union_empty_r_L. by eapply log_ok_size. }
    rewrite E1. destruct (store_law _ _ _ _ f R1 I1) as (c2 & E2 & _).
    rewrite (bind_ret _ _ _ _ _ (in_cache_run _ (mkL c1 (lg s)) _ _ E2)). apply bind_panic, Hmsg. }
  rewrite <- P2, <- O1. destruct ((LOGSIZE <=? lh_n (lg s)) || (l_size (lg s) - 1 <=? lh_n (lg s))) eqn:Ebig.
  { apply Hfront. intros c b. unfold log_write. erewrite bind_ret by reflexivity. cbn [lg]. by rewrite Ebig. }
  destruct (outstanding (lg s) <? 1) eqn:Eout.
  { apply Hfront. intros c b. unfold log_write. erewrite bind_ret by reflexivity. cbn [lg]. rewrite Ebig, Eout. done. }
  apply orb_false_iff in Ebig as [B1%Z.leb_gt B2%Z.leb_gt]. apply Z.ltb_ge in Eout.
  destruct (tx_write_run s v n f Ho Hdn' ltac:(lia) B1 ltac:(lia) Eout)
    as (s' & v' & E & Ho' & L' & S1 & S2 & S3 & S4 & S5 & D1 & D2 & D3).
  exists s', v'. split; [done|]. split; cbn [t_out t_logged t_cur t_coms]; try done.
  - split_and!; congruence.
  - by rewrite S3, S4.
  - by rewrite L', Hl.
  - intros m Hm. rewrite D1, !upd_block_cases, (Hcur n Hdn). destruct (decide (m = n)); [done|by apply Hcur].
  - by rewrite D2.
  - by rewrite D2, D3.
Qed.

Lemma redo_ext x d d' m : (forall k, d k = d' k) -> redo x d m = redo x d' m.
Proof.
  intros E. unfold redo. rewrite (E (l_start x)). erewrite install_writes_ext; [by apply apply_writes_ext|]. intros. apply E.
Qed.

Lemma tx_end_rel s v t :
  tx_rel x0 blocks d0 w0 s v t ->
  exists t' s' v', tx_step (l_size x0) TEnd t = TxOk t' /\ run_tx TEnd s = Ret tt s' /\ tx_rel x0 blocks d0 w0 s' v' t'.
Proof.
  intros [Ho (P1 & P2 & P3) (O1 & O2) Hl Hcur (c & coms & Ec & Hc) (ws & W1 & W2 & W3)].
  cbn [tx_step run_tx]. unfold end_op. rewrite (bind_ret _ _ _ _ _ (upd_log_run _ _)).
  erewrite bind_ret by reflexivity. cbn [lg set_outstanding committing outstanding]. rewrite O2. cbn [panic_if].
  erewrite bind_ret by reflexivity. rewrite O1. set (s1 := mkL _ _).
  destruct (t_out t - 1 =? 0) eqn:E0; cbn [when].
  - rewrite (bind_ret _ _ _ _ _ (upd_log_run _ _)). set (s2 := mkL _ _). apply Z.eqb_eq in E0.
    assert (Ho2 : log_ok s2 v).
    { destruct Ho as [A1 A2 A3 A4 A5 A6 A7 A8]. split; try done. by destruct A2. }
    destruct (commit_ok s2 v Ho2) as (s3 & v3 & ws3 & E & Ho3 & L3 & S1 & S2 & S3 & S4 & S5 & W4 & W5 & D3 & C3).
    eexists _, (mkL (lg_cache s3) (set_committing false (lg s3))), v3. split; [done|]. split.
    { by rewrite (bind_ret _ _ _ _ _ E). }
    assert (Hd : forall m, data_block x0 m <-> data_block (lg s2) m) by (intros m; by apply place_data).
    split; cbn [t_out t_logged t_cur t_coms lg lg_cache].
    + destruct Ho3 as [A1 A2 A3 A4 A5 A6 A7 A8]. split; try done. by destruct A2.
    + split; [exact (eq_trans S1 P1)|]. split; [exact (eq_trans S2 P2)|exact (eq_trans S5 P3)].
    + simpl. split; [|done]. rewrite S3. simpl. lia.
    + done.
    + intros m Hm. destruct (D3 m ltac:(by apply Hd)) as [-> _]. by apply Hcur.
    + exists (t_cur t), (t_coms t). split; [done|]. intros m Hm.
      destruct (D3 m ltac:(by apply Hd)) as [_ ->]. by apply Hcur.
    + exists (ws ++ ws3). split; [by rewrite W4, W1, app_assoc|]. split.
      { intros m. rewrite W5, apply_writes_app. by apply apply_writes_ext. }
      intros k. destruct (decide (k <= length ws)%nat) as [Hk|Hk].
      * destruct (W3 k) as (c' & Hc' & Hcr). exists c'. split; [by right|]. intros m Hm.
        by rewrite take_app_le; [apply Hcr|lia].
      * set (k' := (k - length ws)%nat). exists (if decide (k' <= length (logged (lg s2)))%nat then c else t_cur t).
        split; [case_decide; [right; rewrite Ec; by left|by left]|]. intros m Hm.
        rewrite take_app, firstn_all2 by lia. fold k'. rewrite apply_writes_app.
        rewrite (redo_start x0 (lg s2)) by done. rewrite (redo_ext (lg s2) _ (apply_writes (take k' ws3) (v_disk v))).
        -- rewrite C3 by by apply Hd. destruct (decide (k' <= length (logged (lg s2)))%nat); [by apply Hc|by apply Hcur].
        -- intros j. apply apply_writes_ext. intros i. by rewrite W2.
  - eexists _, s1, v. split; [done|]. split; [done|].
    split; cbn [t_out t_logged t_cur t_coms s1 lg lg_cache]; try done.
    + destruct Ho as [A1 A2 A3 A4 A5 A6 A7 A8]. split; try done. by destruct A2.
    + by exists c, coms.
    + by exists ws.
Qed.

Lemma tx_begin_rel s v t :
  tx_rel x0 blocks d0 w0 s v t ->
  match tx_step (l_size x0) TBegin t with
  | TxOk t' => exists s' v', run_tx TBegin s = Ret tt s' /\ tx_rel x0 blocks d0 w0 s' v' t'
  | TxWait => run_tx TBegin s = OutOfFuel
  | TxPanic _ => False
  end.
Proof.
  intros [Ho (P1 & P2 & P3) (O1 & O2) Hl Hcur Hcom Hw].
  pose proof (logged_length _ _ Ho) as Hlen. rewrite Hl in Hlen. pose proof (lo_n _ _ Ho) as [Hn1 Hn2].
  cbn [tx_step run_tx]. unfold begin_op. erewrite bind_ret by reflexivity. rewrite O2, O1.
  replace (Z.of_nat (length (t_logged t))) with (lh_n (lg s)) by lia.
  destruct (LOGSIZE <? _); [done|]. eexists _, v. split; [reflexivity|].
  split; cbn [t_out t_logged t_cur t_coms lg lg_cache]; try done.
  - destruct Ho as [A1 A2 A3 A4 A5 A6 A7 A8]. split; try done. by destruct A2.
  - simpl. by rewrite O1.
Qed.

Lemma tx_steps_rel ops : forall s v t,
  tx_rel x0 blocks d0 w0 s v t -> Forall (tx_block_ok x0 blocks) ops ->
  match tx_steps (l_size x0) ops t with
  | TxOk t' => exists s' v', run_txs ops s = Ret tt s' /\ tx_rel x0 blocks d0 w0 s' v' t'
  | TxWait => run_txs ops s = OutOfFuel
  | TxPanic msg => run_txs ops s = Panic msg
  end.
Proof.
  induction ops as [|op ops IH]; intros s v t Hr Hops; [by exists s, v|].
  apply Forall_cons in Hops as [Hop Hops]. cbn [tx_steps run_txs].
  assert (Hstep : match tx_step (l_size x0) op t with
    | TxOk t' => exists s' v', run_tx op s = Ret tt s' /\ tx_rel x0 blocks d0 w0 s' v' t'
    | TxWait => run_tx op s = OutOfFuel
    | TxPanic msg => run_tx op s = Panic msg end).
  { destruct op as [|n f|].
    - pose proof (tx_begin_rel s v t Hr) as Hb. by destruct (tx_step _ TBegin t).
    - pose proof (tx_write_rel n f s v t Hr (proj1 Hop) (proj2 Hop)) as Hb. by destruct (tx_step _ (TWrite n f) t).
    - destruct (tx_end_rel s v t Hr) as (t' & s' & v' & -> & H1 & H2). eauto. }
  destruct (tx_step (l_size x0) op t) as [t'| |msg].
  - destruct Hstep as (s' & v' & E & Hr'). specialize (IH s' v' t' Hr' Hops).
    rewrite (bind_ret _ _ _ _ _ E). done.
  - unfold mbind, M_bind. by rewrite Hstep.
  - by apply bind_panic.
Qed.
End History.

(** The in-memory log of a freshly booted kernel, once initlog has read the superblock. *)
Definition boot_log (logstart nlog : Z) : logstate :=
  mkLog logstart nlog 0 false 0 (replicate (Z.to_nat LOGSIZE) 0).

Lemma boot_rel s v logstart nlog :
  lg s = boot_log 0 0 -> cache_rep (lg_cache s) v -> v_held v = ∅ -> v_pinned v = ∅ ->
  geom (boot_log logstart nlog) (cache_blocks (lg_cache s)) ->
  disk_ok (boot_log logstart nlog) (cache_blocks (lg_cache s)) (v_disk v) ->
  exists s' v', initlog logstart nlog s = Ret tt s' /\
    tx_rel (boot_log logstart nlog) (cache_blocks (lg_cache s)) (v_disk v) (v_writes v) s' v'
      (mkTx 0 [] (redo (boot_log logstart nlog) (v_disk v)) [redo (boot_log logstart nlog) (v_disk v)]).
Proof.
  intros Hlg Hr Hh Hp Hg Hd. unfold initlog. rewrite (bind_ret _ _ _ _ _ (upd_log_run _ _)).
  rewrite Hlg. cbn [boot_log outstanding committing lh_n lh_block]. change (mkLog logstart nlog 0 false 0 _) with (boot_log logstart nlog).
  set (x := boot_log logstart nlog) in *. set (s1 := mkL _ x).
  assert (Heq : forall m, v_data v m = v_disk v m).
  { intros m. apply (clean_law _ _ _ Hr); [rewrite Hp|rewrite Hh]; apply not_elem_of_empty. }
  assert (Hd' : disk_ok x (cache_blocks (lg_cache s)) (v_data v)).
  { destruct Hd as [D1 D2 D3]. split; by rewrite Heq. }
  destruct (recover_run s1 v Hr Hg Hh Hp Hd') as (s' & v' & l & E & L & Z & W & Ho).
  exists s', v'. split; [done|]. cbn [s1 lg] in W, L.
  assert (Hrw : recover_writes x (v_data v) = recover_writes x (v_disk v)).
  { unfold recover_writes. rewrite Heq. f_equal. apply install_writes_ext. intros. apply Heq. }
  rewrite Hrw in W.
  assert (Hred : forall m, data_block x m -> v_disk v' m = redo x (v_disk v) m).
  { intros m Hm. rewrite <- (redo_empty x (v_disk v') m) by (pose proof (lo_header _ _ Ho) as E0; by rewrite L in E0).
    rewrite (redo_ext x _ (apply_writes (take (length (recover_writes x (v_disk v))) (recover_writes x (v_disk v))) (v_disk v))).
    - by apply (recover_crash x _ _ (cache_blocks (lg_cache s))).
    - intros k. rewrite firstn_all. apply (w_disk _ _ _ W). }
  split; cbn [t_out t_logged t_cur t_coms]; try done.
  - by rewrite L.
  - by rewrite L.
  - rewrite L. done.
  - intros m Hm. rewrite <- Hred by done. apply (log_clean s' v'); [done|]. rewrite L. apply not_elem_of_nil.
  - by eexists _, [].
  - exists (recover_writes x (v_disk v)). split; [apply (w_writes _ _ _ W)|]. split; [apply (w_disk _ _ _ W)|].
    intros k. eexists. split; [by left|]. intros m Hm. by apply (recover_crash x _ _ (cache_blocks (lg_cache s))).
Qed.

(** C1: atomicity and durability of the log. The kernel boots on any disk whose log header is
    well formed, recovering what was committed before; then system calls run through begin_op,
    log_write and end_op in any order. The calls succeed, wait or panic exactly as the space
    accounting of [tx_step] says; they see each other's writes; and whenever the machine
    crashes, after any prefix of all the disk writes made since boot, recovery and commits
    included, the next recovery finds outside the log exactly the contents of one of the
    commits so far (or of the boot), never a part of a transaction; once the last commit is
    complete, it finds that one. *)
Theorem log_crash_atomic (s : lstate T) (v : cview) (logstart nlog : Z) (ops : list tx_op)
    (Hlg : lg s = boot_log 0 0) (Hr : cache_rep (lg_cache s) v) (Hh : v_held v = ∅) (Hp : v_pinned v = ∅)
    (Hg : geom (boot_log logstart nlog) (cache_blocks (lg_cache s)))
    (Hd : disk_ok (boot_log logstart nlog) (cache_blocks (lg_cache s)) (v_disk v))
    (Hops : Forall (tx_block_ok (boot_log logstart nlog) (cache_blocks (lg_cache s))) ops) :
  let x := boot_log logstart nlog in
  let d := v_disk v in
  match tx_steps nlog ops (mkTx 0 [] (redo x d) [redo x d]) with
  | TxOk t => exists s' v' ws, (initlog logstart nlog;; run_txs ops) s = Ret tt s' /\
      cache_rep (lg_cache s') v' /\ v_writes v' = v_writes v ++ ws /\
      (forall m, data_block x m -> v_data v' m = t_cur t m) /\
      (forall k, exists c, c ∈ t_coms t /\
         forall m, data_block x m -> redo x (apply_writes (take k ws) d) m = c m) /\
      (exists c coms, t_coms t = c :: coms /\
         forall m, data_block x m -> redo x (apply_writes ws d) m = c m)
  | TxWait => (initlog logstart nlog;; run_txs ops) s = OutOfFuel
  | TxPanic msg => (initlog logstart nlog;; run_txs ops) s = Panic msg
  end.
Proof.
  intros x d. destruct (boot_rel s v logstart nlog Hlg Hr Hh Hp Hg Hd) as (s1 & v1 & E1 & Hrel).
  fold x d in Hrel. pose proof (tx_steps_rel x _ d _ ops s1 v1 _ Hrel Hops) as Hrun.
  change (l_size x) with nlog in Hrun. rewrite (bind_ret _ _ _ _ _ E1).
  destruct (tx_steps nlog ops _) as [t| |msg]; try done.
  destruct Hrun as (s2 & v2 & E2 & [Ho (P1 & _) _ _ Hcur (c & coms & Ec & Hc) (ws & W1 & W2 & W3)]).
  exists s2, v2, ws. split_and!; try done; [apply (lo_rep _ _ Ho)|].
  exists c, coms. split; [done|]. intros m Hm. rewrite (redo_ext x _ (v_disk v2)) by (intros; by rewrite W2).
  rewrite redo_empty by (rewrite <- P1; apply (lo_header _ _ Ho)). by apply Hc.
Qed.

(** The accounting of begin_op lets three calls of MAXOPBLOCKS writes each start; a log of
    LOGSIZE blocks, as mkfs makes it, has room for one block less. *)
Definition three_full_calls (first : Z) : list tx_op :=
  [TBegin; TBegin; TBegin] ++ map (fun i => TWrite (first + i) (fun b => b)) (seqZ 0 (3 * MAXOPBLOCKS)).

Lemma tx_steps_panic d : tx_steps LOGSIZE (three_full_calls 100) (mkTx 0 [] d [d]) = TxPanic "too big a transaction".
Proof. reflexivity. Qed.

(** C37: three concurrent system calls that keep to their MAXOPBLOCKS blocks each, and that
    begin_op has all let in, panic the kernel on a log of LOGSIZE blocks: begin_op reserves
    LOGSIZE blocks, of which one holds the log header. *)
Theorem full_reservation_panics (s : lstate T) (v : cview) (logstart : Z)
    (Hlg : lg s = boot_log 0 0) (Hr : cache_rep (lg_cache s) v) (Hh : v_held v = ∅) (Hp : v_pinned v = ∅)
    (Hg : geom (boot_log logstart LOGSIZE) (cache_blocks (lg_cache s)))
    (Hd : disk_ok (boot_log logstart LOGSIZE) (cache_blocks (lg_cache s)) (v_disk v))
    (Hplace : logstart + LOGSIZE <= 100) (Hsize : 130 <= cache_blocks (lg_cache s)) :
  (initlog logstart LOGSIZE;; run_txs (three_full_calls 100)) s = Panic "too big a transaction".
Proof.
  destruct (boot_rel s v logstart LOGSIZE Hlg Hr Hh Hp Hg Hd) as (s1 & v1 & E1 & Hrel).
  rewrite (bind_ret _ _ _ _ _ E1).
  pose proof (tx_steps_rel _ _ _ _ (three_full_calls 100) s1 v1 _ Hrel) as Hrun.
  change (l_size (boot_log logstart LOGSIZE)) with LOGSIZE in Hrun. rewrite tx_steps_panic in Hrun. apply Hrun.
  unfold three_full_calls. apply Forall_app. split; [repeat constructor|].
  apply Forall_forall. intros op (i & -> & Hi)%list_elem_of_fmap. apply elem_of_seqZ in Hi.
  unfold MAXOPBLOCKS, tx_block_ok, data_block in *. cbn [l_start l_size boot_log].
  unfold LOGSIZE, MAXOPBLOCKS in *. lia.
Qed.
End Log.
