(* ===== verification/LogDemo.v ===== *)
(** * LogDemo: the log on the buffer cache, from a disk with a transaction to recover

    The disk has a log of 30 blocks from block 2 on, whose header says that block 40 is to be
    replaced by the first log block. *)

From S2P Require Import Prelude Memory Cache Bio Log.

Definition zero_block : block := fun _ => 0.
Definition demo_disk : Z -> block := fun n =>
  if n =? 2 then store_header 1 [40] zero_block
  else if n =? 3 then store8 zero_block 0 7 else zero_block.
Definition empty_disk : Z -> block := fun _ => zero_block.

Definition demo_kernel (d : Z -> block) : lstate bstate :=
  mkL (binit (Z.to_nat NBUF) d 1000 1) (boot_log 0 0).
Definition demo_view (d : Z -> block) : cview := mkView d d ∅ ∅ [].

Lemma demo_geom : geom (T := bstate) (boot_log 2 LOGSIZE) 1000.
Proof.
  split; cbn [boot_log l_start l_size lh_block]; unfold LOGSIZE, MAXOPBLOCKS; try lia; [|done].
  change (cache_size (S := bstate)) with (Z.to_nat NBUF). unfold NBUF, MAXOPBLOCKS. lia.
Qed.

Lemma demo_disk_ok : disk_ok (boot_log 2 LOGSIZE) 1000 demo_disk.
Proof.
  assert (E : header_list (demo_disk 2) = [40]) by reflexivity.
  split; cbn [boot_log l_start l_size].
  - split; vm_compute; [reflexivity|discriminate].
  - rewrite E. apply NoDup_singleton.
  - rewrite E. intros n ->%list_elem_of_singleton. unfold data_block; cbn [boot_log l_start l_size]; unfold LOGSIZE, MAXOPBLOCKS; lia.
Qed.
Lemma empty_disk_ok : disk_ok (boot_log 2 LOGSIZE) 1000 empty_disk.
Proof.
  assert (E : header_list (empty_disk 2) = []) by reflexivity.
  split; cbn [boot_log l_start l_size].
  - split; vm_compute; [reflexivity|discriminate].
  - rewrite E. constructor.
  - rewrite E. by intros n ?%elem_of_nil.
Qed.

(** Two calls share a commit; block 40 shows the recovered contents; a crash leaves both
    writes or neither. *)
Definition demo_calls : list tx_op :=
  [TBegin; TWrite 50 (fun b => store8 b 0 1); TBegin; TWrite 51 (fun b => store8 b 0 2); TEnd; TEnd].

Lemma log_crash_atomic_witness :
  exists s' v' ws, (initlog 2 LOGSIZE;; run_txs demo_calls) (demo_kernel demo_disk) = Ret tt s' /\
    v_writes v' = ws /\ load8 (v_data v' 40) 0 = 7 /\ load8 (v_data v' 50) 0 = 1 /\
    forall k, exists c, load8 (c 40) 0 = 7 /\ (load8 (c 50) 0 =? 1) = (load8 (c 51) 0 =? 2) /\
      forall m, data_block (boot_log 2 LOGSIZE) m ->
        redo (boot_log 2 LOGSIZE) (apply_writes (take k ws) demo_disk) m = c m.
Proof.
  assert (Hops : Forall (tx_block_ok (boot_log 2 LOGSIZE) 1000) demo_calls).
  { unfold demo_calls, tx_block_ok, data_block. simpl. repeat constructor; unfold LOGSIZE, MAXOPBLOCKS; lia. }
  pose proof (log_crash_atomic (demo_kernel demo_disk) (demo_view demo_disk) 2 LOGSIZE demo_calls
    eq_refl (binit_rep demo_disk 1000 1) eq_refl eq_refl demo_geom demo_disk_ok Hops) as Hlog.
  cbv zeta in Hlog. cbn [demo_calls tx_steps tx_step t_out t_logged t_cur t_coms length] in Hlog.
  destruct Hlog as (s' & v' & ws & H1 & _ & H3 & H4 & H5 & _).
  exists s', v', ws. split; [exact H1|]. split; [exact H3|].
  split; [|split].
  - rewrite H4; [vm_compute; reflexivity|]. unfold data_block. simpl. unfold LOGSIZE, MAXOPBLOCKS. lia.
  - rewrite H4; [vm_compute; reflexivity|]. unfold data_block. simpl. unfold LOGSIZE, MAXOPBLOCKS. lia.
  - intros k. destruct (H5 k) as (c & Hc & Hredo). exists c.
    apply elem_of_cons in Hc as [->|Hc]; [split; [reflexivity|split; [reflexivity|exact Hredo]]|].
    apply list_elem_of_singleton in Hc as ->. split; [reflexivity|split; [reflexivity|exact Hredo]].
Defined.

Lemma full_reservation_panics_witness :
  (initlog 2 LOGSIZE;; run_txs (three_full_calls 100)) (demo_kernel empty_disk) = Panic "too big a transaction".
Proof.
  assert (Hr : cache_rep (lg_cache (demo_kernel empty_disk)) (demo_view empty_disk)) by exact (binit_rep empty_disk 1000 1).
  assert (Hp : 2 + LOGSIZE <= 100) by discriminate.
  assert (Hs : 130 <= cache_blocks (lg_cache (demo_kernel empty_disk))) by discriminate.
  exact (full_reservation_panics (demo_kernel empty_disk) (demo_view empty_disk) 2
    eq_refl Hr eq_refl eq_refl demo_geom empty_disk_ok Hp Hs).
Defined.
