(* ===== verification/Tx.v ===== *)
(** * Tx: what the log promises to the code that runs inside a transaction

    Between begin_op and end_op a system call reads blocks with bread and brelse, and changes
    them with a store into the buffer followed by log_write. [LoggedDisk] lists those
    operations with their laws; the instance at the end proves them of log.c over any buffer
    cache. The file system of [Fs] uses nothing else. *)

From S2P Require Import Prelude Memory Spinlock Cache Log.

(** What a transaction sees: the blocks' contents, the blocks logged since the last commit, and
    the block each buffer it holds caches. *)
Record dview : Type := mkD {
  dv_data : Z -> block;
  dv_logged : gset Z;
  dv_held : gmap nat Z
}.

Definition dv_hold (i : nat) (n : Z) (v : dview) : dview :=
  mkD (dv_data v) (dv_logged v) (<[i := n]> (dv_held v)).
Definition dv_release (i : nat) (v : dview) : dview :=
  mkD (dv_data v) (dv_logged v) (delete i (dv_held v)).
Definition dv_write (n : Z) (x : block) (v : dview) : dview :=
  mkD (upd_block (dv_data v) n x) ({[n]} ∪ dv_logged v) (dv_held v).

(** What stays fixed while blocks are read and written: the size of the disk, the blocks the log
    can take, the number of buffers, the place of the log, and the log's account of the calls in
    progress and of a commit. *)
Record geometry : Type := mkGeom {
  g_blocks : Z;
  g_room : nat;
  g_bufs : nat;
  g_logstart : Z;
  g_logsize : Z;
  g_calls : Z * bool
}.
Definition in_log (g : geometry) (n : Z) : Prop := g_logstart g <= n < g_logstart g + g_logsize g.

Class LoggedDisk (S : Type) : Type := {
  disk_bread : Z -> M S nat;
  disk_data : nat -> M S block;
  disk_store : nat -> (block -> block) -> M S unit;
  disk_log_write : nat -> M S unit;
  disk_brelse : nat -> M S unit;

  disk_rep : geometry -> S -> dview -> Prop;

  ld_bread g s v n :
    disk_rep g s v -> (forall i, dv_held v !! i <> Some n) -> 0 <= n < g_blocks g ->
    (size (dv_logged v) + size (dv_held v) < g_bufs g)%nat ->
    exists i s', disk_bread n s = Ret i s' /\ dv_held v !! i = None /\ disk_rep g s' (dv_hold i n v);
  ld_data g s v i n :
    disk_rep g s v -> dv_held v !! i = Some n -> disk_data i s = Ret (dv_data v n) s;
  ld_write g s v i n f :
    disk_rep g s v -> dv_held v !! i = Some n -> (size (dv_logged v) < g_room g)%nat -> ~ in_log g n ->
    exists s', (disk_store i f;; disk_log_write i) s = Ret tt s' /\
      disk_rep g s' (dv_write n (f (dv_data v n)) v);
  ld_write_full g s v i n f :
    disk_rep g s v -> dv_held v !! i = Some n -> (g_room g <= size (dv_logged v))%nat ->
    exists msg, (disk_store i f;; disk_log_write i) s = Panic msg;
  ld_brelse g s v i n :
    disk_rep g s v -> dv_held v !! i = Some n ->
    exists s', disk_brelse i s = Ret tt s' /\ disk_rep g s' (dv_release i v)
}.

(** ** Running code over a logged disk

    The state of the code above is a disk and a core of its own. [wp m v c Q E]: started with
    the disk showing [v] and the core [c], [m] returns with [Q] or panics with a message in
    [E]; it never faults or waits. *)
Record fstate (T C : Type) : Type := mkF { fs_disk : T; fs_core : C }.
Arguments mkF {T C}.
Arguments fs_disk {T C}.
Arguments fs_core {T C}.

Section Wp.
Context {T C : Type} `{LoggedDisk T} (g : geometry).
Abbreviation F := (M (fstate T C)).

Definition in_disk {A : Type} (m : M T A) : F A := zoom fs_disk (fun d s => mkF d (fs_core s)) m.
Definition fs_get : F C := gets fs_core.
Definition upd_core (f : C -> C) : F unit := modify (fun s => mkF (fs_disk s) (f (fs_core s))).

Definition fs_bread (n : Z) : F nat := in_disk (disk_bread n).
Definition fs_data (i : nat) : F block := in_disk (disk_data i).
Definition fs_log_write (i : nat) (f : block -> block) : F unit := in_disk (disk_store i f;; disk_log_write i).
Definition fs_brelse (i : nat) : F unit := in_disk (disk_brelse i).

Definition no_panic (msg : string) : Prop := False.

Definition wp {A : Type} (m : F A) (v : dview) (c : C) (Q : A -> dview -> C -> Prop) (E : string -> Prop) : Prop :=
  forall d, disk_rep g d v ->
    match m (mkF d c) with
    | Ret a s => exists v', disk_rep g (fs_disk s) v' /\ Q a v' (fs_core s)
    | Panic msg => E msg
    | _ => False
    end.

Lemma wp_ret {A : Type} (a : A) v c (Q : A -> dview -> C -> Prop) E : Q a v c -> wp (ret a) v c Q E.
Proof. intros HQ d Hd. simpl. by exists v. Qed.

Lemma wp_panic {A : Type} msg v c (Q : A -> dview -> C -> Prop) (E : string -> Prop) : E msg -> wp (panic msg) v c Q E.
Proof. intros HE d Hd. done. Qed.

Lemma wp_bind {A B : Type} (m : F A) (k : A -> F B) v c Q E :
  wp m v c (fun a v c => wp (k a) v c Q E) E -> wp (m ≫= k) v c Q E.
Proof.
  intros Hm d Hd. specialize (Hm d Hd). unfold mbind, M_bind.
  destruct (m (mkF d c)) as [a [d' c']| | |]; try done. destruct Hm as (v' & Hd' & HQ). exact (HQ _ Hd').
Qed.

Lemma wp_mono {A : Type} (m : F A) v c Q (Q' : A -> dview -> C -> Prop) (E E' : string -> Prop) :
  wp m v c Q E -> (forall a v c, Q a v c -> Q' a v c) -> (forall msg, E msg -> E' msg) -> wp m v c Q' E'.
Proof.
  intros Hm HQ HE d Hd. specialize (Hm d Hd). destruct (m (mkF d c)); try done; [|by apply HE].
  destruct Hm as (v' & Hd' & Hq). exists v'. by split; [|apply HQ].
Qed.

(** The rest of a sequence, after a part with a specification. *)
Lemma wp_then {A B : Type} (m : F A) (k : A -> F B) v c Q Q' (E : string -> Prop) :
  wp m v c Q' E -> (forall a v c, Q' a v c -> wp (k a) v c Q E) -> wp (m ≫= k) v c Q E.
Proof. intros Hm Hk. apply wp_bind. by eapply wp_mono. Qed.

Lemma wp_core {B : Type} (k : C -> F B) v c Q E : wp (k c) v c Q E -> wp (fs_get ≫= k) v c Q E.
Proof. intros Hk. apply wp_bind. intros d Hd. simpl. by exists v. Qed.

Lemma wp_upd_core {B : Type} f (k : unit -> F B) v c Q E : wp (k tt) v (f c) Q E -> wp (upd_core f ≫= k) v c Q E.
Proof. intros Hk. apply wp_bind. intros d Hd. simpl. by exists v. Qed.

Lemma wp_upd_core_last f v c (Q : unit -> dview -> C -> Prop) E : Q tt v (f c) -> wp (upd_core f) v c Q E.
Proof. intros Hk d Hd. simpl. by exists v. Qed.

Lemma wp_bread {B : Type} n (k : nat -> F B) v c Q E :
  (forall i, dv_held v !! i <> Some n) -> 0 <= n < g_blocks g ->
  (size (dv_logged v) + size (dv_held v) < g_bufs g)%nat ->
  (forall i, dv_held v !! i = None -> wp (k i) (dv_hold i n v) c Q E) ->
  wp (fs_bread n ≫= k) v c Q E.
Proof.
  intros Hh Hn Hs Hk. apply wp_bind. intros d Hd.
  destruct (ld_bread g d v n Hd Hh Hn Hs) as (i & d' & Eb & Hi & Hd').
  unfold fs_bread, in_disk, zoom. simpl. rewrite Eb. exists (dv_hold i n v). split; [done|]. by apply Hk.
Qed.

Lemma wp_bdata {B : Type} i n (k : block -> F B) v c Q E :
  dv_held v !! i = Some n -> wp (k (dv_data v n)) v c Q E -> wp (fs_data i ≫= k) v c Q E.
Proof.
  intros Hi Hk. apply wp_bind. intros d Hd. unfold fs_data, in_disk, zoom. simpl.
  rewrite (ld_data g d v i n Hd Hi). by exists v.
Qed.

Lemma wp_blogged {B : Type} i n f (k : unit -> F B) v c Q E :
  dv_held v !! i = Some n -> (size (dv_logged v) < g_room g)%nat -> ~ in_log g n ->
  wp (k tt) (dv_write n (f (dv_data v n)) v) c Q E ->
  wp (fs_log_write i f ≫= k) v c Q E.
Proof.
  intros Hi Hs Hn Hk. apply wp_bind. intros d Hd. unfold fs_log_write, in_disk, zoom.
  destruct (ld_write g d v i n f Hd Hi Hs Hn) as (d' & Ew & Hd'). cbn [fs_disk]. rewrite Ew. by eexists.
Qed.

Lemma wp_brelse {B : Type} i n (k : unit -> F B) v c Q E :
  dv_held v !! i = Some n -> wp (k tt) (dv_release i v) c Q E -> wp (fs_brelse i ≫= k) v c Q E.
Proof.
  intros Hi Hk. apply wp_bind. intros d Hd. unfold fs_brelse, in_disk, zoom. simpl.
  destruct (ld_brelse g d v i n Hd Hi) as (d' & Eb & Hd'). rewrite Eb. by eexists.
Qed.

Lemma wp_brelse_last i n v c (Q : unit -> dview -> C -> Prop) E :
  dv_held v !! i = Some n -> Q tt (dv_release i v) c -> wp (fs_brelse i) v c Q E.
Proof.
  intros Hi HQ d Hd. unfold fs_brelse, in_disk, zoom. simpl.
  destruct (ld_brelse g d v i n Hd Hi) as (d' & Eb & Hd'). rewrite Eb. by eexists.
Qed.
End Wp.

(** ** The log keeps the promise *)

Section LogInstance.
Context {T : Type} `{BlockCache T}.
Implicit Types (s : lstate T) (cv : cview) (v : dview) (g : geometry).

(** The log takes blocks only while a call is in progress. *)
Definition log_room (x : logstate) : nat :=
  if 1 <=? outstanding x then Z.to_nat (LOGSIZE `min` (l_size x - 1)) else 0.
Definition log_geometry s : geometry :=
  mkGeom (cache_blocks (lg_cache s)) (log_room (lg s)) cache_size (l_start (lg s)) (l_size (lg s)) (outstanding (lg s), committing (lg s)).

(** [log_ok], with buffers held. *)
Record tx_rep g s v cv : Prop := {
  tx_cache : cache_rep (lg_cache s) cv;
  tx_geom : geom (lg s) (cache_blocks (lg_cache s));
  tx_n : 0 <= lh_n (lg s) < l_size (lg s) /\ lh_n (lg s) <= LOGSIZE;
  tx_nodup : NoDup (logged (lg s));
  tx_pinned : v_pinned cv = list_to_set (logged (lg s));
  tx_blocks : forall n, n ∈ logged (lg s) -> data_block (lg s) n /\ 0 <= n < cache_blocks (lg_cache s);
  tx_header : header_n (v_disk cv (l_start (lg s))) = 0;
  tx_g : g = log_geometry s;
  tx_data : v_data cv = dv_data v;
  tx_logged : v_pinned cv = dv_logged v;
  tx_held : forall n, n ∈ v_held cv <-> exists i, dv_held v !! i = Some n;
  tx_inj : forall i j n, dv_held v !! i = Some n -> dv_held v !! j = Some n -> i = j;
  tx_bufs : forall i n, dv_held v !! i = Some n -> cache_buf (lg_cache s) i n /\ 0 <= n < cache_blocks (lg_cache s);
  tx_tidy : forall n, n ∉ v_pinned cv -> v_data cv n = v_disk cv n
}.

Lemma size_list_to_set_le (l : list Z) : (size (list_to_set l : gset Z) <= length l)%nat.
Proof.
  induction l as [|n l IH]; [rewrite list_to_set_nil, size_empty; simpl; lia|].
  rewrite list_to_set_cons, length_cons, size_union_alt, size_singleton.
  pose proof (subseteq_size ((list_to_set l : gset Z) ∖ {[n]}) (list_to_set l) ltac:(set_solver)). lia.
Qed.

Lemma held_size g s v cv : tx_rep g s v cv -> (size (v_held cv) <= size (dv_held v))%nat.
Proof.
  intros R. rewrite <- length_map_to_list, <- (length_fmap snd).
  etransitivity; [|apply size_list_to_set_le]. apply subseteq_size. intros n (i & Hi)%(tx_held _ _ _ _ R).
  apply elem_of_list_to_set, list_elem_of_fmap. exists (i, n). split; [done|]. by apply elem_of_map_to_list.
Qed.

Lemma tx_logged_size g s v cv : tx_rep g s v cv -> size (dv_logged v) = Z.to_nat (lh_n (lg s)).
Proof.
  intros R. rewrite <- (tx_logged _ _ _ _ R), (tx_pinned _ _ _ _ R), size_list_to_set by apply (tx_nodup _ _ _ _ R).
  destruct (tx_n _ _ _ _ R), (tx_geom _ _ _ _ R). unfold logged. rewrite length_take.
  unfold LOGSIZE, MAXOPBLOCKS in *. lia.
Qed.

Lemma tx_bread g s v n :
  (exists cv, tx_rep g s v cv) -> (forall i, dv_held v !! i <> Some n) -> 0 <= n < g_blocks g ->
  (size (dv_logged v) + size (dv_held v) < g_bufs g)%nat ->
  exists i s', in_cache (cache_bread n) s = Ret i s' /\ dv_held v !! i = None /\
    exists cv, tx_rep g s' (dv_hold i n v) cv.
Proof.
  intros (cv & R) Hn Hr Hs. pose proof (held_size _ _ _ _ R) as Hsz.
  rewrite (tx_g _ _ _ _ R) in Hr, Hs. simpl in Hr, Hs.
  destruct (bread_law (lg_cache s) cv n) as (i & c & E & R' & Hb & Ho & Hz); [apply (tx_cache _ _ _ _ R)| |done| |].
  { rewrite (tx_held _ _ _ _ R). intros (i & Hi). by eapply Hn. }
  { right. eapply Nat.le_lt_trans; [|exact Hs]. rewrite size_union_alt, (tx_logged _ _ _ _ R).
    pose proof (subseteq_size (v_held cv ∖ dv_logged v) (v_held cv) ltac:(set_solver)). lia. }
  assert (Hi : dv_held v !! i = None).
  { destruct (dv_held v !! i) as [m|] eqn:Em; [exfalso|done].
    destruct (tx_bufs _ _ _ _ R _ _ Em) as [Hm _]. pose proof (blockno_law _ _ _ (Ho _ _ Hm)) as E1.
    pose proof (blockno_law _ _ _ Hb) as E2. rewrite E1 in E2. injection E2 as ->. by eapply Hn. }
  exists i, (mkL c (lg s)). split; [by apply (in_cache_run _ s)|]. split; [done|]. exists (v_hold n cv).
  destruct R. split; cbn [lg lg_cache v_hold v_pinned v_disk v_data v_held dv_hold dv_data dv_logged dv_held]; unfold log_geometry; cbn [lg lg_cache]; rewrite ?Hz; try done.
  - intros m. rewrite elem_of_union, elem_of_singleton, tx_held0. split.
    + intros [->|(j & Hj)]; [exists i; apply lookup_insert_eq|]. exists j. rewrite lookup_insert_ne by congruence. done.
    + intros (j & [[<- <-]|[_ Hj]]%lookup_insert_Some); [by left|right; by exists j].
  - intros j k m [[<- <-]|[Hj1 Hj2]]%lookup_insert_Some [[<- Hk]|[Hk1 Hk2]]%lookup_insert_Some; try done.
    + by destruct (Hn k).
    + subst m. by destruct (Hn j).
    + by eapply tx_inj0.
  - intros j m [[<- <-]|[Hj1 Hj2]]%lookup_insert_Some; [done|]. destruct (tx_bufs0 _ _ Hj2). split; [by apply Ho|done].
Qed.

Lemma tx_write_held g s v i n f :
  (exists cv, tx_rep g s v cv) -> dv_held v !! i = Some n -> (size (dv_logged v) < g_room g)%nat -> ~ in_log g n ->
  exists s', (in_cache (cache_store i f);; log_write i) s = Ret tt s' /\
    exists cv, tx_rep g s' (dv_write n (f (dv_data v n)) v) cv.
Proof.
  intros (cv & R) Hi Hs Hn. pose proof (tx_logged_size _ _ _ _ R) as Hlen.
  rewrite (tx_g _ _ _ _ R) in Hs, Hn. unfold in_log in Hn. simpl in Hs, Hn. unfold log_room in Hs.
  destruct (Z.leb_spec 1 (outstanding (lg s))) as [Hout|]; [|lia].
  destruct (tx_bufs _ _ _ _ R _ _ Hi) as [Hb Hnr].
  destruct (store_law _ _ _ _ f (tx_cache _ _ _ _ R) Hb) as (c & Es & Rs & Is & Zs).
  rewrite (bind_ret _ _ _ _ _ (in_cache_run _ s _ _ Es)).
  pose proof (tx_n _ _ _ _ R) as [Hn1 Hn2]. pose proof (tx_geom _ _ _ _ R) as Hgeo.
  destruct (log_write_run (mkL c (lg s)) _ i n Rs (Is _ _ Hb)) as (c' & y & Ew & Rw & Iw & Zw & G1 & G2 & G3 & G4 & G5 & G6 & G7);
    cbn [lg lg_cache] in *; [lia|lia|done|apply Hgeo|].
  exists (mkL c' y). split; [done|]. exists (v_pin n (v_store n (f (v_data cv n)) cv)).
  assert (Hy : lh_n y = lh_n (lg s) \/ lh_n y = lh_n (lg s) + 1).
  { rewrite G2, G1. pose proof (tx_pinned _ _ _ _ R) as Hp. rewrite (tx_logged _ _ _ _ R) in Hp. rewrite Hp in Hlen.
    rewrite size_list_to_set in Hlen by apply (tx_nodup _ _ _ _ R).
    destruct (decide _); [left|right; rewrite length_app; simpl]; lia. }
  assert (Hplace : forall m, data_block y m <-> data_block (lg s) m) by (intros m; by apply place_data).
  assert (Hblocks : cache_blocks c' = cache_blocks (lg_cache s)) by congruence.
  destruct R. split; cbn [lg lg_cache v_store v_pin v_pinned v_disk v_data v_held dv_write dv_data dv_logged dv_held];
    unfold log_geometry, log_room in *; cbn [lg lg_cache] in *; rewrite ?Hblocks, ?G4, ?G5, ?G6, ?G7; try done.
  - destruct tx_geom0. split; rewrite ?G4, ?G5; try done. congruence.
  - lia.
  - rewrite G1. destruct (decide (n ∈ logged (lg s))); [done|]. apply NoDup_app. split; [done|].
    split; [|apply NoDup_singleton]. intros m Hm Hmn%list_elem_of_singleton. congruence.
  - rewrite G1, tx_pinned0. destruct (decide (n ∈ logged (lg s))) as [Hin|Hin].
    + apply set_eq. intros m. rewrite elem_of_union, elem_of_singleton, elem_of_list_to_set. naive_solver.
    + rewrite list_to_set_app_L. set_solver.
  - intros m Hm. rewrite Hplace. rewrite G1 in Hm. destruct (decide (n ∈ logged (lg s))); [by apply tx_blocks0|].
    apply elem_of_app in Hm as [Hm| ->%list_elem_of_singleton]; [by apply tx_blocks0|done].
  - by rewrite tx_data0.
  - by rewrite tx_logged0.
  - intros j m Hj. destruct (tx_bufs0 _ _ Hj). split; [by apply Iw, Is|done].
  - intros m Hm. rewrite upd_block_ne by set_solver. apply tx_tidy0. set_solver.
Qed.

Lemma tx_write_full g s v i n f :
  (exists cv, tx_rep g s v cv) -> dv_held v !! i = Some n -> (g_room g <= size (dv_logged v))%nat ->
  exists msg, (in_cache (cache_store i f);; log_write i) s = Panic msg.
Proof.
  intros (cv & R) Hi Hs. rewrite (tx_logged_size _ _ _ _ R), (tx_g _ _ _ _ R) in Hs. simpl in Hs.
  destruct (tx_bufs _ _ _ _ R _ _ Hi) as [Hb _]. pose proof (tx_n _ _ _ _ R) as [Hn1 Hn2].
  destruct (store_law _ _ _ _ f (tx_cache _ _ _ _ R) Hb) as (c & Es & _ & _ & _).
  rewrite (bind_ret _ _ _ _ _ (in_cache_run _ s _ _ Es)). unfold log_write. erewrite bind_ret by reflexivity. cbn [lg].
  unfold log_room in Hs. destruct (_ || _) eqn:Ef; [by eexists|]. to_prop.
  destruct (Z.leb_spec 1 (outstanding (lg s))) as [Hout|Hout]; [unfold LOGSIZE, MAXOPBLOCKS in *; lia|].
  rewrite (proj2 (Z.ltb_lt _ _)) by lia. by eexists.
Qed.

Lemma tx_brelse g s v i n :
  (exists cv, tx_rep g s v cv) -> dv_held v !! i = Some n ->
  exists s', in_cache (cache_brelse i) s = Ret tt s' /\ exists cv, tx_rep g s' (dv_release i v) cv.
Proof.
  intros (cv & R) Hi. destruct (tx_bufs _ _ _ _ R _ _ Hi) as [Hb _].
  destruct (brelse_law _ _ _ _ (tx_cache _ _ _ _ R) Hb) as (c & Er & Rr & Ir & Zr).
  { destruct (decide (n ∈ v_pinned cv)); [by left|right; by apply (tx_tidy _ _ _ _ R)]. }
  exists (mkL c (lg s)). split; [by apply (in_cache_run _ s)|]. exists (v_release n cv).
  destruct R. split; cbn [lg lg_cache v_release v_pinned v_disk v_data v_held dv_release dv_data dv_logged dv_held]; unfold log_geometry; cbn [lg lg_cache]; rewrite ?Zr; try done.
  - intros m. rewrite elem_of_difference, elem_of_singleton, tx_held0. split.
    + intros [(j & Hj) Hm]. exists j. rewrite lookup_delete_ne by congruence. done.
    + intros (j & [Hji Hj]%lookup_delete_Some). split; [by exists j|]. intros ->. apply Hji. by eapply tx_inj0.
  - intros j k m [_ Hj]%lookup_delete_Some [_ Hk]%lookup_delete_Some. by eapply tx_inj0.
  - intros j m [Hji Hj]%lookup_delete_Some. destruct (tx_bufs0 _ _ Hj). split; [|done]. apply Ir; [|done].
    intros ->. apply Hji. by eapply tx_inj0.
Qed.

Lemma tx_data_held g s v i n :
  (exists cv, tx_rep g s v cv) -> dv_held v !! i = Some n -> in_cache (cache_data i) s = Ret (dv_data v n) s.
Proof.
  intros (cv & R) Hi. destruct (tx_bufs _ _ _ _ R _ _ Hi) as [Hb _].
  rewrite <- (tx_data _ _ _ _ R), (in_cache_run _ s _ _ (data_law _ _ _ _ (tx_cache _ _ _ _ R) Hb)). by destruct s.
Qed.

#[global] Instance log_disk : LoggedDisk (lstate T) := {|
  disk_bread n := in_cache (cache_bread n);
  disk_data i := in_cache (cache_data i);
  disk_store i f := in_cache (cache_store i f);
  disk_log_write := log_write;
  disk_brelse i := in_cache (cache_brelse i);
  disk_rep g s v := exists cv, tx_rep g s v cv;
  ld_bread := tx_bread;
  ld_data := tx_data_held;
  ld_write := tx_write_held;
  ld_write_full := tx_write_full;
  ld_brelse := tx_brelse
|}.

(** A transaction starts from, and comes back to, the states the log's own theorems are about. *)
Lemma log_ok_tx s cv :
  log_ok s cv ->
  disk_rep (log_geometry s) s (mkD (v_data cv) (v_pinned cv) ∅).
Proof.
  intros Ho. exists cv. pose proof (log_clean s cv) as Hc. pose proof (lo_pinned _ _ Ho) as Hp.
  destruct Ho. split; cbn [dv_data dv_logged dv_held]; try done.
  - intros n. rewrite lo_held, elem_of_empty. split; [done|]. by intros (i & ?).
  - intros n Hn. apply Hc; [by split|]. by rewrite lo_pinned, elem_of_list_to_set in Hn.
Qed.

Lemma tx_log_ok g s v :
  disk_rep g s v -> dv_held v = ∅ -> exists cv, log_ok s cv /\ v_data cv = dv_data v /\ v_pinned cv = dv_logged v.
Proof.
  intros (cv & R) Hh. exists cv. destruct R. split; [|done]. split; try done.
  apply set_eq. intros n. rewrite tx_held0, Hh, elem_of_empty. split; [|done]. by intros (i & ?).
Qed.
End LogInstance.
