(* ===== verification/Fs.v ===== *)
(** * Fs: the blocks of the file system and their free bitmap (fs.c: readsb to bfree)

    The superblock says where the inodes, the bitmap and the data blocks are. There is one disk,
    so device numbers select nothing; they are kept where the code compares them. [fcore] is
    the state of fs.c besides the disk: the superblock, the inode cache of [Inode], the calling
    process's pid and the inode of its current directory. *)

From S2P Require Import Prelude Memory Spinlock Cache Bio Log Tx.

Record superblock : Type := mkSb {
  sb_size : Z;
  sb_nblocks : Z;
  sb_ninodes : Z;
  sb_nlog : Z;
  sb_logstart : Z;
  sb_inodestart : Z;
  sb_bmapstart : Z
}.

Record inode : Type := mkInode {
  i_dev : Z;
  i_inum : Z;
  i_ref : Z;
  i_lock : sleeplock;
  i_valid : bool;
  i_type : Z;
  i_major : Z;
  i_minor : Z;
  i_nlink : Z;
  i_size : Z;
  i_addrs : list Z
}.

Record fcore : Type := mkCore {
  sb : superblock;
  icache : list inode;
  fs_pid : Z;
  fs_cwd : nat
}.
Definition with_sb (x : superblock) (c : fcore) : fcore := mkCore x (icache c) (fs_pid c) (fs_cwd c).
Definition with_icache (l : list inode) (c : fcore) : fcore := mkCore (sb c) l (fs_pid c) (fs_cwd c).

Definition BPB : Z := BSIZE * 8.
Definition BBLOCK (b : Z) (x : superblock) : Z := u32 (b / BPB + sb_bmapstart x).

(** struct superblock as it lies in block 1: seven ints. *)
Definition superblock_of (x : block) : superblock :=
  mkSb (load32 x 0) (load32 x 4) (load32 x 8) (load32 x 12) (load32 x 16) (load32 x 20) (load32 x 24).

(** The bit of block [bi] in a bitmap block, and that byte with the bit set or cleared. *)
Definition bit_mask (bi : Z) : Z := Z.shiftl 1 (bi mod 8).
Definition bit_clear (x : block) (bi : Z) : bool := Z.land (load8 x (bi / 8)) (bit_mask bi) =? 0.
Definition mark_used (bi : Z) (x : block) : block :=
  store8 x (bi / 8) (Z.lor (load8 x (bi / 8)) (bit_mask bi)).
Definition mark_free (bi : Z) (x : block) : block :=
  store8 x (bi / 8) (Z.land (load8 x (bi / 8)) (Z.lnot (bit_mask bi))).

(** balloc's loop over the bits of one bitmap block: the first clear one. *)
Fixpoint free_bit (x : block) (b size bi : Z) (k : nat) : option Z :=
  match k with
  | O => None
  | S k =>
      if negb (u32 (b + bi) <? size) then None
      else if bit_clear x bi then Some bi
      else free_bit x b size (bi + 1) k
  end.

Section Blocks.
Context {T : Type} `{LoggedDisk T}.
Abbreviation F := (M (fstate T fcore)).

Definition readsb : F superblock :=
  bp ← fs_bread 1;
  x ← fs_data bp;
  fs_brelse bp;;
  ret (superblock_of x).

Definition bzero (bno : Z) : F unit :=
  bp ← fs_bread bno;
  fs_log_write bp (fun x => memset x 0 0 BSIZE);;
  fs_brelse bp.

Fixpoint balloc_loop (b : Z) (fuel : nat) : F Z :=
  match fuel with
  | O => fun _ => OutOfFuel
  | S fuel =>
      c ← fs_get;
      if negb (u32 b <? sb_size (sb c)) then panic "balloc: out of blocks"
      else
        bp ← fs_bread (BBLOCK b (sb c));
        x ← fs_data bp;
        match free_bit x b (sb_size (sb c)) 0 (Z.to_nat BPB) with
        | Some bi =>
            fs_log_write bp (mark_used bi);;
            fs_brelse bp;;
            bzero (b + bi);;
            ret (b + bi)
        | None => fs_brelse bp;; balloc_loop (s32 (b + BPB)) fuel
        end
  end.
(** One round per block of the bitmap, and the one that finds the end. *)
Definition balloc : F Z :=
  c ← fs_get;
  balloc_loop 0 (Z.to_nat (sb_size (sb c) / BPB + 2)).

Definition bfree (b : Z) : F unit :=
  c ← fs_get;
  bp ← fs_bread (BBLOCK b (sb c));
  x ← fs_data bp;
  panic_if (bit_clear x (b mod BPB)) "freeing free block";;
  fs_log_write bp (mark_free (b mod BPB));;
  fs_brelse bp.
End Blocks.

(** ** Bits *)

Lemma bit_clear_testbit x bi : bit_clear x bi = negb (Z.testbit (load8 x (bi / 8)) (bi mod 8)).
Proof.
  unfold bit_clear, bit_mask. pose proof (Z.mod_pos_bound bi 8). set (k := bi mod 8) in *. set (y := load8 x _).
  rewrite Z.shiftl_1_l. destruct (Z.testbit y k) eqn:E; simpl.
  - apply Z.eqb_neq. intros Z0. assert (Hk : Z.testbit (Z.land y (2 ^ k)) k = false) by (rewrite Z0; apply Z.bits_0).
    rewrite Z.land_spec, E, Z.pow2_bits_true in Hk by lia. done.
  - apply Z.eqb_eq, Z.bits_inj'. intros j Hj. rewrite Z.land_spec, Z.bits_0, Z.pow2_bits_eqb by lia.
    destruct (Z.eqb_spec k j) as [<-|]; [by rewrite E|apply andb_false_r].
Qed.

Lemma u8_testbit y j : 0 <= j < 8 -> Z.testbit (u8 y) j = Z.testbit y j.
Proof. intros Hj. unfold u8. by rewrite Z.mod_pow2_bits_low by lia. Qed.

Lemma load8_mark_used x bi a j :
  0 <= j < 8 ->
  Z.testbit (load8 (mark_used bi x) a) j = Z.testbit (load8 x a) j || ((a =? bi / 8) && (j =? bi mod 8)).
Proof.
  intros Hj. unfold mark_used. destruct (Z.eqb_spec a (bi / 8)) as [->|Hne].
  - rewrite load8_store8_eq, u8_testbit by done. unfold bit_mask. rewrite Z.shiftl_1_l, Z.lor_spec, Z.pow2_bits_eqb by dlia.
    by rewrite Z.eqb_sym.
  - rewrite load8_store8_ne by done. by rewrite orb_false_r.
Qed.

Lemma load8_mark_free x bi a j :
  0 <= j < 8 ->
  Z.testbit (load8 (mark_free bi x) a) j = Z.testbit (load8 x a) j && negb ((a =? bi / 8) && (j =? bi mod 8)).
Proof.
  intros Hj. unfold mark_free. destruct (Z.eqb_spec a (bi / 8)) as [->|Hne].
  - rewrite load8_store8_eq, u8_testbit by done. unfold bit_mask.
    rewrite Z.shiftl_1_l, Z.land_spec, Z.lnot_spec, Z.pow2_bits_eqb by dlia. by rewrite (Z.eqb_sym j).
  - rewrite load8_store8_ne by done. by rewrite andb_true_r.
Qed.

(** ** The bitmap *)

(** Block [b] is marked in use. *)
Definition used (x : superblock) (v : dview) (b : Z) : bool :=
  Z.testbit (load8 (dv_data v (BBLOCK b x)) (b mod BPB / 8)) (b mod 8).

(** The free blocks, the lowest first. *)
Definition free_list (x : superblock) (v : dview) : list Z :=
  filter (fun b => used x v b = false) (seqZ 0 (sb_size x)).

Definition data_start (x : superblock) : Z := sb_bmapstart x + sb_size x / BPB + 1.

(** The layout mkfs makes: log, inodes, bitmap, data, in this order. *)
Record sb_ok (g : geometry) (x : superblock) : Prop := {
  sbo_log : 0 <= g_logstart g /\ 0 <= g_logsize g /\ g_logstart g + g_logsize g <= sb_inodestart x;
  sbo_inodes : 0 <= sb_ninodes x /\ sb_inodestart x + sb_ninodes x / 8 < sb_bmapstart x;
  sbo_data : data_start x <= sb_size x;
  sbo_size : sb_size x <= g_blocks g /\ g_blocks g <= 2 ^ 30
}.

Section Bitmap.
Context (g : geometry) (x : superblock) (Hx : sb_ok g x).
Implicit Types (v : dview) (b m n : Z).

Definition bitmap_block n : Prop := sb_bmapstart x <= n < data_start x.
Definition in_range b : Prop := 0 <= b < sb_size x.

Lemma sb_bounds :
  0 < sb_bmapstart x < data_start x /\ data_start x <= sb_size x <= g_blocks g /\ g_blocks g <= 2 ^ 30 /\
  0 <= sb_inodestart x < sb_bmapstart x.
Proof.
  destruct Hx as [(A1 & A2 & A3) (B1 & B2) C (D1 & D2)]. unfold data_start, BPB, BSIZE in *. split_and!; try lia; dlia.
Qed.

Lemma not_in_log n : sb_inodestart x <= n -> ~ in_log g n.
Proof. destruct Hx as [(A1 & A2 & A3) _ _ _]. unfold in_log. lia. Qed.

Lemma BBLOCK_eq b : in_range b -> BBLOCK b x = b / BPB + sb_bmapstart x.
Proof.
  intros Hb. unfold BBLOCK, in_range in *. pose proof sb_bounds. apply u32_small. unfold BPB, BSIZE, data_start in *. dlia.
Qed.
Lemma BBLOCK_bitmap b : in_range b -> bitmap_block (BBLOCK b x).
Proof.
  intros Hb. rewrite BBLOCK_eq by done. unfold bitmap_block, in_range, data_start, BPB, BSIZE in *. dlia.
Qed.

Lemma same_bit b m :
  in_range b -> in_range m -> (BBLOCK m x = BBLOCK b x /\ (m mod BPB / 8 =? b mod BPB / 8) && (m mod 8 =? b mod 8) = true) <-> m = b.
Proof.
  intros Hb Hm. rewrite !BBLOCK_eq by done. rewrite andb_true_iff, !Z.eqb_eq. unfold in_range, BPB, BSIZE in *.
  split; [dlia|by intros ->; split_and!].
Qed.

Lemma mod_BPB_8 b : b mod BPB mod 8 = b mod 8.
Proof. unfold BPB, BSIZE. dlia. Qed.

Lemma used_ext v v' b : dv_data v' (BBLOCK b x) = dv_data v (BBLOCK b x) -> used x v' b = used x v b.
Proof. intros E. unfold used. by rewrite E. Qed.

Lemma used_write_other v n y b : ~ bitmap_block n -> in_range b -> used x (dv_write n y v) b = used x v b.
Proof.
  intros Hn Hb. apply used_ext. simpl. apply upd_block_ne. intros <-. by apply Hn, BBLOCK_bitmap.
Qed.

Lemma used_mark v b m :
  in_range b -> in_range m ->
  used x (dv_write (BBLOCK b x) (mark_used (b mod BPB) (dv_data v (BBLOCK b x))) v) m = used x v m || (m =? b).
Proof.
  intros Hb Hm. unfold used. simpl. rewrite upd_block_cases. pose proof (same_bit b m Hb Hm) as Hs.
  destruct (decide (BBLOCK m x = BBLOCK b x)) as [E|E].
  - rewrite load8_mark_used, mod_BPB_8, E by dlia. destruct (Z.eqb_spec m b) as [->|Hne].
    + by rewrite !Z.eqb_refl.
    + destruct ((m mod BPB / 8 =? b mod BPB / 8) && (m mod 8 =? b mod 8)) eqn:Eb; [exfalso; apply Hne, Hs; by split|by rewrite ?orb_false_r, ?andb_true_r].
  - destruct (Z.eqb_spec m b) as [->|Hne]; [done|by rewrite orb_false_r].
Qed.

Lemma used_unmark v b m :
  in_range b -> in_range m ->
  used x (dv_write (BBLOCK b x) (mark_free (b mod BPB) (dv_data v (BBLOCK b x))) v) m = used x v m && negb (m =? b).
Proof.
  intros Hb Hm. unfold used. simpl. rewrite upd_block_cases. pose proof (same_bit b m Hb Hm) as Hs.
  destruct (decide (BBLOCK m x = BBLOCK b x)) as [E|E].
  - rewrite load8_mark_free, mod_BPB_8, E by dlia. destruct (Z.eqb_spec m b) as [->|Hne].
    + by rewrite !Z.eqb_refl.
    + destruct ((m mod BPB / 8 =? b mod BPB / 8) && (m mod 8 =? b mod 8)) eqn:Eb; [exfalso; apply Hne, Hs; by split|by rewrite ?orb_false_r, ?andb_true_r].
  - destruct (Z.eqb_spec m b) as [->|Hne]; [done|by rewrite andb_true_r].
Qed.

Lemma bit_clear_used v b : in_range b -> bit_clear (dv_data v (BBLOCK b x)) (b mod BPB) = negb (used x v b).
Proof. intros Hb. rewrite bit_clear_testbit, mod_BPB_8. done. Qed.

(** ** The list of free blocks *)

Lemma filter_none {A} (P : A -> Prop) `{forall a, Decision (P a)} (l : list A) : (forall a, a ∈ l -> ~ P a) -> filter P l = [].
Proof.
  induction l as [|a l IH]; intros Hl; [done|]. rewrite filter_cons_False by (apply Hl; by left).
  apply IH. intros c Hc. apply Hl. by right.
Qed.

Lemma free_list_elem v b : b ∈ free_list x v <-> used x v b = false /\ in_range b.
Proof. unfold free_list. rewrite list_elem_of_filter, elem_of_seqZ. unfold in_range. rewrite Z.add_0_l. done. Qed.

Lemma free_list_split v b :
  in_range b -> (forall m, 0 <= m < b -> used x v m = true) ->
  free_list x v = filter (fun n => used x v n = false) [b] ++ filter (fun n => used x v n = false) (seqZ (b + 1) (sb_size x - b - 1)).
Proof.
  intros [Hb1 Hb2] Hm. unfold free_list. replace (sb_size x) with (b + (1 + (sb_size x - b - 1))) at 1 by lia.
  rewrite !seqZ_app, !filter_app, (filter_none _ (seqZ 0 b)) by
    (try lia; intros m [??]%elem_of_seqZ; rewrite Hm by lia; done).
  rewrite seqZ_cons by lia. simpl. done.
Qed.

(** Taking the lowest free block. *)
Lemma free_list_take v v' b :
  in_range b -> used x v b = false -> (forall m, 0 <= m < b -> used x v m = true) ->
  (forall m, in_range m -> used x v' m = used x v m || (m =? b)) ->
  free_list x v = b :: free_list x v'.
Proof.
  intros Hb Hf Hm Hv'. rewrite (free_list_split v b), (free_list_split v' b); try done.
  - rewrite filter_cons_True by done. rewrite filter_nil. rewrite filter_cons_False.
    + rewrite filter_nil. simpl. f_equal. apply filter_ext_in. intros m [??]%elem_of_seqZ.
      rewrite Hv' by (unfold in_range in *; lia). rewrite (proj2 (Z.eqb_neq m b)) by lia. by rewrite orb_false_r.
    + rewrite Hv', Z.eqb_refl, orb_true_r by done. done.
  - intros m Hmb. rewrite Hv', Hm by (unfold in_range in *; lia). done.
Qed.
End Bitmap.

(** ** balloc and bfree *)

Lemma size_add_le (n : Z) (X : gset Z) : (size ({[n]} ∪ X) <= S (size X))%nat.
Proof.
  rewrite size_union_alt, size_singleton. pose proof (subseteq_size (X ∖ {[n]}) X ltac:(set_solver)). lia.
Qed.

Lemma dv_hold_release i n v : dv_held v !! i = None -> dv_release i (dv_hold i n v) = v.
Proof. intros Hi. destruct v as [d l h]. unfold dv_release, dv_hold. simpl in *. by rewrite delete_insert_id. Qed.
Lemma dv_write_release i n m y v :
  dv_held v !! i = None -> dv_release i (dv_write m y (dv_hold i n v)) = dv_write m y v.
Proof. intros Hi. destruct v as [d l h]. unfold dv_release, dv_write, dv_hold. simpl in *. by rewrite delete_insert_id. Qed.

Lemma free_bit_spec y b size k : forall bi,
  0 <= b -> 0 <= bi -> b + bi + Z.of_nat k < 2 ^ 32 ->
  match free_bit y b size bi k with
  | Some j => bi <= j < bi + Z.of_nat k /\ b + j < size /\ bit_clear y j = true /\
      forall m, bi <= m < j -> bit_clear y m = false
  | None => forall m, bi <= m < bi + Z.of_nat k -> b + m < size -> bit_clear y m = false
  end.
Proof.
  induction k as [|k IH]; intros bi Hb Hbi Hk; [simpl; lia|]. cbn [free_bit].
  rewrite u32_small by lia. destruct (Z.ltb_spec (b + bi) size) as [Hlt|Hge]; cbn [negb]; [|intros m; lia].
  destruct (bit_clear y bi) eqn:E.
  - split_and!; try done; lia.
  - specialize (IH (bi + 1) Hb ltac:(lia) ltac:(lia)). destruct (free_bit y b size (bi + 1) k) as [j|].
    + destruct IH as (A & B & C & D). split_and!; try done; try lia. intros m Hm.
      destruct (decide (m = bi)) as [->|]; [done|]. apply D. lia.
    + intros m Hm Hs. destruct (decide (m = bi)) as [->|]; [done|]. apply IH; lia.
Qed.

Section BlockSpecs.
Context {T : Type} `{LoggedDisk T} (g : geometry) (x : superblock) (Hx : sb_ok g x).
Implicit Types (v : dview) (c : fcore) (b m n : Z).

(** Blocks before the data are marked in use, and so are the blocks in held buffers, none of
    which is a block of the bitmap. *)
Record fs_ok v : Prop := {
  fo_meta : forall m, 0 <= m < data_start x -> used x v m = true;
  fo_held : forall i n, dv_held v !! i = Some n -> ~ bitmap_block x n /\ in_range x n /\ used x v n = true
}.

Record balloc_post v b v' : Prop := {
  ba_free : free_list x v = b :: free_list x v';
  ba_range : data_start x <= b < sb_size x;
  ba_used : forall m, in_range x m -> used x v' m = used x v m || (m =? b);
  ba_zero : forall k, 0 <= k < BSIZE -> load8 (dv_data v' b) k = 0;
  ba_data : forall n, n <> b -> ~ bitmap_block x n -> dv_data v' n = dv_data v n;
  ba_logged : dv_logged v' = {[b]} ∪ ({[BBLOCK b x]} ∪ dv_logged v);
  ba_held : dv_held v' = dv_held v
}.

(** What a transaction has logged, the whole bitmap counted in. *)
Definition bitmap_set : gset Z := list_to_set (seqZ (sb_bmapstart x) (data_start x - sb_bmapstart x)).
Definition footprint v : gset Z := bitmap_set ∪ dv_logged v.

(** There is room for [k] more blocks in the log, and a buffer for each and two more. *)
Definition fits v (k : nat) : Prop :=
  (size (footprint v) + k <= g_room g /\ size (footprint v) + k + size (dv_held v) + 2 <= g_bufs g)%nat.

Lemma bitmap_set_elem n : n ∈ bitmap_set <-> bitmap_block x n.
Proof. unfold bitmap_set, bitmap_block. rewrite elem_of_list_to_set, elem_of_seqZ. lia. Qed.

Lemma logged_footprint v : (size (dv_logged v) <= size (footprint v))%nat.
Proof. apply subseteq_size. unfold footprint. set_solver. Qed.

Lemma fits_le v v' (j k : nat) :
  (size (footprint v') <= size (footprint v) + j)%nat -> (size (dv_held v') <= size (dv_held v))%nat ->
  fits v (j + k) -> fits v' k.
Proof. unfold fits. lia. Qed.

Lemma fits_bitmap v (k : nat) n y : bitmap_block x n -> fits v k -> fits (dv_write n y v) k.
Proof.
  intros Hn%bitmap_set_elem. apply (fits_le _ _ 0); [|done]. rewrite Nat.add_0_r. apply subseteq_size.
  unfold footprint. simpl. set_solver.
Qed.

Lemma bzero_spec v c n (Q : unit -> dview -> fcore -> Prop) E :
  (forall i, dv_held v !! i <> Some n) -> 0 <= n < g_blocks g -> ~ in_log g n -> fits v 1 ->
  Q tt (dv_write n (memset (dv_data v n) 0 0 BSIZE) v) c -> wp g (bzero n) v c Q E.
Proof.
  intros Hh Hn Hl [Hf1 Hf2] HQ. pose proof (logged_footprint v). unfold bzero. apply wp_bread; [done|done|lia|]. intros i Hi.
  eapply wp_blogged; [apply lookup_insert_eq|simpl; lia|done|].
  eapply wp_brelse_last; [apply lookup_insert_eq|]. by rewrite dv_write_release.
Qed.

Lemma memset_zero y k : 0 <= k < BSIZE -> load8 (memset y 0 0 BSIZE) k = 0.
Proof.
  intros Hk. rewrite memset_spec by (unfold BSIZE; lia). by rewrite decide_True.
Qed.

Lemma free_not_held v i n b : fs_ok v -> used x v b = false -> dv_held v !! i = Some n -> n <> b.
Proof. intros Ho Hu Hi ->. destruct (fo_held _ Ho _ _ Hi) as (_ & _ & E). congruence. Qed.

Lemma round_bits b m : b mod BPB = 0 -> 0 <= m < BPB -> (b + m) mod BPB = m /\ (b + m) / BPB = b / BPB.
Proof. unfold BPB, BSIZE. intros. split; dlia. Qed.

Lemma bits_used v b m :
  b mod BPB = 0 -> in_range x b -> 0 <= m < BPB -> in_range x (b + m) ->
  bit_clear (dv_data v (BBLOCK b x)) m = negb (used x v (b + m)).
Proof.
  intros Hb Hr Hm Hbm. destruct (round_bits b m Hb Hm) as [E1 E2].
  rewrite <- (bit_clear_used x v (b + m) Hbm), E1, !(BBLOCK_eq g x Hx), E2 by done. done.
Qed.

Lemma balloc_loop_spec v c fuel : forall b,
  sb c = x -> fs_ok v -> fits v 1 -> 0 <= b -> b mod BPB = 0 -> (forall m, 0 <= m < b -> in_range x m -> used x v m = true) ->
  (Z.to_nat ((sb_size x - b) / BPB + 2) <= fuel)%nat -> b <= sb_size x + BPB ->
  wp g (balloc_loop b fuel) v c (fun b v' c' => c' = c /\ balloc_post v b v')
    (fun msg => msg = "balloc: out of blocks" /\ free_list x v = []).
Proof.
  pose proof (sb_bounds g x Hx) as Hbnd. pose proof (logged_footprint v) as Hlf. unfold BPB, BSIZE in *.
  induction fuel as [|fuel IH]; intros b Hc Ho Hf Hb Hmod Hused Hfuel Hle; [dlia|].
  cbn [balloc_loop]. apply wp_core. rewrite Hc, u32_small by lia.
  destruct (Z.ltb_spec b (sb_size x)) as [Hlt|Hge]; cbn [negb].
  2: { apply wp_panic. split; [done|]. apply filter_none. intros m Hm%elem_of_seqZ. rewrite Hused by (unfold in_range; lia). done. }
  assert (Hbr : in_range x b) by (unfold in_range; lia).
  pose proof (BBLOCK_bitmap g x Hx b Hbr) as Hbb. unfold bitmap_block in Hbb.
  apply wp_bread; [intros i Hi; by destruct (fo_held _ Ho _ _ Hi)|lia|destruct Hf; lia|]. intros i Hi.
  apply (wp_bdata _ i (BBLOCK b x)); [apply lookup_insert_eq|]. cbn [dv_hold dv_data].
  pose proof (free_bit_spec (dv_data v (BBLOCK b x)) b (sb_size x) (Z.to_nat BPB) 0 Hb ltac:(lia)) as Hs.
  unfold BPB, BSIZE in Hs. specialize (Hs ltac:(lia)).
  change (Z.to_nat BPB) with (Z.to_nat (512 * 8)). destruct (free_bit _ _ _ _ _) as [j|].
  - destruct Hs as (Hj & Hjs & Hclear & Hbefore).
    assert (Hbj : in_range x (b + j)) by (unfold in_range; lia).
    destruct (round_bits b j Hmod ltac:(unfold BPB, BSIZE; lia)) as [E1 E2].
    assert (Ebb : BBLOCK (b + j) x = BBLOCK b x) by (by rewrite !(BBLOCK_eq g x Hx), E2).
    rewrite (bits_used v b j Hmod Hbr ltac:(unfold BPB, BSIZE; lia) Hbj), negb_true_iff in Hclear.
    assert (Hds : data_start x <= b + j).
    { destruct (decide (data_start x <= b + j)); [done|]. rewrite (fo_meta _ Ho) in Hclear by lia. done. }
    set (v1 := dv_write (BBLOCK b x) (mark_used j (dv_data v (BBLOCK b x))) v).
    apply (wp_blogged _ i (BBLOCK b x)); [apply lookup_insert_eq|simpl; destruct Hf; lia|apply (not_in_log g x Hx); lia|].
    eapply wp_brelse; [apply lookup_insert_eq|]. cbn [dv_hold dv_data]. rewrite dv_write_release by done.
    change (dv_write _ _ v) with v1. apply wp_bind. apply bzero_spec.
    + intros k Hk. by apply (free_not_held v k _ (b + j) Ho Hclear Hk).
    + lia.
    + apply (not_in_log g x Hx). lia.
    + by apply fits_bitmap.
    + apply wp_ret. split; [done|].
      assert (Hu1 : forall m, in_range x m -> used x v1 m = used x v m || (m =? b + j)).
      { intros m Hm. unfold v1. rewrite <- (used_mark g x Hx v (b + j) m Hbj Hm), E1, Ebb. done. }
      assert (Hu : forall m, in_range x m ->
        used x (dv_write (b + j) (memset (dv_data v1 (b + j)) 0 0 512) v1) m = used x v m || (m =? b + j)).
      { intros m Hm. rewrite (used_write_other g x Hx) by (unfold bitmap_block; lia || done). by apply Hu1. }
      split; try done.
      * apply free_list_take; try done. intros m Hm. destruct (decide (m < b)); [apply Hused; unfold in_range; lia|].
        replace m with (b + (m - b)) by lia. apply negb_false_iff.
        rewrite <- (bits_used v b (m - b)); [apply Hbefore; lia|done|done|unfold BPB, BSIZE; lia|unfold in_range; lia].
      * intros k Hk. simpl. rewrite upd_block_eq. by apply memset_zero.
      * intros n Hn Hbn. simpl. rewrite !upd_block_ne; [done|by intros ->; apply Hbn; unfold bitmap_block; lia|done].
      * simpl. by rewrite Ebb.
  - eapply wp_brelse; [apply lookup_insert_eq|]. rewrite dv_hold_release by done.
    unfold BPB, BSIZE. rewrite s32_small by lia. apply IH; try done; try dlia.
    intros m Hm Hr. destruct (decide (m < b)); [apply Hused; [lia|done]|].
    replace m with (b + (m - b)) by lia. apply negb_false_iff.
    rewrite <- (bits_used v b (m - b)); [apply Hs; unfold in_range in Hr; lia|done|done|unfold BPB, BSIZE; lia|].
    by replace (b + (m - b)) with m by lia.
Qed.

Lemma balloc_spec v c :
  sb c = x -> fs_ok v -> fits v 1 ->
  wp g balloc v c (fun b v' c' => c' = c /\ balloc_post v b v')
    (fun msg => msg = "balloc: out of blocks" /\ free_list x v = []).
Proof.
  intros Hc Ho Hf. pose proof (sb_bounds g x Hx). unfold balloc. apply wp_core. rewrite Hc.
  apply balloc_loop_spec; try done; try lia; unfold BPB, BSIZE; try lia. by rewrite Z.sub_0_r.
Qed.

Record bfree_post v b v' : Prop := {
  bf_used : forall m, in_range x m -> used x v' m = used x v m && negb (m =? b);
  bf_data : forall n, ~ bitmap_block x n -> dv_data v' n = dv_data v n;
  bf_logged : dv_logged v' = {[BBLOCK b x]} ∪ dv_logged v;
  bf_held : dv_held v' = dv_held v
}.

Lemma bfree_spec v c b :
  sb c = x -> in_range x b -> fits v 1 -> (forall i n, dv_held v !! i = Some n -> ~ bitmap_block x n) ->
  wp g (bfree b) v c (fun _ v' c' => c' = c /\ used x v b = true /\ bfree_post v b v')
    (fun msg => msg = "freeing free block" /\ used x v b = false).
Proof.
  intros Hc Hb [Hf1 Hf2] Hheld. pose proof (logged_footprint v) as Hlf. pose proof (sb_bounds g x Hx) as Hbnd. unfold bfree. apply wp_core. rewrite Hc.
  pose proof (BBLOCK_bitmap g x Hx b Hb) as Hbb. pose proof Hbb as Hbb'. unfold bitmap_block in Hbb.
  apply wp_bread; [intros i Hi; by eapply Hheld|lia|lia|]. intros i Hi.
  apply (wp_bdata _ i (BBLOCK b x)); [apply lookup_insert_eq|]. cbn [dv_hold dv_data].
  rewrite bit_clear_used by done. destruct (used x v b) eqn:Hu; cbn [negb panic_if].
  - apply wp_bind, wp_ret. apply (wp_blogged _ i (BBLOCK b x)); [apply lookup_insert_eq|simpl; lia|apply (not_in_log g x Hx); lia|].
    eapply wp_brelse_last; [apply lookup_insert_eq|]. cbn [dv_hold dv_data]. rewrite dv_write_release by done.
    split; [done|]. split; [done|]. split; try done.
    + intros m Hm. by apply (used_unmark g x Hx).
    + intros n Hn. simpl. apply upd_block_ne. by intros ->.
  - apply wp_bind, wp_panic. done.
Qed.

(** balloc is a bitmap allocator. It takes the lowest free block of the disk: afterwards the
    free blocks are the others, the block is all zeroes, and no other block outside the bitmap
    has changed. It fails only on a disk without free blocks, by a panic. *)
Theorem balloc_takes_lowest (d : T) v c
    (Hd : disk_rep g d v) (Hc : sb c = x) (Ho : fs_ok v) (Hf : fits v 1) :
  match free_list x v with
  | [] => balloc (mkF d c) = Panic "balloc: out of blocks"
  | b :: l => exists d' v', balloc (mkF d c) = Ret b (mkF d' c) /\ disk_rep g d' v' /\ free_list x v' = l /\
      (forall k, 0 <= k < BSIZE -> load8 (dv_data v' b) k = 0) /\
      (forall n, n <> b -> ~ bitmap_block x n -> dv_data v' n = dv_data v n)
  end.
Proof.
  pose proof (balloc_spec v c Hc Ho Hf d Hd) as Hb. destruct (balloc (mkF d c)) as [b [d' c']|msg| |]; try done.
  - destruct Hb as (v' & Hd' & Ec & B). cbn [fs_core fs_disk] in *. subst c'. rewrite (ba_free _ _ _ B). exists d', v'. split_and!; try done.
    + apply (ba_zero _ _ _ B).
    + apply (ba_data _ _ _ B).
  - destruct Hb as [-> ->]. done.
Qed.
End BlockSpecs.
