(* ===== verification/Fcntl.v ===== *)
(** * Fcntl: what user programs and the kernel share about files (offline_4/xv6/fcntl.h, stat.h):
    the flags of open and the result of fstat. *)

From S2P Require Import Prelude.

Definition O_RDONLY : Z := 0.
Definition O_WRONLY : Z := 1.
Definition O_RDWR : Z := 2.
Definition O_CREATE : Z := 512.

Record stat : Type := mkStat { st_type : Z; st_dev : Z; st_ino : Z; st_nlink : Z; st_size : Z }.
