(* ===== verification/Inode.v ===== *)
(** * Inode: files as blocks (fs.c: iinit to writei)

    A pointer to an inode is its index in the cache. Operations of fs.c that run under
    icache.lock are atomic here. A sleep lock that is taken makes its caller wait. The device
    switch table is a parameter: it holds the functions other parts of the kernel enter in it. *)

From S2P Require Import Prelude Memory Spinlock Cache Bio Log Tx Fs Fcntl.

Definition NINODE : Z := 50.
Definition NDEV : Z := 10.
Definition ROOTDEV : Z := 1.
Definition ROOTINO : Z := 1.
Definition NDIRECT : Z := 12.
Definition NINDIRECT : Z := BSIZE / 4.
Definition MAXFILE : Z := NDIRECT + NINDIRECT.
Definition IPB : Z := BSIZE / 64.
Definition IBLOCK (i : Z) (x : superblock) : Z := u32 (i / IPB + sb_inodestart x).
Definition T_DIR : Z := 1.
Definition T_FILE : Z := 2.
Definition T_DEV : Z := 3.

(** 16-bit fields. *)
Definition load16 (m : memory) (a : Z) : Z := load8 m a + load8 m (a + 1) * 2 ^ 8.
Definition store16 (m : memory) (a v : Z) : memory := store8 (store8 m a v) (a + 1) (v / 2 ^ 8).

(** memmove of [n] bytes between two objects. *)
Definition move_in (dst : memory) (d : Z) (src : memory) (s n : Z) : memory :=
  fun a => if (d <=? a) && (a <? d + n) then load8 src (s + (a - d)) else dst a.

Definition set_i_ref (r : Z) (x : inode) : inode :=
  mkInode (i_dev x) (i_inum x) r (i_lock x) (i_valid x) (i_type x) (i_major x) (i_minor x) (i_nlink x) (i_size x) (i_addrs x).
Definition set_i_lock (l : sleeplock) (x : inode) : inode :=
  mkInode (i_dev x) (i_inum x) (i_ref x) l (i_valid x) (i_type x) (i_major x) (i_minor x) (i_nlink x) (i_size x) (i_addrs x).
Definition set_i_valid (b : bool) (x : inode) : inode :=
  mkInode (i_dev x) (i_inum x) (i_ref x) (i_lock x) b (i_type x) (i_major x) (i_minor x) (i_nlink x) (i_size x) (i_addrs x).
Definition set_i_type (t : Z) (x : inode) : inode :=
  mkInode (i_dev x) (i_inum x) (i_ref x) (i_lock x) (i_valid x) t (i_major x) (i_minor x) (i_nlink x) (i_size x) (i_addrs x).
Definition set_i_nlink (n : Z) (x : inode) : inode :=
  mkInode (i_dev x) (i_inum x) (i_ref x) (i_lock x) (i_valid x) (i_type x) (i_major x) (i_minor x) n (i_size x) (i_addrs x).
Definition set_i_size (n : Z) (x : inode) : inode :=
  mkInode (i_dev x) (i_inum x) (i_ref x) (i_lock x) (i_valid x) (i_type x) (i_major x) (i_minor x) (i_nlink x) n (i_addrs x).
Definition set_i_addrs (l : list Z) (x : inode) : inode :=
  mkInode (i_dev x) (i_inum x) (i_ref x) (i_lock x) (i_valid x) (i_type x) (i_major x) (i_minor x) (i_nlink x) (i_size x) l.

(** struct dinode at offset [o] of a block: four shorts, the size, NDIRECT + 1 addresses. *)
Fixpoint store_words (b : block) (a : Z) (l : list Z) : block :=
  match l with [] => b | w :: l => store_words (store32 b a w) (a + 4) l end.
Fixpoint load_words (b : block) (a : Z) (k : nat) : list Z :=
  match k with O => [] | S k => load32 b a :: load_words b (a + 4) k end.
Definition dinode_at (inum : Z) : Z := inum mod IPB * 64.
Definition store_dinode (x : inode) (b : block) : block :=
  let o := dinode_at (i_inum x) in
  store_words
    (store32 (store16 (store16 (store16 (store16 b o (i_type x)) (o + 2) (i_major x)) (o + 4) (i_minor x)) (o + 6) (i_nlink x))
       (o + 8) (i_size x))
    (o + 12) (i_addrs x).
Definition load_dinode (b : block) (x : inode) : inode :=
  let o := dinode_at (i_inum x) in
  mkInode (i_dev x) (i_inum x) (i_ref x) (i_lock x) (i_valid x)
    (s16 (load16 b o)) (s16 (load16 b (o + 2))) (s16 (load16 b (o + 4))) (s16 (load16 b (o + 6)))
    (load32 b (o + 8)) (load_words b (o + 12) 13).

Definition nth_addr (x : inode) (k : Z) : Z := default 0 (i_addrs x !! Z.to_nat k).
Definition set_addr (k a : Z) (x : inode) : inode := set_i_addrs (<[Z.to_nat k := a]> (i_addrs x)) x.

Section Inodes.
Context {T : Type} `{LoggedDisk T}.
Abbreviation F := (M (fstate T fcore)).
Context (devsw_read devsw_write : Z -> option (nat -> memory -> Z -> Z -> F (Z * memory))).

Definition the_inode (ip : nat) : F inode := fun s =>
  match icache (fs_core s) !! ip with Some x => Ret x s | None => Fault NullDeref end.
Definition upd_inode (ip : nat) (f : inode -> inode) : F unit :=
  upd_core (fun c => with_icache (alter f ip (icache c)) c).

Definition zero_inode : inode := mkInode 0 0 0 initsleeplock false 0 0 0 0 0 (replicate 13 0).
Definition iinit : F unit :=
  upd_core (fun c => with_icache (map (set_i_lock initsleeplock) (icache c)) c);;
  x ← readsb;
  upd_core (with_sb x).

(** ** The inode cache *)

Definition iget (dev inum : Z) : F nat :=
  c ← fs_get;
  match find_index (fun x => (0 <? i_ref x) && (i_dev x =? dev) && (i_inum x =? inum)) (icache c) with
  | Some i => upd_inode i (fun x => set_i_ref (i_ref x + 1) x);; ret i
  | None =>
      match find_index (fun x => i_ref x =? 0) (icache c) with
      | None => panic "iget: no inodes"
      | Some i =>
          upd_inode i (fun x => mkInode dev inum 1 (i_lock x) false (i_type x) (i_major x) (i_minor x)
                                  (i_nlink x) (i_size x) (i_addrs x));;
          ret i
      end
  end.

Definition idup (ip : nat) : F nat :=
  x ← the_inode ip;
  upd_inode ip (set_i_ref (i_ref x + 1));;
  ret ip.

Definition iupdate (ip : nat) : F unit :=
  c ← fs_get;
  x ← the_inode ip;
  bp ← fs_bread (IBLOCK (i_inum x) (sb c));
  fs_log_write bp (store_dinode x);;
  fs_brelse bp.

Fixpoint ialloc_loop (dev type inum : Z) (fuel : nat) : F nat :=
  match fuel with
  | O => fun _ => OutOfFuel
  | S fuel =>
      c ← fs_get;
      if negb (u32 inum <? sb_ninodes (sb c)) then panic "ialloc: no inodes"
      else
        bp ← fs_bread (IBLOCK inum (sb c));
        x ← fs_data bp;
        if s16 (load16 x (dinode_at inum)) =? 0 then
          fs_log_write bp (fun x => store16 (memset x (dinode_at inum) 0 64) (dinode_at inum) type);;
          fs_brelse bp;;
          iget dev inum
        else fs_brelse bp;; ialloc_loop dev type (s32 (inum + 1)) fuel
  end.
Definition ialloc (dev type : Z) : F nat :=
  c ← fs_get;
  ialloc_loop dev type 1 (Z.to_nat (sb_ninodes (sb c) + 1)).

Definition ilock_acquire (ip : nat) : F unit :=
  x ← the_inode ip;
  if sl_locked (i_lock x) then spin
  else c ← fs_get; upd_inode ip (set_i_lock (mkSleep true (fs_pid c))).
Definition ilock_release (ip : nat) : F unit := upd_inode ip (set_i_lock (mkSleep false 0)).
Definition ilock_holding (ip : nat) : F bool :=
  x ← the_inode ip;
  c ← fs_get;
  ret (sl_locked (i_lock x) && (sl_pid (i_lock x) =? fs_pid c)).

Definition ilock (ip : nat) : F unit :=
  x ← the_inode ip;
  panic_if (i_ref x <? 1) "ilock";;
  ilock_acquire ip;;
  x ← the_inode ip;
  when (negb (i_valid x)) (
    c ← fs_get;
    bp ← fs_bread (IBLOCK (i_inum x) (sb c));
    b ← fs_data bp;
    upd_inode ip (load_dinode b);;
    fs_brelse bp;;
    upd_inode ip (set_i_valid true);;
    x ← the_inode ip;
    panic_if (i_type x =? 0) "ilock: no type").

Definition iunlock (ip : nat) : F unit :=
  x ← the_inode ip;
  h ← ilock_holding ip;
  panic_if (negb h || (i_ref x <? 1)) "iunlock";;
  ilock_release ip.

(** ** The content of a file *)

Definition bmap_direct (ip : nat) (bn : Z) : F Z :=
  x ← the_inode ip;
  if nth_addr x bn =? 0 then
    a ← balloc;
    upd_inode ip (set_addr bn a);;
    ret a
  else ret (nth_addr x bn).
Definition bmap (ip : nat) (bn : Z) : F Z :=
  if bn <? NDIRECT then bmap_direct ip bn
  else
    let bn := u32 (bn - NDIRECT) in
    if bn <? NINDIRECT then
      addr ← bmap_direct ip NDIRECT;
      bp ← fs_bread addr;
      b ← fs_data bp;
      addr ← (if load32 b (4 * bn) =? 0 then
                a ← balloc;
                fs_log_write bp (fun b => store32 b (4 * bn) a);;
                ret a
              else ret (load32 b (4 * bn)));
      fs_brelse bp;;
      ret addr
    else panic "bmap: out of range".

Fixpoint itrunc_direct (ip : nat) (i : Z) (k : nat) : F unit :=
  match k with
  | O => ret tt
  | S k =>
      x ← the_inode ip;
      when (negb (nth_addr x i =? 0)) (
        bfree (nth_addr x i);;
        upd_inode ip (set_addr i 0));;
      itrunc_direct ip (i + 1) k
  end.
Fixpoint itrunc_indirect (bp : nat) (j : Z) (k : nat) : F unit :=
  match k with
  | O => ret tt
  | S k =>
      a ← fs_data bp;
      when (negb (load32 a (4 * j) =? 0)) (bfree (load32 a (4 * j)));;
      itrunc_indirect bp (j + 1) k
  end.
Definition itrunc (ip : nat) : F unit :=
  itrunc_direct ip 0 (Z.to_nat NDIRECT);;
  x ← the_inode ip;
  when (negb (nth_addr x NDIRECT =? 0)) (
    bp ← fs_bread (nth_addr x NDIRECT);
    itrunc_indirect bp 0 (Z.to_nat NINDIRECT);;
    fs_brelse bp;;
    bfree (nth_addr x NDIRECT);;
    upd_inode ip (set_addr NDIRECT 0));;
  upd_inode ip (set_i_size 0);;
  iupdate ip.

Definition iput (ip : nat) : F unit :=
  ilock_acquire ip;;
  x ← the_inode ip;
  when (i_valid x && (i_nlink x =? 0)) (
    when (i_ref x =? 1) (
      itrunc ip;;
      upd_inode ip (set_i_type 0);;
      iupdate ip;;
      upd_inode ip (set_i_valid false)));;
  ilock_release ip;;
  x ← the_inode ip;
  upd_inode ip (set_i_ref (i_ref x - 1)).

Definition iunlockput (ip : nat) : F unit := iunlock ip;; iput ip.

Definition stati (ip : nat) : F stat :=
  x ← the_inode ip;
  ret (mkStat (i_type x) (i_dev x) (i_inum x) (i_nlink x) (i_size x)).

(** A call of a function in the device table, or -1. *)
Definition call_dev (t : Z -> option (nat -> memory -> Z -> Z -> F (Z * memory)))
    (ip : nat) (x : inode) (m : memory) (a n : Z) : F (Z * memory) :=
  if (i_major x <? 0) || (NDEV <=? i_major x) then ret (-1, m)
  else match t (i_major x) with Some f => f ip m a n | None => ret (-1, m) end.

(** Each round copies at least one byte; all but the first start at a block's beginning. *)
Definition rounds (n : Z) : nat := Z.to_nat (n / BSIZE + 3).

Fixpoint readi_loop (ip : nat) (m : memory) (dst off n tot : Z) (fuel : nat) : F memory :=
  match fuel with
  | O => fun _ => OutOfFuel
  | S fuel =>
      if negb (tot <? n) then ret m
      else
        a ← bmap ip (off / BSIZE);
        bp ← fs_bread a;
        let k := (n - tot) `min` (BSIZE - off mod BSIZE) in
        b ← fs_data bp;
        let m := move_in m dst b (off mod BSIZE) k in
        fs_brelse bp;;
        readi_loop ip m (dst + k) (u32 (off + k)) n (u32 (tot + k)) fuel
  end.
Definition readi (ip : nat) (m : memory) (dst off n : Z) : F (Z * memory) :=
  x ← the_inode ip;
  if i_type x =? T_DEV then call_dev devsw_read ip x m dst (s32 n)
  else if (i_size x <? off) || (u32 (off + n) <? off) then ret (-1, m)
  else
    let n := if i_size x <? u32 (off + n) then u32 (i_size x - off) else n in
    m ← readi_loop ip m dst off n 0 (rounds n);
    ret (s32 n, m).

Fixpoint writei_loop (ip : nat) (m : memory) (src off n tot : Z) (fuel : nat) : F Z :=
  match fuel with
  | O => fun _ => OutOfFuel
  | S fuel =>
      if negb (tot <? n) then ret off
      else
        a ← bmap ip (off / BSIZE);
        bp ← fs_bread a;
        let k := (n - tot) `min` (BSIZE - off mod BSIZE) in
        fs_log_write bp (fun b => move_in b (off mod BSIZE) m src k);;
        fs_brelse bp;;
        writei_loop ip m (src + k) (u32 (off + k)) n (u32 (tot + k)) fuel
  end.
Definition writei (ip : nat) (m : memory) (src off n : Z) : F (Z * memory) :=
  x ← the_inode ip;
  if i_type x =? T_DEV then call_dev devsw_write ip x m src (s32 n)
  else if (i_size x <? off) || (u32 (off + n) <? off) then ret (-1, m)
  else if MAXFILE * BSIZE <? u32 (off + n) then ret (-1, m)
  else
    off ← writei_loop ip m src off n 0 (rounds n);
    x ← the_inode ip;
    when ((0 <? n) && (i_size x <? off)) (
      upd_inode ip (set_i_size off);;
      iupdate ip);;
    ret (s32 n, m).
End Inodes.

(** ** Inodes on the disk *)

Lemma s16_u16 v : - 2 ^ 15 <= v < 2 ^ 15 -> s16 (u16 v) = v.
Proof. intros Hv. unfold s16, u16. rewrite Zplus_mod_idemp_l, Z.mod_small by lia. lia. Qed.

Lemma store16_lookup m a v q : q <> a -> q <> a + 1 -> store16 m a v q = m q.
Proof. intros H1 H2. unfold store16. by rewrite !store8_ne by lia. Qed.

Lemma load16_store16_eq m a v : load16 (store16 m a v) a = u16 v.
Proof.
  unfold load16, store16. rewrite load8_store8_ne, !load8_store8_eq by lia. unfold u8, u16. dlia.
Qed.
Lemma load16_ext m m' a : (forall q, a <= q < a + 2 -> m q = m' q) -> load16 m a = load16 m' a.
Proof. intros E. unfold load16, load8. by rewrite !E by lia. Qed.
Lemma load16_store16_ne m a b v : (a + 2 <= b \/ b + 2 <= a) -> load16 (store16 m b v) a = load16 m a.
Proof. intros Hd. apply load16_ext. intros q Hq. apply store16_lookup; lia. Qed.
Lemma store32_out m a v q : ~ (a <= q < a + 4) -> store32 m a v q = m q.
Proof. intros Hq. unfold store32. by rewrite !store8_ne by lia. Qed.
Lemma load16_store32_ne m a b v : (a + 2 <= b \/ b + 4 <= a) -> load16 (store32 m b v) a = load16 m a.
Proof. intros Hd. apply load16_ext. intros q Hq. apply store32_out. lia. Qed.

Lemma store_words_out l : forall (b : block) a q, ~ (a <= q < a + 4 * Z.of_nat (length l)) -> store_words b a l q = b q.
Proof.
  induction l as [|w l IH]; intros b a q Hq; [done|]. simpl in *. rewrite IH by lia. apply store32_out. lia.
Qed.
Lemma load_words_ext k : forall (b b' : block) a, (forall q, a <= q < a + 4 * Z.of_nat k -> b q = b' q) -> load_words b a k = load_words b' a k.
Proof.
  induction k as [|k IH]; intros b b' a E; [done|]. simpl. f_equal.
  - apply load32_ext. intros q Hq. unfold load8. by rewrite E by lia.
  - apply IH. intros q Hq. apply E. lia.
Qed.
Lemma load_words_store l : forall (b : block) a, Forall (fun w => 0 <= w < 2 ^ 32) l ->
  load_words (store_words b a l) a (length l) = l.
Proof.
  induction l as [|w l IH]; intros b a Hl; [done|]. apply Forall_cons in Hl as [Hw Hl]. simpl. f_equal; [|by apply IH].
  rewrite (load32_ext _ (store32 b a w)) by (intros q Hq; unfold load8; by rewrite store_words_out by lia).
  rewrite load32_store32_eq. by apply u32_small.
Qed.

(** An inode's fields fit in their places in struct dinode. *)
Record inode_fits (x : inode) : Prop := {
  if_type : - 2 ^ 15 <= i_type x < 2 ^ 15;
  if_major : - 2 ^ 15 <= i_major x < 2 ^ 15;
  if_minor : - 2 ^ 15 <= i_minor x < 2 ^ 15;
  if_nlink : - 2 ^ 15 <= i_nlink x < 2 ^ 15;
  if_size : 0 <= i_size x < 2 ^ 32;
  if_len : length (i_addrs x) = 13%nat;
  if_addrs : Forall (fun a => 0 <= a < 2 ^ 32) (i_addrs x)
}.

Lemma store_dinode_out x b q :
  length (i_addrs x) = 13%nat -> ~ (dinode_at (i_inum x) <= q < dinode_at (i_inum x) + 64) -> store_dinode x b q = b q.
Proof.
  intros Hl Hq. unfold store_dinode. set (o := dinode_at (i_inum x)) in *. cbv zeta.
  rewrite store_words_out by (rewrite Hl; lia). rewrite store32_out by lia. by rewrite !store16_lookup by lia.
Qed.

Lemma load_dinode_ext b b' x :
  (forall q, dinode_at (i_inum x) <= q < dinode_at (i_inum x) + 64 -> b q = b' q) -> load_dinode b x = load_dinode b' x.
Proof.
  intros E. unfold load_dinode. set (o := dinode_at (i_inum x)) in *. cbv zeta.
  rewrite !(load16_ext b b') by (intros q Hq; apply E; lia).
  rewrite (load32_ext b b') by (intros q Hq; unfold load8; by rewrite E by lia).
  rewrite (load_words_ext 13 b b') by (intros q Hq; apply E; lia). done.
Qed.

(** the on-disk form of inodes round-trips. An inode written into its place in its block is
    read back with every field as it was; its neighbours in the block are read back as before. *)
Theorem dinode_roundtrip (x y : inode) (b : block) (F : inode_fits x) :
  load_dinode (store_dinode x b) y =
    if decide (i_inum y mod IPB = i_inum x mod IPB)
    then mkInode (i_dev y) (i_inum y) (i_ref y) (i_lock y) (i_valid y) (i_type x) (i_major x) (i_minor x) (i_nlink x) (i_size x) (i_addrs x)
    else load_dinode b y.
Proof.
  case_decide as E.
  - unfold load_dinode, store_dinode. unfold dinode_at. rewrite E. set (o := i_inum x mod IPB * 64). cbv zeta.
    set (b5 := store32 _ (o + 8) (i_size x)).
    assert (H16 : forall a, o <= a -> a + 2 <= o + 12 -> load16 (store_words b5 (o + 12) (i_addrs x)) a = load16 b5 a).
    { intros a Ha1 Ha2. apply load16_ext. intros q Hq. apply store_words_out. lia. }
    rewrite !H16 by lia.
    rewrite (load32_ext (store_words b5 (o + 12) (i_addrs x)) b5) by (intros q Hq; unfold load8; by rewrite store_words_out by lia).
    pose proof (load_words_store (i_addrs x) b5 (o + 12) (if_addrs _ F)) as Ew. rewrite (if_len _ F) in Ew. rewrite Ew.
    unfold b5. rewrite load32_store32_eq, !load16_store32_ne by lia.
    rewrite load16_store16_eq, !(load16_store16_ne _ _ (o + 6)), load16_store16_eq, !(load16_store16_ne _ _ (o + 4)),
      load16_store16_eq, (load16_store16_ne _ _ (o + 2)), load16_store16_eq by lia.
    rewrite !s16_u16, u32_small by apply F. done.
  - apply load_dinode_ext. intros q Hq. apply store_dinode_out; [apply F|]. unfold dinode_at, IPB, BSIZE in *. lia.
Qed.

Lemma dinode_roundtrip_witness :
  let x := mkInode 1 11 2 initsleeplock true T_FILE (-1) 7 3 70000 [100; 101; 102; 103; 104; 105; 106; 107; 108; 109; 110; 111; 112] in
  let y := mkInode 1 11 1 initsleeplock false 0 0 0 0 0 [] in
  i_size (load_dinode (store_dinode x (fun _ => 255)) y) = 70000 /\ i_major (load_dinode (store_dinode x (fun _ => 255)) y) = -1.
Proof.
  intros x y. assert (F : inode_fits x).
  { split; cbn [x i_type i_major i_minor i_nlink i_size i_addrs]; unfold T_FILE; try lia; [reflexivity|repeat constructor; lia]. }
  rewrite (dinode_roundtrip x y (fun _ => 255) F). split; reflexivity.
Defined.

(** ** A file's blocks *)

(** The address of block [bn] of a file, or 0. *)
Definition baddr (v : dview) (x : inode) (bn : Z) : Z :=
  if bn <? NDIRECT then nth_addr x bn
  else if nth_addr x NDIRECT =? 0 then 0
  else load32 (dv_data v (nth_addr x NDIRECT)) (4 * (bn - NDIRECT)).

Lemma MAXFILE_eq : MAXFILE = 140.
Proof. done. Qed.
Lemma NINDIRECT_eq : NINDIRECT = 128.
Proof. done. Qed.

Lemma nth_set_addr x k j a :
  0 <= k < Z.of_nat (length (i_addrs x)) -> 0 <= j -> nth_addr (set_addr k a x) j = if decide (j = k) then a else nth_addr x j.
Proof.
  intros Hk Hj. unfold nth_addr, set_addr, set_i_addrs. simpl. destruct (decide (j = k)) as [->|Hne].
  - by rewrite list_lookup_insert_eq by lia.
  - by rewrite list_lookup_insert_ne by lia.
Qed.
Lemma set_addr_length x k a : length (i_addrs (set_addr k a x)) = length (i_addrs x).
Proof. unfold set_addr, set_i_addrs. simpl. by rewrite length_insert. Qed.

Definition set_inode (ip : nat) (x : inode) (c : fcore) : fcore := with_icache (<[ip := x]> (icache c)) c.

Lemma set_inode_twice ip x y c : set_inode ip y (set_inode ip x c) = set_inode ip y c.
Proof. unfold set_inode, with_icache. simpl. by rewrite list_insert_insert_eq. Qed.
Lemma set_inode_id ip x c : icache c !! ip = Some x -> set_inode ip x c = c.
Proof. intros E. unfold set_inode, with_icache. rewrite list_insert_id by done. by destruct c. Qed.
Lemma set_inode_lookup ip x y c : icache c !! ip = Some y -> icache (set_inode ip x c) !! ip = Some x.
Proof. intros E. simpl. apply list_lookup_insert_eq. by eapply lookup_lt_Some. Qed.
Lemma set_inode_sb ip x c : sb (set_inode ip x c) = sb c.
Proof. done. Qed.

Section InodeRules.
Context {T : Type} `{LoggedDisk T} (g : geometry).
Abbreviation F := (M (fstate T fcore)).

Lemma wp_the_inode {B : Type} ip x (k : inode -> F B) v c Q E :
  icache c !! ip = Some x -> wp g (k x) v c Q E -> wp g (the_inode ip ≫= k) v c Q E.
Proof. intros Hx Hk. apply wp_bind. intros d Hd. unfold the_inode. simpl. rewrite Hx. by exists v. Qed.

Lemma wp_upd_inode {B : Type} ip x f (k : unit -> F B) v c Q E :
  icache c !! ip = Some x -> wp g (k tt) v (set_inode ip (f x) c) Q E -> wp g (upd_inode ip f ≫= k) v c Q E.
Proof.
  intros Hx Hk. unfold upd_inode. apply wp_upd_core. unfold set_inode in Hk. by rewrite (list_alter_insert _ _ _ x).
Qed.
Lemma wp_upd_inode_last ip x f v c (Q : unit -> dview -> fcore -> Prop) E :
  icache c !! ip = Some x -> Q tt v (set_inode ip (f x) c) -> wp g (upd_inode ip f) v c Q E.
Proof.
  intros Hx HQ. unfold upd_inode. apply wp_upd_core_last. unfold set_inode in HQ. by rewrite (list_alter_insert _ _ _ x).
Qed.
End InodeRules.

Section FileBlocks.
Context {T : Type} `{LoggedDisk T} (g : geometry) (sbx : superblock) (Hsb : sb_ok g sbx).
Implicit Types (v : dview) (c : fcore) (x y : inode) (bn k m n a : Z).

Definition alloced v a : Prop := data_start sbx <= a < sb_size sbx /\ used sbx v a = true.

(** The blocks of a file are allocated data blocks, all different. *)
Record inode_ok v x : Prop := {
  io_len : length (i_addrs x) = 13%nat;
  io_ind : nth_addr x NDIRECT <> 0 -> alloced v (nth_addr x NDIRECT);
  io_addr : forall k, 0 <= k < MAXFILE -> baddr v x k <> 0 -> alloced v (baddr v x k);
  io_inj : forall k m, 0 <= k < MAXFILE -> 0 <= m < MAXFILE -> baddr v x k <> 0 -> baddr v x k = baddr v x m -> k = m;
  io_ne : forall k, 0 <= k < MAXFILE -> baddr v x k <> 0 -> baddr v x k <> nth_addr x NDIRECT
}.

(** [v'] and [x'] are [v] and [x] after allocating at most [j] blocks for block [bn] of the
    file. *)
Record grown bn (j : nat) v x v' x' : Prop := {
  gr_same : x' = set_i_addrs (i_addrs x') x;
  gr_ok : inode_ok v' x';
  gr_fs : fs_ok sbx v';
  gr_other : forall k, 0 <= k < MAXFILE -> k <> bn -> baddr v' x' k = baddr v x k;
  gr_old : baddr v x bn <> 0 -> baddr v' x' bn = baddr v x bn;
  gr_fresh : baddr v x bn = 0 -> baddr v' x' bn <> 0 ->
    used sbx v (baddr v' x' bn) = false /\ forall k, 0 <= k < BSIZE -> load8 (dv_data v' (baddr v' x' bn)) k = 0;
  gr_ind : nth_addr x' NDIRECT = nth_addr x NDIRECT \/ (nth_addr x NDIRECT = 0 /\ used sbx v (nth_addr x' NDIRECT) = false);
  gr_used : forall m, in_range sbx m -> used sbx v m = true -> used sbx v' m = true;
  gr_frame : forall n, in_range sbx n -> ~ bitmap_block sbx n -> used sbx v n = true ->
    (nth_addr x NDIRECT <> 0 -> n <> nth_addr x NDIRECT) -> dv_data v' n = dv_data v n;
  gr_foot : (size (footprint sbx v') <= size (footprint sbx v) + j)%nat;
  gr_held : dv_held v' = dv_held v;
  gr_free : exists l, free_list sbx v = l ++ free_list sbx v' /\ (length l <= j)%nat
}.

Lemma alloced_data v a : alloced v a -> in_range sbx a /\ ~ bitmap_block sbx a /\ used sbx v a = true /\ 0 < a < g_blocks g /\ ~ in_log g a.
Proof.
  pose proof (sb_bounds g sbx Hsb) as Hb. intros [Ha Hu]. unfold in_range, bitmap_block. split_and!; try done; try lia.
  apply (not_in_log g sbx Hsb). lia.
Qed.

Lemma alloced_mono v v' a : (in_range sbx a -> used sbx v a = true -> used sbx v' a = true) -> alloced v a -> alloced v' a.
Proof. intros Hm Ha. destruct (alloced_data _ _ Ha) as (Hr & _ & Hu & _). destruct Ha as [Ha _]. split; [done|by apply Hm]. Qed.

Lemma grown_refl bn v x : inode_ok v x -> fs_ok sbx v -> grown bn 0 v x v x.
Proof.
  intros Hi Hf. split; try done.
  - by destruct x.
  - by left.
  - lia.
  - exists []. split; [done|simpl; lia].
Qed.

Lemma unused_back v v' m :
  (forall m, in_range sbx m -> used sbx v m = true -> used sbx v' m = true) -> in_range sbx m ->
  used sbx v' m = false -> used sbx v m = false.
Proof. intros Hm Hr Hu. destruct (used sbx v m) eqn:E; [|done]. by rewrite (Hm _ Hr E) in Hu. Qed.

Lemma grown_trans bn (i j : nat) v x v1 x1 v2 x2 :
  0 <= bn < MAXFILE -> grown bn i v x v1 x1 -> grown bn j v1 x1 v2 x2 -> grown bn (i + j) v x v2 x2.
Proof.
  intros Hbn G1 G2.
  assert (Hne : forall n, in_range sbx n -> used sbx v n = true -> (nth_addr x NDIRECT <> 0 -> n <> nth_addr x NDIRECT) ->
    nth_addr x1 NDIRECT <> 0 -> n <> nth_addr x1 NDIRECT).
  { intros n Hr Hu Hn Hnz E. destruct (gr_ind _ _ _ _ _ _ G1) as [Ei|[_ Hf]]; [rewrite Ei in *; by apply Hn|]. rewrite <- E in Hf. congruence. }
  assert (Hind2 : nth_addr x2 NDIRECT <> 0 -> in_range sbx (nth_addr x2 NDIRECT)).
  { intros Hnz. by destruct (alloced_data _ _ (io_ind _ _ (gr_ok _ _ _ _ _ _ G2) Hnz)). }
  split.
  - rewrite (gr_same _ _ _ _ _ _ G2). rewrite (gr_same _ _ _ _ _ _ G1). done.
  - apply (gr_ok _ _ _ _ _ _ G2).
  - apply (gr_fs _ _ _ _ _ _ G2).
  - intros k Hk Hkb. by rewrite (gr_other _ _ _ _ _ _ G2), (gr_other _ _ _ _ _ _ G1).
  - intros Hnz. rewrite (gr_old _ _ _ _ _ _ G2); rewrite (gr_old _ _ _ _ _ _ G1); done.
  - intros Hz Hnz. pose proof (io_addr _ _ (gr_ok _ _ _ _ _ _ G2) bn Hbn Hnz) as Ha2.
    destruct (alloced_data _ _ Ha2) as (Hr & Hb & _).
    destruct (decide (baddr v1 x1 bn = 0)) as [E1|E1].
    + destruct (gr_fresh _ _ _ _ _ _ G2 E1 Hnz) as [Hf Hzero]. split; [|done].
      apply (unused_back v v1); [apply (gr_used _ _ _ _ _ _ G1)|done|done].
    + rewrite (gr_old _ _ _ _ _ _ G2 E1) in *. destruct (gr_fresh _ _ _ _ _ _ G1 Hz E1) as [Hf Hzero]. split; [done|].
      rewrite (gr_frame _ _ _ _ _ _ G2); try done.
      * by destruct (alloced_data _ _ (io_addr _ _ (gr_ok _ _ _ _ _ _ G1) bn Hbn E1)) as (_ & _ & ? & _).
      * intros _. by apply (io_ne _ _ (gr_ok _ _ _ _ _ _ G1)).
  - destruct (decide (nth_addr x2 NDIRECT = 0)) as [Ez|Enz].
    { left. destruct (gr_ind _ _ _ _ _ _ G2) as [E2|[_ Hf]].
      - destruct (gr_ind _ _ _ _ _ _ G1) as [E1|[E1 _]]; congruence.
      - rewrite Ez in Hf. rewrite (fo_meta _ _ (gr_fs _ _ _ _ _ _ G1)) in Hf; [done|].
        pose proof (sb_bounds g sbx Hsb). lia. }
    destruct (gr_ind _ _ _ _ _ _ G2) as [E2|[Ez1 Hf]].
    + rewrite E2. apply (gr_ind _ _ _ _ _ _ G1).
    + right. split; [|apply (unused_back v v1); [apply (gr_used _ _ _ _ _ _ G1)|by apply Hind2|done]].
      destruct (gr_ind _ _ _ _ _ _ G1) as [E1|[E1 _]]; congruence.
  - intros m Hr Hu. apply (gr_used _ _ _ _ _ _ G2), (gr_used _ _ _ _ _ _ G1); done.
  - intros n Hr Hb Hu Hn. rewrite (gr_frame _ _ _ _ _ _ G2), (gr_frame _ _ _ _ _ _ G1); try done; [by apply (gr_used _ _ _ _ _ _ G1)|by apply Hne].
  - pose proof (gr_foot _ _ _ _ _ _ G1). pose proof (gr_foot _ _ _ _ _ _ G2). lia.
  - by rewrite (gr_held _ _ _ _ _ _ G2), (gr_held _ _ _ _ _ _ G1).
  - destruct (gr_free _ _ _ _ _ _ G1) as (l1 & E1 & L1), (gr_free _ _ _ _ _ _ G2) as (l2 & E2 & L2).
    exists (l1 ++ l2). rewrite E1, E2, app_assoc, length_app. split; [done|lia].
Qed.

(** ** Taking a block for a slot of addrs *)

Lemma footprint_balloc v a v' : balloc_post sbx v a v' -> (size (footprint sbx v') <= S (size (footprint sbx v)))%nat.
Proof.
  intros B. pose proof (sb_bounds g sbx Hsb) as Hb. pose proof (ba_range _ _ _ _ B).
  etransitivity; [|apply (size_add_le a)]. apply subseteq_size. unfold footprint. rewrite (ba_logged _ _ _ _ B).
  assert (BBLOCK a sbx ∈ bitmap_set sbx) by (apply bitmap_set_elem, (BBLOCK_bitmap g sbx Hsb); unfold in_range; lia). set_solver.
Qed.

Lemma balloc_fs_ok v a v' : fs_ok sbx v -> balloc_post sbx v a v' -> fs_ok sbx v'.
Proof.
  intros Hf B. pose proof (sb_bounds g sbx Hsb) as Hb. split.
  - intros m Hm. rewrite (ba_used _ _ _ _ B), (fo_meta _ _ Hf) by (try done; unfold in_range; lia). done.
  - intros i n. rewrite (ba_held _ _ _ _ B). intros Hi. destruct (fo_held _ _ Hf _ _ Hi) as (? & ? & Hu).
    split_and!; try done. rewrite (ba_used _ _ _ _ B), Hu by done. done.
Qed.

Lemma balloc_fresh v a v' n : balloc_post sbx v a v' -> alloced v n -> n <> a.
Proof.
  intros B [_ Hu] ->. assert (Hin : a ∈ free_list sbx v) by (rewrite (ba_free _ _ _ _ B); by left).
  apply free_list_elem in Hin as [Hf _]. congruence.
Qed.
Lemma balloc_unused v a v' : balloc_post sbx v a v' -> used sbx v a = false.
Proof.
  intros B. assert (Hin : a ∈ free_list sbx v) by (rewrite (ba_free _ _ _ _ B); by left).
  by apply free_list_elem in Hin as [Hf _].
Qed.
Lemma balloc_mono v a v' m : balloc_post sbx v a v' -> in_range sbx m -> used sbx v m = true -> used sbx v' m = true.
Proof. intros B Hr Hu. by rewrite (ba_used _ _ _ _ B), Hu. Qed.
Lemma balloc_alloced v a v' : balloc_post sbx v a v' -> alloced v' a.
Proof.
  intros B. pose proof (sb_bounds g sbx Hsb). pose proof (ba_range _ _ _ _ B). split; [done|].
  rewrite (ba_used _ _ _ _ B), Z.eqb_refl by (unfold in_range; lia). apply orb_true_r.
Qed.
Lemma balloc_same_data v a v' n : balloc_post sbx v a v' -> alloced v n -> dv_data v' n = dv_data v n.
Proof.
  intros B Hn. apply (ba_data _ _ _ _ B); [by eapply balloc_fresh|]. by destruct (alloced_data _ _ Hn) as (_ & ? & _).
Qed.

Lemma bmap_direct_spec ip x k v c :
  sb c = sbx -> icache c !! ip = Some x -> fs_ok sbx v -> fits g sbx v 1 ->
  wp g (bmap_direct ip k) v c
    (fun a v' c' => a <> 0 /\ (nth_addr x k <> 0 /\ a = nth_addr x k /\ v' = v /\ c' = c \/
                    nth_addr x k = 0 /\ balloc_post sbx v a v' /\ c' = set_inode ip (set_addr k a x) c))
    (fun msg => msg = "balloc: out of blocks" /\ nth_addr x k = 0 /\ free_list sbx v = []).
Proof.
  intros Hc Hx Hf Hfit. unfold bmap_direct. apply (wp_the_inode g _ x); [done|].
  destruct (Z.eqb_spec (nth_addr x k) 0) as [Hz|Hz].
  - eapply wp_bind, wp_mono; [by apply (balloc_spec g sbx Hsb)| |by intros msg [-> ?]]. intros a v' c' [-> B].
    apply (wp_upd_inode g _ x); [done|]. apply wp_ret. split; [|by right].
    pose proof (ba_range _ _ _ _ B). pose proof (sb_bounds g sbx Hsb). lia.
  - apply wp_ret. split; [done|by left].
Qed.

Lemma baddr_direct v x k : k < NDIRECT -> baddr v x k = nth_addr x k.
Proof. intros Hk. unfold baddr. by rewrite (proj2 (Z.ltb_lt _ _)). Qed.
Lemma baddr_none v x k : NDIRECT <= k -> nth_addr x NDIRECT = 0 -> baddr v x k = 0.
Proof. intros Hk Hz. unfold baddr. by rewrite (proj2 (Z.ltb_ge _ _)), Hz. Qed.
Lemma baddr_ind v x k :
  NDIRECT <= k -> nth_addr x NDIRECT <> 0 ->
  baddr v x k = load32 (dv_data v (nth_addr x NDIRECT)) (4 * (k - NDIRECT)).
Proof. intros Hk Hz. unfold baddr. by rewrite (proj2 (Z.ltb_ge _ _)), (proj2 (Z.eqb_neq _ _)). Qed.

(** One more block. *)
Lemma inode_ok_add v x v' x' bn a :
  inode_ok v x -> length (i_addrs x') = 13%nat -> nth_addr x' NDIRECT = nth_addr x NDIRECT ->
  (forall k, 0 <= k < MAXFILE -> baddr v' x' k = if decide (k = bn) then a else baddr v x k) ->
  (forall m, in_range sbx m -> used sbx v m = true -> used sbx v' m = true) ->
  alloced v' a -> (forall n, alloced v n -> n <> a) -> inode_ok v' x'.
Proof.
  intros Hi Hl He Hk Hm Ha Hn. pose proof (sb_bounds g sbx Hsb) as Hb.
  assert (Hold : forall k, 0 <= k < MAXFILE -> baddr v x k <> 0 -> baddr v x k <> a) by (intros k ? ?; by apply Hn, (io_addr _ _ Hi)).
  split; [done|..].
  - rewrite He. intros Hz. eapply alloced_mono; [apply Hm|]. by apply (io_ind _ _ Hi).
  - intros k Hr. rewrite Hk by done. destruct (decide (k = bn)); [done|]. intros Hz.
    eapply alloced_mono; [apply Hm|]. by apply (io_addr _ _ Hi).
  - intros k m Hr1 Hr2. rewrite !Hk by done.
    destruct (decide (k = bn)), (decide (m = bn)); intros Hz E; subst; try done.
    + exfalso. apply (Hold m); [done|congruence|done].
    + exfalso. by apply (Hold k).
    + by apply (io_inj _ _ Hi).
  - intros k Hr. rewrite Hk, He by done. destruct (decide (k = bn)); [|by apply (io_ne _ _ Hi)].
    intros Hz E. destruct (decide (nth_addr x NDIRECT = 0)); [congruence|]. apply (Hn (nth_addr x NDIRECT)); [|done].
    by apply (io_ind _ _ Hi).
Qed.

Lemma balloc_free1 v a v' : balloc_post sbx v a v' -> exists l, free_list sbx v = l ++ free_list sbx v' /\ (length l <= 1)%nat.
Proof. intros B. exists [a]. split; [apply (ba_free _ _ _ _ B)|simpl; lia]. Qed.

Lemma frame_balloc v a v' n :
  balloc_post sbx v a v' -> in_range sbx n -> ~ bitmap_block sbx n -> used sbx v n = true -> dv_data v' n = dv_data v n.
Proof.
  intros B Hr Hb Hu. apply (ba_data _ _ _ _ B); [|done]. intros ->. pose proof (balloc_unused _ _ _ B). congruence.
Qed.

Lemma grown_direct v x k a v' :
  0 <= k < NDIRECT -> inode_ok v x -> fs_ok sbx v -> nth_addr x k = 0 -> balloc_post sbx v a v' ->
  grown k 1 v x v' (set_addr k a x) /\ baddr v' (set_addr k a x) k = a.
Proof.
  intros Hk Hi Hf Hz B. pose proof (io_len _ _ Hi) as Hl. pose proof (sb_bounds g sbx Hsb) as Hb. pose proof (ba_range _ _ _ _ B) as Hr.
  assert (Hn : forall j, 0 <= j -> nth_addr (set_addr k a x) j = if decide (j = k) then a else nth_addr x j).
  { intros j Hj. apply nth_set_addr; [rewrite Hl; unfold NDIRECT in *; lia|done]. }
  assert (Hind : nth_addr (set_addr k a x) NDIRECT = nth_addr x NDIRECT).
  { rewrite Hn by (unfold NDIRECT; lia). by rewrite decide_False by lia. }
  assert (Hk' : forall j, 0 <= j < MAXFILE -> baddr v' (set_addr k a x) j = if decide (j = k) then a else baddr v x j).
  { intros j Hj. destruct (decide (j < NDIRECT)) as [Hd|Hd].
    - rewrite !baddr_direct, Hn by lia. done.
    - rewrite decide_False by lia. destruct (decide (nth_addr x NDIRECT = 0)) as [E|E].
      + by rewrite !baddr_none by (rewrite ?Hind; done || lia).
      + rewrite !baddr_ind, Hind by (rewrite ?Hind; done || lia). f_equal.
        eapply balloc_same_data; [done|]. by apply (io_ind _ _ Hi). }
  assert (Hbk : baddr v' (set_addr k a x) k = a) by (rewrite Hk', decide_True by (rewrite ?MAXFILE_eq; unfold NDIRECT in *; lia); done).
  split; [|done]. split.
  - done.
  - eapply (inode_ok_add v x _ _ k a); try done.
    + by rewrite set_addr_length.
    + intros m. by apply (balloc_mono v a).
    + by eapply balloc_alloced.
    + intros n. by apply (balloc_fresh v a v').
  - by eapply balloc_fs_ok.
  - intros j Hj Hne. by rewrite Hk', decide_False.
  - rewrite baddr_direct by lia. done.
  - intros _ _. rewrite Hbk. split; [by eapply balloc_unused|apply (ba_zero _ _ _ _ B)].
  - by left.
  - intros m. by apply (balloc_mono v a).
  - intros n ? ? ? _. by eapply frame_balloc.
  - rewrite Nat.add_1_r. by apply (footprint_balloc v a).
  - apply (ba_held _ _ _ _ B).
  - by eapply balloc_free1.
Qed.

Lemma load32_zero (b : block) a : (forall k, a <= k < a + 4 -> load8 b k = 0) -> load32 b a = 0.
Proof. intros Hb. unfold load32. rewrite !Hb by lia. done. Qed.

Lemma grown_ind v x bn a v' :
  0 <= bn < MAXFILE -> inode_ok v x -> fs_ok sbx v -> nth_addr x NDIRECT = 0 -> balloc_post sbx v a v' ->
  grown bn 1 v x v' (set_addr NDIRECT a x) /\ (forall k, 0 <= k < MAXFILE -> baddr v' (set_addr NDIRECT a x) k = baddr v x k) /\
  nth_addr (set_addr NDIRECT a x) NDIRECT = a.
Proof.
  intros Hbn Hi Hf Hz B. pose proof (io_len _ _ Hi) as Hl. pose proof (sb_bounds g sbx Hsb) as Hb. pose proof (ba_range _ _ _ _ B) as Hr.
  assert (Hn : forall j, 0 <= j -> nth_addr (set_addr NDIRECT a x) j = if decide (j = NDIRECT) then a else nth_addr x j).
  { intros j Hj. apply nth_set_addr; [rewrite Hl; unfold NDIRECT; lia|done]. }
  assert (Hind : nth_addr (set_addr NDIRECT a x) NDIRECT = a) by (by rewrite Hn, decide_True by (unfold NDIRECT; lia)).
  assert (Hk' : forall j, 0 <= j < MAXFILE -> baddr v' (set_addr NDIRECT a x) j = baddr v x j).
  { intros j Hj. destruct (decide (j < NDIRECT)) as [Hd|Hd].
    - by rewrite !baddr_direct, Hn, decide_False by lia.
    - rewrite (baddr_none v x), baddr_ind, Hind by (rewrite ?Hind; lia). apply load32_zero.
      intros q Hq. apply (ba_zero _ _ _ _ B). rewrite MAXFILE_eq in Hj. unfold BSIZE, NDIRECT in *. lia. }
  split; [|done]. split.
  - done.
  - split.
    + by rewrite set_addr_length.
    + intros _. rewrite Hind. by eapply balloc_alloced.
    + intros k Hkr. rewrite Hk' by done. intros Hnz. eapply alloced_mono; [intros ? ?; by eapply balloc_mono|]. by apply (io_addr _ _ Hi).
    + intros k m Hkr Hmr. rewrite !Hk' by done. by apply (io_inj _ _ Hi).
    + intros k Hkr. rewrite Hk', Hind by done. intros Hnz. eapply balloc_fresh; [done|]. by apply (io_addr _ _ Hi).
  - by eapply balloc_fs_ok.
  - intros j Hj _. by rewrite Hk'.
  - by rewrite Hk'.
  - by rewrite Hk'.
  - right. rewrite Hind. split; [done|by eapply balloc_unused].
  - intros m. by apply (balloc_mono v a).
  - intros n ? ? ? _. by eapply frame_balloc.
  - rewrite Nat.add_1_r. by apply (footprint_balloc v a).
  - apply (ba_held _ _ _ _ B).
  - by eapply balloc_free1.
Qed.

(** ** Taking a block for an entry of the indirect block *)

Lemma balloc_release v i n a v' :
  dv_held v !! i = None -> balloc_post sbx (dv_hold i n v) a v' -> balloc_post sbx v a (dv_release i v').
Proof.
  intros Hi B. destruct B as [A1 A2 A3 A4 A5 A6 A7]. split; try done.
  simpl. rewrite A7. simpl. by rewrite delete_insert_id.
Qed.

Lemma load32_ind_store (y : block) j m a :
  0 <= j < NINDIRECT -> 0 <= m < NINDIRECT -> 0 <= a < 2 ^ 32 ->
  load32 (store32 y (4 * j) a) (4 * m) = if decide (m = j) then a else load32 y (4 * m).
Proof.
  intros Hj Hm Ha. destruct (decide (m = j)) as [->|Hne].
  - rewrite load32_store32_eq. by apply u32_small.
  - apply load32_store32_ne. lia.
Qed.

Lemma grown_entry v x bn a v' (c : nat) :
  (c = 2%nat \/ c = 1%nat /\ nth_addr x NDIRECT ∈ footprint sbx v) ->
  NDIRECT <= bn < MAXFILE -> inode_ok v x -> fs_ok sbx v -> nth_addr x NDIRECT <> 0 -> baddr v x bn = 0 ->
  (forall i, dv_held v !! i <> Some a) -> balloc_post sbx v a v' ->
  let ind := nth_addr x NDIRECT in
  let v2 := dv_write ind (store32 (dv_data v' ind) (4 * (bn - NDIRECT)) a) v' in
  grown bn c v x v2 x /\ baddr v2 x bn = a.
Proof.
  intros Hc Hbn Hi Hf Hz Hbz Hheld B ind v2. pose proof (sb_bounds g sbx Hsb) as Hb. pose proof (ba_range _ _ _ _ B) as Hr.
  rewrite MAXFILE_eq in Hbn. pose proof (io_ind _ _ Hi Hz) as Hia. fold ind in Hia.
  destruct (alloced_data _ _ Hia) as (Hir & Hibm & Hiu & _ & _).
  assert (Hdi : dv_data v' ind = dv_data v ind) by (by eapply balloc_same_data).
  assert (Hu2 : forall m, in_range sbx m -> used sbx v2 m = used sbx v' m) by (intros m Hm; by apply (used_write_other g sbx Hsb)).
  assert (Hmono : forall m, in_range sbx m -> used sbx v m = true -> used sbx v2 m = true).
  { intros m Hm Hu. rewrite Hu2 by done. by eapply balloc_mono. }
  assert (Hk : forall j, 0 <= j < MAXFILE -> baddr v2 x j = if decide (j = bn) then a else baddr v x j).
  { intros j Hj. rewrite MAXFILE_eq in Hj. destruct (decide (j < NDIRECT)) as [Hd|Hd].
    - rewrite !baddr_direct, decide_False by lia. done.
    - rewrite !baddr_ind by (lia || done). fold ind. unfold v2. cbn [dv_data dv_write].
      rewrite upd_block_eq, Hdi, load32_ind_store by (rewrite ?NINDIRECT_eq; unfold NDIRECT in *; lia).
      destruct (decide (j = bn)), (decide (j - NDIRECT = bn - NDIRECT)); try done; lia. }
  assert (Hba : baddr v2 x bn = a) by (rewrite Hk, decide_True by (rewrite ?MAXFILE_eq; unfold NDIRECT in *; lia); done).
  assert (Hd2 : forall n, n <> ind -> dv_data v2 n = dv_data v' n) by (intros n Hn; by apply upd_block_ne).
  assert (Hai : a <> ind) by (intros E; by apply (balloc_fresh v a v' ind B Hia)).
  split; [|done]. split; try done.
  - by destruct x.
  - eapply (inode_ok_add v x _ _ bn a); try done.
    + apply (io_len _ _ Hi).
    + apply (alloced_mono v'); [intros ? ?; by rewrite Hu2|by eapply balloc_alloced].
    + intros n. by apply (balloc_fresh v a v').
  - pose proof (balloc_fs_ok _ _ _ Hf B) as Hf'. split.
    + intros m Hm. rewrite Hu2 by (unfold in_range; lia). by apply (fo_meta _ _ Hf').
    + intros i n Hin. destruct (fo_held _ _ Hf' _ _ Hin) as (? & ? & ?). rewrite Hu2 by done. done.
  - intros j Hj Hne. by rewrite Hk, decide_False.
  - intros _ _. rewrite Hba. split; [by eapply balloc_unused|]. intros q Hq.
    rewrite Hd2 by done. by apply (ba_zero _ _ _ _ B).
  - by left.
  - intros n Hn Hnb Hnu Hne. rewrite Hd2 by (by apply Hne). by eapply frame_balloc.
  - pose proof (footprint_balloc v a v' B). pose proof (size_add_le ind (footprint sbx v')).
    assert (footprint sbx v2 ⊆ {[ind]} ∪ footprint sbx v') as Hs by (unfold footprint; simpl; set_solver).
    destruct Hc as [->|[-> Hin]]; [apply subseteq_size in Hs; lia|].
    assert (footprint sbx v2 ⊆ footprint sbx v') as Hs'%subseteq_size; [|lia].
    assert (ind ∈ footprint sbx v'); [|set_solver]. revert Hin. fold ind. unfold footprint. rewrite (ba_logged _ _ _ _ B). set_solver.
  - apply (ba_held _ _ _ _ B).
  - destruct (balloc_free1 _ _ _ B) as (l & E & L). exists l. split; [|lia]. rewrite E. f_equal.
    apply filter_ext_in. intros m [? ?]%elem_of_seqZ. rewrite Hu2 by (unfold in_range; lia). done.
Qed.

Lemma grown_weaken bn (i j : nat) v x v' x' : (i <= j)%nat -> grown bn i v x v' x' -> grown bn j v x v' x'.
Proof.
  intros Hij G. destruct G as [A1 A2 A3 A4 A5 A6 A7 A8 A9 A10 A11 (l & El & Hl)]. split; try done; [lia|exists l; split; [done|lia]].
Qed.

Lemma fits_grown bn (i j : nat) v x v' x' : grown bn i v x v' x' -> fits g sbx v (i + j) -> fits g sbx v' j.
Proof. intros G. apply fits_le; [apply (gr_foot _ _ _ _ _ _ G)|by rewrite (gr_held _ _ _ _ _ _ G)]. Qed.

Lemma fs_ok_hold v i n : alloced v n -> fs_ok sbx v -> fs_ok sbx (dv_hold i n v).
Proof.
  intros Ha Hf. destruct (alloced_data _ _ Ha) as (? & ? & ? & _). split; [apply (fo_meta _ _ Hf)|].
  intros k m. cbn [dv_hold dv_held]. intros [[<- <-]|[_ Hk]]%lookup_insert_Some; [by split_and!|by apply (fo_held _ _ Hf k)].
Qed.

Lemma fits_hold v i n (k : nat) : dv_held v !! i = None -> fits g sbx v (S k) -> fits g sbx (dv_hold i n v) k.
Proof.
  intros Hi [A B]. unfold fits. change (footprint sbx (dv_hold i n v)) with (footprint sbx v). cbn [dv_hold dv_held].
  rewrite map_size_insert_None by done. lia.
Qed.

(** The entry of the indirect block, found or filled. *)
Lemma bmap_entry_spec ip x bn v c (n : nat) :
  (n = 2%nat \/ n = 1%nat /\ nth_addr x NDIRECT ∈ footprint sbx v) ->
  sb c = sbx -> icache c !! ip = Some x -> inode_ok v x -> fs_ok sbx v -> dv_held v = ∅ ->
  NDIRECT <= bn < MAXFILE -> fits g sbx v 2 -> nth_addr x NDIRECT <> 0 ->
  wp g (bp ← fs_bread (nth_addr x NDIRECT);
        b ← fs_data bp;
        addr ← (if load32 b (4 * (bn - NDIRECT)) =? 0 then
                  a ← balloc;
                  fs_log_write bp (fun b => store32 b (4 * (bn - NDIRECT)) a);;
                  ret a
                else ret (load32 b (4 * (bn - NDIRECT))));
        fs_brelse bp;;
        ret addr) v c
    (fun a v' c' => c' = c /\ grown bn n v x v' x /\ a = baddr v' x bn /\ a <> 0 /\ (baddr v x bn <> 0 -> v' = v) /\
       (baddr v x bn = 0 -> a ∈ footprint sbx v'))
    (fun msg => msg = "balloc: out of blocks" /\ baddr v x bn = 0 /\ free_list sbx v = []).
Proof.
  intros Hn Hc Hx Hi Hf Hheld Hbn Hfit Hz. pose proof (sb_bounds g sbx Hsb) as Hb. pose proof (logged_footprint g sbx Hsb v).
  pose proof (io_ind _ _ Hi Hz) as Hia. set (ind := nth_addr x NDIRECT) in *.
  destruct (alloced_data _ _ Hia) as (Hir & Hibm & Hiu & Hig & Hil).
  apply wp_bread; [intros i; by rewrite Hheld, lookup_empty|lia|destruct Hfit; lia|]. intros i Hi0.
  apply (wp_bdata _ i ind); [apply lookup_insert_eq|]. cbn [dv_hold dv_data].
  assert (Eb : load32 (dv_data v ind) (4 * (bn - NDIRECT)) = baddr v x bn) by (by rewrite baddr_ind by lia).
  rewrite Eb. destruct (Z.eqb_spec (baddr v x bn) 0) as [Hbz|Hbz].
  - apply wp_bind, wp_bind. eapply wp_mono; [eapply (balloc_spec g sbx Hsb); [done| |]| |].
    + by apply fs_ok_hold.
    + by apply fits_hold.
    + intros a v' c' [-> B]. pose proof (ba_held _ _ _ _ B) as Hh'. cbn [dv_hold dv_held] in Hh'.
      pose proof (footprint_balloc _ _ _ B) as Hfp. pose proof (logged_footprint g sbx Hsb v').
      assert (Hroom : (size (dv_logged v') < g_room g)%nat) by (destruct Hfit; unfold footprint in *; simpl in *; lia).
      apply (wp_blogged _ i ind); [rewrite Hh'; apply lookup_insert_eq|done|done|]. apply wp_ret.
      eapply wp_brelse; [cbn [dv_write dv_held]; rewrite Hh'; apply lookup_insert_eq|]. apply wp_ret.
      pose proof (balloc_release v i ind a v' Hi0 B) as B'.
      destruct (grown_entry v x bn a (dv_release i v') n Hn Hbn Hi Hf Hz Hbz) as [G E]; [by intros k; rewrite Hheld, lookup_empty|done|].
      split; [done|]. split; [exact G|]. split; [done|]. split; [pose proof (ba_range _ _ _ _ B); lia|].
      split; [done|]. intros _. unfold footprint. simpl. rewrite (ba_logged _ _ _ _ B). set_solver.
    + intros msg [-> Hfl]. done.
  - apply wp_bind, wp_ret. eapply wp_brelse; [apply lookup_insert_eq|]. rewrite dv_hold_release by done. apply wp_ret.
    split; [done|]. split; [|done]. apply (grown_weaken bn 0); [lia|by apply grown_refl].
Qed.

Lemma bmap_spec ip x bn v c :
  sb c = sbx -> icache c !! ip = Some x -> inode_ok v x -> fs_ok sbx v -> dv_held v = ∅ -> 0 <= bn < MAXFILE -> fits g sbx v 3 ->
  wp g (bmap ip bn) v c
    (fun a v' c' => exists x', grown bn 2 v x v' x' /\ c' = set_inode ip x' c /\ a = baddr v' x' bn /\ a <> 0 /\
                    (baddr v x bn <> 0 -> v' = v /\ x' = x) /\ (baddr v x bn = 0 -> a ∈ footprint sbx v'))
    (fun msg => msg = "balloc: out of blocks" /\ baddr v x bn = 0 /\ (length (free_list sbx v) < 2)%nat).
Proof.
  intros Hc Hx Hi Hf Hheld Hbn Hfit. unfold bmap. destruct (Z.ltb_spec bn NDIRECT) as [Hd|Hd].
  - eapply wp_mono; [eapply bmap_direct_spec; try done; eapply (fits_le g sbx v v 2 1); lia || done| |].
    + intros a v' c' [Ha [(Hz & -> & -> & ->)|(Hz & B & ->)]].
      * exists x. rewrite set_inode_id, baddr_direct by done. split; [|done].
        apply (grown_weaken bn 0); [lia|by apply grown_refl].
      * exists (set_addr bn a x). destruct (grown_direct v x bn a v' ltac:(lia) Hi Hf Hz B) as [G E].
        rewrite E, (baddr_direct v x) by done. split_and!; try done; [by apply (grown_weaken bn 1); [lia|]|].
        intros _. unfold footprint. rewrite (ba_logged _ _ _ _ B). set_solver.
    + intros msg (-> & Hz & Hfl). rewrite Hfl, baddr_direct by done. simpl. split_and!; [done|done|lia].
  - rewrite MAXFILE_eq in Hbn. rewrite u32_small by (unfold NDIRECT in *; lia).
    rewrite (proj2 (Z.ltb_lt _ NINDIRECT)) by (rewrite NINDIRECT_eq; unfold NDIRECT in *; lia).
    apply wp_bind. eapply wp_mono; [eapply bmap_direct_spec; try done; eapply (fits_le g sbx v v 2 1); lia || done| |].
    + intros ind v1 c1 [Hnz [(Hz & -> & -> & ->)|(Hz & B & ->)]].
      * eapply wp_mono; [eapply (bmap_entry_spec ip x bn v c 2); try done|..].
        -- by left.
        -- rewrite MAXFILE_eq. lia.
        -- eapply (fits_le g sbx v v 1 2); lia || done.
        -- intros a v' c' (-> & G & Ea & Hna & Hsame & Hin). exists x. rewrite set_inode_id by done. split_and!; try done. intros Hb. by split; [apply Hsame|].
        -- intros msg (-> & Hb & Hfl). rewrite Hfl. simpl. split_and!; [done|done|lia].
      * set (x1 := set_addr NDIRECT ind x).
        destruct (grown_ind v x bn ind v1 ltac:(rewrite MAXFILE_eq; lia) Hi Hf Hz B) as (G & Hk & E). fold x1 in G, Hk, E.
        rewrite <- E. eapply wp_mono; [eapply (bmap_entry_spec ip x1 bn v1 (set_inode ip x1 c) 1); try done|..].
        -- right. split; [done|]. rewrite E. unfold footprint. rewrite (ba_logged _ _ _ _ B). set_solver.
        -- by eapply set_inode_lookup.
        -- apply (gr_ok _ _ _ _ _ _ G).
        -- apply (gr_fs _ _ _ _ _ _ G).
        -- by rewrite (gr_held _ _ _ _ _ _ G).
        -- rewrite MAXFILE_eq. lia.
        -- by apply (fits_grown _ 1 2 _ _ _ _ G).
        -- by rewrite E.
        -- intros a v' c' (-> & G2 & Ea & Hna & _ & Hin). exists x1. split_and!; try done.
           ++ by apply (grown_trans bn 1 1 _ _ v1 x1); [rewrite MAXFILE_eq; lia| |].
           ++ intros Hb. by rewrite baddr_none in Hb.
           ++ intros _. apply Hin. rewrite Hk by (rewrite MAXFILE_eq; lia). by apply baddr_none.
        -- intros msg (-> & Hb & Hfl). rewrite (ba_free _ _ _ _ B), Hfl. rewrite Hk in Hb by (rewrite MAXFILE_eq; lia).
           simpl. split_and!; [done|done|lia].
    + intros msg (-> & Hz & Hfl). rewrite Hfl, baddr_none by done. simpl. split_and!; [done|done|lia].
Qed.

(** Looking up a block that is there needs neither the log nor a transaction. *)
Lemma bmap_present ip x bn v c (Q : Z -> dview -> fcore -> Prop) E :
  icache c !! ip = Some x -> inode_ok v x -> dv_held v = ∅ -> 0 <= bn < MAXFILE -> baddr v x bn <> 0 ->
  (S (size (dv_logged v)) < g_bufs g)%nat -> Q (baddr v x bn) v c -> wp g (bmap ip bn) v c Q E.
Proof.
  intros Hx Hi Hheld Hbn Hnz Hs HQ. unfold bmap, bmap_direct. destruct (Z.ltb_spec bn NDIRECT) as [Hd|Hd].
  - apply (wp_the_inode g _ x); [done|]. rewrite baddr_direct in * by done. rewrite (proj2 (Z.eqb_neq _ _)) by done.
    by apply wp_ret.
  - rewrite MAXFILE_eq in Hbn. rewrite u32_small by (unfold NDIRECT in *; lia).
    rewrite (proj2 (Z.ltb_lt _ NINDIRECT)) by (rewrite NINDIRECT_eq; unfold NDIRECT in *; lia).
    assert (Hz : nth_addr x NDIRECT <> 0) by (intros E0; by rewrite baddr_none in Hnz).
    pose proof (io_ind _ _ Hi Hz) as Hia. destruct (alloced_data _ _ Hia) as (_ & _ & _ & Hig & _).
    apply wp_bind. apply (wp_the_inode g _ x); [done|]. rewrite (proj2 (Z.eqb_neq _ _)) by done. apply wp_ret.
    apply wp_bread; [intros i; by rewrite Hheld, lookup_empty|lia|rewrite Hheld, map_size_empty; lia|]. intros i Hi0.
    eapply wp_bdata; [apply lookup_insert_eq|]. cbn [dv_hold dv_data].
    rewrite <- (baddr_ind v x bn) by done. rewrite (proj2 (Z.eqb_neq _ _)) by done.
    apply wp_bind, wp_ret. eapply wp_brelse; [apply lookup_insert_eq|]. rewrite dv_hold_release by done. by apply wp_ret.
Qed.

(** ** Reading *)

(** The byte at offset [k] of a file. *)
Definition content v x k : Z := load8 (dv_data v (baddr v x (k / BSIZE))) (k mod BSIZE).

(** Every block up to the file's size is there. *)
Definition no_holes v x : Prop :=
  0 <= i_size x <= MAXFILE * BSIZE /\ forall k, 0 <= k < i_size x -> baddr v x (k / BSIZE) <> 0.

Lemma load8_move_in (dst : memory) d (src : memory) s n q :
  load8 (move_in dst d src s n) q = if decide (d <= q < d + n) then load8 src (s + (q - d)) else load8 dst q.
Proof.
  unfold load8 at 1, move_in. destruct (Z.leb_spec d q), (Z.ltb_spec q (d + n)); cbn [andb].
  - rewrite decide_True by lia. unfold load8. apply u8_idem.
  - by rewrite decide_False by lia.
  - by rewrite decide_False by lia.
  - by rewrite decide_False by lia.
Qed.
Lemma move_in_out (dst : memory) d (src : memory) s n q : ~ (d <= q < d + n) -> move_in dst d src s n q = dst q.
Proof. intros Hq. unfold move_in. destruct (Z.leb_spec d q), (Z.ltb_spec q (d + n)); cbn [andb]; try done; lia. Qed.

(** The memory [m'] holds the bytes [lo, hi) of the file at [dst], and is [m] elsewhere. *)
Definition fetched v x (m m' : memory) (dst lo hi : Z) : Prop :=
  (forall k, lo <= k < hi -> load8 m' (dst + (k - lo)) = content v x k) /\
  (forall q, ~ (dst <= q < dst + (hi - lo)) -> m' q = m q).

Lemma readi_loop_spec ip x v c n fuel : forall (m : memory) (dst off tot : Z),
  icache c !! ip = Some x -> inode_ok v x -> no_holes v x -> dv_held v = ∅ ->
  (S (size (dv_logged v)) < g_bufs g)%nat -> 0 <= tot <= n -> n < 2 ^ 32 -> 0 <= off -> off + (n - tot) <= i_size x ->
  (tot < n -> off mod BSIZE + (n - tot) <= BSIZE * (Z.of_nat fuel - 1)) -> (1 <= fuel)%nat ->
  wp g (readi_loop ip m dst off n tot fuel) v c
    (fun (m' : memory) v' c' => v' = v /\ c' = c /\ fetched v x m m' dst off (off + (n - tot))) no_panic.
Proof.
  induction fuel as [|fuel IH]; intros m dst off tot Hx Hi Hh Hheld Hs Htot Hn32 Hoff Hle Hfuel Hf1; [lia|].
  cbn [readi_loop]. destruct (Z.ltb_spec tot n) as [Hlt|Hge]; cbn [negb].
  2: { apply wp_ret. split_and!; try done. split; [intros k; lia|done]. }
  destruct Hh as [Hsz Hno]. assert (Hsz' := Hsz). rewrite MAXFILE_eq in Hsz'. specialize (Hfuel Hlt). unfold BSIZE in *.
  assert (Hbn : 0 <= off / 512 < MAXFILE) by (rewrite MAXFILE_eq; dlia).
  assert (Hnz : baddr v x (off / 512) <> 0) by (apply Hno; lia).
  destruct (alloced_data _ _ (io_addr _ _ Hi _ Hbn Hnz)) as (_ & _ & _ & Hag & _).
  apply wp_bind. apply (bmap_present ip x); try done.
  apply wp_bread; [intros i; by rewrite Hheld, lookup_empty|lia|rewrite Hheld, map_size_empty; lia|]. intros i Hi0.
  eapply wp_bdata; [apply lookup_insert_eq|]. cbn [dv_hold dv_data].
  eapply wp_brelse; [apply lookup_insert_eq|]. rewrite dv_hold_release by done.
  set (k := (n - tot) `min` (512 - off mod 512)). assert (Hk : 0 < k <= n - tot /\ off mod 512 + k <= 512) by dlia.
  rewrite (u32_small (off + k)), (u32_small (tot + k)) by lia. eapply wp_mono; [eapply (IH _ (dst + k) (off + k) (tot + k)); try done; try lia| |done].
  - intros Hlt'. assert (k = 512 - off mod 512) by lia. assert ((off + k) mod 512 = 0) by dlia. lia.
  - destruct fuel; [dlia|lia].
  - intros m' v' c' (-> & -> & Hin & Hout). split_and!; try done. split.
    + intros q Hq. destruct (decide (q < off + k)) as [Hl|Hl].
      * unfold load8. rewrite Hout by lia. change (u8 (?f ?a)) with (load8 f a). rewrite load8_move_in, decide_True by lia.
        unfold content, BSIZE. replace (q / 512) with (off / 512) by dlia. f_equal. dlia.
      * rewrite <- Hin by lia. f_equal. lia.
    + intros q Hq. rewrite Hout by lia. apply move_in_out. lia.
Qed.


Lemma rounds_enough off n : 0 <= n -> off mod BSIZE + n <= BSIZE * (Z.of_nat (rounds n) - 1).
Proof. intros Hn. unfold rounds, BSIZE. rewrite Z2Nat.id by dlia. dlia. Qed.

(** How much of a file of size [size] a read of [n] bytes at [off] returns. *)
Definition readable (size off n : Z) : Z := if size <? off + n then size - off else n.

Section ReadCall.
Context (devsw_read : Z -> option (nat -> memory -> Z -> Z -> M (fstate T fcore) (Z * memory))).

Lemma readi_spec ip x v c (m : memory) (dst off n : Z) :
  icache c !! ip = Some x -> inode_ok v x -> no_holes v x -> dv_held v = ∅ ->
  (S (size (dv_logged v)) < g_bufs g)%nat -> i_type x <> T_DEV -> 0 <= off <= i_size x -> 0 <= n -> off + n < 2 ^ 32 ->
  wp g (readi devsw_read ip m dst off n) v c
    (fun r v' c' => v' = v /\ c' = c /\ r.1 = readable (i_size x) off n /\
                    fetched v x m r.2 dst off (off + readable (i_size x) off n)) no_panic.
Proof.
  intros Hx Hi Hh Hheld Hs Ht Hoff Hn Hlt. unfold readi. apply (wp_the_inode g _ x); [done|].
  rewrite (proj2 (Z.eqb_neq (i_type x) _)) by done.
  pose proof (proj1 Hh) as Hsz. rewrite MAXFILE_eq in Hsz. unfold BSIZE in Hsz.
  rewrite (u32_small (off + n)) by lia. rewrite !(proj2 (Z.ltb_ge _ _)) by lia. cbn [orb].
  assert (Er : (if i_size x <? off + n then u32 (i_size x - off) else n) = readable (i_size x) off n).
  { unfold readable. destruct (Z.ltb_spec (i_size x) (off + n)); [by rewrite u32_small by lia|done]. }
  rewrite Er. assert (Hr : 0 <= readable (i_size x) off n /\ off + readable (i_size x) off n <= i_size x).
  { unfold readable. destruct (Z.ltb_spec (i_size x) (off + n)); lia. }
  eapply wp_then; [eapply (readi_loop_spec ip x v c _ _ m dst off 0); try done; try lia|].
  - intros _. rewrite Z.sub_0_r. apply rounds_enough. lia.
  - unfold rounds, BSIZE. dlia.
  - intros m' v' c' (-> & -> & Hf). rewrite Z.sub_0_r in Hf. apply wp_ret. split_and!; try done.
    cbn [fst]. apply s32_small. lia.
Qed.
End ReadCall.

(** ** Writing *)

(** The blocks a file occupies. *)
Definition owns v x a : Prop :=
  a <> 0 /\ (a = nth_addr x NDIRECT \/ exists k, 0 <= k < MAXFILE /\ a = baddr v x k).

(** [v'] and [x'] are [v] and [x] after the bytes [w] were written at offsets [lo, hi), with at
    most [j] blocks more logged or allocated. *)
Record written (w : Z -> Z) (lo hi : Z) (j : nat) v x v' x' : Prop := {
  wr_same : x' = set_i_addrs (i_addrs x') x;
  wr_ok : inode_ok v' x';
  wr_fs : fs_ok sbx v';
  wr_kept : forall k, 0 <= k < MAXFILE -> baddr v x k <> 0 -> baddr v' x' k = baddr v x k;
  wr_in : forall k, lo <= k < hi -> baddr v' x' (k / BSIZE) <> 0 /\ content v' x' k = w k;
  wr_out : forall k, 0 <= k < MAXFILE * BSIZE -> ~ (lo <= k < hi) -> baddr v' x' (k / BSIZE) <> 0 ->
    content v' x' k = if decide (baddr v x (k / BSIZE) = 0) then 0 else content v x k;
  wr_fresh : forall a, owns v' x' a -> owns v x a \/ used sbx v a = false;
  wr_used : forall m, in_range sbx m -> used sbx v m = true -> used sbx v' m = true;
  wr_frame : forall n, in_range sbx n -> ~ bitmap_block sbx n -> used sbx v n = true -> ~ owns v x n ->
    dv_data v' n = dv_data v n;
  wr_foot : (size (footprint sbx v') <= size (footprint sbx v) + j)%nat;
  wr_held : dv_held v' = dv_held v;
  wr_free : exists l, free_list sbx v = l ++ free_list sbx v' /\ (length l <= j)%nat
}.

Lemma owns_alloced v x a : inode_ok v x -> owns v x a -> alloced v a.
Proof.
  intros Hi [Hnz [->|(k & Hk & ->)]]; [by apply (io_ind _ _ Hi)|by apply (io_addr _ _ Hi)].
Qed.
Lemma owns_baddr v x k : 0 <= k < MAXFILE -> baddr v x k <> 0 -> owns v x (baddr v x k).
Proof. intros Hk Hz. split; [done|right; by exists k]. Qed.

Lemma written_nil w lo hi v x : hi <= lo -> inode_ok v x -> fs_ok sbx v -> written w lo hi 0 v x v x.
Proof.
  intros Hle Hi Hf. split; try done.
  - by destruct x.
  - intros k. lia.
  - intros k _ _ Hz. by rewrite decide_False.
  - intros a Ha. by left.
  - lia.
  - exists []. split; [done|simpl; lia].
Qed.

Lemma block_index k : 0 <= k < MAXFILE * BSIZE -> 0 <= k / BSIZE < MAXFILE.
Proof. rewrite MAXFILE_eq. unfold BSIZE. dlia. Qed.

Lemma written_trans w lo mid hi (i j : nat) v x v1 x1 v2 x2 :
  0 <= lo <= mid -> mid <= hi <= MAXFILE * BSIZE ->
  written w lo mid i v x v1 x1 -> written w mid hi j v1 x1 v2 x2 -> written w lo hi (i + j) v x v2 x2.
Proof.
  intros Hlo Hhi W1 W2.
  assert (Hback : forall k, 0 <= k < MAXFILE -> baddr v1 x1 k <> 0 -> baddr v2 x2 k = baddr v1 x1 k) by apply (wr_kept _ _ _ _ _ _ _ _ W2).
  assert (Hkeep : forall k, 0 <= k < MAXFILE -> baddr v x k <> 0 -> baddr v1 x1 k <> 0).
  { intros k Hk Hz. by rewrite (wr_kept _ _ _ _ _ _ _ _ W1). }
  split.
  - rewrite (wr_same _ _ _ _ _ _ _ _ W2), (wr_same _ _ _ _ _ _ _ _ W1). done.
  - apply (wr_ok _ _ _ _ _ _ _ _ W2).
  - apply (wr_fs _ _ _ _ _ _ _ _ W2).
  - intros k Hk Hz. rewrite Hback by (try apply Hkeep; done). by apply (wr_kept _ _ _ _ _ _ _ _ W1).
  - intros k Hk. destruct (decide (mid <= k)) as [Hm|Hm]; [apply (wr_in _ _ _ _ _ _ _ _ W2); lia|].
    destruct (wr_in _ _ _ _ _ _ _ _ W1 k ltac:(lia)) as [Hz Hc].
    pose proof (block_index k ltac:(lia)) as Hbi.
    assert (Hz2 : baddr v2 x2 (k / BSIZE) <> 0) by (by rewrite Hback). split; [done|].
    rewrite (wr_out _ _ _ _ _ _ _ _ W2 k), decide_False by (done || lia). done.
  - intros k Hk Hnk Hz2. pose proof (block_index k Hk) as Hbi.
    rewrite (wr_out _ _ _ _ _ _ _ _ W2 k) by (done || lia).
    destruct (decide (baddr v1 x1 (k / BSIZE) = 0)) as [E1|E1].
    + destruct (decide (baddr v x (k / BSIZE) = 0)); [done|]. by destruct (Hkeep _ Hbi n).
    + apply (wr_out _ _ _ _ _ _ _ _ W1); [done|lia|done].
  - intros a Ha. destruct (wr_fresh _ _ _ _ _ _ _ _ W2 a Ha) as [Ha1|Hu].
    + by apply (wr_fresh _ _ _ _ _ _ _ _ W1).
    + right. apply (unused_back v v1); [apply (wr_used _ _ _ _ _ _ _ _ W1)| |done].
      by destruct (alloced_data _ _ (owns_alloced _ _ _ (wr_ok _ _ _ _ _ _ _ _ W2) Ha)).
  - intros m Hr Hu. apply (wr_used _ _ _ _ _ _ _ _ W2), (wr_used _ _ _ _ _ _ _ _ W1); done.
  - intros n Hr Hb Hu Ho. rewrite (wr_frame _ _ _ _ _ _ _ _ W2), (wr_frame _ _ _ _ _ _ _ _ W1); try done.
    + by apply (wr_used _ _ _ _ _ _ _ _ W1).
    + intros Ho1. destruct (wr_fresh _ _ _ _ _ _ _ _ W1 n Ho1); [done|congruence].
  - pose proof (wr_foot _ _ _ _ _ _ _ _ W1). pose proof (wr_foot _ _ _ _ _ _ _ _ W2). lia.
  - by rewrite (wr_held _ _ _ _ _ _ _ _ W2), (wr_held _ _ _ _ _ _ _ _ W1).
  - destruct (wr_free _ _ _ _ _ _ _ _ W1) as (l1 & E1 & L1), (wr_free _ _ _ _ _ _ _ _ W2) as (l2 & E2 & L2).
    exists (l1 ++ l2). rewrite E1, E2, app_assoc, length_app. split; [done|lia].
Qed.

Lemma grown_owns bn (j : nat) v x v' x' a : 0 <= bn < MAXFILE -> grown bn j v x v' x' -> owns v' x' a -> owns v x a \/ used sbx v a = false.
Proof.
  intros Hbn G [Hnz [->|(k & Hk & ->)]].
  - destruct (gr_ind _ _ _ _ _ _ G) as [E|[_ Hu]]; [left|by right]. rewrite E in *. split; [done|by left].
  - destruct (decide (k = bn)) as [->|Hne].
    + destruct (decide (baddr v x bn = 0)) as [E|E]; [right; by apply (gr_fresh _ _ _ _ _ _ G)|left].
      rewrite (gr_old _ _ _ _ _ _ G) in * by done. by apply owns_baddr.
    + left. rewrite (gr_other _ _ _ _ _ _ G) in * by done. by apply owns_baddr.
Qed.

(** Writing one of its blocks moves no block of a file. *)
Lemma block_write_baddr v x bn b : inode_ok v x -> 0 <= bn < MAXFILE -> baddr v x bn <> 0 ->
  forall q, baddr (dv_write (baddr v x bn) b v) x q = baddr v x q.
Proof.
  intros Hi Hbn Ha q. destruct (decide (q < NDIRECT)); [by rewrite !baddr_direct|].
  destruct (decide (nth_addr x NDIRECT = 0)); [by rewrite !baddr_none by lia|].
  rewrite (baddr_ind v x q), baddr_ind by (lia || done). unfold dv_write. cbn [dv_data].
  by rewrite upd_block_ne by (intros E; by apply (io_ne _ _ Hi bn Hbn Ha)).
Qed.

(** The content after [k] bytes were stored in the block bmap found. *)
Lemma written_content (w : Z -> Z) off k (m : memory) src v x v1 x1 :
  let bn := off / BSIZE in
  let a := baddr v1 x1 bn in
  0 <= off < MAXFILE * BSIZE -> off mod BSIZE + k <= BSIZE -> inode_ok v x ->
  grown bn 2 v x v1 x1 -> a <> 0 -> (baddr v x bn <> 0 -> v1 = v) ->
  (forall q, off <= q < off + k -> load8 m (src + (q - off)) = w q) ->
  forall q, 0 <= q < MAXFILE * BSIZE -> baddr v1 x1 (q / BSIZE) <> 0 ->
    content (dv_write a (move_in (dv_data v1 a) (off mod BSIZE) m src k) v1) x1 q =
    if decide (off <= q < off + k) then w q else if decide (baddr v x (q / BSIZE) = 0) then 0 else content v x q.
Proof.
  intros bn a Hoff Hfit Hi G Ha Hsame Hw q Hq Hz. pose proof (block_index off Hoff) as Hbn. fold bn in Hbn.
  pose proof (gr_ok _ _ _ _ _ _ G) as Hi1. pose proof (block_index q Hq) as Hbq.
  unfold content at 1. unfold a. rewrite block_write_baddr by done. fold a. set (v2 := dv_write _ _ _).
  assert (Hd2 : forall n, n <> a -> dv_data v2 n = dv_data v1 n) by (intros n Hn; by apply upd_block_ne).
  assert (Hdiv : q / BSIZE = bn <-> off - off mod BSIZE <= q < off - off mod BSIZE + BSIZE).
  { unfold bn, BSIZE in *. split; dlia. }
  assert (Hom : 0 <= off mod BSIZE < BSIZE) by (unfold BSIZE; dlia).
  assert (Hmq : 0 <= q mod BSIZE < BSIZE) by (unfold BSIZE; dlia).
  destruct (decide (q / BSIZE = bn)) as [E|E].
  - rewrite E in *. fold a. unfold v2. cbn [dv_write dv_data]. rewrite upd_block_eq, load8_move_in.
    pose proof (proj1 Hdiv eq_refl) as Hr. assert (Em : q mod BSIZE = q - (off - off mod BSIZE)) by (unfold bn, BSIZE in *; dlia).
    destruct (decide (off <= q < off + k)) as [Hin'|Hout'].
    + rewrite decide_True by lia. rewrite <- (Hw q) by done. f_equal. lia.
    + rewrite decide_False by lia. destruct (decide (baddr v x bn = 0)) as [E0|E0].
      * by apply (gr_fresh _ _ _ _ _ _ G E0 Ha).
      * unfold content. rewrite E, (Hsame E0). f_equal. unfold a. rewrite (gr_old _ _ _ _ _ _ G E0). done.
  - rewrite decide_False by (intros Hr; apply E, Hdiv; lia).
    rewrite (gr_other _ _ _ _ _ _ G) in * by done. rewrite decide_False by done. rewrite Hd2.
    + unfold content. f_equal. pose proof (io_addr _ _ Hi _ Hbq Hz) as Hal. destruct (alloced_data _ _ Hal) as (? & ? & ? & _).
      apply (gr_frame _ _ _ _ _ _ G); try done. intros _. by apply (io_ne _ _ Hi).
    + unfold a. rewrite <- (gr_other _ _ _ _ _ _ G (q / BSIZE)) in * by done. intros E'.
      apply E, (io_inj _ _ Hi1); try done.
Qed.

(** Storing [k] bytes in the block bmap found. *)
Lemma written_block (w : Z -> Z) off k (m : memory) src v x v1 x1 :
  let bn := off / BSIZE in
  let a := baddr v1 x1 bn in
  0 <= off < MAXFILE * BSIZE -> 0 <= k -> off mod BSIZE + k <= BSIZE -> inode_ok v x ->
  grown bn 2 v x v1 x1 -> a <> 0 -> (baddr v x bn <> 0 -> v1 = v) -> (baddr v x bn = 0 -> a ∈ footprint sbx v1) ->
  (forall q, off <= q < off + k -> load8 m (src + (q - off)) = w q) ->
  written w off (off + k) 2 v x (dv_write a (move_in (dv_data v1 a) (off mod BSIZE) m src k) v1) x1.
Proof.
  intros bn a Hoff Hk Hfit Hi G Ha Hsame Hin Hw. pose proof (block_index off Hoff) as Hbn. fold bn in Hbn.
  pose proof (gr_ok _ _ _ _ _ _ G) as Hi1. set (v2 := dv_write _ _ _).
  destruct (alloced_data _ _ (io_addr _ _ Hi1 bn Hbn Ha)) as (Har & Hab & Hau & _). fold a in Har, Hab, Hau.
  assert (Hd2 : forall n, n <> a -> dv_data v2 n = dv_data v1 n) by (intros n Hn; by apply upd_block_ne).
  assert (Hb2 : forall q, baddr v2 x1 q = baddr v1 x1 q) by (by apply block_write_baddr).
  assert (Hu2 : forall n, in_range sbx n -> used sbx v2 n = used sbx v1 n) by (intros n Hn; by apply (used_write_other g sbx Hsb)).
  assert (Ho2 : forall n, owns v2 x1 n <-> owns v1 x1 n) by (intros n; unfold owns; by setoid_rewrite Hb2).
  assert (Hdiv : forall q, 0 <= q -> q / BSIZE = bn <-> off - off mod BSIZE <= q < off - off mod BSIZE + BSIZE).
  { intros q Hq. unfold bn, BSIZE in *. split; dlia. }
  assert (Hom : 0 <= off mod BSIZE < BSIZE) by (unfold BSIZE; dlia).
  pose proof (written_content w off k m src v x v1 x1 Hoff Hfit Hi G Ha Hsame Hw) as Hc. fold bn a v2 in Hc.
  split.
  - apply (gr_same _ _ _ _ _ _ G).
  - destruct Hi1 as [L1 L2 L3 L4 L5].
    assert (Hal : forall n, alloced v1 n -> alloced v2 n) by (intros n; apply alloced_mono; intros ? ?; by rewrite Hu2).
    split; [done|..].
    + intros Hz. by apply Hal, L2.
    + intros q Hq. rewrite Hb2. intros Hz. by apply Hal, L3.
    + intros q q' Hq Hq'. rewrite !Hb2. by apply L4.
    + intros q Hq. rewrite Hb2. by apply L5.
  - pose proof (gr_fs _ _ _ _ _ _ G) as Hf1. pose proof (sb_bounds g sbx Hsb). split.
    + intros n Hn. rewrite Hu2 by (unfold in_range; lia). by apply (fo_meta _ _ Hf1).
    + intros i n Hin0. destruct (fo_held _ _ Hf1 _ _ Hin0) as (? & ? & ?). rewrite Hu2 by done. done.
  - intros q Hq Hz. rewrite Hb2. destruct (decide (q = bn)) as [->|Hne]; [by apply (gr_old _ _ _ _ _ _ G)|by apply (gr_other _ _ _ _ _ _ G)].
  - intros q Hq. assert (E : q / BSIZE = bn) by (apply Hdiv; lia).
    assert (Hq' : 0 <= q < MAXFILE * BSIZE) by (rewrite MAXFILE_eq in *; unfold bn, BSIZE in *; dlia).
    rewrite Hb2, E. split; [done|]. rewrite Hc, decide_True by (rewrite ?E; done). done.
  - intros q Hq Hnq. rewrite Hb2. intros Hz. rewrite Hc, decide_False by done. done.
  - intros n Hn%Ho2. by apply (grown_owns bn 2 v x v1 x1).
  - intros n Hr Hu. rewrite Hu2 by done. by apply (gr_used _ _ _ _ _ _ G).
  - intros n Hr Hb Hu Ho. rewrite Hd2.
    + apply (gr_frame _ _ _ _ _ _ G); try done. intros Hz ->. apply Ho. split; [done|by left].
    + intros ->. destruct (grown_owns bn 2 v x v1 x1 a Hbn G) as [Ho'|Hu']; [by apply owns_baddr|done|].
      unfold a in Hu'. unfold a in Hu. congruence.
  - destruct (decide (baddr v x bn = 0)) as [E0|E0].
    + etransitivity; [|apply (gr_foot _ _ _ _ _ _ G)]. apply subseteq_size. specialize (Hin E0). unfold footprint in *. simpl. set_solver.
    + rewrite (Hsame E0) in *. pose proof (size_add_le a (footprint sbx v)).
      assert (footprint sbx v2 ⊆ {[a]} ∪ footprint sbx v) as Hs%subseteq_size by (unfold footprint; simpl; set_solver). lia.
  - apply (gr_held _ _ _ _ _ _ G).
  - destruct (gr_free _ _ _ _ _ _ G) as (l & El & Hl). exists l. split; [|done]. rewrite El. f_equal.
    apply filter_ext_in. intros q [? ?]%elem_of_seqZ. rewrite Hu2 by (unfold in_range; lia). done.
Qed.

Lemma written_same_len w lo hi (j : nat) v x v' x' : written w lo hi j v x v' x' -> i_size x' = i_size x /\ i_inum x' = i_inum x.
Proof. intros W. rewrite (wr_same _ _ _ _ _ _ _ _ W). done. Qed.

Lemma fits_written w lo hi (i j : nat) v x v' x' : written w lo hi i v x v' x' -> fits g sbx v (i + j) -> fits g sbx v' j.
Proof. intros W. apply fits_le; [apply (wr_foot _ _ _ _ _ _ _ _ W)|by rewrite (wr_held _ _ _ _ _ _ _ _ W)]. Qed.

Lemma writei_loop_spec (w : Z -> Z) ip (m : memory) n fuel : forall (it : nat) (c : fcore) (v : dview) (x : inode) (src off tot : Z),
  sb c = sbx -> icache c !! ip = Some x -> inode_ok v x -> fs_ok sbx v -> dv_held v = ∅ ->
  0 <= tot <= n -> 0 <= off -> off + (n - tot) <= MAXFILE * BSIZE -> n <= MAXFILE * BSIZE ->
  (tot < n -> off mod BSIZE + (n - tot) <= BSIZE * Z.of_nat it) -> (it < fuel)%nat -> fits g sbx v (2 * it + 1) ->
  (forall q, off <= q < off + (n - tot) -> load8 m (src + (q - off)) = w q) ->
  wp g (writei_loop ip m src off n tot fuel) v c
    (fun r v' c' => r = off + (n - tot) /\ exists x', written w off (off + (n - tot)) (2 * it) v x v' x' /\ c' = set_inode ip x' c)
    (fun msg => msg = "balloc: out of blocks" /\ (length (free_list sbx v) < 2 * it)%nat).
Proof.
  rewrite MAXFILE_eq. unfold BSIZE.
  induction fuel as [|fuel IH]; intros it c v x src off tot Hc Hx Hi Hf Hheld Htot Hoff Hle Hn Hit Hfuel Hfit Hw; [lia|].
  cbn [writei_loop]. destruct (Z.ltb_spec tot n) as [Hlt|Hge]; cbn [negb].
  2: { apply wp_ret. split; [lia|]. exists x. rewrite set_inode_id by done. split; [|done].
       pose proof (written_nil w off (off + (n - tot)) v x ltac:(lia) Hi Hf) as W.
       destruct W as [A1 A2 A3 A4 A5 A6 A7 A8 A9 A10 A11 (l & El & Hl)]. split; try done; [lia|exists l; split; [done|lia]]. }
  specialize (Hit Hlt). destruct it as [|it]; [dlia|].
  assert (Hbn : 0 <= off / BSIZE < MAXFILE) by (rewrite MAXFILE_eq; unfold BSIZE; dlia).
  apply wp_bind. eapply wp_mono; [eapply (bmap_spec ip x (off / BSIZE) v c); try done| |].
  { eapply (fits_le g sbx v v (2 * it)); [lia|done|]. by replace (2 * it + 3)%nat with (2 * S it + 1)%nat by lia. }
  2: { intros msg (-> & _ & Hfr). split; [done|lia]. }
  intros a v1 c1 (x1 & G & -> & -> & Ha & Hsame & Hin). pose proof (gr_ok _ _ _ _ _ _ G) as Hi1.
  destruct (alloced_data _ _ (io_addr _ _ Hi1 _ Hbn Ha)) as (_ & _ & _ & Hag & Hal).
  pose proof (fits_grown _ _ (2 * it + 1) _ _ _ _ G ltac:(by replace (2 + (2 * it + 1))%nat with (2 * S it + 1)%nat by lia)) as Hfit1.
  pose proof (logged_footprint g sbx Hsb v1) as Hlf. assert (Hh1 : dv_held v1 = ∅) by (by rewrite (gr_held _ _ _ _ _ _ G)).
  apply wp_bread; [intros i; by rewrite Hh1, lookup_empty|lia|destruct Hfit1; lia|]. intros i Hi0.
  eapply wp_blogged; [apply lookup_insert_eq|simpl; destruct Hfit1; lia|done|].
  eapply wp_brelse; [apply lookup_insert_eq|]. cbn [dv_hold dv_data]. rewrite dv_write_release by done.
  set (k := (n - tot) `min` (BSIZE - off mod BSIZE)). assert (Hk : 0 < k <= n - tot /\ off mod 512 + k <= 512) by (unfold k, BSIZE; dlia).
  rewrite (u32_small (off + k)), (u32_small (tot + k)) by lia.
  assert (W : written w off (off + k) 2 v x
    (dv_write (baddr v1 x1 (off / BSIZE)) (move_in (dv_data v1 (baddr v1 x1 (off / BSIZE))) (off mod BSIZE) m src k) v1) x1).
  { apply written_block; try done; try (rewrite ?MAXFILE_eq; unfold BSIZE; lia).
    - intros Hz. by apply Hsame.
    - intros q Hq. apply Hw. lia. }
  set (v2 := dv_write _ _ v1) in *.
  eapply wp_mono; [eapply (IH it (set_inode ip x1 c) v2 x1); try done; try lia| |].
  - by eapply set_inode_lookup.
  - apply (wr_ok _ _ _ _ _ _ _ _ W).
  - apply (wr_fs _ _ _ _ _ _ _ _ W).
  - intros Hlt'. assert (k = 512 - off mod 512) by (unfold k, BSIZE in *; lia). assert ((off + k) mod 512 = 0) by dlia. lia.
  - apply (fits_written _ _ _ 2 _ _ _ _ _ W). by replace (2 + (2 * it + 1))%nat with (2 * S it + 1)%nat by lia.
  - intros q Hq. rewrite <- Hw by lia. f_equal. lia.
  - intros r v3 c3 (-> & x3 & W3 & ->). split; [lia|]. exists x3. rewrite set_inode_twice. split; [|done].
    replace (2 * S it)%nat with (2 + 2 * it)%nat by lia. replace (off + (n - tot)) with (off + k + (n - (tot + k))) by lia.
    eapply (written_trans w off (off + k)); [lia|rewrite MAXFILE_eq; unfold BSIZE; lia|exact W|exact W3].
  - intros msg (-> & Hfr). split; [done|]. destruct (wr_free _ _ _ _ _ _ _ _ W) as (l & El & Hl). rewrite El, length_app. lia.
Qed.

(** ** The inode's block *)

Lemma IBLOCK_bounds inum :
  0 <= inum < sb_ninodes sbx -> sb_inodestart sbx <= IBLOCK inum sbx < sb_bmapstart sbx.
Proof.
  intros Hi. pose proof (sb_bounds g sbx Hsb). destruct Hsb as [_ [? ?] _ _]. unfold IBLOCK. change IPB with 8. rewrite u32_small by dlia. dlia.
Qed.

Lemma iblock_write v n (y : block) (j : nat) :
  n < sb_bmapstart sbx -> fs_ok sbx v ->
  fs_ok sbx (dv_write n y v) /\ (forall m, in_range sbx m -> used sbx (dv_write n y v) m = used sbx v m) /\
  free_list sbx (dv_write n y v) = free_list sbx v /\
  (forall x, inode_ok v x -> inode_ok (dv_write n y v) x /\ (forall k, 0 <= k < MAXFILE -> baddr (dv_write n y v) x k = baddr v x k) /\
     (forall k, 0 <= k < MAXFILE * BSIZE -> baddr v x (k / BSIZE) <> 0 -> content (dv_write n y v) x k = content v x k)) /\
  (fits g sbx v (S j) -> fits g sbx (dv_write n y v) j).
Proof.
  intros Hn Hf. pose proof (sb_bounds g sbx Hsb) as Hb.
  assert (Hu : forall m, in_range sbx m -> used sbx (dv_write n y v) m = used sbx v m).
  { intros m Hm. apply (used_write_other g sbx Hsb); [unfold bitmap_block; lia|done]. }
  assert (Hd : forall m, alloced v m -> dv_data (dv_write n y v) m = dv_data v m).
  { intros m [Hm _]. apply upd_block_ne. lia. }
  split; [|split; [done|split; [|split]]].
  - split; [intros m Hm; rewrite Hu by (unfold in_range; lia); by apply (fo_meta _ _ Hf)|].
    intros i m Hi. destruct (fo_held _ _ Hf _ _ Hi) as (? & ? & ?). rewrite Hu by done. done.
  - apply filter_ext_in. intros m [? ?]%elem_of_seqZ. rewrite Hu by (unfold in_range; lia). done.
  - intros x Hi.
    assert (Hk : forall k, baddr (dv_write n y v) x k = baddr v x k).
    { intros k. destruct (decide (k < NDIRECT)); [by rewrite !baddr_direct|].
      destruct (decide (nth_addr x NDIRECT = 0)); [by rewrite !baddr_none by lia|].
      rewrite !baddr_ind, Hd by (try done; try lia; by apply (io_ind _ _ Hi)). done. }
    split; [|split; [done|]].
    + destruct Hi as [L1 L2 L3 L4 L5]. assert (Hal : forall m, alloced v m -> alloced (dv_write n y v) m).
      { intros m. apply alloced_mono. intros ? ?. by rewrite Hu. }
      split; [done|..].
      * intros Hz. by apply Hal, L2.
      * intros q Hq. rewrite Hk. intros Hz. by apply Hal, L3.
      * intros q q' Hq Hq'. rewrite !Hk. by apply L4.
      * intros q Hq. rewrite Hk. by apply L5.
    + intros k Hkr Hz. unfold content. rewrite Hk, Hd; [done|]. by apply (io_addr _ _ Hi); [apply block_index|].
  - intros Hfit. eapply (fits_le g sbx v _ 1); [|done|exact Hfit].
    pose proof (size_add_le n (footprint sbx v)).
    assert (footprint sbx (dv_write n y v) ⊆ {[n]} ∪ footprint sbx v) as Hs%subseteq_size by (unfold footprint; simpl; set_solver). lia.
Qed.

Lemma iupdate_spec ip x v c (Q : unit -> dview -> fcore -> Prop) E :
  sb c = sbx -> icache c !! ip = Some x -> dv_held v = ∅ -> fits g sbx v 1 -> 0 <= i_inum x < sb_ninodes sbx ->
  Q tt (dv_write (IBLOCK (i_inum x) sbx) (store_dinode x (dv_data v (IBLOCK (i_inum x) sbx))) v) c ->
  wp g (iupdate ip) v c Q E.
Proof.
  intros Hc Hx Hh [Hf1 Hf2] Hin HQ. pose proof (IBLOCK_bounds _ Hin) as Hb. pose proof (sb_bounds g sbx Hsb).
  pose proof (logged_footprint g sbx Hsb v).
  unfold iupdate. apply wp_core, (wp_the_inode g _ x); [done|]. rewrite Hc.
  apply wp_bread; [intros i; by rewrite Hh, lookup_empty|lia|lia|]. intros i Hi0.
  eapply wp_blogged; [apply lookup_insert_eq|simpl; lia|apply (not_in_log g sbx Hsb); lia|].
  eapply wp_brelse_last; [apply lookup_insert_eq|]. by rewrite dv_write_release.
Qed.

(** ** writei *)

Definition grows x off n : bool := (0 <? n) && (i_size x <? off + n).
(** The inode and the disk once the size has been brought up to date. *)
Definition sized (b : bool) (hi : Z) x : inode := if b then set_i_size hi x else x.
Definition size_written (b : bool) x v : dview :=
  if b then dv_write (IBLOCK (i_inum x) sbx) (store_dinode x (dv_data v (IBLOCK (i_inum x) sbx))) v else v.

Section WriteCall.
Context (devsw_write : Z -> option (nat -> memory -> Z -> Z -> M (fstate T fcore) (Z * memory))).

Lemma writei_spec (w : Z -> Z) ip x v c (m : memory) (src off n : Z) (it : nat) :
  sb c = sbx -> icache c !! ip = Some x -> inode_ok v x -> fs_ok sbx v -> dv_held v = ∅ ->
  i_type x <> T_DEV -> 0 <= i_inum x < sb_ninodes sbx ->
  0 <= off <= i_size x -> 0 <= n -> off + n <= MAXFILE * BSIZE -> i_size x <= MAXFILE * BSIZE ->
  off mod BSIZE + n <= BSIZE * Z.of_nat it -> (it <= Z.to_nat (n / BSIZE + 2))%nat -> fits g sbx v (2 * it + 1) ->
  (forall q, off <= q < off + n -> load8 m (src + (q - off)) = w q) ->
  wp g (writei devsw_write ip m src off n) v c
    (fun r v' c' => r = (n, m) /\ exists v1 x1,
       written w off (off + n) (2 * it) v x v1 x1 /\
       c' = set_inode ip (sized (grows x off n) (off + n) x1) c /\
       v' = size_written (grows x off n) (sized (grows x off n) (off + n) x1) v1)
    (fun msg => msg = "balloc: out of blocks" /\ (length (free_list sbx v) < 2 * it)%nat).
Proof.
  intros Hc Hx Hi Hf Hh Ht Hin Hoff Hn Hmax Hsz Hit Hitn Hfit Hw. unfold writei. apply (wp_the_inode g _ x); [done|].
  rewrite (proj2 (Z.eqb_neq (i_type x) _)) by done.
  assert (Hmax' := Hmax). rewrite MAXFILE_eq in Hmax', Hsz. unfold BSIZE in Hmax', Hsz.
  rewrite (u32_small (off + n)) by lia. rewrite !(proj2 (Z.ltb_ge _ _)) by (rewrite ?MAXFILE_eq; unfold BSIZE; lia). cbn [orb].
  apply wp_bind. eapply wp_mono; [eapply (writei_loop_spec w ip m n (rounds n) it c v x src off 0); try done; try lia|..].
  - unfold rounds, BSIZE in *. dlia.
  - rewrite Z.sub_0_r. exact Hw.
  - intros r v1 c1 (-> & x1 & W & ->). rewrite Z.sub_0_r in *. destruct (written_same_len _ _ _ _ _ _ _ _ W) as [Es Ei].
    apply (wp_the_inode g _ x1); [by eapply set_inode_lookup|]. rewrite Es. fold (grows x off n).
    destruct (grows x off n) eqn:Eg; cbn [when sized size_written].
    + apply wp_bind. apply (wp_upd_inode g _ x1); [by eapply set_inode_lookup|]. rewrite set_inode_twice.
      eapply (iupdate_spec ip (set_i_size (off + n) x1)); try done.
      * by eapply set_inode_lookup.
      * by rewrite (wr_held _ _ _ _ _ _ _ _ W).
      * apply (fits_written _ _ _ (2 * it) _ _ _ _ _ W). exact Hfit.
      * cbn [set_i_size i_inum]. by rewrite Ei.
      * apply wp_ret. split; [by rewrite s32_small by lia|]. exists v1, x1. done.
    + apply wp_bind, wp_ret. apply wp_ret. split; [by rewrite s32_small by lia|]. exists v1, x1. done.
  - done.
Qed.
End WriteCall.

Lemma sized_ok b hi v x : inode_ok v x -> inode_ok v (sized b hi x).
Proof. intros [L1 L2 L3 L4 L5]. destruct b; by split. Qed.

(** What a call of writei leaves: [v1] and [x1] are the file after the copying. *)
Record wrote_file (w : Z -> Z) off n (v : dview) (x : inode) (v' : dview) (x' : inode) : Prop := {
  wf_ok : inode_ok v' x';
  wf_fs : fs_ok sbx v';
  wf_held : dv_held v' = dv_held v;
  wf_size : i_size x' = i_size x `max` (off + n);
  wf_same : set_i_size (i_size x) (set_i_addrs (i_addrs x) x') = x;
  wf_holes : no_holes v' x';
  wf_content : forall k, 0 <= k < i_size x' -> content v' x' k = if decide (off <= k < off + n) then w k else content v x k;
  wf_fresh : forall a, owns v' x' a -> owns v x a \/ used sbx v a = false;
  wf_others : forall y, inode_ok v y -> (forall a, owns v x a -> ~ owns v y a) ->
    inode_ok v' y /\ (forall a, owns v' x' a -> ~ owns v' y a) /\
    forall k, 0 <= k < MAXFILE * BSIZE -> baddr v y (k / BSIZE) <> 0 -> content v' y k = content v y k;
  wf_baddr : forall y k, inode_ok v y -> (forall a, owns v x a -> ~ owns v y a) -> 0 <= k < MAXFILE -> baddr v' y k = baddr v y k
}.

Lemma written_others w lo hi (j : nat) v x v' x' y :
  written w lo hi j v x v' x' -> inode_ok v y -> (forall a, owns v x a -> ~ owns v y a) ->
  inode_ok v' y /\ (forall k, baddr v' y k = baddr v y k) /\ (forall a, owns v' x' a -> ~ owns v y a) /\
  forall k, 0 <= k < MAXFILE * BSIZE -> baddr v y (k / BSIZE) <> 0 -> content v' y k = content v y k.
Proof.
  intros W Hy Hsep.
  assert (Hd : forall a, owns v y a -> dv_data v' a = dv_data v a).
  { intros a Ha. destruct (alloced_data _ _ (owns_alloced _ _ _ Hy Ha)) as (? & ? & ? & _).
    apply (wr_frame _ _ _ _ _ _ _ _ W); try done. intros Hx. by apply (Hsep a). }
  assert (Hk : forall k, baddr v' y k = baddr v y k).
  { intros k. destruct (decide (k < NDIRECT)); [by rewrite !baddr_direct|].
    destruct (decide (nth_addr y NDIRECT = 0)); [by rewrite !baddr_none by lia|].
    rewrite !baddr_ind by (lia || done). rewrite Hd; [done|]. split; [done|by left]. }
  split; [|split; [done|split]].
  - destruct Hy as [L1 L2 L3 L4 L5].
    assert (Hal : forall m, alloced v m -> alloced v' m) by (intros m; apply alloced_mono, (wr_used _ _ _ _ _ _ _ _ W)).
    split; [done|..].
    + intros Hz. by apply Hal, L2.
    + intros q Hq. rewrite Hk. intros Hz. by apply Hal, L3.
    + intros q q' Hq Hq'. rewrite !Hk. by apply L4.
    + intros q Hq. rewrite Hk. by apply L5.
  - intros a Ha Hya. destruct (wr_fresh _ _ _ _ _ _ _ _ W a Ha) as [Hx|Hu]; [by apply (Hsep a)|].
    destruct (owns_alloced _ _ _ Hy Hya) as [_ Hu']. congruence.
  - intros k Hkr Hz. unfold content. rewrite Hk, Hd; [done|]. apply owns_baddr; [by apply block_index|done].
Qed.

Lemma content_sized b hi v x k : content v (sized b hi x) k = content v x k.
Proof. by destruct b. Qed.

Lemma writei_wrote w off n (j : nat) v x v1 x1 :
  0 <= off <= i_size x -> 0 <= n -> off + n <= MAXFILE * BSIZE -> no_holes v x -> 0 <= i_inum x < sb_ninodes sbx ->
  written w off (off + n) j v x v1 x1 ->
  let b := grows x off n in
  wrote_file w off n v x (size_written b (sized b (off + n) x1) v1) (sized b (off + n) x1).
Proof.
  intros Hoff Hn Hmax [Hsz Hholes] Hin W b. destruct (written_same_len _ _ _ _ _ _ _ _ W) as [Es Ei].
  pose proof (wr_ok _ _ _ _ _ _ _ _ W) as Hi1. pose proof (wr_fs _ _ _ _ _ _ _ _ W) as Hf1.
  assert (Hbs : i_size (sized b (off + n) x1) = i_size x `max` (off + n)).
  { unfold b, grows. destruct (Z.ltb_spec 0 n), (Z.ltb_spec (i_size x) (off + n)); simpl; rewrite ?Es; lia. }
  assert (Hnz : forall k, 0 <= k < i_size x `max` (off + n) -> baddr v1 x1 (k / BSIZE) <> 0).
  { intros k Hk. destruct (decide (off <= k < off + n)) as [Hr|Hr]; [by apply (wr_in _ _ _ _ _ _ _ _ W)|].
    rewrite (wr_kept _ _ _ _ _ _ _ _ W); [apply Hholes; lia|apply block_index; lia|apply Hholes; lia]. }
  assert (Hct : forall k, 0 <= k < i_size x `max` (off + n) ->
    content v1 x1 k = if decide (off <= k < off + n) then w k else content v x k).
  { intros k Hk. destruct (decide (off <= k < off + n)) as [Hr|Hr]; [by apply (wr_in _ _ _ _ _ _ _ _ W)|].
    rewrite (wr_out _ _ _ _ _ _ _ _ W), decide_False; [done|apply Hholes; lia|lia|done|by apply Hnz]. }
  set (x2 := sized b (off + n) x1) in *.
  assert (Hx2 : inode_ok v1 x2) by (by apply sized_ok).
  assert (Hib : IBLOCK (i_inum x2) sbx < sb_bmapstart sbx).
  { apply IBLOCK_bounds. replace (i_inum x2) with (i_inum x); [done|]. rewrite <- Ei. unfold x2. by destruct b. }
  destruct (iblock_write v1 (IBLOCK (i_inum x2) sbx) (store_dinode x2 (dv_data v1 (IBLOCK (i_inum x2) sbx))) 0 Hib Hf1)
    as (B1 & B2 & B3 & B4 & _).
  assert (Hkeep : forall y, inode_ok v1 y -> inode_ok (size_written b x2 v1) y /\
    (forall k, 0 <= k < MAXFILE -> baddr (size_written b x2 v1) y k = baddr v1 y k) /\
    (forall k, 0 <= k < MAXFILE * BSIZE -> baddr v1 y (k / BSIZE) <> 0 -> content (size_written b x2 v1) y k = content v1 y k)).
  { intros y Hy. unfold size_written. destruct b; [by apply B4|done]. }
  destruct (Hkeep x2 Hx2) as (K1 & K2 & K3).
  assert (Hown : forall y, inode_ok v1 y -> forall a, owns (size_written b x2 v1) y a <-> owns v1 y a).
  { intros y Hy a. destruct (Hkeep y Hy) as (_ & Hb & _). unfold owns. split; intros [Ha [?|(k & Hk & ->)]]; (split; [done|]); try (by left);
    right; exists k; rewrite ?Hb in * by done; done. }
  assert (Hbx : forall k, baddr v1 x2 k = baddr v1 x1 k) by (intros k; unfold x2; by destruct b).
  split.
  - done.
  - unfold size_written. by destruct b.
  - unfold size_written. destruct b; apply (wr_held _ _ _ _ _ _ _ _ W).
  - done.
  - unfold x2. rewrite (wr_same _ _ _ _ _ _ _ _ W). destruct b, x; done.
  - split; [rewrite Hbs; lia|]. rewrite Hbs. intros k Hk. rewrite K2, Hbx by (apply block_index; lia). by apply Hnz.
  - rewrite Hbs. intros k Hk. rewrite K3, <- Hct by (try lia; rewrite ?Hbx; by apply Hnz). unfold x2. apply content_sized.
  - intros a Ha%Hown; [|done]. apply (wr_fresh _ _ _ _ _ _ _ _ W). unfold owns, x2 in *. by destruct b.
  - intros y Hy Hsep. destruct (written_others _ _ _ _ _ _ _ _ _ W Hy Hsep) as (Y1 & Y2 & Y3 & Y4).
    destruct (Hkeep y Y1) as (Z1 & Z2 & Z3). split; [done|]. split.
    + intros a Ha%Hown Hya%Hown; try done. apply (Y3 a); [unfold owns, x2 in *; by destruct b|].
      unfold owns in *. by setoid_rewrite <- Y2.
    + intros k Hk Hz. rewrite Z3, Y4 by (rewrite ?Y2; done). done.
  - intros y k Hy Hsep Hk. destruct (written_others _ _ _ _ _ _ _ _ _ W Hy Hsep) as (Y1 & Y2 & _).
    destruct (Hkeep y Y1) as (_ & Z2 & _). by rewrite Z2, Y2.
Qed.

(** What a call on a file needs: its inode is locked in the cache at [ip], in order, without
    holes, and not a device's. *)
Record file_at ip x v c : Prop := {
  fa_sb : sb c = sbx;
  fa_cached : icache c !! ip = Some x;
  fa_ok : inode_ok v x;
  fa_fs : fs_ok sbx v;
  fa_held : dv_held v = ∅;
  fa_type : i_type x <> T_DEV;
  fa_inum : 0 <= i_inum x < sb_ninodes sbx;
  fa_holes : no_holes v x
}.

(** The chunks filewrite splits a write into (file.c). *)
Definition filewrite_max : Z := (MAXOPBLOCKS - 1 - 1 - 2) / 2 * 512.

(** The blocks a chunk of [n] bytes lies in, at most. *)
Definition chunk_rounds (n : Z) : nat := (Z.to_nat (n / BSIZE + 2) `min` 4)%nat.
Lemma chunk_rounds_enough off n : 0 <= n <= filewrite_max -> off mod BSIZE + n <= BSIZE * Z.of_nat (chunk_rounds n).
Proof.
  intros Hn. change (0 <= n <= 1536) in Hn. unfold chunk_rounds. rewrite Nat2Z.inj_min, Z2Nat.id by (unfold BSIZE; dlia). unfold BSIZE.
  destruct (Z.min_spec (n / 512 + 2) (Z.of_nat 4)) as [[? ->]|[? ->]]; dlia.
Qed.
Lemma footprint_one_bitmap v : sb_size sbx < BPB -> (size (footprint sbx v) <= S (size (dv_logged v)))%nat.
Proof.
  intros Hbm. unfold footprint, bitmap_set, data_start. rewrite Z.div_small by (pose proof (sb_bounds g sbx Hsb); lia).
  replace (sb_bmapstart sbx + 0 + 1 - sb_bmapstart sbx) with 1 by lia.
  replace (list_to_set (seqZ (sb_bmapstart sbx) 1) : gset Z) with ({[sb_bmapstart sbx]} : gset Z); [apply size_add_le|].
  rewrite seqZ_cons, seqZ_nil by lia. set_solver.
Qed.

Section FileCalls.
Context (devsw_write : Z -> option (nat -> memory -> Z -> Z -> M (fstate T fcore) (Z * memory))).

Lemma writei_file ip x v c (m : memory) (src off n : Z) (it : nat) :
  file_at ip x v c -> 0 <= off <= i_size x -> 0 <= n -> off + n <= MAXFILE * BSIZE ->
  off mod BSIZE + n <= BSIZE * Z.of_nat it -> (it <= Z.to_nat (n / BSIZE + 2))%nat -> fits g sbx v (2 * it + 1) ->
  wp g (writei devsw_write ip m src off n) v c
    (fun r v' c' => r = (n, m) /\ exists x', file_at ip x' v' c' /\ c' = set_inode ip x' c /\
       wrote_file (fun k => load8 m (src + (k - off))) off n v x v' x' /\
       (size (footprint sbx v') <= size (footprint sbx v) + (2 * it + 1))%nat /\
       (length (free_list sbx v) <= length (free_list sbx v') + 2 * it)%nat)
    (fun msg => msg = "balloc: out of blocks" /\ (length (free_list sbx v) < 2 * it)%nat).
Proof.
  intros [Hc Hx Hi Hf Hh Ht Hin Hno] Hoff Hn Hmax Hit Hitn Hfit.
  eapply wp_mono; [eapply (writei_spec devsw_write (fun k => load8 m (src + (k - off))) ip x v c m src off n it); try done; apply Hno| |done].
  intros r v' c' (-> & v1 & x1 & W & -> & ->). split; [done|].
  destruct (written_same_len _ _ _ _ _ _ _ _ W) as [Es Ei].
  pose proof (writei_wrote _ _ _ _ _ _ _ _ Hoff Hn Hmax Hno Hin W) as WF. cbv zeta in WF.
  set (b := grows x off n) in *. set (x2 := sized b (off + n) x1) in *.
  exists x2. split; [|split; [done|split; [done|]]].
  - destruct WF. split; try done.
    + by eapply set_inode_lookup.
    + congruence.
    + rewrite <- wf_same0 in Ht. done.
    + rewrite <- wf_same0 in Hin. done.
  - destruct (wr_free _ _ _ _ _ _ _ _ W) as (l & El & Hl).
    assert (Ef : free_list sbx (size_written b x2 v1) = free_list sbx v1).
    { assert (Hib : IBLOCK (i_inum x2) sbx < sb_bmapstart sbx).
      { apply IBLOCK_bounds. replace (i_inum x2) with (i_inum x); [done|]. rewrite <- Ei. unfold x2. by destruct b. }
      destruct (iblock_write v1 _ (store_dinode x2 (dv_data v1 (IBLOCK (i_inum x2) sbx))) 0 Hib (wr_fs _ _ _ _ _ _ _ _ W)) as (_ & _ & B & _).
      unfold size_written. by destruct b. }
    split; [|rewrite Ef, El, length_app; lia].
    pose proof (wr_foot _ _ _ _ _ _ _ _ W) as Hfp. unfold size_written. destruct b; [|lia].
    pose proof (size_add_le (IBLOCK (i_inum x2) sbx) (footprint sbx v1)).
    assert (footprint sbx (dv_write (IBLOCK (i_inum x2) sbx) (store_dinode x2 (dv_data v1 (IBLOCK (i_inum x2) sbx))) v1)
      ⊆ {[IBLOCK (i_inum x2) sbx]} ∪ footprint sbx v1) as Hs%subseteq_size by (unfold footprint; simpl; set_solver). lia.
Qed.

(** a write leaves every other file alone. A file in order that shares no block with the
    written one keeps every byte, stays in order, and still shares no block with it, whatever
    blocks the write took. *)
Theorem writei_keeps_others ip x y v c (m : memory) (src off n : Z) (it : nat)
    (Hfile : file_at ip x v c) (Hoff : 0 <= off <= i_size x) (Hn : 0 <= n) (Hmax : off + n <= MAXFILE * BSIZE)
    (Hit : off mod BSIZE + n <= BSIZE * Z.of_nat it) (Hitn : (it <= Z.to_nat (n / BSIZE + 2))%nat)
    (Hfit : fits g sbx v (2 * it + 1))
    (Hy : inode_ok v y) (Hsep : forall a, owns v x a -> ~ owns v y a) :
  wp g (writei devsw_write ip m src off n) v c
    (fun r v' c' => exists x', icache c' !! ip = Some x' /\ inode_ok v' x' /\ inode_ok v' y /\
       (forall a, owns v' x' a -> ~ owns v' y a) /\
       (forall k, 0 <= k < MAXFILE * BSIZE -> baddr v y (k / BSIZE) <> 0 -> content v' y k = content v y k))
    (fun msg => msg = "balloc: out of blocks" /\ (length (free_list sbx v) < 2 * it)%nat).
Proof.
  eapply wp_mono; [by apply (writei_file ip x v c m src off n it)| |done].
  intros r v' c' (-> & x' & Hf' & _ & W & _). exists x'. destruct (wf_others _ _ _ _ _ _ _ W y Hy Hsep) as (? & ? & ?).
  split; [apply (fa_cached _ _ _ _ Hf')|]. split; [apply (fa_ok _ _ _ _ Hf')|done].
Qed.

(** C19: a chunk of filewrite keeps to its reservation in the log: on a disk whose bitmap is one
    block, a write of at most [filewrite_max] bytes, wherever it starts, logs at most
    MAXOPBLOCKS blocks, data, indirect, bitmap and inode blocks together. *)
Theorem filewrite_chunk_bound ip x v c (m : memory) (src off n : Z)
    (Hfile : file_at ip x v c) (Hoff : 0 <= off <= i_size x) (Hn : 0 <= n <= filewrite_max) (Hmax : off + n <= MAXFILE * BSIZE)
    (Hbm : sb_size sbx < BPB) (Hfit : fits g sbx v 9) :
  wp g (writei devsw_write ip m src off n) v c
    (fun r v' c' => r = (n, m) /\ (size (dv_logged v') <= size (dv_logged v) + Z.to_nat MAXOPBLOCKS)%nat)
    (fun msg => msg = "balloc: out of blocks").
Proof.
  pose proof (chunk_rounds_enough off n Hn) as Hit.
  assert (Hfits : fits g sbx v (2 * chunk_rounds n + 1)) by (unfold fits, chunk_rounds in *; lia).
  eapply wp_mono; [apply (writei_file ip x v c m src off n (chunk_rounds n)); try done; unfold chunk_rounds; lia| |by intros msg [-> _]].
  intros r v' c' (-> & x' & _ & _ & _ & Hfp & _). split; [done|].
  pose proof (logged_footprint g sbx Hsb v'). pose proof (footprint_one_bitmap v Hbm). unfold chunk_rounds, MAXOPBLOCKS in *. lia.
Qed.

Context (devsw_read : Z -> option (nat -> memory -> Z -> Z -> M (fstate T fcore) (Z * memory))).

(** C14: files hold what is written to them. A write of [n] bytes at an offset within the file
    and a later read of any part of it return: the read finds the new bytes where they were
    written and the file's old bytes elsewhere, up to the file's new size, and stores nothing
    outside the buffer. Blocks are allocated on the way, through the indirect block where the
    offset needs it. The only failure is a disk without enough free blocks. *)
Theorem write_then_read ip x v c (m m0 : memory) (src off n dst off2 n2 : Z) (it : nat)
    (Hfile : file_at ip x v c) (Hoff : 0 <= off <= i_size x) (Hn : 0 <= n) (Hmax : off + n <= MAXFILE * BSIZE)
    (Hit : off mod BSIZE + n <= BSIZE * Z.of_nat it) (Hitn : (it <= Z.to_nat (n / BSIZE + 2))%nat)
    (Hfit : fits g sbx v (2 * it + 1))
    (Hoff2 : 0 <= off2 <= i_size x `max` (off + n)) (Hn2 : 0 <= n2) (Hlt : off2 + n2 < 2 ^ 32) :
  wp g (writei devsw_write ip m src off n;; readi devsw_read ip m0 dst off2 n2) v c
    (fun r _ _ => r.1 = n2 `min` (i_size x `max` (off + n) - off2) /\
       (forall k, off2 <= k < off2 + r.1 ->
          load8 r.2 (dst + (k - off2)) = if decide (off <= k < off + n) then load8 m (src + (k - off)) else content v x k) /\
       (forall q, ~ (dst <= q < dst + r.1) -> r.2 q = m0 q))
    (fun msg => msg = "balloc: out of blocks" /\ (length (free_list sbx v) < 2 * it)%nat).
Proof.
  apply wp_bind. eapply wp_mono; [by apply (writei_file ip x v c m src off n it)| |done].
  intros r v' c' (-> & x' & Hf' & -> & W & Hfp & _). destruct Hf' as [Hc' Hx' Hi' Hfs' Hh' Ht' Hin' Hno'].
  pose proof (wf_size _ _ _ _ _ _ _ W) as Es.
  pose proof (logged_footprint g sbx Hsb v').
  eapply wp_mono; [eapply (readi_spec devsw_read ip x' v' _ m0 dst off2 n2); try done; try lia|..].
  - destruct Hfit. lia.
  - intros [r m'] v2 c2 (-> & -> & Hr & Hget & Hout). cbn [fst snd] in *.
    assert (Hrd : readable (i_size x') off2 n2 = n2 `min` (i_size x' - off2)).
    { unfold readable. destruct (Z.ltb_spec (i_size x') (off2 + n2)); lia. }
    rewrite Hr, Hrd, Es in *. split; [done|]. split.
    + intros k Hk. rewrite Hget by lia. apply (wf_content _ _ _ _ _ _ _ W). rewrite Es. lia.
    + intros q Hq. apply Hout. lia.
  - done.
Qed.
End FileCalls.
End FileBlocks.
