(* ===== verification/Dir.v ===== *)
(** * Dir: directories and path names (fs.c: namecmp to nameiparent)

    Names, paths and the local variable [de] lie in the kernel's memory, which the functions
    take and return; the address of [de] in the caller's stack frame is an argument. *)

From S2P Require Import Prelude Memory Spinlock Cache Bio Log Tx Fs Inode.

Definition DIRSIZ : Z := 14.
Definition SLASH : Z := 47.
Definition sizeof_dirent : Z := 16.

Definition namecmp (m : memory) (s t : Z) : Z := strncmp m s t DIRSIZ.

(** The two loops of skipelem over the path; [None] when the fuel does not reach their end. *)
Fixpoint skip_slashes (m : memory) (path : Z) (fuel : nat) : option Z :=
  match fuel with
  | O => None
  | S fuel => if load8 m path =? SLASH then skip_slashes m (path + 1) fuel else Some path
  end.
Fixpoint skip_name (m : memory) (path : Z) (fuel : nat) : option Z :=
  match fuel with
  | O => None
  | S fuel =>
      if negb (load8 m path =? SLASH) && negb (load8 m path =? 0) then skip_name m (path + 1) fuel else Some path
  end.

(** The rest of the path (0 when there is no element), and the memory with the element in
    [name]. *)
Definition skipelem (m : memory) (path name : Z) (fuel : nat) : option (Z * memory) :=
  s ← skip_slashes m path fuel;
  if load8 m s =? 0 then Some (0, m)
  else
    e ← skip_name m s fuel;
    let len := e - s in
    let m := if DIRSIZ <=? len then memmove m name s DIRSIZ
             else store8 (memmove m name s len) (name + len) 0 in
    p ← skip_slashes m e fuel;
    Some (p, m).

Section Directories.
Context {T : Type} `{LoggedDisk T}.
Abbreviation F := (M (fstate T fcore)).
Context (devsw_read devsw_write : Z -> option (nat -> memory -> Z -> Z -> F (Z * memory))).
Abbreviation readi := (readi devsw_read).
Abbreviation writei := (writei devsw_write).

(** The entry with the name, and its offset. *)
Fixpoint dirlookup_loop (dp : nat) (m : memory) (name de off : Z) (fuel : nat) : F (option (nat * Z) * memory) :=
  match fuel with
  | O => fun _ => OutOfFuel
  | S fuel =>
      x ← the_inode dp;
      if negb (off <? i_size x) then ret (None, m)
      else
        '(r, m) ← readi dp m de off sizeof_dirent;
        panic_if (negb (r =? sizeof_dirent)) "dirlookup read";;
        if load16 m de =? 0 then dirlookup_loop dp m name de (u32 (off + sizeof_dirent)) fuel
        else if namecmp m name (de + 2) =? 0 then
          ip ← iget (i_dev x) (load16 m de);
          ret (Some (ip, off), m)
        else dirlookup_loop dp m name de (u32 (off + sizeof_dirent)) fuel
  end.
Definition entries (x : inode) : nat := Z.to_nat (i_size x / sizeof_dirent + 2).
Definition dirlookup (dp : nat) (m : memory) (name de : Z) : F (option (nat * Z) * memory) :=
  x ← the_inode dp;
  panic_if (negb (i_type x =? T_DIR)) "dirlookup not DIR";;
  dirlookup_loop dp m name de 0 (entries x).

(** The offset of the first free entry, or the end of the directory. *)
Fixpoint free_entry (dp : nat) (m : memory) (de off : Z) (fuel : nat) : F (Z * memory) :=
  match fuel with
  | O => fun _ => OutOfFuel
  | S fuel =>
      x ← the_inode dp;
      if negb (u32 off <? i_size x) then ret (off, m)
      else
        '(r, m) ← readi dp m de (u32 off) sizeof_dirent;
        panic_if (negb (r =? sizeof_dirent)) "dirlink read";;
        if load16 m de =? 0 then ret (off, m) else free_entry dp m de (s32 (off + sizeof_dirent)) fuel
  end.
Definition dirlink (dp : nat) (m : memory) (name de inum : Z) : F (Z * memory) :=
  '(o, m) ← dirlookup dp m name de;
  match o with
  | Some (ip, _) => iput ip;; ret (-1, m)
  | None =>
      x ← the_inode dp;
      '(off, m) ← free_entry dp m de 0 (entries x);
      let m := strncpy m (de + 2) name DIRSIZ in
      let m := store16 m de inum in
      '(r, m) ← writei dp m de (u32 off) sizeof_dirent;
      panic_if (negb (r =? sizeof_dirent)) "dirlink";;
      ret (0, m)
  end.

(** ** Paths *)

Definition skipelem_run (m : memory) (path name : Z) (fuel : nat) : F (Z * memory) := fun s =>
  match skipelem m path name fuel with Some r => Ret r s | None => OutOfFuel end.

Fixpoint namex_loop (ip : nat) (m : memory) (path : Z) (parent : bool) (name de : Z) (pfuel fuel : nat) :
    F (option nat * memory) :=
  match fuel with
  | O => fun _ => OutOfFuel
  | S fuel =>
      '(path, m) ← skipelem_run m path name pfuel;
      if path =? 0 then
        if parent then iput ip;; ret (None, m) else ret (Some ip, m)
      else
        ilock ip;;
        x ← the_inode ip;
        if negb (i_type x =? T_DIR) then iunlockput ip;; ret (None, m)
        else if parent && (load8 m path =? 0) then iunlock ip;; ret (Some ip, m)
        else
          '(o, m) ← dirlookup ip m name de;
          match o with
          | None => iunlockput ip;; ret (None, m)
          | Some (next, _) =>
              iunlockput ip;;
              namex_loop next m path parent name de pfuel fuel
          end
  end.
(** [len] bounds the length of the path, terminator included. *)
Definition namex (m : memory) (path : Z) (parent : bool) (name de : Z) (len : nat) : F (option nat * memory) :=
  ip ← (if load8 m path =? SLASH then iget ROOTDEV ROOTINO else c ← fs_get; idup (fs_cwd c));
  namex_loop ip m path parent name de len len.
(** namei's own buffer for the element is at [name]. *)
Definition namei (m : memory) (path name de : Z) (len : nat) : F (option nat * memory) :=
  namex m path false name de len.
Definition nameiparent (m : memory) (path name de : Z) (len : nat) : F (option nat * memory) :=
  namex m path true name de len.
End Directories.

(** ** skipelem walks the elements of a path *)

(** The bytes [l], none of them NUL, lie at [p]; [cstring] adds the terminator. *)
Definition bytes_at (m : memory) (p : Z) (l : list Z) : Prop :=
  forall i c, l !! i = Some c -> load8 m (p + Z.of_nat i) = c /\ c <> 0.
Definition cstring (m : memory) (p : Z) (l : list Z) : Prop :=
  bytes_at m p l /\ load8 m (p + Z.of_nat (length l)) = 0.

Lemma bytes_at_cons m p c l : bytes_at m p (c :: l) <-> load8 m p = c /\ c <> 0 /\ bytes_at m (p + 1) l.
Proof.
  split.
  - intros Hb. destruct (Hb O c eq_refl) as [E Hc]. rewrite Z.add_0_r in E. split; [done|]. split; [done|].
    intros i d Hi. destruct (Hb (S i) d Hi) as [E' Hd]. split; [|done]. rewrite <- E'. f_equal. lia.
  - intros (E & Hc & Hb) [|i] d Hi; simpl in Hi.
    + injection Hi as <-. by rewrite Z.add_0_r.
    + destruct (Hb i d Hi) as [E' Hd]. split; [|done]. rewrite <- E'. f_equal. lia.
Qed.
Lemma cstring_cons m p c l : cstring m p (c :: l) <-> load8 m p = c /\ c <> 0 /\ cstring m (p + 1) l.
Proof.
  unfold cstring. rewrite bytes_at_cons. cbn [length]. replace (p + Z.of_nat (S (length l))) with (p + 1 + Z.of_nat (length l)) by lia.
  tauto.
Qed.
Lemma cstring_nil m p : cstring m p [] <-> load8 m p = 0.
Proof.
  unfold cstring. simpl. rewrite Z.add_0_r. split; [by intros [_ ?]|]. intros E. split; [|done]. intros i c Hi. by rewrite lookup_nil in Hi.
Qed.
Lemma cstring_ext m m' p l :
  (forall q, p <= q <= p + Z.of_nat (length l) -> load8 m' q = load8 m q) -> cstring m p l -> cstring m' p l.
Proof.
  intros E [Hb Hz]. split; [|by rewrite E by lia]. intros i c Hi. pose proof (lookup_lt_Some _ _ _ Hi).
  rewrite E by lia. by apply Hb.
Qed.

Lemma field_string_take m p l k : bytes_at m p l -> (k <= length l)%nat -> field_string m p k = take k l.
Proof.
  revert p l. induction k as [|k IH]; intros p [|c l] Hb Hk; simpl in *; try done; [lia|].
  apply bytes_at_cons in Hb as (E & Hc & Hb). rewrite E, (proj2 (Z.eqb_neq _ _)) by done. f_equal. apply IH; [done|lia].
Qed.
Lemma field_string_cstring m p l k : cstring m p l -> (length l < k)%nat -> field_string m p k = l.
Proof.
  revert p l. induction k as [|k IH]; intros p [|c l] Hc Hk; [simpl in Hk; lia|simpl in Hk; lia| |].
  - simpl. apply cstring_nil in Hc. by rewrite Hc.
  - simpl in *. apply cstring_cons in Hc as (E & Hz & Hc). rewrite E, (proj2 (Z.eqb_neq _ _)) by done. f_equal. apply IH; [done|lia].
Qed.

(** A path as a list of bytes: what follows the leading slashes, its first element, and what
    follows that. *)
Fixpoint drop_slashes (l : list Z) : list Z :=
  match l with [] => [] | c :: l' => if c =? SLASH then drop_slashes l' else l end.
Fixpoint first_elem (l : list Z) : list Z :=
  match l with [] => [] | c :: l => if c =? SLASH then [] else c :: first_elem l end.
Fixpoint after_elem (l : list Z) : list Z :=
  match l with [] => [] | c :: l' => if c =? SLASH then l else after_elem l' end.

Lemma skip_slashes_spec m fuel : forall l p,
  cstring m p l -> (length l < fuel)%nat ->
  exists q, skip_slashes m p fuel = Some q /\ cstring m q (drop_slashes l) /\ p <= q /\
            q + Z.of_nat (length (drop_slashes l)) = p + Z.of_nat (length l).
Proof.
  induction fuel as [|fuel IH]; intros [|c l] p Hc Hf; simpl in *; try lia.
  - pose proof Hc as Hz%cstring_nil. rewrite Hz. exists p. split_and!; try done; lia.
  - pose proof Hc as (E & Hz & Hc')%cstring_cons. rewrite E. destruct (c =? SLASH).
    + destruct (IH l (p + 1) Hc' ltac:(lia)) as (q & Eq & Cq & Lq & Nq). exists q. split_and!; try done; lia.
    + exists p. split_and!; done || (simpl; lia).
Qed.

Lemma skip_name_spec m fuel : forall l p,
  cstring m p l -> (length l < fuel)%nat ->
  exists q, skip_name m p fuel = Some q /\ cstring m q (after_elem l) /\ q = p + Z.of_nat (length (first_elem l)) /\
            q + Z.of_nat (length (after_elem l)) = p + Z.of_nat (length l) /\ bytes_at m p (first_elem l).
Proof.
  induction fuel as [|fuel IH]; intros [|c l] p Hc Hf; simpl in *; try lia.
  - pose proof Hc as Hz%cstring_nil. rewrite Hz. exists p. split_and!; try done; try lia.
  - pose proof Hc as (E & Hz & Hc')%cstring_cons. rewrite E, (proj2 (Z.eqb_neq c 0)) by done.
    destruct (c =? SLASH) eqn:Es; cbn [negb andb].
    + exists p. split_and!; try done; simpl; try lia.
    + destruct (IH l (p + 1) Hc' ltac:(lia)) as (q & Eq & Cq & Lq & Nq & Bq). exists q. split_and!; try done; simpl; try lia.
      by apply bytes_at_cons.
Qed.

Lemma drop_slashes_head l : match drop_slashes l with [] => True | c :: _ => c <> SLASH end.
Proof. induction l as [|c l IH]; simpl; [done|]. destruct (Z.eqb_spec c SLASH); [done|]. done. Qed.

(** One step: with the path out of the way of [name], the element lands in [name], cut to
    DIRSIZ bytes, and the rest of the path is what follows it, its leading slashes skipped. *)
Lemma skipelem_spec m path name l fuel :
  cstring m path l -> (length l < fuel)%nat -> 0 < path ->
  path + Z.of_nat (length l) < name \/ name + DIRSIZ <= path ->
  match drop_slashes l with
  | [] => skipelem m path name fuel = Some (0, m)
  | l1 => exists q m', skipelem m path name fuel = Some (q, m') /\ cstring m' q (drop_slashes (after_elem l1)) /\
            field_string m' name (Z.to_nat DIRSIZ) = take (Z.to_nat DIRSIZ) (first_elem l1) /\
            path <= q /\ q + Z.of_nat (length (drop_slashes (after_elem l1))) = path + Z.of_nat (length l) /\
            (forall a, ~ (name <= a < name + DIRSIZ) -> load8 m' a = load8 m a)
  end.
Proof.
  intros Hc Hf Hp Hd. unfold skipelem. destruct (skip_slashes_spec m fuel l path Hc Hf) as (s & -> & Cs & Ls & Ns).
  cbn [mbind option_bind].
  pose proof (drop_slashes_head l) as Hh. destruct (drop_slashes l) as [|c l1] eqn:El.
  { apply cstring_nil in Cs. by rewrite Cs. }
  pose proof Cs as (Ec & Hcz & _)%cstring_cons. rewrite Ec, (proj2 (Z.eqb_neq c 0)) by done.
  rewrite <- El in Cs, Ns |- *. assert (Hlen : (length (drop_slashes l) <= length l)%nat) by lia.
  destruct (skip_name_spec m fuel (drop_slashes l) s Cs ltac:(lia)) as (e & -> & Ce & Ee & Ne & Be).
  cbn [mbind option_bind].
  set (el := first_elem (drop_slashes l)) in *. set (rest := after_elem (drop_slashes l)) in *.
  replace (e - s) with (Z.of_nat (length el)) by lia.
  set (m' := if DIRSIZ <=? _ then _ else _).
  assert (Hout : forall a, ~ (name <= a < name + DIRSIZ) -> load8 m' a = load8 m a).
  { intros a Ha. unfold m'. destruct (Z.leb_spec DIRSIZ (Z.of_nat (length el))).
    - by rewrite memmove_lookup, decide_False by (unfold DIRSIZ in *; lia).
    - rewrite load8_store8_ne by lia. by rewrite memmove_lookup, decide_False by lia. }
  assert (Ce' : cstring m' e rest) by (eapply cstring_ext; [|exact Ce]; intros a Ha; apply Hout; lia).
  destruct (skip_slashes_spec m' fuel rest e Ce' ltac:(lia)) as (q & -> & Cq & Lq & Nq).
  cbn [mbind option_bind].
  exists q, m'. split; [done|]. split; [done|]. split; [|split; [lia|split; [lia|done]]].
  unfold m'. destruct (Z.leb_spec DIRSIZ (Z.of_nat (length el))) as [Hle|Hgt].
  - rewrite (field_string_take _ _ (take (Z.to_nat DIRSIZ) el)).
    + by rewrite take_take, Nat.min_id.
    + intros i d Hi. pose proof (lookup_lt_Some _ _ _ Hi) as Hlt. rewrite length_take in Hlt.
      rewrite lookup_take_lt in Hi by lia. destruct (Be i d Hi) as [E Hd']. split; [|done].
      rewrite memmove_lookup, decide_True by (unfold DIRSIZ in *; lia). rewrite <- E. f_equal. lia.
    + rewrite length_take. unfold DIRSIZ in *. lia.
  - rewrite take_ge by lia. apply field_string_cstring; [|lia]. split; [|apply load8_store8_eq].
    intros i d Hi. pose proof (lookup_lt_Some _ _ _ Hi). destruct (Be i d Hi) as [E Hd']. split; [|done].
    rewrite load8_store8_ne by lia. rewrite memmove_lookup, decide_True by lia. rewrite <- E. f_equal. lia.
Qed.

(** The elements of a path: what lies between its slashes, empty pieces left out. *)
Fixpoint split_path (l : list Z) : list (list Z) :=
  match l with
  | [] => [[]]
  | c :: l =>
      if c =? SLASH then [] :: split_path l
      else match split_path l with e :: es => (c :: e) :: es | [] => [[c]] end
  end.
Definition path_elements (l : list Z) : list (list Z) := filter (fun e => e <> []) (split_path l).

(** Calling skipelem until it finds no more, as namex does. *)
Fixpoint walk (m : memory) (path name : Z) (pfuel fuel : nat) : option (list (list Z)) :=
  match fuel with
  | O => None
  | S fuel =>
      '(p, m') ← skipelem m path name pfuel;
      if p =? 0 then Some []
      else
        es ← walk m' p name pfuel fuel;
        Some (field_string m' name (Z.to_nat DIRSIZ) :: es)
  end.

Lemma split_path_elem l : split_path l = first_elem l :: match after_elem l with [] => [] | _ :: l' => split_path l' end.
Proof.
  induction l as [|c l IH]; simpl; [done|]. destruct (Z.eqb_spec c SLASH); [done|]. by rewrite IH.
Qed.
Lemma path_elements_drop l : path_elements (drop_slashes l) = path_elements l.
Proof.
  induction l as [|c l IH]; cbn [drop_slashes]; [done|]. destruct (c =? SLASH) eqn:E; [|done]. rewrite IH.
  unfold path_elements. cbn [split_path]. rewrite E, filter_cons_False; [done|]. by intros Hn.
Qed.

Lemma path_elements_step l :
  path_elements l = match drop_slashes l with [] => [] | l1 => first_elem l1 :: path_elements (drop_slashes (after_elem l1)) end.
Proof.
  rewrite <- path_elements_drop. pose proof (drop_slashes_head l) as Hh. destruct (drop_slashes l) as [|c l1] eqn:E; [done|].
  cbv zeta. rewrite path_elements_drop. unfold path_elements at 1. rewrite split_path_elem. cbn [first_elem after_elem].
  rewrite (proj2 (Z.eqb_neq c SLASH)) by done. rewrite filter_cons_True by done. f_equal.
  assert (Ha : forall k, match after_elem k with [] => True | d :: _ => d = SLASH end).
  { induction k as [|d k IHk]; simpl; [done|]. destruct (Z.eqb_spec d SLASH); done. }
  specialize (Ha l1). destruct (after_elem l1) as [|d l2]; [done|]. subst d.
  unfold path_elements. cbn [split_path]. rewrite Z.eqb_refl, filter_cons_False; [done|]. by intros Hn.
Qed.

(** namex walks exactly the elements of its path. Repeated calls of skipelem on a path in
    memory end with no element left, and yield, one after the other, the non-empty pieces
    between its slashes, each cut to DIRSIZ bytes, whatever slashes lead, trail or repeat. *)
Theorem skipelem_walks_path (m : memory) (path name : Z) (l : list Z) (pfuel fuel : nat)
    (Hl : cstring m path l) (Hp : 0 < path) (Hpf : (length l < pfuel)%nat) (Hf : (length l < fuel)%nat)
    (Hd : path + Z.of_nat (length l) < name \/ name + DIRSIZ <= path) :
  walk m path name pfuel fuel = Some (map (take (Z.to_nat DIRSIZ)) (path_elements l)).
Proof.
  revert m path l Hl Hp Hpf Hf Hd. induction fuel as [|fuel IH]; intros m path l Hl Hp Hpf Hf Hd; [lia|].
  cbn [walk]. pose proof (skipelem_spec m path name l pfuel Hl Hpf Hp Hd) as Hs. rewrite path_elements_step.
  destruct (drop_slashes l) as [|c l1] eqn:El; [by rewrite Hs|]. cbv zeta in *.
  destruct Hs as (q & m' & -> & Cq & Fq & Lq & Nq & _). cbn [mbind option_bind]. rewrite (proj2 (Z.eqb_neq q 0)) by lia.
  assert (Hlt : (length (drop_slashes (after_elem (c :: l1))) < length l)%nat).
  { clear -El. assert (Hd : forall k, (length (drop_slashes k) <= length k)%nat).
    { induction k as [|d k IHk]; simpl; [lia|]. destruct (d =? SLASH); simpl; lia. }
    assert (Ha : forall k, (length (after_elem k) <= length k)%nat).
    { induction k as [|d k IHk]; simpl; [lia|]. destruct (d =? SLASH); simpl; lia. }
    pose proof (Hd l). pose proof (Hd (after_elem (c :: l1))). rewrite El in *. simpl in *.
    pose proof (drop_slashes_head l) as Hh. rewrite El in Hh. rewrite (proj2 (Z.eqb_neq c SLASH)) in * by done.
    pose proof (Ha l1). lia. }
  rewrite (IH m' q (drop_slashes (after_elem (c :: l1)))); try done; try lia.
  cbn [mbind option_bind map]. by rewrite Fq.
Qed.

(** "//usr///a-file-with-a-long-name/b" at address 100. *)
Definition demo_path : list Z := [47; 47; 117; 115; 114; 47; 47; 47; 97; 45; 102; 105; 108; 101; 45; 119; 105; 116; 104; 45; 97; 45; 108; 111; 110; 103; 45; 110; 97; 109; 101; 47; 98].
Lemma skipelem_walks_path_witness :
  walk (fun a => if (100 <=? a) && (a <? 133) then nth (Z.to_nat (a - 100)) demo_path 0 else 0) 100 200 40 40 =
    Some [[117; 115; 114]; [97; 45; 102; 105; 108; 101; 45; 119; 105; 116; 104; 45; 97; 45]; [98]].
Proof.
  set (m := fun a => _).
  assert (Hl : cstring m 100 demo_path).
  { split; [|reflexivity]. intros i c Hi. pose proof (lookup_lt_Some _ _ _ Hi) as Hlt.
    do 33 (destruct i as [|i]; [injection Hi as <-; split; [reflexivity|discriminate]|]). simpl in Hlt. lia. }
  assert (H0 : 0 < 100) by reflexivity.
  assert (Hf : (length demo_path < 40)%nat) by (simpl; lia).
  assert (Hd : 100 + Z.of_nat (length demo_path) < 200 \/ 200 + DIRSIZ <= 100) by (left; reflexivity).
  exact (skipelem_walks_path m 100 200 demo_path 40 40 Hl H0 Hf Hf Hd).
Defined.
