(* ===== verification/DirSpec.v ===== *)
(** * DirSpec: directories as maps from names to inode numbers

    A directory's content is a sequence of 16-byte entries; an entry whose inode number is 0 is
    free. [dir_inum] is the abstract map; dirlookup reads it and dirlink adds to it. *)

From S2P Require Import Prelude Memory Spinlock Cache Bio Log Tx Fs Inode Dir.

(** The content of a file, as a memory. *)
Definition entry_inum (v : dview) (x : inode) (i : Z) : Z := load16 (content v x) (16 * i).
Definition entry_name (v : dview) (x : inode) (i : Z) : list Z := field_string (content v x) (16 * i + 2) 14.
Definition entry_is (v : dview) (x : inode) (s : list Z) (i : Z) : bool :=
  negb (entry_inum v x i =? 0) && bool_decide (entry_name v x i = s).

(** The first entry with the name, and its inode number. *)
Definition dir_find (v : dview) (x : inode) (s : list Z) : option nat :=
  find_index (entry_is v x s) (seqZ 0 (i_size x / 16)).
Definition dir_inum (v : dview) (x : inode) (s : list Z) : option Z :=
  (fun i => entry_inum v x (Z.of_nat i)) <$> dir_find v x s.

Lemma content_load8 v x k : load8 (content v x) k = content v x k.
Proof. unfold load8 at 1, content. apply u8_idem. Qed.

Lemma field_string_shift (m m' : memory) p q k :
  (forall i, 0 <= i < Z.of_nat k -> load8 m (p + i) = load8 m' (q + i)) -> field_string m p k = field_string m' q k.
Proof.
  revert p q. induction k as [|k IH]; intros p q E; [done|]. simpl.
  pose proof (E 0 ltac:(lia)) as E0. rewrite !Z.add_0_r in E0. rewrite E0. destruct (_ =? 0); [done|]. f_equal. apply IH.
  intros i Hi. replace (p + 1 + i) with (p + (i + 1)) by lia. replace (q + 1 + i) with (q + (i + 1)) by lia. apply E. lia.
Qed.
Lemma load16_shift (m m' : memory) p q : load8 m p = load8 m' q -> load8 m (p + 1) = load8 m' (q + 1) -> load16 m p = load16 m' q.
Proof. intros E1 E2. unfold load16. by rewrite E1, E2. Qed.

Lemma seqZ_lookup n i j : seqZ 0 n !! i = Some j <-> j = Z.of_nat i /\ Z.of_nat i < n.
Proof. rewrite lookup_seqZ. lia. Qed.

Lemma dir_find_Some v x s i :
  dir_find v x s = Some i <->
  Z.of_nat i < i_size x / 16 /\ entry_is v x s (Z.of_nat i) = true /\ forall j, 0 <= j < Z.of_nat i -> entry_is v x s j = false.
Proof.
  unfold dir_find. rewrite find_index_Some. split.
  - intros (k & [-> Hi]%seqZ_lookup & He & Hmin). split; [done|]. split; [done|]. intros j Hj.
    apply (Hmin (Z.to_nat j) j); [lia|]. apply seqZ_lookup. lia.
  - intros (Hi & He & Hmin). exists (Z.of_nat i). split; [by apply seqZ_lookup|]. split; [done|].
    intros j y Hj [-> _]%seqZ_lookup. apply Hmin. lia.
Qed.
Lemma dir_find_None v x s : dir_find v x s = None <-> forall j, 0 <= j < i_size x / 16 -> entry_is v x s j = false.
Proof.
  unfold dir_find. rewrite find_index_None. split.
  - intros Hn j Hj. apply (Hn (Z.to_nat j) j), seqZ_lookup. lia.
  - intros Hn i j [-> Hi]%seqZ_lookup. apply Hn. lia.
Qed.

Section DirSpec.
Context {T : Type} `{LoggedDisk T} (g : geometry) (sbx : superblock) (Hsb : sb_ok g sbx).
Abbreviation F := (M (fstate T fcore)).
Context (devsw_read : Z -> option (nat -> memory -> Z -> Z -> F (Z * memory))).
Implicit Types (v : dview) (c : fcore) (x y : inode).

(** A reference to an inode: a cached one, or a recycled cache entry to be read from disk. *)
Definition igot dev inum c (ip : nat) c' : Prop :=
  exists y x, icache c !! ip = Some y /\ c' = set_inode ip x c /\ i_dev x = dev /\ i_inum x = inum /\
    (0 < i_ref y /\ i_dev y = dev /\ i_inum y = inum /\ x = set_i_ref (i_ref y + 1) y \/
     i_ref y = 0 /\ i_ref x = 1 /\ i_valid x = false /\
     forall j z, icache c !! j = Some z -> 0 < i_ref z -> ~ (i_dev z = dev /\ i_inum z = inum)).

Lemma iget_spec dev inum v c :
  wp g (iget dev inum) v c (fun ip v' c' => v' = v /\ igot dev inum c ip c')
    (fun msg => msg = "iget: no inodes" /\ forall j z, icache c !! j = Some z -> i_ref z <> 0 /\ ~ (0 < i_ref z /\ i_dev z = dev /\ i_inum z = inum)).
Proof.
  unfold iget. apply wp_core. destruct (find_index _ (icache c)) as [i|] eqn:E1.
  - apply find_index_Some in E1 as (y & Hy & He & _). to_prop.
    apply (wp_upd_inode g _ y); [done|]. apply wp_ret. split; [done|]. exists y, (set_i_ref (i_ref y + 1) y). split_and!; try done.
    by left.
  - pose proof (proj1 (find_index_None _ _) E1) as Hno. destruct (find_index (fun x => i_ref x =? 0) (icache c)) as [i|] eqn:E2.
    + apply find_index_Some in E2 as (y & Hy & He & _). to_prop.
      apply (wp_upd_inode g _ y); [done|]. apply wp_ret. split; [done|]. eexists y, _. split_and!; try done.
      right. split_and!; try done. intros j z Hz Hr [Hd Hi]. specialize (Hno _ _ Hz). cbv beta in Hno.
      rewrite Hd, Hi, !Z.eqb_refl, (proj2 (Z.ltb_lt _ _)) in Hno by done. done.
    + apply wp_panic. split; [done|]. intros j z Hz. pose proof (proj1 (find_index_None _ _) E2 _ _ Hz) as Hf. specialize (Hno _ _ Hz). cbv beta in Hf, Hno.
      to_prop. split; [done|]. intros (Hr & Hd & Hi). rewrite Hd, Hi, !Z.eqb_refl, (proj2 (Z.ltb_lt _ _)) in Hno by done. done.
Qed.

(** A directory in order, for reading. *)
Record dir_at (dp : nat) x v c : Prop := {
  da_cached : icache c !! dp = Some x;
  da_ok : inode_ok sbx v x;
  da_holes : no_holes v x;
  da_held : dv_held v = ∅;
  da_bufs : (S (size (dv_logged v)) < g_bufs g)%nat;
  da_type : i_type x = T_DIR;
  da_size : i_size x mod 16 = 0
}.

(** One entry read into [de]. *)
Lemma read_entry dp x v c (m : memory) de i :
  dir_at dp x v c -> 0 <= i < i_size x / 16 ->
  wp g (readi devsw_read dp m de (16 * i) sizeof_dirent) v c
    (fun r v' c' => v' = v /\ c' = c /\ r.1 = 16 /\ load16 r.2 de = entry_inum v x i /\
       field_string r.2 (de + 2) 14 = entry_name v x i /\ (forall a, ~ (de <= a < de + 16) -> r.2 a = m a)) no_panic.
Proof.
  intros [Hx Hi Hh Hheld Hb Ht Hs] Hr. unfold sizeof_dirent. pose proof (proj1 Hh) as Hsz. rewrite MAXFILE_eq in Hsz. unfold BSIZE in Hsz.
  assert (Hle : 16 * i + 16 <= i_size x) by dlia.
  eapply wp_mono; [eapply (readi_spec g sbx Hsb devsw_read dp x v c m de (16 * i) 16); try done; try lia; by rewrite Ht| |done].
  intros [r m'] v' c' (-> & -> & Hn & Hget & Hout). cbn [fst snd] in *.
  assert (Hrd : readable (i_size x) (16 * i) 16 = 16) by (unfold readable; by rewrite (proj2 (Z.ltb_ge _ _)) by lia).
  rewrite Hrd in *. split_and!; try done.
  - apply load16_shift; rewrite content_load8; rewrite <- Hget by lia; f_equal; lia.
  - apply field_string_shift. intros k Hk. rewrite content_load8, <- Hget by lia. f_equal. lia.
  - intros a Ha. apply Hout. lia.
Qed.

(** The panic of a lookup: the entry is there, its inode is not cached, and the cache is full. *)
Definition lookup_fails x v c (s : list Z) (msg : string) : Prop :=
  msg = "iget: no inodes" /\ exists k, dir_find v x s = Some k /\ forall j z, icache c !! j = Some z ->
    i_ref z <> 0 /\ ~ (0 < i_ref z /\ i_dev z = i_dev x /\ i_inum z = entry_inum v x (Z.of_nat k)).

Lemma dirlookup_loop_spec dp x v c (name de : Z) (s : list Z) fuel : forall (m : memory) i,
  dir_at dp x v c -> name + 14 <= de \/ de + 16 <= name -> field_string m name 14 = s ->
  0 <= i <= i_size x / 16 -> (forall j, 0 <= j < i -> entry_is v x s j = false) -> i_size x / 16 < i + Z.of_nat fuel ->
  wp g (dirlookup_loop devsw_read dp m name de (16 * i) fuel) v c
    (fun r v' c' => v' = v /\ (forall a, ~ (de <= a < de + 16) -> r.2 a = m a) /\
       match dir_find v x s with
       | Some k => exists ip, r.1 = Some (ip, 16 * Z.of_nat k) /\ igot (i_dev x) (entry_inum v x (Z.of_nat k)) c ip c'
       | None => r.1 = None /\ c' = c
       end)
    (lookup_fails x v c s).
Proof.
  induction fuel as [|fuel IH]; intros m i Hd Hdis Hs Hi Hbefore Hfuel; [lia|]. cbn [dirlookup_loop].
  pose proof (proj1 (da_holes _ _ _ _ Hd)) as Hsz. rewrite MAXFILE_eq in Hsz. unfold BSIZE in Hsz. pose proof (da_size _ _ _ _ Hd) as Hmod.
  apply (wp_the_inode g _ x); [apply (da_cached _ _ _ _ Hd)|].
  destruct (Z.ltb_spec (16 * i) (i_size x)) as [Hlt|Hge]; cbn [negb].
  2: { apply wp_ret. split; [done|]. split; [done|].
       rewrite (proj2 (dir_find_None v x s)); [done|]. intros j Hj. apply Hbefore. dlia. }
  assert (Hir : 0 <= i < i_size x / 16) by dlia.
  eapply wp_then; [eapply wp_mono; [by apply (read_entry dp x v c m de i)| |]|].
  { intros r v' c' Hr. exact Hr. }
  { by intros msg ?. }
  intros [r m'] v' c' Hr0. cbn [fst snd] in Hr0. destruct Hr0 as (-> & -> & -> & Hin & Hname & Hout).
  unfold sizeof_dirent at 1. cbn [Z.eqb Pos.eqb negb panic_if]. apply wp_bind, wp_ret.
  assert (Hs' : field_string m' name 14 = s).
  { rewrite <- Hs. apply field_string_ext. intros a Ha. unfold load8. rewrite Hout by lia. done. }
  assert (Hnext : entry_is v x s i = false ->
    wp g (dirlookup_loop devsw_read dp m' name de (u32 (16 * i + sizeof_dirent)) fuel) v c
      (fun r v' c' => v' = v /\ (forall a, ~ (de <= a < de + 16) -> r.2 a = m a) /\
       match dir_find v x s with
       | Some k => exists ip, r.1 = Some (ip, 16 * Z.of_nat k) /\ igot (i_dev x) (entry_inum v x (Z.of_nat k)) c ip c'
       | None => r.1 = None /\ c' = c
       end)
      (lookup_fails x v c s)).
  { intros Hne. unfold sizeof_dirent. rewrite u32_small by lia. replace (16 * i + 16) with (16 * (i + 1)) by lia.
    eapply wp_mono; [apply (IH m' (i + 1)); try done; try lia| |done].
    - intros j Hj. destruct (decide (j = i)) as [->|]; [done|]. apply Hbefore. lia.
    - intros r v' c' (-> & Ho & Hm). split; [done|]. split; [|done]. intros a Ha. by rewrite Ho, Hout. }
  rewrite Hin. destruct (Z.eqb_spec (entry_inum v x i) 0) as [Hz|Hz].
  { apply Hnext. unfold entry_is. by rewrite Hz. }
  unfold namecmp. destruct (Z.eqb_spec (strncmp m' name (de + 2) DIRSIZ) 0) as [Hc|Hc];
    unfold strncmp in Hc; rewrite strncmp_loop_zero in Hc; change (Z.to_nat DIRSIZ) with 14%nat in Hc; rewrite Hs', Hname in Hc.
  - assert (Hf : dir_find v x s = Some (Z.to_nat i)).
    { apply dir_find_Some. rewrite Z2Nat.id by lia. split; [lia|]. split; [|done]. unfold entry_is.
      rewrite (proj2 (Z.eqb_neq _ _)), bool_decide_true by done. done. }
    apply wp_bind. eapply wp_mono; [apply iget_spec| |intros msg [-> Hm]; split; [done|]; exists (Z.to_nat i); rewrite Z2Nat.id by lia; done].
    intros ip v' c' [-> Hg]. apply wp_ret. cbn [fst snd]. split; [done|]. split; [done|].
    rewrite Hf. exists ip. rewrite Z2Nat.id by lia. done.
  - apply Hnext. unfold entry_is. rewrite bool_decide_false by (intros E; by apply Hc). apply andb_false_r.
Qed.

Lemma dirlookup_spec dp x v c (m : memory) (name de : Z) :
  dir_at dp x v c -> name + 14 <= de \/ de + 16 <= name ->
  let s := field_string m name 14 in
  wp g (dirlookup devsw_read dp m name de) v c
    (fun r v' c' => v' = v /\ (forall a, ~ (de <= a < de + 16) -> r.2 a = m a) /\
       match dir_find v x s with
       | Some k => exists ip, r.1 = Some (ip, 16 * Z.of_nat k) /\ igot (i_dev x) (entry_inum v x (Z.of_nat k)) c ip c'
       | None => r.1 = None /\ c' = c
       end)
    (lookup_fails x v c s).
Proof.
  intros Hd Hdis s. unfold dirlookup. apply (wp_the_inode g _ x); [apply (da_cached _ _ _ _ Hd)|].
  rewrite (da_type _ _ _ _ Hd). cbn [Z.eqb T_DIR Pos.eqb negb panic_if]. apply wp_bind, wp_ret.
  pose proof (proj1 (da_holes _ _ _ _ Hd)) as Hsz.
  replace 0 with (16 * 0) at 1 by lia. apply dirlookup_loop_spec; try done; try dlia.
  unfold entries, sizeof_dirent. dlia.
Qed.

(** ** Adding a name *)

(** The entry dirlink uses: the first free one, or a new one at the end. *)
Definition free_slot v x : Z :=
  match find_index (fun i => entry_inum v x i =? 0) (seqZ 0 (i_size x / 16)) with
  | Some i => Z.of_nat i
  | None => i_size x / 16
  end.

Lemma free_slot_spec v x i :
  0 <= i <= i_size x / 16 -> (forall j, 0 <= j < i -> entry_inum v x j <> 0) -> (i < i_size x / 16 -> entry_inum v x i = 0) ->
  free_slot v x = i.
Proof.
  intros Hi Hb He. unfold free_slot. destruct (find_index _ _) as [k|] eqn:E.
  - apply find_index_Some in E as (j & [-> Hk]%seqZ_lookup & Hz & Hmin). to_prop.
    destruct (Z.lt_total (Z.of_nat k) i) as [Hl|[?|Hl]]; [by destruct (Hb (Z.of_nat k) ltac:(lia))|done|].
    assert (Hf : (entry_inum v x i =? 0) = false) by (apply (Hmin (Z.to_nat i) i); [lia|apply seqZ_lookup; lia]).
    rewrite He in Hf by lia. done.
  - destruct (decide (i = i_size x / 16)); [done|]. pose proof (proj1 (find_index_None _ _) E (Z.to_nat i) i) as Hn.
    cbv beta in Hn. rewrite He in Hn by lia. discriminate Hn. apply seqZ_lookup. lia.
Qed.

Lemma free_slot_range v x : 0 <= i_size x -> 0 <= free_slot v x <= i_size x / 16.
Proof.
  intros Hs. unfold free_slot. destruct (find_index _ _) as [k|] eqn:E; [|dlia].
  apply find_index_Some in E as (j & [-> Hk]%seqZ_lookup & _). lia.
Qed.

Lemma free_entry_spec dp x v c (de : Z) fuel : forall (m : memory) i,
  dir_at dp x v c -> 0 <= i <= i_size x / 16 -> (forall j, 0 <= j < i -> entry_inum v x j <> 0) -> i_size x / 16 < i + Z.of_nat fuel ->
  wp g (free_entry devsw_read dp m de (16 * i) fuel) v c
    (fun r v' c' => v' = v /\ c' = c /\ r.1 = 16 * free_slot v x /\ (forall a, ~ (de <= a < de + 16) -> r.2 a = m a)) no_panic.
Proof.
  induction fuel as [|fuel IH]; intros m i Hd Hi Hbefore Hfuel; [lia|]. cbn [free_entry].
  pose proof (proj1 (da_holes _ _ _ _ Hd)) as Hsz. rewrite MAXFILE_eq in Hsz. unfold BSIZE in Hsz. pose proof (da_size _ _ _ _ Hd) as Hmod.
  apply (wp_the_inode g _ x); [apply (da_cached _ _ _ _ Hd)|]. rewrite u32_small by dlia.
  destruct (Z.ltb_spec (16 * i) (i_size x)) as [Hlt|Hge]; cbn [negb].
  2: { apply wp_ret. split_and!; try done. cbn [fst]. rewrite (free_slot_spec v x i); [done|done|done|]. dlia. }
  assert (Hir : 0 <= i < i_size x / 16) by dlia.
  eapply wp_then; [by apply (read_entry dp x v c m de i)|].
  intros [r m'] v' c' Hr0. cbn [fst snd] in Hr0. destruct Hr0 as (-> & -> & -> & Hin & _ & Hout).
  unfold sizeof_dirent at 1. cbn [Z.eqb Pos.eqb negb panic_if]. apply wp_bind, wp_ret. rewrite Hin.
  destruct (Z.eqb_spec (entry_inum v x i) 0) as [Hz|Hz].
  - apply wp_ret. split_and!; try done. cbn [fst]. rewrite (free_slot_spec v x i); done.
  - unfold sizeof_dirent. rewrite s32_small by lia. replace (16 * i + 16) with (16 * (i + 1)) by lia.
    eapply wp_mono; [apply (IH m' (i + 1)); try done; try lia| |done].
    + intros j Hj. destruct (decide (j = i)) as [->|]; [done|]. apply Hbefore. lia.
    + intros r v' c' (-> & -> & Hr & Ho). split_and!; try done. intros a Ha. by rewrite Ho, Hout.
Qed.

Section Link.
Context (devsw_write : Z -> option (nat -> memory -> Z -> Z -> F (Z * memory))).

Record dir_entries v x v' x' (i inum : Z) (s : list Z) : Prop := {
  de_size : i_size x' = i_size x `max` (16 * i + 16);
  de_inum : entry_inum v' x' i = inum;
  de_name : entry_name v' x' i = s;
  de_other : forall j, 0 <= j < i_size x / 16 -> j <> i ->
    entry_inum v' x' j = entry_inum v x j /\ entry_name v' x' j = entry_name v x j
}.

(** Filling the free slot adds one name to the map, when the name is new. *)
Lemma dir_inum_add v x v' x' inum s t :
  i_size x mod 16 = 0 -> 0 <= i_size x -> inum <> 0 -> dir_find v x s = None ->
  dir_entries v x v' x' (free_slot v x) inum s ->
  dir_inum v' x' t = if decide (t = s) then Some inum else dir_inum v x t.
Proof.
  intros Hmod Hsz Hin Hnone [Hs Hi Hn Ho]. pose proof (free_slot_range v x Hsz) as Hr.
  set (i := free_slot v x) in *. rewrite dir_find_None in Hnone.
  assert (Hsz' : i < i_size x' / 16) by (rewrite Hs; dlia).
  assert (Hold : forall j, 0 <= j < i_size x' / 16 -> j <> i -> j < i_size x / 16) by (intros j; rewrite Hs; dlia).
  assert (Hei : forall j u, 0 <= j < i_size x' / 16 -> j <> i -> entry_is v' x' u j = entry_is v x u j).
  { intros j u Hj Hne. unfold entry_is. destruct (Ho j) as [-> ->]; [|done|done]. specialize (Hold j Hj Hne). lia. }
  assert (Hii : forall u, entry_is v' x' u i = bool_decide (s = u)).
  { intros u. unfold entry_is. by rewrite Hi, Hn, (proj2 (Z.eqb_neq _ _)). }
  unfold dir_inum. destruct (decide (t = s)) as [->|Hts].
  - assert (Hf : dir_find v' x' s = Some (Z.to_nat i)).
    { apply dir_find_Some. rewrite Z2Nat.id by lia. split; [done|]. split; [by rewrite Hii, bool_decide_true|].
      intros j Hj. rewrite Hei by lia. apply Hnone. split; [lia|]. apply Hold; lia. }
    rewrite Hf. simpl. by rewrite Z2Nat.id, Hi by lia.
  - assert (Hfree : i < i_size x / 16 -> entry_is v x t i = false).
    { intros Hlt. unfold i, free_slot in *. destruct (find_index _ _) as [k|] eqn:E; [|lia].
      apply find_index_Some in E as (j & [-> Hk]%seqZ_lookup & Hz & _). unfold entry_is. by rewrite Hz. }
    destruct (dir_find v x t) as [k|] eqn:Ef.
    + apply dir_find_Some in Ef as (Hk & Hek & Hmin).
      assert (Hki : Z.of_nat k <> i) by (intros E; rewrite E, Hfree in Hek by lia; done).
      assert (Hk' : Z.of_nat k < i_size x' / 16) by (rewrite Hs; dlia).
      assert (Hf : dir_find v' x' t = Some k).
      { apply dir_find_Some. split; [done|]. split; [by rewrite Hei by lia|]. intros j Hj.
        destruct (decide (j = i)) as [->|]; [rewrite Hii; by apply bool_decide_false|]. rewrite Hei by lia. by apply Hmin. }
      rewrite Hf. simpl. f_equal. apply Ho; [lia|done].
    + assert (Hf : dir_find v' x' t = None); [|by rewrite Hf].
      apply dir_find_None. intros j Hj. rewrite dir_find_None in Ef.
      destruct (decide (j = i)) as [->|]; [rewrite Hii; by apply bool_decide_false|]. rewrite Hei by lia. apply Ef.
      split; [lia|]. by apply Hold.
Qed.

Lemma wrote_entry v x v' x' (m : memory) (de i : Z) :
  i_size x mod 16 = 0 -> 0 <= i <= i_size x / 16 -> i_size x <= i_size x' ->
  wrote_file sbx (fun k => load8 m (de + (k - 16 * i))) (16 * i) 16 v x v' x' ->
  dir_entries v x v' x' i (load16 m de) (field_string m (de + 2) 14).
Proof.
  intros Hmod Hi Hle W. pose proof (wf_size _ _ _ _ _ _ _ _ W) as Hs. pose proof (wf_content _ _ _ _ _ _ _ _ W) as Hc.
  split; [done|..].
  - apply load16_shift; rewrite content_load8, Hc, decide_True by lia; f_equal; lia.
  - apply field_string_shift. intros k Hk. rewrite content_load8, Hc, decide_True by lia. f_equal. lia.
  - intros j Hj Hne.
    assert (Hjc : forall k, 16 * j <= k < 16 * j + 16 -> content v' x' k = content v x k).
    { intros k Hk. rewrite Hc, decide_False by dlia. done. }
    split; [apply load16_shift; by rewrite !content_load8, Hjc by lia|].
    apply field_string_shift. intros k Hk. by rewrite !content_load8, Hjc by lia.
Qed.

(** C17: a directory is a map from names to inode numbers, and dirlink adds to it. With a name
    that is not in the directory, dirlink returns 0; from then on the name maps to the given
    inode number, every other name maps to what it mapped to before, and the directory is in
    order. It takes the first free entry or grows the directory by one; the only failure is a
    full disk. *)
Theorem dirlink_adds_name (dp : nat) x v c (m : memory) (name de inum : Z)
    (Hfile : file_at sbx dp x v c) (Ht : i_type x = T_DIR) (Hmod : i_size x mod 16 = 0)
    (Hroom : i_size x + 16 <= MAXFILE * BSIZE) (Hfit : fits g sbx v 3)
    (Hinum : 0 < inum < 2 ^ 16) (Hdis : name + 14 <= de \/ de + 16 <= name)
    (Hnew : dir_inum v x (field_string m name 14) = None) :
  wp g (dirlink devsw_read devsw_write dp m name de inum) v c
    (fun r v' c' => r.1 = 0 /\ exists x', file_at sbx dp x' v' c' /\ i_type x' = T_DIR /\ i_size x' mod 16 = 0 /\
       forall t, dir_inum v' x' t = if decide (t = field_string m name 14) then Some inum else dir_inum v x t)
    (fun msg => msg = "balloc: out of blocks" /\ (length (free_list sbx v) < 2)%nat).
Proof.
  assert (Hnone : dir_find v x (field_string m name 14) = None) by (unfold dir_inum in Hnew; by destruct (dir_find _ _ _)).
  pose proof (logged_footprint g sbx Hsb v) as Hlf.
  assert (Hd : dir_at dp x v c) by (destruct Hfile, Hfit; split; try done; lia).
  pose proof (proj1 (da_holes _ _ _ _ Hd)) as Hsz. rewrite MAXFILE_eq in Hsz, Hroom. unfold BSIZE in Hsz, Hroom.
  unfold dirlink. apply wp_bind.
  eapply wp_mono; [apply (dirlookup_spec dp x v c m name de Hd Hdis)| |intros msg (_ & k & Hf & _); congruence].
  rewrite Hnone. intros [r m1] v' c' Hr0. cbn [fst snd] in Hr0. destruct Hr0 as (-> & Hout & -> & ->).
  apply (wp_the_inode g _ x); [apply (da_cached _ _ _ _ Hd)|].
  eapply wp_then; [eapply wp_mono; [apply (free_entry_spec dp x v c de (entries x) m1 0); try done; try lia| |by intros msg ?]|].
  { dlia. } { unfold entries, sizeof_dirent. dlia. } { intros r v' c' Hr. exact Hr. }
  intros [off m2] v' c' Hr0. cbn [fst snd] in Hr0. destruct Hr0 as (-> & -> & -> & Hout2).
  pose proof (free_slot_range v x (proj1 Hsz)) as Hfs.
  set (m3 := store16 (strncpy m2 (de + 2) name DIRSIZ) de inum).
  rewrite u32_small by dlia.
  apply wp_bind. eapply wp_mono; [apply (writei_file g sbx Hsb devsw_write dp x v c m3 de (16 * free_slot v x) sizeof_dirent 1); try done| |].
  - dlia.
  - rewrite MAXFILE_eq. unfold sizeof_dirent, BSIZE. dlia.
  - unfold sizeof_dirent, BSIZE. dlia.
  - vm_compute. lia.
  - intros r v' c' (-> & x' & Hf' & _ & W & _). unfold sizeof_dirent in *. cbn [Z.eqb Pos.eqb negb panic_if].
    apply wp_bind, wp_ret, wp_ret. split; [done|]. exists x'. split; [done|].
    pose proof (wf_size _ _ _ _ _ _ _ _ W) as Hs'.
    split; [pose proof (wf_same _ _ _ _ _ _ _ _ W) as E; rewrite <- Ht, <- E; done|].
    split; [rewrite Hs'; dlia|]. intros t. apply (dir_inum_add _ _ _ _ inum); try done; try lia.
    pose proof (wrote_entry v x v' x' m3 de (free_slot v x) Hmod Hfs ltac:(lia) W) as D.
    assert (E1 : load16 m3 de = inum) by (unfold m3; rewrite load16_store16_eq; unfold u16; rewrite Z.mod_small; lia).
    assert (E2 : field_string m3 (de + 2) 14 = field_string m name 14).
    { unfold m3. rewrite (field_string_ext _ (strncpy m2 (de + 2) name DIRSIZ)) by (intros a Ha; unfold load8; by rewrite store16_lookup by lia).
      unfold strncpy. change (Z.to_nat DIRSIZ) with 14%nat. rewrite strncpy_loop_string by lia.
      apply field_string_ext. intros a Ha. unfold load8. by rewrite Hout2, Hout by lia. }
    by rewrite E1, E2 in D.
  - intros msg (-> & Hl). split; [done|]. exact Hl.
Qed.
End Link.
End DirSpec.
