(* ===== verification/Sysfile.v ===== *)
(** * Sysfile: system calls on names (offline_4/xv6/sysfile.c: sys_link to sys_chdir)

    The calls from the point where their arguments are fetched: paths are pointers into the
    kernel's view of memory, [len] bounds their length. [begin_op] and [end_op] are the log's,
    [dot] and [dotdot] the addresses of the literals "." and "..", [de] the address of the local
    directory entry of the callees and [ude] of that of sys_unlink, [name] that of the buffer
    for the last element. Then: what unlink does to the directory and to the file. *)

From S2P Require Import Prelude Memory Spinlock Cache Bio Log Tx Fs Inode Dir DirSpec Fcntl.

Definition set_i_dev (major minor : Z) (x : inode) : inode :=
  mkInode (i_dev x) (i_inum x) (i_ref x) (i_lock x) (i_valid x) (i_type x) major minor (i_nlink x) (i_size x) (i_addrs x).

Section Calls.
Context {T : Type} `{LoggedDisk T}.
Abbreviation F := (M (fstate T fcore)).
Context (devsw_read devsw_write : Z -> option (nat -> memory -> Z -> Z -> F (Z * memory))).
Context (begin_op end_op : F unit) (dot dotdot name de ude : Z).
Abbreviation readi := (readi devsw_read).
Abbreviation writei := (writei devsw_write).
Abbreviation dirlookup := (dirlookup devsw_read).
Abbreviation dirlink := (dirlink devsw_read devsw_write).
Abbreviation namei := (namei devsw_read).
Abbreviation nameiparent := (nameiparent devsw_read).

(** ip->nlink += d; iupdate(ip) *)
Definition add_nlink (ip : nat) (d : Z) : F unit :=
  upd_inode ip (fun x => set_i_nlink (s16 (i_nlink x + d)) x);;
  iupdate ip.

Fixpoint isdirempty_loop (dp : nat) (m : memory) (off : Z) (fuel : nat) : F (bool * memory) :=
  match fuel with
  | O => fun _ => OutOfFuel
  | S fuel =>
      x ← the_inode dp;
      if negb (u32 off <? i_size x) then ret (true, m)
      else
        '(r, m) ← readi dp m de (u32 off) sizeof_dirent;
        panic_if (negb (r =? sizeof_dirent)) "isdirempty: readi";;
        if negb (load16 m de =? 0) then ret (false, m)
        else isdirempty_loop dp m (s32 (off + sizeof_dirent)) fuel
  end.
Definition isdirempty (dp : nat) (m : memory) : F (bool * memory) :=
  x ← the_inode dp;
  isdirempty_loop dp m (2 * sizeof_dirent) (entries x).

(** The label bad of sys_link. *)
Definition link_bad (ip : nat) (m : memory) : F (Z * memory) :=
  ilock ip;;
  add_nlink ip (-1);;
  iunlockput ip;;
  end_op;;
  ret (-1, m).
Definition sys_link (m : memory) (old new : Z) (len : nat) : F (Z * memory) :=
  begin_op;;
  '(o, m) ← namei m old name de len;
  match o with
  | None => end_op;; ret (-1, m)
  | Some ip =>
      ilock ip;;
      x ← the_inode ip;
      if i_type x =? T_DIR then iunlockput ip;; end_op;; ret (-1, m)
      else
        add_nlink ip 1;;
        iunlock ip;;
        '(d, m) ← nameiparent m new name de len;
        match d with
        | None => link_bad ip m
        | Some dp =>
            ilock dp;;
            y ← the_inode dp;
            x ← the_inode ip;
            '(r, m) ← (if negb (i_dev y =? i_dev x) then ret (-1, m) else dirlink dp m name de (i_inum x));
            if r <? 0 then iunlockput dp;; link_bad ip m
            else
              iunlockput dp;;
              iput ip;;
              end_op;;
              ret (0, m)
        end
  end.

(** sys_unlink with the parent directory locked, to the point before end_op. *)
Definition unlink_found (dp ip : nat) (m : memory) (off : Z) : F (Z * memory) :=
  ilock ip;;
  x ← the_inode ip;
  panic_if (i_nlink x <? 1) "unlink: nlink < 1";;
  '(e, m) ← (if i_type x =? T_DIR then isdirempty ip m else ret (true, m));
  if negb e then iunlockput ip;; iunlockput dp;; ret (-1, m)
  else
    let m := memset m ude 0 sizeof_dirent in
    '(r, m) ← writei dp m ude off sizeof_dirent;
    panic_if (negb (r =? sizeof_dirent)) "unlink: writei";;
    when (i_type x =? T_DIR) (add_nlink dp (-1));;
    iunlockput dp;;
    add_nlink ip (-1);;
    iunlockput ip;;
    ret (0, m).
Definition unlink_locked (dp : nat) (m : memory) : F (Z * memory) :=
  if (namecmp m name dot =? 0) || (namecmp m name dotdot =? 0) then iunlockput dp;; ret (-1, m)
  else
    '(o, m) ← dirlookup dp m name de;
    match o with
    | None => iunlockput dp;; ret (-1, m)
    | Some (ip, off) => unlink_found dp ip m off
    end.
Definition sys_unlink (m : memory) (path : Z) (len : nat) : F (Z * memory) :=
  begin_op;;
  '(d, m) ← nameiparent m path name de len;
  match d with
  | None => end_op;; ret (-1, m)
  | Some dp =>
      ilock dp;;
      '(r, m) ← unlink_locked dp m;
      end_op;;
      ret (r, m)
  end.

(** The value is the new or the existing inode, locked. *)
Definition create (m : memory) (path type major minor : Z) (len : nat) : F (option nat * memory) :=
  '(d, m) ← nameiparent m path name de len;
  match d with
  | None => ret (None, m)
  | Some dp =>
      ilock dp;;
      '(o, m) ← dirlookup dp m name de;
      match o with
      | Some (ip, _) =>
          iunlockput dp;;
          ilock ip;;
          x ← the_inode ip;
          if (type =? T_FILE) && (i_type x =? T_FILE) then ret (Some ip, m)
          else iunlockput ip;; ret (None, m)
      | None =>
          y ← the_inode dp;
          ip ← ialloc (i_dev y) type;
          ilock ip;;
          upd_inode ip (fun x => set_i_nlink 1 (set_i_dev major minor x));;
          iupdate ip;;
          x ← the_inode ip;
          m ← (if type =? T_DIR then
                 add_nlink dp 1;;
                 '(r, m) ← dirlink ip m dot de (i_inum x);
                 panic_if (r <? 0) "create dots";;
                 y ← the_inode dp;
                 '(r, m) ← dirlink ip m dotdot de (i_inum y);
                 panic_if (r <? 0) "create dots";;
                 ret m
               else ret m);
          '(r, m) ← dirlink dp m name de (i_inum x);
          panic_if (r <? 0) "create: dirlink";;
          iunlockput dp;;
          ret (Some ip, m)
      end
  end.

(** sys_open up to filealloc: the inode, locked. *)
Definition open_name (m : memory) (path omode : Z) (len : nat) : F (option nat * memory) :=
  begin_op;;
  if negb (Z.land omode O_CREATE =? 0) then
    '(o, m) ← create m path T_FILE 0 0 len;
    match o with
    | None => end_op;; ret (None, m)
    | Some ip => ret (Some ip, m)
    end
  else
    '(o, m) ← namei m path name de len;
    match o with
    | None => end_op;; ret (None, m)
    | Some ip =>
        ilock ip;;
        x ← the_inode ip;
        if (i_type x =? T_DIR) && negb (omode =? O_RDONLY) then iunlockput ip;; end_op;; ret (None, m)
        else ret (Some ip, m)
    end.

(** sys_mkdir and sys_mknod; [None] for an argument that cannot be fetched. *)
Definition make_node (m : memory) (path : option Z) (type major minor : Z) (len : nat) : F (Z * memory) :=
  begin_op;;
  match path with
  | None => end_op;; ret (-1, m)
  | Some path =>
      '(o, m) ← create m path type major minor len;
      match o with
      | None => end_op;; ret (-1, m)
      | Some ip => iunlockput ip;; end_op;; ret (0, m)
      end
  end.
Definition sys_mkdir (m : memory) (path : option Z) (len : nat) : F (Z * memory) := make_node m path T_DIR 0 0 len.
Definition sys_mknod (m : memory) (path : option (Z * Z * Z)) (len : nat) : F (Z * memory) :=
  match path with
  | None => make_node m None T_DEV 0 0 len
  | Some (p, major, minor) => make_node m (Some p) T_DEV (s16 major) (s16 minor) len
  end.

Definition set_cwd (ip : nat) (c : fcore) : fcore := mkCore (sb c) (icache c) (fs_pid c) ip.
Definition sys_chdir (m : memory) (path : option Z) (len : nat) : F (Z * memory) :=
  begin_op;;
  match path with
  | None => end_op;; ret (-1, m)
  | Some path =>
      '(o, m) ← namei m path name de len;
      match o with
      | None => end_op;; ret (-1, m)
      | Some ip =>
          ilock ip;;
          x ← the_inode ip;
          if negb (i_type x =? T_DIR) then iunlockput ip;; end_op;; ret (-1, m)
          else
            iunlock ip;;
            c ← fs_get;
            iput (fs_cwd c);;
            end_op;;
            upd_core (set_cwd ip);;
            ret (0, m)
      end
  end.
End Calls.
