(* ===== verification/Unlink.v ===== *)
(** * Unlink: what unlink does to a directory and to a file that is open (sysfile.c)

    The entry with the name goes, the link count drops by one; an inode that somebody still
    holds keeps its content. *)

From S2P Require Import Prelude Memory Spinlock Cache Bio Log Tx Fs Inode Dir DirSpec Sysfile.

Section InodeLocks.
Context {T : Type} `{LoggedDisk T} (g : geometry).
Abbreviation F := (M (fstate T fcore)).

(** ilock and iunlock of a valid inode, and iput of one that is not the last reference to a
    file without links, only change the cache. *)
Lemma wp_ilock {B : Type} ip x (k : unit -> F B) v c Q E :
  icache c !! ip = Some x -> 1 <= i_ref x -> sl_locked (i_lock x) = false -> i_valid x = true ->
  wp g (k tt) v (set_inode ip (set_i_lock (mkSleep true (fs_pid c)) x) c) Q E -> wp g (ilock ip ≫= k) v c Q E.
Proof.
  intros Hx Hr Hl Hv Hk. apply wp_bind. unfold ilock. apply (wp_the_inode g _ x); [done|].
  rewrite (proj2 (Z.ltb_ge _ _)) by lia. cbn [panic_if]. apply wp_bind, wp_ret. apply wp_bind.
  unfold ilock_acquire. apply (wp_the_inode g _ x); [done|]. rewrite Hl. apply wp_core. apply (wp_upd_inode_last g _ x); [done|].
  eapply wp_the_inode; [by eapply set_inode_lookup|]. cbn [set_i_lock i_valid]. rewrite Hv. cbn [negb when]. by apply wp_ret.
Qed.

Lemma wp_iunlock {B : Type} ip x (k : unit -> F B) v c Q E :
  icache c !! ip = Some x -> 1 <= i_ref x -> i_lock x = mkSleep true (fs_pid c) ->
  wp g (k tt) v (set_inode ip (set_i_lock (mkSleep false 0) x) c) Q E -> wp g (iunlock ip ≫= k) v c Q E.
Proof.
  intros Hx Hr Hl Hk. apply wp_bind. unfold iunlock. apply (wp_the_inode g _ x); [done|].
  unfold ilock_holding. apply wp_bind. apply (wp_the_inode g _ x); [done|]. apply wp_core, wp_ret. rewrite Hl. cbn [sl_locked sl_pid].
  rewrite Z.eqb_refl, (proj2 (Z.ltb_ge _ _)) by lia. cbn [andb negb orb panic_if]. apply wp_bind, wp_ret.
  unfold ilock_release. by apply (wp_upd_inode_last g _ x).
Qed.

Lemma wp_iput {B : Type} ip x (k : unit -> F B) v c Q E :
  icache c !! ip = Some x -> sl_locked (i_lock x) = false -> i_nlink x <> 0 \/ i_ref x <> 1 ->
  wp g (k tt) v (set_inode ip (set_i_ref (i_ref x - 1) (set_i_lock (mkSleep false 0) x)) c) Q E -> wp g (iput ip ≫= k) v c Q E.
Proof.
  intros Hx Hl Hn Hk. apply wp_bind. unfold iput. apply wp_bind.
  unfold ilock_acquire. apply (wp_the_inode g _ x); [done|]. rewrite Hl. apply wp_core. apply (wp_upd_inode_last g _ x); [done|].
  eapply wp_the_inode; [by eapply set_inode_lookup|]. cbn [set_i_lock i_valid i_nlink i_ref].
  assert (Hw : forall m : F unit, when (i_valid x && (i_nlink x =? 0)) (when (i_ref x =? 1) m) = ret tt).
  { intros m. destruct (i_valid x); [|done]. destruct Hn as [Hn|Hn].
    - by rewrite (proj2 (Z.eqb_neq (i_nlink x) 0)) by done.
    - rewrite (proj2 (Z.eqb_neq (i_ref x) 1)) by done. by destruct (_ =? _). }
  rewrite Hw. apply wp_bind, wp_ret. unfold ilock_release. eapply wp_upd_inode; [by eapply set_inode_lookup|]. rewrite set_inode_twice.
  eapply wp_the_inode; [by eapply set_inode_lookup|]. eapply wp_upd_inode_last; [by eapply set_inode_lookup|]. rewrite set_inode_twice. exact Hk.
Qed.

Lemma wp_iunlockput {B : Type} ip x (k : unit -> F B) v c Q E :
  icache c !! ip = Some x -> 1 <= i_ref x -> i_lock x = mkSleep true (fs_pid c) -> i_nlink x <> 0 \/ i_ref x <> 1 ->
  wp g (k tt) v (set_inode ip (set_i_ref (i_ref x - 1) (set_i_lock (mkSleep false 0) x)) c) Q E -> wp g (iunlockput ip ≫= k) v c Q E.
Proof.
  intros Hx Hr Hl Hn Hk. apply wp_bind. unfold iunlockput. apply (wp_iunlock ip x); [done..|].
  assert (Hp : wp g (iput ip ≫= ret) v (set_inode ip (set_i_lock (mkSleep false 0) x) c) (fun a v c => wp g (k a) v c Q E) E).
  { eapply wp_iput; [by eapply set_inode_lookup|done|done|]. cbn [set_i_lock i_ref]. rewrite set_inode_twice. by apply wp_ret. }
  intros d Hd. specialize (Hp d Hd). unfold mbind, M_bind in Hp. destruct (iput ip _) as [[] ?| | |]; done.
Qed.
End InodeLocks.

Lemma set_inode_ne ip jp x c : ip <> jp -> icache (set_inode ip x c) !! jp = icache c !! jp.
Proof. intros Hne. cbn. by apply list_lookup_insert_ne. Qed.
Lemma set_inode_swap ip jp x y c : ip <> jp -> set_inode ip x (set_inode jp y c) = set_inode jp y (set_inode ip x c).
Proof. intros Hne. unfold set_inode, with_icache. cbn. by rewrite list_insert_insert_ne. Qed.

Lemma entry_ext v v' x j : (forall k, 16 * j <= k < 16 * j + 16 -> content v' x k = content v x k) ->
  entry_inum v' x j = entry_inum v x j /\ entry_name v' x j = entry_name v x j.
Proof.
  intros Hjc. split; [apply load16_shift; by rewrite !content_load8, Hjc by lia|].
  apply field_string_shift. intros k Hk. by rewrite !content_load8, Hjc by lia.
Qed.

(** The map of a directory loses the name of an entry that is cleared, if no other has it. *)
Lemma dir_inum_remove v x v' (i : Z) (s t : list Z) :
  0 <= i < i_size x / 16 -> entry_is v x s i = true -> (forall j, 0 <= j < i_size x / 16 -> entry_is v x s j = true -> j = i) ->
  entry_inum v' x i = 0 -> (forall j, 0 <= j < i_size x / 16 -> j <> i -> entry_inum v' x j = entry_inum v x j /\ entry_name v' x j = entry_name v x j) ->
  dir_inum v' x t = if decide (t = s) then None else dir_inum v x t.
Proof.
  intros Hi Hs Huniq Hz Ho.
  assert (Hei : forall j, 0 <= j < i_size x / 16 -> j <> i -> entry_is v' x t j = entry_is v x t j).
  { intros j Hj Hne. unfold entry_is. by destruct (Ho j Hj Hne) as [-> ->]. }
  assert (Hii : entry_is v' x t i = false) by (unfold entry_is; by rewrite Hz).
  unfold dir_inum. destruct (decide (t = s)) as [->|Hts].
  - assert (Hf : dir_find v' x s = None); [|by rewrite Hf].
    apply dir_find_None. intros j Hj. destruct (decide (j = i)) as [->|Hne]; [done|]. rewrite Hei by done.
    destruct (entry_is v x s j) eqn:E; [|done]. by destruct (Hne (Huniq j Hj E)).
  - assert (Hit : entry_is v x t i = false).
    { unfold entry_is in *. apply andb_true_iff in Hs as [_ Hn%bool_decide_eq_true]. rewrite bool_decide_false by congruence. apply andb_false_r. }
    assert (Hall : forall j, 0 <= j < i_size x / 16 -> entry_is v' x t j = entry_is v x t j).
    { intros j Hj. destruct (decide (j = i)) as [->|Hne]; [by rewrite Hii, Hit|by apply Hei]. }
    destruct (dir_find v x t) as [k|] eqn:Ef.
    + apply dir_find_Some in Ef as (Hk & Hek & Hmin).
      assert (Hf : dir_find v' x t = Some k).
      { apply dir_find_Some. split; [done|]. split; [by rewrite Hall by lia|]. intros j Hj. rewrite Hall by lia. by apply Hmin. }
      rewrite Hf. simpl. f_equal. apply Ho; [lia|]. intros E. rewrite E, Hit in Hek. done.
    + assert (Hf : dir_find v' x t = None); [|by rewrite Hf].
      rewrite dir_find_None in Ef |- *. intros j Hj. rewrite Hall by done. by apply Ef.
Qed.

Section Unlinking.
Context {T : Type} `{LoggedDisk T} (g : geometry) (sbx : superblock) (Hsb : sb_ok g sbx).
Abbreviation F := (M (fstate T fcore)).
Context (devsw_read devsw_write : Z -> option (nat -> memory -> Z -> Z -> F (Z * memory))).

(** One entry of a directory overwritten, where the block is there. *)
Lemma write_entry dp x v c (m : memory) src i :
  dir_at g sbx dp x v c -> fs_ok sbx v -> fits g sbx v 1 -> 0 <= i < i_size x / 16 ->
  wp g (writei devsw_write dp m src (16 * i) sizeof_dirent) v c
    (fun r v' c' => r = (16, m) /\ c' = c /\ v' = dv_write (baddr v x (16 * i / BSIZE)) (move_in (dv_data v (baddr v x (16 * i / BSIZE))) (16 * i mod BSIZE) m src 16) v) no_panic.
Proof.
  intros [Hx Hi Hh Hheld Hb Ht Hs] Hf Hfit Hr. unfold sizeof_dirent. pose proof (proj1 Hh) as Hsz. rewrite MAXFILE_eq in Hsz. unfold BSIZE in Hsz.
  assert (Hle : 16 * i + 16 <= i_size x) by dlia. pose proof (logged_footprint g sbx Hsb v) as Hlf. destruct Hfit as [Hf1 Hf2].
  assert (Hbn : 0 <= 16 * i / BSIZE < MAXFILE) by (rewrite MAXFILE_eq; unfold BSIZE; dlia).
  assert (Hnz : baddr v x (16 * i / BSIZE) <> 0) by (apply Hh; lia).
  destruct (alloced_data g sbx Hsb _ _ (io_addr _ _ _ Hi _ Hbn Hnz)) as (_ & _ & _ & Ha & Hlog).
  unfold writei. apply (wp_the_inode g _ x); [done|]. rewrite Ht. cbn [Z.eqb T_DIR T_DEV Pos.eqb]. rewrite (u32_small (16 * i + 16)) by lia.
  rewrite !(proj2 (Z.ltb_ge _ _)) by (rewrite ?MAXFILE_eq; unfold BSIZE; lia). cbn [orb].
  change (rounds 16) with 3%nat. cbn [writei_loop Z.ltb Z.compare negb]. apply wp_bind. apply wp_bind.
  eapply (bmap_present g sbx Hsb dp x); try done.
  apply wp_bread; [intros j; by rewrite Hheld, lookup_empty|lia|rewrite Hheld, map_size_empty; lia|]. intros j Hj. cbv zeta.
  replace ((16 - 0) `min` (BSIZE - (16 * i) mod BSIZE)) with 16 by (unfold BSIZE; dlia).
  eapply wp_blogged; [apply lookup_insert_eq|simpl; lia|done|]. eapply wp_brelse; [apply lookup_insert_eq|].
  cbn [dv_hold dv_data]. rewrite dv_write_release by done. rewrite (u32_small (0 + 16)) by lia. cbn [Z.add Z.ltb Z.compare Pos.compare Pos.compare_cont negb].
  apply wp_ret. apply (wp_the_inode g _ x); [done|]. rewrite (u32_small (16 * i + 16)) by lia.
  rewrite (proj2 (Z.ltb_ge (i_size x) _)) by lia. cbn [andb when]. apply wp_bind, wp_ret, wp_ret. done.
Qed.
(** The entry cleared: the directory and every other file, byte by byte. *)
Lemma cleared_entry dp x v c (m : memory) src i :
  dir_at g sbx dp x v c -> fs_ok sbx v -> 0 <= i < i_size x / 16 ->
  written sbx (fun q => load8 m (src + (q - 16 * i))) (16 * i) (16 * i + 16) 2 v x
    (dv_write (baddr v x (16 * i / BSIZE)) (move_in (dv_data v (baddr v x (16 * i / BSIZE))) (16 * i mod BSIZE) m src 16) v) x.
Proof.
  intros [Hx Hi Hh Hheld Hb Ht Hs] Hf Hr. pose proof (proj1 Hh) as Hsz. rewrite MAXFILE_eq in Hsz. unfold BSIZE in Hsz.
  apply (written_block g sbx Hsb (fun q => load8 m (src + (q - 16 * i))) (16 * i) 16 m src v x v x); try done.
  - rewrite MAXFILE_eq. unfold BSIZE. dlia.
  - unfold BSIZE. dlia.
  - apply (grown_weaken sbx _ 0 2); [lia|]. by apply grown_refl.
  - apply Hh. dlia.
  - intros E. exfalso. revert E. apply Hh. dlia.
Qed.
Lemma content_cleared dp x v c (m : memory) src i v' :
  dir_at g sbx dp x v c -> 0 <= i < i_size x / 16 ->
  written sbx (fun q => load8 m (src + (q - 16 * i))) (16 * i) (16 * i + 16) 2 v x v' x ->
  forall q, 0 <= q < i_size x -> content v' x q = if decide (16 * i <= q < 16 * i + 16) then load8 m (src + (q - 16 * i)) else content v x q.
Proof.
  intros [Hx Hi Hh Hheld Hb Ht Hs] Hr W q Hq. pose proof (proj1 Hh) as Hsz. destruct (decide _) as [Hin|Hout]; [by apply (wr_in _ _ _ _ _ _ _ _ _ W)|].
  assert (Hz : baddr v x (q / BSIZE) <> 0) by (apply Hh; lia).
  assert (Hbq : 0 <= q / BSIZE < MAXFILE) by (apply block_index; lia).
  rewrite (wr_out _ _ _ _ _ _ _ _ _ W); [by rewrite decide_False|lia|done|]. by rewrite (wr_kept _ _ _ _ _ _ _ _ _ W).
Qed.

(** The entries after the one at [i] was overwritten with zeros. *)
Lemma entries_cleared dp x v c (m : memory) src i v' :
  dir_at g sbx dp x v c -> 0 <= i < i_size x / 16 -> (forall a, src <= a < src + 16 -> load8 m a = 0) ->
  written sbx (fun q => load8 m (src + (q - 16 * i))) (16 * i) (16 * i + 16) 2 v x v' x ->
  entry_inum v' x i = 0 /\ forall j, 0 <= j < i_size x / 16 -> j <> i -> entry_inum v' x j = entry_inum v x j /\ entry_name v' x j = entry_name v x j.
Proof.
  intros Hd Hi Hm W. pose proof (da_size _ _ _ _ _ _ Hd) as Hmod. pose proof (content_cleared _ _ _ _ _ _ _ _ Hd Hi W) as Hc.
  assert (Hb : forall j, 0 <= j < i_size x / 16 -> 0 <= 16 * j /\ 16 * j + 16 <= i_size x) by (intros j Hj; dlia). pose proof (Hb i Hi) as Hbi. split.
  - unfold entry_inum, load16. rewrite !content_load8, !Hc, !decide_True, !Hm by lia. done.
  - intros j Hj Hne. pose proof (Hb j Hj) as Hbj.
    apply entry_ext. intros k Hk. rewrite Hc, decide_False by lia. done.
Qed.

(** A cached inode of an ordinary file that somebody has open: referenced and not locked. *)
Record open_file ip y v c : Prop := {
  of_cached : icache c !! ip = Some y;
  of_ref : 1 <= i_ref y;
  of_lock : i_lock y = mkSleep false 0;
  of_valid : i_valid y = true;
  of_type : i_type y = T_FILE;
  of_nlink : 1 <= i_nlink y < 2 ^ 15;
  of_inum : 0 <= i_inum y < sb_ninodes sbx;
  of_ok : inode_ok sbx v y;
  of_holes : no_holes v y;
  of_one : forall j z, icache c !! j = Some z -> 0 < i_ref z -> i_dev z = i_dev y -> i_inum z = i_inum y -> j = ip
}.

(** The found inode is the one that is open. *)
Lemma igot_open ip y v c ip' c' : open_file ip y v c -> igot (i_dev y) (i_inum y) c ip' c' ->
  ip' = ip /\ c' = set_inode ip (set_i_ref (i_ref y + 1) y) c.
Proof.
  intros O (y0 & x0 & Hy0 & -> & Hd & Hi & [(Hr & Hd0 & Hi0 & ->)|(_ & _ & _ & Hno)]).
  - assert (ip' = ip) as -> by (by eapply (of_one _ _ _ _ O)). pose proof (of_cached _ _ _ _ O) as Hy. assert (y0 = y) as -> by congruence. done.
  - exfalso. apply (Hno ip y); [apply (of_cached _ _ _ _ O)|pose proof (of_ref _ _ _ _ O); lia|done].
Qed.
Context (name de ude dot dotdot : Z).

(** isdirempty looks at every entry from the third on. *)
Lemma isdirempty_loop_spec dp x v c fuel : forall (m : memory) i,
  dir_at g sbx dp x v c -> 0 <= i -> 16 * i <= i_size x \/ i = 2 -> (0 < fuel)%nat -> i_size x / 16 < i + Z.of_nat fuel ->
  wp g (isdirempty_loop devsw_read de dp m (16 * i) fuel) v c
    (fun r v' c' => v' = v /\ c' = c /\ (r.1 = true <-> forall j, i <= j < i_size x / 16 -> entry_inum v x j = 0)) no_panic.
Proof.
  induction fuel as [|fuel IH]; intros m i Hd Hi Hle Hpos Hfuel; [lia|]. cbn [isdirempty_loop].
  pose proof (proj1 (da_holes _ _ _ _ _ _ Hd)) as Hsz. rewrite MAXFILE_eq in Hsz. unfold BSIZE in Hsz. pose proof (da_size _ _ _ _ _ _ Hd) as Hmod.
  apply (wp_the_inode g _ x); [apply (da_cached _ _ _ _ _ _ Hd)|]. rewrite u32_small by dlia.
  destruct (Z.ltb_spec (16 * i) (i_size x)) as [Hlt|Hge]; cbn [negb].
  2: { apply wp_ret. split_and!; try done. cbn [fst]. split; [|done]. intros _ j Hj. dlia. }
  assert (Hir : 0 <= i < i_size x / 16) by dlia.
  eapply wp_then; [by apply (read_entry g sbx Hsb devsw_read dp x v c m de i)|].
  intros [r m'] v' c' Hr0. cbn [fst snd] in Hr0. destruct Hr0 as (-> & -> & -> & Hin & _ & _).
  unfold sizeof_dirent at 1. cbn [Z.eqb Pos.eqb negb panic_if]. apply wp_bind, wp_ret. rewrite Hin.
  destruct (Z.eqb_spec (entry_inum v x i) 0) as [Hz|Hz]; cbn [negb].
  - unfold sizeof_dirent. rewrite s32_small by lia. replace (16 * i + 16) with (16 * (i + 1)) by lia.
    eapply wp_mono; [apply (IH m' (i + 1)); [done|lia|left; dlia|dlia|lia]| |done].
    intros r v' c' (-> & -> & Hr). split_and!; try done. rewrite Hr. split; intros H' j Hj; [|apply H'; lia].
    destruct (decide (j = i)) as [->|]; [done|apply H'; lia].
  - apply wp_ret. split_and!; try done. cbn [fst]. split; [done|]. intros H'. exfalso. apply Hz, H'. lia.
Qed.
Lemma isdirempty_spec dp x v c (m : memory) :
  dir_at g sbx dp x v c ->
  wp g (isdirempty devsw_read de dp m) v c
    (fun r v' c' => v' = v /\ c' = c /\ (r.1 = true <-> forall j, 2 <= j < i_size x / 16 -> entry_inum v x j = 0)) no_panic.
Proof.
  intros Hd. unfold isdirempty. apply (wp_the_inode g _ x); [apply (da_cached _ _ _ _ _ _ Hd)|].
  pose proof (proj1 (proj1 (da_holes _ _ _ _ _ _ Hd))). apply (isdirempty_loop_spec dp x v c (entries x) m 2); [done|lia|by right|..]; unfold entries, sizeof_dirent; dlia.
Qed.

(** What unlink leaves: [v'] and [c'] without the entry [i], and with one link fewer. *)
Record unlinked (ip : nat) x y v (i : Z) (v' : dview) (c' : fcore) : Prop := {
  ul_inode : icache c' !! ip = Some (set_i_nlink (i_nlink y - 1) y);
  ul_content : forall q, 0 <= q < i_size y -> content v' y q = content v y q;
  ul_entry : entry_inum v' x i = 0;
  ul_others : forall j, 0 <= j < i_size x / 16 -> j <> i -> entry_inum v' x j = entry_inum v x j /\ entry_name v' x j = entry_name v x j
}.

(** A directory a call has locked, apart from the file [y]. *)
Record locked_dir (dp : nat) x y v c : Prop := {
  ld_dir : dir_at g sbx dp x v c;
  ld_lock : i_lock x = mkSleep true (fs_pid c);
  ld_ref : 1 <= i_ref x;
  ld_nlink : i_nlink x <> 0 \/ i_ref x <> 1;
  ld_sb : sb c = sbx;
  ld_fs : fs_ok sbx v;
  ld_sep : forall a, owns v x a -> ~ owns v y a
}.

Lemma unlink_found_open dp ip x y v c (m : memory) i :
  locked_dir dp x y v c -> open_file ip y v c -> fits g sbx v 4 -> 0 <= i < i_size x / 16 ->
  wp g (unlink_found devsw_read devsw_write de ude dp ip m (16 * i)) v (set_inode ip (set_i_ref (i_ref y + 1) y) c)
    (fun r v' c' => r.1 = 0 /\ unlinked ip x y v i v' c') no_panic.
Proof.
  intros [Hd Hlock Hxr Hxn Hc Hf Hsep] O Hfit Hi. pose proof O as [Hy Hr Hl Hv Ht Hn Hin Hok Hho _].
  pose proof (da_cached _ _ _ _ _ _ Hd) as Hx. pose proof (da_type _ _ _ _ _ _ Hd) as Htx.
  assert (Hne : ip <> dp) by (intros ->; assert (x = y) as -> by congruence; congruence).
  unfold unlink_found. eapply wp_ilock; [by eapply set_inode_lookup|cbn; lia|by cbn; rewrite Hl|done|]. rewrite set_inode_twice.
  cbn [set_inode with_icache fs_pid]. set (y2 := set_i_lock (mkSleep true (fs_pid c)) _). set (c2 := set_inode ip y2 c).
  assert (Hy2 : icache c2 !! ip = Some y2) by (by eapply set_inode_lookup).
  assert (Hx2 : icache c2 !! dp = Some x) by (unfold c2; by rewrite set_inode_ne).
  eapply wp_the_inode; [exact Hy2|]. assert (Ht2 : i_type y2 = T_FILE) by done. assert (Hn2 : i_nlink y2 = i_nlink y) by done. rewrite Ht2, Hn2.
  rewrite (proj2 (Z.ltb_ge _ _)) by lia. cbn [panic_if]. apply wp_bind, wp_ret. change (T_FILE =? T_DIR) with false. cbv iota.
  apply wp_bind, wp_ret. cbn [negb]. set (m1 := memset m ude 0 sizeof_dirent).
  assert (Hd2 : dir_at g sbx dp x v c2) by (destruct Hd; by split).
  eapply wp_then; [eapply wp_mono; [apply (write_entry dp x v c2 m1 ude i Hd2 Hf); [by apply (fits_le g sbx v v 3 1); try lia|done]| |done]|].
  { intros r v' c' Hr'. exact Hr'. }
  intros r v' c' (-> & -> & Ev'). pose proof (cleared_entry dp x v c2 m1 ude i Hd2 Hf Hi) as W. rewrite <- Ev' in W.
  unfold sizeof_dirent at 1. cbn [Z.eqb Pos.eqb negb panic_if]. apply wp_bind, wp_ret. cbn [when]. apply wp_bind, wp_ret.
  eapply wp_iunlockput; [exact Hx2|done|done|done|]. set (x3 := set_i_ref _ _). set (c3 := set_inode dp x3 c2).
  assert (Hy3 : icache c3 !! ip = Some y2) by (unfold c3; by rewrite set_inode_ne).
  unfold add_nlink. apply wp_bind. eapply wp_upd_inode; [exact Hy3|]. rewrite Hn2. replace (s16 (i_nlink y + -1)) with (i_nlink y - 1) by (unfold s16; rewrite Z.mod_small; lia).
  set (y4 := set_i_nlink _ y2). set (c4 := set_inode ip y4 c3).
  assert (Hfit' : fits g sbx v' 2) by (by apply (fits_written g sbx _ _ _ 2 2 _ _ _ _ W)).
  assert (Hheld' : dv_held v' = ∅) by (rewrite Ev'; by destruct Hd).
  destruct (written_others g sbx Hsb _ _ _ _ _ _ _ _ y W Hok Hsep) as (Hok' & Hb' & _ & Hct').
  destruct (iblock_write g sbx Hsb v' (IBLOCK (i_inum y4) sbx) (store_dinode y4 (dv_data v' (IBLOCK (i_inum y4) sbx))) 1) as (_ & _ & _ & Hsame & _).
  { by apply (IBLOCK_bounds g sbx Hsb). } { apply (wr_fs _ _ _ _ _ _ _ _ _ W). }
  eapply (iupdate_spec g sbx Hsb ip y4); [exact Hc|by eapply set_inode_lookup|done|by apply (fits_le g sbx v' v' 1 1); try lia|done|].
  set (v2 := dv_write _ _ v') in *.
  eapply wp_iunlockput; [by eapply set_inode_lookup|cbn; lia|done|cbn; lia|]. apply wp_ret. split; [done|].
  destruct (entries_cleared dp x v c2 m1 ude i v' Hd2 Hi) as [Hz Hoth]; [|exact W|].
  { intros a Ha. unfold m1. rewrite memset_spec, decide_True by (unfold sizeof_dirent; lia). done. }
  destruct (Hsame x (wr_ok _ _ _ _ _ _ _ _ _ W)) as (_ & _ & Hcx). pose proof (da_holes _ _ _ _ _ _ Hd) as [Hxs Hxh].
  assert (Hx' : forall j, 0 <= j < i_size x / 16 -> entry_inum v2 x j = entry_inum v' x j /\ entry_name v2 x j = entry_name v' x j).
  { intros j Hj. pose proof (da_size _ _ _ _ _ _ Hd). apply entry_ext. intros k Hk. assert (0 <= k < i_size x) by dlia. apply Hcx; [lia|].
    rewrite (wr_kept _ _ _ _ _ _ _ _ _ W); [by apply Hxh|apply block_index; lia|by apply Hxh]. }
  split.
  - erewrite set_inode_lookup by (by eapply set_inode_lookup). f_equal. unfold y4, y2. destruct y. cbn in *. by rewrite Hl, Z.add_simpl_r.
  - destruct (Hsame y Hok') as (_ & _ & Hcy). destruct Hho as [Hys Hyh]. intros q Hq. rewrite Hcy, Hct' by (try lia; rewrite ?Hb'; by apply Hyh). done.
  - destruct (Hx' i Hi) as [-> _]. done.
  - intros j Hj Hji. destruct (Hx' j Hj) as [-> ->]. by apply Hoth.
Qed.

Lemma namecmp_zero (m : memory) p q : (namecmp m p q =? 0) = bool_decide (field_string m p 14 = field_string m q 14).
Proof.
  unfold namecmp, strncmp. change (Z.to_nat DIRSIZ) with 14%nat.
  destruct (Z.eqb_spec (strncmp_loop m p q 14) 0) as [E|E]; rewrite strncmp_loop_zero in E; [by rewrite bool_decide_true|by rewrite bool_decide_false].
Qed.

Lemma unlink_gives_up (dp : nat) x y v c (m : memory) (Q : Z * memory -> dview -> fcore -> Prop) E :
  locked_dir dp x y v c -> Q (-1, m) v (set_inode dp (set_i_ref (i_ref x - 1) (set_i_lock (mkSleep false 0) x)) c) ->
  wp g (iunlockput dp;; ret (-1, m)) v c Q E.
Proof. intros [Hd Hlock Hxr Hxn _ _ _] HQ. eapply wp_iunlockput; [by apply (da_cached _ _ _ _ _ _ Hd)|done..|]. by apply wp_ret. Qed.

(** C18: unlink of a name in a directory, for a file somebody has open. When the name is "." or
    ".." or is not in the directory, the call returns -1 and nothing on the disk or in the file
    changes. Otherwise it returns 0: from then on the directory maps the name to nothing and
    every other name to what it did, the file has one link fewer, is as referenced as before,
    and holds every byte it held. It does not panic. *)
Theorem unlink_keeps_open_file (dp ip : nat) x y v c (m : memory)
    (Hdir : locked_dir dp x y v c) (Hfile : open_file ip y v c) (Hfit : fits g sbx v 4)
    (Hdot : field_string m dot 14 = [46]) (Hdotdot : field_string m dotdot 14 = [46; 46])
    (Hdis : name + 14 <= de \/ de + 16 <= name)
    (Hname : forall k, dir_find v x (field_string m name 14) = Some k ->
       i_dev y = i_dev x /\ i_inum y = entry_inum v x (Z.of_nat k) /\
       forall j, 0 <= j < i_size x / 16 -> entry_is v x (field_string m name 14) j = true -> j = Z.of_nat k) :
  let s := field_string m name 14 in
  let refused := s = [46] \/ s = [46; 46] \/ dir_inum v x s = None in
  wp g (unlink_locked devsw_read devsw_write dot dotdot name de ude dp m) v c
    (fun r v' c' =>
       (refused -> r.1 = -1 /\ v' = v /\ icache c' !! ip = Some y) /\
       (~ refused -> r.1 = 0 /\ icache c' !! ip = Some (set_i_nlink (i_nlink y - 1) y) /\
          (forall q, 0 <= q < i_size y -> content v' y q = content v y q) /\
          forall t, dir_inum v' x t = if decide (t = s) then None else dir_inum v x t)) no_panic.
Proof.
  intros s refused. pose proof (ld_dir _ _ _ _ _ Hdir) as Hd. pose proof (of_cached _ _ _ _ Hfile) as Hy.
  assert (Hne : dp <> ip).
  { intros ->. pose proof (da_cached _ _ _ _ _ _ Hd). pose proof (da_type _ _ _ _ _ _ Hd). pose proof (of_type _ _ _ _ Hfile).
    assert (x = y) as -> by congruence. assert (T_DIR = T_FILE) by congruence. done. }
  unfold unlink_locked. rewrite !namecmp_zero, Hdot, Hdotdot. fold s.
  destruct (decide (s = [46] \/ s = [46; 46])) as [Hs|Hs].
  { assert (bool_decide (s = [46]) || bool_decide (s = [46; 46]) = true) as -> by (apply orb_true_iff; rewrite !bool_decide_eq_true; done).
    apply (unlink_gives_up dp x y); [done|]. split; [|unfold refused; tauto]. intros _. by rewrite set_inode_ne. }
  rewrite !bool_decide_false by tauto. cbn [orb]. apply wp_bind.
  eapply wp_mono; [apply (dirlookup_spec g sbx Hsb devsw_read dp x v c m name de Hd Hdis)| |].
  2: { intros msg (_ & k & Hk & Hno). destruct (Hname k Hk) as (E1 & E2 & _). destruct (Hno ip y Hy) as [_ Hno'].
       apply Hno'. pose proof (of_ref _ _ _ _ Hfile). split_and!; [lia|done..]. }
  fold s. intros [o m1] v' c' (-> & _ & Hr). cbn [fst snd] in Hr. destruct (dir_find v x s) as [k|] eqn:Ek.
  - destruct Hr as (ip' & -> & Hg). destruct (Hname k Ek) as (E1 & E2 & Huniq). rewrite <- E1, <- E2 in Hg.
    destruct (igot_open ip y v c ip' c' Hfile Hg) as [-> ->]. apply dir_find_Some in Ek as (Hk & Hek & _).
    eapply wp_mono; [apply (unlink_found_open dp ip x y v c m1 (Z.of_nat k) Hdir Hfile Hfit); lia| |done].
    intros r v' c' [Hr0 [U1 U2 U3 U4]]. split; [intros [?|[?|Hn]]; [tauto..|]|intros _].
    + exfalso. unfold dir_inum in Hn. assert (Hsome : is_Some (dir_find v x s)); [|destruct Hsome as [? E]; by rewrite E in Hn].
      destruct (dir_find v x s) eqn:E; [by eexists|]. rewrite dir_find_None in E. rewrite E in Hek by lia. done.
    + split_and!; try done. intros t. apply (dir_inum_remove v x v' (Z.of_nat k)); try done. lia.
  - destruct Hr as [-> ->]. apply (unlink_gives_up dp x y); [done|]. split; [intros _; by rewrite set_inode_ne|].
    intros Hnr. exfalso. apply Hnr. right. right. unfold dir_inum. by rewrite Ek.
Qed.
End Unlinking.
