(* ===== verification/FsDemo.v ===== *)
(** * FsDemo: a small file system on the log and the buffer cache, for the witnesses

    A disk of 1000 blocks, of which the file system uses 64: log in 2 to 31, inodes from 32,
    bitmap in 35, data from 36. Block 36 belongs to a file that exists already,
    block 37 to a directory with one entry, which names that file "a". *)

From S2P Require Import Prelude Memory Spinlock Cache Bio Log LogDemo Tx Fs Inode Dir DirSpec Sysfile Unlink.

Definition fs_sb : superblock := mkSb 64 28 16 30 2 32 35.
Definition bitmap36 : block := fun a => if a <? 4 then 255 else if a =? 4 then 63 else 0.
Definition fs_disk0 : Z -> block := fun n =>
  if n =? 35 then bitmap36 else if n =? 36 then store8 zero_block 0 77
  else if n =? 37 then store8 (store8 zero_block 0 5) 2 97 else zero_block.

Definition fs_log : logstate := mkLog 2 30 1 false 0 (replicate 30 0).
Definition fs_kernel : lstate bstate := mkL (binit (Z.to_nat NBUF) fs_disk0 1000 1) fs_log.
Definition fs_geo : geometry := log_geometry fs_kernel.
Definition fs_view : dview := mkD fs_disk0 ∅ ∅.

Lemma fs_log_ok : log_ok fs_kernel (demo_view fs_disk0).
Proof.
  split; cbn [fs_kernel fs_log lg lg_cache lh_n l_size l_start]; try done.
  - exact (binit_rep fs_disk0 1000 1).
  - split; cbn [fs_log l_start l_size lh_block]; try lia; [| |done].
    + change (cache_blocks (binit (Z.to_nat NBUF) fs_disk0 1000 1)) with 1000. lia.
    + change (cache_size (S := bstate)) with (Z.to_nat NBUF). unfold NBUF, MAXOPBLOCKS. lia.
  - constructor.
  - by intros n ?%elem_of_nil.
Qed.

Lemma fs_rep : disk_rep fs_geo fs_kernel fs_view.
Proof. exact (log_ok_tx fs_kernel (demo_view fs_disk0) fs_log_ok). Qed.

Lemma fs_sb_ok : sb_ok fs_geo fs_sb.
Proof. by split. Qed.

Lemma fs_fs_ok : fs_ok fs_sb fs_view.
Proof.
  split; [|by intros i n Hi].
  assert (Hall : forallb (used fs_sb fs_view) (seqZ 0 36) = true) by (vm_compute; reflexivity).
  intros m Hm. rewrite forallb_forall in Hall. apply Hall. apply list_elem_of_In, elem_of_seqZ. exact Hm.
Qed.

Lemma fs_footprint : footprint fs_sb fs_view = {[35]}.
Proof. unfold footprint, bitmap_set. vm_compute. reflexivity. Qed.

Lemma fs_fits k : (k <= 20)%nat -> fits fs_geo fs_sb fs_view k.
Proof.
  intros Hk. unfold fits. rewrite fs_footprint, size_singleton. change (g_room fs_geo) with 29%nat. change (g_bufs fs_geo) with 30%nat.
  change (size (dv_held fs_view)) with 0%nat. lia.
Qed.

Lemma fs_free : length (free_list fs_sb fs_view) = 26%nat.
Proof. vm_compute. reflexivity. Qed.

(** An empty file or directory, and the file with block 36. *)
Definition empty_inode (type inum : Z) : inode := mkInode 1 inum 1 (mkSleep true 1) true type 0 0 1 0 (replicate 13 0).
Definition other_inode : inode := mkInode 1 5 0 initsleeplock true T_FILE 0 0 1 100 (36 :: replicate 12 0).

Lemma empty_baddr type inum k : 0 <= k < MAXFILE -> baddr fs_view (empty_inode type inum) k = 0.
Proof.
  intros Hk. destruct (decide (k < NDIRECT)) as [Hd|Hd]; [|apply baddr_none; [lia|done]].
  rewrite baddr_direct by done. unfold nth_addr, empty_inode. cbn [i_addrs].
  rewrite lookup_replicate_2; [done|]. unfold NDIRECT in Hd. lia.
Qed.

Lemma empty_ok type inum : inode_ok fs_sb fs_view (empty_inode type inum).
Proof. split; try done; intros k *; intros; by rewrite empty_baddr in * by done. Qed.

Definition fs_core0 (type inum : Z) : fcore := mkCore fs_sb [empty_inode type inum] 1 0.

Lemma empty_file type inum : type <> T_DEV -> 0 <= inum < 16 -> file_at fs_sb 0 (empty_inode type inum) fs_view (fs_core0 type inum).
Proof.
  intros Ht Hi. split; try done; [apply empty_ok|apply fs_fs_ok|]. split; [done|]. intros k. simpl. lia.
Qed.

(** Inodes with one block. *)
Lemma one_baddr x a k : i_addrs x = a :: replicate 12 0 -> 0 <= k < MAXFILE -> baddr fs_view x k = if decide (k = 0) then a else 0.
Proof.
  intros Ha Hk. destruct (decide (k < NDIRECT)) as [Hd|Hd].
  - rewrite baddr_direct by done. unfold NDIRECT in Hd. unfold nth_addr. rewrite Ha.
    destruct (decide (k = 0)) as [->|Hne]; [done|]. replace (Z.to_nat k) with (S (Z.to_nat (k - 1))) by lia.
    change ((a :: replicate 12 0) !! S ?j) with (replicate 12 0 !! j). rewrite lookup_replicate_2; [done|lia].
  - assert (nth_addr x NDIRECT = 0) by (unfold nth_addr; by rewrite Ha).
    rewrite baddr_none by (lia || done). rewrite decide_False; [done|unfold NDIRECT in Hd; lia].
Qed.
Lemma one_ok x a : i_addrs x = a :: replicate 12 0 -> a = 36 \/ a = 37 -> inode_ok fs_sb fs_view x.
Proof.
  intros Ha Ha'. assert (Hn : nth_addr x NDIRECT = 0) by (unfold nth_addr; by rewrite Ha).
  split; rewrite ?Hn, ?Ha; try done.
  - intros k Hk. rewrite (one_baddr x a) by done. destruct (decide (k = 0)); [|done]. intros _. destruct Ha' as [-> | ->]; (split; [done|]); vm_compute; reflexivity.
  - intros k m Hk Hm. rewrite !(one_baddr x a) by done. destruct (decide (k = 0)), (decide (m = 0)); done || lia.
Qed.
Lemma one_owns x a n : i_addrs x = a :: replicate 12 0 -> owns fs_view x n -> n = a.
Proof.
  intros Ha [Hn [->|(k & Hk & ->)]].
  - destruct Hn. unfold nth_addr. by rewrite Ha.
  - rewrite (one_baddr x a) in * by done. by destruct (decide (k = 0)).
Qed.
Lemma other_ok : inode_ok fs_sb fs_view other_inode.
Proof. apply (one_ok _ 36); [done|by left]. Qed.

Definition no_dev : Z -> option (nat -> memory -> Z -> Z -> M (fstate (lstate bstate) fcore) (Z * memory)) := fun _ => None.
(** Bytes 1, 2, 3, ... (modulo 251) from address 1000 on. *)
Definition source : memory := fun a => (a - 999) mod 251.

(** 600 bytes are written to an empty file, over two blocks; 300 of them are read back. *)
Lemma write_then_read_witness :
  match (writei no_dev 0 source 1000 0 600;; readi no_dev 0 zero_block 2000 400 300) (mkF fs_kernel (fs_core0 T_FILE 3)) with
  | Ret r _ => r.1 = 200 /\ load8 r.2 2000 = 150 /\ load8 r.2 2199 = 98
  | _ => False
  end.
Proof.
  assert (Hn : T_FILE <> T_DEV) by discriminate.
  assert (Hi : 0 <= 3 < 16) by lia.
  pose proof (write_then_read fs_geo fs_sb fs_sb_ok no_dev no_dev 0 (empty_inode T_FILE 3) fs_view (fs_core0 T_FILE 3)
    source zero_block 1000 0 600 2000 400 300 2 (empty_file T_FILE 3 Hn Hi)) as Hw.
  cbn [i_size empty_inode] in Hw.
  specialize (Hw ltac:(lia) ltac:(lia) ltac:(vm_compute; discriminate) ltac:(vm_compute; discriminate) ltac:(vm_compute; lia)
    (fs_fits 5 ltac:(lia)) ltac:(lia) ltac:(lia) ltac:(lia) fs_kernel fs_rep).
  destruct ((writei _ _ _ _ _ _;; _) _) as [r s'|msg| |]; [|by rewrite fs_free in Hw; lia|done|done].
  destruct Hw as (v' & _ & Hr & Hget & _). change (300 `min` (0 `max` (0 + 600) - 400)) with 200 in Hr. rewrite Hr in Hget.
  split; [exact Hr|]. split.
  - change (load8 r.2 2000) with (load8 r.2 (2000 + (400 - 400))). rewrite Hget by lia. vm_compute. reflexivity.
  - change (load8 r.2 2199) with (load8 r.2 (2000 + (599 - 400))). rewrite Hget by lia. vm_compute. reflexivity.
Defined.

(** Writing the new file leaves the byte 77 of the other one alone. *)
Lemma writei_keeps_others_witness :
  match writei no_dev 0 source 1000 0 600 (mkF fs_kernel (fs_core0 T_FILE 3)) with
  | Ret _ s => exists v', disk_rep fs_geo (fs_disk s) v' /\ content v' other_inode 0 = 77
  | _ => False
  end.
Proof.
  assert (Hn : T_FILE <> T_DEV) by discriminate.
  assert (Hi : 0 <= 3 < 16) by lia.
  assert (Hsep : forall a, owns fs_view (empty_inode T_FILE 3) a -> ~ owns fs_view other_inode a).
  { intros a [Ha [->|(k & Hk & ->)]]; [by destruct Ha|]. rewrite empty_baddr in Ha by done. done. }
  pose proof (writei_keeps_others fs_geo fs_sb fs_sb_ok no_dev 0 (empty_inode T_FILE 3) other_inode fs_view (fs_core0 T_FILE 3)
    source 1000 0 600 2 (empty_file T_FILE 3 Hn Hi)) as Hw.
  cbn [i_size empty_inode] in Hw.
  specialize (Hw ltac:(lia) ltac:(lia) ltac:(vm_compute; discriminate) ltac:(vm_compute; discriminate) ltac:(vm_compute; lia)
    (fs_fits 5 ltac:(lia)) other_ok Hsep fs_kernel fs_rep).
  destruct (writei _ _ _ _ _ _ _) as [r s'|msg| |]; [|by rewrite fs_free in Hw; lia|done|done].
  destruct Hw as (v' & Hv & x' & _ & _ & _ & _ & Hc). exists v'. split; [exact Hv|]. rewrite Hc; [reflexivity|vm_compute; split; [discriminate|reflexivity]|].
  vm_compute. discriminate.
Defined.

Lemma filewrite_chunk_bound_witness :
  match writei no_dev 0 source 1000 0 1536 (mkF fs_kernel (fs_core0 T_FILE 3)) with
  | Ret r s => r.1 = 1536 /\ exists v', disk_rep fs_geo (fs_disk s) v' /\ (size (dv_logged v') <= 10)%nat
  | Panic msg => msg = "balloc: out of blocks"
  | _ => False
  end.
Proof.
  assert (Hn : T_FILE <> T_DEV) by discriminate.
  assert (Hi : 0 <= 3 < 16) by lia.
  pose proof (filewrite_chunk_bound fs_geo fs_sb fs_sb_ok no_dev 0 (empty_inode T_FILE 3) fs_view (fs_core0 T_FILE 3)
    source 1000 0 1536 (empty_file T_FILE 3 Hn Hi)) as Hw.
  cbn [i_size empty_inode] in Hw.
  specialize (Hw ltac:(lia) ltac:(vm_compute; split; discriminate) ltac:(vm_compute; discriminate) eq_refl (fs_fits 9 ltac:(lia)) fs_kernel fs_rep).
  destruct (writei _ _ _ _ _ _ _) as [r s'|msg| |]; [|exact Hw|done|done].
  destruct Hw as (v' & Hv & -> & Hs). split; [reflexivity|]. exists v'. split; [exact Hv|]. exact Hs.
Defined.

(** A name is added to an empty directory. *)
Definition demo_name : memory := fun a => if a =? 500 then 97 else if a =? 501 then 98 else 0.
Lemma dirlink_adds_name_witness :
  match dirlink no_dev no_dev 0 demo_name 500 600 5 (mkF fs_kernel (fs_core0 T_DIR 1)) with
  | Ret r s => r.1 = 0 /\ exists v' x', disk_rep fs_geo (fs_disk s) v' /\ dir_inum v' x' [97; 98] = Some 5 /\ dir_inum v' x' [97] = None
  | _ => False
  end.
Proof.
  assert (Hn : T_DIR <> T_DEV) by discriminate.
  assert (Hi : 0 <= 1 < 16) by lia.
  pose proof (dirlink_adds_name fs_geo fs_sb fs_sb_ok no_dev no_dev 0 (empty_inode T_DIR 1) fs_view (fs_core0 T_DIR 1)
    demo_name 500 600 5 (empty_file T_DIR 1 Hn Hi) eq_refl eq_refl) as Hw.
  cbn [i_size empty_inode] in Hw.
  specialize (Hw ltac:(vm_compute; discriminate) (fs_fits 3 ltac:(lia)) ltac:(lia) ltac:(lia) eq_refl fs_kernel fs_rep).
  destruct (dirlink _ _ _ _ _ _ _ _) as [r s'|msg| |]; [|by rewrite fs_free in Hw; lia|done|done].
  destruct Hw as (v' & Hv & -> & x' & _ & _ & _ & Hd). split; [reflexivity|]. exists v', x'. split; [exact Hv|].
  split; rewrite Hd; reflexivity.
Defined.

Lemma balloc_takes_lowest_witness :
  exists s, balloc (mkF fs_kernel (fs_core0 T_FILE 3)) = Ret 38 s.
Proof.
  pose proof (balloc_takes_lowest fs_geo fs_sb fs_sb_ok fs_kernel fs_view (fs_core0 T_FILE 3) fs_rep eq_refl fs_fs_ok (fs_fits 1 ltac:(lia))) as Hb.
  assert (E : exists l, free_list fs_sb fs_view = 38 :: l) by (vm_compute; by eexists). destruct E as (l & E). rewrite E in Hb.
  destruct Hb as (d' & v' & Hb & _). eexists. exact Hb.
Defined.

(** Unlinking "a" while the file is open. *)
Definition demo_dir : inode := mkInode 1 1 1 (mkSleep true 1) true T_DIR 0 0 1 16 (37 :: replicate 12 0).
Definition opened_inode : inode := set_i_ref 1 other_inode.
Definition unlink_core : fcore := mkCore fs_sb [demo_dir; opened_inode] 1 0.
(** "a" at 500, "." at 700 and ".." at 710. *)
Definition unlink_memory : memory := store8 (store8 (store8 (store8 zero_block 500 97) 700 46) 710 46) 711 46.

Lemma demo_locked : locked_dir fs_geo fs_sb 0 demo_dir opened_inode fs_view unlink_core.
Proof.
  split; try done; [split; try done|..].
  - apply (one_ok _ 37); [done|by right].
  - split; [vm_compute; split; discriminate|]. intros k Hk. change (i_size demo_dir) with 16 in Hk.
    rewrite (one_baddr demo_dir 37), decide_True; [done|unfold BSIZE; dlia|done|rewrite MAXFILE_eq; unfold BSIZE; dlia].
  - change (size (dv_logged fs_view)) with 0%nat. change (g_bufs fs_geo) with 30%nat. lia.
  - by left.
  - apply fs_fs_ok.
  - intros a Ha%(one_owns _ 37) Hb%(one_owns _ 36); [congruence|done..].
Qed.
Lemma demo_opened : open_file fs_sb 1 opened_inode fs_view unlink_core.
Proof.
  split; try done.
  - apply (one_ok _ 36); [done|by left].
  - split; [vm_compute; split; discriminate|]. intros k Hk. change (i_size opened_inode) with 100 in Hk.
    rewrite (one_baddr opened_inode 36), decide_True; [done|unfold BSIZE; dlia|done|rewrite MAXFILE_eq; unfold BSIZE; dlia].
  - intros [|[|j]] z Hz; [by injection Hz as <-|done|done].
Qed.
Lemma unlink_keeps_open_file_witness :
  match unlink_locked no_dev no_dev 700 710 500 600 650 0 unlink_memory (mkF fs_kernel unlink_core) with
  | Ret r s => r.1 = 0 /\ exists v', disk_rep fs_geo (fs_disk s) v' /\ content v' opened_inode 0 = 77 /\ dir_inum v' demo_dir [97] = None
  | _ => False
  end.
Proof.
  pose proof (unlink_keeps_open_file fs_geo fs_sb fs_sb_ok no_dev no_dev 500 600 650 700 710 0 1 demo_dir opened_inode fs_view unlink_core unlink_memory
    demo_locked demo_opened (fs_fits 4 ltac:(lia)) eq_refl eq_refl ltac:(lia)) as Hw.
  assert (Hk : dir_find fs_view demo_dir (field_string unlink_memory 500 14) = Some 0%nat) by (vm_compute; reflexivity).
  assert (Hi : dir_inum fs_view demo_dir [97] = Some 5) by (vm_compute; reflexivity).
  change (field_string unlink_memory 500 14) with [97] in *. rewrite Hk in Hw.
  assert (Hn : forall k, Some 0%nat = Some k -> i_dev opened_inode = i_dev demo_dir /\ i_inum opened_inode = entry_inum fs_view demo_dir (Z.of_nat k) /\
    forall j, 0 <= j < i_size demo_dir / 16 -> entry_is fs_view demo_dir [97] j = true -> j = Z.of_nat k).
  { intros k E. injection E as <-. split; [done|]. split; [vm_compute; reflexivity|]. intros j Hj _. change (i_size demo_dir / 16) with 1 in Hj. lia. }
  specialize (Hw Hn fs_kernel fs_rep). cbv zeta in Hw.
  destruct (unlink_locked _ _ _ _ _ _ _ _ _ _) as [r s'|msg| |]; [|done|done|done].
  destruct Hw as (v' & Hv & _ & Hok). destruct Hok as (Hr & _ & Hc & Hd).
  { rewrite Hi. intros [E|[E|E]]; discriminate. }
  split; [exact Hr|]. exists v'. split; [exact Hv|]. split; [rewrite Hc by (change (i_size opened_inode) with 100; lia); vm_compute; reflexivity|].
  by rewrite Hd, decide_True.
Defined.
