(* ===== verification/Airport.v ===== *)
(** * Airport: passengers at kiosks, belts and the VIP channel (offline_2/offline.cpp, helper.h)

    Every passenger is a thread that executes the body of [Passenger::simulate]. A method is the
    list of its accesses to shared state, in order; printing and sleeping are steps without
    effect. [x++] reads and then writes its variable, and a test reads it again. Threads
    interleave at every access. A semaphore counts; a mutex is taken or not, and may be given
    back by another thread than the one that took it, as the code does with VIP_LR_mutex and
    VIP_RL_mutex. The clock, the log file and what main does around the threads' lifetime are
    not modelled. *)

From Stdlib Require Import ZifyBool.
From S2P Require Import Prelude.

Inductive sem : Type := check_in_empty | sec_check_empty | belt_empty.
Inductive mutex : Type :=
  | boarding_mutex | check_in_count_mutex | belts_count_mutex | VIP_LR_mutex | VIP_RL_mutex
  | VIP_waiting_mutex | VIP_priority_mutex | special_kiosk_mutex.
Inductive counter : Type := check_in_count | belts_count | VIP_LR_count | VIP_RL_count | VIP_LR_waiting.
Inductive slots : Type := kiosks | belts.
#[export] Instance sem_eq_dec : EqDecision sem.
Proof. solve_decision. Defined.
#[export] Instance mutex_eq_dec : EqDecision mutex.
Proof. solve_decision. Defined.
#[export] Instance counter_eq_dec : EqDecision counter.
Proof. solve_decision. Defined.
#[export] Instance slots_eq_dec : EqDecision slots.
Proof. solve_decision. Defined.

Inductive instr : Type :=
  | SemWait (s : sem)
  | SemPost (s : sem)
  | Lock (m : mutex)
  | Unlock (m : mutex)
  | Load (v : counter)
  | Store (v : counter) (k : Z)
  | LockIf (n : Z) (m : mutex)
  | UnlockIf (n : Z) (m : mutex)
  | WaitIfFull (k : Z) (s : sem)
  | PostIfFull (k : Z) (s : sem)
  | GetIdx (a : slots)
  | SetSlot (a : slots) (b : bool)
  | Say
  | Sleep.

(** [v++], [v--], and [if(v == n)] before a lock or an unlock. *)
Definition incr (v : counter) : list instr := [Load v; Store v 1].
Definition decr (v : counter) : list instr := [Load v; Store v (-1)].
Definition lock_if (v : counter) (n : Z) (m : mutex) : list instr := [Load v; LockIf n m].
Definition unlock_if (v : counter) (n : Z) (m : mutex) : list instr := [Load v; UnlockIf n m].

Definition check_in : list instr :=
  [Say; SemWait check_in_empty; Lock check_in_count_mutex] ++ incr check_in_count ++
  [GetIdx kiosks; SetSlot kiosks true; Say; Unlock check_in_count_mutex; Sleep; Lock check_in_count_mutex] ++
  decr check_in_count ++
  [SetSlot kiosks false; Say; Unlock check_in_count_mutex; SemPost check_in_empty].

Definition security_check : list instr :=
  [Say; SemWait belt_empty; Lock belts_count_mutex] ++ incr belts_count ++
  [GetIdx belts; SetSlot belts true; Say; Load belts_count; WaitIfFull 0 sec_check_empty; Unlock belts_count_mutex;
   Sleep; Say; Lock belts_count_mutex] ++ decr belts_count ++
  [SetSlot belts false; Load belts_count; PostIfFull 1 sec_check_empty; Unlock belts_count_mutex; SemPost belt_empty].

Definition special_kiosk : list instr := [Say; Lock special_kiosk_mutex; Say; Sleep; Say; Unlock special_kiosk_mutex].

Definition VIP_channel_LR : list instr :=
  [Lock VIP_waiting_mutex] ++ incr VIP_LR_waiting ++ lock_if VIP_LR_waiting 1 VIP_priority_mutex ++
  [Unlock VIP_waiting_mutex; Say; Lock VIP_LR_mutex] ++
  decr VIP_LR_waiting ++ unlock_if VIP_LR_waiting 0 VIP_priority_mutex ++
  incr VIP_LR_count ++ lock_if VIP_LR_count 1 VIP_RL_mutex ++
  [Unlock VIP_LR_mutex; Say; Sleep; Say; Lock VIP_LR_mutex] ++
  decr VIP_LR_count ++ unlock_if VIP_LR_count 0 VIP_RL_mutex ++ [Unlock VIP_LR_mutex].

Definition VIP_channel_RL : list instr :=
  [Say; Lock VIP_priority_mutex; Unlock VIP_priority_mutex; Lock VIP_RL_mutex] ++
  incr VIP_RL_count ++ lock_if VIP_RL_count 1 VIP_LR_mutex ++
  [Unlock VIP_RL_mutex; Say; Sleep; Say; Lock VIP_RL_mutex] ++
  decr VIP_RL_count ++ unlock_if VIP_RL_count 0 VIP_LR_mutex ++ [Unlock VIP_RL_mutex].

Definition board : list instr := [Say; Lock boarding_mutex; Say; Sleep; Say; Unlock boarding_mutex].

Inductive method : Type := CheckIn | Security | Special | LR | RL | Board | Gone.
#[export] Instance method_eq_dec : EqDecision method.
Proof. solve_decision. Defined.
Definition code (m : method) : list instr :=
  match m with
  | CheckIn => check_in | Security => security_check | Special => special_kiosk
  | LR => VIP_channel_LR | RL => VIP_channel_RL | Board => board | Gone => []
  end.

(** A thread: the method it is in and the next access there, the value it read last, and
    [assigned_kiosk] or [assigned_belt]. *)
Record passenger : Type := mkP { vip : bool; meth : method; pc : nat; reg : Z; assigned : Z }.

Record shared : Type := mkSh {
  sems : sem -> Z;
  taken : mutex -> bool;
  counts : counter -> Z;
  busy : slots -> list bool
}.
Record airport : Type := mkA { sh : shared; people : list passenger }.

Definition set_at {A B : Type} `{EqDecision A} (f : A -> B) (a : A) (b : B) : A -> B := fun x => if decide (x = a) then b else f x.
Definition set_sem s n (x : shared) : shared := mkSh (set_at (sems x) s n) (taken x) (counts x) (busy x).
Definition set_taken m b (x : shared) : shared := mkSh (sems x) (set_at (taken x) m b) (counts x) (busy x).
Definition set_count v n (x : shared) : shared := mkSh (sems x) (taken x) (set_at (counts x) v n) (busy x).
Definition set_busy a l (x : shared) : shared := mkSh (sems x) (taken x) (counts x) (set_at (busy x) a l).

(** get_idx of helper.h: std::find, or -1. *)
Definition get_idx (l : list bool) (elem : bool) : Z :=
  match find_index (fun b => Bool.eqb b elem) l with Some i => Z.of_nat i | None => -1 end.

Inductive effect : Type :=
  | Goes (x : shared) (p : passenger)
  | Blocks
  | Crashes.

Section Airport.
(** Kiosks, belts, and passengers per belt. *)
Context (nkiosks nbelts passenger_per_belt : nat).

Definition sem_wait (s : sem) (x : shared) (p : passenger) : effect :=
  if 0 <? sems x s then Goes (set_sem s (sems x s - 1) x) p else Blocks.
Definition lock (m : mutex) (x : shared) (p : passenger) : effect :=
  if taken x m then Blocks else Goes (set_taken m true x) p.

(** One access; the division by passenger_per_belt and the index -1 crash. *)
Definition exec (i : instr) (x : shared) (p : passenger) : effect :=
  match i with
  | SemWait s => sem_wait s x p
  | SemPost s => Goes (set_sem s (sems x s + 1) x) p
  | Lock m => lock m x p
  | Unlock m => Goes (set_taken m false x) p
  | Load v => Goes x (mkP (vip p) (meth p) (pc p) (counts x v) (assigned p))
  | Store v k => Goes (set_count v (reg p + k) x) p
  | LockIf n m => if reg p =? n then lock m x p else Goes x p
  | UnlockIf n m => if reg p =? n then Goes (set_taken m false x) p else Goes x p
  | WaitIfFull k s =>
      if Z.of_nat passenger_per_belt =? 0 then Crashes
      else if (reg p + k) mod Z.of_nat passenger_per_belt =? 0 then sem_wait s x p else Goes x p
  | PostIfFull k s =>
      if Z.of_nat passenger_per_belt =? 0 then Crashes
      else if (reg p + k) mod Z.of_nat passenger_per_belt =? 0 then Goes (set_sem s (sems x s + 1) x) p else Goes x p
  | GetIdx a => Goes x (mkP (vip p) (meth p) (pc p) (reg p) (get_idx (busy x a) false))
  | SetSlot a b =>
      if (0 <=? assigned p) && (assigned p <? Z.of_nat (length (busy x a)))
      then Goes (set_busy a (<[Z.to_nat (assigned p) := b]> (busy x a)) x) p
      else Crashes
  | Say | Sleep => Goes x p
  end.

(** simulate: the method after [p]'s, given whether the boarding pass is found lost. *)
Definition simulate (p : passenger) (lost : bool) : method :=
  match meth p with
  | CheckIn => if vip p then LR else Security
  | Security | LR => if lost then RL else Board
  | RL => Special
  | Special => LR
  | Board | Gone => Gone
  end.

(** What can happen next: a passenger arrives, or passenger [i] takes its next step. *)
Inductive event : Type :=
  | Arrive (v : bool)
  | Run (i : nat) (lost : bool).

Definition do_event (e : event) (s : airport) : option airport :=
  match e with
  | Arrive v => Some (mkA (sh s) (people s ++ [mkP v CheckIn 0 0 0]))
  | Run i lost =>
      p ← people s !! i;
      match code (meth p) !! pc p with
      | Some ins =>
          match exec ins (sh s) p with
          | Goes x p' => Some (mkA x (<[i := mkP (vip p') (meth p') (S (pc p')) (reg p') (assigned p')]> (people s)))
          | _ => None
          end
      | None =>
          if decide (meth p = Gone) then None
          else Some (mkA (sh s) (<[i := mkP (vip p) (simulate p lost) 0 (reg p) (assigned p)]> (people s)))
      end
  end.

Definition init : airport :=
  mkA (mkSh (fun s => match s with check_in_empty => Z.of_nat nkiosks | sec_check_empty => Z.of_nat nbelts
                          | belt_empty => Z.of_nat (nbelts * passenger_per_belt) end)
         (fun _ => false) (fun _ => 0)
         (fun a => match a with kiosks => replicate nkiosks false | belts => replicate (nbelts * passenger_per_belt) false end)) [].

Definition step (s s' : airport) : Prop := exists e, do_event e s = Some s'.
Definition reachable (s : airport) : Prop := rtc step init s.

Fixpoint run (es : list event) (s : airport) : option airport :=
  match es with [] => Some s | e :: es => s' ← do_event e s; run es s' end.

Lemma run_steps es : forall s s', run es s = Some s' -> rtc step s s'.
Proof.
  induction es as [|e es IH]; intros s s' E; simpl in E; [injection E as ->; apply rtc_refl|].
  destruct (do_event e s) as [s1|] eqn:E1; [|done]. eapply rtc_l; [by exists e|by apply IH].
Qed.
End Airport.

(** ** Counting passengers *)

Abbreviation b2z := Z.b2z.
Definition total (f : passenger -> Z) (l : list passenger) : Z := sum_list_Z (map f l).

Lemma total_app f l1 l2 : total f (l1 ++ l2) = total f l1 + total f l2.
Proof. unfold total. by rewrite map_app, sum_list_Z_app. Qed.
Lemma total_insert f l : forall i p q, l !! i = Some p -> total f (<[i := q]> l) = total f l - f p + f q.
Proof.
  induction l as [|x l IH]; intros [|i] p q Hi; try done; unfold total in *; simpl in *.
  - injection Hi as ->. lia.
  - rewrite (IH _ p) by done. lia.
Qed.

(** [p] is in method [m], about to make one of the accesses number [a] to [b]. *)
Definition within (m : method) (a b : nat) (p : passenger) : Z :=
  if decide (meth p = m) then b2z ((a <=? pc p) && (pc p <=? b))%nat else 0.

Lemma within_range m a b p : 0 <= within m a b p <= 1.
Proof. unfold within. destruct (decide _); lia. Qed.

Lemma total_nonneg f l : (forall p, 0 <= f p) -> 0 <= total f l.
Proof. intros Hf. induction l as [|p l IH]; unfold total in *; simpl; [lia|]. pose proof (Hf p). lia. Qed.
Lemma total_ge1 f l i p : (forall p, 0 <= f p) -> l !! i = Some p -> f p <= total f l.
Proof.
  intros Hf. revert i. induction l as [|x l IH]; intros [|i] Hi; try done; unfold total in *; simpl in *.
  - injection Hi as ->. pose proof (total_nonneg f l Hf). unfold total in *. lia.
  - pose proof (Hf x). pose proof (IH i Hi). lia.
Qed.
Lemma total_ge2 f l i j p q : (forall p, 0 <= f p) -> i <> j -> l !! i = Some p -> l !! j = Some q -> f p + f q <= total f l.
Proof.
  intros Hf. revert i j. induction l as [|x l IH]; intros [|i] [|j] Hij Hi Hj; try done; unfold total in *; simpl in *.
  - injection Hi as ->. pose proof (total_ge1 f l j q Hf Hj). unfold total in *. lia.
  - injection Hj as ->. pose proof (total_ge1 f l i p Hf Hi). unfold total in *. lia.
  - pose proof (Hf x). pose proof (IH i j ltac:(lia) Hi Hj). lia.
Qed.
Lemma total_le f h l : (forall p, f p <= h p) -> total f l <= total h l.
Proof. intros Hf. induction l as [|x l IH]; unfold total in *; simpl; [lia|]. pose proof (Hf x). lia. Qed.
Lemma total_plus f h l : total (fun p => f p + h p) l = total f l + total h l.
Proof. induction l as [|x l IH]; unfold total in *; simpl; lia. Qed.

(** ** The VIP channel is used in one direction at a time *)

(** Inside VIP_channel_LR: holding VIP_LR_mutex; counted in VIP_LR_count; counted but not yet
    past the lock of VIP_RL_mutex; no longer counted and not yet past its unlock. *)
Definition secL (p : passenger) : Z := within LR 8 16 p + within LR 21 25 p.
Definition cntL : passenger -> Z := within LR 14 22.
Definition pendL : passenger -> Z := within LR 14 15.
Definition relL : passenger -> Z := within LR 23 24.
(** About to use the value of VIP_LR_count it has read. *)
Definition readL (p : passenger) : Z := within LR 13 13 p + within LR 15 15 p + within LR 22 22 p + within LR 24 24 p.
(** The same in VIP_channel_RL. *)
Definition secR (p : passenger) : Z := within RL 4 8 p + within RL 13 17 p.
Definition cntR : passenger -> Z := within RL 6 14.
Definition pendR : passenger -> Z := within RL 6 7.
Definition relR : passenger -> Z := within RL 15 16.
Definition readR (p : passenger) : Z := within RL 5 5 p + within RL 7 7 p + within RL 14 14 p + within RL 16 16 p.

(** Whether the passengers of one direction hold the other direction's mutex as a group: from
    the first one's lock to the last one's unlock. *)
Definition group (pend rel c : Z) : Z := if pend =? 0 then b2z (1 <=? c + rel) else b2z (2 <=? c).

Lemma group_range pend rel c : 0 <= group pend rel c <= 1.
Proof. unfold group. destruct (pend =? 0), (1 <=? c + rel), (2 <=? c); simpl; lia. Qed.

Definition groupL (s : airport) : Z := group (total pendL (people s)) (total relL (people s)) (counts (sh s) VIP_LR_count).
Definition groupR (s : airport) : Z := group (total pendR (people s)) (total relR (people s)) (counts (sh s) VIP_RL_count).

Record vip_inv (s : airport) : Prop := {
  vi_LR : b2z (taken (sh s) VIP_LR_mutex) = total secL (people s) + groupR s;
  vi_RL : b2z (taken (sh s) VIP_RL_mutex) = total secR (people s) + groupL s;
  vi_cL : counts (sh s) VIP_LR_count = total cntL (people s);
  vi_cR : counts (sh s) VIP_RL_count = total cntR (people s);
  vi_one : groupL s + groupR s <= 1;
  vi_readL : forall i p, people s !! i = Some p -> readL p = 1 -> reg p = counts (sh s) VIP_LR_count;
  vi_readR : forall i p, people s !! i = Some p -> readR p = 1 -> reg p = counts (sh s) VIP_RL_count
}.

(** What the weights of one passenger have to do with each other. *)
Ltac by_place p := unfold secL, cntL, pendL, relL, readL, secR, cntR, pendR, relR, readR, within;
  destruct (decide (meth p = LR)), (decide (meth p = RL)); try congruence; lia.

Lemma place_L p : 0 <= secL p <= 1 /\ 0 <= cntL p /\ 0 <= pendL p /\ 0 <= relL p /\ pendL p + relL p <= secL p /\ pendL p <= cntL p /\ readL p <= secL p.
Proof. split_and!; by_place p. Qed.
Lemma place_R p : 0 <= secR p <= 1 /\ 0 <= cntR p /\ 0 <= pendR p /\ 0 <= relR p /\ pendR p + relR p <= secR p /\ pendR p <= cntR p /\ readR p <= secR p.
Proof. split_and!; by_place p. Qed.

Lemma totals_L l :
  0 <= total secL l /\ 0 <= total cntL l /\ 0 <= total pendL l /\ 0 <= total relL l /\
  total pendL l + total relL l <= total secL l /\ total pendL l <= total cntL l.
Proof.
  split_and!; try (apply total_nonneg; intros p; apply place_L); [|apply total_le; intros p; apply place_L].
  rewrite <- total_plus. apply total_le. intros p. apply place_L.
Qed.
Lemma totals_R l :
  0 <= total secR l /\ 0 <= total cntR l /\ 0 <= total pendR l /\ 0 <= total relR l /\
  total pendR l + total relR l <= total secR l /\ total pendR l <= total cntR l.
Proof.
  split_and!; try (apply total_nonneg; intros p; apply place_R); [|apply total_le; intros p; apply place_R].
  rewrite <- total_plus. apply total_le. intros p. apply place_R.
Qed.

(** Evaluates the weights of a passenger at a known place. *)
Ltac weigh_at p :=
  repeat match goal with
  | |- context [?f p] =>
      match f with
      | secL => idtac | cntL => idtac | pendL => idtac | relL => idtac | readL => idtac
      | secR => idtac | cntR => idtac | pendR => idtac | relR => idtac | readR => idtac
      end;
      let w := eval vm_compute in (f p) in change (f p) with w
  end.

Section VipStep.
Context (s : airport) (i : nat) (p q : passenger) (x : shared) (I : vip_inv s) (Hp : people s !! i = Some p).

(** What a step has to show: the shared variables of the channel follow the weights, the values
    read by the stepping passenger are current, and the counters change only under their
    mutex. *)
Lemma vip_inv_update :
  let gL := group (total pendL (people s) - pendL p + pendL q) (total relL (people s) - relL p + relL q) (counts x VIP_LR_count) in
  let gR := group (total pendR (people s) - pendR p + pendR q) (total relR (people s) - relR p + relR q) (counts x VIP_RL_count) in
  b2z (taken x VIP_LR_mutex) = total secL (people s) - secL p + secL q + gR ->
  b2z (taken x VIP_RL_mutex) = total secR (people s) - secR p + secR q + gL ->
  counts x VIP_LR_count = counts (sh s) VIP_LR_count - cntL p + cntL q ->
  counts x VIP_RL_count = counts (sh s) VIP_RL_count - cntR p + cntR q ->
  gL + gR <= 1 ->
  (readL q = 1 -> reg q = counts x VIP_LR_count) -> (readR q = 1 -> reg q = counts x VIP_RL_count) ->
  (cntL q <> cntL p -> secL p = 1) -> (cntR q <> cntR p -> secR p = 1) ->
  vip_inv (mkA x (<[i := q]> (people s))).
Proof.
  intros gL gR HL HR HcL HcR Hone HrL HrR HmL HmR. destruct I as [iL iR icL icR ione irL irR].
  assert (EL : groupL (mkA x (<[i := q]> (people s))) = gL) by (unfold groupL; simpl; by rewrite !(total_insert _ _ i p q Hp)).
  assert (ER : groupR (mkA x (<[i := q]> (people s))) = gR) by (unfold groupR; simpl; by rewrite !(total_insert _ _ i p q Hp)).
  pose proof (group_range (total pendL (people s)) (total relL (people s)) (counts (sh s) VIP_LR_count)) as gb1. fold (groupL s) in gb1.
  pose proof (group_range (total pendR (people s)) (total relR (people s)) (counts (sh s) VIP_RL_count)) as gb2. fold (groupR s) in gb2.
  split; rewrite ?EL, ?ER; cbn [sh people]; rewrite ?(total_insert _ _ i p q Hp); try done; try lia.
  - intros j y [(<- & <- & _)|[Hne Hy]]%list_lookup_insert_Some; [done|]. intros Hr.
    destruct (decide (cntL q = cntL p)) as [E|E]; [rewrite (irL j y) by done; lia|].
    pose proof (total_ge2 secL (people s) i j p y ltac:(intros r; apply place_L) Hne Hp Hy). specialize (HmL E).
    pose proof (place_L y). lia.
  - intros j y [(<- & <- & _)|[Hne Hy]]%list_lookup_insert_Some; [done|]. intros Hr.
    destruct (decide (cntR q = cntR p)) as [E|E]; [rewrite (irR j y) by done; lia|].
    pose proof (total_ge2 secR (people s) i j p y ltac:(intros r; apply place_R) Hne Hp Hy). specialize (HmR E).
    pose proof (place_R y). lia.
Qed.
End VipStep.

(** Reads and writes of the shared state at known names. *)
Ltac at_names := unfold set_taken, set_count, set_sem, set_busy, set_at; cbn [taken counts sems busy];
  repeat (first [rewrite decide_False by discriminate | rewrite decide_True by reflexivity]).

(** The weights of the others. *)
Lemma total_delete f l : forall i p, l !! i = Some p -> total f (delete i l) = total f l - f p.
Proof.
  induction l as [|x l IH]; intros [|i] p Hi; try done; unfold total in *; simpl in *.
  - injection Hi as ->. lia.
  - rewrite (IH _ p) by done. lia.
Qed.
Lemma others_L l i p : l !! i = Some p ->
  let o f := total f l - f p in
  0 <= o secL /\ 0 <= o cntL /\ 0 <= o pendL /\ 0 <= o relL /\ o pendL + o relL <= o secL /\ o pendL <= o cntL.
Proof. intros Hp o. unfold o. rewrite <- !(total_delete _ l i p Hp). apply totals_L. Qed.
Lemma others_R l i p : l !! i = Some p ->
  let o f := total f l - f p in
  0 <= o secR /\ 0 <= o cntR /\ 0 <= o pendR /\ 0 <= o relR /\ o pendR + o relR <= o secR /\ o pendR <= o cntR.
Proof. intros Hp o. unfold o. rewrite <- !(total_delete _ l i p Hp). apply totals_R. Qed.

(** The arithmetic left: nothing to do where the step leaves a variable alone; otherwise the
    other direction's group is unchanged and this direction's is known by cases. *)
Ltac vip_arith g :=
  rewrite ?Z.sub_0_r, ?Z.add_0_r; intros; cbn [Z.b2z] in *;
  try first [assumption | discriminate | congruence];
  repeat match goal with
  | H : context [group (total g ?l) ?b ?c] |- _ =>
      let h := fresh "h" in set (h := group (total g l) b c) in *; pose proof (group_range (total g l) b c : 0 <= h <= 1); clearbody h
  end;
  unfold group in *;
  repeat match goal with
  | |- context [?a =? 0] => destruct (Z.eqb_spec a 0)
  | H : context [?a =? 0] |- _ => destruct (Z.eqb_spec a 0)
  | |- context [?a <=? ?b] => destruct (Z.leb_spec a b)
  | H : context [?a <=? ?b] |- _ => destruct (Z.leb_spec a b)
  end; cbn [Z.b2z] in *; lia.

Ltac vip_case :=
  match goal with
  | I : vip_inv ?s, Hp : people ?s !! ?i = Some ?p |- vip_inv (mkA ?x (<[?i := ?q]> _)) =>
      let oL := fresh "oL" in let oR := fresh "oR" in
      pose proof (others_L _ _ _ Hp) as oL; pose proof (others_R _ _ _ Hp) as oR; cbv zeta beta in oL, oR;
      let rL := fresh "rL" in let rR := fresh "rR" in
      pose proof (vi_readL s I i p Hp) as rL; pose proof (vi_readR s I i p Hp) as rR;
      revert oL oR rL rR;
      pose proof (vi_LR s I); pose proof (vi_RL s I); pose proof (vi_cL s I); pose proof (vi_cR s I); pose proof (vi_one s I);
      unfold groupL, groupR in *; weigh_at p; intros oL oR rL rR; cbn [reg] in rL, rR;
      apply (vip_inv_update s i p q x I Hp); weigh_at p; weigh_at q; at_names; cbn [reg]; clear I Hp;
      match q with mkP _ RL _ _ _ => vip_arith pendL | _ => vip_arith pendR end
  end.

Section VipPreserved.
Context (passenger_per_belt : nat).

Lemma vip_inv_instr s i p ins x p' :
  vip_inv s -> people s !! i = Some p -> code (meth p) !! pc p = Some ins -> exec passenger_per_belt ins (sh s) p = Goes x p' ->
  vip_inv (mkA x (<[i := mkP (vip p') (meth p') (S (pc p')) (reg p') (assigned p')]> (people s))).
Proof.
  intros I Hp Hc Hx. destruct p as [v m k r a]. cbn [meth pc] in Hc. destruct m; cbn [code] in Hc; try discriminate Hc.
  all: do 27 (try (destruct k as [|k])); try discriminate Hc.
  all: injection Hc as <-; cbn [exec reg] in Hx; unfold sem_wait, lock in Hx.
  all: repeat match type of Hx with context [if ?b then _ else _] => destruct b eqn:? end; try discriminate Hx; injection Hx as <- <-.
  all: cbn [vip meth pc reg assigned].
  all: vip_case.
Qed.

(** At the start or past the end of a method no weight counts. *)
Definition idle (p : passenger) : Prop :=
  secL p = 0 /\ cntL p = 0 /\ pendL p = 0 /\ relL p = 0 /\ readL p = 0 /\
  secR p = 0 /\ cntR p = 0 /\ pendR p = 0 /\ relR p = 0 /\ readR p = 0.
Lemma idle_start v m r a : idle (mkP v m 0 r a).
Proof. unfold idle; destruct m; vm_compute; done. Qed.
Lemma idle_end p : code (meth p) !! pc p = None -> idle p.
Proof.
  intros Hc%lookup_ge_None. unfold idle, secL, cntL, pendL, relL, readL, secR, cntR, pendR, relR, readR, within.
  destruct p as [v [] k r a]; cbn [meth pc] in *; try done; vm_compute (length _) in Hc;
    rewrite ?(decide_True (P := LR = LR)), ?(decide_True (P := RL = RL)), ?decide_False by done; split_and!; lia.
Qed.

Lemma vip_inv_start s i p m : vip_inv s -> people s !! i = Some p -> code (meth p) !! pc p = None ->
  vip_inv (mkA (sh s) (<[i := mkP (vip p) m 0 (reg p) (assigned p)]> (people s))).
Proof.
  intros I Hp Hc. destruct (idle_end p Hc) as (E1 & E2 & E3 & E4 & E5 & E6 & E7 & E8 & E9 & E10).
  destruct (idle_start (vip p) m (reg p) (assigned p)) as (F1 & F2 & F3 & F4 & F5 & F6 & F7 & F8 & F9 & F10).
  apply (vip_inv_update s i p _ _ I Hp); rewrite ?E1, ?E2, ?E3, ?E4, ?E5, ?E6, ?E7, ?E8, ?E9, ?E10,
    ?F1, ?F2, ?F3, ?F4, ?F5, ?F6, ?F7, ?F8, ?F9, ?F10, ?Z.sub_0_r, ?Z.add_0_r; try done; apply I.
Qed.

Lemma total_idle f l p : f p = 0 -> total f (l ++ [p]) = total f l.
Proof. intros E. rewrite total_app. unfold total. simpl. lia. Qed.

Lemma vip_inv_arrive s v : vip_inv s -> vip_inv (mkA (sh s) (people s ++ [mkP v CheckIn 0 0 0])).
Proof.
  intros I. destruct (idle_start v CheckIn 0 0) as (F1 & F2 & F3 & F4 & F5 & F6 & F7 & F8 & F9 & F10).
  split; unfold groupL, groupR; cbn [sh people]; rewrite ?total_idle by done; try apply I.
  - intros i p [Hi|[_ Hi]]%lookup_app_Some Hr; [by apply (vi_readL s I i)|].
    apply list_lookup_singleton_Some in Hi as [_ <-]. congruence.
  - intros i p [Hi|[_ Hi]]%lookup_app_Some Hr; [by apply (vi_readR s I i)|].
    apply list_lookup_singleton_Some in Hi as [_ <-]. congruence.
Qed.

Lemma vip_inv_step s s' : vip_inv s -> step passenger_per_belt s s' -> vip_inv s'.
Proof.
  intros I [[v|i lost] He]; simpl in He; [injection He as <-; by apply vip_inv_arrive|].
  destruct (people s !! i) as [p|] eqn:Hp; [|done]. simpl in He.
  destruct (code (meth p) !! pc p) as [ins|] eqn:Hc.
  - destruct (exec _ ins (sh s) p) as [x p'| |] eqn:Hx; try done. injection He as <-. by eapply vip_inv_instr.
  - destruct (decide _); [done|]. injection He as <-. by apply vip_inv_start.
Qed.
End VipPreserved.

Section VipReachable.
Context (nkiosks nbelts passenger_per_belt : nat).

Lemma vip_inv_steps s s' : vip_inv s -> rtc (step passenger_per_belt) s s' -> vip_inv s'.
Proof. intros I R. induction R as [|s s1 s2 R1 _ IH]; [done|]. apply IH. by eapply vip_inv_step. Qed.
Lemma vip_inv_reachable s : reachable nkiosks nbelts passenger_per_belt s -> vip_inv s.
Proof. apply vip_inv_steps. split; try done. Qed.

(** Walking through the channel: the steps between the two critical sections. *)
Definition walking_LR (p : passenger) : Prop := meth p = LR /\ (17 <= pc p <= 20)%nat.
Definition walking_RL (p : passenger) : Prop := meth p = RL /\ (9 <= pc p <= 12)%nat.

(** C20: in every reachable state of any number of passengers, however their steps interleave,
    nobody walks through the VIP channel from left to right while somebody walks through it
    from right to left. *)
Theorem vip_exclusive s i j p q :
  reachable nkiosks nbelts passenger_per_belt s -> people s !! i = Some p -> people s !! j = Some q ->
  walking_LR p -> ~ walking_RL q.
Proof.
  intros R Hp Hq [Ep Kp] [Eq Kq]. pose proof (vip_inv_reachable s R) as I.
  pose proof (vi_one s I) as H1. pose proof (vi_cL s I) as H2. pose proof (vi_cR s I) as H3.
  pose proof (vi_LR s I) as H4. pose proof (vi_RL s I) as H5.
  destruct (others_L _ _ _ Hp) as (oL1 & oL2 & oL3 & oL4 & oL5 & oL6). destruct (others_R _ _ _ Hq) as (oR1 & oR2 & oR3 & oR4 & oR5 & oR6).
  pose proof (place_L p). pose proof (place_R q).
  assert (cntL p = 1 /\ pendL p = 0) as [C1 C2] by (unfold cntL, pendL, within; rewrite !decide_True by done; lia).
  assert (cntR q = 1 /\ pendR q = 0) as [C3 C4] by (unfold cntR, pendR, within; rewrite !decide_True by done; lia).
  unfold groupL, groupR, group in *. repeat case_match; simpl in *; lia.
Qed.

(** A passenger inside its section keeps its direction's mutex taken. *)
Lemma section_takes s i p : vip_inv s -> people s !! i = Some p ->
  (secL p = 1 -> taken (sh s) VIP_LR_mutex = true) /\ (secR p = 1 -> taken (sh s) VIP_RL_mutex = true).
Proof.
  intros I Hp. pose proof (vi_LR s I) as HL. pose proof (vi_RL s I) as HR.
  destruct (others_L _ _ _ Hp) as (oL & _). destruct (others_R _ _ _ Hp) as (oR & _).
  unfold groupL, groupR in *.
  pose proof (group_range (total pendL (people s)) (total relL (people s)) (counts (sh s) VIP_LR_count)).
  pose proof (group_range (total pendR (people s)) (total relR (people s)) (counts (sh s) VIP_RL_count)).
  split; intros E; [destruct (taken _ VIP_LR_mutex)|destruct (taken _ VIP_RL_mutex)]; simpl in *; lia.
Qed.

Definition waits_LR (p : passenger) : Prop := meth p = LR /\ pc p = 15%nat /\ reg p = 1.
Definition waits_RL (p : passenger) : Prop := meth p = RL /\ pc p = 7%nat /\ reg p = 1.

Lemma waits_step s s' i j p q : vip_inv s -> people s !! i = Some p -> people s !! j = Some q ->
  waits_LR p -> waits_RL q -> step passenger_per_belt s s' -> people s' !! i = Some p /\ people s' !! j = Some q.
Proof.
  intros I Hp Hq (Ep & Kp & Rp) (Eq & Kq & Rq) [[v|k lost] He]; simpl in He.
  { injection He as <-. cbn [people]. by rewrite !lookup_app_l by (by eapply lookup_lt_Some). }
  assert (secL p = 1) as SL by (destruct p; simpl in *; subst; done).
  assert (secR q = 1) as SR by (destruct q; simpl in *; subst; done).
  apply (section_takes s i p I Hp) in SL. apply (section_takes s j q I Hq) in SR.
  destruct (decide (k = i)) as [->|Hi].
  { rewrite Hp in He. simpl in He. rewrite Ep, Kp in He. simpl in He. rewrite Rp in He. simpl in He. unfold lock in He. by rewrite SR in He. }
  destruct (decide (k = j)) as [->|Hj].
  { rewrite Hq in He. simpl in He. rewrite Eq, Kq in He. simpl in He. rewrite Rq in He. simpl in He. unfold lock in He. by rewrite SL in He. }
  destruct (people s !! k) as [y|]; [|done]. simpl in He.
  repeat case_match; simplify_eq/=; by rewrite !list_lookup_insert_ne.
Qed.

(** C22: once a passenger from left to right is about to lock VIP_RL_mutex inside its section
    under VIP_LR_mutex, and one from right to left about to lock VIP_LR_mutex inside its section
    under VIP_RL_mutex, both stay there whatever the others do: the two methods take the two
    mutexes in opposite orders. The witness reaches such a state with two passengers. *)
Theorem vip_deadlock s i j p q :
  reachable nkiosks nbelts passenger_per_belt s -> people s !! i = Some p -> people s !! j = Some q ->
  waits_LR p -> waits_RL q ->
  forall s', rtc (step passenger_per_belt) s s' -> people s' !! i = Some p /\ people s' !! j = Some q.
Proof.
  intros R Hp Hq Wp Wq s' R'. apply vip_inv_reachable in R. revert R Hp Hq.
  induction R' as [|s s1 s2 R1 _ IH]; [done|]. intros I Hp Hq.
  destruct (waits_step s s1 i j p q I Hp Hq Wp Wq R1). apply IH; [by eapply vip_inv_step|done..].
Qed.
End VipReachable.

(** Two VIPs: the first finds its boarding pass lost after the channel and comes back through
    it; the second enters it from the left at the same time. *)
Definition both_wait : list event :=
  [Arrive true; Arrive true] ++ replicate (17 + 1 + 26 + 1) (Run 0 true) ++ replicate (17 + 1) (Run 1 false) ++
  replicate 7 (Run 0 false) ++ replicate 15 (Run 1 false).
Definition stuck : airport := match run 1 both_wait (init 1 1 1) with Some s => s | None => init 1 1 1 end.

Lemma vip_deadlock_witness :
  reachable 1 1 1 stuck /\ forall s', rtc (step 1) stuck s' ->
    exists p q, people s' !! 1%nat = Some p /\ people s' !! 0%nat = Some q /\ waits_LR p /\ waits_RL q.
Proof.
  assert (R : reachable 1 1 1 stuck) by (apply (run_steps 1 both_wait); vm_compute; reflexivity).
  split; [exact R|]. intros s' R'.
  exists (mkP true LR 15 1 0), (mkP true RL 7 1 0).
  pose proof (vip_deadlock 1 1 1 stuck 1 0 (mkP true LR 15 1 0) (mkP true RL 7 1 0) R eq_refl eq_refl
    ltac:(repeat split) ltac:(repeat split) s' R') as [H1 H2].
  repeat split; assumption.
Defined.

(** The first of two VIPs walks; the second waits to be let in. *)
Definition one_walks : list event := [Arrive true; Arrive true] ++ replicate 35 (Run 0 false) ++ replicate 24 (Run 1 false).
Definition walk_state : airport := match run 1 one_walks (init 1 1 1) with Some s => s | None => init 1 1 1 end.

Lemma vip_exclusive_witness :
  people walk_state !! 0%nat = Some (mkP true LR 17 1 0) /\
  exists q, people walk_state !! 1%nat = Some q /\ meth q = LR /\ ~ walking_RL q.
Proof.
  split; [vm_compute; reflexivity|].
  assert (R : reachable 1 1 1 walk_state) by (apply (run_steps 1 one_walks); vm_compute; reflexivity).
  exists (mkP true LR 6 1 0). split; [vm_compute; reflexivity|]. split; [reflexivity|].
  apply (vip_exclusive 1 1 1 walk_state 0 1 (mkP true LR 17 1 0) _ R); [vm_compute; reflexivity..|split; [reflexivity|simpl; lia]].
Defined.
