(* ===== verification/AirportDesks.v ===== *)
(** * AirportDesks: kiosks and belts (offline_2/offline.cpp: check_in, security_check) *)

From Stdlib Require Import ZifyBool.
From S2P Require Import Prelude Airport.

(** ** Kiosks and belts *)

(** The desks of one kind: the kiosks of check_in, or the belts of security_check. *)
Definition place (kiosk : bool) : method := if kiosk then CheckIn else Security.
Definition marks (kiosk : bool) : slots := if kiosk then kiosks else belts.
Definition gate (kiosk : bool) : sem := if kiosk then check_in_empty else belt_empty.
Definition door (kiosk : bool) : mutex := if kiosk then check_in_count_mutex else belts_count_mutex.
(** Past the gate; holding the door's mutex; about to mark the desk; with the desk marked. *)
Definition inside (k : bool) : passenger -> Z := if k then within CheckIn 2 16 else within Security 2 20.
Definition section (k : bool) (p : passenger) : Z :=
  if k then within CheckIn 3 8 p + within CheckIn 11 15 p else within Security 3 10 p + within Security 14 19 p.
Definition picks (k : bool) : passenger -> Z := if k then within CheckIn 6 6 else within Security 6 6.
Definition holds (k : bool) : passenger -> Z := if k then within CheckIn 7 13 else within Security 7 16.

Definition marked (l : list bool) : Z := sum_list_Z (map Z.b2z l).

Record desk_inv (kiosk : bool) (n : Z) (s : airport) : Prop := {
  di_len : Z.of_nat (length (busy (sh s) (marks kiosk))) = n;
  di_door : b2z (taken (sh s) (door kiosk)) = total (section kiosk) (people s);
  di_gate : sems (sh s) (gate kiosk) + total (inside kiosk) (people s) = n /\ 0 <= sems (sh s) (gate kiosk);
  di_marked : marked (busy (sh s) (marks kiosk)) = total (holds kiosk) (people s);
  di_pick : forall i p, people s !! i = Some p -> picks kiosk p = 1 ->
    0 <= assigned p /\ busy (sh s) (marks kiosk) !! Z.to_nat (assigned p) = Some false;
  di_own : forall i p, people s !! i = Some p -> holds kiosk p = 1 ->
    0 <= assigned p /\ busy (sh s) (marks kiosk) !! Z.to_nat (assigned p) = Some true;
  di_dist : forall i j p q, people s !! i = Some p -> people s !! j = Some q -> i <> j ->
    holds kiosk p = 1 -> holds kiosk q = 1 -> assigned p <> assigned q
}.

Lemma marked_insert l : forall i b c, l !! i = Some b -> marked (<[i := c]> l) = marked l - b2z b + b2z c.
Proof.
  unfold marked. induction l as [|x l IH]; intros [|i] b c Hi; try done; simpl in *.
  - injection Hi as ->. lia.
  - rewrite (IH _ b) by done. lia.
Qed.
Lemma marked_full l : find_index (fun b => Bool.eqb b false) l = None -> marked l = Z.of_nat (length l).
Proof.
  rewrite find_index_None. unfold marked. induction l as [|x l IH]; intros H; [done|].
  cbn [map sum_list_Z length]. rewrite IH by (intros i y Hy; apply (H (S i) y Hy)).
  specialize (H O x eq_refl). destruct x; [|done]. simpl. lia.
Qed.
Lemma find_free l i : find_index (fun b => Bool.eqb b false) l = Some i -> l !! i = Some false.
Proof. intros (x & Hx & Ex & _)%find_index_Some. by destruct x. Qed.

Ltac by_desk k p := destruct k; cbv beta iota delta [inside section picks holds]; unfold within;
  destruct (decide (meth p = CheckIn)), (decide (meth p = Security)); try congruence; lia.
Lemma place_desk k p : 0 <= section k p <= 1 /\ 0 <= picks k p <= section k p /\ 0 <= holds k p /\ 0 <= inside k p /\
  holds k p + picks k p <= inside k p.
Proof. split_and!; by_desk k p. Qed.

Section DeskStep.
Context (k : bool) (n : Z) (s : airport) (i : nat) (p : passenger) (I : desk_inv k n s) (Hp : people s !! i = Some p).

(** Two passengers are never both inside the section under the door's mutex. *)
Lemma section_alone j y : i <> j -> people s !! j = Some y -> section k p = 1 -> section k y = 0.
Proof.
  intros Hne Hy Ep. pose proof (total_ge2 (section k) (people s) i j p y ltac:(intros r; apply place_desk) Hne Hp Hy).
  pose proof (di_door k n s I). destruct (taken _ _); simpl in *; pose proof (place_desk k y); lia.
Qed.

(** Past the gate there is a free desk. *)
Lemma free_desk : inside k p = 1 -> holds k p = 0 ->
  0 <= get_idx (busy (sh s) (marks k)) false /\ busy (sh s) (marks k) !! Z.to_nat (get_idx (busy (sh s) (marks k)) false) = Some false.
Proof.
  intros Ei Eh. unfold get_idx. destruct (find_index _ _) as [j|] eqn:Ej.
  { split; [lia|]. rewrite Nat2Z.id. by apply find_free. }
  exfalso. apply marked_full in Ej. pose proof (di_len k n s I). pose proof (di_gate k n s I). pose proof (di_marked k n s I).
  pose proof (total_delete (inside k) _ i p Hp). pose proof (total_delete (holds k) _ i p Hp).
  pose proof (total_le (holds k) (inside k) (delete i (people s)) ltac:(intros y; pose proof (place_desk k y); lia)). lia.
Qed.

Context (q : passenger) (x : shared).
Hypothesis (Hdoor : b2z (taken x (door k)) = total (section k) (people s) - section k p + section k q).
Hypothesis (Hgate : sems x (gate k) = sems (sh s) (gate k) + inside k p - inside k q /\ 0 <= sems x (gate k)).
Hypothesis (Hhold : holds k q = 1 -> assigned q = assigned p).

(** A step that marks no desk. *)
Lemma desk_inv_same :
  busy x (marks k) = busy (sh s) (marks k) -> holds k q = holds k p ->
  (picks k q = 1 -> 0 <= assigned q /\ busy (sh s) (marks k) !! Z.to_nat (assigned q) = Some false) ->
  desk_inv k n (mkA x (<[i := q]> (people s))).
Proof.
  intros Hb Eh Hpick. split; cbn [sh people]; rewrite ?Hb, ?(total_insert _ _ i p q Hp); try apply I.
  - done.
  - pose proof (di_gate k n s I). lia.
  - pose proof (di_marked k n s I). lia.
  - intros j y [(<- & <- & _)|[Hne Hy]]%list_lookup_insert_Some; [done|by apply (di_pick k n s I j)].
  - intros j y [(<- & <- & _)|[Hne Hy]]%list_lookup_insert_Some; [|by apply (di_own k n s I j)].
    intros E. rewrite (Hhold E). apply (di_own k n s I i p Hp). congruence.
  - assert (H : forall j y, i <> j -> people s !! j = Some y -> holds k q = 1 -> holds k y = 1 -> assigned q <> assigned y).
    { intros j y Hne Hy E Ey. rewrite (Hhold E). apply (di_dist k n s I i j p y Hp Hy Hne); congruence. }
    intros j1 j2 y1 y2 [(<- & <- & _)|[Hn1 Hy1]]%list_lookup_insert_Some [(<- & <- & _)|[Hn2 Hy2]]%list_lookup_insert_Some Hne E1 E2; try done.
    + by apply (H j2).
    + apply not_eq_sym. by apply (H j1).
    + by apply (di_dist k n s I j1 j2).
Qed.

(** Marking the desk that was picked. *)
Lemma desk_inv_mark :
  picks k p = 1 -> holds k q = 1 -> picks k q = 0 -> 0 <= assigned p ->
  busy x (marks k) = <[Z.to_nat (assigned p) := true]> (busy (sh s) (marks k)) ->
  desk_inv k n (mkA x (<[i := q]> (people s))).
Proof.
  intros Ep Eq Eq' Ha Hb. pose proof (place_desk k p) as Wp. pose proof (place_desk k q) as Wq.
  destruct (di_pick k n s I i p Hp Ep) as [_ Hf].
  assert (Hother : forall j y, i <> j -> people s !! j = Some y -> holds k y = 1 -> 0 <= assigned y /\ assigned y <> assigned p /\ busy (sh s) (marks k) !! Z.to_nat (assigned y) = Some true).
  { intros j y Hne Hy Ey. destruct (di_own k n s I j y Hy Ey) as [H1 H2]. split_and!; try done. intros E. congruence. }
  split; cbn [sh people]; rewrite ?Hb, ?length_insert, ?(total_insert _ _ i p q Hp); try apply I.
  - done.
  - pose proof (di_gate k n s I). lia.
  - rewrite (marked_insert _ _ false) by done. pose proof (di_marked k n s I).
    enough (holds k p = 0) by (simpl; lia). revert Ep. clear. by_desk k p.
  - intros j y [(<- & <- & _)|[Hne Hy]]%list_lookup_insert_Some E; [congruence|].
    pose proof (section_alone j y Hne Hy). pose proof (place_desk k y). lia.
  - intros j y [(<- & <- & _)|[Hne Hy]]%list_lookup_insert_Some E.
    + rewrite (Hhold E). split; [done|]. apply list_lookup_insert_eq. by eapply lookup_lt_Some.
    + destruct (Hother j y Hne Hy E) as (H1 & H2 & H3). rewrite list_lookup_insert_ne by lia. done.
  - intros j1 j2 y1 y2 [(<- & <- & _)|[Hn1 Hy1]]%list_lookup_insert_Some [(<- & <- & _)|[Hn2 Hy2]]%list_lookup_insert_Some Hne E1 E2; try done.
    + rewrite (Hhold E1). destruct (Hother j2 y2 Hn2 Hy2 E2) as (_ & H & _). congruence.
    + rewrite (Hhold E2). by destruct (Hother j1 y1 Hn1 Hy1 E1) as (_ & H & _).
    + by apply (di_dist k n s I j1 j2).
Qed.

(** Giving the desk back. *)
Lemma desk_inv_unmark :
  holds k p = 1 -> section k p = 1 -> holds k q = 0 -> picks k q = 0 ->
  busy x (marks k) = <[Z.to_nat (assigned p) := false]> (busy (sh s) (marks k)) ->
  desk_inv k n (mkA x (<[i := q]> (people s))).
Proof.
  intros Ep Sp Eq Eq' Hb. destruct (di_own k n s I i p Hp Ep) as [Ha Hf].
  split; cbn [sh people]; rewrite ?Hb, ?length_insert, ?(total_insert _ _ i p q Hp); try apply I.
  - done.
  - pose proof (di_gate k n s I). lia.
  - rewrite (marked_insert _ _ true) by done. pose proof (di_marked k n s I). simpl. lia.
  - intros j y [(<- & <- & _)|[Hne Hy]]%list_lookup_insert_Some E; [congruence|].
    pose proof (section_alone j y Hne Hy Sp). pose proof (place_desk k y). lia.
  - intros j y [(<- & <- & _)|[Hne Hy]]%list_lookup_insert_Some E; [congruence|].
    destruct (di_own k n s I j y Hy E) as [H1 H2]. pose proof (di_dist k n s I i j p y Hp Hy Hne Ep E).
    rewrite list_lookup_insert_ne by lia. done.
  - intros j1 j2 y1 y2 [(<- & <- & _)|[Hn1 Hy1]]%list_lookup_insert_Some [(<- & <- & _)|[Hn2 Hy2]]%list_lookup_insert_Some Hne E1 E2; try congruence.
    by apply (di_dist k n s I j1 j2).
Qed.
End DeskStep.

Lemma door_held k n s i p : desk_inv k n s -> people s !! i = Some p ->
  b2z (taken (sh s) (door k)) = total (section k) (people s) /\ section k p <= total (section k) (people s).
Proof. intros I Hp. split; [apply I|]. apply (total_ge1 _ _ i); [|done]. intros y. apply place_desk. Qed.

Ltac weigh_desk :=
  repeat match goal with
  | |- context [?f ?k (mkP ?v ?m ?c ?r ?a)] =>
      match f with inside => idtac | section => idtac | picks => idtac | holds => idtac end;
      let w := eval vm_compute in (f k (mkP v m c r a)) in change (f k (mkP v m c r a)) with w
  end.
(** Lock and semaphore operations on other names leave the desks' alone. *)
Ltac desk_arith I Hp :=
  cbn [door gate marks]; at_names; weigh_desk;
  rewrite ?Z.sub_0_r, ?Z.add_0_r; intros;
  first [assumption | discriminate | reflexivity | exact (di_door _ _ _ I) | split; [reflexivity|exact (proj2 (di_gate _ _ _ I))]
        | generalize (door_held _ _ _ _ _ I Hp), (di_gate _ _ _ I); cbn [door gate marks];
          weigh_desk; intros; cbn [Z.b2z] in *; lia].

Section DeskPreserved.
Context (passenger_per_belt : nat).

Lemma desk_inv_instr k n s i p ins x p' :
  desk_inv k n s -> people s !! i = Some p -> code (meth p) !! pc p = Some ins -> exec passenger_per_belt ins (sh s) p = Goes x p' ->
  desk_inv k n (mkA x (<[i := mkP (vip p') (meth p') (S (pc p')) (reg p') (assigned p')]> (people s))).
Proof.
  intros I Hp Hc Hx. destruct p as [v m c r a]. cbn [meth pc] in Hc. destruct m; cbn [code] in Hc; try discriminate Hc.
  all: do 27 (try (destruct c as [|c])); try discriminate Hc.
  all: injection Hc as <-; cbn [exec reg assigned] in Hx; unfold sem_wait, lock in Hx.
  all: repeat match type of Hx with context [if ?b then _ else _] => destruct b eqn:? end; try discriminate Hx; injection Hx as <- <-.
  all: cbn [vip meth pc reg assigned]; destruct k.
  all: try (solve [eapply (desk_inv_same _ _ _ _ _ I Hp); first [exact (fun _ => free_desk _ _ _ _ _ I Hp eq_refl eq_refl) | desk_arith I Hp]]).
  all: try (solve [eapply (desk_inv_mark _ _ _ _ _ I Hp); first [exact (proj1 (di_pick _ _ _ I _ _ Hp eq_refl)) | desk_arith I Hp]]).
  all: eapply (desk_inv_unmark _ _ _ _ _ I Hp); desk_arith I Hp.
Qed.

Definition resting (k : bool) (p : passenger) : Prop := inside k p = 0 /\ section k p = 0 /\ picks k p = 0 /\ holds k p = 0.
Lemma resting_start k v m r a : resting k (mkP v m 0 r a).
Proof. unfold resting; destruct k, m; vm_compute; done. Qed.
Lemma resting_end k p : code (meth p) !! pc p = None -> resting k p.
Proof.
  intros Hc%lookup_ge_None. unfold resting.
  destruct k; cbv beta iota delta [inside section picks holds]; unfold within;
  destruct p as [v [] c r a]; cbn [meth pc] in *; vm_compute (length _) in Hc;
    rewrite ?(decide_True (P := CheckIn = CheckIn)), ?(decide_True (P := Security = Security)), ?decide_False by done; split_and!; lia.
Qed.

Lemma desk_inv_start k n s i p m : desk_inv k n s -> people s !! i = Some p -> code (meth p) !! pc p = None ->
  desk_inv k n (mkA (sh s) (<[i := mkP (vip p) m 0 (reg p) (assigned p)]> (people s))).
Proof.
  intros I Hp Hc. destruct (resting_end k p Hc) as (E1 & E2 & E3 & E4).
  destruct (resting_start k (vip p) m (reg p) (assigned p)) as (F1 & F2 & F3 & F4).
  pose proof (di_door k n s I). pose proof (di_gate k n s I).
  apply (desk_inv_same k n s i p I Hp); rewrite ?E1, ?E2, ?E3, ?E4, ?F1, ?F2, ?F3, ?F4; try done; lia.
Qed.

Lemma desk_inv_arrive k n s v : desk_inv k n s -> desk_inv k n (mkA (sh s) (people s ++ [mkP v CheckIn 0 0 0])).
Proof.
  intros I. destruct (resting_start k v CheckIn 0 0) as (F1 & F2 & F3 & F4).
  assert (H : forall i p, (people s ++ [mkP v CheckIn 0 0 0]) !! i = Some p -> people s !! i = Some p \/ holds k p = 0 /\ picks k p = 0).
  { intros i p [Hi|[_ Hi]]%lookup_app_Some; [by left|]. apply list_lookup_singleton_Some in Hi as [_ <-]. by right. }
  split; cbn [sh people]; rewrite ?total_idle by done; try apply I.
  - intros i p [Hi|[? ?]]%H Hr; [by apply (di_pick k n s I i)|lia].
  - intros i p [Hi|[? ?]]%H Hr; [by apply (di_own k n s I i)|lia].
  - intros i j p q [Hi|[? ?]]%H [Hj|[? ?]]%H Hne E1 E2; try lia. by apply (di_dist k n s I i j).
Qed.

Lemma desk_inv_step k n s s' : desk_inv k n s -> step passenger_per_belt s s' -> desk_inv k n s'.
Proof.
  intros I [[v|i lost] He]; simpl in He; [injection He as <-; by apply desk_inv_arrive|].
  destruct (people s !! i) as [p|] eqn:Hp; [|done]. simpl in He.
  destruct (code (meth p) !! pc p) as [ins|] eqn:Hc.
  - destruct (exec _ ins (sh s) p) as [x p'| |] eqn:Hx; try done. injection He as <-. by eapply desk_inv_instr.
  - destruct (decide _); [done|]. injection He as <-. by apply desk_inv_start.
Qed.
End DeskPreserved.

(** What can crash, and where the methods do it. *)
Lemma exec_crashes passenger_per_belt ins s p : exec passenger_per_belt ins (sh s) p = Crashes ->
  (exists a b, ins = SetSlot a b /\ ~ (0 <= assigned p < Z.of_nat (length (busy (sh s) a)))) \/
  (passenger_per_belt = 0%nat /\ exists n m, ins = WaitIfFull n m \/ ins = PostIfFull n m).
Proof.
  destruct ins; simpl; unfold sem_wait, lock; repeat case_match; try done; intros _.
  - right. split; [lia|eauto].
  - right. split; [lia|eauto].
  - left. exists a, b. split; [done|lia].
Qed.
Ltac places E Hc p := let v := fresh "v" in let m0 := fresh "m" in let c := fresh "c" in let r := fresh "r" in let z := fresh "z" in
  destruct p as [v m0 c r z]; cbn [meth pc] in *; subst m0;
  do 21 (try (destruct c as [|c])); try discriminate Hc; injection Hc as ?; subst; try discriminate.
Lemma set_slot_place k p a b : meth p = place k -> code (meth p) !! pc p = Some (SetSlot a b) -> a = marks k /\ (picks k p = 1 \/ holds k p = 1).
Proof. intros E Hc. destruct k; places E Hc p; (split; [done|]); first [by left|by right]. Qed.
Lemma full_place k p ins : meth p = place k -> code (meth p) !! pc p = Some ins ->
  (exists n m, ins = WaitIfFull n m \/ ins = PostIfFull n m) -> k = false /\ inside k p = 1.
Proof. intros E Hc (n & m & [->| ->]); destruct k; places E Hc p; done. Qed.

Section DesksReachable.
Context (nkiosks nbelts passenger_per_belt : nat).
Definition desks (kiosk : bool) : nat := if kiosk then nkiosks else (nbelts * passenger_per_belt)%nat.

Lemma marked_free m : marked (replicate m false) = 0.
Proof. induction m as [|m IH]; [done|]. unfold marked in *. simpl. lia. Qed.
Lemma desk_inv_reachable k s : reachable nkiosks nbelts passenger_per_belt s -> desk_inv k (Z.of_nat (desks k)) s.
Proof.
  intros R. assert (I : desk_inv k (Z.of_nat (desks k)) (init nkiosks nbelts passenger_per_belt)).
  { split; cbn [init sh people sems taken busy]; try done.
    - destruct k; simpl; by rewrite length_replicate.
    - destruct k; unfold total; simpl; lia.
    - destruct k; simpl; by rewrite marked_free. }
  revert R I. unfold reachable. generalize (init nkiosks nbelts passenger_per_belt) as s0. intros s0 R I.
  induction R as [|s0 s1 s2 R1 _ IH]; [done|]. apply IH. by eapply desk_inv_step.
Qed.

(** Has a desk assigned and marked: from the marking to the unmarking. *)
Definition at_desk (kiosk : bool) (p : passenger) : Prop := meth p = place kiosk /\ (7 <= pc p <= if kiosk then 13 else 16)%nat.

(** C21: at a kiosk (or on a belt) a passenger has a desk that exists and is marked busy, and no
    other passenger has the same; the next step of a passenger in check_in or security_check
    never indexes outside the vector, nor divides by zero. *)
Theorem desks_exclusive k s i p :
  reachable nkiosks nbelts passenger_per_belt s -> people s !! i = Some p ->
  (at_desk k p -> 0 <= assigned p < Z.of_nat (desks k) /\ busy (sh s) (marks k) !! Z.to_nat (assigned p) = Some true /\
    forall j q, i <> j -> people s !! j = Some q -> at_desk k q -> assigned q <> assigned p) /\
  forall ins, meth p = place k -> code (meth p) !! pc p = Some ins -> exec passenger_per_belt ins (sh s) p <> Crashes.
Proof.
  intros R Hp. pose proof (desk_inv_reachable k s R) as I. split.
  - intros Dp. assert (H : forall y, at_desk k y -> holds k y = 1).
    { intros y [E K]. destruct k; simpl in *; unfold within; rewrite E, decide_True by done; lia. }
    destruct (di_own _ _ _ I i p Hp (H p Dp)) as [H1 H2]. pose proof (lookup_lt_Some _ _ _ H2) as Hlt.
    pose proof (di_len _ _ _ I). split_and!; [done|lia|done|].
    intros j q Hne Hq Dq. apply not_eq_sym, (di_dist _ _ _ I i j); auto.
  - intros ins E Hc Hx. destruct (exec_crashes _ _ _ _ Hx) as [(a & b & -> & Ha)|(Hz & Hi)].
    + destruct (set_slot_place k p a b E Hc) as [-> W].
      assert (0 <= assigned p /\ is_Some (busy (sh s) (marks k) !! Z.to_nat (assigned p))) as [H1 H2%lookup_lt_is_Some].
      { destruct W as [W|W]; [pose proof (di_pick _ _ _ I i p Hp W)|pose proof (di_own _ _ _ I i p Hp W)]; naive_solver. }
      lia.
    + destruct (full_place k p ins E Hc Hi) as [-> W].
      pose proof (di_gate _ _ _ I) as [G1 G2]. pose proof (total_ge1 (inside false) _ i p ltac:(intros y; apply place_desk) Hp).
      assert (desks false = 0%nat) by (cbn [desks]; lia). lia.
Qed.
End DesksReachable.

(** Two passengers at two kiosks. *)
Definition two_checked : list event := [Arrive true; Arrive false] ++ replicate 9 (Run 1 false) ++ replicate 8 (Run 0 false).
Definition checked : airport := match run 1 two_checked (init 2 1 1) with Some s => s | None => init 2 1 1 end.

Lemma desks_exclusive_witness :
  reachable 2 1 1 checked /\
  exists p q, people checked !! 0%nat = Some p /\ people checked !! 1%nat = Some q /\ at_desk true p /\ at_desk true q /\
    assigned q <> assigned p /\ assigned p = 1 /\ assigned q = 0.
Proof.
  assert (R : reachable 2 1 1 checked) by (apply (run_steps 1 two_checked); vm_compute; reflexivity).
  split; [exact R|]. exists (mkP true CheckIn 8 1 1), (mkP false CheckIn 9 0 0).
  assert (D0 : at_desk true (mkP true CheckIn 8 1 1)) by (split; simpl; [reflexivity|lia]).
  assert (D1 : at_desk true (mkP false CheckIn 9 0 0)) by (split; simpl; [reflexivity|lia]).
  destruct (desks_exclusive 2 1 1 true checked 0 (mkP true CheckIn 8 1 1) R ltac:(vm_compute; reflexivity)) as [H _]. destruct (H D0) as (_ & _ & Hd).
  split; [vm_compute; reflexivity|]. split; [vm_compute; reflexivity|]. split; [exact D0|]. split; [exact D1|].
  split; [|split; reflexivity]. apply (Hd 1%nat (mkP false CheckIn 9 0 0)); [discriminate|vm_compute; reflexivity|exact D1].
Defined.
