(* ===== verification/Grep.v ===== *)
(** * Grep: the pattern matcher and the line loop of grep (offline_4/xv6/grep.c)

    A C string is the list of its characters before the terminating zero. *)

From S2P Require Import Prelude.

(** '*', '$', '.', '^' and the newline. *)
Abbreviation star := 42.
Abbreviation dollar := 36.
Abbreviation dot := 46.
Abbreviation caret := 94.
Abbreviation newline := 10.

(** ** The matcher *)

Section Matchstar.
Context (matchhere_re : list Z -> bool).
(** The rest of the pattern is tried after every run of [c]. *)
Fixpoint matchstar (c : Z) (text : list Z) : bool :=
  if matchhere_re text then true
  else match text with
       | [] => false
       | t :: text' => if (t =? c) || (c =? dot) then matchstar c text' else false
       end.
End Matchstar.

Fixpoint matchhere (re text : list Z) : bool :=
  match re with
  | [] => true
  | c :: re1 =>
      let one :=
        match text with
        | t :: text' => if (c =? dot) || (c =? t) then matchhere re1 text' else false
        | [] => false
        end in
      match re1 with
      | s :: re2 => if s =? star then matchstar (matchhere re2) c text else one
      | [] => if c =? dollar then match text with [] => true | _ => false end else one
      end
  end.

Fixpoint match_anywhere (re text : list Z) : bool :=
  if matchhere re text then true
  else match text with [] => false | _ :: text' => match_anywhere re text' end.

Definition match_ (re text : list Z) : bool :=
  match re with
  | c :: re' => if c =? caret then matchhere re' text else match_anywhere re text
  | [] => match_anywhere re text
  end.

(** ** The line loop *)

(** strchr of ulib.c: the list stops where the string's zero is, if it has none itself. *)
Fixpoint strchr (s : list Z) (c : Z) : option nat :=
  match s with
  | [] => None
  | x :: s => if x =? 0 then None else if x =? c then Some O else S <$> strchr s c
  end.

(** The inner loop: [p] is what the buffer holds from the pointer [p] on; [out] is what has
    been written to descriptor 1. *)
Fixpoint scan_lines (fuel : nat) (pattern p out : list Z) : list Z * list Z :=
  match fuel with
  | O => (p, out)
  | S fuel =>
      match strchr p newline with
      | None => (p, out)
      | Some q => scan_lines fuel pattern (drop (S q) p) (if match_ pattern (take q p) then out ++ take (S q) p else out)
      end
  end.

Definition BUFSIZE : nat := 1024.

Section Grep.
(** How many bytes read(fd, _, k) returns when [input] is what the file has left. *)
Context (read : nat -> list Z -> nat) (pattern : list Z).

(** [kept] is the start of [buf], [m] bytes long. *)
Fixpoint grep (fuel : nat) (kept input out : list Z) : option (list Z) :=
  match fuel with
  | O => None
  | S fuel =>
      let n := read (BUFSIZE - length kept - 1)%nat input in
      if (n =? 0)%nat then Some out
      else let buf := kept ++ take n input in
           let '(p, out) := scan_lines (S (length buf)) pattern buf out in
           let kept := if (length p =? length buf)%nat then [] else p in
           grep fuel kept (drop n input) out
  end.
End Grep.

(** ** What a pattern means *)

(** A pattern is a sequence of elements, maybe anchored at the end of the text. *)
Inductive elem : Type :=
  | One (c : Z)
  | Many (c : Z).

Definition fits_char (c t : Z) : Prop := c = dot \/ c = t.

(** The strings a sequence of elements stands for. *)
Inductive denotes : list elem -> list Z -> Prop :=
  | denotes_nil : denotes [] []
  | denotes_one c t es s : fits_char c t -> denotes es s -> denotes (One c :: es) (t :: s)
  | denotes_many c u es s : Forall (fits_char c) u -> denotes es s -> denotes (Many c :: es) (u ++ s).

(** The elements of a pattern, and whether it ends in '$'. *)
Fixpoint elems (re : list Z) : list elem * bool :=
  match re with
  | [] => ([], false)
  | c :: re1 =>
      match re1 with
      | s :: re2 => if s =? star then let '(es, a) := elems re2 in (Many c :: es, a)
                    else let '(es, a) := elems re1 in (One c :: es, a)
      | [] => if c =? dollar then ([], true) else ([One c], false)
      end
  end.

(** The pattern matches a prefix of the text (all of it when anchored). *)
Definition matches_prefix (re text : list Z) : Prop :=
  exists s rest, text = s ++ rest /\ denotes (elems re).1 s /\ ((elems re).2 = true -> rest = []).
Definition anchored (re : list Z) : option (list Z) :=
  match re with c :: re' => if c =? caret then Some re' else None | [] => None end.
Definition matches (re text : list Z) : Prop :=
  match anchored re with
  | Some re' => matches_prefix re' text
  | None => exists before here, text = before ++ here /\ matches_prefix re here
  end.

Lemma matchstar_true f c text :
  matchstar f c text = true <-> exists u rest, text = u ++ rest /\ Forall (fits_char c) u /\ f rest = true.
Proof.
  induction text as [|t text IH]; simpl.
  - destruct (f []) eqn:E; [split; [|done]; by exists [], []|].
    split; [done|]. intros (u & rest & Hn & _ & Hf). symmetry in Hn. apply app_nil in Hn as [-> ->]. congruence.
  - destruct (f (t :: text)) eqn:E; [split; [|done]; by exists [], (t :: text)|].
    destruct ((t =? c) || (c =? dot)) eqn:Ec.
    + rewrite IH. split.
      * intros (u & rest & -> & Hu & Hf). exists (t :: u), rest. split_and!; try done. constructor; [|done]. unfold fits_char. lia.
      * intros ([|x u] & rest & Hn & Hu & Hf); simpl in Hn; [subst; congruence|].
        injection Hn as <- ->. apply Forall_cons in Hu as [_ Hu]. by exists u, rest.
    + split; [done|]. intros ([|x u] & rest & Hn & Hu & Hf); simpl in Hn; [subst; congruence|].
      injection Hn as <- ->. apply Forall_cons in Hu as [Hx _]. unfold fits_char in Hx. lia.
Qed.

Lemma elems_one c s re : (s =? star) = false -> elems (c :: s :: re) = let '(es, a) := elems (s :: re) in (One c :: es, a).
Proof. intros Es. change (elems (c :: s :: re)) with (if s =? star then let '(es, a) := elems re in (Many c :: es, a) else let '(es, a) := elems (s :: re) in (One c :: es, a)). by rewrite Es. Qed.

Lemma match_one c re text (IH : forall text, matchhere re text = true <-> matches_prefix re text) :
  (match text with t :: text' => if (c =? dot) || (c =? t) then matchhere re text' else false | [] => false end) = true <->
  exists s rest, text = s ++ rest /\ denotes (One c :: (elems re).1) s /\ ((elems re).2 = true -> rest = []).
Proof.
  destruct text as [|t text].
  - split; [done|]. intros (s & rest & Hn & Hd & _). inversion Hd; subst. done.
  - destruct ((c =? dot) || (c =? t)) eqn:Ec.
    + rewrite IH. split.
      * intros (s & rest & -> & Hd & Ha). exists (t :: s), rest. split_and!; try done. constructor; [unfold fits_char; lia|done].
      * intros (s & rest & Hn & Hd & Ha). inversion Hd; subst. injection Hn as -> ->. by eexists _, rest.
    + split; [done|]. intros (s & rest & Hn & Hd & Ha). inversion Hd as [|c' t' es s' Hf|]; subst. injection Hn as -> ->.
      unfold fits_char in Hf. lia.
Qed.

Lemma matchhere_true re : forall text, matchhere re text = true <-> matches_prefix re text.
Proof.
  induction re as [re IH] using (induction_ltof1 _ (@length Z)); unfold ltof in IH. intros text.
  destruct re as [|c [|s re]].
  - simpl. split; [|done]. intros _. exists [], text. split_and!; [done|constructor|done].
  - pose proof (match_one c [] text (IH [] ltac:(simpl; lia))) as H1. simpl in H1 |- *. unfold matches_prefix. simpl.
    destruct (c =? dollar); simpl; [|done].
    destruct text as [|t text]; split; try done.
    + intros _. exists [], []. split_and!; [done|constructor|done].
    + intros (u & rest & Hn & Hd & Ha). inversion Hd; subst. simpl in Hn. by rewrite Ha in Hn.
  - simpl. destruct (s =? star) eqn:Es.
    + unfold matches_prefix. simpl. rewrite Es, matchstar_true. pose proof (IH re ltac:(simpl; lia)) as H. destruct (elems re) as [es a] eqn:Ee. simpl.
      split.
      * intros (u & rest & -> & Hu & Hf). apply H in Hf as (v & rest' & -> & Hd & Ha). rewrite Ee in *. simpl in *.
        exists (u ++ v), rest'. split_and!; [by rewrite app_assoc|by constructor|done].
      * intros (v & rest & -> & Hd & Ha). inversion Hd as [| |c' u es' v' Hu Hd']; subst.
        exists u, (v' ++ rest). split_and!; [by rewrite app_assoc|done|]. apply H. exists v', rest. by rewrite Ee.
    + pose proof (match_one c (s :: re) text (IH (s :: re) ltac:(simpl; lia))) as H1. rewrite H1.
      unfold matches_prefix. rewrite (elems_one c s re Es). by destruct (elems (s :: re)).
Qed.

Lemma match_anywhere_true re text :
  match_anywhere re text = true <-> exists before here, text = before ++ here /\ matches_prefix re here.
Proof.
  induction text as [|t text IH]; simpl; destruct (matchhere re _) eqn:E.
  - split; [|done]. intros _. exists [], []. split; [done|by apply matchhere_true].
  - split; [done|]. intros (b & h & Hn & Hm). symmetry in Hn. apply app_nil in Hn as [-> ->]. apply matchhere_true in Hm. congruence.
  - split; [|done]. intros _. exists [], (t :: text). split; [done|by apply matchhere_true].
  - rewrite IH. split.
    + intros (b & h & -> & Hm). by exists (t :: b), h.
    + intros ([|x b] & h & Hn & Hm); simpl in Hn; [subst; apply matchhere_true in Hm; congruence|].
      injection Hn as <- ->. by exists b, h.
Qed.

(** C35: match finds the pattern in the text exactly when some part of the text is in the
    language the pattern's elements denote: the part starts the text when the pattern starts
    with '^' and ends it when the pattern ends with '$'; 'c*' stands for any run of [c] and
    '.' for any character. *)
Theorem match_correct re text : match_ re text = true <-> matches re text.
Proof.
  unfold matches, match_, anchored. destruct re as [|c re]; [apply match_anywhere_true|].
  destruct (c =? caret); [apply matchhere_true|apply match_anywhere_true].
Qed.

(** ** The lines grep prints *)

Lemma strchr_Some s c i : strchr s c = Some i -> s = take i s ++ c :: drop (S i) s /\ (c ∉ take i s) /\ take (S i) s = take i s ++ [c].
Proof.
  revert i. induction s as [|x s IH]; intros i; simpl; [done|].
  destruct (x =? 0); [done|]. destruct (Z.eqb_spec x c) as [->|Hne].
  - intros [= <-]. split_and!; [done|apply not_elem_of_nil|done].
  - intros (j & Hj & ->)%fmap_Some. destruct (IH j Hj) as (E1 & E2 & E3).
    split_and!; [exact (f_equal (cons x) E1)|by apply not_elem_of_cons|exact (f_equal (cons x) E3)].
Qed.
Lemma strchr_None s c : 0 ∉ s -> strchr s c = None -> c ∉ s.
Proof.
  induction s as [|x s IH]; simpl; intros H0; [intros _; apply not_elem_of_nil|].
  apply not_elem_of_cons in H0 as [Hx H0]. rewrite (proj2 (Z.eqb_neq x 0)) by done.
  destruct (Z.eqb_spec x c) as [->|Hne]; [done|]. rewrite fmap_None. intros Hs. apply not_elem_of_cons. auto.
Qed.

Lemma first_unique (a b x y : list Z) c : c ∉ a -> c ∉ b -> a ++ c :: x = b ++ c :: y -> a = b /\ x = y.
Proof.
  revert b. induction a as [|u a IH]; intros [|v b] Ha Hb E; simpl in E; try done.
  - by injection E.
  - injection E as -> _. exfalso. apply Hb. left.
  - injection E as -> _. exfalso. apply Ha. left.
  - injection E as -> E. apply not_elem_of_cons in Ha as [_ Ha], Hb as [_ Hb]. destruct (IH b Ha Hb E). by subst.
Qed.

Definition cat (lines : list (list Z)) : list Z := concat (map (fun l => l ++ [newline]) lines).
Definition printed (pattern : list Z) (lines : list (list Z)) : list Z := cat (List.filter (match_ pattern) lines).

Lemma elem_of_cat x lines : x ∈ cat lines -> x = newline \/ exists l, l ∈ lines /\ x ∈ l.
Proof. unfold cat. induction lines as [|l lines IH]; simpl; set_solver. Qed.

Lemma printed_cons pattern l lines : printed pattern (l :: lines) = (if match_ pattern l then l ++ [newline] else []) ++ printed pattern lines.
Proof. unfold printed, cat. simpl. by destruct (match_ pattern l). Qed.

Lemma printed_app pattern l1 l2 : printed pattern (l1 ++ l2) = printed pattern l1 ++ printed pattern l2.
Proof. induction l1 as [|l l1 IH]; [done|]. simpl. by rewrite !printed_cons, IH, app_assoc. Qed.

(** The inner loop takes whole lines off the front and leaves what has no newline. *)
Lemma scan_lines_spec pattern lines : forall fuel buf rest last out,
  (length buf < fuel)%nat -> 0 ∉ buf -> newline ∉ last -> Forall (fun l => newline ∉ l) lines -> buf ++ rest = cat lines ++ last ->
  exists finished todo p, lines = finished ++ todo /\ scan_lines fuel pattern buf out = (p, out ++ printed pattern finished) /\
    p ++ rest = cat todo ++ last /\ (newline ∉ p) /\ (0 ∉ p) /\
    (finished = [] -> p = buf) /\ (finished <> [] -> (length p < length buf)%nat).
Proof.
  induction lines as [|l lines IH]; intros [|fuel] buf rest last out Hf H0 Hlast Hl E; try lia; simpl.
  - destruct (strchr buf newline) as [i|] eqn:Ei.
    + exfalso. apply Hlast. simpl in E. rewrite <- E. apply strchr_Some in Ei as [Ei _]. rewrite Ei. set_solver.
    + exists [], [], buf. split_and!; try done; [unfold printed; simpl; by rewrite app_nil_r|by apply strchr_None].
  - apply Forall_cons in Hl as [Hl Hls]. destruct (strchr buf newline) as [i|] eqn:Ei.
    + apply strchr_Some in Ei as (Eb & Hi & Hs). set (a := take i buf) in *. set (b := drop (S i) buf) in *.
      assert (Hab : a = l /\ b ++ rest = cat lines ++ last).
      { apply (first_unique _ _ _ _ newline); [done|done|]. rewrite Eb in E. unfold cat in *. simpl in E. rewrite <- !app_assoc in E. simpl in E. exact E. }
      destruct Hab as [-> Hb]. assert (Hlen : (length b < length buf)%nat) by (rewrite Eb, length_app; simpl; lia).
      destruct (IH fuel b rest last (if match_ pattern l then out ++ take (S i) buf else out)) as (fin & todo & p & -> & Es & Ep & Hp & Hp0 & Hd1 & Hd2);
        [lia|rewrite Eb in H0; set_solver|done|done|done|].
      exists (l :: fin), todo, p. rewrite Es, printed_cons. split_and!; try done.
      * f_equal. destruct (match_ pattern l); [|done]. by rewrite Hs, <- app_assoc.
      * intros _. destruct fin; [rewrite Hd1 by done; lia|]. specialize (Hd2 ltac:(done)). lia.
    + exists [], (l :: lines), buf. split_and!; try done; [unfold printed; simpl; by rewrite app_nil_r|by apply strchr_None].
Qed.

Lemma cat_no_newline lines p last : newline ∉ p -> p = cat lines ++ last -> lines = [].
Proof.
  intros Hp E. destruct lines as [|l lines]; [done|]. exfalso. apply Hp. rewrite E. unfold cat. simpl.
  rewrite <- !app_assoc. set_solver.
Qed.

Section GrepSpec.
Context (read : nat -> list Z -> nat) (Hread : forall k input, read k input = (k `min` length input)%nat).
Context (pattern : list Z).

(** A full buffer that starts at the beginning of a line holds the whole line. *)
Lemma full_buffer buf rest lines last : length buf = (BUFSIZE - 1)%nat -> newline ∉ buf ->
  Forall (fun l => (length l < BUFSIZE - 1)%nat) lines -> buf ++ rest = cat lines ++ last -> lines = [].
Proof.
  intros Hlen Hb Hl E. destruct lines as [|l lines]; [done|]. exfalso. apply Hb. apply Forall_cons in Hl as [Hl _].
  assert (H : (buf ++ rest) !! length l = Some newline).
  { rewrite E. unfold cat. simpl. rewrite <- !app_assoc. by rewrite lookup_app_r, Nat.sub_diag by lia. }
  rewrite lookup_app_l in H by lia. by eapply list_elem_of_lookup_2.
Qed.

Lemma grep_round fuel : forall kept input out lines last,
  (length input < fuel)%nat -> (length kept < BUFSIZE - 1)%nat -> newline ∉ kept -> 0 ∉ kept -> 0 ∉ input -> newline ∉ last ->
  Forall (fun l => newline ∉ l) lines -> Forall (fun l => (length l < BUFSIZE - 1)%nat) lines -> kept ++ input = cat lines ++ last ->
  grep read pattern fuel kept input out = Some (out ++ printed pattern lines).
Proof.
  induction fuel as [|fuel IH]; intros kept input out lines last Hf Hk Hkn Hk0 Hi0 Hlast Hln Hll E; [lia|].
  simpl. rewrite Hread. unfold BUFSIZE in *. destruct (Nat.eqb_spec ((1024 - length kept - 1) `min` length input) 0) as [Hn|Hn].
  { assert (input = []) as -> by (apply nil_length_inv; lia). rewrite app_nil_r in E.
    rewrite (cat_no_newline lines kept last Hkn E). unfold printed. simpl. by rewrite app_nil_r. }
  set (n := ((1024 - length kept - 1) `min` length input)%nat) in *.
  assert (Hb0 : 0 ∉ kept ++ take n input). { rewrite elem_of_app. intros [H|H]; [done|]. apply Hi0. by eapply elem_of_take in H as (? & H & _); eapply list_elem_of_lookup_2. }
  assert (Hd0 : 0 ∉ drop n input). { intros H. apply Hi0. rewrite <- (take_drop n input), elem_of_app. by right. }
  assert (Eb : (kept ++ take n input) ++ drop n input = cat lines ++ last) by (by rewrite <- app_assoc, take_drop).
  assert (Hlen : length (kept ++ take n input) = (length kept + n)%nat) by (rewrite length_app, length_take; lia).
  destruct (scan_lines_spec pattern lines (S (length (kept ++ take n input))) (kept ++ take n input) (drop n input) last out)
    as (fin & todo & p & -> & Es & Ep & Hp & Hp0 & Hd1 & Hd2); [lia|done..|]. simpl in Es. rewrite Es. clear Es.
  apply Forall_app in Hln as [_ Hln], Hll as [_ Hll].
  rewrite (printed_app _ fin), app_assoc.
  assert (Hdl : (length (drop n input) < fuel)%nat) by (rewrite length_drop; lia).
  destruct (Nat.eqb_spec (length p) (length (kept ++ take n input))) as [Hpl|Hpl].
  - destruct fin as [|l fin]; [|specialize (Hd2 ltac:(done)); lia]. rewrite Hd1 in * by done.
    assert (todo = []) as ->.
    { destruct (decide (length input <= n)%nat) as [Hle|Hgt].
      - rewrite (drop_ge input n Hle), app_nil_r in Ep. by apply (cat_no_newline todo _ last Hp Ep).
      - apply (full_buffer (kept ++ take n input) (drop n input) todo last); unfold BUFSIZE; try done; lia. }
    apply (IH [] (drop n input) _ [] (drop n input)); try done; try (simpl; lia); try apply not_elem_of_nil.
    intros H. apply Hlast. simpl in Ep. rewrite <- Ep, elem_of_app. by right.
  - apply (IH p (drop n input) _ todo last); try done. destruct fin; [rewrite Hd1 in Hpl by done; lia|]. specialize (Hd2 ltac:(done)). lia.
Qed.

(** C36: on a file whose lines fit the buffer (with their newline and the terminating zero) and
    hold no zero byte, grep ends and writes exactly the lines that match, each with its
    newline, in order; what follows the last newline is not looked at. *)
Theorem grep_prints_matching lines last :
  Forall (fun l => (newline ∉ l) /\ (0 ∉ l) /\ (length l < BUFSIZE - 1)%nat) lines -> newline ∉ last -> 0 ∉ last ->
  grep read pattern (S (length (cat lines ++ last))) [] (cat lines ++ last) [] =
  Some (cat (List.filter (match_ pattern) lines)).
Proof.
  intros Hl Hn H0. rewrite (grep_round _ [] _ [] lines last); try done; try (simpl; lia); try apply not_elem_of_nil.
  - apply not_elem_of_app. split; [|done]. intros [H|(l & Hin & Hx)]%elem_of_cat; [done|].
    rewrite Forall_forall in Hl. by destruct (Hl l Hin) as (_ & Hl0 & _).
  - eapply Forall_impl; [exact Hl|]. naive_solver.
  - eapply Forall_impl; [exact Hl|]. naive_solver.
Qed.
End GrepSpec.

(** "ab*$" finds the first and third of three lines. *)
Lemma grep_prints_matching_witness :
  grep (fun k l => k `min` length l)%nat [97; 98; star; dollar] 9 [] [97; 98; 10; 98; 10; 97; 10; 97] [] = Some [97; 98; 10; 97; 10].
Proof.
  apply (grep_prints_matching (fun k l => k `min` length l)%nat (fun _ _ => eq_refl) [97; 98; star; dollar] [[97; 98]; [98]; [97]] [97]).
  - repeat constructor; try set_solver; simpl; unfold BUFSIZE; lia.
  - set_solver.
  - set_solver.
Defined.

(** A line that comes in two reads loses its first part. *)
Example split_line_lost : grep (fun k l => (k `min` length l) `min` 2)%nat [97] 5 [] [97; 98; 99; 10] [] = Some [].
Proof. vm_compute. reflexivity. Qed.
