(* ===== verification/Wc.v ===== *)
(** * Wc: counting lines, words and characters (offline_4/xv6/wc.c)

    The file is read in pieces of whatever size read returns; the flag [inword] carries over
    from one piece to the next. *)

From S2P Require Import Prelude Grep.

(** " \r\t\n\v" *)
Definition spaces : list Z := [32; 13; 9; 10; 11].
Definition bufsize : nat := 512.

(** l, w, c and inword. *)
Record counts : Type := mkCounts { lines : Z; words : Z; bytes : Z; inword : bool }.

(** The body of the for loop. *)
Definition count_char (b : Z) (x : counts) : counts :=
  let c := s32 (bytes x + 1) in
  let l := if b =? newline then s32 (lines x + 1) else lines x in
  match strchr spaces b with
  | Some _ => mkCounts l (words x) c false
  | None => if negb (inword x) then mkCounts l (s32 (words x + 1)) c true else mkCounts l (words x) c true
  end.
Fixpoint count_buf (buf : list Z) (x : counts) : counts :=
  match buf with [] => x | b :: buf => count_buf buf (count_char b x) end.

Section Wc.
(** read(fd, buf, k) with [input] left in the file: how many bytes, or -1. *)
Context (read : nat -> list Z -> Z).

Fixpoint wc_loop (input : list Z) (x : counts) (fuel : nat) : option (option counts) :=
  match fuel with
  | O => None
  | S fuel =>
      let n := read bufsize input in
      if 0 <? n then wc_loop (drop (Z.to_nat n) input) (count_buf (take (Z.to_nat n) input) x) fuel
      else Some (if n <? 0 then None else Some x)
  end.
(** The counts wc prints; the inner [None] is its exit on a read error. *)
Definition wc (input : list Z) (fuel : nat) : option (option counts) := wc_loop input (mkCounts 0 0 0 false) fuel.
End Wc.

(** ** What is counted *)

Definition space (b : Z) : bool := bool_decide (b ∈ spaces).
Definition line_count (s : list Z) : Z := Z.of_nat (length (filter (fun b => b = newline) s)).
(** A word starts at a character that is no space and is first or comes after a space. *)
Definition starts (s : list Z) (i : nat) : bool :=
  match s !! i with
  | Some b => negb (space b) && match i with O => true | S j => match s !! j with Some a => space a | None => true end end
  | None => false
  end.
Definition word_count (s : list Z) : Z := Z.of_nat (length (filter (fun i => starts s i = true) (seq 0 (length s)))).

Lemma strchr_spaces b : match strchr spaces b with Some _ => space b = true | None => space b = false end.
Proof.
  unfold space. destruct (strchr spaces b) as [i|] eqn:E.
  - apply strchr_Some in E as (E & _). apply bool_decide_eq_true. rewrite E. set_solver.
  - apply bool_decide_eq_false. apply (strchr_None spaces b); [|done]. unfold spaces. set_solver.
Qed.

(** After [s] the loop has counted what is in [s]. *)
Record counted (s : list Z) (x : counts) : Prop := {
  ct_lines : lines x = line_count s;
  ct_words : words x = word_count s;
  ct_bytes : bytes x = Z.of_nat (length s);
  ct_inword : inword x = match last s with Some b => negb (space b) | None => false end
}.

Lemma starts_app s t i : (i < length s)%nat -> starts (s ++ t) i = starts s i.
Proof.
  intros Hi. unfold starts. rewrite lookup_app_l by done. destruct (s !! i); [|done]. destruct i as [|j]; [done|].
  by rewrite lookup_app_l by lia.
Qed.
Lemma word_count_snoc s b : word_count (s ++ [b]) = word_count s + if starts (s ++ [b]) (length s) then 1 else 0.
Proof.
  unfold word_count. rewrite length_app. cbn [length]. rewrite seq_app, filter_app, length_app. cbn [Nat.add seq].
  assert (E : filter (fun i => starts (s ++ [b]) i = true) (seq 0 (length s)) = filter (fun i => starts s i = true) (seq 0 (length s))).
  { apply filter_ext_in. intros i [_ Hi]%elem_of_seq. by rewrite starts_app by lia. }
  rewrite E. destruct (starts (s ++ [b]) (length s)) eqn:Eb; [rewrite filter_cons_True by done|rewrite filter_cons_False by congruence]; rewrite filter_nil; simpl; lia.
Qed.
Lemma starts_last s b : starts (s ++ [b]) (length s) = negb (space b) && match last s with Some a => space a | None => true end.
Proof.
  unfold starts. rewrite lookup_app_r, Nat.sub_diag by lia. cbn [lookup list_lookup]. f_equal. rewrite last_lookup.
  destruct (length s) as [|j] eqn:E; [by destruct s|]. rewrite lookup_app_l by lia. cbn [Nat.pred]. by destruct (s !! j).
Qed.

Lemma count_char_counted s b x : counted s x -> Z.of_nat (length s) + 1 < 2 ^ 31 -> counted (s ++ [b]) (count_char b x).
Proof.
  intros [Hl Hw Hc Hi] Hlen. assert (L : line_count (s ++ [b]) = line_count s + if b =? newline then 1 else 0).
  { unfold line_count. rewrite filter_app, length_app. destruct (Z.eqb_spec b newline) as [->|Hne]; [rewrite filter_cons_True by done|rewrite filter_cons_False by done]; rewrite filter_nil; simpl; lia. }
  assert (Hlc : 0 <= line_count s <= Z.of_nat (length s)) by (unfold line_count; pose proof (length_filter (fun b => b = newline) s); lia).
  assert (Hwc : 0 <= word_count s <= Z.of_nat (length s)).
  { unfold word_count. pose proof (length_filter (fun i => starts s i = true) (seq 0 (length s))) as K. rewrite length_seq in K. lia. }
  pose proof (word_count_snoc s b) as W. rewrite starts_last in W. unfold count_char. rewrite Hl, Hw, Hc, Hi.
  pose proof (strchr_spaces b) as Hs. assert (Hlast : last (s ++ [b]) = Some b) by apply last_snoc.
  assert (El : (if b =? newline then s32 (line_count s + 1) else line_count s) = line_count (s ++ [b])) by (rewrite L; destruct (_ =? _); [rewrite s32_small; lia|lia]).
  assert (Eb : s32 (Z.of_nat (length s) + 1) = Z.of_nat (length (s ++ [b]))) by (rewrite length_app, s32_small by lia; simpl; lia).
  rewrite El, Eb. destruct (strchr spaces b); rewrite Hs in W; cbn [negb andb] in W.
  - split; cbn [lines words bytes inword]; [done|lia|done|by rewrite Hlast, Hs].
  - destruct (last s) as [a|]; [destruct (space a)|]; cbn [negb] in *; split; cbn [lines words bytes inword]; try done; try (by rewrite Hlast, Hs); try lia; rewrite s32_small; lia.
Qed.

Lemma count_buf_counted t : forall s x, counted s x -> Z.of_nat (length s) + Z.of_nat (length t) < 2 ^ 31 -> counted (s ++ t) (count_buf t x).
Proof.
  induction t as [|b t IH]; intros s x Hc Hlen; cbn [count_buf length] in *; [by rewrite app_nil_r|].
  replace (s ++ b :: t) with ((s ++ [b]) ++ t) by (by rewrite <- app_assoc). apply IH; [apply count_char_counted; [done|lia]|].
  rewrite length_app. simpl. lia.
Qed.

Section Correct.
Context (read : nat -> list Z -> Z).
(** read returns 0 at the end of the file only, and no more than there is and was asked for. *)
Context (Hread : forall k input, (0 < k)%nat -> (read k input = 0 <-> input = []) /\ 0 <= read k input <= Z.of_nat (length input)).

Lemma wc_loop_counted fuel : forall s x input, counted s x -> Z.of_nat (length s) + Z.of_nat (length input) < 2 ^ 31 -> (length input < fuel)%nat ->
  exists y, wc_loop read input x fuel = Some (Some y) /\ counted (s ++ input) y.
Proof using Hread.
  induction fuel as [|fuel IH]; intros s x input Hc Hlen Hfuel; [lia|]. cbn [wc_loop].
  destruct (Hread bufsize input) as [Hz Hn]; [unfold bufsize; lia|]. destruct (Z.ltb_spec 0 (read bufsize input)) as [Hp|Hp].
  - set (n := Z.to_nat (read bufsize input)) in *. assert (Hnl : (0 < n <= length input)%nat) by lia.
    destruct (IH (s ++ take n input) (count_buf (take n input) x) (drop n input)) as (y & Hy & Hcy).
    + apply count_buf_counted; [done|]. rewrite length_take. lia.
    + rewrite length_app, length_take, length_drop. lia.
    + rewrite length_drop. lia.
    + exists y. split; [done|]. by rewrite <- app_assoc, take_drop in Hcy.
  - assert (read bufsize input = 0) as E by lia. rewrite E. exists x. split; [done|]. apply Hz in E as ->. by rewrite app_nil_r.
Qed.

(** wc prints the numbers of newlines, words and bytes of the whole file, however read
    cuts the file into pieces: a word that runs over the end of the buffer counts once. *)
Theorem wc_counts input : Z.of_nat (length input) < 2 ^ 31 ->
  exists x, wc read input (S (length input)) = Some (Some x) /\
    lines x = line_count input /\ words x = word_count input /\ bytes x = Z.of_nat (length input).
Proof using Hread.
  intros Hlen. destruct (wc_loop_counted (S (length input)) [] (mkCounts 0 0 0 false) input) as (x & Hx & [L W C _]); [by split|simpl; lia|lia|].
  exists x. by split_and!.
Qed.
End Correct.

(** "ab c\nd" with read giving two bytes at a time. *)
Lemma wc_counts_witness :
  exists x, wc (fun k input => Z.of_nat (2 `min` length input)) [97; 98; 32; 99; 10; 100] 7 = Some (Some x) /\ lines x = 1 /\ words x = 3 /\ bytes x = 6.
Proof.
  assert (Hr : forall (k : nat) (input : list Z), (0 < k)%nat ->
    (Z.of_nat (2 `min` length input) = 0 <-> input = []) /\ 0 <= Z.of_nat (2 `min` length input) <= Z.of_nat (length input)).
  { intros k input _. split; [|lia]. split; [intros E; destruct input; [done|cbn [length] in E; lia]|by intros ->]. }
  exact (wc_counts (fun k input => Z.of_nat (2 `min` length input)) Hr [97; 98; 32; 99; 10; 100] ltac:(simpl; lia)).
Defined.
