(* ===== verification/Umalloc.v ===== *)
(** * Umalloc: the memory allocator of user programs (offline_4/xv6/umalloc.c)

    A header is two words, the pointer [ptr] to the next free block and the size in units of
    a header, itself included. Memory grows with sbrk; whether the kernel has the frames for
    it is the parameter [frames]. Loops over the free list take fuel. *)

From stdpp Require Import sorting.
From S2P Require Import Prelude Memory Mmu.
#[local] Open Scope Z_scope.

Record uheap : Type := mkHeap { mem : memory; freep : Z; brk : Z }.
Definition set_mem (m : memory) (s : uheap) : uheap := mkHeap m (freep s) (brk s).
Definition set_freep (p : Z) (s : uheap) : uheap := mkHeap (mem s) p (brk s).
Definition set_brk (b : Z) (s : uheap) : uheap := mkHeap (mem s) (freep s) b.

(** union header: p->s.ptr at p, p->s.size at p + 4, and p + n for a Header pointer. *)
Definition sizeof_Header : Z := 8.
Definition hptr (m : memory) (p : Z) : Z := load32 m p.
Definition hsize (m : memory) (p : Z) : Z := load32 m (p + 4).
Definition units (p n : Z) : Z := u32 (p + sizeof_Header * n).

Section Malloc.
Context (base : Z) (frames : Z -> Z -> bool).
Abbreviation U := (M uheap).

Definition get_ptr (p : Z) : U Z := gets (fun s => hptr (mem s) p).
Definition get_size (p : Z) : U Z := gets (fun s => hsize (mem s) p).
Definition put_ptr (p v : Z) : U unit := modify (fun s => set_mem (store32 (mem s) p v) s).
Definition put_size (p v : Z) : U unit := modify (fun s => set_mem (store32 (mem s) (p + 4) v) s).

(** sys_sbrk and growproc, with the bounds checks of allocuvm and deallocuvm. *)
Definition sbrk (n : Z) : U Z :=
  old ← gets brk;
  let n := s32 n in
  let new := u32 (old + n) in
  let r := if 0 <? n then if KERNBASE <=? new then 0 else if new <? old then old else if frames old new then new else 0
           else if n <? 0 then if old <=? new then old else new
           else old in
  if (r =? 0) && negb (n =? 0) then ret (u32 (-1))
  else modify (set_brk r);; ret old.

(** Where in the list the block [bp] belongs: after the result. *)
Fixpoint free_loop (bp p : Z) (fuel : nat) : U Z :=
  match fuel with
  | O => fun _ => OutOfFuel
  | S fuel =>
      q ← get_ptr p;
      if (p <? bp) && (bp <? q) then ret p
      else if (q <=? p) && ((p <? bp) || (bp <? q)) then ret p
      else free_loop bp q fuel
  end.

(** [c] becomes the next block of [a], in one piece with it when it lies at its end. *)
Definition join_to (a c : Z) : U unit :=
  asz ← get_size a;
  if units a asz =? c then
    csz ← get_size c;
    put_size a (u32 (asz + csz));;
    cq ← get_ptr c;
    put_ptr a cq
  else put_ptr a c.

Definition free (ap : Z) (fuel : nat) : U unit :=
  let bp := u32 (ap - sizeof_Header) in
  p ← gets freep;
  p ← free_loop bp p fuel;
  q ← get_ptr p;
  join_to bp q;;
  join_to p bp;;
  modify (set_freep p).

Definition morecore (nu : Z) (fuel : nat) : U Z :=
  let nu := if nu <? 4096 then 4096 else nu in
  p ← sbrk (u32 (nu * sizeof_Header));
  if p =? u32 (-1) then ret 0
  else
    put_size p nu;;
    free (units p 1) fuel;;
    gets freep.

(** The block at [p], of size [size], is large enough: all of it, or its tail. *)
Definition take_block (nunits prevp p size : Z) : U Z :=
  p ← (if size =? nunits then q ← get_ptr p; put_ptr prevp q;; ret p
       else
         put_size p (u32 (size - nunits));;
         let p := units p (u32 (size - nunits)) in
         put_size p nunits;;
         ret p);
  modify (set_freep prevp);;
  ret (units p 1).

Fixpoint malloc_loop (nunits prevp p : Z) (ffuel fuel : nat) : U Z :=
  match fuel with
  | O => fun _ => OutOfFuel
  | S fuel =>
      size ← get_size p;
      if nunits <=? size then take_block nunits prevp p size
      else
        fp ← gets freep;
        if p =? fp then
          p ← morecore nunits ffuel;
          if p =? 0 then ret 0
          else q ← get_ptr p; malloc_loop nunits p q ffuel fuel
        else q ← get_ptr p; malloc_loop nunits p q ffuel fuel
  end.

Definition nunits_of (nbytes : Z) : Z := u32 (u32 (nbytes + sizeof_Header - 1) / sizeof_Header + 1).
Definition malloc (nbytes : Z) (fuel : nat) : U Z :=
  let nunits := nunits_of nbytes in
  fp ← gets freep;
  prevp ← (if fp =? 0 then put_ptr base base;; modify (set_freep base);; put_size base 0;; ret base else ret fp);
  q ← get_ptr prevp;
  malloc_loop nunits prevp q fuel fuel.

(** ** Lists of blocks: address and size *)

Abbreviation blk := (Z * Z)%type.
Definition stop (b : blk) : Z := b.1 + 8 * b.2.
Definition disj (a b : blk) : Prop := stop a <= b.1 \/ stop b <= a.1.
Fixpoint apart (l : list blk) : Prop := match l with [] => True | a :: l => Forall (disj a) l /\ apart l end.
Definition total (l : list blk) : Z := sum_list_Z (map snd l).
(** Ascending, with a gap after each block. *)
Definition gap (a b : blk) : Prop := stop a < b.1.

(** A block put before a list, in one piece with the first block when there is no gap. *)
Definition join (a : blk) (l : list blk) : list blk :=
  match l with
  | c :: l' => if stop a =? c.1 then (a.1, a.2 + c.2) :: l' else a :: l
  | [] => [a]
  end.

Lemma disj_sym a b : disj a b -> disj b a.
Proof. unfold disj. tauto. Qed.
#[local] Instance apart_perm : Proper ((≡ₚ) ==> iff) apart.
Proof.
  assert (P : forall l l', l ≡ₚ l' -> apart l -> apart l').
  { induction 1 as [|a l l' Hp IH|a b l|l l' l'' _ IH1 _ IH2]; simpl; try tauto.
    - intros [Ha Hl]. split; [by rewrite <- Hp|auto].
    - intros [Ha [Hb Hl]]. apply Forall_cons in Ha as [Hba Ha]. split_and!; try done. constructor; [by apply disj_sym|done]. }
  intros l l' Hp. split; apply P; done.
Qed.
#[local] Instance total_perm : Proper ((≡ₚ) ==> eq) total.
Proof. intros l l' Hp. unfold total. induction Hp; simpl; lia. Qed.
Lemma total_units_app l l' : total (l ++ l') = total l + total l'.
Proof. unfold total. by rewrite map_app, sum_list_Z_app. Qed.

Lemma apart_app l l' : apart (l ++ l') <-> apart l /\ apart l' /\ Forall (fun a => Forall (disj a) l') l.
Proof. induction l as [|a l IH]; simpl; [naive_solver|]. rewrite IH, Forall_app, Forall_cons. naive_solver. Qed.
Lemma apart_elem a l b : apart (a :: l) -> b ∈ l -> disj a b.
Proof. intros [H _] Hb. by eapply Forall_forall in H. Qed.

Lemma apart_cut x n k l : 0 <= n -> 0 <= k -> apart ((x, n + k) :: l) -> apart ((x, n) :: (x + 8 * n, k) :: l).
Proof.
  intros Hn Hk [H Hl]. simpl. rewrite Forall_cons. split_and!; [unfold disj, stop; simpl; lia| | |done];
    (eapply Forall_impl; [exact H|]); intros [y m]; unfold disj, stop; simpl; lia.
Qed.
Lemma apart_glue x n k l : 0 <= n -> 0 <= k -> Forall (fun b => 1 <= b.2) l -> apart ((x, n) :: (x + 8 * n, k) :: l) -> apart ((x, n + k) :: l).
Proof.
  intros Hn Hk Hpos ([_ H1]%Forall_cons & H2 & Hl). split; [|done]. apply Forall_forall. intros [y m] Hy.
  eapply Forall_forall in H1, H2, Hpos; [|done..]. unfold disj, stop in *. simpl in *. lia.
Qed.

Lemma join_length a l : (length (join a l) <= S (length l))%nat.
Proof. destruct l as [|c l]; cbn [join length]; [lia|]. destruct (_ =? _); cbn [length]; lia. Qed.

(** Blocks within the heap. *)
Definition bounded (lo hi : Z) (l : list blk) : Prop := Forall (fun b => lo + 8 <= b.1 /\ 1 <= b.2 /\ stop b <= hi) l.

Lemma total_cons x n l : total ((x, n) :: l) = n + total l.
Proof. done. Qed.
Lemma join_total a l : total (join a l) = a.2 + total l.
Proof. destruct l as [|[c k] l]; cbn [join]; [done|]. destruct (_ =? _); [|by destruct a]. rewrite !total_cons. simpl. lia. Qed.

Lemma join_cases a l : exists n r, join a l = (a.1, n) :: r /\
  (n = a.2 /\ r = l \/ exists c, l = c :: r /\ stop a = c.1 /\ n = a.2 + c.2).
Proof.
  destruct l as [|c l]; cbn [join]; [exists a.2, []; by destruct a; auto|]. destruct (Z.eqb_spec (stop a) c.1); [|by exists a.2, (c :: l); destruct a; auto].
  exists (a.2 + c.2), l. split; [done|]. right. by exists c.
Qed.
Lemma join_addr a l c : c ∈ join a l -> c.1 = a.1 \/ c ∈ l.
Proof.
  destruct (join_cases a l) as (n & r & -> & Hr). intros [->|Hc]%elem_of_cons; [by left|right]. destruct Hr as [[_ <-]|(d & -> & _)]; [done|by right].
Qed.
Lemma join_apart a l al : Forall (fun b => 1 <= b.2) (a :: l ++ al) -> apart (a :: l ++ al) -> apart (join a l ++ al).
Proof.
  intros Hpos Ha. destruct (join_cases a l) as (n & r & -> & [[-> ->]|(c & -> & E & ->)]); [by destruct a|].
  destruct a as [x k], c as [y j]. cbn [fst snd stop] in *. unfold stop in E. cbn [fst snd] in E. subst y.
  apply Forall_cons in Hpos as [Hk Hpos]. cbn [app] in *. apply Forall_cons in Hpos as [Hj Hpos]. cbn [snd] in *.
  by apply apart_glue; [lia|lia|..].
Qed.
Lemma join_sorted a l : Forall (fun b => 1 <= b.2) l -> Forall (fun b => stop a <= b.1) l -> StronglySorted gap l -> StronglySorted gap (join a l).
Proof.
  intros Hpos Hge Hs. destruct l as [|c l]; cbn [join]; [by repeat constructor|].
  apply StronglySorted_inv in Hs as [Hs Hc]. apply Forall_cons in Hpos as [Hp _], Hge as [Hg _].
  destruct (Z.eqb_spec (stop a) c.1) as [E|E].
  - constructor; [done|]. eapply Forall_impl; [exact Hc|]. unfold gap, stop in *. cbn [fst snd]. intros d. lia.
  - constructor; [by constructor|]. constructor; [unfold gap; lia|]. eapply Forall_impl; [exact Hc|]. unfold gap, stop in *. intros d. lia.
Qed.
Lemma join_bounds lo hi a l : bounded lo hi (a :: l) -> bounded lo hi (join a l).
Proof.
  intros [Ha Hl]%Forall_cons. destruct l as [|c l]; cbn [join]; [by constructor|]. destruct (Z.eqb_spec (stop a) c.1) as [E|E]; [|by constructor].
  apply Forall_cons in Hl as [Hc Hl]. constructor; [|done]. unfold stop in *. cbn [fst snd]. lia.
Qed.
Lemma join_big a l : 0 <= a.2 -> Forall (fun b => 1 <= b.2) l -> exists c, c ∈ join a l /\ a.2 <= c.2 /\ Forall (fun b => exists c, c ∈ join a l /\ b.2 <= c.2) l.
Proof.
  intros Ha Hl. destruct (join_cases a l) as (n & r & -> & [[-> ->]|(c & -> & _ & ->)]).
  - exists (a.1, a.2). split; [by left|]. split; [done|]. apply Forall_forall. intros b Hb. exists b. split; [by right|done].
  - apply Forall_cons in Hl as [Hc _]. exists (a.1, a.2 + c.2). split; [by left|]. split; [cbn [snd]; lia|].
    constructor; [exists (a.1, a.2 + c.2); split; [by left|cbn [snd]; lia]|]. apply Forall_forall. intros b Hb. exists b. split; [by right|done].
Qed.

(** Putting [a] before the sorted [l], after the sorted [p]; [al] is what else there is. *)
Lemma join_good lo hi p a l al : StronglySorted gap p -> (forall x, x ∈ p -> gap x a) -> StronglySorted gap l ->
  (forall c, c ∈ l -> stop a <= c.1) -> bounded lo hi (p ++ a :: l ++ al) -> apart (p ++ a :: l ++ al) ->
  StronglySorted gap (p ++ join a l) /\ bounded lo hi (p ++ join a l) /\ apart ((p ++ join a l) ++ al) /\
  total (p ++ join a l) = a.2 + total (p ++ l) /\ forall b, b ∈ a :: l -> exists c, c ∈ join a l /\ b.2 <= c.2.
Proof.
  intros Sp Hpa Sl Hal B A.
  assert (Pos : Forall (fun b => 1 <= b.2) (p ++ a :: l ++ al)) by (eapply Forall_impl; [exact B|]; cbv beta; tauto).
  apply Forall_app in B as [Bp Bal]. rewrite app_comm_cons in Bal. apply Forall_app in Bal as [Ba _].
  rewrite Permutation_app_comm in A. rewrite Permutation_app_comm in Pos. cbn [app] in A, Pos. rewrite <- app_assoc in A, Pos.
  pose proof Pos as Pos'. apply Forall_cons in Pos' as [Pa Pl]. apply Forall_app in Pl as [Pl _].
  split_and!.
  - apply StronglySorted_app. split_and!; [|done|apply join_sorted; [done|by apply Forall_forall|done]].
    intros x y Hx Hy. specialize (Hpa x Hx). unfold gap, stop in *. destruct (join_addr _ _ _ Hy) as [->|Hy']; [done|]. specialize (Hal y Hy'). lia.
  - apply Forall_app. split; [done|]. by apply join_bounds.
  - rewrite (Permutation_app_comm p), <- app_assoc, (Permutation_app_comm p). by apply join_apart.
  - rewrite !total_units_app, join_total. lia.
  - destruct (join_big a l) as (c & Hc & Hle & Hrest); [lia|done|]. intros b [->|Hb]%elem_of_cons; [by exists c|]. by eapply Forall_forall in Hrest.
Qed.

(** Where a block belongs in a sorted list. *)
Lemma split_at b l : 1 <= b.2 -> Forall (fun c => 1 <= c.2) l -> Forall (disj b) l -> StronglySorted gap l ->
  exists l1 l2, l = l1 ++ l2 /\ Forall (fun c => stop c <= b.1) l1 /\ Forall (fun c => stop b <= c.1) l2.
Proof.
  intros Hb. induction l as [|c l IH]; intros Hpos Hd Hs; [by exists [], []|].
  apply Forall_cons in Hpos as [Hc Hpos], Hd as [Hbc Hd]. apply StronglySorted_inv in Hs as [Hs Hgc].
  destruct Hbc as [E|E].
  - exists [], (c :: l). split_and!; [done|done|]. constructor; [done|]. eapply Forall_impl; [exact Hgc|]. unfold gap, stop in *. intros d. lia.
  - destruct (IH Hpos Hd Hs) as (l1 & l2 & -> & H1 & H2). exists (c :: l1), l2. split_and!; [done|by constructor|done].
Qed.

(** ** Headers in memory *)

Definition far (x y : Z) : Prop := x + 8 <= y \/ y + 8 <= x.
(** [m'] differs from [m] only in the headers [hs]. *)
Definition only (hs : list Z) (m m' : memory) : Prop :=
  forall y, Forall (fun h => ~ (h <= y < h + 8)) hs -> load8 m' y = load8 m y.

Lemma only_refl hs m : only hs m m.
Proof. done. Qed.
Lemma only_ptr hs h m m' v : h ∈ hs -> only hs m m' -> only hs m (store32 m' h v).
Proof.
  intros Hh Ho y Hy. rewrite store32_lookup, decide_False; [by apply Ho|]. eapply Forall_forall in Hy; [|done]. lia.
Qed.
Lemma only_size hs h m m' v : h ∈ hs -> only hs m m' -> only hs m (store32 m' (h + 4) v).
Proof.
  intros Hh Ho y Hy. rewrite store32_lookup, decide_False; [by apply Ho|]. eapply Forall_forall in Hy; [|done]. lia.
Qed.
Lemma only_mono hs hs' m m' : hs ⊆ hs' -> only hs m m' -> only hs' m m'.
Proof. intros Hs Ho y Hy. apply Ho. apply Forall_forall. intros h Hh. eapply Forall_forall in Hy; [exact Hy|set_solver]. Qed.
Lemma only_trans hs m m1 m2 : only hs m m1 -> only hs m1 m2 -> only hs m m2.
Proof. intros H1 H2 y Hy. by rewrite H2, H1. Qed.
Lemma only_hptr hs m m' x : only hs m m' -> Forall (fun h => far h x) hs -> hptr m' x = hptr m x.
Proof.
  intros Ho Hf. apply load32_ext. intros y Hy. apply Ho. eapply Forall_impl; [exact Hf|]. unfold far. lia.
Qed.
Lemma only_hsize hs m m' x : only hs m m' -> Forall (fun h => far h x) hs -> hsize m' x = hsize m x.
Proof.
  intros Ho Hf. apply load32_ext. intros y Hy. apply Ho. eapply Forall_impl; [exact Hf|]. unfold far. lia.
Qed.

Lemma hptr_ptr m x v : hptr (store32 m x v) x = u32 v.
Proof. apply load32_store32_eq. Qed.
Lemma hptr_ptr_far m x v y : far x y -> hptr (store32 m x v) y = hptr m y.
Proof. unfold far. intros H. apply load32_store32_ne. lia. Qed.
Lemma hptr_size m x v : hptr (store32 m (x + 4) v) x = hptr m x.
Proof. apply load32_store32_ne. lia. Qed.
Lemma hptr_size_far m x v y : far x y -> hptr (store32 m (x + 4) v) y = hptr m y.
Proof. unfold far. intros H. apply load32_store32_ne. lia. Qed.
Lemma hsize_size m x v : hsize (store32 m (x + 4) v) x = u32 v.
Proof. apply load32_store32_eq. Qed.
Lemma hsize_size_far m x v y : far x y -> hsize (store32 m (x + 4) v) y = hsize m y.
Proof. unfold far. intros H. apply load32_store32_ne. lia. Qed.
Lemma hsize_ptr m x v : hsize (store32 m x v) x = hsize m x.
Proof. apply load32_store32_ne. lia. Qed.
Lemma hsize_ptr_far m x v y : far x y -> hsize (store32 m x v) y = hsize m y.
Proof. unfold far. intros H. apply load32_store32_ne. lia. Qed.

(** The pointers lead from the header [p] through [l] to [q]. *)
Fixpoint seg (m : memory) (p : Z) (l : list blk) (q : Z) : Prop :=
  match l with [] => hptr m p = q | b :: l => hptr m p = b.1 /\ seg m b.1 l q end.

Lemma seg_app m p l1 b l2 q : seg m p (l1 ++ b :: l2) q <-> seg m p l1 b.1 /\ seg m b.1 l2 q.
Proof. revert p. induction l1 as [|a l1 IH]; intros p; simpl; [done|]. rewrite IH. tauto. Qed.
Lemma seg_ext m m' p l q : (forall x, x ∈ p :: l.*1 -> hptr m' x = hptr m x) -> seg m p l q -> seg m' p l q.
Proof.
  revert p. induction l as [|a l IH]; intros p E; simpl.
  - by rewrite E by (by left).
  - rewrite E by (by left). intros [-> Hs]. split; [done|]. apply IH; [|done]. intros x Hx. apply E. by right.
Qed.
Lemma seg_only hs m m' p l q : only hs m m' -> Forall (fun h => Forall (far h) (p :: l.*1)) hs -> seg m p l q -> seg m' p l q.
Proof.
  intros Ho Hf. apply seg_ext. intros x Hx. apply (only_hptr hs _ _ _ Ho). eapply Forall_impl; [exact Hf|].
  intros h Hh. by eapply Forall_forall in Hh.
Qed.
Lemma seg_next m p l q i x : seg m p l q -> (p :: l.*1) !! i = Some x -> hptr m x = default q (l.*1 !! i).
Proof.
  revert p i. induction l as [|a l IH]; intros p i Hs Hi; simpl in *.
  - destruct i as [|i]; [by injection Hi as <-|done].
  - destruct Hs as [Hp Hs]. destruct i as [|i]; [by injection Hi as <-|]. by apply (IH a.1 i).
Qed.

Lemma hptr_range m x : 0 <= hptr m x < 2 ^ 32.
Proof. apply load32_range. Qed.
Lemma u32_hptr m x : u32 (hptr m x) = hptr m x.
Proof. apply u32_small, hptr_range. Qed.

(** The list that follows a block, given by its first address. *)
Definition follows (m : memory) (c : Z) (l : list blk) : Prop :=
  match l with [] => c = base | b :: l => c = b.1 /\ hsize m c = b.2 /\ seg m c l base end.
Lemma seg_follows m p l : seg m p l base -> Forall (fun b => hsize m b.1 = b.2) l -> follows m (hptr m p) l.
Proof. destruct l as [|b l]; simpl; [done|]. intros [-> Hs] [Hb _]%Forall_cons. done. Qed.

Lemma join_to_spec m f k a n c l : hsize m a = n -> 0 <= a -> 0 <= n -> 0 <= c < 2 ^ 32 -> a + 8 * n < 2 ^ 31 -> (l = [] -> a + 8 * n <> base) ->
  follows m c l -> Forall (fun b => far a b.1 /\ 0 <= b.2 /\ stop b < 2 ^ 31) l ->
  exists m1 n1 r, join_to a c (mkHeap m f k) = Ret tt (mkHeap m1 f k) /\ only [a] m m1 /\
    join (a, n) l = (a, n1) :: r /\ seg m1 a r base /\ hsize m1 a = n1.
Proof.
  intros Hn Ha Hn0 Hc Hst Hb Hl Hf. unfold join_to, units, sizeof_Header.
  assert (Eu : u32 (a + 8 * n) = a + 8 * n) by (apply u32_small; lia).
  unfold get_size, get_ptr, put_size, put_ptr, gets, modify, mbind, M_bind, set_mem. cbn [mem freep brk]. rewrite Hn, Eu.
  assert (Hat : a ∈ [a]) by (by left). destruct l as [|[x j] l]; cbn [follows join] in *.
  - subst c. rewrite (proj2 (Z.eqb_neq _ _)) by (by apply Hb).
    exists (store32 m a base), n, []. split_and!; [done|by apply only_ptr|done| |by rewrite hsize_ptr].
    simpl. rewrite hptr_ptr. by apply u32_small.
  - destruct Hl as (-> & Hj & Hs). apply Forall_cons in Hf as [(Hfar & Hj0 & Hjs) Hf]. unfold stop in *. cbn [fst snd] in *.
    destruct (Z.eqb_spec (a + 8 * n) x) as [E|E].
    + cbn [mem freep brk]. rewrite Hj.
      eexists _, (n + j), l. split_and!; [reflexivity| |done| |].
      * apply only_ptr; [done|]. by apply only_size.
      * assert (Ex : hptr (store32 m (a + 4) (u32 (n + j))) x = hptr m x) by (by apply hptr_size_far).
        rewrite Ex. destruct l as [|[y i] l]; cbn [seg fst] in *.
        -- rewrite hptr_ptr, u32_hptr. done.
        -- rewrite hptr_ptr, u32_hptr. destruct Hs as [-> Hs]. split; [done|].
           apply (seg_only [a] m); [apply only_ptr; [done|]; by apply only_size| |done]. constructor; [|done].
           apply Forall_cons in Hf as [Hy Hf]. constructor; [apply Hy|]. apply Forall_fmap. eapply Forall_impl; [exact Hf|]. intros b Hb'. apply Hb'.
      * rewrite hsize_ptr, hsize_size, u32_idem. apply u32_small. lia.
    + exists (store32 m a x), n, ((x, j) :: l).
      split_and!; [done|by apply only_ptr|done| |by rewrite hsize_ptr]. cbn [seg fst]. split; [rewrite hptr_ptr; by apply u32_small|].
      apply (seg_only [a] m); [by apply only_ptr| |done]. constructor; [|done]. constructor; [done|].
      apply Forall_fmap. eapply Forall_impl; [exact Hf|]. intros b Hb'. apply Hb'.
Qed.

(** ** The state of the allocator: free blocks [l], blocks handed out [al] *)

Record heap_ok (s : uheap) (l al : list blk) : Prop := {
  ho_base : 0 < base /\ base + 8 <= brk s /\ brk s < 2 ^ 31;
  ho_seg : seg (mem s) base l base;
  ho_size : hsize (mem s) base = 0;
  ho_sorted : StronglySorted gap l;
  ho_apart : apart (l ++ al);
  ho_blocks : Forall (fun b => base + 8 <= b.1 /\ 1 <= b.2 /\ stop b <= brk s /\ hsize (mem s) b.1 = b.2) (l ++ al);
  ho_freep : freep s ∈ base :: l.*1
}.

Lemma heap_block s l al b : heap_ok s l al -> b ∈ l ++ al -> base + 8 <= b.1 /\ 1 <= b.2 /\ stop b <= brk s /\ hsize (mem s) b.1 = b.2.
Proof. intros H Hb. pose proof (ho_blocks _ _ _ H) as F. by eapply Forall_forall in F. Qed.

Lemma heap_node s l al x : heap_ok s l al -> x ∈ base :: l.*1 -> base <= x < 2 ^ 31.
Proof.
  intros H [->|(b & -> & Hb)%list_elem_of_fmap]%elem_of_cons; pose proof (ho_base _ _ _ H); [lia|].
  destruct (heap_block s l al b H) as (? & ? & Hs & _); [apply elem_of_app; by left|]. unfold stop in Hs. lia.
Qed.
Lemma heap_incr s l al i x y : heap_ok s l al -> (base :: l.*1) !! i = Some x -> l.*1 !! i = Some y -> x < y.
Proof.
  intros H Hx Hy. destruct i as [|i]; simpl in Hx.
  - injection Hx as <-. apply list_lookup_fmap_Some in Hy as (b & -> & Hb).
    destruct (heap_block s l al b H); [apply elem_of_app; left; by eapply list_elem_of_lookup_2|]. lia.
  - apply list_lookup_fmap_Some in Hx as (a & -> & Ha), Hy as (b & -> & Hb). pose proof (ho_sorted _ _ _ H) as Hs.
    pose proof (take_drop_middle _ _ _ Ha) as E. rewrite <- E in Hs.
    pose proof (proj2 (proj2 (proj1 (StronglySorted_app _ _ _) Hs))) as Hs'. apply StronglySorted_inv in Hs' as [_ Hs'].
    assert (Hab : gap a b).
    { eapply Forall_forall in Hs'; [exact Hs'|]. apply (list_elem_of_lookup_2 _ O). by rewrite lookup_drop, Nat.add_0_r. }
    destruct (heap_block s l al a H) as (_ & Ha1 & _); [apply elem_of_app; left; by eapply list_elem_of_lookup_2|].
    unfold gap, stop in Hab. lia.
Qed.

Lemma free_loop_spec s l al l1 l2 bp pr : heap_ok s l al -> l = l1 ++ l2 -> base < bp ->
  Forall (fun c => c.1 < bp) l1 -> Forall (fun c => bp < c.1) l2 -> (base :: l.*1) !! length l1 = Some pr ->
  forall d i x fuel, (base :: l.*1) !! i = Some x ->
    d = (if (i <=? length l1)%nat then length l1 - i else S (length l) - i + length l1)%nat -> (d < fuel)%nat ->
    free_loop bp x fuel s = Ret pr s.
Proof.
  intros H -> Hb H1 H2 Hpr.
  assert (Hlo : forall i x, (base :: (l1 ++ l2).*1) !! i = Some x -> (i <= length l1)%nat -> x < bp).
  { intros [|i] x Hx Hi; simpl in Hx; [by injection Hx as <-|]. rewrite fmap_app, lookup_app_l in Hx by (rewrite length_fmap; lia).
    apply list_lookup_fmap_Some in Hx as (c & -> & Hc). by eapply Forall_lookup in H1. }
  assert (Hhi : forall i x, (base :: (l1 ++ l2).*1) !! i = Some x -> (length l1 < i)%nat -> bp < x).
  { intros [|i] x Hx Hi; [lia|]. simpl in Hx. rewrite fmap_app, lookup_app_r in Hx by (rewrite length_fmap; lia).
    apply list_lookup_fmap_Some in Hx as (c & -> & Hc). by eapply Forall_lookup in H2. }
  induction d as [|d IH]; intros i x fuel Hx Hd Hf; (destruct fuel as [|fuel]; [lia|]); cbn [free_loop];
    (rewrite (bind_ret _ _ _ _ _ (eq_refl : get_ptr x s = Ret (hptr (mem s) x) s)));
    rewrite (seg_next _ _ _ _ i x (ho_seg _ _ _ H) Hx); pose proof (lookup_lt_Some _ _ _ Hx) as Hlt; cbn [length] in Hlt; rewrite length_fmap in Hlt.
  - assert (i = length l1) as ->; [destruct (Nat.leb_spec i (length l1)); lia|].
    assert (x = pr) as -> by congruence. pose proof (Hlo _ _ Hx (Nat.le_refl _)).
    destruct ((l1 ++ l2).*1 !! length l1) as [y|] eqn:Ey; cbn [from_option id].
    + pose proof (Hhi (S (length l1)) y Ey ltac:(lia)). by rewrite (proj2 (Z.ltb_lt pr bp)), (proj2 (Z.ltb_lt bp y)) by lia.
    + pose proof (heap_node _ _ _ _ H (list_elem_of_lookup_2 _ _ _ Hx)).
      rewrite (proj2 (Z.ltb_lt pr bp)), (proj2 (Z.leb_le base pr)) by lia. by destruct (bp <? base).
  - assert (Hne : i <> length l1) by (intros ->; rewrite Nat.leb_refl in Hd; lia).
    destruct ((l1 ++ l2).*1 !! i) as [y|] eqn:Ey; cbn [from_option id].
    + pose proof (heap_incr _ _ _ _ _ _ H Hx Ey). pose proof (lookup_lt_Some _ _ _ Ey) as Hly. rewrite length_fmap in Hly.
      assert (Hcond : ((x <? bp) && (bp <? y) = false) /\ (y <=? x) = false).
      { destruct (decide (i <= length l1)%nat) as [Hi|Hi].
        - pose proof (Hlo (S i) y Ey ltac:(lia)). split; lia.
        - pose proof (Hhi i x Hx ltac:(lia)). split; lia. }
      destruct Hcond as [-> ->]. cbn [andb]. apply (IH (S i)); [done| |lia].
      destruct (Nat.leb_spec i (length l1)), (Nat.leb_spec (S i) (length l1)); lia.
    + apply lookup_ge_None in Ey. rewrite length_fmap in Ey. rewrite length_app in *.
      pose proof (Hhi i x Hx ltac:(lia)). rewrite (proj2 (Z.ltb_ge x bp)), (proj2 (Z.ltb_ge bp base)) by lia. cbn [andb orb].
      rewrite andb_false_r. apply (IH O); [done| |lia]. cbn [Nat.leb].
      destruct (Nat.leb_spec i (length l1)); lia.
Qed.

Lemma disj_far a b : disj a b -> 1 <= a.2 -> 1 <= b.2 -> far a.1 b.1.
Proof. unfold disj, far, stop. lia. Qed.

(** Headers of different blocks do not overlap. *)
Lemma heap_far s l al b l' c : heap_ok s l al -> l ++ al ≡ₚ b :: l' -> c ∈ l' -> far b.1 c.1.
Proof.
  intros H Hp Hc. pose proof (ho_apart _ _ _ H) as Ha. pose proof (ho_blocks _ _ _ H) as F. rewrite Hp in Ha. rewrite Hp in F.
  apply Forall_cons in F as [(_ & Hb & _) F]. eapply Forall_forall in F; [|exact Hc]. apply disj_far; [|done|apply F]. by eapply apart_elem.
Qed.
Lemma far_sym x y : far x y -> far y x.
Proof. unfold far. tauto. Qed.

(** The block [P] after which [b] goes, [l2] what follows it: the two joins. *)
Lemma joins_spec m f k P b l2 : follows m (hptr m P.1) l2 -> hsize m P.1 = P.2 -> hsize m b.1 = b.2 ->
  0 <= P.1 -> 0 <= P.2 -> 1 <= b.2 -> stop P <= b.1 -> base + 8 <= b.1 -> stop b < 2 ^ 31 -> far P.1 b.1 ->
  Forall (fun c => far b.1 c.1 /\ far P.1 c.1 /\ 0 <= c.2 /\ stop c < 2 ^ 31) l2 -> Forall (fun c => far b.1 c.1 /\ hsize m c.1 = c.2) l2 ->
  exists m2 n2 r2, (join_to b.1 (hptr m P.1);; join_to P.1 b.1) (mkHeap m f k) = Ret tt (mkHeap m2 f k) /\ only [P.1; b.1] m m2 /\
    join P (join b l2) = (P.1, n2) :: r2 /\ seg m2 P.1 r2 base /\ hsize m2 P.1 = n2 /\ Forall (fun c => hsize m2 c.1 = c.2) r2.
Proof.
  destruct P as [p n], b as [bp bn]. unfold stop. cbn [fst snd]. intros Hl Hp Hb Hp0 Hn0 Hbn Hpb Hbb Hbs Hfar Hf Hsz.
  destruct (join_to_spec m f k bp bn (hptr m p) l2) as (m1 & n1 & r & E1 & O1 & J1 & S1 & Z1); try done; try lia.
  { apply hptr_range. } { eapply Forall_impl; [exact Hf|]. intros c (? & ? & ? & ?). done. }
  rewrite (bind_ret _ _ _ _ _ E1).
  assert (Hr : forall c, c ∈ r -> c ∈ l2).
  { destruct (join_cases (bp, bn) l2) as (n' & r' & E & [[_ ->]|(c & -> & _)]); rewrite J1 in E; injection E as <- <-; [done|by right]. }
  assert (Hn1 : 1 <= n1 /\ bp + 8 * n1 < 2 ^ 31).
  { assert (K : Forall (fun c => 0 <= c.2) l2) by (eapply Forall_impl; [exact Hf|]; intros c (? & ? & ? & ?); done).
    destruct (join_cases (bp, bn) l2) as (n' & r' & E & [[-> ->]|(c & -> & Ec & ->)]); rewrite J1 in E; injection E as -> <-; cbn [snd]; [lia|].
    apply Forall_cons in Hf as [(_ & _ & Hc & Hcs) _]. unfold stop in *. cbn [fst snd] in *. lia. }
  destruct (join_to_spec m1 f k p n bp ((bp, n1) :: r)) as (m2 & n2 & r2 & E2 & O2 & J2 & S2 & Z2); try done; try lia.
  { rewrite (only_hsize [bp] m m1); [done|done|]. by constructor; [apply far_sym|]. }
  { constructor; [unfold stop; cbn [fst snd]; split_and!; [done|lia|lia]|]. apply Forall_forall. intros c Hc%Hr. eapply Forall_forall in Hf; [|done]. split_and!; apply Hf. }
  exists m2, n2, r2. rewrite J1. split_and!; try done.
  - eapply (only_trans _ _ m1); (eapply only_mono; [|eassumption]); set_solver.
  - assert (K : forall c, c ∈ r -> hsize m2 c.1 = c.2).
    { intros c Hc%Hr. eapply Forall_forall in Hsz, Hf; [|exact Hc..]. destruct Hsz as [F1 <-], Hf as (_ & F2 & _).
      rewrite (only_hsize [p] m1 m2), (only_hsize [bp] m m1); try done; by constructor. }
    destruct (join_cases (p, n) ((bp, n1) :: r)) as (n' & r' & E & [[_ ->]|(c & Ec & _)]); rewrite J2 in E; injection E as <- ->.
    + constructor; [|by apply Forall_forall]. cbn [fst snd]. rewrite (only_hsize [p] m1 m2); [done|done|by constructor].
    + injection Ec as <- <-. by apply Forall_forall.
Qed.

Lemma Forall_in {A : Type} (P Q : A -> Prop) l : Forall P l -> (forall a, a ∈ l -> P a -> Q a) -> Forall Q l.
Proof. intros H E. apply Forall_forall. intros a Ha. apply E; [done|]. by eapply Forall_forall in H. Qed.

(** The block before a place in the list; [base] counts as one of size 0. *)
Lemma pred_block l1 : exists p1 P, (l1 = [] /\ p1 = [] /\ P = (base, 0) \/ l1 = p1 ++ [P]) /\ (base :: l1.*1) !! length l1 = Some P.1.
Proof.
  destruct (decide (l1 = [])) as [->|Hne]; [exists [], (base, 0); split; [by left|done]|].
  destruct (exists_last Hne) as (p1 & P & ->). exists p1, P. split; [by right|].
  rewrite fmap_app, length_app. cbn [length]. rewrite Nat.add_1_r.
  change ((p1.*1 ++ [P].*1) !! length p1 = Some P.1). rewrite lookup_app_r by (by rewrite length_fmap).
  by rewrite length_fmap, Nat.sub_diag.
Qed.

(** [P] is the block of [l] before the place of [b], or the one of [base] of size 0. *)
Record place (l : list blk) (b : blk) (l1 l2 p1 : list blk) (P : blk) : Prop := {
  pl_split : l = l1 ++ l2;
  pl_before : Forall (fun c => stop c <= b.1) l1;
  pl_after : Forall (fun c => stop b <= c.1) l2;
  pl_pred : l1 = [] /\ p1 = [] /\ P = (base, 0) \/ l1 = p1 ++ [P];
  pl_node : (base :: l.*1) !! length l1 = Some P.1
}.

Lemma heap_perm (l al : list blk) b : l ++ b :: al ≡ₚ b :: l ++ al.
Proof. by rewrite Permutation_middle. Qed.
Lemma heap_free s l al c : heap_ok s l al -> c ∈ l -> base + 8 <= c.1 /\ 1 <= c.2 /\ stop c <= brk s /\ hsize (mem s) c.1 = c.2.
Proof. intros H Hc. apply (heap_block _ _ _ _ H), elem_of_app. by left. Qed.

Lemma find_place s l al b : heap_ok s l (b :: al) -> exists l1 l2 p1 P, place l b l1 l2 p1 P.
Proof.
  intros H. destruct (heap_block s l (b :: al) b H) as (_ & Hb & _); [set_solver|].
  pose proof (ho_apart _ _ _ H) as Ha. rewrite heap_perm in Ha. destruct Ha as [[Hd _]%Forall_app _].
  destruct (split_at b l Hb) as (l1 & l2 & El & H1 & H2); [|done|by apply (ho_sorted _ _ _ H)|].
  { apply Forall_forall. intros c Hc. apply (heap_free _ _ _ c H Hc). }
  destruct (pred_block l1) as (p1 & P & HPc & Hnode). exists l1, l2, p1, P. split; try done.
  rewrite El, fmap_app. change (base :: l1.*1 ++ l2.*1) with ((base :: l1.*1) ++ l2.*1). by apply lookup_app_l_Some.
Qed.

(** The block before [b]: its place in memory, and that it is a block of its own. *)
Lemma place_pred s l al b l1 l2 p1 P : heap_ok s l (b :: al) -> place l b l1 l2 p1 P ->
  hsize (mem s) P.1 = P.2 /\ 0 <= P.2 /\ base <= P.1 /\ stop P <= b.1 /\ far P.1 b.1 /\ P.1 ∈ base :: l.*1 /\
  seg (mem s) P.1 l2 base /\ (l1 <> [] -> seg (mem s) base p1 P.1 /\ P ∈ l) /\ forall c, c ∈ p1 ++ l2 ++ al -> far P.1 c.1.
Proof.
  intros H [El H1 H2 HPc Hnode]. pose proof (ho_seg _ _ _ H) as Hseg. pose proof (ho_base _ _ _ H).
  destruct (heap_block s l (b :: al) b H) as (Hb & Hbn & _); [set_solver|]. apply list_elem_of_lookup_2 in Hnode. destruct HPc as [(-> & -> & ->)|E1].
  - cbn [fst snd] in *. rewrite El in Hseg. unfold stop, far. cbn [fst snd]. split_and!; first [done|lia|apply (ho_size _ _ _ H)|idtac].
    intros c Hc. destruct (heap_block s l (b :: al) c H) as (? & _); [rewrite El; set_solver|]. lia.
  - assert (HP : P ∈ l) by (rewrite El, E1; set_solver). destruct (heap_free _ _ _ P H HP) as (K1 & K2 & K3 & K4).
    rewrite E1 in H1. apply Forall_app in H1 as [_ [K5 _]%Forall_cons]. rewrite El, E1, <- app_assoc in Hseg. apply seg_app in Hseg as [S1 S2].
    split_and!; first [done|lia|unfold far, stop in *; lia|idtac].
    intros c Hc. apply (heap_far s l (b :: al) P (p1 ++ l2 ++ b :: al) c H); [rewrite El, E1; solve_Permutation|set_solver].
Qed.

(** free on memory: the header of [b] and that of the block before it change. *)
Lemma free_run s l al b fuel l1 l2 p1 P : heap_ok s l (b :: al) -> place l b l1 l2 p1 P -> (length l < fuel)%nat ->
  exists m2 n2 r2, free (b.1 + 8) fuel s = Ret tt (mkHeap m2 P.1 (brk s)) /\ only [P.1; b.1] (mem s) m2 /\
    join P (join b l2) = (P.1, n2) :: r2 /\ seg m2 P.1 r2 base /\ hsize m2 P.1 = n2 /\ Forall (fun c => hsize m2 c.1 = c.2) r2.
Proof.
  intros H HP Hfuel. destruct (place_pred _ _ _ _ _ _ _ _ H HP) as (Pz & Pn & Pb & Pstop & Pfar & _ & Hseg & _ & Hfar).
  pose proof (ho_base _ _ _ H) as (Hg0 & Hg1 & Hg2). destruct (heap_block s l (b :: al) b H) as (Hbb & Hb1 & Hbst & Hbz); [set_solver|].
  destruct HP as [El H1 H2 _ Hnode]. destruct (list_elem_of_lookup_1 _ _ (ho_freep _ _ _ H)) as (i & Hi).
  unfold free, sizeof_Header. replace (b.1 + 8 - 8) with b.1 by lia. rewrite (u32_small b.1) by (unfold stop in *; lia).
  rewrite (bind_ret _ _ _ _ _ (eq_refl : gets freep s = Ret (freep s) s)).
  assert (Hloop : free_loop b.1 (freep s) fuel s = Ret P.1 s).
  { eapply (free_loop_spec s l (b :: al) l1 l2 b.1 P.1 H El); [lia| | |done|done|reflexivity|].
    - apply (Forall_in _ _ _ H1). intros c Hc K. destruct (heap_free _ _ _ c H) as (_ & ? & _); [rewrite El; set_solver|]. unfold stop in K. lia.
    - apply (Forall_in _ _ _ H2). intros c Hc K. unfold stop in K. lia.
    - pose proof (lookup_lt_Some _ _ _ Hi) as K. cbn [length] in K. rewrite length_fmap in K.
      assert (length l1 <= length l)%nat by (rewrite El, length_app; lia). destruct (Nat.leb_spec i (length l1)); lia. }
  rewrite (bind_ret _ _ _ _ _ Hloop), (bind_ret _ _ _ _ _ (eq_refl : get_ptr P.1 s = Ret (hptr (mem s) P.1) s)).
  assert (Hl2 : forall c, c ∈ l2 -> c ∈ l) by (intros c Hc; rewrite El; set_solver).
  destruct (joins_spec (mem s) (freep s) (brk s) P b l2) as (m2 & n2 & r2 & Erun & Hrest); try done; try lia.
  { apply seg_follows; [done|]. apply Forall_forall. intros c Hc%Hl2. apply (heap_free _ _ _ c H Hc). }
  { apply Forall_forall. intros c Hc. destruct (heap_free _ _ _ c H (Hl2 c Hc)) as (_ & ? & ? & _).
    split_and!; [apply (heap_far _ _ _ _ _ c H (heap_perm _ _ _)); set_solver|apply Hfar; set_solver|lia|lia]. }
  { apply Forall_forall. intros c Hc. split; [apply (heap_far _ _ _ _ _ c H (heap_perm _ _ _)); set_solver|]. by apply (heap_free _ _ _ c H), Hl2. }
  exists m2, n2, r2. split; [|done]. destruct s as [m f k]. cbn [mem freep brk] in *.
  rewrite <- (bind_assoc (join_to b.1 (hptr m P.1)) (fun _ => join_to P.1 b.1)). by rewrite (bind_ret _ _ _ _ _ Erun).
Qed.

(** free puts the block in its place, and changes only headers of blocks that are free. *)
Lemma free_spec s l al b fuel : heap_ok s l (b :: al) -> (length l < fuel)%nat ->
  exists s' l', free (b.1 + 8) fuel s = Ret tt s' /\ heap_ok s' l' al /\ brk s' = brk s /\ total l' = b.2 + total l /\
    only (base :: b.1 :: l.*1) (mem s) (mem s') /\ (exists c, c ∈ l' /\ b.2 <= c.2) /\ (length l' <= S (length l))%nat.
Proof.
  intros H Hfuel. destruct (find_place s l al b H) as (l1 & l2 & p1 & P & HP).
  destruct (free_run s l al b fuel l1 l2 p1 P H HP Hfuel) as (m2 & n2 & r2 & Hrun & Hon & Hj & Hs2 & Hz2 & Hr2).
  destruct (place_pred _ _ _ _ _ _ _ _ H HP) as (Pz & Pn & Pb & Pstop & Pfar & Pin & _ & Hseg1 & Hfarp).
  pose proof H as [Hbase _ Hbs Hsort Hap _ _]. destruct (heap_block s l (b :: al) b H) as (Hbb & Hb1 & Hbst & Hbz); [set_solver|].
  destruct HP as [El H1 H2 HPc _].
  assert (Hfarb : forall c, c ∈ l ++ al -> far b.1 c.1) by (intros c Hc; by apply (heap_far _ _ _ _ _ c H (heap_perm _ _ _))).
  assert (Bl : bounded base (brk s) (l2 ++ l1 ++ al)).
  { apply Forall_forall. intros c Hc. destruct (heap_block s l (b :: al) c H) as (? & ? & ? & _); [rewrite El; set_solver|done]. }
  rewrite heap_perm, El in Hap. rewrite El in Hsort. apply StronglySorted_app in Hsort as (Hcross & Hs1 & Hs2').
  destruct (join_good base (brk s) [] b l2 (l1 ++ al)) as (Sj & Bj & Aj & Tj & Gj);
    [by constructor|by intros x ?%elem_of_nil|done|by apply Forall_forall|by constructor| |].
  { cbn [app]. by rewrite (app_assoc l2), (Permutation_app_comm l2 l1). }
  cbn [app] in *. set (jb := join b l2) in *.
  assert (Hother : forall c, c ∈ p1 ++ al -> hsize m2 c.1 = hsize (mem s) c.1).
  { intros c Hc. rewrite (only_hsize [P.1; b.1] (mem s) m2); [done|done|]. apply Forall_cons; split; [apply Hfarp; set_solver|].
    apply Forall_singleton, Hfarb. destruct HPc as [(_ & -> & _)|E1]; [set_solver|]. rewrite El, E1. set_solver. }
  assert (Hal : Forall (fun c => base + 8 <= c.1 /\ 1 <= c.2 /\ stop c <= brk s /\ hsize m2 c.1 = c.2) al).
  { apply Forall_forall. intros c Hc. rewrite Hother by set_solver. apply (heap_block _ _ _ c H). set_solver. }
  assert (Hon' : only (base :: b.1 :: l.*1) (mem s) m2) by (eapply only_mono; [|exact Hon]; set_solver).
  assert (Tl : total l = total l1 + total l2) by (by rewrite El, total_units_app).
  destruct HPc as [(-> & -> & ->)|E1].
  - cbn [fst] in *. assert (E2 : join (base, 0) jb = (base, 0) :: jb).
    { destruct jb as [|c jb']; [done|]. cbn [join]. unfold stop. cbn [fst snd]. rewrite (proj2 (Z.eqb_neq _ _)); [done|].
      apply Forall_cons in Bj as [(? & _) _]. lia. }
    rewrite E2 in Hj. injection Hj as <- <-. exists (mkHeap m2 base (brk s)), jb. cbn [mem brk].
    pose proof (join_length b l2). rewrite El. cbn [app]. rewrite El in Hon'. cbn [app] in Hon'.
    split_and!; [done| |done|rewrite El in Tl; change (total []) with 0 in Tl; cbn [app] in Tl; lia|done|apply Gj; by left|done].
    split; cbn [mem freep brk]; try done; [|by left].
    apply Forall_app. split; [|done]. apply Forall_forall. intros c Hc. eapply Forall_forall in Bj, Hr2; [|exact Hc..]. tauto.
  - exists (mkHeap m2 P.1 (brk s)), (p1 ++ join P jb). rewrite E1 in Hs1. apply StronglySorted_app in Hs1 as (Hgp & Hs1 & _).
    destruct (Hseg1 ltac:(rewrite E1; by destruct p1)) as [Hseg' HPl]. destruct (heap_free _ _ _ P H HPl) as (HPb & HPn & HPs & _).
    destruct (join_good base (brk s) p1 P jb al) as (Sj2 & Bj2 & Aj2 & Tj2 & Gj2); try done.
    { intros x Hx. apply Hgp; [done|by left]. }
    { intros c Hc. destruct (join_addr _ _ _ Hc) as [->|Hc2]; [done|]. eapply Forall_forall in H2; [|exact Hc2]. cbv beta in H2. unfold stop in *. lia. }
    { apply Forall_app. split; [|constructor; [done|apply Forall_app; split; [done|]]]; apply Forall_forall; intros c Hc.
      - destruct (heap_free _ _ _ c H) as (? & ? & ? & _); [rewrite El, E1; set_solver|done].
      - eapply Forall_forall in Hal; [|exact Hc]. tauto. }
    { assert (K : p1 ++ P :: jb ++ al ≡ₚ jb ++ l1 ++ al) by (rewrite E1; solve_Permutation). by rewrite K. }
    cbn [mem brk]. split_and!; [done| |done| |done| |].
    + split; cbn [mem freep brk]; try done.
      * rewrite Hj. apply seg_app. split; [|done]. apply (seg_only [P.1; b.1] (mem s)); [done| |done].
        apply Forall_cons; split; [|apply Forall_singleton]; (apply Forall_cons; split; [unfold far; lia|]); apply Forall_fmap, Forall_forall; intros c Hc.
        -- apply Hfarp. set_solver.
        -- apply Hfarb. rewrite El, E1. set_solver.
      * rewrite (only_hsize [P.1; b.1] (mem s) m2); [done|done|]. apply Forall_cons; split; [|apply Forall_singleton]; unfold far; lia.
      * apply Forall_app. split; [|done]. rewrite Hj in Bj2 |- *. apply Forall_app in Bj2 as [B1 [B2 B3]%Forall_cons]. apply Forall_app. split.
        -- apply (Forall_in _ _ _ B1). intros c Hc. rewrite Hother by set_solver. destruct (heap_free _ _ _ c H) as (_ & _ & _ & ->); [rewrite El, E1; set_solver|tauto].
        -- constructor; [cbn [fst snd] in *; tauto|]. apply Forall_forall. intros c Hc. eapply Forall_forall in B3, Hr2; [|exact Hc..]. tauto.
      * rewrite Hj, fmap_app. right. apply elem_of_app. right. by left.
    + rewrite Tj2, Tl, E1, total_units_app, total_units_app. change (total [P]) with (P.2 + 0). lia.
    + destruct (Gj b ltac:(by left)) as (c & Hc & Hle). destruct (Gj2 c ltac:(by right)) as (c' & Hc' & Hle'). exists c'. split; [set_solver|lia].
    + rewrite El, E1, !length_app. cbn [length]. pose proof (join_length P jb). pose proof (join_length b l2) as K. fold jb in K. lia.
Qed.

(** ** Growing the heap *)

(** The bytes of the blocks [al] are as before. *)
Definition kept (al : list blk) (m m' : memory) : Prop :=
  forall b y, b ∈ al -> b.1 <= y < stop b -> load8 m' y = load8 m y.
Lemma kept_trans al m m1 m2 : kept al m m1 -> kept al m1 m2 -> kept al m m2.
Proof. intros H1 H2 b y Hb Hy. by rewrite (H2 b y Hb Hy), (H1 b y Hb Hy). Qed.
Lemma kept_only hs al m m' : only hs m m' -> (forall h b, h ∈ hs -> b ∈ al -> h + 8 <= b.1 \/ stop b <= h) -> kept al m m'.
Proof. intros Ho Hd b y Hb Hy. apply Ho, Forall_forall. intros h Hh. destruct (Hd h b Hh Hb); lia. Qed.

(** Nothing of a block handed out lies in the header of another block or in [base]. *)
Lemma heap_kept s l al h b : heap_ok s l al -> h ∈ base :: l.*1 -> b ∈ al -> h + 8 <= b.1 \/ stop b <= h.
Proof.
  intros H Hh Hb. destruct (heap_block s l al b H) as (B1 & B2 & _); [set_solver|].
  apply elem_of_cons in Hh as [->|(c & -> & Hc)%list_elem_of_fmap]; [lia|]. destruct (heap_free _ _ _ c H Hc) as (_ & C2 & _).
  pose proof (ho_apart _ _ _ H) as A. apply apart_app in A as (_ & _ & A). eapply Forall_forall in A; [|exact Hc].
  eapply Forall_forall in A; [|exact Hb]. unfold disj, stop in *. lia.
Qed.

Lemma sbrk_spec n s : 0 < n < 2 ^ 31 -> 0 < brk s < 2 ^ 31 ->
  sbrk n s = Ret (u32 (-1)) s \/ sbrk n s = Ret (brk s) (set_brk (brk s + n) s) /\ brk s + n < 2 ^ 31.
Proof.
  intros Hn Hb. unfold sbrk. rewrite (bind_ret _ _ _ _ _ (eq_refl : gets brk s = Ret (brk s) s)). cbv zeta.
  rewrite s32_small by lia. rewrite (proj2 (Z.ltb_lt 0 n)) by lia. rewrite (u32_small (brk s + n)) by lia.
  rewrite (proj2 (Z.eqb_neq n 0)) by lia. rewrite (proj2 (Z.ltb_ge (brk s + n) (brk s))) by lia. unfold KERNBASE.
  destruct (Z.leb_spec 0x80000000 (brk s + n)); [by left|]. destruct (frames _ _); [|by left].
  rewrite (proj2 (Z.eqb_neq (brk s + n) 0)) by lia. right. split; [done|lia].
Qed.

(** A region of fresh memory counts as a block handed out. *)
Lemma heap_grow s l al nu : heap_ok s l al -> 1 <= nu -> brk s + 8 * nu < 2 ^ 31 ->
  heap_ok (mkHeap (store32 (mem s) (brk s + 4) nu) (freep s) (brk s + 8 * nu)) l ((brk s, nu) :: al) /\
  kept al (mem s) (store32 (mem s) (brk s + 4) nu).
Proof.
  intros H Hnu Hb. pose proof H as [(Hb0 & Hbk & Hbrk) Hseg Hbs Hsort Hap Hbl Hfp].
  assert (Hbl' : forall c, c ∈ l ++ al -> c.1 + 8 <= brk s /\ stop c <= brk s).
  { intros c Hc. destruct (heap_block _ _ _ c H Hc) as (? & ? & Hst & _). split; [|done]. unfold stop in Hst. lia. }
  split; [split; cbn [mem freep brk]; try done|].
  - lia.
  - apply (seg_ext (mem s)); [|done]. intros x Hx. apply hptr_size_far. unfold far.
    apply elem_of_cons in Hx as [->|(c & -> & Hc)%list_elem_of_fmap]; [lia|]. destruct (Hbl' c); [set_solver|lia].
  - rewrite hsize_size_far; [done|]. unfold far. lia.
  - rewrite heap_perm. split; [|done]. apply Forall_forall. intros c Hc. destruct (Hbl' c Hc). right. done.
  - rewrite heap_perm. constructor.
    + cbn [fst snd]. unfold stop. cbn [fst snd]. split_and!; [lia|lia|lia|]. rewrite hsize_size. apply u32_small. lia.
    + apply (Forall_in _ _ _ Hbl). intros c Hc (? & ? & Hst & Ez). destruct (Hbl' c Hc). split_and!; [done|done|lia|].
      rewrite hsize_size_far; [done|]. unfold far. lia.
  - intros b y Hb' Hy. rewrite store32_lookup, decide_False; [done|]. destruct (Hbl' b); [set_solver|]. lia.
Qed.

Lemma morecore_spec s l al nu fuel : heap_ok s l al -> 1 <= nu -> 8 * nu < 2 ^ 31 -> (length l < fuel)%nat ->
  morecore nu fuel s = Ret 0 s \/
  exists s' l', morecore nu fuel s = Ret (freep s') s' /\ heap_ok s' l' al /\ kept al (mem s) (mem s') /\
    brk s' - brk s = 8 * (total l' - total l) /\ (exists c, c ∈ l' /\ nu <= c.2) /\ (length l' <= S (length l))%nat.
Proof.
  intros H Hnu Hnu8 Hfuel. unfold morecore. set (n := if nu <? 4096 then 4096 else nu).
  assert (Hn : nu <= n /\ 1 <= n /\ 8 * n < 2 ^ 31) by (unfold n; destruct (Z.ltb_spec nu 4096); lia). clearbody n.
  unfold sizeof_Header. replace (n * 8) with (8 * n) by lia. rewrite (u32_small (8 * n)) by lia.
  pose proof (ho_base _ _ _ H) as (Hb0 & Hbk & Hbrk).
  destruct (sbrk_spec (8 * n) s) as [E|[E Hlt]]; [lia|lia|left; by rewrite (bind_ret _ _ _ _ _ E)|].
  right. rewrite (bind_ret _ _ _ _ _ E). rewrite (proj2 (Z.eqb_neq (brk s) (u32 (-1)))) by (change (u32 (-1)) with (2 ^ 32 - 1); lia).
  destruct (heap_grow s l al n H) as [H1 K1]; [lia|lia|]. set (s1 := mkHeap _ _ _) in *.
  assert (E1 : put_size (brk s) n (set_brk (brk s + 8 * n) s) = Ret tt s1) by done. rewrite (bind_ret _ _ _ _ _ E1).
  destruct (free_spec s1 l al (brk s, n) fuel H1 Hfuel) as (s' & l' & E2 & H2 & Hbrk2 & Ht & Ho & (c & Hc & Hcn) & Hlen). cbn [fst snd] in *.
  unfold units, sizeof_Header. replace (brk s + 8 * 1) with (brk s + 8) by lia. rewrite (u32_small (brk s + 8)) by lia.
  rewrite (bind_ret _ _ _ _ _ E2). exists s', l'. split_and!; [done|done| |rewrite Hbrk2; unfold s1; cbn [brk]; lia|exists c; split; [done|lia]|done].
  eapply kept_trans; [exact K1|]. apply (kept_only _ _ _ _ Ho). intros h b Hh Hb.
  assert (Hh' : h = brk s \/ h ∈ base :: l.*1) by set_solver. destruct Hh' as [->|Hh'].
  - destruct (heap_block _ _ _ b H) as (? & ? & ? & _); [set_solver|]. by right.
  - by apply (heap_kept s l al).
Qed.

(** ** Taking a block *)

Lemma seg_swap m m' p a l q : hptr m' p = hptr m a -> (forall x, x ∈ l.*1 -> hptr m' x = hptr m x) -> seg m a l q -> seg m' p l q.
Proof.
  destruct l as [|c l]; simpl; intros Ep E; [by rewrite Ep|]. rewrite Ep. intros [-> Hs]. split; [done|].
  apply (seg_ext m); [|done]. intros x Hx. apply E. exact Hx.
Qed.

(** The whole of [a]. *)
Lemma take_whole s l1 a l2 al P : heap_ok s (l1 ++ a :: l2) al -> (base :: (l1 ++ a :: l2).*1) !! length l1 = Some P ->
  exists s', take_block a.2 P a.1 a.2 s = Ret (a.1 + 8) s' /\ heap_ok s' (l1 ++ l2) (a :: al) /\ kept al (mem s) (mem s') /\ brk s' = brk s.
Proof.
  intros H HP. pose proof (ho_base _ _ _ H) as (Hb0 & Hbk & Hbrk). destruct (heap_block _ _ _ a H) as (A1 & A2 & A3 & A4); [set_solver|].
  set (m' := store32 (mem s) P (hptr (mem s) a.1)). exists (mkHeap m' P (brk s)).
  assert (Hp : l1 ++ a :: l2 ≡ₚ a :: l1 ++ l2) by (by rewrite Permutation_middle).
  assert (HPin : P ∈ base :: (l1 ++ a :: l2).*1) by (by eapply list_elem_of_lookup_2).
  assert (Ho : only [P] (mem s) m') by (apply only_ptr; [by left|done]).
  assert (Hz : forall x, far P x \/ P = x -> hsize m' x = hsize (mem s) x).
  { intros x [Hx|<-]; [by apply hsize_ptr_far|by apply hsize_ptr]. }
  (* the pointers that change *)
  assert (Hseg : seg m' base (l1 ++ l2) base /\ P ∈ base :: l1.*1 /\ (forall c, c ∈ l1 ++ a :: l2 ++ al -> c.1 = P \/ far P c.1) /\ (P = base \/ far P base)).
  { destruct (pred_block l1) as (p1 & Q & HQ & HQn). rewrite fmap_app in HP. change (base :: l1.*1 ++ (a :: l2).*1) with ((base :: l1.*1) ++ (a :: l2).*1) in HP.
    rewrite (lookup_app_l_Some _ _ _ _ HQn) in HP. injection HP as <-. pose proof (ho_seg _ _ _ H) as Hs. destruct HQ as [(-> & -> & ->)|E1].
    - cbn [fst app] in *. destruct Hs as [_ Hs]. split_and!; [|by left| |by left].
      + apply (seg_swap (mem s) m' base a.1); [|intros x Hx|done]; [unfold m'; by rewrite hptr_ptr, u32_hptr|].
        apply hptr_ptr_far. apply list_elem_of_fmap in Hx as (c & -> & Hc). destruct (heap_block _ _ _ c H) as (? & _); [set_solver|]. unfold far. lia.
      + intros c Hc. right. destruct (heap_block _ _ _ c H) as (? & _); [set_solver|]. unfold far. lia.
    - subst l1. assert (HpQ : (p1 ++ [Q]) ++ a :: l2 ++ al ≡ₚ Q :: p1 ++ a :: l2 ++ al) by solve_Permutation.
      assert (Hf : forall c, c ∈ p1 ++ a :: l2 ++ al -> far Q.1 c.1).
      { intros c Hc. apply (heap_far s _ al Q (p1 ++ a :: l2 ++ al) c H); [rewrite <- HpQ; by rewrite <- !app_assoc|done]. }
      destruct (heap_block _ _ _ Q H) as (Q1 & _); [set_solver|]. split_and!.
      + rewrite <- !app_assoc in *. cbn [app] in *. apply seg_app in Hs as [S1 [S2 S3]]. apply seg_app. split.
        * apply (seg_only [Q.1] (mem s)); [done| |done]. apply Forall_singleton. apply Forall_cons. split; [unfold far; lia|].
          apply Forall_fmap, Forall_forall. intros c Hc. apply Hf. set_solver.
        * apply (seg_swap (mem s) m' Q.1 a.1); [|intros x Hx|done]; [unfold m'; by rewrite hptr_ptr, u32_hptr|].
          apply hptr_ptr_far. apply list_elem_of_fmap in Hx as (c & -> & Hc). apply Hf. set_solver.
      + rewrite fmap_app. right. apply elem_of_app. right. by left.
      + intros c Hc. rewrite HpQ in Hc. apply elem_of_cons in Hc as [->|Hc]; [by left|right; by apply Hf].
      + right. unfold far. lia. }
  destruct Hseg as (Hseg & HP1 & Hfar & Hfarb). split_and!; [|split; cbn [mem freep brk]| |done].
  - unfold take_block. rewrite Z.eqb_refl. unfold get_ptr, put_ptr, gets, modify, ret, mbind, M_bind. cbn [mem freep brk set_mem set_freep].
    unfold units, sizeof_Header. replace (a.1 + 8 * 1) with (a.1 + 8) by lia. by rewrite u32_small by (unfold stop in *; lia).
  - done.
  - done.
  - rewrite Hz; [apply (ho_size _ _ _ H)|]. destruct Hfarb; auto.
  - pose proof (ho_sorted _ _ _ H) as S. apply StronglySorted_app in S as (C & S1 & S2). apply StronglySorted_inv in S2 as [S2 _].
    apply StronglySorted_app. split_and!; try done. intros x y Hx Hy. apply C; [done|by right].
  - pose proof (ho_apart _ _ _ H) as A. rewrite Hp in A. by rewrite heap_perm.
  - rewrite heap_perm. pose proof (ho_blocks _ _ _ H) as B. rewrite Hp in B. apply (Forall_in _ _ _ B). intros c Hc.
    rewrite (Hz c.1); [done|]. destruct (Hfar c) as [->|?]; [set_solver|by right|by left].
  - rewrite fmap_app. set_solver.
  - apply (kept_only _ _ _ _ Ho). intros h b Hh%list_elem_of_singleton Hb. subst h. by apply (heap_kept _ _ _ _ _ H).
Qed.

(** The tail of [a]. *)
Lemma take_tail s l1 a l2 al P n : heap_ok s (l1 ++ a :: l2) al -> (base :: (l1 ++ a :: l2).*1) !! length l1 = Some P -> 1 <= n < a.2 ->
  exists s', take_block n P a.1 a.2 s = Ret (a.1 + 8 * (a.2 - n) + 8) s' /\
    heap_ok s' (l1 ++ (a.1, a.2 - n) :: l2) ((a.1 + 8 * (a.2 - n), n) :: al) /\ kept al (mem s) (mem s') /\ brk s' = brk s.
Proof.
  intros H HP Hn. pose proof (ho_base _ _ _ H) as (Hb0 & Hbk & Hbrk). destruct (heap_block _ _ _ a H) as (A1 & A2 & A3 & A4); [set_solver|].
  destruct a as [x k]. cbn [fst snd] in *. unfold stop in A3. cbn [fst snd] in A3. set (y := x + 8 * (k - n)) in *.
  set (m' := store32 (store32 (mem s) (x + 4) (k - n)) (y + 4) n). exists (mkHeap m' P (brk s)).
  assert (Hxy : far y x) by (unfold far; lia).
  assert (Hp : (l1 ++ (x, k) :: l2) ++ al ≡ₚ (x, k) :: (l1 ++ l2) ++ al) by solve_Permutation.
  assert (Hp' : (l1 ++ (x, k - n) :: l2) ++ (y, n) :: al ≡ₚ (x, k - n) :: (y, n) :: (l1 ++ l2) ++ al) by solve_Permutation.
  pose proof (ho_apart _ _ _ H) as A. pose proof (ho_blocks _ _ _ H) as B. rewrite Hp in A, B. apply Forall_cons in B as [_ B].
  replace k with ((k - n) + n) in A by lia. apply apart_cut in A; [|lia..].
  assert (Hrest : forall c, c ∈ (l1 ++ l2) ++ al -> far x c.1 /\ far y c.1).
  { intros c Hc. eapply Forall_forall in B; [|exact Hc]. destruct A as ([_ A0]%Forall_cons & A1' & _).
    eapply Forall_forall in A0, A1'; [|exact Hc..]. split; [apply (disj_far (x, k - n) c)|apply (disj_far (y, n) c)]; cbn [snd]; first [done|lia|apply B]. }
  assert (Hfst : (l1 ++ (x, k - n) :: l2).*1 = (l1 ++ (x, k) :: l2).*1) by (by rewrite !fmap_app).
  assert (Ho : only [x; y] (mem s) m') by (apply only_size; [set_solver|]; apply only_size; [set_solver|done]).
  split_and!; [|split; cbn [mem freep brk]| |done].
  - unfold take_block. rewrite (proj2 (Z.eqb_neq k n)) by lia. unfold put_size, modify, ret, mbind, M_bind. cbn [mem freep brk set_mem set_freep].
    unfold units, sizeof_Header. rewrite (u32_small (k - n)) by lia. fold y. rewrite (u32_small y) by lia.
    replace (y + 8 * 1) with (y + 8) by lia. by rewrite (u32_small (y + 8)) by lia.
  - done.
  - assert (Hsx : forall z, z ∈ base :: (l1 ++ (x, k) :: l2).*1 -> hptr m' z = hptr (mem s) z).
    { intros z Hz. assert (Hz' : z = x \/ far x z /\ far y z).
      { apply elem_of_cons in Hz as [->|(c & -> & Hc)%list_elem_of_fmap]; [right; unfold far; lia|].
        apply elem_of_app in Hc as [Hc|[->|Hc]%elem_of_cons]; [right; apply Hrest; set_solver|by left|right; apply Hrest; set_solver]. }
      unfold m'. destruct Hz' as [->|[Hx Hy]]; [rewrite hptr_size_far by done; apply hptr_size|rewrite !hptr_size_far by done; done]. }
    pose proof (seg_ext _ m' _ _ _ Hsx (ho_seg _ _ _ H)) as Hs. apply seg_app in Hs as [S1 S2]. apply seg_app. by split.
  - rewrite (only_hsize [x; y] (mem s) m'); [apply (ho_size _ _ _ H)|done|]. apply Forall_cons; split; [|apply Forall_singleton]; unfold far; lia.
  - pose proof (ho_sorted _ _ _ H) as S. apply StronglySorted_app in S as (C & S1 & S2). apply StronglySorted_inv in S2 as [S2 G].
    apply StronglySorted_app. split_and!; [|done|constructor; [done|]].
    + intros c d Hc [->|Hd]%elem_of_cons; [apply (C c (x, k)); [done|by left]|apply C; [done|by right]].
    + eapply Forall_impl; [exact G|]. unfold gap, stop. cbn [fst snd]. intros d. lia.
  - by rewrite Hp'.
  - rewrite Hp'. constructor; [|constructor].
    + cbn [fst snd]. unfold stop. cbn [fst snd]. split_and!; [lia|lia|lia|]. unfold m'. rewrite hsize_size_far by done. rewrite hsize_size. apply u32_small. lia.
    + cbn [fst snd]. unfold stop. cbn [fst snd]. split_and!; [lia|lia|lia|]. unfold m'. rewrite hsize_size. apply u32_small. lia.
    + apply (Forall_in _ _ _ B). intros c Hc. destruct (Hrest c Hc). rewrite (only_hsize [x; y] (mem s) m'); [done|done|]. by apply Forall_cons; split; [|apply Forall_singleton].
  - rewrite Hfst. by eapply list_elem_of_lookup_2.
  - apply (kept_only _ _ _ _ Ho). intros h b Hh Hb. destruct A as ([_ A0]%Forall_cons & A1' & _).
    assert (Hbin : b ∈ (l1 ++ l2) ++ al) by set_solver. eapply Forall_forall in A0, A1', B; [|exact Hbin..].
    unfold disj, stop in *. cbn [fst snd] in *. assert (h = x \/ h = y) as [->| ->] by set_solver; lia.
Qed.

(** ** malloc *)

Abbreviation nodes l := (base :: (l : list blk).*1).

Lemma node_inj s l al i j x : heap_ok s l al -> nodes l !! i = Some x -> nodes l !! j = Some x -> i = j.
Proof.
  intros H. assert (K : forall d i x y, nodes l !! i = Some x -> nodes l !! (S d + i)%nat = Some y -> x < y).
  { induction d as [|d IH]; intros i' x' y Hx Hy; [by apply (heap_incr s l al i')|].
    destruct (lookup_lt_is_Some_2 (nodes l) (S d + i')) as [z Hz]; [apply lookup_lt_Some in Hy; lia|].
    specialize (IH i' x' z Hx Hz). pose proof (heap_incr s l al (S d + i') z y H Hz Hy). lia. }
  intros Hi Hj. destruct (Nat.lt_total i j) as [Hl|[?|Hl]]; [|done|].
  - specialize (K (j - S i)%nat i x x Hi). replace (S (j - S i) + i)%nat with j in K by lia. specialize (K Hj). lia.
  - specialize (K (i - S j)%nat j x x Hj). replace (S (i - S j) + j)%nat with i in K by lia. specialize (K Hi). lia.
Qed.

Lemma wrap_mod a n : (a < n + n)%nat -> (a mod n = if (a <? n)%nat then a else a - n)%nat.
Proof.
  intros Ha. destruct (Nat.ltb_spec a n); [by apply Nat.mod_small|]. replace a with ((a - n) + 1 * n)%nat at 1 by lia.
  rewrite Nat.Div0.mod_add. apply Nat.mod_small. lia.
Qed.

(** The places before and after a place of the circular list. *)
Definition before (l : list blk) (j : nat) : nat := match j with O => length l | S j => j end.
Definition after (l : list blk) (j : nat) : nat := if (j =? length l)%nat then O else S j.

Lemma get_next s l al j x : heap_ok s l al -> nodes l !! j = Some x -> exists y, get_ptr x s = Ret y s /\ nodes l !! after l j = Some y /\ before l (after l j) = j.
Proof.
  intros H Hx. exists (hptr (mem s) x). split; [done|]. rewrite (seg_next _ _ _ _ j x (ho_seg _ _ _ H) Hx). unfold after.
  pose proof (lookup_lt_Some _ _ _ Hx) as Hlt. cbn [length] in Hlt. rewrite length_fmap in Hlt. destruct (Nat.eqb_spec j (length l)) as [->|Hne].
  - split; [|done]. assert (l.*1 !! length l = None) as -> by (apply lookup_ge_None; by rewrite length_fmap). done.
  - split; [|done]. destruct (lookup_lt_is_Some_2 (l.*1) j) as [y Hy]; [rewrite length_fmap; lia|]. rewrite Hy. exact Hy.
Qed.

Lemma node_size s l al j x : heap_ok s l al -> nodes l !! j = Some x ->
  exists z, get_size x s = Ret z s /\ (1 <= z -> exists k, j = S k /\ l !! k = Some (x, z)) /\ (forall k c, j = S k -> l !! k = Some c -> c.2 = z).
Proof.
  intros H Hx. exists (hsize (mem s) x). split; [done|]. destruct j as [|k]; simpl in Hx.
  - injection Hx as <-. rewrite (ho_size _ _ _ H). split; [lia|done].
  - apply list_lookup_fmap_Some in Hx as (c & -> & Hc). destruct (heap_free _ _ _ c H) as (_ & _ & _ & E); [by eapply list_elem_of_lookup_2|].
    rewrite E. split; [intros _; exists k; split; [done|by destruct c]|]. intros k' c' [= <-] Hc'. congruence.
Qed.

Lemma malloc_walk s l al nu ff f i0 : heap_ok s l al -> 1 <= nu -> nodes l !! i0 = Some (freep s) ->
  forall d j prev x, nodes l !! j = Some x -> nodes l !! before l j = Some prev -> ((j + d) mod S (length l) = i0)%nat -> (d <= length l)%nat ->
  (exists l1 a l2 P, l = l1 ++ a :: l2 /\ nu <= a.2 /\ nodes l !! length l1 = Some P /\
     malloc_loop nu prev x ff (S d + f) s = take_block nu P a.1 a.2 s) \/
  (forall t k c, (t <= d)%nat -> ((j + t) mod S (length l) = S k)%nat -> l !! k = Some c -> c.2 < nu) /\
  malloc_loop nu prev x ff (S d + f) s =
    (p ← morecore nu ff; if p =? 0 then ret 0 else q ← get_ptr p; malloc_loop nu p q ff f) s.
Proof.
  intros H Hnu Hi0. induction d as [|d IH]; intros j prev x Hx Hprev Hd Hdl; cbn [Nat.add malloc_loop];
    destruct (node_size s l al j x H Hx) as (z & Ez & Hz & Hz'); rewrite (bind_ret _ _ _ _ _ Ez);
    pose proof (lookup_lt_Some _ _ _ Hx) as Hlt; cbn [length] in Hlt; rewrite length_fmap in Hlt.
  all: destruct (Z.leb_spec nu z) as [Hfit|Hno];
    [left; destruct (Hz ltac:(lia)) as (k & -> & Hk); exists (take k l), (x, z), (drop (S k) l), prev;
     split_and!; [by rewrite take_drop_middle|done|rewrite length_take, Nat.min_l; [done|]; apply lookup_lt_Some in Hk; lia|done]|].
  all: rewrite (bind_ret _ _ _ _ _ (eq_refl : gets freep s = Ret (freep s) s)).
  all: assert (Hjmod : (j mod S (length l) = j)%nat) by (apply Nat.mod_small; lia).
  - right. rewrite Nat.add_0_r, Hjmod in Hd. subst i0. assert (x = freep s) as -> by congruence. rewrite Z.eqb_refl. split; [|done].
    intros t k c Ht Hk Hc. assert (t = O) as -> by lia. rewrite Nat.add_0_r, Hjmod in Hk. rewrite (Hz' k c Hk Hc). done.
  - assert (Hne : x <> freep s).
    { intros ->. assert (j = i0) as -> by (by eapply node_inj). rewrite wrap_mod in Hd by lia. destruct (Nat.ltb_spec (i0 + S d) (S (length l))); lia. }
    rewrite (proj2 (Z.eqb_neq _ _)) by done. destruct (get_next s l al j x H Hx) as (y & Ey & Hy & Hb). rewrite (bind_ret _ _ _ _ _ Ey).
    assert (Hstep : forall t, ((after l j + t) mod S (length l) = (j + S t) mod S (length l))%nat).
    { intros t. unfold after. destruct (Nat.eqb_spec j (length l)) as [->|]; [|f_equal; lia].
      replace (length l + S t)%nat with (t + 1 * S (length l))%nat by lia. by rewrite Nat.Div0.mod_add. }
    destruct (IH (after l j) x y Hy) as [Hl|[Hall Hrun]]; [by rewrite Hb|by rewrite Hstep|lia|by left|right].
    split; [|done]. intros [|t] k c Ht Hk Hc.
    + rewrite Nat.add_0_r, Hjmod in Hk. rewrite (Hz' k c Hk Hc). done.
    + apply (Hall t k c); [lia|by rewrite Hstep|done].
Qed.

Lemma take_spec s l1 a l2 al P nu : heap_ok s (l1 ++ a :: l2) al -> nodes (l1 ++ a :: l2) !! length l1 = Some P -> 1 <= nu <= a.2 ->
  exists s' l' b, take_block nu P a.1 a.2 s = Ret (b.1 + 8) s' /\ b.2 = nu /\ heap_ok s' l' (b :: al) /\ kept al (mem s) (mem s') /\
    brk s' = brk s /\ total l' + nu = total (l1 ++ a :: l2).
Proof.
  intros H HP Hnu. destruct a as [x k]. cbn [fst snd] in *. destruct (decide (nu = k)) as [->|Hne].
  - destruct (take_whole s l1 (x, k) l2 al P H HP) as (s' & E & H' & K & B). exists s', (l1 ++ l2), (x, k). split_and!; try done.
    rewrite !total_units_app, total_cons. lia.
  - destruct (take_tail s l1 (x, k) l2 al P nu H HP) as (s' & E & H' & K & B); [cbn [snd]; lia|]. cbn [fst snd] in *.
    exists s', (l1 ++ (x, k - nu) :: l2), (x + 8 * (k - nu), nu). split_and!; [exact E|done|exact H'|done|done|]. rewrite !total_units_app, !total_cons. lia.
Qed.

Lemma malloc_loop_spec s l al nu fuel : heap_ok s l al -> 1 <= nu -> 8 * nu < 2 ^ 31 -> (2 * length l + 4 <= fuel)%nat ->
  exists q, get_ptr (freep s) s = Ret q s /\
   (malloc_loop nu (freep s) q fuel fuel s = Ret 0 s \/
    exists s' l' b, malloc_loop nu (freep s) q fuel fuel s = Ret (b.1 + 8) s' /\ b.2 = nu /\ heap_ok s' l' (b :: al) /\ kept al (mem s) (mem s') /\
      brk s' - brk s = 8 * (total l' + nu - total l)).
Proof.
  intros H Hnu Hnu8 Hfuel.
  assert (Hround : forall s l, heap_ok s l al -> exists i0 q, nodes l !! i0 = Some (freep s) /\ get_ptr (freep s) s = Ret q s /\
    nodes l !! after l i0 = Some q /\ nodes l !! before l (after l i0) = Some (freep s) /\ ((after l i0 + length l) mod S (length l) = i0)%nat /\ (i0 <= length l)%nat).
  { clear s l H Hfuel. intros s l H. destruct (list_elem_of_lookup_1 _ _ (ho_freep _ _ _ H)) as (i0 & Hi0).
    destruct (get_next s l al i0 _ H Hi0) as (q & Eq & Hq & Hb). exists i0, q. rewrite Hb. split_and!; try done;
      pose proof (lookup_lt_Some _ _ _ Hi0) as Hlt; cbn [length] in Hlt; rewrite length_fmap in Hlt; [|lia].
    rewrite wrap_mod by (unfold after; destruct (_ =? _)%nat; lia). unfold after.
    destruct (Nat.eqb_spec i0 (length l)); match goal with |- context [(?a <? ?b)%nat] => destruct (Nat.ltb_spec a b) end; lia. }
  destruct (Hround s l H) as (i0 & q & Hi0 & Eq & Hq & Hprev & Hmod & _). exists q. split; [done|].
  assert (Ef : (S (length l) + (fuel - S (length l)) = fuel)%nat) by lia.
  destruct (malloc_walk s l al nu fuel (fuel - S (length l)) i0 H Hnu Hi0 (length l) (after l i0) (freep s) q Hq Hprev Hmod (Nat.le_refl _))
    as [(l1 & a & l2 & P & El & Hfit & HP & E)|[_ E]]; rewrite Ef in E; rewrite E.
  { right. rewrite El in H, HP |- *. destruct (take_spec s l1 a l2 al P nu H HP) as (s' & l' & b & E1 & Hb & H1 & K1 & B1 & T1); [lia|].
    exists s', l', b. split_and!; try done. lia. }
  destruct (morecore_spec s l al nu fuel H Hnu Hnu8 ltac:(lia)) as [E1|(s1 & l' & E1 & H1 & K1 & B1 & (c & Hc & Hcn) & Hlen)]; rewrite (bind_ret _ _ _ _ _ E1).
  { by left. }
  right. pose proof (heap_node s1 l' al (freep s1) H1 (ho_freep _ _ _ H1)) as Hfp. pose proof (ho_base _ _ _ H1).
  rewrite (proj2 (Z.eqb_neq (freep s1) 0)) by lia.
  destruct (Hround s1 l' H1) as (i1 & q1 & Hi1 & Eq1 & Hq1 & Hprev1 & Hmod1 & Hi1l). rewrite (bind_ret _ _ _ _ _ Eq1).
  replace (fuel - S (length l))%nat with (S (length l') + (fuel - S (length l) - S (length l')))%nat by lia.
  destruct (malloc_walk s1 l' al nu fuel (fuel - S (length l) - S (length l')) i1 H1 Hnu Hi1 (length l') (after l' i1) (freep s1) q1 Hq1 Hprev1 Hmod1 (Nat.le_refl _))
    as [(l1 & a & l2 & P & -> & Hfit & HP & E2)|[Hall _]].
  - rewrite E2. destruct (take_spec s1 l1 a l2 al P nu H1 HP) as (s' & l'' & b & E3 & Hb & H2 & K2 & B2 & T2); [lia|].
    exists s', l'', b. split_and!; try done; [by eapply kept_trans|lia].
  - exfalso. apply list_elem_of_lookup_1 in Hc as (k & Hk). pose proof (lookup_lt_Some _ _ _ Hk) as Hklt.
    assert (Ht : exists t, (t <= length l')%nat /\ ((after l' i1 + t) mod S (length l') = S k)%nat).
    { assert (Ha : (after l' i1 <= length l')%nat) by (unfold after; destruct (Nat.eqb_spec i1 (length l')); lia).
      destruct (decide (after l' i1 <= S k)%nat) as [Hle|Hgt].
      - exists (S k - after l' i1)%nat. split; [lia|]. rewrite wrap_mod by lia. destruct (Nat.ltb_spec (after l' i1 + (S k - after l' i1)) (S (length l'))); lia.
      - exists (S k + S (length l') - after l' i1)%nat. split; [lia|]. rewrite wrap_mod by lia.
        destruct (Nat.ltb_spec (after l' i1 + (S k + S (length l') - after l' i1)) (S (length l'))); lia. }
    destruct Ht as (t & Ht & Htk). specialize (Hall t k c Ht Htk Hk). lia.
Qed.

Lemma nunits_bound n : 0 <= n < 2 ^ 31 - 16 -> nunits_of n = (n + 7) / 8 + 1 /\ 1 <= nunits_of n /\ 8 * nunits_of n < 2 ^ 31 /\ n + 8 <= 8 * nunits_of n.
Proof.
  intros Hn. unfold nunits_of, sizeof_Header. assert (E : u32 (n + 8 - 1) = n + 7) by (rewrite u32_small; lia). rewrite E.
  rewrite u32_small; [|dlia]. split_and!; dlia.
Qed.

(** ** More fuel changes nothing *)

Lemma free_loop_mono bp f : forall p f' s r s', (f <= f')%nat -> free_loop bp p f s = Ret r s' -> free_loop bp p f' s = Ret r s'.
Proof.
  induction f as [|f IH]; intros p [|f'] s r s' Hf E; try done; [lia|]. cbn [free_loop] in *. unfold mbind, M_bind in *. cbn [get_ptr gets] in *.
  destruct (_ && _); [done|]. destruct (_ && _); [done|]. apply IH; [lia|done].
Qed.
Lemma free_mono ap f f' s s' : (f <= f')%nat -> free ap f s = Ret tt s' -> free ap f' s = Ret tt s'.
Proof.
  intros Hf E. unfold free in *. apply bind_inv in E as (p & s1 & E1 & E). rewrite (bind_ret _ _ _ _ _ E1).
  apply bind_inv in E as (q & s2 & E2 & E). by rewrite (bind_ret _ _ _ _ _ (free_loop_mono _ _ _ _ _ _ _ Hf E2)).
Qed.
Lemma morecore_mono nu f f' s r s' : (f <= f')%nat -> morecore nu f s = Ret r s' -> morecore nu f' s = Ret r s'.
Proof.
  intros Hf E. unfold morecore in *. apply bind_inv in E as (p & s1 & E1 & E). rewrite (bind_ret _ _ _ _ _ E1). destruct (p =? u32 (-1)); [done|].
  apply bind_inv in E as ([] & s2 & E2 & E). rewrite (bind_ret _ _ _ _ _ E2).
  apply bind_inv in E as ([] & s3 & E3 & E). by rewrite (bind_ret _ _ _ _ _ (free_mono _ _ _ _ _ Hf E3)).
Qed.
Lemma malloc_loop_mono nu ff ff' f : (ff <= ff')%nat -> forall prev p f' s r s', (f <= f')%nat ->
  malloc_loop nu prev p ff f s = Ret r s' -> malloc_loop nu prev p ff' f' s = Ret r s'.
Proof.
  intros Hff. induction f as [|f IH]; intros prev p [|f'] s r s' Hf E; try done; [lia|]. cbn [malloc_loop] in *.
  apply bind_inv in E as (z & s1 & E1 & E). rewrite (bind_ret _ _ _ _ _ E1). destruct (nu <=? z); [done|].
  apply bind_inv in E as (fp & s2 & E2 & E). rewrite (bind_ret _ _ _ _ _ E2). destruct (p =? fp).
  - apply bind_inv in E as (x & s3 & E3 & E). rewrite (bind_ret _ _ _ _ _ (morecore_mono _ _ _ _ _ _ Hff E3)). destruct (x =? 0); [done|].
    apply bind_inv in E as (y & s4 & E4 & E). rewrite (bind_ret _ _ _ _ _ E4). apply IH; [lia|done].
  - apply bind_inv in E as (y & s4 & E4 & E). rewrite (bind_ret _ _ _ _ _ E4). apply IH; [lia|done].
Qed.
Lemma malloc_mono n f f' s r s' : (f <= f')%nat -> malloc n f s = Ret r s' -> malloc n f' s = Ret r s'.
Proof.
  intros Hf E. unfold malloc in *. apply bind_inv in E as (fp & s1 & E1 & E). rewrite (bind_ret _ _ _ _ _ E1).
  apply bind_inv in E as (prev & s2 & E2 & E). rewrite (bind_ret _ _ _ _ _ E2). apply bind_inv in E as (q & s3 & E3 & E).
  rewrite (bind_ret _ _ _ _ _ E3). by apply (malloc_loop_mono _ f f' f Hf).
Qed.

(** ** A program's calls *)

Context (b0 : Z) (Hb0 : 0 < base /\ base + 8 <= b0 /\ b0 < 2 ^ 31).

(** [al] is what the program has, header address and units: it calls malloc, frees what it
    has, and writes into what it has. *)
Inductive reach : uheap -> list blk -> Prop :=
| reach_start m : reach (mkHeap m 0 b0) []
| reach_malloc s al n fuel r s' : reach s al -> 0 <= n < 2 ^ 31 - 16 -> malloc n fuel s = Ret r s' ->
    reach s' (if r =? 0 then al else (r - 8, nunits_of n) :: al)
| reach_free s al b al' fuel s' : reach s al -> al ≡ₚ b :: al' -> free (b.1 + 8) fuel s = Ret tt s' -> reach s' al'
| reach_write s al b y v : reach s al -> b ∈ al -> b.1 + 8 <= y < stop b -> reach (set_mem (store8 (mem s) y v) s) al.

Definition inv (s : uheap) (al : list blk) : Prop :=
  freep s = 0 /\ al = [] /\ brk s = b0 \/ exists l, heap_ok s l al /\ brk s - b0 = 8 * total (l ++ al).

Lemma heap_perm_al s l al al' : al ≡ₚ al' -> heap_ok s l al -> heap_ok s l al'.
Proof. intros Hp [H1 H2 H3 H4 H5 H6 H7]. split; try done; by rewrite <- Hp. Qed.

Lemma heap_write s l al b y v : heap_ok s l al -> b ∈ al -> b.1 + 8 <= y < stop b -> heap_ok (set_mem (store8 (mem s) y v) s) l al.
Proof.
  intros H Hb Hy. pose proof H as [H1 H2 H3 H4 H5 H6 H7].
  assert (Hout : forall x, x ∈ base :: (l ++ al).*1 -> forall q, x <= q < x + 8 -> q <> y).
  { intros x Hx q Hq ->. destruct (heap_block _ _ _ b H) as (B1 & B2 & _); [set_solver|]. apply elem_of_cons in Hx as [->|(c & -> & Hc)%list_elem_of_fmap]; [lia|].
    destruct (heap_block _ _ _ c H Hc) as (_ & C2 & _). apply elem_of_Permutation in Hb as (al' & Hal).
    assert (Hc' : c = b \/ c ∈ l ++ al') by (rewrite Hal in Hc; set_solver). destruct Hc' as [->|Hc']; [lia|].
    rewrite Hal, heap_perm in H5. pose proof (apart_elem _ _ _ H5 Hc') as D. unfold disj, stop in *. lia. }
  assert (Hp : forall x, x ∈ base :: (l ++ al).*1 -> hptr (store8 (mem s) y v) x = hptr (mem s) x /\ hsize (store8 (mem s) y v) x = hsize (mem s) x).
  { intros x Hx. split; apply load32_ext; intros q Hq; apply load8_store8_ne; intros E; eapply Hout; [exact Hx| |by symmetry|exact Hx| |by symmetry]; lia. }
  split; try done; cbn [set_mem mem freep brk].
  - apply (seg_ext (mem s)); [|done]. intros x Hx. apply Hp. rewrite fmap_app. set_solver.
  - rewrite (proj2 (Hp base ltac:(by left))). done.
  - apply (Forall_in _ _ _ H6). intros c Hc. rewrite (proj2 (Hp c.1 ltac:(right; by apply list_elem_of_fmap_2))). done.
Qed.

(** The first call of malloc makes the list of one empty block. *)
Definition start_list (s : uheap) : uheap := mkHeap (store32 (store32 (mem s) base base) (base + 4) 0) base (brk s).
Lemma start_ok s : brk s = b0 -> heap_ok (start_list s) [] [].
Proof using Hb0.
  intros Hb. split; cbn [start_list mem freep brk]; try done; try by constructor; try lia.
  - simpl. rewrite hptr_size, hptr_ptr. apply u32_small. lia.
  - by rewrite hsize_size.
Qed.

Lemma malloc_ok s al n fuel l : heap_ok s l al -> 0 <= n < 2 ^ 31 - 16 -> (2 * length l + 4 <= fuel)%nat ->
  malloc n fuel s = Ret 0 s \/
  exists s' l' b, malloc n fuel s = Ret (b.1 + 8) s' /\ b.2 = nunits_of n /\ heap_ok s' l' (b :: al) /\ kept al (mem s) (mem s') /\
    brk s' - brk s = 8 * (total l' + b.2 - total l).
Proof.
  intros H Hn Hfuel. destruct (nunits_bound n Hn) as (_ & Hu1 & Hu2 & _).
  destruct (malloc_loop_spec s l al (nunits_of n) fuel H Hu1 Hu2 Hfuel) as (q & Eq & Hr).
  pose proof (heap_node s l al (freep s) H (ho_freep _ _ _ H)). pose proof (ho_base _ _ _ H).
  assert (E : malloc n fuel s = malloc_loop (nunits_of n) (freep s) q fuel fuel s).
  { unfold malloc. rewrite (bind_ret _ _ _ _ _ (eq_refl : gets freep s = Ret (freep s) s)). rewrite (proj2 (Z.eqb_neq (freep s) 0)) by lia.
    rewrite (bind_ret _ _ _ _ _ (eq_refl : ret (freep s) s = Ret (freep s) s)). by rewrite (bind_ret _ _ _ _ _ Eq). }
  rewrite E. destruct Hr as [Hr|(s' & l' & b & Hr & Hb & H' & K & B)]; [by left|right]. exists s', l', b. rewrite Hb. done.
Qed.

(** malloc from any state of the invariant. *)
Lemma malloc_inv s al n : inv s al -> 0 <= n < 2 ^ 31 - 16 -> exists f0, forall fuel, (f0 <= fuel)%nat -> exists r s',
  malloc n fuel s = Ret r s' /\ kept al (mem s) (mem s') /\
  (r = 0 /\ inv s' al \/ base + 16 <= r /\ inv s' ((r - 8, nunits_of n) :: al)).
Proof using Hb0.
  intros [(Hf & -> & Hb)|(l & H & Ha)] Hn.
  - pose proof (start_ok s Hb) as H. exists 4%nat. intros fuel Hfuel.
    assert (E : malloc n fuel s = malloc n fuel (start_list s)).
    { unfold malloc. rewrite (bind_ret _ _ _ _ _ (eq_refl : gets freep s = Ret (freep s) s)). rewrite Hf. cbn [Z.eqb].
      rewrite (bind_ret (gets freep) _ (start_list s) base (start_list s) eq_refl). by rewrite (proj2 (Z.eqb_neq base 0)) by lia. }
    destruct (malloc_ok (start_list s) [] n fuel [] H Hn) as [E1|(s' & l' & b & E1 & Hb' & H' & _ & B)]; [simpl; lia|..]; rewrite E, E1.
    + exists 0, (start_list s). split_and!; [done|by intros b y ?%elem_of_nil|left]. split; [done|]. right. exists []. split; [done|]. cbn [start_list brk app]. change (total []) with 0. lia.
    + exists (b.1 + 8), s'. split_and!; [done|by intros c y ?%elem_of_nil|right]. destruct (heap_block s' l' [b] b H') as (Hbb & _); [set_solver|]. split; [lia|].
      right. exists l'. replace (b.1 + 8 - 8) with b.1 by lia. rewrite <- Hb'. split; [by destruct b|]. rewrite total_units_app. destruct b as [x k]. rewrite total_cons.
      change (total []) with 0 in *. cbn [start_list brk snd] in *. lia.
  - exists (2 * length l + 4)%nat. intros fuel Hfuel. destruct (malloc_ok s al n fuel l H Hn Hfuel) as [E1|(s' & l' & b & E1 & Hb' & H' & K & B)]; rewrite E1.
    + exists 0, s. split_and!; [done|done|left]. split; [done|]. right. by exists l.
    + exists (b.1 + 8), s'. split_and!; [done|done|right]. destruct (heap_block s' l' (b :: al) b H') as (Hbb & _); [set_solver|]. split; [lia|].
      right. exists l'. replace (b.1 + 8 - 8) with b.1 by lia. rewrite <- Hb'. split; [by destruct b|]. rewrite !total_units_app in *. destruct b as [x k]. rewrite total_cons.
      cbn [snd] in *. lia.
Qed.

Lemma free_inv s al b al' : inv s al -> al ≡ₚ b :: al' -> exists f0, forall fuel, (f0 <= fuel)%nat -> exists s',
  free (b.1 + 8) fuel s = Ret tt s' /\ kept al' (mem s) (mem s') /\ inv s' al'.
Proof.
  intros [(_ & -> & _)|(l & H & Ha)] Hp; [by apply Permutation_nil_l in Hp|]. apply (heap_perm_al _ _ _ _ Hp) in H. exists (S (length l)). intros fuel Hfuel.
  destruct (free_spec s l al' b fuel H ltac:(lia)) as (s' & l' & E & H' & B & T & O & _). exists s'. split_and!; [done| |].
  - apply (kept_only _ _ _ _ O). intros h c Hh Hc. assert (Hh' : h = b.1 \/ h ∈ base :: l.*1) by set_solver. destruct Hh' as [->|Hh'].
    + destruct (heap_block _ _ _ b H) as (_ & Hb1 & _); [set_solver|]. pose proof (ho_apart _ _ _ H) as A. rewrite heap_perm in A.
      assert (D : disj b c) by (eapply apart_elem; [exact A|set_solver]). unfold disj, stop in *. lia.
    + apply (heap_kept s l (b :: al')); [done|done|set_solver].
  - right. exists l'. split; [done|]. rewrite Hp in Ha. rewrite total_units_app in *. destruct b as [x k]. rewrite total_cons in Ha. cbn [snd] in *. lia.
Qed.

Lemma reach_inv s al : reach s al -> inv s al.
Proof using Hb0.
  induction 1 as [m|s al n fuel r s' _ IH Hn E|s al b al' fuel s' _ IH Hp E|s al b y v _ IH Hb Hy].
  - by left.
  - destruct (malloc_inv s al n IH Hn) as (f0 & Hf). destruct (Hf (f0 + fuel)%nat) as (r' & s1 & E1 & _ & Hi); [lia|].
    apply (malloc_mono _ _ (f0 + fuel)) in E; [|lia]. rewrite E in E1. injection E1 as <- <-.
    destruct Hi as [[-> Hi]|[Hr Hi]]; [done|]. rewrite (proj2 (Z.eqb_neq r 0)) by lia. done.
  - destruct (free_inv s al b al' IH Hp) as (f0 & Hf). destruct (Hf (f0 + fuel)%nat) as (s1 & E1 & _ & Hi); [lia|].
    apply (free_mono _ _ (f0 + fuel)) in E; [|lia]. congruence.
  - destruct IH as [(_ & -> & _)|(l & H & Ha)]; [by apply elem_of_nil in Hb|]. right. exists l. split; [by apply (heap_write s l al b)|done].
Qed.

(** C29: whatever a program does with malloc, free and the memory it was given, the blocks it
    has are disjoint and inside the heap; together with the free list, which is in address
    order with no two neighbours left unmerged, they make up every byte sbrk has given; malloc
    returns, with 0 or a block that is large enough, and free returns, and neither changes a
    byte of the other blocks. *)
Theorem malloc_free_safe s al : reach s al ->
  (apart al /\ Forall (fun b => base + 8 <= b.1 /\ 1 <= b.2 /\ stop b <= brk s) al) /\
  (freep s = 0 /\ brk s = b0 \/
   exists l, seg (mem s) base l base /\ StronglySorted gap l /\ apart (l ++ al) /\ brk s - b0 = 8 * total (l ++ al)) /\
  (forall n, 0 <= n < 2 ^ 31 - 16 -> exists f0, forall fuel, (f0 <= fuel)%nat -> exists r s', malloc n fuel s = Ret r s' /\ kept al (mem s) (mem s') /\
     (r = 0 \/ exists k, r + n <= r - 8 + 8 * k /\ reach s' ((r - 8, k) :: al))) /\
  (forall b al', al ≡ₚ b :: al' -> exists f0, forall fuel, (f0 <= fuel)%nat -> exists s', free (b.1 + 8) fuel s = Ret tt s' /\ kept al' (mem s) (mem s') /\ reach s' al').
Proof using Hb0.
  intros R. pose proof (reach_inv s al R) as HI. split_and!.
  - destruct HI as [(_ & -> & _)|(l & H & _)]; [done|]. by apply (apart_app l), (ho_apart _ _ _ H).
  - destruct HI as [(_ & -> & _)|(l & H & _)]; [done|]. apply Forall_forall. intros b Hb. destruct (heap_block s l al b H) as (? & ? & ? & _); [set_solver|done].
  - destruct HI as [(Hf & -> & Hb)|(l & H & Ha)]; [by left|right]. exists l. by destruct H.
  - intros n Hn. destruct (malloc_inv s al n HI Hn) as (f0 & Hf). exists f0. intros fuel Hfuel. destruct (Hf fuel Hfuel) as (r & s' & E & K & Hr).
    exists r, s'. split_and!; [done|done|]. destruct Hr as [[-> _]|[Hr _]]; [by left|right]. destruct (nunits_bound n Hn) as (_ & _ & _ & Hu).
    exists (nunits_of n). split; [lia|]. pose proof (reach_malloc s al n fuel r s' R Hn E) as R'. by rewrite (proj2 (Z.eqb_neq r 0)) in R' by lia.
  - intros b al' Hp. destruct (free_inv s al b al' HI Hp) as (f0 & Hf). exists f0. intros fuel Hfuel. destruct (Hf fuel Hfuel) as (s' & E & K & _).
    exists s'. split_and!; [done|done|]. by apply (reach_free s al b al' fuel).
Qed.
End Malloc.

(** A program with its variables up to 4096: it asks for 100 bytes and for 20, and gives the
    first block back. *)
Definition demo_start : uheap := mkHeap (fun _ => 0) 0 4096.
Definition demo_next {A : Type} (m : M uheap A) (s : uheap) : uheap := match m s with Ret _ s' => s' | _ => s end.
Definition demo_malloc (n : Z) : M uheap Z := malloc 16 (fun _ _ => true) n 10.
Definition demo1 : uheap := demo_next (demo_malloc 100) demo_start.
Definition demo2 : uheap := demo_next (demo_malloc 20) demo1.
Definition demo3 : uheap := demo_next (free (36752 + 8) 10) demo2.

Lemma demo_runs {A : Type} (m : M uheap A) s r : match m s with Ret a _ => a = r | _ => False end -> m s = Ret r (demo_next m s).
Proof. unfold demo_next. by destruct (m s) as [a s'| | |]; [intros ->|..]. Qed.

Lemma heap_demo_reach : reach 16 (fun _ _ => true) 4096 demo3 [(36720, 4)].
Proof.
  assert (H0 : reach 16 (fun _ _ => true) 4096 demo_start []) by apply reach_start.
  assert (E1 : demo_malloc 100 demo_start = Ret 36760 demo1) by (apply demo_runs; vm_compute; reflexivity).
  pose proof (reach_malloc 16 (fun _ _ => true) 4096 _ _ 100 10 _ _ H0 ltac:(lia) E1) as H1.
  assert (E2 : demo_malloc 20 demo1 = Ret 36728 demo2) by (apply demo_runs; vm_compute; reflexivity).
  pose proof (reach_malloc 16 (fun _ _ => true) 4096 _ _ 20 10 _ _ H1 ltac:(lia) E2) as H2.
  assert (E3 : free (36752 + 8) 10 demo2 = Ret tt demo3) by (apply demo_runs; vm_compute; reflexivity).
  exact (reach_free 16 (fun _ _ => true) 4096 _ _ (36752, 14) [(36720, 4)] 10 _ H2 ltac:(by rewrite Permutation_swap) E3).
Qed.

Lemma malloc_free_safe_witness :
  reach 16 (fun _ _ => true) 4096 demo3 [(36720, 4)] /\ brk demo3 = 36864 /\
  exists f0, forall fuel, (f0 <= fuel)%nat -> exists r s', malloc 16 (fun _ _ => true) 5000 fuel demo3 = Ret r s' /\ kept [(36720, 4)] (mem demo3) (mem s') /\
    (r = 0 \/ exists k, r + 5000 <= r - 8 + 8 * k /\ reach 16 (fun _ _ => true) 4096 s' [(r - 8, k); (36720, 4)]).
Proof.
  split; [exact heap_demo_reach|]. split; [vm_compute; reflexivity|].
  exact (proj1 (proj2 (proj2 (malloc_free_safe 16 (fun _ _ => true) 4096 ltac:(lia) demo3 [(36720, 4)] heap_demo_reach))) 5000 ltac:(lia)).
Defined.

(** A request near 2^32 wraps around and gets the smallest block; one just above 2^31 asks sbrk
    for a negative amount, which takes memory away. *)
Example malloc_wraps : nunits_of (2 ^ 32 - 1) = 1 /\ s32 (u32 (nunits_of (2 ^ 31) * sizeof_Header)) = - 2 ^ 31 + 8.
Proof. by vm_compute. Qed.
