(* ===== verification/Pipe.v ===== *)
(** * Pipe: the ring buffer between a pipe's two ends (offline_4/xv6/pipe.c)

    A call of pipewrite or piperead holds p->lock except while it sleeps, so it runs as a
    sequence of sections: from the acquire, or from a wakeup, to the next sleep or to the
    return. A section is one step here, and the sections of any number of processes interleave
    in any order. *)

From S2P Require Import Prelude.

Definition PIPESIZE : Z := 512.

Record pipe : Type := mkPipe {
  data : list Z;
  nread : Z;
  nwrite : Z;
  readopen : bool;
  writeopen : bool;
  (** Whether somebody sleeps on &p->nread, on &p->nwrite. *)
  readers : bool;
  writers : bool
}.

(** The part of pipealloc that fills the fresh page. *)
Definition newpipe (page : list Z) : pipe := mkPipe page 0 0 true true false false.

Definition wake_readers (p : pipe) : pipe := mkPipe (data p) (nread p) (nwrite p) (readopen p) (writeopen p) false (writers p).
Definition wake_writers (p : pipe) : pipe := mkPipe (data p) (nread p) (nwrite p) (readopen p) (writeopen p) (readers p) false.
Definition sleep_reader (p : pipe) : pipe := mkPipe (data p) (nread p) (nwrite p) (readopen p) (writeopen p) true (writers p).
Definition sleep_writer (p : pipe) : pipe := mkPipe (data p) (nread p) (nwrite p) (readopen p) (writeopen p) (readers p) true.

(** pipeclose; the flag says whether the page is freed. *)
Definition pipeclose (writable : bool) (p : pipe) : pipe * bool :=
  let p := if writable
           then wake_readers (mkPipe (data p) (nread p) (nwrite p) (readopen p) false (readers p) (writers p))
           else wake_writers (mkPipe (data p) (nread p) (nwrite p) false (writeopen p) (readers p) (writers p)) in
  (p, negb (readopen p) && negb (writeopen p)).

(** p->data[p->nwrite++ % PIPESIZE] = b, and the byte at p->nread++ % PIPESIZE. *)
Definition push (b : Z) (p : pipe) : pipe :=
  mkPipe (<[Z.to_nat (nwrite p mod PIPESIZE) := b]> (data p)) (nread p) (u32 (nwrite p + 1)) (readopen p) (writeopen p) (readers p) (writers p).
Definition pop (p : pipe) : Z * pipe :=
  (nth (Z.to_nat (nread p mod PIPESIZE)) (data p) 0,
   mkPipe (data p) (u32 (nread p + 1)) (nwrite p) (readopen p) (writeopen p) (readers p) (writers p)).

Definition full (p : pipe) : bool := nwrite p =? u32 (nread p + PIPESIZE).
Definition empty (p : pipe) : bool := nread p =? nwrite p.

(** How a section ends: the call returns a value, or sleeps with the rest still to do. *)
Inductive ended (A : Type) : Type :=
  | Returned (r : Z) (a : A)
  | Sleeps (a : A).
Arguments Returned {A} r a.
Arguments Sleeps {A} a.

(** A section of pipewrite with [addr] left to write; [n] is the call's argument. *)
Fixpoint pipewrite (killed : bool) (n : Z) (addr : list Z) (p : pipe) : pipe * ended (list Z) :=
  match addr with
  | [] => (wake_readers p, Returned n [])
  | b :: addr' =>
      if full p then
        if negb (readopen p) || killed then (p, Returned (-1) addr)
        else (sleep_writer (wake_readers p), Sleeps addr)
      else pipewrite killed n addr' (push b p)
  end.

Fixpoint read_bytes (n : nat) (p : pipe) : list Z * pipe :=
  match n with
  | O => ([], p)
  | S n => if empty p then ([], p) else let '(b, p) := pop p in let '(l, p) := read_bytes n p in (b :: l, p)
  end.

(** A section of piperead; the bytes are those stored at addr. *)
Definition piperead (killed : bool) (n : Z) (p : pipe) : pipe * ended (list Z) :=
  if empty p && writeopen p then
    if killed then (p, Returned (-1) []) else (sleep_reader p, Sleeps [])
  else let '(l, p) := read_bytes (Z.to_nat n) p in (wake_writers p, Returned (Z.of_nat (length l)) l).

(** ** The bytes in a pipe, as a queue *)

(** [p] holds the bytes [q], oldest first. *)
Record holds (p : pipe) (q : list Z) : Prop := {
  h_data : length (data p) = Z.to_nat PIPESIZE;
  h_len : Z.of_nat (length q) <= PIPESIZE;
  h_read : 0 <= nread p < 2 ^ 32;
  h_write : nwrite p = u32 (nread p + Z.of_nat (length q));
  h_bytes : forall i b, q !! i = Some b -> data p !! Z.to_nat ((nread p + Z.of_nat i) mod PIPESIZE) = Some b
}.

Lemma u32_mod_PIPESIZE x : u32 x mod PIPESIZE = x mod PIPESIZE.
Proof. unfold u32, PIPESIZE. dlia. Qed.

Lemma empty_queue p q : holds p q -> empty p = bool_decide (q = []).
Proof.
  intros [_ Hl Hr Hw _]. unfold empty. rewrite Hw. clear Hw. unfold PIPESIZE, u32 in *.
  destruct q as [|b q]; cbn [length] in *; [rewrite bool_decide_eq_true_2 by done|rewrite bool_decide_eq_false_2 by done]; dlia.
Qed.
Lemma full_queue p q : holds p q -> full p = (Z.of_nat (length q) =? PIPESIZE).
Proof. intros [_ Hl Hr Hw _]. unfold full. rewrite Hw. clear Hw. unfold PIPESIZE, u32 in *. dlia. Qed.

Lemma push_holds b p q : holds p q -> Z.of_nat (length q) < PIPESIZE -> holds (push b p) (q ++ [b]).
Proof.
  intros [Hd Hl Hr Hw Hb] Hq. split; cbn [push data nread nwrite]; rewrite ?length_insert, ?length_app; cbn [length]; try done; try lia.
  - rewrite Hw. unfold PIPESIZE, u32 in *. dlia.
  - intros i c Hi. rewrite Hw, u32_mod_PIPESIZE. apply lookup_snoc_Some in Hi as [[Hlt Hi]|[-> ->]].
    + rewrite list_lookup_insert_ne; [by apply Hb|]. unfold PIPESIZE in *. dlia.
    + rewrite list_lookup_insert_eq; [done|]. rewrite Hd. unfold PIPESIZE in *. dlia.
Qed.

Lemma pop_holds p b q : holds p (b :: q) -> (pop p).1 = b /\ holds (pop p).2 q.
Proof.
  intros [Hd Hl Hr Hw Hb]. split.
  - simpl. apply nth_lookup_Some. specialize (Hb O b eq_refl). by rewrite Z.add_0_r in Hb.
  - cbn [length] in *. split; cbn [pop snd data nread nwrite]; try done.
    + unfold PIPESIZE in *. lia.
    + apply u32_range.
    + rewrite Hw. unfold u32, PIPESIZE in *. dlia.
    + intros i c Hi. specialize (Hb (S i) c Hi). rewrite <- Hb. f_equal. f_equal. unfold u32, PIPESIZE. dlia.
Qed.

(** Only the ring and its counters matter. *)
Lemma holds_fields p p' q : holds p q -> data p' = data p -> nread p' = nread p -> nwrite p' = nwrite p -> holds p' q.
Proof. intros [Hd Hl Hr Hw Hb] E1 E2 E3. split; rewrite ?E1, ?E2, ?E3; done. Qed.
#[local] Hint Extern 2 (holds _ _) => eapply holds_fields; [eassumption|reflexivity..] : core.

(** ** One section *)

Definition space (q : list Z) : nat := (Z.to_nat PIPESIZE - length q)%nat.

Lemma pipewrite_spec killed n addr : forall p q, holds p q ->
  exists p', pipewrite killed n addr p =
    (p', if (length addr <=? space q)%nat then Returned n []
         else if negb (readopen p) || killed then Returned (-1) (drop (space q) addr) else Sleeps (drop (space q) addr)) /\
  holds p' (q ++ take (space q) addr) /\ readopen p' = readopen p /\ writeopen p' = writeopen p /\
  ((readers p' = readers p /\ writers p' = writers p /\ (space q < length addr)%nat /\ (readopen p = false \/ killed = true)) \/
   (readers p' = false /\ writers p' = writers p /\ (length addr <= space q)%nat) \/
   (readers p' = false /\ writers p' = true /\ (space q < length addr)%nat /\ readopen p = true)).
Proof.
  unfold space. induction addr as [|b addr IH]; intros p q H; cbn [pipewrite length].
  - eexists. split; [reflexivity|]. rewrite take_nil, app_nil_r. split_and!; try done; [by auto|]. right. left. split_and!; [done|done|lia].
  - rewrite (full_queue p q H). destruct (Z.eqb_spec (Z.of_nat (length q)) PIPESIZE) as [E|E].
    + replace (Z.to_nat PIPESIZE - length q)%nat with 0%nat by lia. cbn [take drop]. rewrite app_nil_r.
      destruct (negb (readopen p) || killed) eqn:Ek; eexists; (split; [reflexivity|]); (split_and!; try done); try (by auto).
      * left. split_and!; [done|done|lia|]. destruct (readopen p), killed; auto.
      * right. right. split_and!; try done; [lia|]. by destruct (readopen p).
    + pose proof (h_len _ _ H). destruct (IH (push b p) (q ++ [b])) as (p' & Ep & Hp & Hr & Hw & Hc); [by apply push_holds; [|lia]|].
      rewrite length_app in Ep, Hp, Hc. cbn [length] in Ep, Hp, Hc. cbn [push readopen writeopen readers writers] in Ep, Hr, Hw, Hc.
      assert (ES : (Z.to_nat PIPESIZE - length q = S (Z.to_nat PIPESIZE - (length q + 1)))%nat) by (unfold PIPESIZE in *; lia).
      exists p'. rewrite ES. cbn [drop take]. rewrite <- app_assoc in Hp. split_and!; try done.
      intuition lia.
Qed.

Lemma read_bytes_spec n : forall p q, holds p q ->
  exists p', read_bytes n p = (take n q, p') /\ holds p' (drop n q) /\
    readopen p' = readopen p /\ writeopen p' = writeopen p /\ readers p' = readers p /\ writers p' = writers p.
Proof.
  induction n as [|n IH]; intros p q H; cbn [read_bytes]; [by exists p|].
  rewrite (empty_queue p q H). destruct q as [|b q]; [by exists p|]. rewrite bool_decide_eq_false_2 by done.
  destruct (pop_holds p b q H) as [Hb Hq]. destruct (pop p) as [b' p1] eqn:Ep. simpl in Hb, Hq. subst b'.
  destruct (IH p1 q Hq) as (p' & -> & Hp & Hf). exists p'. cbn [take drop]. split_and!; try done; try (unfold pop in Ep; injection Ep as _ <-; apply Hf).
Qed.

Lemma piperead_spec killed n p q : holds p q ->
  exists p', piperead killed n p =
    (p', if bool_decide (q = []) && writeopen p then if killed then Returned (-1) [] else Sleeps []
         else Returned (Z.of_nat (length (take (Z.to_nat n) q))) (take (Z.to_nat n) q)) /\
  readopen p' = readopen p /\ writeopen p' = writeopen p /\
  if bool_decide (q = []) && writeopen p then holds p' q /\ (readers p' = readers p \/ readers p' = true) /\ writers p' = writers p
  else holds p' (drop (Z.to_nat n) q) /\ readers p' = readers p /\ writers p' = false.
Proof.
  intros H. unfold piperead. rewrite (empty_queue p q H). destruct (bool_decide (q = []) && writeopen p).
  - destruct killed; eexists; (split; [reflexivity|]); split_and!; try done; auto; by auto.
  - destruct (read_bytes_spec (Z.to_nat n) p q H) as (p' & -> & Hp & Hro & Hwo & Hr & _).
    eexists; (split; [reflexivity|]); split_and!; try done. by auto.
Qed.

(** ** Any interleaving of sections *)

Inductive event : Type :=
  | Write (killed : bool) (n : Z) (addr : list Z)
  | Read (killed : bool) (n : Z)
  | Close (writable : bool).

(** A pipe with the bytes that went in and those that came out since it was made. *)
Record history : Type := mkHistory { now : pipe; written : list Z; delivered : list Z }.

Definition do_event (e : event) (h : history) : history :=
  match e with
  | Write killed n addr =>
      let '(p, r) := pipewrite killed n addr (now h) in
      let rest := match r with Returned _ l => l | Sleeps l => l end in
      mkHistory p (written h ++ take (length addr - length rest) addr) (delivered h)
  | Read killed n =>
      let '(p, r) := piperead killed n (now h) in
      mkHistory p (written h) (delivered h ++ match r with Returned _ l => l | Sleeps l => l end)
  | Close writable => mkHistory (pipeclose writable (now h)).1 (written h) (delivered h)
  end.
Definition run (es : list event) (h : history) : history := fold_left (fun h e => do_event e h) es h.
Definition fresh (page : list Z) : history := mkHistory (newpipe page) [] [].

Definition fifo (h : history) : Prop := exists q, holds (now h) q /\ written h = delivered h ++ q.

Lemma fifo_event e h : fifo h -> fifo (do_event e h).
Proof.
  intros (q & H & E). destruct e as [killed n addr|killed n|writable]; unfold fifo, do_event.
  - destruct (pipewrite_spec killed n addr (now h) q H) as (p' & -> & Hp & _). exists (q ++ take (space q) addr). split; [done|].
    cbn [written delivered]. rewrite E, <- app_assoc. do 2 f_equal. destruct (Nat.leb_spec (length addr) (space q)).
    + cbn [length]. by rewrite !take_ge by lia.
    + assert ((length addr - length (drop (space q) addr) = space q)%nat) by (rewrite length_drop; lia). by destruct (negb _ || _); f_equal.
  - destruct (piperead_spec killed n (now h) q H) as (p' & -> & _ & _ & Hc).
    destruct (bool_decide (q = []) && writeopen (now h)).
    + exists q. split; [apply Hc|]. cbn [written delivered]. by destruct killed; rewrite app_nil_r.
    + exists (drop (Z.to_nat n) q). split; [apply Hc|]. cbn [written delivered]. by rewrite <- app_assoc, take_drop.
  - exists q. split; [|done]. unfold pipeclose. destruct writable; cbn [now fst]; by auto.
Qed.
Lemma fifo_run es : forall h, fifo h -> fifo (run es h).
Proof. induction es as [|e es IH]; intros h H; [done|]. apply IH. by apply fifo_event. Qed.

Lemma fresh_holds page : length page = Z.to_nat PIPESIZE -> holds (newpipe page) [].
Proof. intros Hl. split; try done. Qed.

(** C23: whatever the order in which the sections of any number of readers and writers and the
    closing of the ends interleave, and however often the 32-bit counters wrap, what has come
    out of the pipe is the start of what has gone in, and at most PIPESIZE bytes are between:
    the pipe is a bounded queue of bytes. *)
Theorem pipe_fifo page es : length page = Z.to_nat PIPESIZE ->
  let h := run es (fresh page) in
  exists q, holds (now h) q /\ written h = delivered h ++ q /\ Z.of_nat (length q) <= PIPESIZE.
Proof.
  intros Hl h. destruct (fifo_run es (fresh page)) as (q & H & E).
  { exists []. split; [by apply fresh_holds|done]. }
  exists q. split_and!; [done|done|by apply (h_len _ _ H)].
Qed.

(** ** Nobody sleeps who could go on *)

(** Readers that sleep without cause are not there; [r] says whether that is claimed. *)
Definition waiting_ok (r : bool) (p : pipe) : Prop := exists q, holds p q /\
  (r = true -> readers p = true -> readopen p = true -> q = [] /\ writeopen p = true) /\
  (writers p = true -> Z.of_nat (length q) = PIPESIZE /\ readopen p = true).

Definition writer_lives (e : event) : Prop := match e with Write killed _ _ => killed = false | _ => True end.

Lemma waiting_write r killed n addr p : (r = true -> killed = false) -> waiting_ok r p -> waiting_ok r (pipewrite killed n addr p).1.
Proof.
  intros Hk (q & H & Hr & Hw). pose proof (h_len _ _ H) as Hq.
  destruct (pipewrite_spec killed n addr p q H) as (p' & -> & Hp & Er & Ew & Hc).
  exists (q ++ take (space q) addr). split; [done|]. cbn [fst]. rewrite length_app, length_take, Er, Ew. unfold space, PIPESIZE in *.
  destruct Hc as [(E1 & E2 & Hs & Ho)|[(E1 & E2 & Hs)|(E1 & E2 & Hs & Ho)]]; rewrite E1, E2.
  - split.
    + intros R. rewrite (Hk R) in Ho. destruct Ho as [Ho|]; [|done]. by rewrite Ho.
    + intros W. destruct (Hw W) as [W1 W2]. split; [lia|done].
  - split; [done|]. intros W. destruct (Hw W) as [W1 W2]. split; [lia|done].
  - split; [done|]. intros _. split; [lia|done].
Qed.
Lemma waiting_read r killed n p : waiting_ok r p -> waiting_ok r (piperead killed n p).1.
Proof.
  intros (q & H & Hr & Hw). destruct (piperead_spec killed n p q H) as (p' & -> & Er & Ew & Hc). cbn [fst].
  destruct (bool_decide (q = []) && writeopen p) eqn:Eq.
  - destruct Hc as (Hp & Hc & Ws). apply andb_true_iff in Eq as [->%bool_decide_eq_true Ho].
    exists []. rewrite Er, Ew, Ws. split_and!; [done|done|]. exact Hw.
  - destruct Hc as (Hp & Rs & Ws). exists (drop (Z.to_nat n) q). rewrite Er, Ew, Ws, Rs. split_and!; [done| |done].
    intros R R' O. destruct (Hr R R' O) as [-> W]. rewrite W in Eq. done.
Qed.
Lemma waiting_close r w p : waiting_ok r p -> waiting_ok r (pipeclose w p).1.
Proof.
  intros (q & H & Hr & Hw). exists q. unfold pipeclose. destruct w; cbn; (split; [by auto|]); split; try done; auto.
Qed.

Lemma waiting_run r es : (r = true -> Forall writer_lives es) -> forall h, waiting_ok r (now h) -> waiting_ok r (now (run es h)).
Proof.
  induction es as [|e es IH]; intros Hes h H; [done|]. apply IH; [intros R; by apply Forall_cons in Hes as [_ ?]|].
  destruct e as [killed n addr|killed n|w]; unfold do_event.
  - assert (Hk : r = true -> killed = false) by (intros R; by apply Forall_cons in Hes as [Hk _]).
    pose proof (waiting_write r killed n addr (now h) Hk H). by destruct (pipewrite _ _ _ _).
  - pose proof (waiting_read r killed n (now h) H). by destruct (piperead _ _ _).
  - by apply waiting_close.
Qed.

Lemma fresh_waiting r page : length page = Z.to_nat PIPESIZE -> waiting_ok r (now (fresh page)).
Proof. intros Hl. exists []. split; [by apply fresh_holds|done]. Qed.

(** C24: wakeups on a pipe, in any interleaving of the sections of its readers and writers and
    of the closing of its ends. A writer that sleeps always finds the pipe full and the read
    end open. For readers it takes two conditions: as long as no writer was killed in the
    middle of a write, a reader that sleeps on a pipe whose read end is open finds it empty
    and the write end open. Without the first condition it is false: a killed writer returns
    without waking the reader its bytes are for ([killed_writer_keeps_reader_asleep]). *)
Theorem pipe_no_lost_wakeup page es : length page = Z.to_nat PIPESIZE ->
  let p := now (run es (fresh page)) in
  (writers p = true -> full p = true /\ readopen p = true) /\
  (Forall writer_lives es -> readers p = true -> readopen p = true -> empty p = true /\ writeopen p = true).
Proof.
  intros Hl p. split.
  - destruct (waiting_run false es ltac:(done) _ (fresh_waiting false page Hl)) as (q & H & _ & Hw). fold p in H, Hw.
    intros W. destruct (Hw W) as [Eq O]. split; [|done]. rewrite (full_queue p q H). lia.
  - intros Hes R O. destruct (waiting_run true es ltac:(done) _ (fresh_waiting true page Hl)) as (q & H & Hr & _). fold p in H, Hr.
    destruct (Hr eq_refl R O) as [-> W]. split; [|done]. by rewrite (empty_queue p [] H).
Qed.

Definition page : list Z := replicate (Z.to_nat PIPESIZE) 7.
(** A reader sleeps, a writer fills the pipe and sleeps, the reader takes a part, the writer
    goes on. *)
Definition session : list event :=
  [Read false 3; Write false 600 (replicate 600 1); Read false 100; Write false 600 (replicate 88 2); Read false 512].

Lemma pipe_fifo_witness : length (delivered (run session (fresh page))) = 600%nat /\
  exists q, written (run session (fresh page)) = delivered (run session (fresh page)) ++ q.
Proof.
  split; [vm_compute; reflexivity|]. destruct (pipe_fifo page session eq_refl) as (q & _ & E & _). exists q. exact E.
Defined.

Lemma pipe_no_lost_wakeup_witness :
  (let p := now (run (firstn 2 session) (fresh page)) in writers p = true /\ full p = true /\ readopen p = true) /\
  (let p := now (run (firstn 1 session) (fresh page)) in readers p = true /\ empty p = true /\ writeopen p = true).
Proof.
  assert (L : Forall writer_lives (firstn 1 session)) by (repeat constructor).
  split.
  - destruct (pipe_no_lost_wakeup page (firstn 2 session) eq_refl) as [H _].
    split; [vm_compute; reflexivity|]. apply H. vm_compute. reflexivity.
  - destruct (pipe_no_lost_wakeup page (firstn 1 session) eq_refl) as [_ H].
    split; [vm_compute; reflexivity|]. apply H; [exact L|vm_compute; reflexivity|vm_compute; reflexivity].
Defined.

(** A writer killed while the pipe is full returns without waking the reader its bytes are
    for. *)
Example killed_writer_keeps_reader_asleep :
  let p := now (run [Read false 3; Write true 600 (replicate 600 1)] (fresh page)) in
  readers p = true /\ readopen p = true /\ empty p = false.
Proof. vm_compute. auto. Qed.
