(* ===== verification/Printf.v ===== *)
(** * Printf: numbers to text and back (offline_4/xv6/printf.c, console.c, ulib.c, itoa of fs.c)

    A string is the list of its characters before the zero; what a routine prints is the list
    of characters it hands to putc (consputc). *)

From S2P Require Import Prelude.

(** The characters of a string constant. *)
Fixpoint chars (s : string) : list Z :=
  match s with
  | EmptyString => []
  | String a s => Z.of_nat (Ascii.nat_of_ascii a) :: chars s
  end.

Definition percent : Z := 37.
Definition minus : Z := 45.
Definition zero : Z := 48.
Definition nine : Z := 57.

(** The two tables of digits. *)
Definition digits : list Z := chars "0123456789ABCDEF".
Definition kdigits : list Z := chars "0123456789abcdef".

(** do { buf[i++] = digits[x % base]; } while((x /= base) != 0); *)
Fixpoint put_digits (fuel : nat) (table : list Z) (x base : Z) : list Z :=
  match fuel with
  | O => []
  | S fuel => nth (Z.to_nat (x mod base)) table 0 :: (if x / base =? 0 then [] else put_digits fuel table (x / base) base)
  end.

(** What buf holds when printint starts to print it from its end; a [uint] has at most 32
    digits. *)
Definition int_buf (table : list Z) (xx base : Z) (sgn : bool) : list Z :=
  let neg := sgn && (xx <? 0) in
  let x := if neg then u32 (- xx) else u32 xx in
  put_digits 32 table x base ++ (if neg then [minus] else []).

Definition printint (xx base : Z) (sgn : bool) : list Z := rev (int_buf digits xx base sgn).
(** The kernel's printint. *)
Definition kprintint (xx base : Z) (sign : bool) : list Z := rev (int_buf kdigits xx base sign).

Fixpoint atoi_loop (n : Z) (s : list Z) : Z :=
  match s with
  | c :: s => if (zero <=? c) && (c <=? nine) then atoi_loop (s32 (n * 10 + c - zero)) s else n
  | [] => n
  end.
Definition atoi (s : list Z) : Z := atoi_loop 0 s.

(** itoa of fs.c. The first loop moves past the digits, the second writes them backwards; [b]
    is the buffer, [p] an index into it. C's division rounds towards zero. *)
Fixpoint skip_digits (fuel : nat) (p : nat) (shifter : Z) : nat :=
  match fuel with
  | O => p
  | S fuel => let shifter := Z.quot shifter 10 in if shifter =? 0 then S p else skip_digits fuel (S p) shifter
  end.
Fixpoint fill_digits (fuel : nat) (p : nat) (i : Z) (b : list Z) : list Z :=
  match fuel with
  | O => b
  | S fuel =>
      let b := <[pred p := nth (Z.to_nat (Z.rem i 10)) (chars "0123456789") 0]> b in
      let i := Z.quot i 10 in
      if i =? 0 then b else fill_digits fuel (pred p) i b
  end.
Definition itoa (i : Z) (b : list Z) : list Z :=
  let '(b, p, i) := if i <? 0 then (<[0%nat := minus]> b, 1%nat, s32 (i * -1)) else (b, 0%nat, i) in
  let p := skip_digits 32 p i in
  let b := <[p := 0]> b in
  fill_digits 32 p i b.

Section Format.
(** The words after the format on the stack, and the string a word points to. *)
Context (ap : nat -> Z) (str : Z -> list Z).

Definition string_arg (s : Z) : list Z := if s =? 0 then chars "(null)" else str s.

(** printf's loop: [state] is 0 or '%', [k] counts the arguments used. *)
Fixpoint printf_loop (state : Z) (k : nat) (fmt : list Z) : list Z :=
  match fmt with
  | [] => []
  | c :: fmt =>
      if state =? 0 then
        if c =? percent then printf_loop percent k fmt else c :: printf_loop 0 k fmt
      else if c =? 100 then printint (s32 (ap k)) 10 true ++ printf_loop 0 (S k) fmt
      else if (c =? 120) || (c =? 112) then printint (s32 (ap k)) 16 false ++ printf_loop 0 (S k) fmt
      else if c =? 115 then string_arg (ap k) ++ printf_loop 0 (S k) fmt
      else if c =? 99 then u8 (ap k) :: printf_loop 0 (S k) fmt
      else if c =? percent then c :: printf_loop 0 k fmt
      else percent :: c :: printf_loop 0 k fmt
  end.
Definition printf (fmt : list Z) : list Z := printf_loop 0 0 fmt.

(** cprintf's loop looks at the character after a '%' at once. *)
Fixpoint cprintf_loop (k : nat) (fmt : list Z) : list Z :=
  match fmt with
  | [] => []
  | c :: fmt1 =>
      if negb (c =? percent) then c :: cprintf_loop k fmt1
      else match fmt1 with
           | [] => []
           | c :: fmt =>
               if c =? 100 then kprintint (s32 (ap k)) 10 true ++ cprintf_loop (S k) fmt
               else if (c =? 120) || (c =? 112) then kprintint (s32 (ap k)) 16 false ++ cprintf_loop (S k) fmt
               else if c =? 115 then string_arg (ap k) ++ cprintf_loop (S k) fmt
               else if c =? percent then percent :: cprintf_loop k fmt
               else percent :: c :: cprintf_loop k fmt
           end
  end.
Definition cprintf (fmt : list Z) : list Z := cprintf_loop 0 fmt.
End Format.

(** ** Reading a number *)

Definition is_digit (c : Z) : bool := (zero <=? c) && (c <=? nine).
(** The value of decimal digits, most significant first. *)
Definition value (l : list Z) : Z := fold_left (fun n c => n * 10 + (c - zero)) l 0.
(** The number a decimal numeral stands for. *)
Definition numeral (l : list Z) : Z :=
  match l with
  | c :: l' => if c =? minus then - value l' else value l
  | [] => 0
  end.

Lemma value_snoc l d : value (l ++ [d]) = value l * 10 + (d - zero).
Proof. unfold value. by rewrite fold_left_app. Qed.

(** A table whose first ten characters are the decimal digits. *)
Definition decimal (table : list Z) : Prop := forall x, 0 <= x -> nth (Z.to_nat (x mod 10)) table 0 = zero + x mod 10.
Ltac ten x Hx :=
  let r := fresh "r" in set (r := x mod 10); assert (0 <= r < 10) by (unfold r; apply Z.mod_pos_bound; lia); clearbody r;
  assert (r = 0 \/ r = 1 \/ r = 2 \/ r = 3 \/ r = 4 \/ r = 5 \/ r = 6 \/ r = 7 \/ r = 8 \/ r = 9) as Hr by lia;
  repeat destruct Hr as [->|Hr]; subst; try reflexivity.
Lemma digits_decimal : decimal digits.
Proof. intros x Hx. ten x Hx. Qed.
Lemma kdigits_decimal : decimal kdigits.
Proof. intros x Hx. ten x Hx. Qed.

Lemma put_digits_value table fuel : decimal table -> forall x, 0 <= x < 10 ^ Z.of_nat fuel -> (0 < fuel)%nat ->
  value (rev (put_digits fuel table x 10)) = x /\ Forall (fun c => is_digit c = true) (put_digits fuel table x 10) /\
  put_digits fuel table x 10 <> [].
Proof.
  intros Ht. induction fuel as [|fuel IH]; intros x Hx Hf; [lia|]. cbn [put_digits].
  rewrite Nat2Z.inj_succ, Z.pow_succ_r in Hx by lia. rewrite Ht by lia.
  assert (Hd : is_digit (zero + x mod 10) = true) by (unfold is_digit, zero, nine; dlia).
  destruct (Z.eqb_spec (x / 10) 0) as [E|E].
  - split_and!; [|by repeat constructor|done]. unfold value. simpl. dlia.
  - assert (Hlt : x / 10 < 10 ^ Z.of_nat fuel) by (apply Z.div_lt_upper_bound; lia).
    destruct fuel as [|fuel]; [rewrite Z.pow_0_r in Hlt; dlia|].
    destruct (IH (x / 10)) as (Hv & Hs & _); [split; [dlia|done]|lia|].
    split_and!; [|by constructor|done]. cbn [rev]. rewrite value_snoc, Hv. dlia.
Qed.

(** How many digits: at most [n] below 10^n, whatever the fuel. *)
Lemma put_digits_length table n : forall fuel x, 0 <= x < 10 ^ Z.of_nat n -> (length (put_digits fuel table x 10) <= Nat.max 1 n)%nat.
Proof.
  induction n as [|n IH]; intros [|fuel] x Hx; cbn [put_digits length]; try lia.
  - rewrite Z.pow_0_r in Hx. replace (x / 10 =? 0) with true by dlia. simpl. lia.
  - rewrite Nat2Z.inj_succ, Z.pow_succ_r in Hx by lia. destruct (Z.eqb_spec (x / 10) 0) as [E|E]; [simpl; lia|].
    assert (Hlt : x / 10 < 10 ^ Z.of_nat n) by (apply Z.div_lt_upper_bound; lia).
    pose proof (IH fuel (x / 10) ltac:(split; [dlia|done])). destruct n; [rewrite Z.pow_0_r in Hlt; dlia|]. lia.
Qed.

(** Enough fuel changes nothing. *)
Lemma put_digits_fuel table f1 : forall f2 x, 0 <= x < 10 ^ Z.of_nat f1 -> (f1 <= f2)%nat -> (0 < f1)%nat ->
  put_digits f2 table x 10 = put_digits f1 table x 10.
Proof.
  induction f1 as [|f1 IH]; intros [|f2] x Hx Hf H1; try lia. cbn [put_digits]. f_equal.
  rewrite Nat2Z.inj_succ, Z.pow_succ_r in Hx by lia. destruct (Z.eqb_spec (x / 10) 0) as [E|E]; [done|].
  assert (Hlt : x / 10 < 10 ^ Z.of_nat f1) by (apply Z.div_lt_upper_bound; lia).
  destruct f1 as [|f1]; [rewrite Z.pow_0_r in Hlt; dlia|]. apply IH; [split; [dlia|done]|lia..].
Qed.

Lemma digit_not_minus l : Forall (fun c => is_digit c = true) l -> l <> [] -> numeral l = value l.
Proof.
  intros Hl Hn. destruct l as [|c l]; [done|]. apply Forall_cons in Hl as [Hc _]. unfold numeral, is_digit, zero, nine, minus in *.
  by replace (c =? 45) with false by lia.
Qed.

Lemma int_buf_decimal table xx : decimal table -> - 2 ^ 31 <= xx < 2 ^ 31 ->
  numeral (rev (int_buf table xx 10 true)) = xx /\ (length (int_buf table xx 10 true) <= 11)%nat.
Proof.
  intros Ht Hx. unfold int_buf. rewrite length_app. cbn [andb].
  set (x := if xx <? 0 then u32 (- xx) else u32 xx).
  assert (Ex : x = Z.abs xx) by (unfold x, u32; destruct (Z.ltb_spec xx 0); rewrite Z.mod_small; lia).
  destruct (put_digits_value table 32 Ht x) as (Hv & Hs & Hn); [split; [lia|]; apply Z.le_lt_trans with (2 ^ 31); [lia|done]|lia|].
  pose proof (put_digits_length table 10 32 x ltac:(split; [lia|]; apply Z.le_lt_trans with (2 ^ 31); [lia|done])) as Hl.
  set (ds := put_digits 32 table x 10) in *. clearbody ds x.
  rewrite rev_app_distr. destruct (Z.ltb_spec xx 0); simpl; (split; [|lia]).
  - change (- value (rev ds) = xx). lia.
  - rewrite digit_not_minus; [lia|by apply Forall_rev|].
    intros E. apply Hn. apply (f_equal (@rev Z)) in E. by rewrite rev_involutive in E.
Qed.

(** %d prints a numeral of the number it is given, the least int included, in both
    printints, and their 16-character buffer holds it: at most 11 characters. *)
Theorem printint_decimal xx : - 2 ^ 31 <= xx < 2 ^ 31 ->
  numeral (printint xx 10 true) = xx /\ numeral (kprintint xx 10 true) = xx /\
  (length (printint xx 10 true) <= 11)%nat /\ (length (kprintint xx 10 true) <= 11)%nat.
Proof.
  intros Hx. unfold printint, kprintint. rewrite !length_rev.
  destruct (int_buf_decimal digits xx digits_decimal Hx), (int_buf_decimal kdigits xx kdigits_decimal Hx).
  split_and!; assumption.
Qed.

(** ** atoi *)

Lemma atoi_digits s rest n : Forall (fun c => is_digit c = true) s -> 0 <= n -> fold_left (fun n c => n * 10 + (c - zero)) s n < 2 ^ 31 ->
  match rest with c :: _ => is_digit c = false | [] => True end ->
  atoi_loop n (s ++ rest) = fold_left (fun n c => n * 10 + (c - zero)) s n.
Proof.
  intros Hs. revert n. induction s as [|c s IH]; intros n Hn Hlt Hr; cbn [app fold_left] in *.
  - destruct rest as [|c rest]; [done|]. unfold atoi_loop. unfold is_digit in Hr. by rewrite Hr.
  - apply Forall_cons in Hs as [Hc Hs]. cbn [atoi_loop]. unfold is_digit in Hc. rewrite Hc.
    assert (Hmono : forall l m, Forall (fun c => is_digit c = true) l -> 0 <= m -> m <= fold_left (fun n c => n * 10 + (c - zero)) l m).
    { clear. induction l as [|d l IHl]; intros m Hl Hm; simpl; [lia|]. apply Forall_cons in Hl as [Hd Hl].
      unfold is_digit, zero, nine in *. specialize (IHl (m * 10 + (d - 48)) Hl ltac:(lia)). lia. }
    assert (0 <= n * 10 + (c - zero)) by (unfold zero, nine in *; lia).
    pose proof (Hmono s (n * 10 + (c - zero)) Hs ltac:(lia)).
    rewrite s32_small by lia. rewrite <- Z.add_sub_assoc. by apply IH.
Qed.

Lemma printint_digits x : 0 <= x < 2 ^ 31 -> Forall (fun c => is_digit c = true) (printint x 10 true) /\ printint x 10 true <> [].
Proof.
  intros Hx. unfold printint, int_buf. replace (x <? 0) with false by lia. cbn [andb]. rewrite app_nil_r.
  destruct (put_digits_value digits 32 digits_decimal (u32 x)) as (_ & Hs & Hn).
  { unfold u32. rewrite Z.mod_small by lia. split; [lia|]. apply Z.lt_trans with (2 ^ 31); [lia|done]. }
  { lia. }
  set (ds := put_digits 32 digits (u32 x) 10) in *. clearbody ds. split; [by apply Forall_rev|].
  intros E. apply Hn. apply (f_equal (@rev Z)) in E. by rewrite rev_involutive in E.
Qed.

(** atoi reads back what printf's %d wrote for every number from 0 to the largest int, up to
    the first character that is not a digit. *)
Theorem atoi_printint x rest : 0 <= x < 2 ^ 31 -> match rest with c :: _ => is_digit c = false | [] => True end ->
  atoi (printint x 10 true ++ rest) = x.
Proof.
  intros Hx Hr. destruct (int_buf_decimal digits x digits_decimal ltac:(lia)) as [Hv _].
  assert (Hs : Forall (fun c => is_digit c = true) (printint x 10 true) /\ printint x 10 true <> []) by (apply printint_digits; lia).
  destruct Hs as [Hs Hn]. fold (printint x 10 true) in Hv. rewrite digit_not_minus in Hv by done.
  unfold atoi. rewrite atoi_digits; [exact Hv|exact Hs|lia|unfold value in Hv; lia|exact Hr].
Qed.

(** ** itoa *)

Lemma quot_rem_10 x : 0 <= x -> Z.quot x 10 = x / 10 /\ Z.rem x 10 = x mod 10.
Proof. intros Hx. rewrite Z.quot_div_nonneg, Z.rem_mod_nonneg by lia. done. Qed.

Lemma skip_digits_length table fuel : forall p x, 0 <= x -> skip_digits fuel p x = (p + length (put_digits fuel table x 10))%nat.
Proof.
  induction fuel as [|fuel IH]; intros p x Hx; cbn [skip_digits put_digits length]; [lia|].
  destruct (quot_rem_10 x Hx) as [-> _]. destruct (x / 10 =? 0); cbn [length]; [lia|]. rewrite IH by dlia. lia.
Qed.

Lemma fill_digits_spec fuel : forall p x b, 0 <= x -> (length (put_digits fuel (chars "0123456789") x 10) <= p <= length b)%nat ->
  fill_digits fuel p x b =
  take (p - length (put_digits fuel (chars "0123456789") x 10)) b ++ rev (put_digits fuel (chars "0123456789") x 10) ++ drop p b.
Proof.
  induction fuel as [|fuel IH]; intros p x b Hx Hp; cbn [fill_digits put_digits length rev app] in *.
  - by rewrite Nat.sub_0_r, take_drop.
  - destruct (quot_rem_10 x Hx) as [-> ->]. set (d := nth (Z.to_nat (x mod 10)) (chars "0123456789") 0) in *. clearbody d.
    destruct p as [|p]; [lia|]. cbn [pred]. destruct (x / 10 =? 0); cbn [length rev app] in *.
    + rewrite insert_take_drop by lia. by replace (S p - 1)%nat with p by lia.
    + rewrite IH by (try dlia; rewrite length_insert; lia). rewrite take_insert_ge by lia.
      rewrite <- app_assoc. do 2 f_equal. rewrite drop_insert_ge, Nat.sub_diag by lia.
      destruct (drop p b) as [|y l] eqn:E; [apply (f_equal length) in E; rewrite length_drop in E; simpl in E; lia|].
      simpl. f_equal. change (S p) with (1 + p)%nat. by rewrite Nat.add_comm, <- drop_drop, E.
Qed.

Lemma put_digits_table t1 t2 fuel : decimal t1 -> decimal t2 -> forall x, 0 <= x -> put_digits fuel t1 x 10 = put_digits fuel t2 x 10.
Proof.
  intros H1 H2. induction fuel as [|fuel IH]; intros x Hx; cbn [put_digits]; [done|].
  rewrite H1, H2 by done. f_equal. destruct (_ =? 0); [done|]. apply IH. dlia.
Qed.
Lemma itoa_decimal : decimal (chars "0123456789").
Proof. intros x Hx. ten x Hx. Qed.

(** itoa leaves in its buffer what %d prints, a zero after it and nothing else changed, for
    every int but the least (whose negation is not an int) and a buffer of at least 12 bytes. *)
Theorem itoa_printint i b : - 2 ^ 31 < i < 2 ^ 31 -> (12 <= length b)%nat ->
  itoa i b = printint i 10 true ++ 0 :: drop (S (length (printint i 10 true))) b.
Proof.
  intros Hi Hb. set (x := Z.abs i).
  assert (Hx : 0 <= x < 10 ^ Z.of_nat 10) by (unfold x; split; [lia|apply Z.lt_trans with (2 ^ 31); [lia|done]]).
  pose proof (put_digits_length (chars "0123456789") 10 32 x Hx) as Hl.
  unfold itoa, printint, int_buf. cbn [andb].
  rewrite <- (put_digits_table _ _ 32 itoa_decimal digits_decimal) by (destruct (i <? 0); apply u32_range).
  destruct (Z.ltb_spec i 0) as [Hn|Hn].
  - rewrite s32_small, u32_small by lia. replace (i * -1) with x by lia. replace (- i) with x by lia.
    rewrite (skip_digits_length (chars "0123456789")) by lia.
    set (ds := put_digits 32 (chars "0123456789") x 10) in *.
    rewrite fill_digits_spec; fold ds; rewrite ?length_insert; [|lia..].
    replace (1 + length ds - length ds)%nat with 1%nat by lia. clearbody ds.
    destruct b as [|y b]; [simpl in Hb; lia|]. rewrite rev_app_distr, length_app, !length_rev. cbn [length rev app].
    destruct (lookup_lt_is_Some_2 b (length ds) ltac:(simpl in Hb; lia)) as [z Hz].
    simpl. rewrite drop_insert_ge, Nat.sub_diag by lia. do 2 f_equal.
    by rewrite (drop_S b z).
  - rewrite u32_small by lia. replace i with x by lia. rewrite app_nil_r.
    rewrite (skip_digits_length (chars "0123456789")) by lia.
    set (ds := put_digits 32 (chars "0123456789") x 10) in *. rewrite fill_digits_spec; fold ds; rewrite ?length_insert; [|lia..].
    clearbody ds. rewrite Nat.add_0_l, Nat.sub_diag, length_rev. rewrite take_0. cbn [app].
    destruct (lookup_lt_is_Some_2 b (length ds) ltac:(lia)) as [z Hz].
    rewrite drop_insert_ge, Nat.sub_diag by lia. by rewrite (drop_S b z).
Qed.

(** ** The two formatters *)

Section Formatters.
Context (ap : nat -> Z) (str : Z -> list Z).

(** No %c, %x or %p in the format: the kernel knows no %c, and its hexadecimal digits are in
    lower case. *)
Fixpoint common (fmt : list Z) : bool :=
  match fmt with
  | [] => true
  | c :: fmt1 =>
      if c =? percent then match fmt1 with
                           | d :: fmt => negb ((d =? 99) || (d =? 120) || (d =? 112)) && common fmt
                           | [] => true
                           end
      else common fmt1
  end.

Lemma kprintint_10 x : kprintint x 10 true = printint x 10 true.
Proof.
  unfold kprintint, printint, int_buf.
  rewrite (put_digits_table kdigits digits 32 kdigits_decimal digits_decimal); [reflexivity|].
  destruct (true && _); apply u32_range.
Qed.

Lemma formatters_agree fmt : forall k, common fmt = true -> cprintf_loop ap str k fmt = printf_loop ap str 0 k fmt.
Proof.
  induction fmt as [fmt IH] using (induction_ltof1 _ (@length Z)); unfold ltof in IH. intros k Hc.
  destruct fmt as [|c fmt]; [done|]. cbn [cprintf_loop printf_loop common] in *.
  change (0 =? 0) with true. cbn iota. destruct (c =? percent) eqn:Ec; cbn [negb]; [|f_equal; apply IH; [cbn [length]; lia|exact Hc]].
  destruct fmt as [|d fmt]; [done|]. apply andb_true_iff in Hc as [Hd Hc]. cbn [printf_loop]. change (percent =? 0) with false. cbn iota.
  assert (H : forall k, cprintf_loop ap str k fmt = printf_loop ap str 0 k fmt) by (intros k'; apply IH; [cbn [length]; lia|exact Hc]).
  rewrite !H, kprintint_10.
  destruct (d =? 100) eqn:E1; [reflexivity|]. destruct ((d =? 120) || (d =? 112)) eqn:E2; [exfalso; clear H; lia|].
  destruct (d =? 115) eqn:E3; [reflexivity|]. replace (d =? 99) with false by lia.
  destruct (Z.eqb_spec d percent) as [->|]; reflexivity.
Qed.

(** the kernel's cprintf, which looks ahead after a '%', and the user library's printf, which
    keeps the '%' as a state, print the same for every format without %c, %x and %p. *)
Theorem cprintf_is_printf fmt : common fmt = true -> cprintf ap str fmt = printf ap str fmt.
Proof. apply formatters_agree. Qed.
End Formatters.

Lemma printint_decimal_witness : - 2 ^ 31 <= - 2 ^ 31 < 2 ^ 31 /\ printint (- 2 ^ 31) 10 true = chars "-2147483648" /\
  numeral (printint (- 2 ^ 31) 10 true) = - 2 ^ 31.
Proof. split; [lia|]. split; [vm_compute; reflexivity|]. apply (printint_decimal (- 2 ^ 31)). lia. Defined.
Lemma atoi_printint_witness : printint 2022 10 true ++ chars " x" = chars "2022 x" /\ atoi (printint 2022 10 true ++ chars " x") = 2022.
Proof. split; [vm_compute; reflexivity|]. apply (atoi_printint 2022 (chars " x")); [lia|reflexivity]. Defined.
Lemma itoa_printint_witness : itoa (-17) (replicate 12 9) = printint (-17) 10 true ++ 0 :: replicate 8 9.
Proof. apply (itoa_printint (-17) (replicate 12 9)); [lia|simpl; lia]. Defined.
Definition fmt_demo : list Z := chars "pid %d: %s%% %q".
Lemma cprintf_is_printf_witness :
  cprintf (fun k => if (k =? 0)%nat then 2 ^ 32 - 5 else 64) (fun _ => chars "sh") fmt_demo = printf (fun k => if (k =? 0)%nat then 2 ^ 32 - 5 else 64) (fun _ => chars "sh") fmt_demo /\
  printf (fun k => if (k =? 0)%nat then 2 ^ 32 - 5 else 64) (fun _ => chars "sh") fmt_demo = chars "pid -5: sh% %q".
Proof. split; [apply cprintf_is_printf; reflexivity|vm_compute; reflexivity]. Defined.
