(* ===== verification/Sh.v ===== *)
(** * Sh: the shell's parser (offline_4/xv6/sh.c)

    [txt] is the command line before its terminating zero; a pointer into it is the index it
    points at, and the cursor [ps] is the state of the parser's monad. A pointer to a command is
    the command. parseexec goes on filling the execcmd after parseredirs has put redircmds
    around it, so the two are kept apart until it returns: the arguments, and the redirections
    with the innermost first. *)

From S2P Require Import Prelude Fcntl Printf.

Definition MAXARGS : nat := 10.

(** The start of a word and its end (argv and eargv, file and efile). *)
Definition word : Type := nat * nat.
Record redir : Type := mkRedir { file : word; mode : Z; fd : Z }.

Inductive cmd : Type :=
  | EXEC (argv : list word)
  | REDIR (c : cmd) (r : redir)
  | PIPE (left right : cmd)
  | LIST (left right : cmd)
  | BACK (c : cmd).

(** The constructor functions: malloc, and the fields. *)
Definition execcmd : cmd := EXEC [].
Definition redircmd (c : cmd) (r : redir) : cmd := REDIR c r.
Definition pipecmd (left right : cmd) : cmd := PIPE left right.
Definition listcmd (left right : cmd) : cmd := LIST left right.
Definition backcmd (c : cmd) : cmd := BACK c.
(** argv[argc] = q and eargv[argc] = eq for each argument in turn. *)
Definition with_args (c : cmd) (argv : list word) : cmd := match c with EXEC l => EXEC (l ++ argv) | c => c end.
Definition redirected (c : cmd) (rs : list redir) : cmd := fold_left redircmd rs c.

Definition whitespace : list Z := [32; 9; 13; 10; 11].
Definition symbols : list Z := chars "<|>&;()".
(** strchr(l, c) != 0, for a character that is not zero. *)
Definition among (l : list Z) (c : Z) : bool := existsb (Z.eqb c) l.

(** How many characters satisfy [f] before the first that does not. *)
Fixpoint span (f : Z -> bool) (l : list Z) : nat :=
  match l with [] => O | c :: l => if f c then S (span f l) else O end.

(** Characters of a word. *)
Definition in_word (c : Z) : bool := negb (among whitespace c) && negb (among symbols c).

Definition lt_sign : Z := 60.
Definition bar : Z := 124.
Definition gt_sign : Z := 62.
Definition ampersand : Z := 38.
Definition semicolon : Z := 59.
Definition open_paren : Z := 40.
Definition close_paren : Z := 41.
Definition plus : Z := 43.
Definition letter_a : Z := 97.

Section Parser.
Context (txt : list Z).

Definition char_at (p : nat) : Z := nth p txt 0.
Definition skip_spaces (p : nat) : nat := (p + span (among whitespace) (drop p txt))%nat.

(** The token's kind, its start and its end. *)
Definition gettoken : M nat (Z * nat * nat) := fun p =>
  let s := skip_spaces p in
  let c := char_at s in
  let '(tok, e) :=
    if c =? 0 then (c, s)
    else if among [bar; open_paren; close_paren; semicolon; ampersand; lt_sign] c then (c, S s)
    else if c =? gt_sign then if char_at (S s) =? gt_sign then (plus, S (S s)) else (c, S s)
    else (letter_a, (s + span in_word (drop s txt))%nat) in
  Ret (tok, s, e) (skip_spaces e).

Definition peek (toks : list Z) : M nat bool := fun p =>
  let s := skip_spaces p in Ret (negb (char_at s =? 0) && among toks (char_at s)) s.

Fixpoint parseredirs (fuel : nat) (rs : list redir) : M nat (list redir) :=
  match fuel with
  | O => fun _ => OutOfFuel
  | S fuel =>
      more ← peek [lt_sign; gt_sign];
      if more : bool then
        '(tok, _, _) ← gettoken;
        '(a, q, eq) ← gettoken;
        panic_if (negb (a =? letter_a)) "missing file for redirection";;
        parseredirs fuel
          (if tok =? lt_sign then rs ++ [mkRedir (q, eq) O_RDONLY 0]
           else if tok =? gt_sign then rs ++ [mkRedir (q, eq) (Z.lor O_WRONLY O_CREATE) 1]
           else if tok =? plus then rs ++ [mkRedir (q, eq) (Z.lor O_WRONLY O_CREATE) 1]
           else rs)
      else ret rs
  end.

(** parseexec's loop over the arguments. *)
Fixpoint parseargs (fuel : nat) (argv : list word) (rs : list redir) : M nat (list word * list redir) :=
  match fuel with
  | O => fun _ => OutOfFuel
  | S fuel =>
      stop ← peek [bar; close_paren; ampersand; semicolon];
      if stop : bool then ret (argv, rs)
      else
        '(tok, q, eq) ← gettoken;
        if tok =? 0 then ret (argv, rs)
        else
          panic_if (negb (tok =? letter_a)) "syntax";;
          panic_if (MAXARGS <=? length (argv ++ [(q, eq)]))%nat "too many args";;
          rs ← parseredirs (S (length txt)) rs;
          parseargs fuel (argv ++ [(q, eq)]) rs
  end.

(** parseline's loop over '&'. *)
Fixpoint parseback (fuel : nat) (c : cmd) : M nat cmd :=
  match fuel with
  | O => fun _ => OutOfFuel
  | S fuel =>
      more ← peek [ampersand];
      if more : bool then gettoken;; parseback fuel (backcmd c) else ret c
  end.

Fixpoint parseline (fuel : nat) : M nat cmd :=
  match fuel with
  | O => fun _ => OutOfFuel
  | S fuel =>
      c ← parsepipe fuel;
      c ← parseback (S (length txt)) c;
      more ← peek [semicolon];
      if more : bool then gettoken;; r ← parseline fuel; ret (listcmd c r)
      else ret c
  end
with parsepipe (fuel : nat) : M nat cmd :=
  match fuel with
  | O => fun _ => OutOfFuel
  | S fuel =>
      c ← parseexec fuel;
      more ← peek [bar];
      if more : bool then gettoken;; r ← parsepipe fuel; ret (pipecmd c r)
      else ret c
  end
with parseexec (fuel : nat) : M nat cmd :=
  match fuel with
  | O => fun _ => OutOfFuel
  | S fuel =>
      paren ← peek [open_paren];
      if paren : bool then parseblock fuel
      else
        rs ← parseredirs (S (length txt)) [];
        '(argv, rs) ← parseargs (S (length txt)) [] rs;
        ret (redirected (with_args execcmd argv) rs)
  end
with parseblock (fuel : nat) : M nat cmd :=
  match fuel with
  | O => fun _ => OutOfFuel
  | S fuel =>
      opened ← peek [open_paren];
      panic_if (negb opened) "parseblock";;
      gettoken;;
      c ← parseline fuel;
      closed ← peek [close_paren];
      panic_if (negb closed) "syntax - missing )";;
      gettoken;;
      rs ← parseredirs (S (length txt)) [];
      ret (redirected c rs)
  end.

(** The ends of all words set to zero, in a buffer that holds the line and its zero. *)
Fixpoint nulterminate (c : cmd) (buf : list Z) : list Z :=
  match c with
  | EXEC argv => fold_left (fun buf w => <[w.2 := 0]> buf) argv buf
  | REDIR c r => <[(file r).2 := 0]> (nulterminate c buf)
  | PIPE l r | LIST l r => nulterminate r (nulterminate l buf)
  | BACK c => nulterminate c buf
  end.

(** A call of parseline goes down to the next one in four calls, with a character less to read
    each time. *)
Definition parse_fuel (left : nat) : nat := (4 * left + 4)%nat.

Definition parsecmd : M nat (cmd * list Z) :=
  c ← parseline (parse_fuel (length txt));
  peek [];;
  s ← get;
  panic_if (negb (s =? length txt)%nat) "syntax";;
  ret (c, nulterminate c (txt ++ [0])).
End Parser.

(** The string a pointer points at. *)
Definition read_string (buf : list Z) (p : nat) : list Z := take (span (fun c => negb (c =? 0)) (drop p buf)) (drop p buf).

(** The commands a line stands for, with the words for the pointers. *)
Inductive command : Type :=
  | Simple (args : list (list Z))
  | Redirect (c : command) (file : list Z) (mode fd : Z)
  | Pipe (left right : command)
  | Sequence (left right : command)
  | Background (c : command).

(** What runcmd finds behind the pointers. *)
Fixpoint meaning (str : word -> list Z) (c : cmd) : command :=
  match c with
  | EXEC argv => Simple (map str argv)
  | REDIR c r => Redirect (meaning str c) (str (file r)) (mode r) (fd r)
  | PIPE l r => Pipe (meaning str l) (meaning str r)
  | LIST l r => Sequence (meaning str l) (meaning str r)
  | BACK c => Background (meaning str c)
  end.
Definition slice (txt : list Z) (w : word) : list Z := take (w.2 - w.1) (drop w.1 txt).

Example parse_demo :
  match parsecmd (chars "(ls;wc<a)>b|cat x y >> z &") 0%nat with
  | Ret (c, buf) _ => Some (meaning (fun w => read_string buf w.1) c)
  | _ => None
  end =
  Some (Background (Pipe (Redirect (Sequence (Simple [chars "ls"]) (Redirect (Simple [chars "wc"]) (chars "a") 0 0)) (chars "b") 513 1)
                         (Redirect (Simple [chars "cat"; chars "x"; chars "y"]) (chars "z") 513 1))).
Proof. vm_compute. reflexivity. Qed.

(** ** Every call of the parser ends *)

(** The run returns with [Q], or panics. *)
Definition ends {S A : Type} (m : M S A) (s : S) (Q : A -> S -> Prop) : Prop :=
  match m s with Ret a s' => Q a s' | Panic _ => True | _ => False end.

Section Ends.
Context {S A B : Type}.
Lemma ends_bind (m : M S A) (k : A -> M S B) s (P : A -> S -> Prop) Q :
  ends m s P -> (forall a s', P a s' -> ends (k a) s' Q) -> ends (m ≫= k) s Q.
Proof. unfold ends, mbind, M_bind. destruct (m s); naive_solver. Qed.
Lemma ends_panic_if c msg (m : M S A) s Q : (c = false -> ends m s Q) -> ends (panic_if c msg;; m) s Q.
Proof. destruct c; unfold ends, panic_if, panic, mbind, M_bind; naive_solver. Qed.
Lemma ends_mono (m : M S A) s (P Q : A -> S -> Prop) : ends m s P -> (forall a s', P a s' -> Q a s') -> ends m s Q.
Proof. unfold ends. destruct (m s); naive_solver. Qed.
End Ends.

Lemma span_le f l : (span f l <= length l)%nat.
Proof. induction l as [|c l IH]; simpl; [lia|]. destruct (f c); simpl; lia. Qed.
Lemma span_take f l : Forall (fun c => f c = true) (take (span f l) l).
Proof. induction l as [|c l IH]; simpl; [constructor|]. destruct (f c) eqn:E; simpl; constructor; done. Qed.
Lemma span_stop f l d : span f l = length l \/ f (nth (span f l) l d) = false.
Proof. induction l as [|c l IH]; simpl; [by left|]. destruct (f c) eqn:E; simpl; [|by right]. destruct IH; [left; lia|by right]. Qed.
Lemma nth_drop {A : Type} (l : list A) i n d : nth i (drop n l) d = nth (n + i) l d.
Proof. revert l. induction n as [|n IH]; intros [|x l]; simpl; try done; by destruct i. Qed.

Section Words.
Context (txt : list Z).
Abbreviation len := (length txt).

Definition word_ok (w : word) : Prop :=
  (w.1 < w.2 <= len)%nat /\ Forall (fun c => in_word c = true) (slice txt w) /\ (w.2 = len \/ in_word (char_at txt w.2) = false).
Fixpoint cmd_ok (c : cmd) : Prop :=
  match c with
  | EXEC argv => Forall word_ok argv /\ (length argv < MAXARGS)%nat
  | REDIR c r => cmd_ok c /\ word_ok (file r) /\ (fd r = 0 \/ fd r = 1)
  | PIPE l r | LIST l r => cmd_ok l /\ cmd_ok r
  | BACK c => cmd_ok c
  end.

Lemma char_at_lt p : char_at txt p <> 0 -> (p < len)%nat.
Proof. unfold char_at. intros H. destruct (decide (p < len)%nat); [done|]. by rewrite nth_overflow in H by lia. Qed.
Lemma skip_spaces_le p : (p <= len)%nat -> (p <= skip_spaces txt p <= len)%nat.
Proof. intros Hp. unfold skip_spaces. pose proof (span_le (among whitespace) (drop p txt)). rewrite length_drop in H. lia. Qed.
Lemma skip_spaces_stop p : skip_spaces txt p = len \/ (len < p)%nat \/ among whitespace (char_at txt (skip_spaces txt p)) = false.
Proof.
  unfold skip_spaces, char_at. destruct (span_stop (among whitespace) (drop p txt) 0) as [H|H].
  - rewrite H, length_drop. lia.
  - rewrite nth_drop in H. auto.
Qed.
Lemma skip_spaces_idem p : char_at txt p <> 0 -> among whitespace (char_at txt p) = false -> skip_spaces txt p = p.
Proof.
  intros H1 H2. apply char_at_lt in H1. unfold skip_spaces. destruct (drop p txt) as [|c l] eqn:E; cbn [span]; [lia|].
  assert (c = char_at txt p) as -> by (unfold char_at; replace p with (p + 0)%nat by lia; by rewrite <- nth_drop, E).
  rewrite H2. lia.
Qed.

Lemma gettoken_ends p : (p <= len)%nat ->
  ends (gettoken txt) p (fun '(tok, q, e) p' => (p <= p' <= len)%nat /\ (char_at txt (skip_spaces txt p) <> 0 -> (p < p')%nat) /\
    (tok <> 0 -> char_at txt (skip_spaces txt p) <> 0) /\ (tok = letter_a -> word_ok (q, e))).
Proof.
  intros Hp. unfold ends, gettoken. pose proof (skip_spaces_le p Hp) as Hs. pose proof (skip_spaces_stop p) as Hstop.
  set (s := skip_spaces txt p) in *. clearbody s.
  destruct (Z.eqb_spec (char_at txt s) 0) as [E|E].
  { pose proof (skip_spaces_le s ltac:(lia)). cbn iota beta. split_and!; try lia; try done. intros E'. by rewrite E' in E. }
  pose proof (char_at_lt s E) as Hlt.
  destruct (among [bar; open_paren; close_paren; semicolon; ampersand; lt_sign] (char_at txt s)) eqn:Ea.
  { pose proof (skip_spaces_le (S s) ltac:(lia)). cbn iota beta. split_and!; try lia; try done.
    intros E'. rewrite E' in Ea. done. }
  destruct (Z.eqb_spec (char_at txt s) gt_sign) as [Eg|Eg].
  - destruct (Z.eqb_spec (char_at txt (S s)) gt_sign) as [Eg2|Eg2].
    + pose proof (char_at_lt (S s) ltac:(by rewrite Eg2)). pose proof (skip_spaces_le (S (S s)) ltac:(lia)).
      cbn iota beta. split_and!; try lia; done.
    + pose proof (skip_spaces_le (S s) ltac:(lia)). cbn iota beta. split_and!; try lia; by rewrite Eg.
  - set (k := span in_word (drop s txt)). assert (Hk : (k <= len - s)%nat) by (unfold k; rewrite <- length_drop; apply span_le).
    assert (Hk1 : (0 < k)%nat).
    { unfold k. destruct (drop s txt) as [|c l] eqn:Ed; [apply (f_equal length) in Ed; rewrite length_drop in Ed; simpl in Ed; lia|].
      assert (Ec : c = char_at txt s) by (unfold char_at; replace s with (s + 0)%nat by lia; by rewrite <- nth_drop, Ed).
      cbn [span]. replace (in_word c) with true; [lia|]. symmetry. rewrite Ec. unfold in_word.
      apply andb_true_iff. split; [destruct Hstop as [Hstop|[Hstop|Hstop]]; try lia; by rewrite Hstop|].
      change symbols with [60; 124; 62; 38; 59; 40; 41]. revert Ea Eg.
      unfold among, bar, open_paren, close_paren, semicolon, ampersand, lt_sign, gt_sign. cbn [existsb]. lia. }
    pose proof (skip_spaces_le (s + k) ltac:(lia)). cbn iota beta. split_and!; try lia; try done. intros _. unfold word_ok. cbn [fst snd]. split_and!; [lia|lia| |].
    + unfold slice. cbn [fst snd]. replace (s + k - s)%nat with k by lia. apply span_take.
    + destruct (span_stop in_word (drop s txt) 0) as [H1|H1]; fold k in H1; [left; rewrite length_drop in H1; lia|].
      right. unfold char_at. by rewrite nth_drop in H1.
Qed.

Lemma peek_ends toks p : (p <= len)%nat ->
  ends (peek txt toks) p (fun b s => (p <= s <= len)%nat /\ (b = true -> char_at txt (skip_spaces txt s) <> 0)).
Proof.
  intros Hp. unfold ends, peek. pose proof (skip_spaces_le p Hp). split; [done|].
  intros [H1%negb_true_iff%Z.eqb_neq H2]%andb_true_iff. pose proof (char_at_lt _ H1). rewrite skip_spaces_idem; try done.
  destruct (skip_spaces_stop p) as [Hs|[Hs|Hs]]; [lia|lia|done].
Qed.
Definition redir_ok (r : redir) : Prop := word_ok (file r) /\ (fd r = 0 \/ fd r = 1).

(** After a peek that says yes, gettoken moves on. *)
Ltac then_token := eapply ends_bind; [apply gettoken_ends; lia|]; cbn beta.

Lemma parseredirs_ends fuel : forall rs p, (len - p < fuel)%nat -> (p <= len)%nat -> Forall redir_ok rs ->
  ends (parseredirs txt fuel rs) p (fun rs' p' => (p <= p' <= len)%nat /\ Forall redir_ok rs').
Proof.
  induction fuel as [|fuel IH]; intros rs p Hf Hp Hrs; [lia|]. cbn [parseredirs].
  eapply ends_bind; [by apply peek_ends|]. intros more s [Hs Hmore]. destruct more; [|split; [lia|done]]. specialize (Hmore eq_refl).
  then_token. intros [[tok q0] e0] s1 (Hs1 & Hlt & _). specialize (Hlt Hmore).
  then_token. intros [[a q] e] s2 (Hs2 & _ & _ & Hw). apply ends_panic_if. intros Ha%negb_false_iff%Z.eqb_eq.
  eapply ends_mono; [apply IH; try lia|intros rs' p' [H1 H2]; split; [lia|done]].
  repeat case_match; try done; (apply Forall_app_2; [done|]); apply Forall_singleton; (split; [by apply Hw|auto]).
Qed.

Lemma parseargs_ends fuel : forall argv rs p, (len - p < fuel)%nat -> (p <= len)%nat ->
  Forall redir_ok rs -> Forall word_ok argv -> (length argv < MAXARGS)%nat ->
  ends (parseargs txt fuel argv rs) p (fun '(argv', rs') p' => (p <= p' <= len)%nat /\ Forall word_ok argv' /\ (length argv' < MAXARGS)%nat /\ Forall redir_ok rs').
Proof.
  induction fuel as [|fuel IH]; intros argv rs p Hf Hp Hrs Hargv Hmax; [lia|]. cbn [parseargs].
  eapply ends_bind; [by apply peek_ends|]. intros stop s [Hs _]. destruct stop; [by split_and!; lia || done|].
  then_token. intros [[tok q] e] s1 (Hs1 & Hlt & Hz & Hw).
  destruct (Z.eqb_spec tok 0) as [->|Ht]; [by split_and!; lia || done|].
  specialize (Hlt (Hz Ht)).
  apply ends_panic_if. intros Ha%negb_false_iff%Z.eqb_eq. apply ends_panic_if. intros Hm%Nat.leb_gt.
  eapply ends_bind; [apply parseredirs_ends; [lia|lia|done]|]. intros rs' s2 [Hs2 Hrs'].
  eapply ends_mono; [apply IH; try lia; try done; (apply Forall_app_2; [done|]); apply Forall_singleton; by apply Hw|].
  intros [argv' rs''] p' (H1 & H2 & H3 & H4). split_and!; lia || done.
Qed.

Lemma parseback_ends fuel : forall c p, (len - p < fuel)%nat -> (p <= len)%nat -> cmd_ok c ->
  ends (parseback txt fuel c) p (fun c' p' => (p <= p' <= len)%nat /\ cmd_ok c').
Proof.
  induction fuel as [|fuel IH]; intros c p Hf Hp Hc; [lia|]. cbn [parseback].
  eapply ends_bind; [by apply peek_ends|]. intros more s [Hs Hmore]. destruct more; [|split; [lia|done]]. specialize (Hmore eq_refl).
  then_token. intros [[tok q0] e0] s1 (Hs1 & Hlt & _). specialize (Hlt Hmore).
  eapply ends_mono; [apply IH; try lia; exact Hc|]. intros c' p' [H1 H2]. split; [lia|done].
Qed.

Lemma redirected_ok rs : forall c, cmd_ok c -> Forall redir_ok rs -> cmd_ok (redirected c rs).
Proof. induction rs as [|r rs IH]; intros c Hc Hrs; [done|]. apply Forall_cons in Hrs as [Hr Hrs]. by apply IH. Qed.

Definition parses (m : M nat cmd) (p : nat) : Prop := ends m p (fun c p' => (p <= p' <= len)%nat /\ cmd_ok c).

(** A second command after a separator. *)
Lemma parses_more toks (again : M nat cmd) (both : cmd -> cmd -> cmd) c p0 p :
  (p0 <= p <= len)%nat -> cmd_ok c -> (forall a b, cmd_ok a -> cmd_ok b -> cmd_ok (both a b)) ->
  (forall p', (p < p' <= len)%nat -> parses again p') ->
  ends (more ← peek txt toks; if more : bool then gettoken txt;; r ← again; ret (both c r) else ret c) p
    (fun c' p' => (p0 <= p' <= len)%nat /\ cmd_ok c').
Proof.
  intros Hp Hc Hboth Hagain. eapply ends_bind; [apply peek_ends; lia|]. intros more s [Hs Hmore].
  destruct more; [|split; [lia|done]]. specialize (Hmore eq_refl).
  then_token. intros [[tok q0] e0] s1 (Hs1 & Hlt & _). specialize (Hlt Hmore).
  eapply ends_bind; [apply Hagain; lia|]. intros r s2 [Hs2 Hr]. split; [lia|auto].
Qed.

Lemma parse_ends fuel : forall p, (p <= len)%nat ->
  ((4 * (len - p) + 4 <= fuel)%nat -> parses (parseline txt fuel) p) /\
  ((4 * (len - p) + 3 <= fuel)%nat -> parses (parsepipe txt fuel) p) /\
  ((4 * (len - p) + 2 <= fuel)%nat -> parses (parseexec txt fuel) p) /\
  ((4 * (len - p) + 1 <= fuel)%nat -> parses (parseblock txt fuel) p).
Proof.
  induction fuel as [|fuel IH]; intros p Hp; [lia|]. split_and!; intros Hf; unfold parses; cbn [parseline parsepipe parseexec parseblock].
  - eapply ends_bind; [apply IH; lia|]. intros c s [Hs Hc].
    eapply ends_bind; [apply parseback_ends; lia || done|]. intros c' s1 [Hs1 Hc'].
    apply parses_more; try done; try lia. intros p' Hp'. apply IH; lia.
  - eapply ends_bind; [apply IH; lia|]. intros c s [Hs Hc].
    apply parses_more; try done; try lia. intros p' Hp'. apply IH; lia.
  - eapply ends_bind; [by apply peek_ends|]. intros paren s [Hs _]. destruct paren.
    { eapply ends_mono; [apply IH; lia|]. intros c p' [H1 H2]. split; [lia|done]. }
    eapply ends_bind; [apply parseredirs_ends; [lia|lia|constructor]|]. intros rs s1 [Hs1 Hrs].
    eapply ends_bind; [apply parseargs_ends; try done; unfold MAXARGS; simpl; lia|]. intros [argv rs'] s2 (Hs2 & H1 & H2 & H3).
    split; [lia|]. by apply redirected_ok.
  - eapply ends_bind; [by apply peek_ends|]. intros opened s [Hs Hmore]. apply ends_panic_if. intros ->%negb_false_iff. specialize (Hmore eq_refl).
    then_token. intros [[tok q0] e0] s1 (Hs1 & Hlt & _). specialize (Hlt Hmore).
    eapply ends_bind; [apply IH; lia|]. intros c s2 [Hs2 Hc].
    eapply ends_bind; [apply peek_ends; lia|]. intros closed s3 [Hs3 _]. apply ends_panic_if. intros _.
    then_token. intros [[tok1 q1] e1] s4 (Hs4 & _).
    eapply ends_bind; [apply parseredirs_ends; [lia|lia|constructor]|]. intros rs s5 [Hs5 Hrs]. split; [lia|]. by apply redirected_ok.
Qed.

Lemma parsecmd_ends : ends (parsecmd txt) 0%nat (fun '(c, buf) _ => cmd_ok c /\ buf = nulterminate c (txt ++ [0])).
Proof.
  unfold parsecmd. eapply ends_bind; [apply parse_ends; unfold parse_fuel; lia|]. intros c s [Hs Hc].
  eapply ends_bind; [apply peek_ends; lia|]. intros _ s1 [Hs1 _]. eapply ends_bind; [exact (eq_refl : (fun a s' => a = s') s1 s1)|].
  intros s2 s3 <-. apply ends_panic_if. intros _. done.
Qed.

(** ** nulterminate *)

Fixpoint words (c : cmd) : list word :=
  match c with
  | EXEC argv => argv
  | REDIR c r => words c ++ [file r]
  | PIPE l r | LIST l r => words l ++ words r
  | BACK c => words c
  end.

Lemma cmd_ok_words c : cmd_ok c -> Forall word_ok (words c).
Proof.
  induction c as [argv|c IH r|l IHl r IHr|l IHl r IHr|c IH]; cbn [cmd_ok words]; intros H; [tauto| | |by apply Forall_app_2; tauto|tauto].
  - apply Forall_app_2; [tauto|]. apply Forall_singleton. tauto.
  - by apply Forall_app_2; tauto.
Qed.

Lemma nulterminate_words c : forall buf, nulterminate c buf = fold_left (fun buf w => <[w.2 := 0]> buf) (words c) buf.
Proof.
  induction c as [argv|c IH r|l IHl r IHr|l IHl r IHr|c IH]; intros buf; cbn [nulterminate words]; [done| | | |apply IH].
  - by rewrite fold_left_app, IH.
  - by rewrite fold_left_app, IHl, IHr.
  - by rewrite fold_left_app, IHl, IHr.
Qed.

Lemma zeroed_lookup ws : forall buf i, (i < length buf)%nat ->
  fold_left (fun buf w => <[w.2 := 0]> buf) ws buf !! i = (if decide (i ∈ map (snd : word -> nat) ws) then Some 0 else buf !! i).
Proof.
  induction ws as [|w ws IH]; intros buf i Hi; cbn [fold_left map]; [by rewrite decide_False by apply not_elem_of_nil|].
  rewrite IH by (by rewrite length_insert). destruct (decide (i = w.2)) as [->|Hne].
  - rewrite (decide_True (P := w.2 ∈ w.2 :: _)) by left. destruct (decide _); [done|]. by rewrite list_lookup_insert_eq.
  - rewrite list_lookup_insert_ne by done. destruct (decide (i ∈ map (snd : word -> nat) ws)) as [H|H].
    + rewrite decide_True by (by right). done.
    + rewrite decide_False; [done|]. by apply not_elem_of_cons.
Qed.

Lemma span_nonzero (buf : list Z) s : forall a, (forall i c, s !! i = Some c -> buf !! (a + i)%nat = Some c /\ c <> 0) -> buf !! (a + length s)%nat = Some 0 ->
  read_string buf a = s.
Proof.
  unfold read_string. induction s as [|c s IH]; intros a Hs Hz; cbn [length] in *.
  - rewrite Nat.add_0_r in Hz. by rewrite (drop_S buf 0 a Hz).
  - destruct (Hs O c eq_refl) as [Hc Hnz]. rewrite Nat.add_0_r in Hc. rewrite (drop_S buf c a Hc). cbn [span].
    replace (negb (c =? 0)) with true by lia. cbn [take]. f_equal. apply (IH (S a)).
    + intros i d Hi. replace (S a + i)%nat with (a + S i)%nat by lia. by apply Hs.
    + by replace (S a + length s)%nat with (a + S (length s))%nat by lia.
Qed.

Lemma read_word c w : 0 ∉ txt -> Forall word_ok (words c) -> w ∈ words c -> read_string (nulterminate c (txt ++ [0])) w.1 = slice txt w.
Proof.
  intros H0 Hok Hw. rewrite nulterminate_words. rewrite Forall_forall in Hok. destruct (Hok w Hw) as (Hlt & Hin & _).
  apply span_nonzero.
  - intros i d Hi. assert (Hin_d : in_word d = true) by (rewrite Forall_forall in Hin; by apply Hin; eapply list_elem_of_lookup_2).
    unfold slice in Hi. apply lookup_take_Some in Hi as [Hi Hiw]. rewrite lookup_drop in Hi.
    assert (Hd0 : d <> 0) by (intros ->; apply H0; by eapply list_elem_of_lookup_2).
    split; [|done]. pose proof (lookup_lt_Some _ _ _ Hi).
    rewrite zeroed_lookup by (rewrite length_app; simpl; lia). rewrite decide_False; [by rewrite lookup_app_l|].
    intros (w' & Ew & Hw')%list_elem_of_fmap. destruct (Hok w' Hw') as (_ & _ & [E|E]); [lia|].
    unfold char_at in E. rewrite <- Ew in E. rewrite (nth_lookup_Some _ _ _ _ Hi) in E. congruence.
  - assert (El : (w.1 + length (slice txt w))%nat = w.2) by (unfold slice; rewrite length_take, length_drop; lia).
    rewrite El, zeroed_lookup by (rewrite length_app; simpl; lia).
    rewrite decide_True; [done|]. apply list_elem_of_fmap. by exists w.
Qed.

Lemma meaning_ext (f g : word -> list Z) c : (forall w, w ∈ words c -> f w = g w) -> meaning f c = meaning g c.
Proof.
  induction c as [argv|c IH r|l IHl r IHr|l IHl r IHr|c IH]; cbn [meaning words]; intros H.
  - f_equal. apply map_ext_in. intros w Hw. apply H. by apply list_elem_of_In.
  - rewrite IH, (H (file r)); [done|set_solver|set_solver].
  - rewrite IHl, IHr; [done|set_solver|set_solver].
  - rewrite IHl, IHr; [done|set_solver|set_solver].
  - by rewrite IH.
Qed.
End Words.

(** C31: on every line the parser ends: it returns a command or panics with a message. When it
    returns, each argument list is shorter than MAXARGS, and after nulterminate every pointer
    of the command reads exactly the word it was found at: the zeros written at the ends of
    words spoil no other word. *)
Theorem parsecmd_words txt : 0 ∉ txt ->
  match parsecmd txt 0%nat with
  | Ret (c, buf) _ => cmd_ok txt c /\ meaning (fun w => read_string buf w.1) c = meaning (slice txt) c
  | Panic _ => True
  | _ => False
  end.
Proof.
  intros H0. pose proof (parsecmd_ends txt) as H. unfold ends in H. destruct (parsecmd txt 0%nat) as [[c buf] p| | |]; try done.
  destruct H as [Hc ->]. split; [done|]. apply meaning_ext. intros w Hw. apply read_word; try done. by apply cmd_ok_words.
Qed.
