(* ===== verification/ShPrint.v ===== *)
(** * ShPrint: every command can be written so that the shell reads it back (offline_4/xv6/sh.c)

    A reference printer for commands, with parentheses where the grammar needs them, and the
    proof that parsecmd inverts it. *)

From S2P Require Import Prelude Fcntl Printf Sh.

(** Words and the one-character tokens, each followed by a space. *)
Inductive token : Type := Word (s : list Z) | Sign (c : Z).
Definition text (t : token) : list Z := match t with Word s => s | Sign c => [c] end.
Definition render (ts : list token) : list Z := concat (map (fun t => text t ++ [32]) ts).

Definition redir_sign (mode : Z) : Z := if mode =? O_RDONLY then lt_sign else gt_sign.
Definition paren (b : bool) (ts : list token) : list token := if b then Sign open_paren :: ts ++ [Sign close_paren] else ts.

(** Level 0 is what parseexec reads, 1 parsepipe, 2 what parseline reads before ';', 3
    parseline. *)
Fixpoint tokens (level : nat) (c : command) : list token :=
  match c with
  | Simple args => map Word args
  | Redirect c f mode _ => tokens 0 c ++ [Sign (redir_sign mode); Word f]
  | Pipe l r => paren (level <? 1)%nat (tokens 0 l ++ [Sign bar] ++ tokens 1 r)
  | Background c => paren (level <? 2)%nat (tokens 2 c ++ [Sign ampersand])
  | Sequence l r => paren (level <? 3)%nat (tokens 2 l ++ [Sign semicolon] ++ tokens 3 r)
  end.
Definition print (c : command) : list Z := render (tokens 3 c).

(** A word is not empty and has no space or sign in it; an argument list fits argv; a
    redirection is what the signs stand for. *)
Definition word_good (s : list Z) : Prop := s <> [] /\ Forall (fun c => in_word c = true /\ c <> 0) s.
Fixpoint good (c : command) : Prop :=
  match c with
  | Simple args => Forall word_good args /\ (length args < MAXARGS)%nat
  | Redirect c f mode fd => good c /\ word_good f /\ ((mode = O_RDONLY /\ fd = 0) \/ (mode = Z.lor O_WRONLY O_CREATE /\ fd = 1))
  | Pipe l r | Sequence l r => good l /\ good r
  | Background c => good c
  end.

Definition signs : list Z := [bar; close_paren; open_paren; ampersand; semicolon; lt_sign; gt_sign].
Definition token_good (t : token) : Prop := match t with Word s => word_good s | Sign c => c ∈ signs end.
Definition kind (t : token) : Z := match t with Word _ => letter_a | Sign c => c end.
Definition head_in (toks : list Z) (ts : list token) : bool :=
  match ts with Sign c :: _ => among toks c | _ => false end.

Section Reading.
Context (txt : list Z).
Abbreviation len := (length txt).

(** The cursor stands at the tokens [ts], the last on the line. *)
Definition stands (ts : list token) (p : nat) : Prop := (p <= len)%nat /\ drop p txt = render ts /\ Forall token_good ts.

Lemma stands_len ts p : stands ts p -> (len - p)%nat = length (render ts).
Proof. intros (Hp & Hd & _). by rewrite <- Hd, length_drop. Qed.

Lemma render_cons t ts : render (t :: ts) = text t ++ 32 :: render ts.
Proof. unfold render. simpl. by rewrite <- app_assoc. Qed.

(** The first character of a token. *)
Lemma token_start t : token_good t -> exists c l, text t = c :: l /\ c <> 0 /\ among whitespace c = false /\
  (match t with Word _ => in_word c = true | Sign s => c = s /\ l = [] end).
Proof.
  destruct t as [[|c s]|c]; simpl; intros H.
  - by destruct H.
  - destruct H as [_ [[Hi Hn] _]%Forall_cons]. exists c, s. split_and!; try done. unfold in_word in Hi.
    by apply andb_true_iff in Hi as [Hi%negb_true_iff _].
  - exists c, []. split_and!; try done; unfold signs in H; rewrite !elem_of_cons in H; destruct_or!; subst; try done; by apply elem_of_nil in H.
Qed.

Lemma char_at_drop p c l : drop p txt = c :: l -> char_at txt p = c.
Proof. intros E. unfold char_at. replace p with (p + 0)%nat by lia. by rewrite <- nth_drop, E. Qed.

Lemma stands_skip ts p : stands ts p -> skip_spaces txt p = p.
Proof.
  intros (Hp & Hd & Hg). unfold skip_spaces. rewrite Hd. destruct ts as [|t ts]; [simpl; lia|].
  apply Forall_cons in Hg as [Ht _]. destruct (token_start t Ht) as (c & l & Et & _ & Hw & _).
  rewrite render_cons, Et. cbn [app span]. rewrite Hw. lia.
Qed.

Lemma stands_char ts p : stands ts p -> char_at txt p = match ts with [] => 0 | t :: _ => nth 0 (text t) 0 end.
Proof.
  intros (Hp & Hd & Hg). destruct ts as [|t ts].
  - unfold char_at. apply nth_overflow. apply (f_equal length) in Hd. rewrite length_drop in Hd. simpl in Hd. lia.
  - apply Forall_cons in Hg as [Ht _]. destruct (token_start t Ht) as (c & l & Et & _).
    rewrite render_cons, Et in Hd. rewrite Et. by apply (char_at_drop p c (l ++ 32 :: render ts)).
Qed.

(** Over the space after a token. *)
Lemma stands_next t ts p : stands (t :: ts) p -> stands ts (p + length (text t) + 1)%nat /\ skip_spaces txt (p + length (text t)) = (p + length (text t) + 1)%nat.
Proof.
  intros (Hp & Hd & Hg). apply Forall_cons in Hg as [_ Hg].
  assert (E1 : drop (p + length (text t)) txt = 32 :: render ts).
  { rewrite <- drop_drop, Hd, render_cons, drop_app_length. done. }
  assert (E2 : drop (p + length (text t) + 1) txt = render ts) by (by rewrite <- drop_drop, E1).
  assert (H : stands ts (p + length (text t) + 1)).
  { split_and!; try done. apply (f_equal length) in E1. rewrite length_drop in E1. simpl in E1. lia. }
  split; [done|]. pose proof (stands_skip _ _ H) as Hs. unfold skip_spaces in *. rewrite E1. rewrite E2 in Hs.
  cbn [span]. change (among whitespace 32) with true. cbn iota. lia.
Qed.

Lemma span_app (f : Z -> bool) s l : Forall (fun c => f c = true) s -> f (nth 0 l 0) = false -> l <> [] -> span f (s ++ l) = length s.
Proof.
  intros Hs Hl Hn. induction Hs as [|c s Hc Hs IH]; cbn [app span length].
  - destruct l as [|c l]; [done|]. cbn [span nth] in *. by rewrite Hl.
  - by rewrite Hc, IH.
Qed.

Lemma gettoken_run t ts p : stands (t :: ts) p -> exists p',
  gettoken txt p = Ret (kind t, p, (p + length (text t))%nat) p' /\ stands ts p' /\ (p < p' <= len)%nat /\
  slice txt (p, (p + length (text t))%nat) = text t.
Proof.
  intros H. destruct (stands_next t ts p H) as [Hn Hs]. exists (p + length (text t) + 1)%nat.
  pose proof (stands_skip _ _ H) as Hskip. pose proof (stands_char _ _ H) as Hc. pose proof H as (Hp & Hd & Hg).
  apply Forall_cons in Hg as [Ht _]. destruct (token_start t Ht) as (c & l & Et & Hc0 & Hw & Hk).
  split_and!; [|done|lia|apply Hn|].
  2:{ unfold slice. cbn [fst snd]. rewrite Hd, render_cons. replace (p + length (text t) - p)%nat with (length (text t)) by lia. apply take_app_length. }
  unfold gettoken. rewrite Hskip, Hc, Et. cbn [nth].
  replace (c =? 0) with false by lia. destruct t as [s|c']; cbn [text kind] in *.
  - assert (among [bar; open_paren; close_paren; semicolon; ampersand; lt_sign] c = false /\ (c =? gt_sign) = false) as [-> ->].
    { unfold in_word in Hk. change symbols with [60; 124; 62; 38; 59; 40; 41] in Hk. revert Hk.
      unfold among, bar, open_paren, close_paren, semicolon, ampersand, lt_sign, gt_sign. cbn [existsb]. lia. }
    rewrite Hd, render_cons. cbn [text]. destruct Ht as [_ Hf].
    rewrite span_app; [|eapply Forall_impl; [exact Hf|naive_solver]|done|done].
    rewrite Et in Hs |- *. by rewrite Hs.
  - destruct Hk as [-> ->]. cbn [length] in *.
    assert (Hnext : char_at txt (S p) = 32).
    { apply (char_at_drop _ _ (render ts)). replace (S p) with (p + 1)%nat by lia. rewrite <- drop_drop, Hd, render_cons. done. }
    rewrite Hnext. replace (S p) with (p + 1)%nat by lia.
    unfold token_good, signs in Ht. rewrite !elem_of_cons in Ht.
    destruct_or! Ht; try by apply elem_of_nil in Ht.
    all: subst; cbn -[skip_spaces Nat.add]; by rewrite Hs.
Qed.

Lemma gettoken_end p : stands [] p -> gettoken txt p = Ret (0, p, p) p.
Proof.
  intros H. unfold gettoken. rewrite (stands_skip _ _ H), (stands_char _ _ H). cbn. by rewrite (stands_skip _ _ H).
Qed.

Lemma peek_run toks ts p : (forall c, among toks c = true -> among symbols c = true) -> stands ts p -> peek txt toks p = Ret (head_in toks ts) p.
Proof.
  intros Hsym H. unfold peek. rewrite (stands_skip _ _ H), (stands_char _ _ H). f_equal. destruct H as (_ & _ & Hg).
  destruct ts as [|t ts]; [done|]. apply Forall_cons in Hg as [Ht _]. destruct (token_start t Ht) as (c & l & -> & Hc0 & _ & Hk).
  cbn [nth]. replace (c =? 0) with false by lia. destruct t as [s|c']; cbn [head_in negb andb].
  - destruct (among toks c) eqn:E; [|done]. apply Hsym in E. unfold in_word in Hk. rewrite E in Hk. by rewrite andb_false_r in Hk.
  - by destruct Hk as [-> _].
Qed.
(** ** Redirections *)

Definition sredir : Type := list Z * Z * Z.
Definition sredir_good (r : sredir) : Prop :=
  word_good r.1.1 /\ ((r.1.2 = O_RDONLY /\ r.2 = 0) \/ (r.1.2 = Z.lor O_WRONLY O_CREATE /\ r.2 = 1)).
Definition redir_tokens (rs : list sredir) : list token := concat (map (fun r : sredir => [Sign (redir_sign r.1.2); Word r.1.1]) rs).
Definition show (r : redir) : sredir := (slice txt (file r), mode r, fd r).
Definition apply_redirs (c : command) (rs : list sredir) : command := fold_left (fun c (r : sredir) => Redirect c r.1.1 r.1.2 r.2) rs c.

Lemma meaning_redirected rs : forall c, meaning (slice txt) (redirected c rs) = apply_redirs (meaning (slice txt) c) (map show rs).
Proof. induction rs as [|r rs IH]; intros c; [done|]. apply (IH (REDIR c r)). Qed.

Ltac peek_at H toks := rewrite (peek_run toks _ _ ltac:(intros z; change symbols with [60; 124; 62; 38; 59; 40; 41];
  unfold among, bar, open_paren, close_paren, semicolon, ampersand, lt_sign, gt_sign; cbn [existsb]; lia) H).
Ltac step toks H := rewrite (bind_ret _ _ _ _ _ (peek_run toks _ _ ltac:(intros z; change symbols with [60; 124; 62; 38; 59; 40; 41];
  unfold among, bar, open_paren, close_paren, semicolon, ampersand, lt_sign, gt_sign; cbn [existsb]; lia) H)).

Lemma parseredirs_run srs : forall fuel rs rest p, (len - p < fuel)%nat -> Forall sredir_good srs ->
  stands (redir_tokens srs ++ rest) p -> head_in [lt_sign; gt_sign] rest = false ->
  exists rs' p', parseredirs txt fuel rs p = Ret (rs ++ rs') p' /\ stands rest p' /\ (p <= p')%nat /\ map show rs' = srs.
Proof.
  induction srs as [|[[f m] d] srs IH]; intros [|fuel] rs rest p Hf Hg H Hrest; try lia; cbn [parseredirs].
  - step [lt_sign; gt_sign] H. change (head_in _ (redir_tokens [] ++ rest)) with (head_in [lt_sign; gt_sign] rest). rewrite Hrest.
    exists [], p. rewrite app_nil_r. split_and!; [done|done|lia|done].
  - apply Forall_cons in Hg as [[Hw Hm] Hg]. step [lt_sign; gt_sign] H.
    replace (head_in _ _) with true; [|destruct Hm as [[Hm _]|[Hm _]]; cbn in Hm; subst m; reflexivity].
    destruct (gettoken_run _ _ _ H) as (p1 & E1 & H1 & Hp1 & _). rewrite (bind_ret _ _ _ _ _ E1).
    destruct (gettoken_run _ _ _ H1) as (p2 & E2 & H2 & Hp2 & Hs). rewrite (bind_ret _ _ _ _ _ E2). cbn [kind text fst snd] in *.
    rewrite (bind_ret _ _ _ _ _ (eq_refl : panic_if (negb (letter_a =? letter_a)) _ p2 = Ret tt p2)).
    destruct (IH fuel (rs ++ [mkRedir (p1, (p1 + length f)%nat) m d]) rest p2) as (rs' & p' & E & Hst & Hle & Hshow); [lia|done|done|done|].
    exists (mkRedir (p1, (p1 + length f)%nat) m d :: rs'), p'. split_and!; [|done|lia|by rewrite <- Hshow; cbn [map]; unfold show; cbn [file mode fd]; rewrite Hs].
    rewrite <- app_assoc in E. cbn [app] in E. rewrite <- E. destruct Hm as [[Hm Hd]|[Hm Hd]]; cbn in Hm, Hd; subst m d; reflexivity.
Qed.

(** ** A simple command *)

Definition follows (toks : list Z) (rest : list token) : Prop := rest = [] \/ exists c rest', rest = Sign c :: rest' /\ c ∈ toks.
(** What can come after a command of each level. *)
Definition ends0 : list Z := [bar; close_paren; ampersand; semicolon].
Definition ends1 : list Z := [close_paren; ampersand; semicolon].
Definition ends2 : list Z := [close_paren; semicolon].
Definition ends3 : list Z := [close_paren].

Lemma follows_head toks no rest : follows toks rest -> (forall c, c ∈ toks -> among no c = false) -> head_in no rest = false.
Proof. intros [->|(c & rest' & -> & Hc)] H; [done|]. by apply H. Qed.
Lemma follows_mono toks toks' rest : follows toks rest -> (forall c, c ∈ toks -> c ∈ toks') -> follows toks' rest.
Proof. intros [->|(c & rest' & -> & Hc)] H; [by left|]. right. eauto. Qed.
Ltac by_follow := intros ?c; cbv delta [ends0 ends1 ends2 ends3] beta; rewrite !elem_of_cons, elem_of_nil; intros; destruct_or!; subst; first [done | naive_solver].

Lemma parseargs_end fuel argv rs rest p : (0 < fuel)%nat -> stands rest p -> follows ends0 rest ->
  parseargs txt fuel argv rs p = Ret (argv, rs) p.
Proof.
  intros Hf H Hrest. destruct fuel as [|fuel]; [lia|]. cbn [parseargs]. step [bar; close_paren; ampersand; semicolon] H.
  destruct Hrest as [->|(c & rest' & -> & Hc)].
  - cbn [head_in]. cbn iota. rewrite (bind_ret _ _ _ _ _ (gettoken_end p H)). done.
  - replace (head_in _ _) with true; [done|]. unfold ends0 in Hc. rewrite !elem_of_cons in Hc.
    destruct_or! Hc; try (by apply elem_of_nil in Hc); subst; done.
Qed.

Lemma parseargs_run args : forall fuel argv srs rest p, args <> [] -> (len - p < fuel)%nat -> Forall word_good args -> Forall sredir_good srs ->
  stands (map Word args ++ redir_tokens srs ++ rest) p -> follows ends0 rest -> (length argv + length args < MAXARGS)%nat ->
  exists ws rs p', parseargs txt fuel argv [] p = Ret (argv ++ ws, rs) p' /\ stands rest p' /\ (p <= p')%nat /\
    map (slice txt) ws = args /\ map show rs = srs.
Proof.
  induction args as [|a args IH]; intros fuel argv srs rest p Hne Hf Hg Hgr H Hrest Hmax; [done|]. clear Hne.
  destruct fuel as [|fuel]; [lia|]. cbn [parseargs]. apply Forall_cons in Hg as [Ha Hg]. cbn [map app length] in *.
  step [bar; close_paren; ampersand; semicolon] H. cbn [head_in]. cbn iota.
  destruct (gettoken_run _ _ _ H) as (p1 & E1 & H1 & Hp1 & Hs). rewrite (bind_ret _ _ _ _ _ E1). cbn [kind text] in *.
  change (letter_a =? 0) with false. cbn iota.
  rewrite (bind_ret _ _ _ _ _ (eq_refl : panic_if (negb (letter_a =? letter_a)) _ p1 = Ret tt p1)).
  rewrite (bind_ret (panic_if _ _) _ p1 tt p1); [|rewrite length_app; cbn [length]; destruct (Nat.leb_spec MAXARGS (length argv + 1)); [lia|done]].
  clear E1. set (w := (p, (p + length a)%nat)) in *. clearbody w.
  destruct args as [|a' args].
  - destruct (parseredirs_run srs (S len) [] rest p1) as (rs & p2 & E2 & H2 & Hp2 & Hr); [lia|done|done|by apply (follows_head ends0); [|by_follow]|].
    rewrite (bind_ret _ _ _ _ _ E2). rewrite (parseargs_end fuel _ _ rest p2) by (done || lia).
    exists [w], rs, p2. split_and!; try done; [lia|]. by rewrite <- Hs.
  - destruct (parseredirs_run [] (S len) [] (map Word (a' :: args) ++ redir_tokens srs ++ rest) p1) as (rs & p2 & E2 & H2 & Hp2 & Hr); [lia|constructor|done|done|].
    apply map_eq_nil in Hr. subst rs. cbn [app] in E2. rewrite (bind_ret _ _ _ _ _ E2).
    destruct (IH fuel (argv ++ [w]) srs rest p2) as (ws & rs & p' & E & Hst & Hle & Hws & Hrs); try done; [lia|rewrite length_app; cbn [length] in *; lia|].
    exists (w :: ws), rs, p'. rewrite <- app_assoc in E. split_and!; try done; [lia|]. cbn [map]. rewrite Hws. by rewrite <- Hs.
Qed.
(** ** Commands *)

(** [m] reads [c] from the tokens before [rest]. *)
Definition runs (m : M nat cmd) (p : nat) (rest : list token) (c : command) : Prop :=
  exists t p', m p = Ret t p' /\ stands rest p' /\ (p <= p')%nat /\ meaning (slice txt) t = c.

Definition reads_line (c : command) : Prop := forall fuel rest p, (4 * (len - p) + 4 <= fuel)%nat ->
  stands (tokens 3 c ++ rest) p -> follows ends3 rest -> runs (parseline txt fuel) p rest c.
Definition reads_pipe (c : command) : Prop := forall fuel rest p, (4 * (len - p) + 3 <= fuel)%nat ->
  stands (tokens 1 c ++ rest) p -> follows ends1 rest -> runs (parsepipe txt fuel) p rest c.
Definition reads_exec (c : command) : Prop := forall fuel rest p, (4 * (len - p) + 2 <= fuel)%nat ->
  stands (tokens 0 c ++ rest) p -> follows ends0 rest -> runs (parseexec txt fuel) p rest c.

Lemma tokens_apply srs : forall c, tokens 0 (apply_redirs c srs) = tokens 0 c ++ redir_tokens srs.
Proof.
  induction srs as [|[[f m] d] srs IH]; intros c; [by rewrite app_nil_r|]. unfold apply_redirs in *. cbn [fold_left fst snd].
  rewrite IH. cbn [tokens]. by rewrite <- app_assoc.
Qed.

Lemma simple_run args srs : Forall word_good args -> (length args < MAXARGS)%nat -> Forall sredir_good srs -> reads_exec (apply_redirs (Simple args) srs).
Proof.
  intros Ha Hn Hs [|fuel] rest p Hf H Hrest; [lia|]. unfold runs. cbn [parseexec]. rewrite tokens_apply, <- app_assoc in H. cbn [tokens] in H.
  assert (Hno : head_in [open_paren] (map Word args ++ redir_tokens srs ++ rest) = false).
  { destruct args; [|done]. destruct srs as [|[[f m] d] srs]; [by apply (follows_head ends0); [|by_follow]|].
    apply Forall_cons in Hs as [[_ [[Hm _]|[Hm _]]] _]; cbn in Hm; subst m; done. }
  step [open_paren] H. rewrite Hno. cbn iota. destruct args as [|a args].
  - destruct (parseredirs_run srs (S len) [] rest p) as (rs & p1 & E & H1 & Hp1 & Hr); [lia|done|done|by apply (follows_head ends0); [|by_follow]|].
    rewrite (bind_ret _ _ _ _ _ E). rewrite (bind_ret _ _ _ _ _ (parseargs_end (S len) [] _ rest p1 ltac:(lia) H1 Hrest)).
    eexists _, p1. split_and!; [done|done|done|]. rewrite meaning_redirected. cbn [meaning map app with_args execcmd]. by rewrite Hr.
  - destruct (parseredirs_run [] (S len) [] (map Word (a :: args) ++ redir_tokens srs ++ rest) p) as (rs & p1 & E & H1 & Hp1 & Hr); [lia|constructor|done|done|].
    apply map_eq_nil in Hr. subst rs. rewrite (bind_ret _ _ _ _ _ E).
    destruct (parseargs_run (a :: args) (S len) [] srs rest p1) as (ws & rs & p2 & E2 & H2 & Hp2 & Hws & Hrs); try done; [lia|].
    rewrite (bind_ret _ _ _ _ _ E2). eexists _, p2. split_and!; [done|done|lia|]. rewrite meaning_redirected. cbn [meaning app with_args execcmd]. by rewrite Hws, Hrs.
Qed.

Lemma paren_run c srs : reads_line c -> tokens 0 c = Sign open_paren :: tokens 3 c ++ [Sign close_paren] -> Forall sredir_good srs ->
  reads_exec (apply_redirs c srs).
Proof.
  intros Hc Ht Hs [|[|fuel]] rest p Hf H Hrest; try lia. unfold runs. cbn [parseexec parseblock].
  rewrite tokens_apply, Ht in H. cbn [app] in H. rewrite <- !app_assoc in H. cbn [app] in H.
  step [open_paren] H. cbn [head_in]. change (among [open_paren] open_paren) with true. cbn iota.
  step [open_paren] H. cbn [head_in]. change (among [open_paren] open_paren) with true.
  rewrite (bind_ret _ _ _ _ _ (eq_refl : panic_if (negb true) _ p = Ret tt p)).
  destruct (gettoken_run _ _ _ H) as (p1 & E1 & H1 & Hp1 & _). rewrite (bind_ret _ _ _ _ _ E1).
  destruct (Hc fuel (Sign close_paren :: redir_tokens srs ++ rest) p1) as (t & p2 & E2 & H2 & Hp2 & Hm);
    [lia|done|right; eexists _, _; split; [done|by left]|].
  rewrite (bind_ret _ _ _ _ _ E2). step [close_paren] H2. cbn [head_in]. change (among [close_paren] close_paren) with true.
  rewrite (bind_ret _ _ _ _ _ (eq_refl : panic_if (negb true) _ p2 = Ret tt p2)).
  destruct (gettoken_run _ _ _ H2) as (p3 & E3 & H3 & Hp3 & _). rewrite (bind_ret _ _ _ _ _ E3).
  destruct (parseredirs_run srs (S len) [] rest p3) as (rs & p4 & E4 & H4 & Hp4 & Hr); [lia|done|done|by apply (follows_head ends0); [|by_follow]|].
  rewrite (bind_ret _ _ _ _ _ E4). eexists _, p4. split_and!; [done|done|lia|]. rewrite meaning_redirected, Hm. cbn [app]. by rewrite Hr.
Qed.

Lemma pipe_of_exec c : reads_exec c -> tokens 1 c = tokens 0 c -> reads_pipe c.
Proof.
  intros Hc Ht [|fuel] rest p Hf H Hrest; [lia|]. unfold runs. cbn [parsepipe]. rewrite Ht in H.
  destruct (Hc fuel rest p) as (t & p1 & E & H1 & Hp1 & Hm); [lia|done|by apply (follows_mono ends1); [|by_follow]|].
  rewrite (bind_ret _ _ _ _ _ E). step [bar] H1. rewrite (follows_head ends1) by (done || by_follow). by eexists t, p1.
Qed.

Lemma pipe_run l r : reads_exec l -> reads_pipe r -> reads_pipe (Pipe l r).
Proof.
  intros Hl Hr [|fuel] rest p Hf H Hrest; [lia|]. unfold runs. cbn [parsepipe tokens paren Nat.ltb Nat.leb] in *. rewrite <- !app_assoc in H. cbn [app] in H.
  destruct (Hl fuel (Sign bar :: tokens 1 r ++ rest) p) as (t & p1 & E & H1 & Hp1 & Hm); [lia|done|right; eexists _, _; split; [done|by left]|].
  rewrite (bind_ret _ _ _ _ _ E). step [bar] H1. cbn [head_in]. change (among [bar] bar) with true. cbn iota.
  destruct (gettoken_run _ _ _ H1) as (p2 & E2 & H2 & Hp2 & _). rewrite (bind_ret _ _ _ _ _ E2).
  destruct (Hr fuel rest p2) as (t2 & p3 & E3 & H3 & Hp3 & Hm3); [lia|done|done|].
  rewrite (bind_ret _ _ _ _ _ E3). eexists _, p3. split_and!; [done|done|lia|]. cbn [meaning pipecmd listcmd backcmd]. by rewrite Hm, Hm3.
Qed.

(** [n] times in the background. *)
Definition background (n : nat) (c : command) : command := Nat.iter n Background c.
Definition ampersands (n : nat) : list token := replicate n (Sign ampersand).

Lemma parseback_run n : forall fuel t c rest p, (len - p < fuel)%nat -> stands (ampersands n ++ rest) p -> follows ends2 rest ->
  meaning (slice txt) t = c -> runs (parseback txt fuel t) p rest (background n c).
Proof.
  induction n as [|n IH]; intros [|fuel] t c rest p Hf H Hrest Hm; try lia; unfold runs; cbn [parseback ampersands replicate app] in *; step [ampersand] H.
  - rewrite (follows_head ends2) by (done || by_follow). by eexists t, p.
  - cbn [head_in]. change (among [ampersand] ampersand) with true. cbn iota.
    destruct (gettoken_run _ _ _ H) as (p1 & E1 & H1 & Hp1 & _). rewrite (bind_ret _ _ _ _ _ E1).
    destruct (IH fuel (backcmd t) (Background c) rest p1) as (t2 & p2 & E2 & H2 & Hp2 & Hm2); [lia|done|done|cbn [meaning pipecmd listcmd backcmd]; by rewrite Hm|].
    eexists t2, p2. split_and!; [done|done|lia|]. rewrite Hm2. unfold background. by rewrite Nat.iter_succ_r.
Qed.

Lemma back_run n c fuel rest p : reads_pipe c -> (4 * (len - p) + 3 <= fuel)%nat -> stands (tokens 1 c ++ ampersands n ++ rest) p -> follows ends2 rest ->
  exists t p', (forall (k : cmd -> M nat cmd), (c ← parsepipe txt fuel; c ← parseback txt (S len) c; k c) p = k t p') /\ stands rest p' /\
    (p <= p')%nat /\ meaning (slice txt) t = background n c.
Proof.
  intros Hc Hf H Hrest. destruct (Hc fuel (ampersands n ++ rest) p) as (t & p1 & E & H1 & Hp1 & Hm); [done|done| |].
  { destruct n; [by apply (follows_mono ends2); [|by_follow]|]. right. eexists _, _. split; [done|]. right. by left. }
  destruct (parseback_run n (S len) t c rest p1) as (t2 & p2 & E2 & H2 & Hp2 & Hm2); [lia|done|done|done|].
  exists t2, p2. split_and!; [|done|lia|done]. intros k. rewrite (bind_ret _ _ _ _ _ E). by rewrite (bind_ret _ _ _ _ _ E2).
Qed.

Lemma line_run n c : reads_pipe c -> tokens 3 (background n c) = tokens 1 c ++ ampersands n -> reads_line (background n c).
Proof.
  intros Hc Ht [|fuel] rest p Hf H Hrest; [lia|]. unfold runs. cbn [parseline]. rewrite Ht, <- app_assoc in H.
  destruct (back_run n c fuel rest p) as (t & p1 & E & H1 & Hp1 & Hm); [done|lia|done|by apply (follows_mono ends3); [|by_follow]|].
  rewrite E. step [semicolon] H1. rewrite (follows_head ends3) by (done || by_follow). by eexists t, p1.
Qed.

Lemma sequence_run n c r : reads_pipe c -> tokens 2 (background n c) = tokens 1 c ++ ampersands n -> reads_line r ->
  reads_line (Sequence (background n c) r).
Proof.
  intros Hc Ht Hr [|fuel] rest p Hf H Hrest; [lia|]. unfold runs. cbn [parseline]. cbn [tokens paren Nat.ltb Nat.leb] in H. rewrite Ht, <- !app_assoc in H. cbn [app] in H.
  destruct (back_run n c fuel (Sign semicolon :: tokens 3 r ++ rest) p) as (t & p1 & E & H1 & Hp1 & Hm); [done|lia|done|right; eexists _, _; split; [done|right; by left]|].
  rewrite E. step [semicolon] H1. cbn [head_in]. change (among [semicolon] semicolon) with true. cbn iota.
  destruct (gettoken_run _ _ _ H1) as (p2 & E2 & H2 & Hp2 & _). rewrite (bind_ret _ _ _ _ _ E2).
  destruct (Hr fuel rest p2) as (t2 & p3 & E3 & H3 & Hp3 & Hm3); [lia|done|done|].
  rewrite (bind_ret _ _ _ _ _ E3). eexists _, p3. split_and!; [done|done|lia|]. cbn [meaning pipecmd listcmd backcmd]. by rewrite Hm, Hm3.
Qed.
(** ** Every command *)

Fixpoint size (c : command) : nat :=
  match c with
  | Simple _ => 1
  | Redirect c _ _ _ | Background c => S (size c)
  | Pipe l r | Sequence l r => S (size l + size r)
  end.

Lemma strip_background c : good c -> exists n c0, c = background n c0 /\ tokens 2 c = tokens 1 c0 ++ ampersands n /\ good c0 /\
  ((n = 0%nat /\ c0 = c) \/ (size c0 < size c)%nat) /\ (tokens 3 c0 = tokens 1 c0 \/ exists l r, c0 = Sequence l r).
Proof.
  induction c as [args|c IH f m d|l IHl r IHr|l IHl r IHr|c IH]; intros Hg.
  1-4: eexists 0%nat, _; split; [done|]; cbn [tokens paren Nat.ltb Nat.leb ampersands replicate]; rewrite app_nil_r; split_and!; eauto.
  destruct (IH Hg) as (n & c0 & -> & Ht & Hg0 & Hs & H3). exists (S n), c0. cbn [tokens paren Nat.ltb Nat.leb]. rewrite Ht, <- app_assoc.
  split_and!; try done; [by unfold ampersands; rewrite replicate_S_end|]. right. cbn [size]. destruct Hs as [[-> <-]|Hs]; [unfold background; simpl; lia|lia].
Qed.

Lemma strip_redirects c : good c -> exists c0 srs, c = apply_redirs c0 srs /\ Forall sredir_good srs /\ good c0 /\
  (size c0 <= size c)%nat /\ forall c' f m d, c0 <> Redirect c' f m d.
Proof.
  induction c as [args|c IH f m d|l IHl r IHr|l IHl r IHr|c IH]; intros Hg.
  2:{ destruct Hg as (Hg & Hf & Hm). destruct (IH Hg) as (c0 & srs & -> & Hs & Hg0 & Hle & Hno). exists c0, (srs ++ [(f, m, d)]).
      split_and!; try done; [unfold apply_redirs; by rewrite fold_left_app|apply Forall_app_2; [done|]; apply Forall_singleton; by split|cbn [size]; lia]. }
  all: eexists _, []; split_and!; try done; constructor.
Qed.

Lemma size_apply srs : forall c, size (apply_redirs c srs) = (size c + length srs)%nat.
Proof. induction srs as [|s srs IH]; intros c; cbn [length]; [unfold apply_redirs; simpl; lia|]. unfold apply_redirs in *. cbn [fold_left]. rewrite IH. cbn [size]. lia. Qed.

Lemma read_back n : forall c, (size c <= n)%nat -> good c -> reads_line c /\ reads_pipe c /\ reads_exec c.
Proof.
  induction n as [|n IH]; intros c Hn Hg; [destruct c; simpl in Hn; lia|].
  (* What a command with its backgrounds stripped needs. *)
  assert (Hline : reads_pipe c \/ (exists c', c = Background c') -> tokens 3 c = tokens 2 c -> reads_line c).
  { intros Hp H3. destruct (strip_background c Hg) as (k & c0 & E & Ht & Hg0 & Hs & _). rewrite E. apply line_run; [|by rewrite <- E, H3, Ht].
    destruct Hs as [[-> ->]|Hs]; [|by apply IH; [lia|]]. destruct Hp as [Hp|[c' ->]]; [done|].
    exfalso. clear - Ht. cbn [tokens paren Nat.ltb Nat.leb ampersands replicate] in Ht. rewrite app_nil_r in Ht.
    apply (f_equal length) in Ht. cbn [length] in Ht. rewrite !length_app in Ht. simpl in Ht. lia. }
  assert (Hparen : reads_line c -> tokens 0 c = Sign open_paren :: tokens 3 c ++ [Sign close_paren] -> reads_exec c).
  { intros Hl Ht. by apply (paren_run c []). }
  destruct c as [args|c f m d|l r|l r|c].
  - destruct Hg as [Ha Hmax]. assert (He : reads_exec (Simple args)) by (by apply (simple_run args [])).
    assert (Hp : reads_pipe (Simple args)) by (by apply pipe_of_exec). auto.
  - assert (He : reads_exec (Redirect c f m d)).
    { destruct (strip_redirects _ Hg) as (c0 & srs & E & Hs & Hg0 & Hle & Hno). rewrite E.
      destruct c0 as [args|c' f' m' d'|l r|l r|c']; [by apply simple_run; [apply Hg0|apply Hg0|]|by destruct (Hno c' f' m' d')|..];
        (apply paren_run; [|done|done]); apply IH; try done;
        rewrite E, size_apply in Hn; (destruct srs as [|s srs]; [done|]); cbn [length size] in *; lia. }
    assert (Hp : reads_pipe (Redirect c f m d)) by (by apply pipe_of_exec). auto.
  - destruct Hg as [Hgl Hgr]. cbn [size] in Hn. destruct (IH l ltac:(lia) Hgl) as (_ & _ & He), (IH r ltac:(lia) Hgr) as (_ & Hp & _).
    assert (Hpipe : reads_pipe (Pipe l r)) by (by apply pipe_run).
    assert (Hl : reads_line (Pipe l r)) by (apply Hline; [by left|done]). auto.
  - destruct Hg as [Hgl Hgr]. cbn [size] in Hn. destruct (strip_background l Hgl) as (k & c0 & E & Ht & Hg0 & Hs & _).
    assert (Hc0 : reads_pipe c0) by (apply IH; [destruct Hs as [[_ ->]|Hs]; lia|done]).
    assert (Hl : reads_line (Sequence l r)) by (rewrite E; apply sequence_run; [done|by rewrite <- E|by apply IH; [lia|]]).
    assert (He : reads_exec (Sequence l r)) by auto. split_and!; [done|by apply pipe_of_exec|done].
  - assert (Hl : reads_line (Background c)) by (apply Hline; [right; by eexists|done]). assert (He : reads_exec (Background c)) by auto.
    split_and!; [done|by apply pipe_of_exec|done].
Qed.
End Reading.

Lemma paren_good b ts : Forall token_good ts -> Forall token_good (paren b ts).
Proof.
  intros H. destruct b; [|done]. constructor; [cbn [token_good]; unfold signs; set_solver|].
  apply Forall_app_2; [done|]. apply Forall_singleton. cbn [token_good]. unfold signs. set_solver.
Qed.
Lemma sign_good c : c ∈ signs -> Forall token_good [Sign c].
Proof. intros H. by apply Forall_singleton. Qed.

Lemma tokens_good c : forall level, good c -> Forall token_good (tokens level c).
Proof.
  induction c as [args|c IH f m d|l IHl r IHr|l IHl r IHr|c IH]; intros level Hg; cbn [tokens].
  - apply Forall_map. eapply Forall_impl; [apply Hg|]. done.
  - destruct Hg as (Hg & Hf & _). apply Forall_app_2; [by apply IH|]. constructor; [|by apply Forall_singleton].
    unfold redir_sign. cbn [token_good]. unfold signs. destruct (m =? O_RDONLY); set_solver.
  - destruct Hg. apply paren_good. repeat apply Forall_app_2; auto; apply sign_good; unfold signs; set_solver.
  - destruct Hg. apply paren_good. repeat apply Forall_app_2; auto; apply sign_good; unfold signs; set_solver.
  - apply paren_good. apply Forall_app_2; auto; apply sign_good; unfold signs; set_solver.
Qed.

Lemma render_nonzero ts : Forall token_good ts -> 0 ∉ render ts.
Proof.
  induction 1 as [|t ts Ht Hts IH]; [apply not_elem_of_nil|]. rewrite render_cons, elem_of_app, elem_of_cons. intros [H|[H|H]]; [|done|done].
  destruct t as [s|c]; cbn [text token_good] in *.
  - destruct Ht as [_ Hf]. rewrite Forall_forall in Hf. by destruct (Hf 0 H).
  - apply list_elem_of_singleton in H as <-. unfold signs in Ht. rewrite !elem_of_cons in Ht. destruct_or! Ht; try done. by apply elem_of_nil in Ht.
Qed.

(** C30: whatever the command, of any shape and size, parsecmd reads it back from the line the
    printer writes: the tree it returns has that shape, and each of its pointers, read in the
    buffer after nulterminate, gives the word that was printed. Pipes bind tighter than '&',
    '&' tighter than ';', and both sequences group to the right. *)
Theorem parse_print c : good c ->
  exists t buf p, parsecmd (print c) 0%nat = Ret (t, buf) p /\ meaning (fun w => read_string buf w.1) t = c.
Proof.
  intros Hg. set (txt := print c).
  assert (H0 : stands txt (tokens 3 c ++ []) 0) by (rewrite app_nil_r; split_and!; [lia|done|by apply tokens_good]).
  destruct (proj1 (read_back txt (size c) c (Nat.le_refl _) Hg) (parse_fuel (length txt)) [] 0%nat) as (t & p & E & H & _ & Hm);
    [unfold parse_fuel; lia|done|by left|].
  assert (Hp : p = length txt) by (pose proof (stands_len _ _ _ H) as Hl; destruct H as (Hp & _); simpl in Hl; lia).
  assert (Er : parsecmd txt 0%nat = Ret (t, nulterminate t (txt ++ [0])) p).
  { unfold parsecmd. rewrite (bind_ret _ _ _ _ _ E). rewrite (bind_ret _ _ _ _ _ (peek_run txt [] [] p ltac:(done) H)).
    rewrite (bind_ret _ _ _ _ _ (eq_refl : get p = Ret p p)). rewrite Hp, Nat.eqb_refl. done. }
  pose proof (parsecmd_ends txt) as He. unfold ends in He. rewrite Er in He. destruct He as [Hok _].
  exists t, (nulterminate t (txt ++ [0])), p. split; [done|]. rewrite <- Hm. apply meaning_ext. intros w Hw.
  apply read_word; [exact (render_nonzero _ (tokens_good c 3 Hg))|by apply cmd_ok_words|done].
Qed.

Definition demo_command : command :=
  Sequence (Background (Pipe (Redirect (Sequence (Simple [chars "ls"]) (Simple [chars "wc"; chars "a"])) (chars "b") 513 1) (Simple [chars "cat"])))
    (Redirect (Redirect (Simple [chars "grep"; chars "x"]) (chars "in") 0 0) (chars "out") 513 1).

Lemma demo_good : good demo_command.
Proof. repeat first [discriminate | solve [left; split; reflexivity] | solve [right; split; reflexivity] | split | solve [unfold MAXARGS; simpl; lia] | constructor]. Defined.
Lemma parse_print_witness :
  print demo_command = chars "( ls ; wc a ) > b | cat & ; grep x < in > out " /\
  exists t buf p, parsecmd (print demo_command) 0%nat = Ret (t, buf) p /\ meaning (fun w => read_string buf w.1) t = demo_command.
Proof. split; [vm_compute; reflexivity|]. apply (parse_print demo_command). exact demo_good. Defined.

Lemma parsecmd_words_witness :
  (0 ∉ print demo_command) /\
  match parsecmd (print demo_command) 0%nat with
  | Ret (c, buf) _ => cmd_ok (print demo_command) c /\ meaning (fun w => read_string buf w.1) c = meaning (slice (print demo_command)) c
  | Panic _ => True
  | _ => False
  end.
Proof.
  assert (H : 0 ∉ print demo_command) by (apply render_nonzero, tokens_good, demo_good).
  split; [exact H|]. apply (parsecmd_words (print demo_command)). exact H.
Defined.
