(* ===== verification/ShRun.v ===== *)
(** * ShRun: how the shell runs a parsed command (offline_4/xv6/sh.c: runcmd, fork1, panic)

    A process of the shell is a program [prog]: what it does at its next system call, for each
    answer of the kernel. [runcmd] is the code's function with the calls made explicit; a child
    gets the rest of its program at fork. Processes of one command run in any order. *)

From S2P Require Import Prelude Fcntl Printf Sh.

(** A node of the command, from the bottom up. *)
Definition node : Type := list bool.

(** What a descriptor leads to: what the shell was given, a file opened by a redirection, an end
    of the pipe made for a node. *)
Inductive handle : Type :=
  | Given (n : nat)
  | Opened (w : word) (mode : Z)
  | PipeR (n : node)
  | PipeW (n : node).
Definition fds : Type := list (option handle).

Inductive prog : Type :=
  | Exit
  | Exec (argv : list word) (failed : prog)
  | Close (fd : nat) (k : prog)
  | Dup (fd : nat) (k : prog)
  | Open (w : word) (mode : Z) (k : bool -> prog)
  | Pipe (n : node) (k : option (nat * nat) -> prog)
  | Fork (child parent failed : prog)
  | Wait (k : prog)
  | Print (k : prog).

(** panic prints its message and exits; fork1 panics when fork fails. *)
Definition panic : prog := Print Exit.
Definition fork1 (child parent : prog) : prog := Fork child parent panic.

Fixpoint runcmd (here : node) (c : cmd) : prog :=
  match c with
  | EXEC [] => Exit
  | EXEC argv => Exec argv (Print Exit)
  | REDIR c r => Close (Z.to_nat (fd r)) (Open (file r) (mode r) (fun ok => if ok then runcmd (false :: here) c else Print Exit))
  | LIST l r => fork1 (runcmd (false :: here) l) (Wait (runcmd (true :: here) r))
  | PIPE l r =>
      Pipe here (fun p =>
        match p with
        | None => panic
        | Some (p0, p1) =>
            fork1 (Close 1 (Dup p1 (Close p0 (Close p1 (runcmd (false :: here) l)))))
              (fork1 (Close 0 (Dup p0 (Close p0 (Close p1 (runcmd (true :: here) r)))))
                 (Close p0 (Close p1 (Wait (Wait Exit)))))
        end)
  | BACK c => fork1 (runcmd (false :: here) c) Exit
  end.

(** ** The kernel's side *)

Definition lowest (e : fds) : option nat := find_index (fun h => bool_decide (h = None)) e.
#[export] Instance handle_eq_dec : EqDecision handle.
Proof. solve_decision. Defined.
Definition close_fd (fd : nat) (e : fds) : fds := <[fd := None]> e.
Definition dup_fd (fd : nat) (e : fds) : fds :=
  match e !! fd, lowest e with Some (Some h), Some n => <[n := Some h]> e | _, _ => e end.
(** The two descriptors pipe gives, and the table with them. *)
Definition two_lowest (n : node) (e : fds) : option (nat * nat * fds) :=
  r ← lowest e; let e1 := <[r := Some (PipeR n)]> e in w ← lowest e1; Some (r, w, <[w := Some (PipeW n)]> e1).

Inductive pstate : Type := Code (p : prog) | Running (argv : list word) | Zombie | Gone.
Record proc : Type := mkProc { st : pstate; table : fds; parent : option nat }.
Definition live (p : proc) : bool := match st p with Code _ | Running _ => true | _ => false end.
(** The processes, and the programs started so far with their descriptors. *)
Record shell : Type := mkShell { procs : list proc; log : list (list word * fds) }.

(** The children of [i] become init's. *)
Definition orphan (i : nat) (p : proc) : proc := if decide (parent p = Some i) then mkProc (st p) (table p) None else p.
Definition ends (i : nat) (e : fds) (par : option nat) (ps : list proc) : list proc := orphan i <$> <[i := mkProc Zombie e par]> ps.

(** What process [i] does next, and whether the kernel refused something. *)
Inductive step : bool -> shell -> shell -> Prop :=
  | s_exit ps l i e par : ps !! i = Some (mkProc (Code Exit) e par) -> step false (mkShell ps l) (mkShell (ends i e par ps) l)
  | s_done ps l i argv e par : ps !! i = Some (mkProc (Running argv) e par) -> step false (mkShell ps l) (mkShell (ends i e par ps) l)
  | s_exec ps l i argv k e par : ps !! i = Some (mkProc (Code (Exec argv k)) e par) ->
      step false (mkShell ps l) (mkShell (<[i := mkProc (Running argv) e par]> ps) (l ++ [(argv, e)]))
  | s_exec_fails ps l i argv k e par : ps !! i = Some (mkProc (Code (Exec argv k)) e par) -> step true (mkShell ps l) (mkShell (<[i := mkProc (Code k) e par]> ps) l)
  | s_close ps l i fd k e par : ps !! i = Some (mkProc (Code (Close fd k)) e par) -> step false (mkShell ps l) (mkShell (<[i := mkProc (Code k) (close_fd fd e) par]> ps) l)
  | s_dup ps l i fd k e par : ps !! i = Some (mkProc (Code (Dup fd k)) e par) -> step false (mkShell ps l) (mkShell (<[i := mkProc (Code k) (dup_fd fd e) par]> ps) l)
  | s_open ps l i w m k e par n : ps !! i = Some (mkProc (Code (Open w m k)) e par) -> lowest e = Some n ->
      step false (mkShell ps l) (mkShell (<[i := mkProc (Code (k true)) (<[n := Some (Opened w m)]> e) par]> ps) l)
  | s_open_fails ps l i w m k e par : ps !! i = Some (mkProc (Code (Open w m k)) e par) -> step true (mkShell ps l) (mkShell (<[i := mkProc (Code (k false)) e par]> ps) l)
  | s_pipe ps l i n k e par r w e' : ps !! i = Some (mkProc (Code (Pipe n k)) e par) -> two_lowest n e = Some (r, w, e') ->
      step false (mkShell ps l) (mkShell (<[i := mkProc (Code (k (Some (r, w)))) e' par]> ps) l)
  | s_pipe_fails ps l i n k e par : ps !! i = Some (mkProc (Code (Pipe n k)) e par) -> step true (mkShell ps l) (mkShell (<[i := mkProc (Code (k None)) e par]> ps) l)
  | s_fork ps l i c p f e par : ps !! i = Some (mkProc (Code (Fork c p f)) e par) ->
      step false (mkShell ps l) (mkShell (<[i := mkProc (Code p) e par]> ps ++ [mkProc (Code c) e (Some i)]) l)
  | s_fork_fails ps l i c p f e par : ps !! i = Some (mkProc (Code (Fork c p f)) e par) -> step true (mkShell ps l) (mkShell (<[i := mkProc (Code f) e par]> ps) l)
  | s_wait ps l i j k e par e' : ps !! i = Some (mkProc (Code (Wait k)) e par) -> ps !! j = Some (mkProc Zombie e' (Some i)) ->
      step false (mkShell ps l) (mkShell (<[i := mkProc (Code k) e par]> (<[j := mkProc Gone e' None]> ps)) l)
  | s_wait_none ps l i k e par : ps !! i = Some (mkProc (Code (Wait k)) e par) -> (forall j q, ps !! j = Some q -> parent q <> Some i) ->
      step false (mkShell ps l) (mkShell (<[i := mkProc (Code k) e par]> ps) l)
  | s_print ps l i k e par : ps !! i = Some (mkProc (Code (Print k)) e par) -> step false (mkShell ps l) (mkShell (<[i := mkProc (Code k) e par]> ps) l).

(** Reachable from a state, with a refusal on the way or without. *)
Inductive run (s0 : shell) : bool -> shell -> Prop :=
  | run_refl : run s0 false s0
  | run_step b b' s s' : run s0 b s -> step b' s s' -> run s0 (b || b') s'.

(** ** What a command should run *)

(** Descriptors 0, 1 and 2 are open, no other is. *)
Definition std (e : fds) : Prop := exists a b c, e = Some a :: Some b :: Some c :: replicate 13 None.

(** The redirections the parser makes are of descriptors 0 and 1. *)
Fixpoint redirs_ok (c : cmd) : Prop :=
  match c with
  | EXEC _ => True
  | REDIR c r => (fd r = 0 \/ fd r = 1) /\ redirs_ok c
  | LIST l r | PIPE l r => redirs_ok l /\ redirs_ok r
  | BACK c => redirs_ok c
  end.

Fixpoint expected (here : node) (c : cmd) (e : fds) : list (list word * fds) :=
  match c with
  | EXEC [] => []
  | EXEC argv => [(argv, e)]
  | REDIR c r => expected (false :: here) c (<[Z.to_nat (fd r) := Some (Opened (file r) (mode r))]> e)
  | LIST l r => expected (false :: here) l e ++ expected (true :: here) r e
  | PIPE l r => expected (false :: here) l (<[1%nat := Some (PipeW here)]> e) ++ expected (true :: here) r (<[0%nat := Some (PipeR here)]> e)
  | BACK c => expected (false :: here) c e
  end.

(** Whatever the parser returns qualifies. *)
Lemma cmd_ok_redirs txt c : cmd_ok txt c -> redirs_ok c.
Proof. induction c; cbn [cmd_ok redirs_ok]; tauto. Qed.
Lemma parsed_redirs_ok txt c buf p : parsecmd txt 0%nat = Ret (c, buf) p -> redirs_ok c.
Proof.
  intros Hp. pose proof (parsecmd_ends txt) as He. unfold Sh.ends in He. rewrite Hp in He. destruct He as [He _]. by eapply cmd_ok_redirs.
Qed.

(** ** What a program still does *)

Fixpoint todo (p : prog) (e : fds) : list (list word * fds) :=
  match p with
  | Exit => []
  | Exec argv _ => [(argv, e)]
  | Close fd k => todo k (close_fd fd e)
  | Dup fd k => todo k (dup_fd fd e)
  | Open w m k => match lowest e with Some n => todo (k true) (<[n := Some (Opened w m)]> e) | None => [] end
  | Pipe n k => match two_lowest n e with Some (r, w, e') => todo (k (Some (r, w))) e' | None => [] end
  | Fork c p _ => todo c e ++ todo p e
  | Wait k | Print k => todo k e
  end.
(** After a refusal nothing more is run; whoever waits has only the standard descriptors. *)
Fixpoint tame (p : prog) (e : fds) : Prop :=
  match p with
  | Exit => True
  | Exec _ k => todo k e = [] /\ tame k e
  | Close fd k => tame k (close_fd fd e)
  | Dup fd k => tame k (dup_fd fd e)
  | Open w m k => todo (k false) e = [] /\ tame (k false) e /\ match lowest e with Some n => tame (k true) (<[n := Some (Opened w m)]> e) | None => True end
  | Pipe n k => todo (k None) e = [] /\ tame (k None) e /\ match two_lowest n e with Some (r, w, e') => tame (k (Some (r, w))) e' | None => True end
  | Fork c p f => tame c e /\ tame p e /\ todo f e = [] /\ tame f e
  | Wait k => std e /\ tame k e
  | Print k => tame k e
  end.

Lemma runcmd_todo c : forall here e, std e -> redirs_ok c -> todo (runcmd here c) e = expected here c e /\ tame (runcmd here c) e.
Proof.
  induction c as [argv|c IH r|l IHl r IHr|l IHl r IHr|c IH]; intros here e He Hc.
  - by destruct argv.
  - destruct Hc as [Hf Hc]. destruct He as (x & y & z & ->).
    destruct Hf as [Hf|Hf]; [destruct (IH (false :: here) (Some (Opened (file r) (mode r)) :: Some y :: Some z :: replicate 13 None)) as [E T]|
      destruct (IH (false :: here) (Some x :: Some (Opened (file r) (mode r)) :: Some z :: replicate 13 None)) as [E T]]; try done; try by eexists _, _, _.
    all: cbn [runcmd expected todo tame]; rewrite Hf; change (Z.to_nat 0) with 0%nat; change (Z.to_nat 1) with 1%nat; cbn in E, T |- *; by rewrite E.
  - destruct Hc as [Hl Hr], He as (x & y & z & ->).
    destruct (IHl (false :: here) (Some x :: Some (PipeW here) :: Some z :: replicate 13 None)) as [El Tl]; [by eexists _, _, _|done|].
    destruct (IHr (true :: here) (Some (PipeR here) :: Some y :: Some z :: replicate 13 None)) as [Er Tr]; [by eexists _, _, _|done|].
    cbn [runcmd expected]. cbn in El, Er, Tl, Tr |- *. rewrite El, Er, app_nil_r. split; [done|]. split_and!; try done; by eexists _, _, _.
  - destruct Hc as [Hl Hr]. destruct (IHl (false :: here) e He Hl) as [El Tl], (IHr (true :: here) e He Hr) as [Er Tr].
    cbn [runcmd expected]. cbn. rewrite El, Er. done.
  - destruct (IH (false :: here) e He Hc) as [E T]. cbn [runcmd expected]. cbn. rewrite E, app_nil_r. done.
Qed.

(** ** Runs *)

Definition rest (p : proc) : list (list word * fds) := match st p with Code c => todo c (table p) | _ => [] end.
Definition remaining (ps : list proc) : list (list word * fds) := mjoin (rest <$> ps).

Lemma remaining_at ps i p : ps !! i = Some p -> exists R, remaining ps ≡ₚ rest p ++ R /\ forall q, remaining (<[i := q]> ps) ≡ₚ rest q ++ R.
Proof.
  intros Hi. pose proof (lookup_lt_Some _ _ _ Hi) as Hl. exists (remaining (take i ps) ++ remaining (drop (S i) ps)).
  assert (K : forall a q b, remaining (a ++ q :: b) ≡ₚ rest q ++ remaining a ++ remaining b).
  { intros a q b. unfold remaining. rewrite fmap_app, fmap_cons, join_app. cbn [mjoin list_join]. rewrite !app_assoc. apply Permutation_app_tail, Permutation_app_comm. }
  split; [rewrite <- (take_drop_middle ps i p Hi) at 1; apply K|]. intros q. rewrite insert_take_drop by done. apply K.
Qed.
Lemma remaining_orphan i ps : remaining (orphan i <$> ps) = remaining ps.
Proof.
  unfold remaining. f_equal. rewrite <- list_fmap_compose. apply list_fmap_ext. intros k p _. cbn. unfold orphan, rest. by destruct (decide _).
Qed.
Lemma remaining_snoc ps p : remaining (ps ++ [p]) = remaining ps ++ rest p.
Proof. unfold remaining. rewrite fmap_app, join_app. cbn [fmap list_fmap mjoin list_join]. by rewrite app_nil_r. Qed.

(** What has been started and what is still to do make up what was expected. *)
Definition accounts (b : bool) (x : list (list word * fds)) (s : shell) : Prop :=
  if b then log s ++ remaining (procs s) ⊆+ x else log s ++ remaining (procs s) ≡ₚ x.
Definition tame_proc (p : proc) : Prop := match st p with Code c => tame c (table p) | _ => True end.
Record tree_ok (ps : list proc) : Prop := {
  to_tame : forall i p, ps !! i = Some p -> tame_proc p;
  to_older : forall j q i, ps !! j = Some q -> parent q = Some i -> (i < j)%nat;
  to_gone : forall j q, ps !! j = Some q -> st q = Gone -> parent q = None
}.

Lemma tree_insert ps i p q : tree_ok ps -> ps !! i = Some p -> tame_proc q -> parent q = parent p \/ parent q = None -> (st q = Gone -> parent q = None) -> tree_ok (<[i := q]> ps).
Proof.
  intros [T1 T2 T3] Hi Hq Hp Hg. split.
  - intros j r [(<- & <- & _)|[_ Hr]]%list_lookup_insert_Some; [done|by apply (T1 j)].
  - intros j r k [(<- & <- & _)|[_ Hr]]%list_lookup_insert_Some; [|by apply T2]. intros E. destruct Hp as [Hp|Hp]; [|congruence].
    apply (T2 i p k Hi). congruence.
  - intros j r [(<- & <- & _)|[_ Hr]]%list_lookup_insert_Some; [done|by apply (T3 j)].
Qed.
Lemma tree_orphan ps i : tree_ok ps -> tree_ok (orphan i <$> ps).
Proof.
  intros [T1 T2 T3]. assert (K : forall j q, (orphan i <$> ps) !! j = Some q -> exists p, ps !! j = Some p /\ st q = st p /\ table q = table p /\ (parent q = parent p \/ parent q = None)).
  { intros j q. rewrite list_lookup_fmap, fmap_Some. intros (p & Hp & ->). exists p. unfold orphan. destruct (decide _); cbn; auto. }
  split.
  - intros j q (p & Hp & Es & Et & _)%K. unfold tame_proc. rewrite Es, Et. by apply (T1 j).
  - intros j q k (p & Hp & _ & _ & [E|E])%K; [rewrite E; by apply T2|congruence].
  - intros j q (p & Hp & Es & _ & [E|E])%K; [rewrite Es, E; by apply (T3 j)|done].
Qed.
Lemma tree_snoc ps q i : tree_ok ps -> tame_proc q -> st q <> Gone -> (i < length ps)%nat -> parent q = Some i -> tree_ok (ps ++ [q]).
Proof.
  intros [T1 T2 T3] Hq Hg Hi Hp. split.
  - intros j r [Hr|[_ [_ ->]%list_lookup_singleton_Some]]%lookup_app_Some; [by apply (T1 j)|done].
  - intros j r k [Hr|[Hj [_ <-]%list_lookup_singleton_Some]]%lookup_app_Some; [by apply T2|]. rewrite Hp. intros [= <-]. lia.
  - intros j r [Hr|[_ [_ <-]%list_lookup_singleton_Some]]%lookup_app_Some; [by apply (T3 j)|done].
Qed.

Lemma step_tree b s s' : step b s s' -> tree_ok (procs s) -> tree_ok (procs s').
Proof.
  intros Hs T. assert (Tm : forall i c e par, procs s !! i = Some (mkProc (Code c) e par) -> tame c e) by (intros i c e par Hi; exact (to_tame _ T i _ Hi)).
  destruct Hs as [ps l i e par Hi|ps l i argv e par Hi|ps l i argv k e par Hi|ps l i argv k e par Hi|ps l i fd k e par Hi|ps l i fd k e par Hi|
    ps l i w m k e par n Hi Hn|ps l i w m k e par Hi|ps l i n k e par r w e' Hi Hn|ps l i n k e par Hi|ps l i c p f e par Hi|ps l i c p f e par Hi|
    ps l i j k e par e' Hi Hj|ps l i k e par Hi Hno|ps l i k e par Hi]; cbn [procs] in *; try (pose proof (Tm _ _ _ _ Hi) as Ht; cbn [tame] in Ht);
    try (eapply tree_insert; [done|exact Hi| |by left|done]; cbn; try done; try tauto).
  - apply tree_orphan. eapply tree_insert; [done|exact Hi|done|by left|done].
  - apply tree_orphan. eapply tree_insert; [done|exact Hi|done|by left|done].
  - destruct Ht as (_ & _ & Ht). by rewrite Hn in Ht.
  - destruct Ht as (_ & _ & Ht). by rewrite Hn in Ht.
  - destruct Ht as (Hc & Hp & _). apply (tree_snoc _ _ i); try done; [|by rewrite length_insert; eapply lookup_lt_Some].
    eapply tree_insert; [done|exact Hi|done|by left|done].
  - assert (Hne : j <> i) by (intros ->; congruence). eapply tree_insert; [|by rewrite list_lookup_insert_ne| |by left|done].
    + eapply tree_insert; [done|exact Hj|done|by right|done].
    + apply Ht.
Qed.

Lemma log_app (l a b : list (list word * fds)) : a ≡ₚ b -> l ++ a ≡ₚ l ++ b.
Proof. by intros ->. Qed.

(** A step that changes one process. *)
Lemma accounts_insert b b' x ps l i p q : accounts b x (mkShell ps l) -> ps !! i = Some p ->
  (if b' : bool then rest q ⊆+ rest p else rest q ≡ₚ rest p) -> accounts (b || b') x (mkShell (<[i := q]> ps) l).
Proof.
  intros Ha Hi Hq. destruct (remaining_at ps i p Hi) as (R & E & E'). unfold accounts in *. cbn [log procs] in *.
  destruct b, b'; cbn [orb] in *; rewrite E', E in *.
  - etransitivity; [|exact Ha]. by apply submseteq_skips_l, submseteq_skips_r.
  - by rewrite Hq.
  - rewrite <- Ha. by apply submseteq_skips_l, submseteq_skips_r.
  - by rewrite Hq.
Qed.
Lemma accounts_ends b x ps l i e par p : accounts b x (mkShell ps l) -> ps !! i = Some p -> rest p = [] -> accounts (b || false) x (mkShell (ends i e par ps) l).
Proof.
  intros Ha Hi Hr. pose proof (accounts_insert b false x ps l i p (mkProc Zombie e par) Ha Hi) as K. cbn in K. rewrite Hr in K. specialize (K ltac:(done)).
  unfold accounts, ends in *. cbn [log procs] in *. by rewrite remaining_orphan.
Qed.

Lemma step_accounts b b' x s s' : step b' s s' -> tree_ok (procs s) -> accounts b x s -> accounts (b || b') x s'.
Proof.
  intros Hs T. assert (Tm : forall i c e par, procs s !! i = Some (mkProc (Code c) e par) -> tame c e) by (intros i c e par Hi; exact (to_tame _ T i _ Hi)).
  destruct Hs as [ps l i e par Hi|ps l i argv e par Hi|ps l i argv k e par Hi|ps l i argv k e par Hi|ps l i fd k e par Hi|ps l i fd k e par Hi|
    ps l i w m k e par n Hi Hn|ps l i w m k e par Hi|ps l i n k e par r w e' Hi Hn|ps l i n k e par Hi|ps l i c p f e par Hi|ps l i c p f e par Hi|
    ps l i j k e par e' Hi Hj|ps l i k e par Hi Hno|ps l i k e par Hi]; cbn [procs] in *; intros Ha; try (pose proof (Tm _ _ _ _ Hi) as Ht; cbn [tame] in Ht);
    try (eapply accounts_insert; [exact Ha|exact Hi|]; cbn [rest st table todo]; try done).
  - eapply accounts_ends; [exact Ha|exact Hi|done].
  - eapply accounts_ends; [exact Ha|exact Hi|done].
  - destruct (remaining_at ps i _ Hi) as (R & E & E'). unfold accounts in *. cbn [log procs] in *. rewrite orb_false_r.
    destruct b; rewrite E', E in *; cbn [rest st table todo app] in *; by rewrite <- app_assoc.
  - destruct Ht as [-> _]. apply submseteq_nil_l.
  - by rewrite Hn.
  - destruct Ht as [-> _]. apply submseteq_nil_l.
  - by rewrite Hn.
  - destruct Ht as [-> _]. apply submseteq_nil_l.
  - destruct (remaining_at ps i _ Hi) as (R & E & E'). unfold accounts in *. cbn [log procs] in *. rewrite remaining_snoc, orb_false_r.
    assert (Ep : (todo p e ++ R) ++ todo c e ≡ₚ (todo c e ++ todo p e) ++ R) by (rewrite <- !app_assoc, (Permutation_app_comm (todo c e) (todo p e ++ R)), <- app_assoc; done).
    destruct b; rewrite E', E in *; cbn [rest st table todo] in *; by rewrite Ep.
  - destruct Ht as (_ & _ & -> & _). apply submseteq_nil_l.
  - assert (Hne : i <> j) by (intros ->; congruence).
    pose proof (accounts_insert b false x ps l j (mkProc Zombie e' (Some i)) (mkProc Gone e' None) Ha Hj (Permutation_refl _)) as K. rewrite orb_false_r in K.
    eapply accounts_insert; [exact K|by rewrite list_lookup_insert_ne|done].
Qed.

Lemma run_tree_ok s0 x : tree_ok (procs s0) -> accounts false x s0 -> forall b s, run s0 b s -> tree_ok (procs s) /\ accounts b x s.
Proof.
  intros T0 A0 b s. induction 1 as [|b b' s s' _ [IHt IHa] Hs]; [done|]. split; [by apply (step_tree b' s)|by apply (step_accounts b b' x s)].
Qed.

(** ** Nobody is stuck *)

Lemma last_live (ps : list proc) : (exists i p, ps !! i = Some p /\ live p = true) -> exists i p, ps !! i = Some p /\ live p = true /\ forall j q, (i < j)%nat -> ps !! j = Some q -> live q = false.
Proof.
  induction ps as [|p ps IH] using rev_ind; [intros (i & q & Hq & _); by rewrite lookup_nil in Hq|]. intros (i & q & Hq & Lq).
  destruct (live p) eqn:Lp.
  - exists (length ps), p. rewrite lookup_app_r, Nat.sub_diag by lia. split_and!; [done..|]. intros j r Hj Hr. apply lookup_lt_Some in Hr. rewrite length_app in Hr. simpl in Hr. lia.
  - destruct IH as (k & r & Hr & Lr & Hk).
    { apply lookup_app_Some in Hq as [Hq|[_ [_ <-]%list_lookup_singleton_Some]]; [by exists i, q|congruence]. }
    exists k, r. split; [rewrite lookup_app_l; [done|by eapply lookup_lt_Some]|]. split; [done|]. intros j t Hj [Ht|[_ [_ <-]%list_lookup_singleton_Some]]%lookup_app_Some; [by apply (Hk j)|done].
Qed.

Lemma progress s : tree_ok (procs s) -> (exists i p, procs s !! i = Some p /\ live p = true) -> exists b s', step b s s'.
Proof.
  intros T (i & [x e par] & Hi & Li & Hmax)%last_live. destruct s as [ps l]. cbn [procs] in *. destruct x as [c|argv| |]; try done; [|by eexists _, _; eapply s_done].
  destruct c as [|argv k|fd k|fd k|w m k|n k|c p f|k|k].
  - eexists _, _. by eapply s_exit.
  - eexists _, _. by eapply s_exec.
  - eexists _, _. by eapply s_close.
  - eexists _, _. by eapply s_dup.
  - eexists _, _. by eapply s_open_fails.
  - eexists _, _. by eapply s_pipe_fails.
  - eexists _, _. by eapply s_fork.
  - destruct (decide (Exists (fun q => parent q = Some i) ps)) as [Hex|Hno].
    + apply Exists_exists in Hex as ([y e' par'] & Hin & Hp). apply list_elem_of_lookup in Hin as (j & Hj). cbn in Hp. subst par'.
      pose proof (to_older _ T j _ i Hj eq_refl) as Hlt. pose proof (Hmax j _ Hlt Hj) as Hl. destruct y as [| | |]; try done.
      * eexists _, _. by eapply s_wait.
      * by pose proof (to_gone _ T j _ Hj eq_refl).
    + eexists _, _. eapply s_wait_none; [done|]. intros j q Hq Hp. apply Hno, Exists_exists. exists q. split; [by eapply list_elem_of_lookup_2|done].
  - eexists _, _. by eapply s_print.
Qed.

Lemma finished (ps : list proc) : (forall i p, ps !! i = Some p -> live p = false) -> remaining ps = [].
Proof.
  induction ps as [|p ps IH]; intros Hf; [done|]. change (remaining (p :: ps)) with (rest p ++ remaining ps).
  rewrite IH by (intros i q Hq; by apply (Hf (S i))). rewrite app_nil_r. pose proof (Hf 0%nat p eq_refl) as Hl. unfold live, rest in *. by destruct (st p).
Qed.

(** The shell's child with a parsed command. *)
Definition start (c : cmd) (e : fds) : shell := mkShell [mkProc (Code (runcmd [] c)) e None] [].

(** C11: the shell runs a command as it is written, in any interleaving of its processes. Started
    with descriptors 0, 1 and 2, every program it starts is one the command names, none is
    started twice, and each has exactly the descriptors its place asks for: the file of the
    innermost redirection, the end of the pipe it stands at, and otherwise the shell's own,
    with no other descriptor open. A process that waits for its children holds no end of a
    pipe. As long as a process is left something can happen, and when none is left and the
    kernel refused nothing, every program of the command has been run. The line is any the
    parser accepts. *)
Theorem shell_wiring txt (c : cmd) buf p (e : fds) (b : bool) (s : shell)
  (Hp : parsecmd txt 0%nat = Ret (c, buf) p) (He : std e) (Hs : run (start c e) b s) :
  log s ⊆+ expected [] c e /\
  (forall i k t par, procs s !! i = Some (mkProc (Code (Wait k)) t par) -> std t) /\
  ((exists i p, procs s !! i = Some p /\ live p = true) -> exists b' s', step b' s s') /\
  ((forall i p, procs s !! i = Some p -> live p = false) -> b = false -> log s ≡ₚ expected [] c e).
Proof.
  destruct (runcmd_todo c [] e He (parsed_redirs_ok txt c buf p Hp)) as [Et Tt].
  assert (T0 : tree_ok (procs (start c e))).
  { split; [intros [|j] q Hq|intros [|j] q i Hq|intros [|j] q Hq]; try done; injection Hq as <-; [exact Tt|done|done]. }
  destruct (run_tree_ok (start c e) (expected [] c e) T0) with (b := b) (s := s) as [T A]; [|done|].
  { unfold accounts, remaining, rest. cbn. by rewrite Et, app_nil_r. }
  split; [|split; [|split]].
  - destruct b; cbn in A; [etransitivity; [|exact A]|rewrite <- A]; by apply submseteq_inserts_r.
  - intros i k t par Hi. exact (proj1 (to_tame _ T i _ Hi)).
  - by apply progress.
  - intros Hf ->. cbn in A. by rewrite finished, app_nil_r in A.
Qed.

(** ** A run *)

(** The next step of process [i] when nothing is refused. *)
Definition next (i : nat) (s : shell) : option shell :=
  let ps := procs s in
  let go x e par := Some (mkShell (<[i := mkProc x e par]> ps) (log s)) in
  p ← ps !! i;
  let '(mkProc x e par) := p in
  match x with
  | Code Exit | Running _ => Some (mkShell (ends i e par ps) (log s))
  | Code (Exec argv _) => Some (mkShell (<[i := mkProc (Running argv) e par]> ps) (log s ++ [(argv, e)]))
  | Code (Close fd k) => go (Code k) (close_fd fd e) par
  | Code (Dup fd k) => go (Code k) (dup_fd fd e) par
  | Code (Open w m k) => n ← lowest e; go (Code (k true)) (<[n := Some (Opened w m)]> e) par
  | Code (Pipe n k) => '(r, w, e') ← two_lowest n e; go (Code (k (Some (r, w)))) e' par
  | Code (Fork c p _) => Some (mkShell (<[i := mkProc (Code p) e par]> ps ++ [mkProc (Code c) e (Some i)]) (log s))
  | Code (Wait k) =>
      j ← find_index (fun q => match st q with Zombie => bool_decide (parent q = Some i) | _ => false end) ps;
      q ← ps !! j;
      Some (mkShell (<[i := mkProc (Code k) e par]> (<[j := mkProc Gone (table q) None]> ps)) (log s))
  | Code (Print k) => go (Code k) e par
  | Zombie | Gone => None
  end.
Fixpoint schedule (order : list nat) (s : shell) : option shell :=
  match order with [] => Some s | i :: order => s ← next i s; schedule order s end.

Lemma next_step i s s' : next i s = Some s' -> step false s s'.
Proof.
  destruct s as [ps l]. unfold next. cbn [procs log]. destruct (ps !! i) as [[x e par]|] eqn:Hi; [|done]. cbn [mbind option_bind].
  destruct x as [c|argv| |]; try done; [destruct c as [|argv k|fd k|fd k|w m k|n k|c p f|k|k]|]; cbn [mbind option_bind].
  - intros [= <-]. by apply s_exit.
  - intros [= <-]. by eapply s_exec.
  - intros [= <-]. by eapply s_close.
  - intros [= <-]. by eapply s_dup.
  - destruct (lowest e) as [n|] eqn:En; [|done]. intros [= <-]. by eapply s_open.
  - destruct (two_lowest n e) as [[[r w] e']|] eqn:En; [|done]. intros [= <-]. by eapply s_pipe.
  - intros [= <-]. by eapply s_fork.
  - destruct (find_index _ ps) as [j|] eqn:Ej; [|done]. apply find_index_Some in Ej as ([y t par'] & Hj & Hy & _). cbn [st parent] in Hy. destruct y; try done.
    apply bool_decide_eq_true in Hy as ->. cbn [mbind option_bind]. rewrite Hj. intros [= <-]. by eapply s_wait.
  - intros [= <-]. by apply s_print.
  - intros [= <-]. by eapply s_done.
Qed.
Lemma schedule_run s0 order : forall s s', run s0 false s -> schedule order s = Some s' -> run s0 false s'.
Proof.
  induction order as [|i order IH]; intros s s' Hr Hs; [by injection Hs as <-|]. cbn [schedule] in Hs. destruct (next i s) as [s1|] eqn:E; [|done].
  apply (IH s1); [|done]. exact (run_step s0 false false s s1 Hr (next_step i s s1 E)).
Qed.

(** "a|b>f": both programs run at the same time, the reader first. *)
Definition demo_line : list Z := [97; 124; 98; 62; 102].
Definition demo_cmd : cmd := PIPE (EXEC [(0%nat, 1%nat)]) (REDIR (EXEC [(2%nat, 3%nat)]) (mkRedir (4%nat, 5%nat) 513 1)).
Definition demo_fds : fds := Some (Given 0) :: Some (Given 1) :: Some (Given 2) :: replicate 13 None.
Definition demo_schedule : list nat :=
  [0; 0; 0; 2; 2; 2; 2; 2; 2; 2; 1; 0; 1; 1; 1; 0; 1; 2; 1; 0; 0; 0]%nat.

Lemma shell_wiring_witness :
  exists s, schedule demo_schedule (start demo_cmd demo_fds) = Some s /\
    log s ≡ₚ [([(0%nat, 1%nat)], Some (Given 0) :: Some (PipeW []) :: Some (Given 2) :: replicate 13 None);
              ([(2%nat, 3%nat)], Some (PipeR []) :: Some (Opened (4%nat, 5%nat) 513) :: Some (Given 2) :: replicate 13 None)].
Proof.
  destruct (schedule demo_schedule (start demo_cmd demo_fds)) as [s|] eqn:E; [|by vm_compute in E].
  exists s. split; [done|].
  assert (Hlive : forall i p, procs s !! i = Some p -> live p = false).
  { vm_compute in E. injection E as <-. intros i p Hi. destruct i as [|[|[|i]]]; try done; by injection Hi as <-. }
  assert (Hp : parsecmd demo_line 0%nat = Ret (demo_cmd, nulterminate demo_cmd (demo_line ++ [0])) 5%nat) by (vm_compute; reflexivity).
  exact (proj2 (proj2 (proj2 (shell_wiring demo_line demo_cmd _ 5%nat demo_fds false s Hp ltac:(by eexists _, _, _)
    (schedule_run (start demo_cmd demo_fds) demo_schedule (start demo_cmd demo_fds) s (run_refl _) E)))) Hlive eq_refl).
Defined.
