(* ===== verification/Clock.v ===== *)
(** * Clock: ticks, and the processes that sleep until one (trap.c, sysproc.c)

    The timer interrupt of processor 0, a call of sys_sleep from its acquire to its call of
    sleep or its return, falling asleep in sleep, what a woken process does up to its next call
    of sleep or its return, and a kill are steps. All but the kill need tickslock, which a
    process holds from its test of the killed flag until it has fallen asleep; kill takes
    ptable.lock only, so it may come between the two. *)

From S2P Require Import Prelude Syscall.

(** Where a process is: outside sys_sleep, about to fall asleep (it has seen that it was not
    killed, and holds tickslock), asleep on &ticks, made RUNNABLE inside sleep, or back from
    sys_sleep. *)
Inductive stage : Type := Outside | Checked | Asleep | Woken | Returned (r : Z).

(** The locals of sys_sleep and the process's killed flag; [began], [ended] and [killed_at] are
    history: the ticks since boot, not wrapped, when the call began to count, when it returned
    and when the process was last killed. *)
Record task : Type := mkTask {
  n : Z; ticks0 : Z; killed : bool; at_ : stage; began : Z; ended : Z; killed_at : Z
}.
(** [tickslock]: the process that holds it from one step to the next, if any. *)
Record clock : Type := mkClock { ticks : Z; total : Z; tickslock : option nat; tasks : list task }.

Definition move (x : stage) (now : Z) (t : task) : task :=
  mkTask (n t) (ticks0 t) (killed t) x (began t) now (killed_at t).

(** wakeup(&ticks), and the part of kill that wakes. *)
Definition wake (t : task) : task := match at_ t with Asleep => move Woken (ended t) t | _ => t end.
Definition kill_task (now : Z) (t : task) : task :=
  wake (mkTask (n t) (ticks0 t) true (at_ t) (began t) (ended t) now).

(** The loop of sys_sleep, to its call of sleep or its return: ticks - ticks0 and n compare as
    uint. *)
Definition sleep_loop (s : clock) (t : task) : task :=
  if u32 (ticks s - ticks0 t) <? u32 (n t) then
    if killed t then move (Returned (-1)) (total s) t else move Checked (total s) t
  else move (Returned 0) (total s) t.

Definition sys_sleep (u : uctx) (s : clock) (t : task) : task :=
  match argint u 0 with
  | None => move (Returned (-1)) (total s) t
  | Some a => sleep_loop s (mkTask a (ticks s) (killed t) (at_ t) (total s) (ended t) (killed_at t))
  end.
Definition sys_uptime (s : clock) : Z := ticks s.

(** The timer case of trap on processor [cpuid]. *)
Definition timer (cpuid : Z) (s : clock) : clock :=
  if cpuid =? 0 then mkClock (u32 (ticks s + 1)) (total s + 1) (tickslock s) (map wake (tasks s)) else s.

Inductive event : Type :=
  | Timer (cpuid : Z)
  | Sleep (i : nat) (u : uctx)
  | FallAsleep (i : nat)
  | Resume (i : nat)
  | Kill (i : nat).

(** Process [i] did something that began with acquire(&tickslock); it still has the lock if it
    is about to fall asleep. *)
Definition under_lock (i : nat) (t : task) (s : clock) : clock :=
  mkClock (ticks s) (total s) (match at_ t with Checked => Some i | _ => None end) (<[i := t]> (tasks s)).

(** An event that can happen in a state. *)
Definition do_event (e : event) (s : clock) : option clock :=
  match e with
  | Timer cpuid =>
      match tickslock s with
      | Some _ => if cpuid =? 0 then None else Some s
      | None => Some (timer cpuid s)
      end
  | Sleep i u =>
      t ← tasks s !! i;
      match at_ t, tickslock s with
      | Outside, None | Returned _, None => Some (under_lock i (sys_sleep u s t) s)
      | _, _ => None
      end
  | FallAsleep i =>
      t ← tasks s !! i;
      match at_ t with
      | Checked => Some (under_lock i (move Asleep (ended t) t) s)
      | _ => None
      end
  | Resume i =>
      t ← tasks s !! i;
      match at_ t, tickslock s with
      | Woken, None => Some (under_lock i (sleep_loop s t) s)
      | _, _ => None
      end
  | Kill i =>
      t ← tasks s !! i;
      Some (mkClock (ticks s) (total s) (tickslock s) (<[i := kill_task (total s) t]> (tasks s)))
  end.
Fixpoint run (es : list event) (s : clock) : option clock :=
  match es with [] => Some s | e :: es => s' ← do_event e s; run es s' end.

Definition new_task : task := mkTask 0 0 false Outside 0 0 0.
Definition boot (procs : nat) : clock := mkClock 0 0 None (replicate procs new_task).

(** ** Sleepers are on time *)

Definition on_time (now : Z) (t : task) : Prop :=
  began t <= now /\
  match at_ t with
  | Outside => True
  | Checked | Asleep =>
      ticks0 t = u32 (began t) /\ (killed t = true -> killed_at t = now) /\ u32 (now - began t) < u32 (n t)
  | Woken => ticks0 t = u32 (began t)
  | Returned r => (r = 0 /\ u32 (n t) <= ended t - began t) \/ r = -1
  end.
Record clock_ok (s : clock) : Prop := {
  ck_ticks : ticks s = u32 (total s);
  ck_tasks : Forall (on_time (total s)) (tasks s);
  ck_lock : forall i, tickslock s = Some i <-> exists t, tasks s !! i = Some t /\ at_ t = Checked
}.

Lemma lock_free s i t : clock_ok s -> tickslock s = None -> tasks s !! i = Some t -> at_ t <> Checked.
Proof. intros [_ _ Hl] Hn Hi Hc. assert (Hs : tickslock s = Some i) by (apply Hl; by exists t). congruence. Qed.

Lemma sleep_loop_on_time s t : clock_ok s -> began t <= total s -> ticks0 t = u32 (began t) -> on_time (total s) (sleep_loop s t).
Proof.
  intros [Ht _ _] Hb E. unfold sleep_loop. rewrite Ht, E, u32_sub_l, u32_sub_r.
  destruct (Z.ltb_spec (u32 (total s - began t)) (u32 (n t))) as [Hlt|Hge].
  - destruct (killed t) eqn:Ek; (split; [done|]); cbn; [by right|]. rewrite Ek. by split_and!.
  - split; [done|]. cbn. left. split; [done|]. unfold u32 at 2 in Hge.
    pose proof (Z.mod_le (total s - began t) (2 ^ 32)). lia.
Qed.
Lemma sys_sleep_on_time u s i t : clock_ok s -> tasks s !! i = Some t -> on_time (total s) (sys_sleep u s t).
Proof.
  intros Hs Hi. unfold sys_sleep. destruct (argint u 0) as [a|].
  - apply sleep_loop_on_time; [done|cbn; lia|apply Hs].
  - destruct (Forall_lookup_1 _ _ _ _ (ck_tasks _ Hs) Hi) as [Hb _]. split; [exact Hb|]. by right.
Qed.

Lemma wake_on_time now now' t : now <= now' -> at_ t <> Checked -> on_time now t -> on_time now' (wake t).
Proof.
  unfold on_time, wake. intros Hle Hc [Hb Hx]. destruct (at_ t) eqn:E; cbn; rewrite ?E; (split; [lia|]); tauto.
Qed.
Lemma kill_on_time now t : on_time now t -> on_time now (kill_task now t).
Proof. unfold on_time, kill_task, wake. intros [Hb Hx]. destruct (at_ t); cbn; (split; [done|]); tauto. Qed.

Lemma wake_checked t : at_ (wake t) = Checked <-> at_ t = Checked.
Proof. unfold wake. destruct (at_ t) eqn:E; cbn; rewrite ?E; done. Qed.

(** Steps of one process: with the lock when it begins, or holding it. *)
Lemma under_lock_ok i t t0 s : clock_ok s -> tasks s !! i = Some t0 -> (tickslock s = None \/ at_ t0 = Checked) ->
  on_time (total s) t -> clock_ok (under_lock i t s).
Proof.
  intros [Ht Hl Hk] Hi Hh Hot. pose proof (lookup_lt_Some _ _ _ Hi) as Hlt.
  assert (Hoth : forall j tj, j <> i -> tasks s !! j = Some tj -> at_ tj <> Checked).
  { intros j tj Hne Hj Hc. assert (Hs : tickslock s = Some j) by (apply Hk; by exists tj).
    destruct Hh as [Hh|Hh]; [congruence|]. assert (tickslock s = Some i) by (apply Hk; by exists t0). congruence. }
  split; cbn [under_lock ticks total tasks tickslock]; [done|by apply Forall_insert|]. intros j. split.
  - intros E. assert (Hc : at_ t = Checked) by (by destruct (at_ t)). rewrite Hc in E. injection E as <-.
    exists t. split; [by apply list_lookup_insert_eq|done].
  - intros (tj & Hj & Hc). destruct (decide (j = i)) as [->|Hne].
    + rewrite list_lookup_insert_eq in Hj by done. injection Hj as <-. by rewrite Hc.
    + rewrite list_lookup_insert_ne in Hj by done. by destruct (Hoth j tj Hne Hj).
Qed.

Lemma event_ok e s s' : clock_ok s -> do_event e s = Some s' -> clock_ok s'.
Proof.
  intros Hs. pose proof Hs as [Ht Hl Hk]. destruct e as [cpuid|i u|i|i|i]; cbn [do_event].
  - destruct (tickslock s) as [j|] eqn:El; [by destruct (cpuid =? 0); intros [= <-]|]. intros [= <-].
    unfold timer. destruct (cpuid =? 0); [|done]. split; cbn [ticks total tasks tickslock].
    + by rewrite Ht, u32_add_l.
    + apply Forall_map, Forall_lookup. intros i t Hi. apply (wake_on_time (total s)); [lia|by eapply lock_free|].
      by eapply Forall_lookup_1.
    + intros i. rewrite El. split; [done|]. intros (t & Hi & Hc). rewrite list_lookup_fmap in Hi.
      destruct (tasks s !! i) as [t0|] eqn:Ei; [|done]. injection Hi as <-. apply (proj1 (wake_checked _)) in Hc.
      by destruct (lock_free s i t0 Hs El Ei).
  - destruct (tasks s !! i) as [t|] eqn:Ei; [|done]. cbn [mbind option_bind]. intros E.
    assert (E' : tickslock s = None /\ s' = under_lock i (sys_sleep u s t) s) by (destruct (at_ t), (tickslock s); split; congruence).
    destruct E' as [El ->]. apply (under_lock_ok i _ t); [done|done|by left|]. by eapply sys_sleep_on_time.
  - destruct (tasks s !! i) as [t|] eqn:Ei; [|done]. cbn [mbind option_bind].
    destruct (at_ t) eqn:Ea; try done. intros [= <-]. apply (under_lock_ok i _ t); [done|done|by right|].
    destruct (Forall_lookup_1 _ _ _ _ Hl Ei) as [Hb Hx]. rewrite Ea in Hx. by split.
  - destruct (tasks s !! i) as [t|] eqn:Ei; [|done]. cbn [mbind option_bind]. destruct (Forall_lookup_1 _ _ _ _ Hl Ei) as [Hb Hx].
    destruct (at_ t) eqn:Ea; try done. destruct (tickslock s) eqn:El; [done|]. intros [= <-].
    apply (under_lock_ok i _ t); [done|done|by left|]. by apply sleep_loop_on_time.
  - destruct (tasks s !! i) as [t|] eqn:Ei; [|done]. cbn [mbind option_bind]. intros [= <-].
    split; cbn [ticks total tasks tickslock]; [done| |].
    + apply Forall_insert; [done|]. apply kill_on_time. by eapply Forall_lookup_1.
    + intros j. rewrite Hk. destruct (decide (j = i)) as [->|Hne]; [|by rewrite list_lookup_insert_ne].
      rewrite list_lookup_insert_eq by (by eapply lookup_lt_Some). rewrite Ei. split.
      * intros (t' & [= <-] & Hc). eexists. split; [done|]. unfold kill_task. by apply (proj2 (wake_checked _)).
      * intros (t' & [= <-] & Hc). exists t. split; [done|]. unfold kill_task in Hc. by apply (proj1 (wake_checked _)) in Hc.
Qed.

Lemma run_clock_ok es : forall s s', clock_ok s -> run es s = Some s' -> clock_ok s'.
Proof.
  induction es as [|e es IH]; intros s s' Hs; cbn [run]; [by intros [= <-]|].
  destruct (do_event e s) as [s1|] eqn:E; [|done]. cbn. apply IH. by eapply event_ok.
Qed.

(** The ticks a sequence of events counts. *)
Fixpoint counted (es : list event) : Z :=
  match es with
  | [] => 0
  | Timer cpuid :: es => (if cpuid =? 0 then 1 else 0) + counted es
  | _ :: es => counted es
  end.
Lemma event_total e s s' : do_event e s = Some s' -> total s' = total s + counted [e].
Proof.
  destruct e as [c|i u|i|i|i]; cbn [do_event counted].
  1: unfold timer; destruct (tickslock s), (c =? 0); intros E; simplify_eq; cbn; lia.
  all: destruct (tasks s !! i) as [t|]; [|done]; cbn [mbind option_bind]; destruct (at_ t), (tickslock s); intros E; simplify_eq;
    cbn [total under_lock]; lia.
Qed.
Lemma run_total es : forall s s', run es s = Some s' -> total s' = total s + counted es.
Proof.
  induction es as [|e es IH]; intros s s'; cbn [run]; [intros [= <-]; cbn; lia|].
  destruct (do_event e s) as [s1|] eqn:E; [|done]. cbn [mbind option_bind]. intros Hr. rewrite (IH _ _ Hr), (event_total e s s1 E).
  destruct e; cbn [counted]; lia.
Qed.

Lemma boot_clock_ok procs : clock_ok (boot procs).
Proof.
  split; [done|by apply Forall_replicate|]. intros i. split; [done|].
  by intros (t & [-> _]%lookup_replicate & Hc).
Qed.

(** A woken process that runs: it returns when its ticks have passed or it was killed. *)
Lemma resume_runs i t s : tasks s !! i = Some t -> at_ t = Woken -> tickslock s = None ->
  exists s', do_event (Resume i) s = Some s' /\ at_ <$> tasks s' !! i = Some (at_ (sleep_loop s t)).
Proof.
  intros Hi E El. cbn [do_event]. rewrite Hi. cbn [mbind option_bind]. rewrite E, El. eexists. split; [done|].
  cbn [tasks under_lock]. by rewrite list_lookup_insert_eq by (by eapply lookup_lt_Some).
Qed.

(** C25: in any interleaving of timer interrupts, calls of sys_sleep, fallings asleep, wakings
    and kills, with kill free to come between the test of the killed flag and the falling
    asleep, and with ticks wrapping around: the counter is right; no process sleeps whose ticks
    have passed; a process that sleeps although it has been killed was killed with no tick
    counted since, and the next tick wakes it as it wakes every sleeper; none returns 0 before
    its ticks have passed; a woken one that runs returns 0 if its ticks have passed, and returns
    in any case if it was killed; and whoever holds tickslock can fall asleep, which frees it.
    (Two spans of ticks are compared as long as they are below 2^32.) *)
Theorem sleepers_on_time procs es s : run es (boot procs) = Some s ->
  sys_uptime s = u32 (counted es) /\
  (forall i t, tasks s !! i = Some t ->
    (at_ t = Asleep ->
       (counted es - began t < 2 ^ 32 -> counted es - began t < u32 (n t)) /\
       (killed t = true -> killed_at t = counted es) /\
       (tickslock s = None -> exists s', do_event (Timer 0) s = Some s' /\ at_ <$> tasks s' !! i = Some Woken)) /\
    (at_ t = Returned 0 -> u32 (n t) <= ended t - began t) /\
    (at_ t = Woken -> tickslock s = None ->
       exists s' x, do_event (Resume i) s = Some s' /\ at_ <$> tasks s' !! i = Some x /\
         (u32 (n t) <= counted es - began t < 2 ^ 32 -> x = Returned 0) /\
         (killed t = true -> x = Returned 0 \/ x = Returned (-1)))) /\
  (forall i, tickslock s = Some i -> exists s', do_event (FallAsleep i) s = Some s' /\ tickslock s' = None).
Proof.
  intros Hr. pose proof (run_clock_ok es _ _ (boot_clock_ok procs) Hr) as [Ht Hl Hk]. pose proof (run_total es _ _ Hr) as Htot.
  cbn [boot total] in Htot. rewrite Z.add_0_l in Htot. split_and!; [unfold sys_uptime; congruence| |].
  - intros i t Hi. rewrite <- Htot. destruct (Forall_lookup_1 _ _ _ _ Hl Hi) as [Hb Hx]. split_and!.
    + intros E. rewrite E in Hx. destruct Hx as (_ & Hkl & Hlt). split_and!.
      * intros Hsm. by rewrite u32_small in Hlt by lia.
      * exact Hkl.
      * intros El. cbn [do_event]. rewrite El. eexists. split; [done|]. unfold timer. cbn [Z.eqb tasks].
        rewrite list_lookup_fmap, Hi. unfold wake. cbn. by rewrite E.
    + intros E. rewrite E in Hx. by destruct Hx as [[_ Hx]|?].
    + intros E El. rewrite E in Hx. destruct (resume_runs i t s Hi E El) as (s' & E1 & E2).
      exists s', (at_ (sleep_loop s t)). split_and!; [done|done| |].
      * intros Hn. unfold sleep_loop. rewrite Ht, Hx, u32_sub_l, u32_sub_r, (u32_small (total s - began t)) by lia.
        by rewrite (proj2 (Z.ltb_ge (total s - began t) (u32 (n t)))) by lia.
      * intros Hkt. unfold sleep_loop. rewrite Hkt. destruct (_ <? _); [by right|by left].
  - intros i (t & Hi & Hc)%Hk. cbn [do_event]. rewrite Hi. cbn [mbind option_bind]. rewrite Hc. by eexists.
Qed.

(** Two processes sleep 2 ticks, one is killed between its test and its sleep and sleeps on; the
    next tick wakes both, and it returns -1; the other wakes twice. *)
Definition two_ticks : uctx := mkUctx 4096 100 (fun a => if a =? 104 then 2 else 0).
Definition clock_session : list event :=
  [Timer 0; Sleep 0 two_ticks; FallAsleep 0; Sleep 1 two_ticks; Kill 1; Timer 1; FallAsleep 1].
Definition clock_session' : list event := clock_session ++ [Timer 0; Resume 1; Resume 0; FallAsleep 0; Timer 0].

Example killed_in_the_gap :
  match run clock_session (boot 2) with
  | Some s => (fun t => (at_ t, killed t)) <$> tasks s !! 1%nat = Some (Asleep, true)
  | None => False
  end.
Proof. by vm_compute. Qed.

Lemma sleepers_on_time_witness :
  (exists s s', run clock_session (boot 2) = Some s /\ killed_at <$> tasks s !! 1%nat = Some 1 /\
     do_event (Timer 0) s = Some s' /\ at_ <$> tasks s' !! 1%nat = Some Woken) /\
  (exists s s', run clock_session' (boot 2) = Some s /\ sys_uptime s = 3 /\ at_ <$> tasks s !! 1%nat = Some (Returned (-1)) /\
     do_event (Resume 0) s = Some s' /\ at_ <$> tasks s' !! 0%nat = Some (Returned 0)).
Proof.
  split.
  - destruct (run clock_session (boot 2)) as [s|] eqn:E; [|by vm_compute in E].
    destruct (sleepers_on_time 2 clock_session s E) as (_ & Hall & _).
    assert (Hs : s = mkClock 1 1 None [mkTask 2 1 false Asleep 1 1 0; mkTask 2 1 true Asleep 1 1 1]) by (vm_compute in E; congruence).
    destruct (Hall 1%nat (mkTask 2 1 true Asleep 1 1 1)) as (Ha & _); [by rewrite Hs|].
    destruct (Ha eq_refl) as (_ & Hk & Hw). destruct Hw as (s' & E1 & E2); [by rewrite Hs|].
    exists s, s'. split; [done|]. split; [|by split]. rewrite Hs. cbn. f_equal.
  - destruct (run clock_session' (boot 2)) as [s|] eqn:E; [|by vm_compute in E].
    destruct (sleepers_on_time 2 clock_session' s E) as (Hu & Hall & _).
    assert (Hs : s = mkClock 3 3 None [mkTask 2 1 false Woken 1 2 0; mkTask 2 1 true (Returned (-1)) 1 2 1]) by (vm_compute in E; congruence).
    destruct (Hall O (mkTask 2 1 false Woken 1 2 0)) as (_ & _ & Hw); [by rewrite Hs|].
    destruct (Hw eq_refl) as (s' & x & E1 & E2 & Hx & _); [by rewrite Hs|].
    exists s, s'. split; [done|]. split; [by rewrite Hu|]. split; [by rewrite Hs|]. split; [done|].
    rewrite E2, Hx; [done|by vm_compute].
Defined.
