(* ===== verification/Console.v ===== *)
(** * Console: line editing between the keyboard and its readers (offline_4/xv6/console.c)

    consoleintr runs under cons.lock, and consoleread holds it except while it sleeps, so a
    call of the first and a section of the second (to its next sleep, or its return) are steps
    that interleave in any order. What goes to consputc is collected in a list. *)

From S2P Require Import Prelude.

Definition INPUT_BUF : Z := 128.
Definition BACKSPACE : Z := 256.
(** C('P'), C('U'), C('H'), C('D'), '\x7f', '\n' and '\r'. *)
Definition ctrl_p : Z := 16.
Definition ctrl_u : Z := 21.
Definition ctrl_h : Z := 8.
Definition ctrl_d : Z := 4.
Definition delete : Z := 127.
Definition newline : Z := 10.
Definition return_ : Z := 13.

Record input : Type := mkInput {
  buf : list Z;
  r : Z;
  w : Z;
  e : Z;
  (** Whether a reader sleeps on &input.r. *)
  asleep : bool
}.

Definition slot (x : Z) : nat := Z.to_nat (x mod INPUT_BUF).
Definition set_e (n : Z) (i : input) : input := mkInput (buf i) (r i) (w i) n (asleep i).

(** The loop of C('U'). *)
Fixpoint kill_line (fuel : nat) (i : input) : input * list Z :=
  match fuel with
  | O => (i, [])
  | S fuel =>
      if negb (e i =? w i) && negb (nth (slot (u32 (e i - 1))) (buf i) 0 =? newline)
      then let '(i, out) := kill_line fuel (set_e (u32 (e i - 1)) i) in (i, BACKSPACE :: out)
      else (i, [])
  end.

(** consoleintr's switch on one character, which is not negative. *)
Definition key (c : Z) (i : input) : input * list Z :=
  if c =? ctrl_p then (i, [])
  else if c =? ctrl_u then kill_line (Z.to_nat INPUT_BUF) i
  else if (c =? ctrl_h) || (c =? delete) then
    if negb (e i =? w i) then (set_e (u32 (e i - 1)) i, [BACKSPACE]) else (i, [])
  else if negb (c =? 0) && (u32 (e i - r i) <? INPUT_BUF) then
    let c := if c =? return_ then newline else c in
    let i := mkInput (<[slot (e i) := u8 c]> (buf i)) (r i) (w i) (u32 (e i + 1)) (asleep i) in
    (if (c =? newline) || (c =? ctrl_d) || (e i =? u32 (r i + INPUT_BUF))
     then mkInput (buf i) (r i) (e i) (e i) false
     else i, [c])
  else (i, []).

(** consoleintr on what getc returns until it has no more; the flag is doprocdump. *)
Fixpoint consoleintr (cs : list Z) (i : input) : input * list Z * bool :=
  match cs with
  | [] => (i, [], false)
  | c :: cs =>
      let '(i, out) := key c i in
      let '(i, out', dump) := consoleintr cs i in
      (i, out ++ out', (c =? ctrl_p) || dump)
  end.

(** How a section of consoleread ends: with the value target - n, or asleep; both with the
    bytes it stored. *)
Inductive read_end : Type :=
  | Done (got : list Z)
  | Killed (got : list Z)
  | Asleep (got : list Z).
Definition got_of (x : read_end) : list Z := match x with Done l | Killed l | Asleep l => l end.
Definition prepend (c : Z) (x : input * read_end) : input * read_end :=
  (x.1, match x.2 with Done l => Done (c :: l) | Killed l => Killed (c :: l) | Asleep l => Asleep (c :: l) end).

(** A section of consoleread with [n] bytes to go; [some] is n < target. *)
Fixpoint consoleread (killed some : bool) (n : nat) (i : input) : input * read_end :=
  match n with
  | O => (i, Done [])
  | S n =>
      if r i =? w i then
        if killed then (i, Killed []) else (mkInput (buf i) (r i) (w i) (e i) true, Asleep [])
      else
        let c := nth (slot (r i)) (buf i) 0 in
        let i' := mkInput (buf i) (u32 (r i + 1)) (w i) (e i) (asleep i) in
        if c =? ctrl_d then
          (if some then mkInput (buf i') (u32 (r i' - 1)) (w i') (e i') (asleep i') else i', Done [])
        else if c =? newline then (i', Done [c])
        else prepend c (consoleread killed true n i')
  end.

(** ** The line discipline *)

(** What readers can have, and the line being edited. *)
Record editor : Type := mkEditor { ready : list Z; line : list Z }.

Definition spec_key (c : Z) (s : editor) : editor * list Z :=
  if c =? ctrl_p then (s, [])
  else if c =? ctrl_u then (mkEditor (ready s) [], replicate (length (line s)) BACKSPACE)
  else if (c =? ctrl_h) || (c =? delete) then
    (mkEditor (ready s) (take (pred (length (line s))) (line s)), match line s with [] => [] | _ => [BACKSPACE] end)
  else if negb (c =? 0) && (Z.of_nat (length (ready s) + length (line s)) <? INPUT_BUF) then
    let c := if c =? return_ then newline else c in
    let l := line s ++ [u8 c] in
    (if (c =? newline) || (c =? ctrl_d) || (Z.of_nat (length (ready s) + length l) =? INPUT_BUF)
     then mkEditor (ready s ++ l) []
     else mkEditor (ready s) l, [c])
  else (s, []).

(** A read takes bytes up to a newline, an end of file, or its length. *)
Fixpoint spec_read (killed some : bool) (n : nat) (ready : list Z) : list Z * read_end :=
  match n with
  | O => (ready, Done [])
  | S n =>
      match ready with
      | [] => ([], if killed then Killed [] else Asleep [])
      | c :: ready' =>
          if c =? ctrl_d then (if some then ready else ready', Done [])
          else if c =? newline then (ready', Done [c])
          else let '(q, x) := spec_read killed true n ready' in
               (q, match x with Done l => Done (c :: l) | Killed l => Killed (c :: l) | Asleep l => Asleep (c :: l) end)
      end
  end.

(** The ring holds the bytes of the editor, those of the line after the ready ones. *)
Record edits (i : input) (s : editor) : Prop := {
  ed_buf : length (buf i) = Z.to_nat INPUT_BUF;
  ed_room : Z.of_nat (length (ready s) + length (line s)) <= INPUT_BUF;
  ed_r : 0 <= r i < 2 ^ 32;
  ed_w : w i = u32 (r i + Z.of_nat (length (ready s)));
  ed_e : e i = u32 (r i + Z.of_nat (length (ready s) + length (line s)));
  ed_bytes : forall k b, (ready s ++ line s) !! k = Some b -> buf i !! slot (r i + Z.of_nat k) = Some b;
  ed_line : newline ∉ line s;
  ed_full : Z.of_nat (length (ready s) + length (line s)) = INPUT_BUF -> line s = [];
  ed_asleep : asleep i = true -> ready s = []
}.

Lemma slot_u32 x : slot (u32 x) = slot x.
Proof. unfold slot, u32, INPUT_BUF. f_equal. dlia. Qed.

Ltac ring_arith := unfold u32, INPUT_BUF in *; dlia.

Section Editing.
Context (i : input) (s : editor) (H : edits i s).

Lemma e_is_w : (e i =? w i) = bool_decide (line s = []).
Proof.
  destruct H as [_ Hroom Hr Hw He _ _ _ _]. rewrite Hw, He. clear Hw He.
  destruct (line s) as [|c l]; cbn [length] in *; [rewrite bool_decide_eq_true_2 by done|rewrite bool_decide_eq_false_2 by done]; ring_arith.
Qed.
Lemma r_is_w : (r i =? w i) = bool_decide (ready s = []).
Proof.
  destruct H as [_ Hroom Hr Hw He _ _ _ _]. rewrite Hw. clear Hw He.
  destruct (ready s) as [|c l]; cbn [length] in *; [rewrite bool_decide_eq_true_2 by done|rewrite bool_decide_eq_false_2 by done]; ring_arith.
Qed.
Lemma used : u32 (e i - r i) = Z.of_nat (length (ready s) + length (line s)).
Proof. destruct H as [_ Hroom Hr Hw He _ _ _ _]. rewrite He. clear Hw He. ring_arith. Qed.

Lemma edits_back c l : line s = l ++ [c] -> edits (set_e (u32 (e i - 1)) i) (mkEditor (ready s) l) /\
  nth (slot (u32 (e i - 1))) (buf i) 0 = c.
Proof.
  intros El. destruct H as [Hb Hroom Hr Hw He Hbytes Hline Hfull Ha]. rewrite El in *. rewrite length_app in *. cbn [length] in *. split.
  - split; cbn [set_e buf r w e asleep ready line]; try done; try lia.
    + rewrite He. clear Hw He. ring_arith.
    + intros k b Hk. apply Hbytes. rewrite app_assoc. by apply lookup_app_l_Some.
    + intros Hn. apply Hline. set_solver.
  - rewrite He, u32_sub_l, slot_u32. apply nth_lookup_Some.
    replace (r i + Z.of_nat (length (ready s) + (length l + 1)) - 1) with (r i + Z.of_nat (length (ready s) + length l)) by lia.
    apply Hbytes. rewrite app_assoc, lookup_app_r by (rewrite length_app; lia). rewrite length_app, Nat.sub_diag. done.
Qed.
End Editing.

Lemma kill_line_spec fuel : forall i s, edits i s -> (length (line s) <= fuel)%nat ->
  exists i', kill_line fuel i = (i', replicate (length (line s)) BACKSPACE) /\ edits i' (mkEditor (ready s) []).
Proof.
  induction fuel as [|fuel IH]; intros i [rd l] H Hf; cbn [ready line kill_line] in *.
  - assert (l = []) as -> by (apply nil_length_inv; lia). by exists i.
  - rewrite (e_is_w i _ H). cbn [line]. destruct l as [|c l] using rev_ind; [by exists i|]. clear IHl.
    rewrite bool_decide_eq_false_2 by (by destruct l). destruct (edits_back i _ H c l eq_refl) as [Hb Hc]. rewrite Hc.
    replace (negb (c =? newline)) with true.
    2:{ symmetry. apply negb_true_iff, Z.eqb_neq. intros ->. apply (ed_line _ _ H). cbn [line]. set_solver. }
    cbn [negb andb]. rewrite length_app in Hf. cbn [length] in Hf.
    destruct (IH _ _ Hb ltac:(cbn [line]; lia)) as (i' & -> & Hi'). exists i'. split; [|done]. cbn [line].
    by rewrite length_app, Nat.add_comm.
Qed.

(** A byte goes to the end of the line. *)
Lemma edits_insert i s c : edits i s -> Z.of_nat (length (ready s) + length (line s)) < INPUT_BUF -> c <> newline ->
  Z.of_nat (length (ready s) + length (line s ++ [c])) <> INPUT_BUF ->
  edits (mkInput (<[slot (e i) := c]> (buf i)) (r i) (w i) (u32 (e i + 1)) (asleep i)) (mkEditor (ready s) (line s ++ [c])).
Proof.
  intros [Hb Hroom Hr Hw He Hbytes Hline Hfull Ha] Hlt Hc Hne. split; cbn [buf r w e asleep ready line]; rewrite ?length_insert; try done.
  - rewrite length_app in *. cbn [length] in *. lia.
  - rewrite He, length_app. cbn [length]. clear Hw He. ring_arith.
  - intros k b Hk. rewrite app_assoc in Hk. apply lookup_snoc_Some in Hk as [[Hk Hl]|[-> ->]]; rewrite length_app in *.
    + rewrite list_lookup_insert_ne; [by apply Hbytes|]. rewrite He, slot_u32. unfold slot, INPUT_BUF in *. dlia.
    + rewrite He, slot_u32. apply list_lookup_insert_eq. rewrite Hb. unfold slot, INPUT_BUF in *. dlia.
  - rewrite elem_of_app, list_elem_of_singleton. naive_solver.
Qed.
(** The same, when that makes the line ready. *)
Lemma edits_commit i s c : edits i s -> Z.of_nat (length (ready s) + length (line s)) < INPUT_BUF ->
  edits (mkInput (<[slot (e i) := c]> (buf i)) (r i) (u32 (e i + 1)) (u32 (e i + 1)) false) (mkEditor (ready s ++ line s ++ [c]) []).
Proof.
  intros [Hb Hroom Hr Hw He Hbytes Hline Hfull Ha] Hlt.
  split; cbn [buf r w e asleep ready line]; rewrite ?length_insert, ?app_nil_r; try done; rewrite ?length_app; cbn [length]; try lia; try apply not_elem_of_nil.
  - rewrite He. clear Hw He. ring_arith.
  - rewrite He. clear Hw He. ring_arith.
  - intros k b Hk. rewrite app_assoc in Hk. apply lookup_snoc_Some in Hk as [[Hk Hl]|[-> ->]]; rewrite length_app in *.
    + rewrite list_lookup_insert_ne; [by apply Hbytes|]. rewrite He, slot_u32. unfold slot, INPUT_BUF in *. dlia.
    + rewrite He, slot_u32. apply list_lookup_insert_eq. rewrite Hb. unfold slot, INPUT_BUF in *. dlia.
Qed.

Lemma key_spec c i s : edits i s -> 0 <= c < 256 -> edits (key c i).1 (spec_key c s).1 /\ (key c i).2 = (spec_key c s).2.
Proof.
  intros H Hc0. unfold key, spec_key. destruct (c =? ctrl_p); [done|]. destruct (c =? ctrl_u).
  { destruct (kill_line_spec (Z.to_nat INPUT_BUF) i s H) as (i' & -> & Hi'); [|done]. pose proof (ed_room _ _ H). lia. }
  destruct ((c =? ctrl_h) || (c =? delete)).
  { rewrite (e_is_w i s H). destruct s as [rd l]. cbn [line ready]. destruct l as [|x l] using rev_ind; [done|]. clear IHl.
    rewrite bool_decide_eq_false_2 by (by destruct l). cbn [negb fst snd].
    destruct (edits_back i _ H x l eq_refl) as [Hb _]. rewrite length_app, Nat.add_comm. cbn [length Nat.add pred].
    rewrite take_app_length. split; [done|]. by destruct l. }
  rewrite (used i s H). destruct (negb (c =? 0) && _) eqn:Ec; [|done]. apply andb_true_iff in Ec as [_ Hlt%Z.ltb_lt].
  set (c' := if c =? return_ then newline else c). cbn zeta.
  assert (Hfull : (u32 (e i + 1) =? u32 (r i + INPUT_BUF)) = (Z.of_nat (length (ready s) + length (line s ++ [u8 c'])) =? INPUT_BUF)).
  { rewrite length_app. cbn [length]. destruct H as [_ _ Hr _ He _ _ _ _]. rewrite He, u32_add_l. clear He.
    apply Bool.eq_true_iff_eq. rewrite !Z.eqb_eq. ring_arith. }
  cbn [e r]. rewrite Hfull. destruct (_ || (_ =? INPUT_BUF)) eqn:Ecommit; cbn [fst snd buf r w e asleep].
  - split; [|done]. by apply edits_commit.
  - split; [|done]. apply orb_false_iff in Ecommit as [[Hn Hd]%orb_false_iff Hne%Z.eqb_neq]. apply edits_insert; try done.
    rewrite u8_small by (unfold c', return_, newline; destruct (c =? 13); lia). lia.
Qed.

Lemma edits_pop i c rd l : edits i (mkEditor (c :: rd) l) ->
  nth (slot (r i)) (buf i) 0 = c /\ edits (mkInput (buf i) (u32 (r i + 1)) (w i) (e i) (asleep i)) (mkEditor rd l).
Proof.
  intros [Hb Hroom Hr Hw He Hbytes Hline Hfull Ha]. cbn [ready line app length] in *. split.
  - apply nth_lookup_Some. specialize (Hbytes O c eq_refl). by rewrite Z.add_0_r in Hbytes.
  - split; cbn [buf r w e asleep ready line]; try done; try lia.
    + apply u32_range.
    + rewrite Hw, u32_add_l. f_equal. lia.
    + rewrite He, u32_add_l. f_equal. lia.
    + intros k b Hk. specialize (Hbytes (S k) b Hk). rewrite <- Hbytes. f_equal. unfold slot, u32, INPUT_BUF. f_equal. dlia.
    + intros E. by apply Ha in E.
Qed.

Lemma read_spec killed n : forall some i rd l, edits i (mkEditor rd l) ->
  (consoleread killed some n i).2 = (spec_read killed some n rd).2 /\
  edits (consoleread killed some n i).1 (mkEditor (spec_read killed some n rd).1 l).
Proof.
  induction n as [|n IH]; intros some i rd l H; cbn [consoleread spec_read]; [done|].
  rewrite (r_is_w i _ H). cbn [ready]. destruct rd as [|c rd].
  - rewrite bool_decide_eq_true_2 by done. destruct killed; [done|]. split; [done|].
    destruct H as [Hb Hroom Hr Hw He Hbytes Hline Hfull Ha]. by split.
  - rewrite bool_decide_eq_false_2 by done. destruct (edits_pop i c rd l H) as [-> Hpop].
    destruct (c =? ctrl_d).
    + destruct some; [|done]. split; [done|]. cbn [fst buf r w e asleep]. replace (u32 (u32 (r i + 1) - 1)) with (r i).
      * cbn [buf r w e asleep]. by destruct i.
      * pose proof (ed_r _ _ H). unfold u32. dlia.
    + destruct (c =? newline); [done|]. destruct (IH true _ rd l Hpop) as [E1 E2]. unfold prepend. cbn [fst snd]. rewrite E1.
      destruct (spec_read killed true n rd) as [q x]. done.
Qed.

(** ** Any interleaving of keys and readers *)

Inductive event : Type :=
  | Keys (cs : list Z)
  | Read (killed some : bool) (n : nat).
(** What an event shows: the echo, and whether the processes are to be listed; or the end of a
    section of a read. *)
Inductive shown : Type :=
  | Echo (out : list Z) (dump : bool)
  | Result (x : read_end).

Definition do_event (ev : event) (i : input) : input * shown :=
  match ev with
  | Keys cs => let '(i, out, dump) := consoleintr cs i in (i, Echo out dump)
  | Read killed some n => let '(i, x) := consoleread killed some n i in (i, Result x)
  end.
Fixpoint run (evs : list event) (i : input) : input * list shown :=
  match evs with
  | [] => (i, [])
  | ev :: evs => let '(i, x) := do_event ev i in let '(i, xs) := run evs i in (i, x :: xs)
  end.

Fixpoint spec_keys (cs : list Z) (s : editor) : editor * list Z * bool :=
  match cs with
  | [] => (s, [], false)
  | c :: cs =>
      let '(s, out) := spec_key c s in
      let '(s, out', dump) := spec_keys cs s in
      (s, out ++ out', (c =? ctrl_p) || dump)
  end.
Definition spec_event (ev : event) (s : editor) : editor * shown :=
  match ev with
  | Keys cs => let '(s, out, dump) := spec_keys cs s in (s, Echo out dump)
  | Read killed some n => let '(q, x) := spec_read killed some n (ready s) in (mkEditor q (line s), Result x)
  end.
Fixpoint spec_run (evs : list event) (s : editor) : editor * list shown :=
  match evs with
  | [] => (s, [])
  | ev :: evs => let '(s, x) := spec_event ev s in let '(s, xs) := spec_run evs s in (s, x :: xs)
  end.

Definition typed (ev : event) : Prop := match ev with Keys cs => Forall (fun c => 0 <= c < 256) cs | _ => True end.
Definition empty_input (page : list Z) : input := mkInput page 0 0 0 false.

Lemma keys_spec cs : forall i s, edits i s -> Forall (fun c => 0 <= c < 256) cs ->
  edits (consoleintr cs i).1.1 (spec_keys cs s).1.1 /\ (consoleintr cs i).1.2 = (spec_keys cs s).1.2 /\ (consoleintr cs i).2 = (spec_keys cs s).2.
Proof.
  induction cs as [|c cs IH]; intros i s H Hcs; cbn [consoleintr spec_keys]; [done|]. apply Forall_cons in Hcs as [Hc Hcs].
  destruct (key_spec c i s H Hc) as [H1 E1]. destruct (key c i) as [i1 o1], (spec_key c s) as [s1 o1']. cbn [fst snd] in *. subst o1'.
  destruct (IH i1 s1 H1 Hcs) as (H2 & E2 & E3). destruct (consoleintr cs i1) as [[i2 o2] d2], (spec_keys cs s1) as [[s2 o2'] d2'].
  cbn [fst snd] in *. subst. done.
Qed.

(** C32: in any interleaving of key strokes and of the sections of any number of readers, the
    console with its ring of INPUT_BUF bytes and its three wrapping indices shows what the
    line discipline shows on two lists: the same echo, the same bytes to every read, readers
    asleep when nothing is ready and only then. *)
Theorem console_refines page evs : length page = Z.to_nat INPUT_BUF -> Forall typed evs ->
  (run evs (empty_input page)).2 = (spec_run evs (mkEditor [] [])).2 /\
  edits (run evs (empty_input page)).1 (spec_run evs (mkEditor [] [])).1.
Proof.
  intros Hl. assert (H0 : edits (empty_input page) (mkEditor [] [])) by (split; try done; apply not_elem_of_nil).
  revert H0. generalize (empty_input page) (mkEditor [] []).
  induction evs as [|ev evs IH]; intros i s H Hev; cbn [run spec_run]; [done|]. apply Forall_cons in Hev as [He Hev].
  assert (H1 : edits (do_event ev i).1 (spec_event ev s).1 /\ (do_event ev i).2 = (spec_event ev s).2).
  { destruct ev as [cs|killed some n]; cbn [do_event spec_event].
    - destruct (keys_spec cs i s H He) as (H1 & E1 & E2). destruct (consoleintr cs i) as [[i1 o1] d1], (spec_keys cs s) as [[s1 o2] d2].
      cbn [fst snd] in *. by subst.
    - destruct s as [rd l]. destruct (read_spec killed n some i rd l H) as [E1 H1]. cbn [ready line].
      destruct (consoleread killed some n i) as [i1 x1], (spec_read killed some n rd) as [q x2]. cbn [fst snd] in *. by subst. }
  destruct H1 as [H1 E1]. destruct (do_event ev i) as [i1 x1], (spec_event ev s) as [s1 x2]. cbn [fst snd] in *. subst x2.
  destruct (IH i1 s1 H1 Hev) as [E2 H2]. destruct (run evs i1) as [i2 xs1], (spec_run evs s1) as [s2 xs2]. cbn [fst snd] in *. by subst.
Qed.

(** "lx", backspace, "s", return; a reader that slept takes the line; "rm x" is killed; then an
    end of file. *)
Definition typing : list event :=
  [Read false false 100; Keys [108; 120; 8; 115; 13]; Read false false 100; Keys [114; 109; 32; 120; 21; 4]; Read false false 100].

Lemma console_refines_witness :
  (run typing (empty_input (replicate 128 0))).2 =
    [Result (Asleep []); Echo [108; 120; BACKSPACE; 115; 10] false; Result (Done [108; 115; 10]);
     Echo [114; 109; 32; 120; BACKSPACE; BACKSPACE; BACKSPACE; BACKSPACE; 4] false; Result (Done [])] /\
  (run typing (empty_input (replicate 128 0))).2 = (spec_run typing (mkEditor [] [])).2.
Proof.
  split; [vm_compute; reflexivity|]. apply (console_refines (replicate 128 0) typing); [reflexivity|].
  repeat constructor; lia.
Defined.

(** ** The screen *)

Definition COLS : Z := 80.
Definition ROWS : Z := 25.

(** CGA memory as a list of cells, and the cursor the controller keeps. *)
Record screen : Type := mkScreen { crt : list Z; cursor : Z }.

Definition set_cell (pos c : Z) (cells : list Z) : list Z := <[Z.to_nat pos := c]> cells.
(** memset(crt+pos, 0, ...) up to the cell [last]. *)
Definition clear_cells (pos last : Z) (cells : list Z) : list Z :=
  take (Z.to_nat pos) cells ++ replicate (Z.to_nat (last - pos)) 0 ++ drop (Z.to_nat last) cells.

Definition cgaputc (c : Z) : M screen unit := fun s =>
  let pos := cursor s in
  let '(cells, pos) :=
    if c =? newline then (crt s, pos + (COLS - pos mod COLS))
    else if c =? BACKSPACE then (crt s, if 0 <? pos then pos - 1 else pos)
    else (set_cell pos (Z.lor (Z.land c 255) 1792) (crt s), pos + 1) in
  if (pos <? 0) || (ROWS * COLS <? pos) then Panic "pos under/overflow"
  else
    let '(cells, pos) :=
      if 24 <=? pos / COLS
      then let cells := take (Z.to_nat (23 * COLS)) (drop (Z.to_nat COLS) cells) ++ drop (Z.to_nat (23 * COLS)) cells in
           let pos := pos - COLS in
           (clear_cells pos (24 * COLS) cells, pos)
      else (cells, pos) in
    Ret tt (mkScreen (set_cell pos (Z.lor 32 1792) cells) pos).

(** consputc: what goes to the serial port, and the screen; the test of panicked is left out. *)
Definition consputc (c : Z) : M screen (list Z) :=
  cgaputc c;;
  ret (if c =? BACKSPACE then [8; 32; 8] else [c]).

Fixpoint consputs (cs : list Z) : M screen (list Z) :=
  match cs with
  | [] => ret []
  | c :: cs => a ← consputc c; b ← consputs cs; ret (a ++ b)
  end.
(** consolewrite: every byte of the buffer; the value is its length. *)
Definition consolewrite (bytes : list Z) : M screen Z :=
  consputs (map (fun c => Z.land c 255) bytes);; ret (Z.of_nat (length bytes)).

Definition on_screen (s : screen) : Prop := length (crt s) = Z.to_nat (ROWS * COLS) /\ 0 <= cursor s < 24 * COLS.

Lemma cgaputc_on_screen c s : on_screen s -> returns (cgaputc c) s (fun _ s' => on_screen s').
Proof.
  intros [Hl Hc]. unfold returns, cgaputc.
  assert (Hstep : exists cells pos, (if c =? newline then (crt s, cursor s + (COLS - cursor s mod COLS))
    else if c =? BACKSPACE then (crt s, if 0 <? cursor s then cursor s - 1 else cursor s)
    else (set_cell (cursor s) (Z.lor (Z.land c 255) 1792) (crt s), cursor s + 1)) = (cells, pos) /\
    length cells = Z.to_nat (ROWS * COLS) /\ 0 <= pos <= 24 * COLS).
  { unfold COLS, ROWS, set_cell in *. destruct (c =? newline); [|destruct (c =? BACKSPACE); [destruct (Z.ltb_spec 0 (cursor s))|]];
      eexists _, _; split_and!; try done; rewrite ?length_insert; try done; dlia. }
  destruct Hstep as (cells & pos & -> & Hlen & Hpos). unfold ROWS, COLS in *.
  replace ((pos <? 0) || (25 * 80 <? pos)) with false by lia.
  destruct (Z.leb_spec 24 (pos / 80)); unfold on_screen, set_cell, clear_cells, ROWS, COLS; cbn [crt cursor]; rewrite !length_insert.
  - rewrite !length_app, !length_take, !length_app, !length_take, length_replicate, !length_drop, !length_app, !length_take, !length_drop.
    rewrite Hlen. split; dlia.
  - split; [done|dlia].
Qed.

(** whatever is written to the console, cgaputc never panics and the cursor stays on the
    first 24 lines of the screen, whose memory keeps its size; the call returns the number of
    bytes it was given. *)
Theorem consolewrite_returns bytes s : on_screen s -> returns (consolewrite bytes) s (fun n s' => n = Z.of_nat (length bytes) /\ on_screen s').
Proof.
  intros H. unfold consolewrite. apply returns_bind.
  assert (Hputs : forall cs s, on_screen s -> returns (consputs cs) s (fun _ s' => on_screen s')).
  { clear. induction cs as [|c cs IH]; intros s H; cbn [consputs]; [done|]. apply returns_bind. unfold consputc. apply returns_bind.
    eapply returns_mono; [exact (cgaputc_on_screen c s H)|]. intros a s1 H1.
    change (returns (b ← consputs cs; ret ((if c =? BACKSPACE then [8; 32; 8] else [c]) ++ b)) s1 (fun _ s' => on_screen s')).
    apply returns_bind. eapply returns_mono; [by apply IH|]. intros b s2 H2. exact H2. }
  eapply returns_mono; [exact (Hputs _ s H)|]. intros a s1 H1. done.
Qed.

Definition blank : screen := mkScreen (replicate 2000 0) (23 * COLS + 79).
Lemma consolewrite_returns_witness :
  on_screen blank /\ returns (consolewrite [65; 10; 256; 66]) blank (fun n s' => n = 4 /\ on_screen s').
Proof. assert (H : on_screen blank) by (split; [reflexivity|vm_compute; split; [discriminate|reflexivity]]). split; [exact H|]. apply (consolewrite_returns [65; 10; 256; 66] blank H). Defined.
