(* ===== verification/Kbd.v ===== *)
(** * Kbd: the keyboard (offline_4/xv6/kbd.c, kbd.h), up to the console that reads it

    kbdgetc turns scan codes into characters, with the modifier keys and locks in a static
    word; kbdintr hands it to consoleintr, which calls it until it has no more. The keyboard's
    own side is a set of held keys and lights; what is typed on it reaches the console's
    readers. *)

From S2P Require Import Prelude Console.

(** ** The ports *)

(** The keyboard controller, as its two ports show it: a byte waits when the status says so,
    and reading the data port takes it. *)
Class Kbc (D : Type) : Type := {
  inb : Z -> D -> Z * D;
  (** The bytes that wait, the next one first. *)
  waiting : D -> list Z
}.

Definition KBSTATP : Z := 0x64.
Definition KBS_DIB : Z := 0x01.
Definition KBDATAP : Z := 0x60.

Class KbcLaws (D : Type) `{Kbc D} : Prop := {
  kbc_status d : (Z.land (inb KBSTATP d).1 KBS_DIB =? 0) = bool_decide (waiting d = []) /\
    waiting (inb KBSTATP d).2 = waiting d;
  kbc_data d b rest : waiting d = b :: rest -> (inb KBDATAP d).1 = b /\ waiting (inb KBDATAP d).2 = rest
}.

(** ** The tables *)

Definition NO : Z := 0.
Definition SHIFT : Z := Z.shiftl 1 0.
Definition CTL : Z := Z.shiftl 1 1.
Definition ALT : Z := Z.shiftl 1 2.
Definition CAPSLOCK : Z := Z.shiftl 1 3.
Definition NUMLOCK : Z := Z.shiftl 1 4.
Definition SCROLLLOCK : Z := Z.shiftl 1 5.
Definition E0ESC : Z := Z.shiftl 1 6.

(** The characters of a string constant. *)
Fixpoint row (s : string) : list Z :=
  match s with
  | EmptyString => []
  | String a s => Z.of_nat (Ascii.nat_of_ascii a) :: row s
  end.
(** C(x), stored in a uchar. *)
Definition C (x : Z) : Z := u8 (x - 64).
Definition ctl_row (s : string) : list Z := map C (row s).

(** A [uchar] table of 256 entries: rows from the start, then the designated ones. *)
Definition table (rows : list Z) (designated : list (Z * Z)) : list Z :=
  foldl (fun t p => <[Z.to_nat p.1 := p.2]> t) (rows ++ replicate (256 - length rows) NO) designated.
Definition at_ (t : list Z) (data : Z) : Z := nth (Z.to_nat data) t 0.

Definition shiftcode : list Z :=
  table [] [(0x1D, CTL); (0x2A, SHIFT); (0x36, SHIFT); (0x38, ALT); (0x9D, CTL); (0xB8, ALT)].
Definition togglecode : list Z := table [] [(0x3A, CAPSLOCK); (0x45, NUMLOCK); (0x46, SCROLLLOCK)].

(** KEY_UP to KEY_DEL, the same in all three maps. *)
Definition special_keys : list (Z * Z) :=
  [(0xC8, 0xE2); (0xD0, 0xE3); (0xC9, 0xE6); (0xD1, 0xE7); (0xCB, 0xE4); (0xCD, 0xE5); (0x97, 0xE0); (0xCF, 0xE1);
   (0xD2, 0xE8); (0xD3, 0xE9)].
(** The rows from 0x37 on, the same in normalmap and shiftmap. *)
Definition keypad_rows : list Z :=
  row "*" ++ [NO; 32; NO; NO; NO; NO; NO; NO] ++ replicate 7 NO ++ row "7" ++ row "89-456+1" ++ row "230." ++ replicate 4 NO.

Definition normalmap : list Z :=
  table ([NO; 0x1B] ++ row "123456" ++ row "7890-=" ++ [8; 9] ++ row "qwertyui" ++ row "op[]" ++ [10; NO] ++ row "as" ++
         row "dfghjkl;" ++ row "'`" ++ [NO] ++ row "\zxcv" ++ row "bnm,./" ++ [NO] ++ keypad_rows)
        ((0x9C, 10) :: (0xB5, 47) :: special_keys).
Definition shiftmap : list Z :=
  table ([NO; 27] ++ row "!@#$%^" ++ row "&*()_+" ++ [8; 9] ++ row "QWERTYUI" ++ row "OP{}" ++ [10; NO] ++ row "AS" ++
         row "DFGHJKL:" ++ [34] ++ row "~" ++ [NO] ++ row "|ZXCV" ++ row "BNM<>?" ++ [NO] ++ keypad_rows)
        ((0x9C, 10) :: (0xB5, 47) :: special_keys).
Definition ctlmap : list Z :=
  table (replicate 16 NO ++ ctl_row "QWERTYUI" ++ ctl_row "OP" ++ [NO; NO; 13; NO] ++ ctl_row "AS" ++
         ctl_row "DFGHJKL" ++ [NO; NO; NO; NO] ++ ctl_row "\ZXCV" ++ ctl_row "BNM" ++ [NO; NO] ++ ctl_row "/" ++ [NO; NO])
        ((0x9C, 13) :: (0xB5, C 47) :: special_keys).
Definition charcode : list (list Z) := [normalmap; shiftmap; ctlmap; ctlmap].

(** ** kbdgetc *)

Definition has (s bit : Z) : bool := negb (Z.land s bit =? 0).

(** kbdgetc once a byte is there: what it returns and the new [shift]. *)
Definition scancode (data s : Z) : Z * Z :=
  if data =? 0xE0 then (0, Z.lor s E0ESC)
  else if has data 0x80 then
    let data := if has s E0ESC then data else Z.land data 0x7F in
    (0, Z.land s (Z.lnot (Z.lor (at_ shiftcode data) E0ESC)))
  else
    let '(data, s) := if has s E0ESC then (Z.lor data 0x80, Z.land s (Z.lnot E0ESC)) else (data, s) in
    let s := Z.lor s (at_ shiftcode data) in
    let s := Z.lxor s (at_ togglecode data) in
    let c := at_ (nth (Z.to_nat (Z.land s (Z.lor CTL SHIFT))) charcode []) data in
    let c := if has s CAPSLOCK then
               if (97 <=? c) && (c <=? 122) then u32 (c + (65 - 97))
               else if (65 <=? c) && (c <=? 90) then u32 (c + (97 - 65)) else c
             else c in
    (c, s).

Section Driver.
Context {D : Type} `{KbcLaws D}.

(** The static word of kbdgetc, the controller, and the console's input. *)
Record machine : Type := mkMachine { shift : Z; kbc : D; console : input }.
Definition set_shift (s : Z) (m : machine) : machine := mkMachine s (kbc m) (console m).
Definition set_kbc (d : D) (m : machine) : machine := mkMachine (shift m) d (console m).
Definition set_console (i : input) (m : machine) : machine := mkMachine (shift m) (kbc m) i.

Definition inb_m (port : Z) : M machine Z := fun m => let '(v, d) := inb port (kbc m) in Ret (u8 v) (set_kbc d m).

Definition kbdgetc : M machine Z :=
  st ← inb_m KBSTATP;
  if Z.land st KBS_DIB =? 0 then ret (-1)
  else
    data ← inb_m KBDATAP;
    s ← gets shift;
    let '(c, s) := scancode data s in
    _ ← modify (set_shift s);
    ret c.

(** consoleintr(kbdgetc): the echo, and whether the processes are to be listed. *)
Fixpoint intr_loop (fuel : nat) : M machine (list Z * bool) :=
  match fuel with
  | O => fun _ => OutOfFuel
  | S fuel =>
      c ← kbdgetc;
      if c <? 0 then ret ([], false)
      else
        i ← gets console;
        let '(i, out) := key c i in
        _ ← modify (set_console i);
        '(out', dump) ← intr_loop fuel;
        ret (out ++ out', (c =? ctrl_p) || dump)
  end.
Definition kbdintr (fuel : nat) : M machine (list Z * bool) := intr_loop fuel.

(** Interrupts one after the other, each with the controller as it is then. *)
Fixpoint interrupts (fuel : nat) (ds : list D) : M machine (list Z * bool) :=
  match ds with
  | [] => ret ([], false)
  | d :: ds =>
      _ ← modify (set_kbc d);
      '(out, dump) ← kbdintr fuel;
      '(out', dump') ← interrupts fuel ds;
      ret (out ++ out', dump || dump')
  end.
End Driver.
Arguments machine D : clear implicits.

(** ** The keyboard itself *)

(** A key is its code, and whether the code comes after an 0xE0. *)
Definition kkey : Type := bool * Z.
Inductive stroke : Type := Press (k : kkey) | Release (k : kkey).
Inductive modifier : Type := MShift | MCtl | MAlt.
#[export] Instance modifier_eq_dec : EqDecision modifier.
Proof. solve_decision. Defined.

(** Keys have codes below 0x80; none of them is 0x60, whose release would look like a prefix. *)
Definition key_ok (k : kkey) : bool := (0 <=? k.2) && (k.2 <? 0x80) && negb (k.2 =? 0x60).
Definition modifier_of (k : kkey) : option modifier :=
  match k with
  | (false, 0x2A) | (false, 0x36) => Some MShift
  | (_, 0x1D) => Some MCtl
  | (_, 0x38) => Some MAlt
  | _ => None
  end.

Record lights : Type := mkLights { caps : bool; num : bool; scroll : bool }.
Definition toggle (k : kkey) (l : lights) : lights :=
  match k with
  | (false, 0x3A) => mkLights (negb (caps l)) (num l) (scroll l)
  | (false, 0x45) => mkLights (caps l) (negb (num l)) (scroll l)
  | (false, 0x46) => mkLights (caps l) (num l) (negb (scroll l))
  | _ => l
  end.
Record keyboard : Type := mkKeyboard { held : list kkey; on : lights }.

Definition down (m : modifier) (kb : keyboard) : bool := existsb (fun k => bool_decide (modifier_of k = Some m)) (held kb).

Definition spec_stroke (x : stroke) (kb : keyboard) : keyboard :=
  match x with
  | Press k => mkKeyboard (k :: held kb) (toggle k (on kb))
  | Release k => mkKeyboard (filter (fun k' => k' <> k) (held kb)) (on kb)
  end.

Definition swap_case (c : Z) : Z :=
  if (97 <=? c) && (c <=? 122) then c - 32 else if (65 <=? c) && (c <=? 90) then c + 32 else c.
(** The character of a key under the modifiers held and the caps light. *)
Definition layout (ctl shf caps : bool) (k : kkey) : Z :=
  let c := at_ (if ctl then ctlmap else if shf then shiftmap else normalmap) (k.2 + if k.1 then 128 else 0) in
  if caps then swap_case c else c.

(** What the calls of kbdgetc for the bytes of a stroke return; [kb] is after the stroke. *)
Definition answers (x : stroke) (kb : keyboard) : list Z :=
  match x with
  | Press k => (if k.1 then [0] else []) ++ [layout (down MCtl kb) (down MShift kb) (caps (on kb)) k]
  | Release k => (if k.1 then [0] else []) ++ [0]
  end.
Definition scan (x : stroke) : list Z :=
  match x with
  | Press k => (if k.1 then [0xE0] else []) ++ [k.2]
  | Release k => (if k.1 then [0xE0] else []) ++ [k.2 + 0x80]
  end.

Fixpoint spec_strokes (xs : list stroke) (kb : keyboard) : keyboard * list Z :=
  match xs with
  | [] => (kb, [])
  | x :: xs => let kb := spec_stroke x kb in let '(kb', cs) := spec_strokes xs kb in (kb', answers x kb ++ cs)
  end.

Definition key_of (x : stroke) : kkey := match x with Press k | Release k => k end.
(** Nobody lets go of a modifier key while another key of the same modifier is held. *)
Definition lone (x : stroke) (kb : keyboard) : bool :=
  match x with
  | Press _ => true
  | Release k => forallb (fun k' => bool_decide (k' = k) || negb (bool_decide (modifier_of k' = modifier_of k)))
                   (match modifier_of k with Some _ => held kb | None => [] end)
  end.
Fixpoint legal (xs : list stroke) (kb : keyboard) : bool :=
  match xs with
  | [] => true
  | x :: xs => key_ok (key_of x) && lone x kb && legal xs (spec_stroke x kb)
  end.

(** The word kbdgetc keeps for a keyboard. *)
Definition word (ctl shf alt : bool) (l : lights) : Z :=
  (if shf then SHIFT else 0) + (if ctl then CTL else 0) + (if alt then ALT else 0) +
  (if caps l then CAPSLOCK else 0) + (if num l then NUMLOCK else 0) + (if scroll l then SCROLLLOCK else 0).
Definition word_of (kb : keyboard) : Z := word (down MCtl kb) (down MShift kb) (down MAlt kb) (on kb).

(** ** A stroke, by evaluation over all words and keys *)

(** What kbdgetc returns for bytes that arrive together, and the word after. *)
Fixpoint decode (bs : list Z) (s : Z) : list Z * Z :=
  match bs with
  | [] => ([], s)
  | b :: bs => let '(c, s) := scancode b s in let '(cs, s) := decode bs s in (c :: cs, s)
  end.

Definition both : list bool := [false; true].
Definition all_words : list (bool * bool * bool * lights) :=
  c ← both; s ← both; a ← both; x ← both; y ← both; z ← both; mret (c, s, a, mkLights x y z).
Definition all_keys : list kkey := filter (fun k => key_ok k = true) (e ← both; n ← seqZ 0 128; mret (e, n)).

(** The modifiers after a stroke of [k], when nothing else holds the modifier of [k]. *)
Definition holds (m : modifier) (k : kkey) : bool := bool_decide (modifier_of k = Some m).
Definition after (x : stroke) (m : modifier) (was : bool) : bool :=
  match x with Press k => holds m k || was | Release k => negb (holds m k) && was end.

Definition stroke_right (w : bool * bool * bool * lights) (x : stroke) : bool :=
  let '(c, s, a, l) := w in
  let c' := after x MCtl c in let s' := after x MShift s in
  let l' := match x with Press k => toggle k l | Release _ => l end in
  bool_decide (decode (scan x) (word c s a l) =
    (match x with
     | Press k => (if k.1 then [0] else []) ++ [layout c' s' (caps l') k]
     | Release k => (if k.1 then [0] else []) ++ [0]
     end, word c' s' (after x MAlt a) l')).

Lemma strokes_right : forallb (fun w => forallb (fun k => stroke_right w (Press k) && stroke_right w (Release k)) all_keys) all_words = true.
Proof. vm_compute. reflexivity. Qed.

Lemma in_both b : b ∈ both.
Proof. destruct b; unfold both; set_solver. Qed.
Lemma in_all_words c s a l : (c, s, a, l) ∈ all_words.
Proof. destruct l as [x y z]. unfold all_words. repeat (eapply list_elem_of_bind; eexists; split; [|apply in_both]). by apply list_elem_of_singleton. Qed.
Lemma in_all_keys k : key_ok k = true -> k ∈ all_keys.
Proof.
  intros Hk. apply list_elem_of_filter. split; [done|]. unfold key_ok in Hk. to_prop. destruct k as [e n].
  eapply list_elem_of_bind. eexists. split; [|apply in_both]. eapply list_elem_of_bind. exists n. split; [by apply list_elem_of_singleton|].
  apply elem_of_seqZ. cbn [snd] in *. lia.
Qed.

Lemma stroke_decoded x c s a l : key_ok (key_of x) = true -> stroke_right (c, s, a, l) x = true.
Proof.
  intros Hk. pose proof strokes_right as E. rewrite forallb_forall in E. specialize (E _ (proj1 (list_elem_of_In _ _) (in_all_words c s a l))).
  rewrite forallb_forall in E. specialize (E _ (proj1 (list_elem_of_In _ _) (in_all_keys _ Hk))). apply andb_true_iff in E as [E1 E2].
  by destruct x.
Qed.

Lemma down_after m x kb : lone x kb = true -> down m (spec_stroke x kb) = after x m (down m kb).
Proof.
  unfold down. destruct x as [k|k]; cbn [spec_stroke held lone after existsb]; [done|]. intros Hl.
  apply Bool.eq_true_iff_eq. rewrite existsb_exists, andb_true_iff, negb_true_iff, existsb_exists. unfold holds.
  rewrite bool_decide_eq_false. setoid_rewrite bool_decide_eq_true. setoid_rewrite <- list_elem_of_In. setoid_rewrite list_elem_of_filter.
  split.
  - intros (k' & [Hne Hin] & Em). split; [|by exists k']. intros Ek. rewrite Ek in Hl. rewrite forallb_forall in Hl.
    specialize (Hl k' (proj1 (list_elem_of_In _ _) Hin)). rewrite bool_decide_eq_false_2 in Hl by done.
    rewrite bool_decide_eq_true_2 in Hl; [done|]. congruence.
  - intros [Hk (k' & Hin & Em)]. exists k'. split; [|done]. split; [|done]. congruence.
Qed.

Lemma stroke_step x kb : key_ok (key_of x) = true -> lone x kb = true ->
  decode (scan x) (word_of kb) = (answers x (spec_stroke x kb), word_of (spec_stroke x kb)).
Proof.
  intros Hk Hl. pose proof (stroke_decoded x (down MCtl kb) (down MShift kb) (down MAlt kb) (on kb) Hk) as E.
  unfold stroke_right in E. apply bool_decide_eq_true in E. unfold word_of. rewrite E, !down_after by done. f_equal; destruct x; try done.
Qed.

Lemma decode_app bs bs' s :
  decode (bs ++ bs') s = let '(cs, s1) := decode bs s in let '(cs', s2) := decode bs' s1 in (cs ++ cs', s2).
Proof.
  revert s. induction bs as [|b bs IH]; intros s; cbn [app decode]; [by destruct (decode bs' s)|].
  destruct (scancode b s) as [c s']. rewrite IH. destruct (decode bs s') as [cs s1]. by destruct (decode bs' s1).
Qed.

Lemma strokes_decoded xs : forall kb, legal xs kb = true ->
  decode (concat (map scan xs)) (word_of kb) = ((spec_strokes xs kb).2, word_of (spec_strokes xs kb).1).
Proof.
  induction xs as [|x xs IH]; intros kb; cbn [legal map concat spec_strokes decode]; [done|].
  rewrite !andb_true_iff. intros [[Hk Hl] Hxs]. rewrite decode_app, stroke_step, IH by done.
  by destruct (spec_strokes xs (spec_stroke x kb)).
Qed.

(** ** The driver on the bytes that wait *)

Lemma consoleintr_app cs cs' i :
  consoleintr (cs ++ cs') i =
  let '(i1, out, dump) := consoleintr cs i in let '(i2, out', dump') := consoleintr cs' i1 in (i2, out ++ out', dump || dump').
Proof.
  revert i. induction cs as [|c cs IH]; intros i; cbn [app consoleintr]; [by destruct (consoleintr cs' i) as [[? ?] ?]|].
  destruct (key c i) as [i0 out0]. rewrite IH. destruct (consoleintr cs i0) as [[i1 out] dump].
  destruct (consoleintr cs' i1) as [[i2 out'] dump']. by rewrite app_assoc, orb_assoc.
Qed.

Section DriverRuns.
Context {D : Type} `{KbcLaws D}.
Implicit Types (m : machine D) (d : D).
Definition byte (b : Z) : Prop := 0 <= b < 256.

Lemma inb_m_run port m : inb_m port m = Ret (u8 (inb port (kbc m)).1) (set_kbc (inb port (kbc m)).2 m).
Proof. unfold inb_m. by destruct (inb port (kbc m)). Qed.
Lemma status_bit v : Z.land (u8 v) KBS_DIB = Z.land v KBS_DIB.
Proof. unfold u8. rewrite <- Z.land_ones by lia. by rewrite <- Z.land_assoc. Qed.

Lemma kbdgetc_empty m : waiting (kbc m) = [] ->
  exists d, kbdgetc m = Ret (-1) (set_kbc d m) /\ waiting d = [].
Proof.
  intros Hw. destruct (kbc_status (kbc m)) as [Es Ews]. exists (inb KBSTATP (kbc m)).2. split; [|by rewrite Ews].
  unfold kbdgetc. rewrite (bind_ret _ _ _ _ _ (inb_m_run _ _)), status_bit, Es. by rewrite bool_decide_eq_true_2.
Qed.

Lemma kbdgetc_byte m b rest : waiting (kbc m) = b :: rest -> byte b ->
  exists d, kbdgetc m = Ret (scancode b (shift m)).1 (mkMachine (scancode b (shift m)).2 d (console m)) /\ waiting d = rest.
Proof.
  intros Hw Hb. destruct (kbc_status (kbc m)) as [Es Ews]. rewrite Hw in Ews. destruct (kbc_data _ b rest Ews) as [Ev Ewd].
  eexists. split; [|exact Ewd].
  unfold kbdgetc. rewrite (bind_ret _ _ _ _ _ (inb_m_run _ _)), status_bit, Es, bool_decide_eq_false_2 by (by rewrite Hw).
  rewrite (bind_ret _ _ _ _ _ (inb_m_run _ _)). cbn [set_kbc kbc]. rewrite Ev, u8_small by (unfold byte in Hb; lia).
  erewrite bind_ret by reflexivity. cbn [set_kbc shift console kbc]. destruct (scancode b (shift m)) as [c s].
  by erewrite bind_ret by reflexivity.
Qed.

(** No character is negative, so consoleintr goes on until no byte waits. *)
Lemma maps_nonneg : forallb (forallb (fun c => 0 <=? c)) charcode = true.
Proof. vm_compute. reflexivity. Qed.
Lemma maps_at_nonneg n data : 0 <= at_ (nth n charcode []) data.
Proof.
  pose proof maps_nonneg as E. rewrite forallb_forall in E. unfold at_.
  destruct (nth_in_or_default n charcode []) as [Hin|Hn].
  2:{ rewrite Hn. by destruct (Z.to_nat data). }
  specialize (E _ Hin). rewrite forallb_forall in E.
  destruct (nth_in_or_default (Z.to_nat data) (nth n charcode []) 0) as [Hin'|Hn'].
  - by apply Z.leb_le, E.
  - by rewrite Hn'.
Qed.
Lemma scancode_nonneg b s : 0 <= (scancode b s).1.
Proof.
  unfold scancode. destruct (b =? 0xE0); [done|]. destruct (has b 0x80); [done|].
  destruct (if has s E0ESC then _ else _) as [data s']. cbv zeta. cbn [fst].
  match goal with |- context [at_ (nth ?n charcode []) ?d] => pose proof (maps_at_nonneg n d) end.
  repeat case_if; try done; apply u32_range.
Qed.

(** One interrupt: consoleintr runs on the characters of all bytes that wait. *)
Lemma intr_loop_run bs : forall fuel m, waiting (kbc m) = bs -> Forall byte bs -> (length bs < fuel)%nat ->
  exists d, waiting d = [] /\
    let '(i, out, dump) := consoleintr (decode bs (shift m)).1 (console m) in
    intr_loop fuel m = Ret (out, dump) (mkMachine (decode bs (shift m)).2 d i).
Proof.
  induction bs as [|b bs IH]; intros [|fuel] m Hw Hbs Hf; cbn [length] in Hf; try lia; cbn [intr_loop decode].
  - destruct (kbdgetc_empty m Hw) as (d & E & Hd). exists d. split; [done|]. cbn [fst snd consoleintr]. by rewrite (bind_ret _ _ _ _ _ E).
  - apply Forall_cons in Hbs as [Hb Hbs]. destruct (kbdgetc_byte m b bs Hw Hb) as (d & E & Hd).
    pose proof (scancode_nonneg b (shift m)) as Hc. destruct (scancode b (shift m)) as [c s1]. cbn [fst snd] in *.
    destruct (decode bs s1) as [cs s2] eqn:Ed. cbn [fst snd consoleintr].
    rewrite (bind_ret _ _ _ _ _ E). replace (c <? 0) with false by (symmetry; apply Z.ltb_ge; lia).
    erewrite bind_ret by reflexivity. cbn [console]. destruct (key c (console m)) as [i out] eqn:Ek.
    destruct (IH fuel (mkMachine s1 d i) Hd Hbs ltac:(lia)) as (d' & Hd' & E'). cbn [shift console] in E'. rewrite Ed in E'. cbn [fst snd] in E'.
    destruct (consoleintr cs i) as [[i' out'] dump]. exists d'. split; [done|].
    rewrite (bind_ret (modify (set_console i)) _ (mkMachine s1 d (console m)) tt (mkMachine s1 d i) eq_refl), (bind_ret _ _ _ _ _ E'). done.
Qed.

Lemma interrupts_run fuel ds : forall m, Forall (fun d => Forall byte (waiting d) /\ (length (waiting d) < fuel)%nat) ds ->
  let bs := concat (map waiting ds) in
  exists d, let '(i, out, dump) := consoleintr (decode bs (shift m)).1 (console m) in
    interrupts fuel ds m = Ret (out, dump) (mkMachine (decode bs (shift m)).2 d i).
Proof.
  induction ds as [|d ds IH]; intros m Hds; cbn [map concat interrupts decode fst snd consoleintr].
  { exists (kbc m). by destruct m. }
  apply Forall_cons in Hds as [[Hb Hf] Hds].
  destruct (intr_loop_run (waiting d) fuel (set_kbc d m) eq_refl Hb Hf) as (d1 & _ & E1). cbn [set_kbc shift console] in E1.
  rewrite decode_app. destruct (decode (waiting d) (shift m)) as [cs s1]. cbn [fst snd] in E1.
  destruct (consoleintr cs (console m)) as [[i1 out1] dump1] eqn:Ec1.
  destruct (IH (mkMachine s1 d1 i1) Hds) as (d2 & E2). cbn [shift console] in E2.
  destruct (decode (concat (map waiting ds)) s1) as [cs' s2]. cbn [fst snd] in *. rewrite consoleintr_app, Ec1.
  destruct (consoleintr cs' i1) as [[i2 out2] dump2]. exists d2.
  rewrite (bind_ret (modify (set_kbc d)) _ m tt (set_kbc d m) eq_refl). unfold kbdintr. by rewrite (bind_ret _ _ _ _ _ E1), (bind_ret _ _ _ _ _ E2).
Qed.
End DriverRuns.

Lemma scan_bytes xs : forall kb, legal xs kb = true -> Forall byte (concat (map scan xs)).
Proof.
  induction xs as [|x xs IH]; intros kb; cbn [legal map concat]; [constructor|]. rewrite !andb_true_iff. intros [[Hk _] Hxs].
  apply Forall_app. split; [|by apply (IH (spec_stroke x kb))]. unfold key_ok in Hk. to_prop.
  destruct x as [[[] n]|[[] n]]; cbn [scan key_of fst snd app] in *; repeat constructor; unfold byte; lia.
Qed.

(** Strokes whose scan codes are spread over interrupts. *)
Lemma strokes_run {D : Type} `{KbcLaws D} fuel ds xs kb (m : machine D) :
  legal xs kb = true -> concat (map waiting ds) = concat (map scan xs) ->
  Forall (fun d => (length (waiting d) < fuel)%nat) ds -> shift m = word_of kb ->
  exists d, let '(i, out, dump) := consoleintr (spec_strokes xs kb).2 (console m) in
    interrupts fuel ds m = Ret (out, dump) (mkMachine (word_of (spec_strokes xs kb).1) d i).
Proof.
  intros Hl Hds Hf Hs. pose proof (scan_bytes xs kb Hl) as Hb. rewrite <- Hds in Hb.
  destruct (interrupts_run fuel ds m) as (d & E).
  { rewrite Forall_concat, Forall_map in Hb. rewrite !Forall_forall in *. intros d Hd. split; [by apply Hb|by apply Hf]. }
  rewrite Hds, Hs, strokes_decoded in E by done. by exists d.
Qed.

(** C34: whatever is typed, with any keys and modifiers held, and however the scan codes are
    spread over interrupts, kbdintr returns each time, the console edits with exactly the
    characters the layout gives for the keys under the modifiers then held and the caps light,
    and the driver's word is that of the keys held; provided nobody lets go of one key of a
    modifier while holding the other. *)
Theorem kbd_tracks_keys {D : Type} `{KbcLaws D} fuel ds xs kb (m : machine D) :
  legal xs kb = true -> concat (map waiting ds) = concat (map scan xs) ->
  Forall (fun d => (length (waiting d) < fuel)%nat) ds -> shift m = word_of kb ->
  returns (interrupts fuel ds) m (fun shown m' =>
    let '(i, out, dump) := consoleintr (spec_strokes xs kb).2 (console m) in
    shown = (out, dump) /\ console m' = i /\ shift m' = word_of (spec_strokes xs kb).1).
Proof.
  intros Hl Hds Hf Hs. destruct (strokes_run fuel ds xs kb m Hl Hds Hf Hs) as (d & E). unfold returns.
  destruct (consoleintr _ (console m)) as [[i out] dump]. by rewrite E.
Qed.

(** ** Typing a line *)

Definition lshift : kkey := (false, 0x2A).
Definition tap (k : kkey) : list stroke := [Press k; Release k].
Definition position (c : Z) (t : list Z) : option Z := find (fun n => at_ t n =? c) (seqZ 0 128).
(** How a typist types a character, looking at the caps light. *)
Definition strokes_for (caps : bool) (c : Z) : list stroke :=
  let c := if caps then swap_case c else c in
  match position c normalmap, position c shiftmap with
  | Some n, _ => tap (false, n)
  | None, Some n => Press lshift :: tap (false, n) ++ [Release lshift]
  | None, None => []
  end.
Definition strokes_of (caps : bool) (text : list Z) : list stroke := concat (map (strokes_for caps) text).

Definition printable (c : Z) : Prop := 32 <= c < 127.

(** A key that is neither a modifier nor a lock. *)
Definition plain (k : kkey) : bool :=
  key_ok k && bool_decide (modifier_of k = None) && negb (existsb (fun n => k.2 =? n) [0x3A; 0x45; 0x46]).
Definition types (caps : bool) (c : Z) : bool :=
  let c' := if caps then swap_case c else c in
  match position c' normalmap, position c' shiftmap with
  | Some n, _ => plain (false, n) && (layout false false caps (false, n) =? c)
  | None, Some n => plain (false, n) && (layout false true caps (false, n) =? c)
  | None, None => false
  end.

Lemma types_all : forallb (fun caps => forallb (types caps) (10 :: seqZ 32 95)) both = true.
Proof. vm_compute. reflexivity. Qed.
Lemma printable_types caps c : printable c \/ c = newline -> types caps c = true.
Proof.
  intros Hc. pose proof types_all as E. rewrite forallb_forall in E. specialize (E _ (proj1 (list_elem_of_In _ _) (in_both caps))).
  rewrite forallb_forall in E. apply E, list_elem_of_In, elem_of_cons. unfold newline, printable in *. rewrite elem_of_seqZ. lia.
Qed.

Definition calm (kb : keyboard) : Prop := down MShift kb = false /\ down MCtl kb = false.

Lemma toggle_plain k l : plain k = true -> toggle k l = l.
Proof.
  destruct k as [[] n]; [done|]. intros Hk. unfold toggle.
  repeat match goal with |- context [match ?x with _ => _ end] => is_var x; destruct x; try reflexivity end; by vm_compute in Hk.
Qed.

Lemma tap_plain k kb : plain k = true -> k.1 = false ->
  exists kb', legal (tap k) kb = true /\
    spec_strokes (tap k) kb = (kb', [layout (down MCtl kb) (down MShift kb) (caps (on kb)) k; 0]) /\
    (forall m, down m kb' = down m kb) /\ on kb' = on kb /\ (forall k', k' ∈ held kb' -> k' ∈ held kb).
Proof.
  intros Hp He. pose proof (toggle_plain k (on kb) Hp) as Ht. unfold plain in Hp. apply andb_true_iff in Hp as [[Hk Hm]%andb_true_iff _].
  apply bool_decide_eq_true in Hm. assert (Hno : forall m, holds m k = false).
  { intros m. apply bool_decide_eq_false. congruence. }
  assert (Hd : forall m, down m (spec_stroke (Press k) kb) = down m kb) by (intros m; rewrite down_after by done; cbn [after]; by rewrite Hno).
  assert (Hlone : forall kb0, lone (Release k) kb0 = true) by (intros kb0; cbn [lone]; by rewrite Hm).
  exists (spec_stroke (Release k) (spec_stroke (Press k) kb)). split_and!.
  - cbn [tap legal key_of]. by rewrite Hk, Hlone.
  - cbn [tap spec_strokes answers]. rewrite He, !Hd. cbn [app spec_stroke on]. by rewrite Ht.
  - intros m. rewrite down_after by done. cbn [after]. by rewrite Hno, Hd.
  - exact Ht.
  - intros k'. cbn [spec_stroke held]. rewrite list_elem_of_filter, elem_of_cons. naive_solver.
Qed.

Lemma legal_app xs ys kb : legal (xs ++ ys) kb = legal xs kb && legal ys (spec_strokes xs kb).1.
Proof.
  revert kb. induction xs as [|x xs IH]; intros kb; cbn [app legal spec_strokes]; [done|]. rewrite IH.
  destruct (spec_strokes xs (spec_stroke x kb)). by rewrite <- !andb_assoc.
Qed.
Lemma spec_strokes_app xs ys kb :
  spec_strokes (xs ++ ys) kb =
  ((spec_strokes ys (spec_strokes xs kb).1).1, (spec_strokes xs kb).2 ++ (spec_strokes ys (spec_strokes xs kb).1).2).
Proof.
  revert kb. induction xs as [|x xs IH]; intros kb; cbn [app spec_strokes fst snd]; [by destruct (spec_strokes ys kb)|].
  rewrite IH. destruct (spec_strokes xs (spec_stroke x kb)). cbn [fst snd]. by rewrite app_assoc.
Qed.

(** What typing does: legal strokes that give the characters (and zeros, which the console
    drops) and leave modifiers and lights as they were. *)
Definition gives (xs : list stroke) (kb : keyboard) (text : list Z) : Prop :=
  legal xs kb = true /\ filter (fun c => c <> 0) (spec_strokes xs kb).2 = text /\
  calm (spec_strokes xs kb).1 /\ on (spec_strokes xs kb).1 = on kb.

Lemma gives_app xs ys kb text text' :
  gives xs kb text -> gives ys (spec_strokes xs kb).1 text' -> gives (xs ++ ys) kb (text ++ text').
Proof.
  intros (L1 & F1 & C1 & O1) (L2 & F2 & C2 & O2). unfold gives. rewrite legal_app, spec_strokes_app. cbn [fst snd].
  rewrite L1, L2, filter_app, F1, F2, O2. done.
Qed.

Lemma gives_char kb c : calm kb -> printable c \/ c = newline -> gives (strokes_for (caps (on kb)) c) kb [c].
Proof.
  intros [Hs Hc] Hp. assert (Hc0 : c <> 0) by (unfold printable, newline in Hp; lia).
  pose proof (printable_types (caps (on kb)) c Hp) as Ht. unfold types in Ht. unfold strokes_for. cbv zeta in *.
  destruct (position _ normalmap) as [n|].
  - apply andb_true_iff in Ht as [Hpl Ho%Z.eqb_eq]. destruct (tap_plain (false, n) kb Hpl eq_refl) as (kb' & L & S & Hd & Ho' & _).
    rewrite Hs, Hc, Ho in S. unfold gives, calm. rewrite S. cbn [fst snd]. rewrite !Hd.
    split_and!; try done. by rewrite filter_cons_True, filter_cons_False by naive_solver.
  - destruct (position _ shiftmap) as [n|]; [|done]. apply andb_true_iff in Ht as [Hpl Ho%Z.eqb_eq].
    set (kb1 := spec_stroke (Press lshift) kb).
    destruct (tap_plain (false, n) kb1 Hpl eq_refl) as (kb2 & L & S & Hd & Ho2 & Hheld).
    assert (Hd1 : forall m, down m kb1 = after (Press lshift) m (down m kb)) by (intros m; by apply down_after).
    assert (E1 : layout (down MCtl kb1) (down MShift kb1) (caps (on kb1)) (false, n) = c).
    { rewrite !Hd1, Hc, Hs. exact Ho. }
    rewrite E1 in S.
    assert (Hlone : lone (Release lshift) kb2 = true).
    { cbn [lone lshift modifier_of]. apply forallb_forall. intros k' Hk'%list_elem_of_In. apply orb_true_iff.
      destruct (decide (k' = lshift)) as [->|Hne]; [left; by apply bool_decide_eq_true|right].
      apply negb_true_iff, bool_decide_eq_false. intros Em. apply Hheld in Hk'. cbn [kb1 spec_stroke held] in Hk'.
      apply elem_of_cons in Hk' as [->|Hk']; [done|]. unfold down in Hs.
      assert (existsb (fun k => bool_decide (modifier_of k = Some MShift)) (held kb) = true) as E; [|congruence].
      apply existsb_exists. exists k'. split; [by apply list_elem_of_In|by apply bool_decide_eq_true]. }
    assert (Hg : gives (Press lshift :: tap (false, n) ++ [Release lshift]) kb [c]); [|exact Hg].
    unfold gives. cbn [legal spec_strokes key_of lone]. fold kb1. rewrite legal_app, spec_strokes_app, S, L. cbn [fst snd legal spec_strokes key_of].
    rewrite Hlone. unfold calm. rewrite !down_after, !Hd, !Hd1, Hs, Hc by done. cbn [answers lshift fst app spec_stroke on].
    rewrite Ho2. split_and!; try done.
    replace (layout _ _ _ lshift) with 0; [|rewrite !Hd1, Hc, Hs; by destruct (caps (on kb1))].
    rewrite filter_cons_False, filter_cons_True, !filter_cons_False by naive_solver. done.
Qed.

Lemma gives_text text : forall kb, calm kb -> Forall (fun c => printable c \/ c = newline) text ->
  gives (strokes_of (caps (on kb)) text) kb text.
Proof.
  induction text as [|c text IH]; intros kb Hk Ht; [done|]. apply Forall_cons in Ht as [Hc Ht].
  pose proof (gives_char kb c Hk Hc) as Hg. unfold strokes_of. cbn [map concat]. apply (gives_app _ _ _ [c] text); [done|].
  destruct Hg as (_ & _ & Hk' & Ho). pose proof (IH _ Hk' Ht) as Hr. by rewrite Ho in Hr.
Qed.

Lemma consoleintr_zeros cs : forall i, consoleintr cs i = consoleintr (filter (fun c => c <> 0) cs) i.
Proof.
  induction cs as [|c cs IH]; intros i; [done|]. destruct (decide (c = 0)) as [->|Hc].
  - rewrite filter_cons_False by naive_solver. cbn [consoleintr]. change (key 0 i) with (i, @nil Z). rewrite <- IH.
    by destruct (consoleintr cs i) as [[? ?] ?].
  - rewrite filter_cons_True by done. cbn [consoleintr]. destruct (key c i) as [i' out]. by rewrite IH.
Qed.

Lemma spec_key_printable c l : printable c -> Z.of_nat (length (l ++ [c])) < INPUT_BUF ->
  spec_key c (mkEditor [] l) = (mkEditor [] (l ++ [c]), [c]).
Proof.
  unfold printable, INPUT_BUF. intros Hc Hl. pose proof Hl as Hl'. rewrite length_app in Hl'. cbn [length] in Hl'.
  unfold spec_key, ctrl_p, ctrl_u, ctrl_h, ctrl_d, delete, newline, return_, INPUT_BUF. cbn [ready line length Nat.add].
  repeat match goal with |- context [c =? ?k] => replace (c =? k) with false by (symmetry; apply Z.eqb_neq; lia) end.
  rewrite u8_small by lia. cbn [orb negb andb].
  replace (Z.of_nat (length l) <? 128) with true by (symmetry; apply Z.ltb_lt; lia).
  by replace (Z.of_nat (length (l ++ [c])) =? 128) with false by (symmetry; apply Z.eqb_neq; lia).
Qed.

Lemma spec_keys_line text : forall l, Forall printable text -> Z.of_nat (length (l ++ text)) < INPUT_BUF ->
  spec_keys (text ++ [newline]) (mkEditor [] l) = (mkEditor (l ++ text ++ [newline]) [], text ++ [newline], false).
Proof.
  induction text as [|c text IH]; intros l Ht Hl.
  - rewrite app_nil_r in Hl. cbn [app spec_keys]. unfold spec_key. cbn [ready line length Nat.add]. cbn.
    apply Z.ltb_lt in Hl. unfold INPUT_BUF in *. by rewrite Hl.
  - apply Forall_cons in Ht as [Hc Ht]. assert (Hl1 : Z.of_nat (length ((l ++ [c]) ++ text)) < INPUT_BUF) by (by rewrite <- app_assoc).
    cbn [app spec_keys]. rewrite spec_key_printable by (done || (rewrite length_app in Hl1; lia)).
    rewrite IH by done. cbn [app]. rewrite <- app_assoc.
    by replace (c =? ctrl_p) with false by (symmetry; apply Z.eqb_neq; unfold printable, ctrl_p in *; lia).
Qed.

Lemma spec_read_line text : forall some n, Forall printable text -> (length text < n)%nat ->
  (spec_read false some n (text ++ [newline])).2 = Done (text ++ [newline]).
Proof.
  induction text as [|c text IH]; intros some [|n] Ht Hn; cbn [length] in Hn; try lia; [done|].
  apply Forall_cons in Ht as [Hc Ht]. cbn [app spec_read].
  repeat match goal with |- context [c =? ?k] => replace (c =? k) with false by (symmetry; apply Z.eqb_neq; unfold printable, newline, ctrl_d in *; lia) end.
  specialize (IH true n Ht ltac:(lia)). destruct (spec_read false true n (text ++ [newline])) as [q x]. cbn [snd] in *. by subst x.
Qed.

(** C33: a line of printable characters typed at the keyboard, each with the keys the layout asks
    for under the caps light, is echoed as it was typed, and a reader with room for it gets it
    with its newline, however the scan codes of the line are spread over interrupts. *)
Theorem typed_line_read {D : Type} `{KbcLaws D} fuel ds text kb (m : machine D) n :
  Forall printable text -> Z.of_nat (length text) < INPUT_BUF -> calm kb ->
  concat (map waiting ds) = concat (map scan (strokes_of (caps (on kb)) (text ++ [newline]))) ->
  Forall (fun d => (length (waiting d) < fuel)%nat) ds ->
  shift m = word_of kb -> edits (console m) (mkEditor [] []) -> (length text < n)%nat ->
  returns (interrupts fuel ds) m (fun shown m' =>
    shown = (text ++ [newline], false) /\ (consoleread false false n (console m')).2 = Done (text ++ [newline])).
Proof.
  intros Ht Hlen Hk Hds Hf Hs Hed Hn.
  destruct (gives_text (text ++ [newline]) kb Hk) as (Hl & Hcs & _).
  { apply Forall_app. split; [eapply Forall_impl; [done|]; auto|]. by repeat constructor; right. }
  destruct (strokes_run fuel ds _ kb m Hl Hds Hf Hs) as (d & E). rewrite consoleintr_zeros, Hcs in E.
  destruct (keys_spec (text ++ [newline]) (console m) _ Hed) as (Hed' & E1 & E2).
  { apply Forall_app. split; [eapply Forall_impl; [done|]; unfold printable; lia|]. by repeat constructor. }
  rewrite spec_keys_line in Hed', E1, E2 by done. cbn [fst snd app] in *.
  destruct (consoleintr (text ++ [newline]) (console m)) as [[i out] dump]. cbn [fst snd] in *. subst out dump.
  unfold returns. rewrite E. split; [done|]. cbn [console].
  destruct (read_spec false n false i _ _ Hed') as [Hr _]. rewrite Hr. by apply spec_read_line.
Qed.

(** ** A keyboard *)

(** A controller that is its queue of bytes. *)
#[export] Instance queue_kbc : Kbc (list Z) := {
  inb port d := if port =? KBSTATP then (c_bool (negb (bool_decide (d = []))), d)
                else match d with b :: rest => (b, rest) | [] => (0, []) end;
  waiting d := d
}.
#[export] Instance queue_laws : KbcLaws (list Z).
Proof. split; [intros [|b d]; done|]. intros d b rest E. cbn [waiting queue_kbc] in E. by subst d. Qed.

Definition page : list Z := replicate 128 0.
Definition idle_keyboard : keyboard := mkKeyboard [] (mkLights false false false).
Definition idle_machine : machine (list Z) := mkMachine 0 [] (empty_input page).

(** Left control and C, caps lock, then a with the right shift held, and the up arrow. *)
Definition demo_strokes : list stroke :=
  [Press (false, 0x1D); Press (false, 0x2E); Release (false, 0x2E); Release (false, 0x1D)] ++ tap (false, 0x3A) ++
  [Press (false, 0x36); Press (false, 0x1E); Release (false, 0x36); Release (false, 0x1E)] ++ tap (true, 0x48).
Definition demo_interrupts : list (list Z) := [[0x1D; 0x2E]; [0xAE; 0x9D; 0x3A]; [0xBA]; [0x36]; [0x1E; 0xB6; 0x9E; 0xE0]; [0x48; 0xE0]; [0xC8]].

Example demo_decoded : filter (fun c => c <> 0) (spec_strokes demo_strokes idle_keyboard).2 = [3; 97; 0xE2].
Proof. vm_compute. reflexivity. Qed.

Lemma kbd_tracks_keys_witness :
  returns (interrupts 5 demo_interrupts) idle_machine (fun shown m' =>
    let '(i, out, dump) := consoleintr (spec_strokes demo_strokes idle_keyboard).2 (console idle_machine) in
    shown = (out, dump) /\ console m' = i /\ shift m' = word_of (spec_strokes demo_strokes idle_keyboard).1).
Proof.
  apply (kbd_tracks_keys 5 demo_interrupts demo_strokes idle_keyboard idle_machine); [by vm_compute|by vm_compute| |by vm_compute].
  repeat constructor.
Defined.

(** The line [Ok! 7], one interrupt for each byte, the caps light on. *)
Definition demo_text : list Z := row "Ok! 7".
Definition caps_keyboard : keyboard := mkKeyboard [] (mkLights true false false).
Definition caps_machine : machine (list Z) := mkMachine CAPSLOCK [] (empty_input page).
Definition demo_bytes : list (list Z) := map (fun b => [b]) (concat (map scan (strokes_of true (demo_text ++ [newline])))).

Lemma typed_line_read_witness :
  returns (interrupts 2 demo_bytes) caps_machine (fun shown m' =>
    shown = (demo_text ++ [newline], false) /\ (consoleread false false 20 (console m')).2 = Done (demo_text ++ [newline])).
Proof.
  apply (typed_line_read 2 demo_bytes demo_text caps_keyboard caps_machine 20).
  - repeat constructor; vm_compute; congruence.
  - by vm_compute.
  - by vm_compute.
  - by vm_compute.
  - apply Forall_forall. intros d (b & -> & _)%list_elem_of_fmap. cbn. lia.
  - by vm_compute.
  - split; try done. apply not_elem_of_nil.
  - cbn. lia.
Defined.

(** Both shift keys held and one let go: the layout's character is A, the driver's is a. *)
Example shift_lost :
  let xs := [Press (false, 0x2A); Press (false, 0x36); Release (false, 0x2A); Press (false, 0x1E)] in
  last (spec_strokes xs idle_keyboard).2 = Some 65 /\ last (decode (concat (map scan xs)) (word_of idle_keyboard)).1 = Some 97.
Proof. vm_compute. done. Qed.
