(* ===== verification/File.v ===== *)
(** * File: open files and descriptors (offline_4/xv6/file.c, pipe.c, sysfile.c, file.h)

    The table of open files with its reference counts, the pipes they are ends of, the
    descriptor tables of the processes, and the swap files that fork makes and exit removes
    (createSwapFile and removeSwapFile of fs.c, and the lines of proc.c that call them). The
    inode layer below (fs.c and log.c, modelled in Inode.v and Log.v) is the interface
    [InodeLayer]. A call runs to its end: ftable.lock protects each change of the table, and a
    descriptor table is its process's own. *)

From S2P Require Import Prelude Fcntl Pipe.

Definition NFILE : nat := 100.
Definition NOFILE : nat := 16.

Inductive file_type : Type := FD_NONE | FD_PIPE | FD_INODE.
#[export] Instance file_type_eq_dec : EqDecision file_type.
Proof. solve_decision. Defined.

(** A pipe and an inode are named by numbers: the page of the pipe, the slot of the inode. *)
Record file : Type := mkFile {
  type : file_type;
  ref : Z;
  readable : bool;
  writable : bool;
  fpipe : nat;
  ip : nat;
  off : Z
}.
Definition set_ref (n : Z) (f : file) : file := mkFile (type f) n (readable f) (writable f) (fpipe f) (ip f) (off f).
Definition set_type (t : file_type) (f : file) : file := mkFile t (ref f) (readable f) (writable f) (fpipe f) (ip f) (off f).
Definition set_off (n : Z) (f : file) : file := mkFile (type f) (ref f) (readable f) (writable f) (fpipe f) (ip f) n.

(** What file.c asks of fs.c and log.c: a read gives its value and the bytes. *)
Class InodeLayer (I : Type) : Type := {
  begin_op : M I unit;
  end_op : M I unit;
  ilock : nat -> M I unit;
  iunlock : nat -> M I unit;
  iput : nat -> M I unit;
  iunlockput : nat -> M I unit;
  stati : nat -> M I stat;
  readi : nat -> Z -> Z -> M I (Z * list Z);
  writei : nat -> list Z -> Z -> M I Z
}.

Section Files.
Context {I : Type} `{InodeLayer I}.

Record system : Type := mkSystem {
  ftable : list file;
  pipes : gmap nat pipe;
  ofiles : list (list (option nat));
  inodes : I
}.
Definition set_ftable (x : list file) (s : system) : system := mkSystem x (pipes s) (ofiles s) (inodes s).
Definition set_pipes (x : gmap nat pipe) (s : system) : system := mkSystem (ftable s) x (ofiles s) (inodes s).
Definition set_ofiles (x : list (list (option nat))) (s : system) : system := mkSystem (ftable s) (pipes s) x (inodes s).
Definition set_inodes (x : I) (s : system) : system := mkSystem (ftable s) (pipes s) (ofiles s) x.

Abbreviation K := (M system).
Definition fs {A : Type} (m : M I A) : K A := zoom inodes set_inodes m.

(** *f, and a change of it. *)
Definition the_file (f : nat) : K file := x ← gets (fun s => ftable s !! f); deref x.
Definition upd_file (f : nat) (g : file -> file) : K unit := modify (fun s => set_ftable (alter g f (ftable s)) s).

Definition filealloc : K (option nat) :=
  t ← gets ftable;
  match find_index (fun f => ref f =? 0) t with
  | Some f => upd_file f (set_ref 1);; ret (Some f)
  | None => ret None
  end.

Definition filedup (f : nat) : K nat :=
  x ← the_file f;
  panic_if (ref x <? 1) "filedup";;
  upd_file f (set_ref (ref x + 1));;
  ret f.

(** pipeclose on the pipe of page [id]: the page goes back to kalloc when both ends are
    closed. *)
Definition close_pipe (id : nat) (writable : bool) : K unit :=
  p ← gets (fun s => pipes s !! id);
  p ← deref p;
  let '(p, freed) := pipeclose writable p in
  modify (fun s => set_pipes (if freed : bool then delete id (pipes s) else <[id := p]> (pipes s)) s).

Definition fileclose (f : nat) : K unit :=
  x ← the_file f;
  panic_if (ref x <? 1) "fileclose";;
  if 0 <? ref x - 1 then upd_file f (set_ref (ref x - 1))
  else
    upd_file f (fun x => set_type FD_NONE (set_ref 0 x));;
    match type x with
    | FD_PIPE => close_pipe (fpipe x) (writable x)
    | FD_INODE => fs begin_op;; fs (iput (ip x));; fs end_op
    | FD_NONE => ret tt
    end.

(** pipealloc; [page] is what kalloc returns. *)
Definition pipe_bad (f0 f1 : option nat) : K (option (nat * nat)) :=
  match f0 with Some f => fileclose f | None => ret tt end;;
  match f1 with Some f => fileclose f | None => ret tt end;;
  ret None.
Definition pipealloc (page : option nat) (junk : list Z) : K (option (nat * nat)) :=
  f0 ← filealloc;
  match f0 with
  | None => pipe_bad f0 None
  | Some r =>
      f1 ← filealloc;
      match f1 with
      | None => pipe_bad f0 f1
      | Some w =>
          match page with
          | None => pipe_bad f0 f1
          | Some id =>
              modify (fun s => set_pipes (<[id := newpipe junk]> (pipes s)) s);;
              upd_file r (fun f => mkFile FD_PIPE (ref f) true false id (ip f) (off f));;
              upd_file w (fun f => mkFile FD_PIPE (ref f) false true id (ip f) (off f));;
              ret (Some (r, w))
          end
      end
  end.

(** ** Descriptors of process [i] *)

Definition the_table (i : nat) : K (list (option nat)) := t ← gets (fun s => ofiles s !! i); deref t.
Definition set_fd (i fd : nat) (x : option nat) : K unit :=
  modify (fun s => set_ofiles (alter (fun t => <[fd := x]> t) i (ofiles s)) s).

(** argfd, once the argument is known to be [fd]: the file, or -1. *)
Definition argfd (i : nat) (fd : Z) : K (option nat) :=
  t ← the_table i;
  if (fd <? 0) || (Z.of_nat NOFILE <=? fd) then ret None
  else ret (default None (t !! Z.to_nat fd)).

Definition fdalloc (i f : nat) : K (option nat) :=
  t ← the_table i;
  match find_index (fun x => bool_decide (x = None)) (take NOFILE t) with
  | Some fd => set_fd i fd (Some f);; ret (Some fd)
  | None => ret None
  end.

Definition sys_dup (i : nat) (fd : Z) : K Z :=
  f ← argfd i fd;
  match f with
  | None => ret (-1)
  | Some f =>
      n ← fdalloc i f;
      match n with
      | None => ret (-1)
      | Some n => filedup f;; ret (Z.of_nat n)
      end
  end.

Definition sys_close (i : nat) (fd : Z) : K Z :=
  f ← argfd i fd;
  match f with
  | None => ret (-1)
  | Some f => set_fd i (Z.to_nat fd) None;; fileclose f;; ret 0
  end.

(** sys_pipe, once its argument is checked; the value is what it stores there. *)
Definition sys_pipe (i : nat) (page : option nat) (junk : list Z) : K (option (nat * nat)) :=
  p ← pipealloc page junk;
  match p with
  | None => ret None
  | Some (rf, wf) =>
      fd0 ← fdalloc i rf;
      match fd0 with
      | None => fileclose rf;; fileclose wf;; ret None
      | Some fd0 =>
          fd1 ← fdalloc i wf;
          match fd1 with
          | None => set_fd i fd0 None;; fileclose rf;; fileclose wf;; ret None
          | Some fd1 => ret (Some (fd0, fd1))
          end
      end
  end.

(** sys_open from the point where it has the inode [n], locked. *)
Definition open_inode (i n : nat) (omode : Z) : K Z :=
  f ← filealloc;
  match f with
  | None => fs (iunlockput n);; fs end_op;; ret (-1)
  | Some f =>
      fd ← fdalloc i f;
      match fd with
      | None => fileclose f;; fs (iunlockput n);; fs end_op;; ret (-1)
      | Some fd =>
          fs (iunlock n);;
          fs end_op;;
          upd_file f (fun x => mkFile FD_INODE (ref x) (Z.land omode O_WRONLY =? 0)
                                 (negb (Z.land omode O_WRONLY =? 0) || negb (Z.land omode O_RDWR =? 0)) (fpipe x) n 0);;
          ret (Z.of_nat fd)
      end
  end.

(** fork's and exit's loops over the descriptors. *)
Fixpoint fork_files (child : nat) (fd : nat) (t : list (option nat)) : K unit :=
  match t with
  | [] => ret tt
  | None :: t => fork_files child (S fd) t
  | Some f :: t => f ← filedup f; set_fd child fd (Some f);; fork_files child (S fd) t
  end.
Fixpoint exit_files (i : nat) (fd : nat) (t : list (option nat)) : K unit :=
  match t with
  | [] => ret tt
  | None :: t => exit_files i (S fd) t
  | Some f :: t => fileclose f;; set_fd i fd None;; exit_files i (S fd) t
  end.
End Files.

(** ** Processes and their swap files

    allocproc gives every process but the first two a file "/.swap" and its pid, which takes an
    entry of the file table without a descriptor, and exit takes it away. *)

(** What createSwapFile and removeSwapFile do in the root directory: make the file of a pid and
    give its locked inode, if it can be made; and remove its name, with removeSwapFile's
    result. *)
Class SwapNames (I : Type) : Type := {
  create_swap : Z -> M I (option nat);
  unlink_swap : Z -> M I Z
}.

(** What memory fork finds: none for the child's kernel stack, none for the copy of the address
    space, or enough. *)
Inductive memory_left : Type := NoStack | NoCopy | Enough.
#[export] Instance memory_left_eq_dec : EqDecision memory_left.
Proof. solve_decision. Defined.

Section Processes.
Context {I : Type} `{InodeLayer I} `{SwapNames I}.

(** The files, and p->swapFile and p->pid of each slot of the process table. *)
Record world : Type := mkWorld {
  files : system (I := I);
  swapFile : list (option nat);
  pids : list Z;
  nextpid : Z
}.
Definition set_files (x : system) (w : world) : world := mkWorld x (swapFile w) (pids w) (nextpid w).
Definition set_swapFile (x : list (option nat)) (w : world) : world := mkWorld (files w) x (pids w) (nextpid w).

Abbreviation W := (M world).
Definition on_files {A : Type} (m : M (system (I := I)) A) : W A := zoom files set_files m.

Definition createSwapFile (p : nat) (pid : Z) : W unit :=
  on_files (fs begin_op);;
  o ← on_files (fs (create_swap pid));
  match o with
  | None => panic "iunlock"
  | Some n =>
      on_files (fs (iunlock n));;
      o ← on_files filealloc;
      modify (fun w => set_swapFile (<[p := o]> (swapFile w)) w);;
      match o with
      | None => panic "no slot for files on /store"
      | Some f =>
          on_files (upd_file f (fun x => mkFile FD_INODE (ref x) (negb (O_WRONLY =? 0)) (negb (O_RDWR =? 0)) (fpipe x) n 0));;
          on_files (fs end_op)
      end
  end.

Definition removeSwapFile (p : nat) (pid : Z) : W Z :=
  o ← gets (fun w => swapFile w !! p);
  match o with
  | Some (Some f) => on_files (fileclose f);; on_files (fs (unlink_swap pid))
  | _ => ret (-1)
  end.

(** What allocproc does to slot [p] here: its pid and, once it has a kernel stack, its swap
    file. *)
Definition alloc_pid (p : nat) : W Z :=
  n ← gets nextpid;
  modify (fun w => mkWorld (files w) (swapFile w) (<[p := n]> (pids w)) (s32 (n + 1)));;
  ret n.
Definition alloc_swap (p : nat) : W unit :=
  n ← alloc_pid p;
  when (negb ((n =? 1) || (n =? 2))) (createSwapFile p n).

(** fork and exit, as far as files go. When copyuvm has no memory, fork gives up and leaves the
    child's swap file as it is. *)
Definition fork_process (i child : nat) (m : memory_left) : W unit :=
  match m with
  | NoStack => alloc_pid child;; ret tt
  | NoCopy => alloc_swap child
  | Enough => alloc_swap child;; t ← on_files (the_table i); on_files (fork_files child 0 t)
  end.
Definition exit_process (i : nat) : W unit :=
  t ← on_files (the_table i);
  on_files (exit_files i 0 t);;
  o ← gets (fun w => pids w !! i);
  pid ← deref o;
  r ← removeSwapFile i pid;
  panic_if (negb (r =? 0)) "Swap File Remove Failed".
End Processes.
