(* ===== verification/FileSpec.v ===== *)
(** * FileSpec: reference counts and pipe ends (offline_4/xv6/file.c, pipe.c, sysfile.c)

    The count of an open file is the number of descriptors that name it, in all processes, and
    of the swap files [sw], which no descriptor names. In the middle of a call the caller holds
    references of its own, or has a descriptor whose reference is gone: [x f] is what the count
    of [f] is beyond its descriptors. *)

From S2P Require Import Prelude Fcntl Pipe File.

(** How many descriptors name [f]. *)
Definition names (f : nat) (d : option nat) : Z := if decide (d = Some f) then 1 else 0.
Definition count_in (f : nat) (t : list (option nat)) : Z := sum_list_Z (map (names f) t).
Definition count (f : nat) (ts : list (list (option nat))) : Z := sum_list_Z (map (count_in f) ts).

(** One more, or fewer, beyond the descriptors. *)
Definition bump (f : nat) (d : Z) (x : nat -> Z) : nat -> Z := fun k => if decide (k = f) then x k + d else x k.

Lemma names_range f d : 0 <= names f d <= 1.
Proof. unfold names. destruct (decide _); lia. Qed.
Lemma count_in_nonneg f t : 0 <= count_in f t.
Proof. unfold count_in. induction t as [|d t IH]; simpl; [lia|]. pose proof (names_range f d). lia. Qed.
Lemma count_nonneg f ts : 0 <= count f ts.
Proof. unfold count. induction ts as [|t ts IH]; simpl; [lia|]. pose proof (count_in_nonneg f t). lia. Qed.

Lemma sum_insert {A : Type} (g : A -> Z) l : forall i old new, l !! i = Some old ->
  sum_list_Z (map g (<[i := new]> l)) = sum_list_Z (map g l) - g old + g new.
Proof.
  induction l as [|a l IH]; intros [|i] old new Hi; try done; simpl in *.
  - injection Hi as ->. lia.
  - rewrite (IH _ old) by done. lia.
Qed.
Lemma sum_ge {A : Type} (g : A -> Z) l : (forall a, 0 <= g a) -> forall i a, l !! i = Some a -> g a <= sum_list_Z (map g l).
Proof.
  intros Hg. induction l as [|b l IH]; intros [|i] a Hi; try done; simpl in *.
  - injection Hi as ->. assert (0 <= sum_list_Z (map g l)) by (clear - Hg; induction l; simpl; [lia|]; pose proof (Hg a); lia). lia.
  - pose proof (IH i a Hi). pose proof (Hg b). lia.
Qed.

Lemma count_set f ts i t fd old new : ts !! i = Some t -> t !! fd = Some old ->
  count f (<[i := <[fd := new]> t]> ts) = count f ts - names f old + names f new.
Proof.
  intros Hi Hfd. unfold count. rewrite (sum_insert _ _ i t) by done. unfold count_in at 3. rewrite (sum_insert _ _ fd old) by done.
  fold (count_in f t). lia.
Qed.
Lemma count_ge1 f ts i t fd : ts !! i = Some t -> t !! fd = Some (Some f) -> 1 <= count f ts.
Proof.
  intros Hi Hfd. pose proof (sum_ge (count_in f) ts (count_in_nonneg f) i t Hi).
  pose proof (sum_ge (names f) t (fun d => proj1 (names_range f d)) fd (Some f) Hfd) as H1.
  unfold names in H1 at 1. rewrite decide_True in H1 by done. unfold count, count_in in *. lia.
Qed.

Section Spec.
Context {I : Type} `{InodeLayer I}.
Abbreviation sys := (system (I := I)).
Implicit Types (s : sys).

(** [f] is the end of pipe [id] that [w] says. *)
Definition is_end (id : nat) (w : bool) (y : file) : Prop := type y = FD_PIPE /\ fpipe y = id /\ writable y = w.
Definition open_end (w : bool) (p : pipe) : bool := if w then writeopen p else readopen p.

(** How many references to a file are held outside descriptor tables, for good: by the processes
    whose swap file it is. *)
Context (sw : nat -> Z) (sw_pos : forall f, 0 <= sw f).

Record table_ok (x : nat -> Z) (s : sys) : Prop := {
  tk_len : length (ftable s) = NFILE;
  tk_fds : forall i t, ofiles s !! i = Some t -> length t = NOFILE /\ forall fd f, t !! fd = Some (Some f) -> (f < NFILE)%nat;
  tk_ref : forall f y, ftable s !! f = Some y -> ref y = count f (ofiles s) + sw f + x f /\ 0 <= ref y;
  tk_none : forall f y, ftable s !! f = Some y -> ref y = 0 -> type y = FD_NONE;
  tk_pipe : forall f y, ftable s !! f = Some y -> type y = FD_PIPE -> is_Some (pipes s !! fpipe y);
  tk_open : forall id p w, pipes s !! id = Some p -> open_end w p = true <-> exists f y, ftable s !! f = Some y /\ is_end id w y;
  tk_used : forall id p, pipes s !! id = Some p -> readopen p = true \/ writeopen p = true;
  tk_one : forall id w f y f' y', ftable s !! f = Some y -> ftable s !! f' = Some y' -> is_end id w y -> is_end id w y' -> f = f';
  tk_swap : forall f y, ftable s !! f = Some y -> 1 <= sw f -> type y = FD_INODE
}.

Lemma table_ok_ext x x' s : (forall f, x f = x' f) -> table_ok x s -> table_ok x' s.
Proof. intros E [K1 K2 K3 K4 K5 K6 K7 K8 K9]. split; try done. intros f y Hf. rewrite <- E. by apply K3. Qed.

(** Only the counts of the table change. *)
Lemma table_ok_counts x x' s t ts : table_ok x s -> length t = NFILE ->
  (forall f y, t !! f = Some y -> exists y0, ftable s !! f = Some y0 /\ y = set_ref (ref y) y0 /\ (ref y = 0 -> type y = FD_NONE)) ->
  (forall f y, t !! f = Some y -> ref y = count f ts + sw f + x' f /\ 0 <= ref y) ->
  (forall i l, ts !! i = Some l -> length l = NOFILE /\ forall fd f, l !! fd = Some (Some f) -> (f < NFILE)%nat) ->
  table_ok x' (mkSystem t (pipes s) ts (inodes s)).
Proof.
  intros [K1 K2 K3 K4 K5 K6 K7 K8 K9] Hlen Ht Href Hts. split; cbn [ftable pipes ofiles]; try done.
  - intros f y Hf E. by destruct (Ht f y Hf) as (y0 & _ & _ & Hz); apply Hz.
  - intros f y Hf E. destruct (Ht f y Hf) as (y0 & H0 & Ey & _). rewrite Ey in E |- *. by apply (K5 f y0).
  - intros id p w Hp. rewrite (K6 id p w Hp). split.
    + intros (f & y0 & Hf & He). destruct (lookup_lt_is_Some_2 t f) as [y Hy]; [rewrite Hlen, <- K1; by eapply lookup_lt_Some|].
      destruct (Ht f y Hy) as (y1 & H1 & Ey & _). exists f, y. split; [done|]. rewrite Ey. assert (y1 = y0) as -> by congruence. exact He.
    + intros (f & y & Hf & He). destruct (Ht f y Hf) as (y0 & H0 & Ey & _). exists f, y0. split; [done|]. by rewrite Ey in He.
  - intros id w f y f' y' Hf Hf' He He'. destruct (Ht f y Hf) as (y0 & H0 & Ey & _), (Ht f' y' Hf') as (y0' & H0' & Ey' & _).
    rewrite Ey in He. rewrite Ey' in He'. by apply (K8 id w f y0 f' y0').
  - intros f y Hf Hs. destruct (Ht f y Hf) as (y0 & H0 & Ey & _). rewrite Ey. by apply (K9 f y0).
Qed.

Lemma the_file_run f s y : ftable s !! f = Some y -> the_file f s = Ret y s.
Proof. intros Hf. unfold the_file, gets, mbind, M_bind, deref. by rewrite Hf. Qed.

Lemma no_panic {S A : Type} msg (m : M S A) (s : S) : (panic_if false msg;; m) s = m s.
Proof. done. Qed.

(** ** Operations on the table *)

Lemma alter_insert {A : Type} (g : A -> A) (l : list A) i a : l !! i = Some a -> alter g i l = <[i := g a]> l.
Proof. intros Hi. by apply list_alter_insert. Qed.

Lemma upd_file_run f g s y : ftable s !! f = Some y -> upd_file f g s = Ret tt (set_ftable (<[f := g y]> (ftable s)) s).
Proof. intros Hy. unfold upd_file, modify. by rewrite (alter_insert _ _ _ _ Hy). Qed.

Lemma modify_run (g : sys -> sys) s : modify g s = Ret tt (g s).
Proof. done. Qed.

Lemma filealloc_spec x s : table_ok x s ->
  filealloc s = Ret None s \/
  exists f y, ftable s !! f = Some y /\ ref y = 0 /\ type y = FD_NONE /\
    filealloc s = Ret (Some f) (set_ftable (<[f := set_ref 1 y]> (ftable s)) s) /\
    table_ok (bump f 1 x) (set_ftable (<[f := set_ref 1 y]> (ftable s)) s).
Proof.
  intros T. unfold filealloc. rewrite (bind_ret _ _ _ _ _ (eq_refl : gets ftable s = Ret (ftable s) s)).
  destruct (find_index _ (ftable s)) as [f|] eqn:Ef; [|by left]. right.
  apply find_index_Some in Ef as (y & Hy & Hr%Z.eqb_eq & _). exists f, y. pose proof (tk_none x s T f y Hy Hr) as Hn. split_and!; try done.
  - by rewrite (bind_ret _ _ _ _ _ (upd_file_run f _ s y Hy)).
  - destruct s as [t ps ts ii]. unfold set_ftable. cbn [ftable pipes ofiles inodes] in *.
    apply (table_ok_counts x _ (mkSystem t ps ts ii) _ _ T); cbn [ftable]; rewrite ?length_insert; try apply T.
    + intros k z [(<- & <- & _)|[Hne Hz]]%list_lookup_insert_Some; [by exists y|]. exists z. split_and!; [done|by destruct z|by apply (tk_none x _ T k)].
    + intros k z [(<- & <- & _)|[Hne Hz]]%list_lookup_insert_Some; unfold bump.
      * rewrite decide_True by done. destruct (tk_ref x _ T f y Hy) as [E _]. cbn [set_ref ref ofiles] in *. lia.
      * rewrite decide_False by done. by apply (tk_ref x _ T k z).
Qed.

Lemma filedup_spec x s f y : table_ok x s -> ftable s !! f = Some y -> 1 <= ref y ->
  exists s', filedup f s = Ret f s' /\ s' = set_ftable (<[f := set_ref (ref y + 1) y]> (ftable s)) s /\ table_ok (bump f 1 x) s'.
Proof.
  intros T Hy Hr. eexists. split_and!; [|done|].
  - unfold filedup. rewrite (bind_ret _ _ _ _ _ (the_file_run f s y Hy)). replace (ref y <? 1) with false by lia.
    rewrite no_panic. by rewrite (bind_ret _ _ _ _ _ (upd_file_run f _ s y Hy)).
  - destruct s as [t ps ts ii]. unfold set_ftable. cbn [ftable pipes ofiles inodes] in *.
    apply (table_ok_counts x _ (mkSystem t ps ts ii) _ _ T); cbn [ftable]; rewrite ?length_insert; try apply T.
    + intros k z [(<- & <- & _)|[Hne Hz]]%list_lookup_insert_Some; [exists y; split_and!; [done|done|cbn [set_ref ref]; lia]|].
      exists z. split_and!; [done|by destruct z|by apply (tk_none x _ T k)].
    + intros k z [(<- & <- & _)|[Hne Hz]]%list_lookup_insert_Some; unfold bump.
      * rewrite decide_True by done. destruct (tk_ref x _ T f y Hy) as [E _]. cbn [set_ref ref ofiles] in *. lia.
      * rewrite decide_False by done. by apply (tk_ref x _ T k z).
Qed.

(** A descriptor is set: one more for the new file, one fewer for the old. *)
Definition hand (d : option nat) (n : Z) (x : nat -> Z) : nat -> Z := match d with Some f => bump f n x | None => x end.

Lemma set_fd_spec x s i fd t old new : table_ok x s -> ofiles s !! i = Some t -> t !! fd = Some old ->
  (forall f, new = Some f -> (f < NFILE)%nat) ->
  set_fd i fd new s = Ret tt (set_ofiles (<[i := <[fd := new]> t]> (ofiles s)) s) /\
  table_ok (hand old 1 (hand new (-1) x)) (set_ofiles (<[i := <[fd := new]> t]> (ofiles s)) s).
Proof.
  intros T Hi Hfd Hnew. split; [unfold set_fd, modify; by rewrite (alter_insert _ _ _ _ Hi)|].
  destruct s as [tb ps ts ii]. unfold set_ofiles. cbn [ftable pipes ofiles inodes] in *.
  apply (table_ok_counts x _ (mkSystem tb ps ts ii) _ _ T); cbn [ftable]; try apply T.
  - intros k z Hz. exists z. split_and!; [done|by destruct z|by apply (tk_none x _ T k)].
  - intros k z Hz. destruct (tk_ref x _ T k z Hz) as [E Hge]. cbn [ofiles] in E. split; [|done].
    rewrite (count_set k ts i t fd old new) by done. unfold hand, names, bump.
    destruct old as [o|], new as [w|]; repeat (destruct (decide _)); simplify_eq; lia.
  - intros j l [(<- & <- & _)|[Hne Hl]]%list_lookup_insert_Some; [|by apply (tk_fds x _ T j)].
    destruct (tk_fds x _ T i t Hi) as [L F]. rewrite length_insert. split; [done|].
    intros k f [(<- & E & _)|[Hk Hf]]%list_lookup_insert_Some; [by apply Hnew|by apply (F k)].
Qed.
(** ** Closing *)

(** The last reference to [f] goes, and with it the end of a pipe. *)
Lemma drop_file x s f y ps : table_ok x s -> ftable s !! f = Some y -> ref y = 1 -> sw f < 1 ->
  (forall id p', ps !! id = Some p' -> (readopen p' = true \/ writeopen p' = true) /\
    exists p, pipes s !! id = Some p /\ forall w, open_end w p' = true <-> open_end w p = true /\ ~ is_end id w y) ->
  (forall k z, k <> f -> ftable s !! k = Some z -> type z = FD_PIPE -> is_Some (ps !! fpipe z)) ->
  table_ok (bump f (-1) x) (mkSystem (<[f := set_type FD_NONE (set_ref 0 y)]> (ftable s)) ps (ofiles s) (inodes s)).
Proof.
  intros T Hy Hr Hsw HP HQ. pose proof T as [K1 K2 K3 K4 K5 K6 K7 K8 K9]. split; cbn [ftable pipes ofiles]; rewrite ?length_insert; try done.
  - intros k z [(<- & <- & _)|[Hne Hz]]%list_lookup_insert_Some; unfold bump.
    + rewrite decide_True by done. destruct (K3 f y Hy) as [E _]. cbn [set_type set_ref ref] in *. lia.
    + rewrite decide_False by done. by apply K3.
  - intros k z [(<- & <- & _)|[Hne Hz]]%list_lookup_insert_Some; [done|by apply (K4 k)].
  - intros k z [(<- & <- & _)|[Hne Hz]]%list_lookup_insert_Some; [done|by apply (HQ k z)].
  - intros id p' w Hp'. destruct (HP id p' Hp') as (_ & p & Hp & Ho). rewrite Ho, (K6 id p w Hp). split.
    + intros [(k & z & Hk & He) Hno]. exists k, z. split; [|done]. rewrite list_lookup_insert_ne; [done|]. intros <-. congruence.
    + intros (k & z & [(<- & <- & _)|[Hne Hz]]%list_lookup_insert_Some & He); [by destruct He as [He _]|]. split; [eauto|].
      intros Hy'. by apply Hne, (K8 id w f y k z).
  - intros id p' Hp'. apply (HP id p' Hp').
  - intros id w k z k' z' [(<- & <- & _)|[Hn Hz]]%list_lookup_insert_Some [(<- & <- & _)|[Hn' Hz']]%list_lookup_insert_Some He He'; try done.
    + by destruct He as [He _].
    + by destruct He' as [He' _].
    + by apply (K8 id w k z k' z').
  - intros k z [(<- & <- & _)|[Hne Hz]]%list_lookup_insert_Some Hs; [lia|by apply (K9 k)].
Qed.

Lemma pipeclose_ends w0 p : let '(p', freed) := pipeclose w0 p in
  (forall w, open_end w p' = true <-> open_end w p = true /\ w <> w0) /\ (freed = true <-> readopen p' = false /\ writeopen p' = false).
Proof.
  unfold pipeclose, open_end. destruct p as [d nr nw ro wo rs ws], w0; cbn; split.
  - intros [|]; naive_solver.
  - destruct ro; naive_solver.
  - intros [|]; naive_solver.
  - destruct wo; naive_solver.
Qed.

(** The last reference to a pipe's end: what close_pipe does to the pipes. *)
Lemma close_pipe_spec x s f y : table_ok x s -> ftable s !! f = Some y -> type y = FD_PIPE ->
  exists ps, (forall s', pipes s' = pipes s -> close_pipe (fpipe y) (writable y) s' = Ret tt (set_pipes ps s')) /\
    (forall id p', ps !! id = Some p' -> (readopen p' = true \/ writeopen p' = true) /\
      exists p, pipes s !! id = Some p /\ forall w, open_end w p' = true <-> open_end w p = true /\ ~ is_end id w y) /\
    (forall k z, k <> f -> ftable s !! k = Some z -> type z = FD_PIPE -> is_Some (ps !! fpipe z)).
Proof.
  intros T Hy Ht. destruct (tk_pipe x s T f y Hy Ht) as [p Hp]. pose proof (pipeclose_ends (writable y) p) as Hc.
  destruct (pipeclose (writable y) p) as [p' freed] eqn:Ec. destruct Hc as [Ho Hf].
  assert (Hother : forall id p1, pipes s !! id = Some p1 -> id <> fpipe y ->
    (readopen p1 = true \/ writeopen p1 = true) /\ exists p, pipes s !! id = Some p /\ forall w, open_end w p1 = true <-> open_end w p = true /\ ~ is_end id w y).
  { intros id p1 H1 Hne. split; [by apply (tk_used x s T id)|]. exists p1. split; [done|]. intros w. split; [|tauto].
    intros E. split; [done|]. intros (_ & E' & _). congruence. }
  exists (if freed then delete (fpipe y) (pipes s) else <[fpipe y := p']> (pipes s)). split_and!.
  - intros s' E. unfold close_pipe. rewrite (bind_ret _ _ _ _ _ (eq_refl : gets (fun s => pipes s !! fpipe y) s' = Ret (pipes s' !! fpipe y) s')).
    rewrite E, Hp. unfold deref, mbind, M_bind, ret. rewrite Ec. unfold modify. rewrite E. by destruct freed.
  - intros id p1 H1. destruct freed.
    + apply lookup_delete_Some in H1 as [Hne H1]. by apply Hother.
    + apply lookup_insert_Some in H1 as [[<- <-]|[Hne H1]]; [|by apply Hother].
      split; [destruct (readopen p') eqn:E1, (writeopen p') eqn:E2; auto; by destruct Hf as [_ Hf]; discriminate Hf|].
      exists p. split; [done|]. intros w. rewrite Ho. unfold is_end. split; intros [E1 E2]; (split; [done|]); [naive_solver|].
      intros ->. by apply E2.
  - intros k z Hne Hz Hzt. destruct (decide (fpipe z = fpipe y)) as [E|E].
    + destruct freed; [|rewrite E, lookup_insert_eq; by eexists]. exfalso. destruct (proj1 Hf eq_refl) as [Hro Hwo].
      assert (Hze : open_end (writable z) p = true) by (apply (tk_open x s T _ _ _ Hp); exists k, z; by split_and!).
      destruct (decide (writable z = writable y)) as [Ew|Ew].
      * apply Hne, (tk_one x s T (fpipe y) (writable y) k z f y Hz Hy); split_and!; done.
      * assert (open_end (writable z) p' = true) as Hop by (by apply Ho). unfold open_end in Hop. destruct (writable z); congruence.
    + destruct (tk_pipe x s T k z Hz Hzt) as [pz Hpz]. destruct freed; [rewrite lookup_delete_ne by done|rewrite lookup_insert_ne by done]; by eexists.
Qed.

(** The layer below returns. *)
Class LayerReturns : Prop := {
  lr_begin_op : forall m, exists m', begin_op m = Ret tt m';
  lr_end_op : forall m, exists m', end_op m = Ret tt m';
  lr_iput : forall n m, exists m', iput n m = Ret tt m';
  lr_iunlock : forall n m, exists m', iunlock n m = Ret tt m';
  lr_iunlockput : forall n m, exists m', iunlockput n m = Ret tt m'
}.
Context `{LayerReturns}.

Lemma fs_run {A : Type} (m : M I A) s a i : m (inodes s) = Ret a i -> fs m s = Ret a (set_inodes i s).
Proof. intros E. unfold fs, zoom. by rewrite E. Qed.

Lemma table_ok_inodes x s i : table_ok x s -> table_ok x (set_inodes i s).
Proof. intros [K1 K2 K3 K4 K5 K6 K7 K8 K9]. by split. Qed.

(** fileclose with other descriptors: exit closes a file before it clears its descriptor. *)
Lemma fileclose_spec x s f y : table_ok x s -> ftable s !! f = Some y -> 1 <= count f (ofiles s) + x f ->
  exists t ps i, (forall ts, fileclose f (set_ofiles ts s) = Ret tt (mkSystem t ps ts i)) /\ table_ok (bump f (-1) x) (mkSystem t ps (ofiles s) i) /\
    forall k, k <> f -> t !! k = ftable s !! k.
Proof.
  intros T Hy Hx. pose proof T as [K1 K2 K3 K4 K5 K6 K7 K8 K9]. pose proof (sw_pos f). destruct (K3 f y Hy) as [Er _].
  assert (Hr : 1 <= ref y) by lia. destruct (decide (ref y = 1)) as [E1|E1].
  - assert (Hps : exists ps, (type y = FD_PIPE -> forall s', pipes s' = pipes s -> close_pipe (fpipe y) (writable y) s' = Ret tt (set_pipes ps s')) /\
      (type y <> FD_PIPE -> ps = pipes s) /\ forall i, table_ok (bump f (-1) x) (mkSystem (<[f := set_type FD_NONE (set_ref 0 y)]> (ftable s)) ps (ofiles s) i)).
    { destruct (decide (type y = FD_PIPE)) as [Et|Et].
      - destruct (close_pipe_spec x s f y T Hy Et) as (ps & Hrun & HP & HQ). exists ps. split_and!; try done.
        intros i. apply (table_ok_inodes _ _ i (drop_file x s f y ps T Hy E1 ltac:(lia) HP HQ)).
      - exists (pipes s). split_and!; try done. intros i. apply (table_ok_inodes _ _ i (drop_file x s f y (pipes s) T Hy E1 ltac:(lia)
          (fun id p Hp => conj (K7 id p Hp) (ex_intro _ p (conj Hp (fun w => conj (fun E => conj E (fun '(conj e _) => Et e)) (fun E => proj1 E)))))
          (fun k z _ => K5 k z))). }
    destruct Hps as (ps & Hrun & Hsame & Hok).
    assert (Hfs : type y = FD_INODE -> exists i, forall t ps ts, (fs begin_op;; fs (iput (ip y));; fs end_op) (mkSystem t ps ts (inodes s)) = Ret tt (mkSystem t ps ts i)).
    { intros _. destruct (lr_begin_op (inodes s)) as [i1 R1], (lr_iput (ip y) i1) as [i2 R2], (lr_end_op i2) as [i3 R3].
      exists i3. intros t ps' ts. rewrite (bind_ret _ _ _ _ _ (fs_run _ (mkSystem t ps' ts (inodes s)) _ _ R1)).
      rewrite (bind_ret _ _ _ _ _ (fs_run _ (set_inodes i1 (mkSystem t ps' ts (inodes s))) _ _ R2)). by rewrite (fs_run _ (set_inodes i2 (set_inodes i1 (mkSystem t ps' ts (inodes s)))) _ _ R3). }
    assert (Hopen : forall ts, fileclose f (set_ofiles ts s) =
      match type y with
      | FD_PIPE => close_pipe (fpipe y) (writable y)
      | FD_INODE => fs begin_op;; fs (iput (ip y));; fs end_op
      | FD_NONE => ret tt
      end (mkSystem (<[f := set_type FD_NONE (set_ref 0 y)]> (ftable s)) (pipes s) ts (inodes s))).
    { intros ts. unfold fileclose. rewrite (bind_ret _ _ _ _ _ (the_file_run f (set_ofiles ts s) y Hy)).
      replace (ref y <? 1) with false by lia. replace (0 <? ref y - 1) with false by lia.
      rewrite no_panic. by rewrite (bind_ret _ _ _ _ _ (upd_file_run f _ (set_ofiles ts s) y Hy)). }
    destruct (type y) eqn:Et.
    + exists (<[f := set_type FD_NONE (set_ref 0 y)]> (ftable s)), ps, (inodes s). rewrite (Hsame ltac:(done)) in *.
      split_and!; [intros ts; by rewrite Hopen|done|intros k Hk; by apply list_lookup_insert_ne].
    + exists (<[f := set_type FD_NONE (set_ref 0 y)]> (ftable s)), ps, (inodes s).
      split_and!; [intros ts; rewrite Hopen; by rewrite (Hrun eq_refl)|done|intros k Hk; by apply list_lookup_insert_ne].
    + destruct (Hfs eq_refl) as [i Hi]. exists (<[f := set_type FD_NONE (set_ref 0 y)]> (ftable s)), ps, i. rewrite (Hsame ltac:(done)) in *.
      split_and!; [intros ts; rewrite Hopen; apply Hi|done|intros k Hk; by apply list_lookup_insert_ne].
  - exists (<[f := set_ref (ref y - 1) y]> (ftable s)), (pipes s), (inodes s). split_and!.
    + intros ts. unfold fileclose. rewrite (bind_ret _ _ _ _ _ (the_file_run f (set_ofiles ts s) y Hy)).
      replace (ref y <? 1) with false by lia. replace (0 <? ref y - 1) with true by lia.
      rewrite no_panic. by rewrite (upd_file_run f _ (set_ofiles ts s) y Hy).
    + apply (table_ok_counts x _ s _ _ T); rewrite ?length_insert; try done.
      * intros k z [(<- & <- & _)|[Hne Hz]]%list_lookup_insert_Some; [exists y; split_and!; [done|done|cbn [set_ref ref]; lia]|].
        exists z. split_and!; [done|by destruct z|by apply (K4 k)].
      * intros k z [(<- & <- & _)|[Hne Hz]]%list_lookup_insert_Some; unfold bump.
        -- rewrite decide_True by done. destruct (K3 f y Hy) as [E _]. cbn [set_ref ref] in *. lia.
        -- rewrite decide_False by done. by apply K3.
    + intros k Hk. by apply list_lookup_insert_ne.
Qed.
(** ** Opening *)

(** A file in use that is no pipe's end becomes another such file. *)
Lemma retype_file x s f y y' : table_ok x s -> ftable s !! f = Some y -> ref y <> 0 -> ref y' = ref y -> type y <> FD_PIPE -> type y' = FD_INODE ->
  table_ok x (set_ftable (<[f := y']> (ftable s)) s).
Proof.
  intros [K1 K2 K3 K4 K5 K6 K7 K8 K9] Hy Hr Er Ht Ht'. split; cbn [set_ftable ftable pipes ofiles]; rewrite ?length_insert; try done.
  - intros k z [(<- & <- & _)|[Hne Hz]]%list_lookup_insert_Some; [rewrite Er; exact (K3 _ _ Hy)|exact (K3 _ _ Hz)].
  - intros k z [(<- & <- & _)|[Hne Hz]]%list_lookup_insert_Some; [lia|exact (K4 _ _ Hz)].
  - intros k z [(<- & <- & _)|[Hne Hz]]%list_lookup_insert_Some; [congruence|exact (K5 _ _ Hz)].
  - intros id p w Hp. rewrite (K6 id p w Hp). split.
    + intros (k & z & Hk & He). exists k, z. split; [|done]. rewrite list_lookup_insert_ne; [done|]. intros <-. destruct He as [He _]. congruence.
    + intros (k & z & [(<- & <- & _)|[Hne Hz]]%list_lookup_insert_Some & He); [destruct He as [He _]; congruence|eauto].
  - intros id w k z k' z' [(<- & <- & _)|[Hn Hz]]%list_lookup_insert_Some [(<- & <- & _)|[Hn' Hz']]%list_lookup_insert_Some He He'; try done.
    + destruct He as [He _]. congruence.
    + destruct He' as [He' _]. congruence.
    + by apply (K8 id w k z k' z').
  - intros k z [(<- & <- & _)|[Hne Hz]]%list_lookup_insert_Some Hs; [done|by apply (K9 k)].
Qed.

(** Two files in use become the ends of a new pipe. *)
Lemma make_pipe x s f g y z id junk yr zw : table_ok x s -> f <> g -> ftable s !! f = Some y -> ftable s !! g = Some z ->
  ref y <> 0 -> ref z <> 0 -> type y = FD_NONE -> type z = FD_NONE -> pipes s !! id = None ->
  ref yr = ref y -> is_end id false yr -> ref zw = ref z -> is_end id true zw ->
  table_ok x (mkSystem (<[g := zw]> (<[f := yr]> (ftable s))) (<[id := newpipe junk]> (pipes s)) (ofiles s) (inodes s)).
Proof.
  intros [K1 K2 K3 K4 K5 K6 K7 K8 K9] Hfg Hy Hz Hry Hrz Hty Htz Hid Er Hr Ew Hw.
  assert (L : forall k v, <[g := zw]> (<[f := yr]> (ftable s)) !! k = Some v ->
    (k = f /\ v = yr) \/ (k = g /\ v = zw) \/ (k <> f /\ k <> g /\ ftable s !! k = Some v)).
  { intros k v [(<- & <- & _)|[Hn [(<- & <- & _)|[Hn' Hv]]%list_lookup_insert_Some]]%list_lookup_insert_Some; auto 6. }
  assert (Hgf : <[g := zw]> (<[f := yr]> (ftable s)) !! f = Some yr).
  { rewrite list_lookup_insert_ne by done. apply list_lookup_insert_eq. by eapply lookup_lt_Some. }
  assert (Hgg : <[g := zw]> (<[f := yr]> (ftable s)) !! g = Some zw).
  { apply list_lookup_insert_eq. rewrite length_insert. by eapply lookup_lt_Some. }
  assert (Hold : forall k v, k <> f -> k <> g -> ftable s !! k = Some v -> <[g := zw]> (<[f := yr]> (ftable s)) !! k = Some v).
  { intros k v H1 H2 Hv. by rewrite !list_lookup_insert_ne. }
  assert (Hfresh : forall k v w, ftable s !! k = Some v -> ~ is_end id w v).
  { intros k v w Hv (Ht & Ep & _). destruct (K5 k v Hv Ht) as [p Hp]. congruence. }
  split; cbn [ftable pipes ofiles]; rewrite ?length_insert; try done.
  - intros k v [[-> ->]|[[-> ->]|(_ & _ & Hv)]]%L; [rewrite Er; exact (K3 _ _ Hy)|rewrite Ew; exact (K3 _ _ Hz)|exact (K3 _ _ Hv)].
  - intros k v [[-> ->]|[[-> ->]|(_ & _ & Hv)]]%L; [lia|lia|exact (K4 _ _ Hv)].
  - intros k v [[-> ->]|[[-> ->]|(_ & _ & Hv)]]%L Ht.
    + destruct Hr as (_ & -> & _). rewrite lookup_insert_eq. by eexists.
    + destruct Hw as (_ & -> & _). rewrite lookup_insert_eq. by eexists.
    + destruct (K5 k v Hv Ht) as [p Hp]. rewrite lookup_insert_ne; [by eexists|]. congruence.
  - intros id' p w [[<- <-]|[Hne Hp]]%lookup_insert_Some.
    + split; [intros _|by destruct w]. destruct w; [by exists g, zw|by exists f, yr].
    + rewrite (K6 id' p w Hp). split.
      * intros (k & v & Hv & He). exists k, v. split; [|done]. apply Hold; try done; intros ->; destruct He as [He _]; congruence.
      * intros (k & v & [[-> ->]|[[-> ->]|(_ & _ & Hv)]]%L & He); [destruct He as (_ & E & _), Hr as (_ & E' & _); congruence|
          destruct He as (_ & E & _), Hw as (_ & E' & _); congruence|eauto].
  - intros id' p [[<- <-]|[Hne Hp]]%lookup_insert_Some; [by left|by apply (K7 id')].
  - intros id' w k v k' v' Hk Hk' He He'. destruct (decide (id' = id)) as [->|Hne].
    + assert (Hend : forall k v, <[g := zw]> (<[f := yr]> (ftable s)) !! k = Some v -> is_end id w v -> k = if w then g else f).
      { intros k1 v1 [[-> ->]|[[-> ->]|(_ & _ & Hv)]]%L H1; [destruct H1 as (_ & _ & <-), Hr as (_ & _ & ->); done|destruct H1 as (_ & _ & <-), Hw as (_ & _ & ->); done|].
        by destruct (Hfresh k1 v1 w Hv). }
      by rewrite (Hend k v), (Hend k' v').
    + assert (Hin : forall k v, <[g := zw]> (<[f := yr]> (ftable s)) !! k = Some v -> is_end id' w v -> ftable s !! k = Some v).
      { intros k1 v1 [[-> ->]|[[-> ->]|(_ & _ & Hv)]]%L H1; [destruct H1 as (_ & E & _), Hr as (_ & E' & _); congruence|destruct H1 as (_ & E & _), Hw as (_ & E' & _); congruence|done]. }
      apply (K8 id' w k v k' v'); auto.
  - intros k v [[-> ->]|[[-> ->]|(_ & _ & Hv)]]%L Hs; [|exfalso; by rewrite (K9 _ _ Hz Hs) in Htz|by apply (K9 k)].
    exfalso. by rewrite (K9 _ _ Hy Hs) in Hty.
Qed.

(** ** Descriptors *)

Definition none : nat -> Z := fun _ => 0.
Definition good (s : sys) : Prop := table_ok none s.

Lemma the_table_run i s t : ofiles s !! i = Some t -> the_table i s = Ret t s.
Proof. intros Hi. unfold the_table, gets, mbind, M_bind, deref. by rewrite Hi. Qed.

Lemma fdalloc_spec x s i t f : table_ok x s -> ofiles s !! i = Some t -> (f < NFILE)%nat ->
  fdalloc i f s = Ret None s \/
  exists fd, t !! fd = Some None /\ fdalloc i f s = Ret (Some fd) (set_ofiles (<[i := <[fd := Some f]> t]> (ofiles s)) s) /\
    table_ok (bump f (-1) x) (set_ofiles (<[i := <[fd := Some f]> t]> (ofiles s)) s).
Proof.
  intros T Hi Hf. unfold fdalloc. rewrite (bind_ret _ _ _ _ _ (the_table_run i s t Hi)).
  destruct (find_index _ _) as [fd|] eqn:E; [|by left]. right. exists fd.
  apply find_index_Some in E as (d & Hd & Ed%bool_decide_eq_true & _). subst d. apply lookup_take_Some in Hd as [Hd _].
  destruct (set_fd_spec x s i fd t None (Some f) T Hi Hd) as [Hrun Hok]; [by intros ? [= <-]|]. split_and!; [done| |done].
  by rewrite (bind_ret _ _ _ _ _ Hrun).
Qed.

Lemma argfd_spec i fd s t : ofiles s !! i = Some t ->
  argfd i fd s = Ret None s \/ exists f, 0 <= fd /\ t !! Z.to_nat fd = Some (Some f) /\ argfd i fd s = Ret (Some f) s.
Proof.
  intros Hi. unfold argfd. rewrite (bind_ret _ _ _ _ _ (the_table_run i s t Hi)).
  destruct ((fd <? 0) || (Z.of_nat NOFILE <=? fd)) eqn:E; [by left|]. destruct (t !! Z.to_nat fd) as [[f|]|] eqn:Ef; [|by left..].
  right. exists f. split_and!; [lia|done..].
Qed.

(** The file behind a descriptor. *)
Lemma named_file x s i t fd f : table_ok x s -> 0 <= x f -> ofiles s !! i = Some t -> t !! fd = Some (Some f) ->
  exists y, ftable s !! f = Some y /\ 1 <= ref y /\ 1 <= count f (ofiles s).
Proof.
  intros T Hx Hi Hfd. pose proof (sw_pos f). destruct (tk_fds x s T i t Hi) as [_ Hlt]. specialize (Hlt fd f Hfd).
  destruct (lookup_lt_is_Some_2 (ftable s) f) as [y Hy]; [by rewrite (tk_len x s T)|]. exists y. split; [done|].
  destruct (tk_ref x s T f y Hy) as [-> _]. pose proof (count_ge1 f _ i t fd Hi Hfd). split; lia.
Qed.

Ltac ext_bumps := eapply table_ok_ext; [|eassumption]; intros ?k; unfold hand, bump, none; repeat (destruct (decide _)); lia.
Definition calls {A : Type} (m : M sys A) (s : sys) : Prop := exists r s', m s = Ret r s' /\ good s'.

Lemma sys_dup_ok s i t fd : good s -> ofiles s !! i = Some t -> calls (sys_dup i fd) s.
Proof.
  intros T Hi. unfold sys_dup. destruct (argfd_spec i fd s t Hi) as [E|(f & _ & Hf & E)].
  { eexists _, s. by rewrite (bind_ret _ _ _ _ _ E). }
  destruct (named_file none s i t _ f T (Z.le_refl 0) Hi Hf) as (y & Hy & Hr & _).
  unfold calls. rewrite (bind_ret _ _ _ _ _ E).
  destruct (fdalloc_spec none s i t f T Hi) as [E1|(n & Hn & E1 & T1)].
  { rewrite <- (tk_len none s T). by eapply lookup_lt_Some. }
  { eexists _, s. by rewrite (bind_ret _ _ _ _ _ E1). }
  rewrite (bind_ret _ _ _ _ _ E1). destruct (filedup_spec _ _ f y T1 Hy Hr) as (s' & E2 & _ & T2).
  rewrite (bind_ret _ _ _ _ _ E2). eexists _, s'. split; [done|]. unfold good. ext_bumps.
Qed.

(** fileclose of a file the caller holds, or that a descriptor names. *)
Lemma fileclose_run x s f y : table_ok x s -> ftable s !! f = Some y -> 1 <= count f (ofiles s) + x f ->
  exists s', fileclose f s = Ret tt s' /\ table_ok (bump f (-1) x) s' /\ ofiles s' = ofiles s /\ forall k, k <> f -> ftable s' !! k = ftable s !! k.
Proof.
  intros T Hy Hr. destruct (fileclose_spec x s f y T Hy Hr) as (t & ps & i & E & Hok & Hk). eexists. split_and!; [|done|done|done].
  rewrite <- (E (ofiles s)). by destruct s.
Qed.

Lemma sys_close_ok s i t fd : good s -> ofiles s !! i = Some t -> calls (sys_close i fd) s.
Proof.
  intros T Hi. unfold sys_close, calls. destruct (argfd_spec i fd s t Hi) as [E|(f & _ & Hf & E)].
  { eexists _, s. by rewrite (bind_ret _ _ _ _ _ E). }
  destruct (named_file none s i t _ f T (Z.le_refl 0) Hi Hf) as (y & Hy & Hr & Hc). rewrite (bind_ret _ _ _ _ _ E).
  destruct (set_fd_spec none s i _ t (Some f) None T Hi Hf) as [E1 T1]; [done|]. rewrite (bind_ret _ _ _ _ _ E1).
  destruct (fileclose_run _ _ f y T1 Hy) as (s' & E2 & T2 & _).
  { pose proof (count_nonneg f (ofiles (set_ofiles (<[i := <[Z.to_nat fd := None]> t]> (ofiles s)) s))).
    unfold hand, bump, none. rewrite decide_True by done. lia. }
  rewrite (bind_ret _ _ _ _ _ E2). eexists _, s'. split; [done|]. unfold good. ext_bumps.
Qed.
(** ** Pipes *)

Lemma pipe_bad_none (f1 : option nat) s : f1 = None -> pipe_bad None f1 s = Ret None s.
Proof. by intros ->. Qed.

(** A file the caller has just taken. *)
Lemma held f (ts : list (list (option nat))) : 1 <= count f ts + bump f 1 none f.
Proof. pose proof (count_nonneg f ts). unfold bump, none. rewrite decide_True by done. lia. Qed.

(** Two files the caller holds are closed. *)
Lemma close_both s f g y z : table_ok (bump g 1 (bump f 1 none)) s -> f <> g -> ftable s !! f = Some y -> ftable s !! g = Some z ->
  exists s1 s2, fileclose f s = Ret tt s1 /\ fileclose g s1 = Ret tt s2 /\ good s2 /\ ofiles s2 = ofiles s.
Proof.
  intros T Hne Hy Hz. pose proof (count_nonneg f (ofiles s)). pose proof (count_nonneg g (ofiles s)).
  destruct (fileclose_run _ s f y T Hy) as (s1 & E1 & T1 & O1 & K1).
  { unfold bump, none. repeat (destruct (decide _)); lia. }
  destruct (fileclose_run _ s1 g z T1) as (s2 & E2 & T2 & O2 & _); [by rewrite K1| |].
  { rewrite O1. unfold bump, none. repeat (destruct (decide _)); lia. }
  exists s1, s2. split_and!; try done; [|congruence]. unfold good. ext_bumps.
Qed.

Definition new_ends (r : option (nat * nat)) s : Prop :=
  match r with
  | None => good s
  | Some (f, g) => f <> g /\ table_ok (bump g 1 (bump f 1 none)) s /\
      exists y z, ftable s !! f = Some y /\ ftable s !! g = Some z /\ ref y = 1 /\ ref z = 1
  end.

Lemma pipealloc_spec page junk s : good s -> (forall id, page = Some id -> pipes s !! id = None) ->
  exists r s', pipealloc page junk s = Ret r s' /\ ofiles s' = ofiles s /\ new_ends r s'.
Proof.
  intros T Hpage. unfold pipealloc. destruct (filealloc_spec none s T) as [E|(f & y & Hy & Hr & Ht & E & T1)].
  { rewrite (bind_ret _ _ _ _ _ E). by eexists None, s. }
  rewrite (bind_ret _ _ _ _ _ E). set (s1 := set_ftable (<[f := set_ref 1 y]> (ftable s)) s) in *.
  assert (Hf1 : ftable s1 !! f = Some (set_ref 1 y)) by (apply list_lookup_insert_eq; by eapply lookup_lt_Some).
  destruct (filealloc_spec _ s1 T1) as [E2|(g & z & Hz & Hrz & Htz & E2 & T2)].
  { rewrite (bind_ret _ _ _ _ _ E2). destruct (fileclose_run _ s1 f _ T1 Hf1) as (s2 & E3 & T3 & O3 & _); [by apply held|].
    exists None, s2. split_and!; [|done|unfold new_ends, good; ext_bumps]. unfold pipe_bad. rewrite (bind_ret _ _ _ _ _ E3). done. }
  rewrite (bind_ret _ _ _ _ _ E2).
  assert (Hne : f <> g) by (intros <-; rewrite Hf1 in Hz; injection Hz as <-; cbn [set_ref ref] in Hrz; lia).
  set (s2 := set_ftable (<[g := set_ref 1 z]> (ftable s1)) s1) in *.
  assert (Hf2 : ftable s2 !! f = Some (set_ref 1 y)) by (unfold s2; cbn [set_ftable ftable]; by rewrite list_lookup_insert_ne).
  assert (Hg2 : ftable s2 !! g = Some (set_ref 1 z)) by (apply list_lookup_insert_eq; by eapply lookup_lt_Some).
  destruct page as [id|].
  - set (yr := mkFile FD_PIPE 1 true false id (ip y) (off y)). set (zw := mkFile FD_PIPE 1 false true id (ip z) (off z)).
    exists (Some (f, g)), (mkSystem (<[g := zw]> (<[f := yr]> (ftable s2))) (<[id := newpipe junk]> (pipes s2)) (ofiles s2) (inodes s2)).
    split_and!; [|done|].
    + set (s3 := set_pipes (<[id := newpipe junk]> (pipes s2)) s2). rewrite (bind_ret _ _ s2 _ s3 (modify_run (fun s => set_pipes (<[id := newpipe junk]> (pipes s)) s) s2)).
      rewrite (bind_ret _ _ _ _ _ (upd_file_run f _ s3 _ Hf2)).
      assert (Hg3 : <[f := yr]> (ftable s2) !! g = Some (set_ref 1 z)) by (by rewrite list_lookup_insert_ne).
      by rewrite (bind_ret _ _ _ _ _ (upd_file_run g _ (set_ftable (<[f := yr]> (ftable s2)) s3) _ Hg3)).
    + split_and!; [done| |].
      * apply (make_pipe _ s2 f g (set_ref 1 y) (set_ref 1 z) id junk yr zw T2); try done; cbn [set_ref type]; try congruence. by apply Hpage.
      * exists yr, zw. cbn [ftable]. split_and!; try done.
        -- rewrite list_lookup_insert_ne by done. apply list_lookup_insert_eq. by eapply lookup_lt_Some.
        -- apply list_lookup_insert_eq. rewrite length_insert. by eapply lookup_lt_Some.
  - destruct (close_both s2 f g _ _ T2 Hne Hf2 Hg2) as (s3 & s4 & E3 & E4 & T4 & O4).
    exists None, s4. split_and!; [|done|done]. unfold pipe_bad. rewrite (bind_ret _ _ _ _ _ E3). by rewrite (bind_ret _ _ _ _ _ E4).
Qed.

Lemma sys_pipe_ok s i t page junk : good s -> ofiles s !! i = Some t -> (forall id, page = Some id -> pipes s !! id = None) ->
  calls (sys_pipe i page junk) s.
Proof.
  intros T Hi Hpage. unfold sys_pipe, calls. destruct (pipealloc_spec page junk s T Hpage) as (r & s1 & E1 & O1 & Hr).
  rewrite (bind_ret _ _ _ _ _ E1). destruct r as [[f g]|]; [|by eexists None, s1].
  destruct Hr as (Hne & T1 & y & z & Hy & Hz & Ry & Rz). assert (Hi1 : ofiles s1 !! i = Some t) by congruence.
  assert (Hlt : forall k v, ftable s1 !! k = Some v -> (k < NFILE)%nat) by (intros k v Hv; rewrite <- (tk_len _ _ T1); by eapply lookup_lt_Some).
  destruct (fdalloc_spec _ s1 i t f T1 Hi1 (Hlt f y Hy)) as [E2|(fd0 & Hfd0 & E2 & T2)]; rewrite (bind_ret _ _ _ _ _ E2).
  { destruct (close_both s1 f g y z T1 Hne Hy Hz) as (s2 & s3 & E3 & E4 & T4 & _).
    rewrite (bind_ret _ _ _ _ _ E3), (bind_ret _ _ _ _ _ E4). by eexists None, s3. }
  set (t2 := <[fd0 := Some f]> t) in *. set (s2 := set_ofiles (<[i := t2]> (ofiles s1)) s1) in *.
  assert (Hi2 : ofiles s2 !! i = Some t2) by (apply list_lookup_insert_eq; by eapply lookup_lt_Some).
  destruct (fdalloc_spec _ s2 i t2 g T2 Hi2 (Hlt g z Hz)) as [E3|(fd1 & Hfd1 & E3 & T3)]; rewrite (bind_ret _ _ _ _ _ E3).
  - assert (Hfd2 : t2 !! fd0 = Some (Some f)) by (apply list_lookup_insert_eq; by eapply lookup_lt_Some).
    destruct (set_fd_spec _ s2 i fd0 t2 (Some f) None T2 Hi2 Hfd2) as [E4 T4]; [done|]. rewrite (bind_ret _ _ _ _ _ E4).
    destruct (close_both (set_ofiles (<[i := <[fd0 := None]> t2]> (ofiles s2)) s2) f g y z) as (s5 & s6 & E5 & E6 & T6 & _); try done.
    { ext_bumps. }
    rewrite (bind_ret _ _ _ _ _ E5), (bind_ret _ _ _ _ _ E6). by eexists None, s6.
  - eexists _, _. split; [reflexivity|]. unfold good. ext_bumps.
Qed.

(** ** open, fork, exit *)

Lemma open_inode_ok s i t n omode : good s -> ofiles s !! i = Some t -> calls (open_inode i n omode) s.
Proof.
  intros T Hi. unfold open_inode, calls.
  assert (Hbad : forall s, good s -> exists s', (fs (iunlockput n);; fs end_op;; ret (-1)) s = Ret (-1) s' /\ good s').
  { intros s0 T0. destruct (lr_iunlockput n (inodes s0)) as [i1 R1], (lr_end_op i1) as [i2 R2].
    exists (set_inodes i2 (set_inodes i1 s0)). rewrite (bind_ret _ _ _ _ _ (fs_run _ s0 _ _ R1)), (bind_ret _ _ _ _ _ (fs_run _ (set_inodes i1 s0) _ _ R2)).
    split; [done|]. by repeat apply table_ok_inodes. }
  destruct (filealloc_spec none s T) as [E|(f & y & Hy & Hr & Ht & E & T1)]; rewrite (bind_ret _ _ _ _ _ E).
  { destruct (Hbad s T) as (s' & E' & T'). by eexists _, s'. }
  set (s1 := set_ftable (<[f := set_ref 1 y]> (ftable s)) s) in *.
  assert (Hf1 : ftable s1 !! f = Some (set_ref 1 y)) by (apply list_lookup_insert_eq; by eapply lookup_lt_Some).
  assert (Hlt : (f < NFILE)%nat) by (rewrite <- (tk_len _ _ T); by eapply lookup_lt_Some).
  destruct (fdalloc_spec _ s1 i t f T1 Hi Hlt) as [E2|(fd & Hfd & E2 & T2)]; rewrite (bind_ret _ _ _ _ _ E2).
  - destruct (fileclose_run _ s1 f _ T1 Hf1) as (s2 & E3 & T3 & _); [by apply held|]. rewrite (bind_ret _ _ _ _ _ E3).
    destruct (Hbad s2) as (s' & E' & T'); [unfold good; ext_bumps|]. by eexists _, s'.
  - set (s2 := set_ofiles (<[i := <[fd := Some f]> t]> (ofiles s1)) s1) in *.
    destruct (lr_iunlock n (inodes s2)) as [i1 R1], (lr_end_op i1) as [i2 R2].
    rewrite (bind_ret _ _ _ _ _ (fs_run _ s2 _ _ R1)), (bind_ret _ _ _ _ _ (fs_run _ (set_inodes i1 s2) _ _ R2)).
    rewrite (bind_ret _ _ _ _ _ (upd_file_run f _ (set_inodes i2 (set_inodes i1 s2)) (set_ref 1 y) Hf1)). eexists _, _. split; [reflexivity|].
    assert (T3 : good (set_inodes i2 (set_inodes i1 s2))) by (repeat apply table_ok_inodes; ext_bumps).
    apply (retype_file none _ f (set_ref 1 y) _ T3); try done. cbn [set_ref type]. congruence.
Qed.

Lemma fork_files_ok i child ti : child <> i -> forall t fd s tc, good s -> ofiles s !! i = Some ti -> ofiles s !! child = Some tc ->
  (forall k d, t !! k = Some d -> ti !! (fd + k)%nat = Some d) -> (forall k, (fd <= k < NOFILE)%nat -> tc !! k = Some None) ->
  calls (fork_files child fd t) s.
Proof.
  intros Hci. induction t as [|[f|] t IH]; intros fd s tc T Hi Hc Ht Hfree; cbn [fork_files].
  - by eexists tt, s.
  - assert (Hf : ti !! fd = Some (Some f)) by (rewrite <- (Nat.add_0_r fd); by apply Ht).
    destruct (named_file none s i ti fd f T (Z.le_refl 0) Hi Hf) as (y & Hy & Hr & _).
    destruct (filedup_spec none s f y T Hy Hr) as (s1 & E1 & Es1 & T1). unfold calls. rewrite (bind_ret _ _ _ _ _ E1).
    assert (Hfd : (fd < NOFILE)%nat) by (rewrite <- (proj1 (tk_fds _ _ T i ti Hi)); by eapply lookup_lt_Some).
    assert (Hc1 : ofiles s1 !! child = Some tc) by (by rewrite Es1).
    destruct (set_fd_spec _ s1 child fd tc None (Some f) T1 Hc1 (Hfree fd ltac:(lia))) as [E2 T2].
    { intros ? [= <-]. rewrite <- (tk_len _ _ T). by eapply lookup_lt_Some. }
    rewrite (bind_ret _ _ _ _ _ E2). apply (IH (S fd) _ (<[fd := Some f]> tc)).
    + unfold good. ext_bumps.
    + cbn [set_ofiles ofiles]. rewrite list_lookup_insert_ne by done. by rewrite Es1.
    + cbn [set_ofiles ofiles]. apply list_lookup_insert_eq. by eapply lookup_lt_Some.
    + intros k d Hk. replace (S fd + k)%nat with (fd + S k)%nat by lia. by apply Ht.
    + intros k Hk. rewrite list_lookup_insert_ne by lia. apply Hfree. lia.
  - apply (IH (S fd) s tc); try done.
    + intros k d Hk. replace (S fd + k)%nat with (fd + S k)%nat by lia. by apply Ht.
    + intros k Hk. apply Hfree. lia.
Qed.

Lemma exit_files_ok i : forall t fd s ti, good s -> ofiles s !! i = Some ti -> (forall k d, t !! k = Some d -> ti !! (fd + k)%nat = Some d) ->
  calls (exit_files i fd t) s.
Proof.
  induction t as [|[f|] t IH]; intros fd s ti T Hi Ht; cbn [exit_files].
  - by eexists tt, s.
  - assert (Hf : ti !! fd = Some (Some f)) by (rewrite <- (Nat.add_0_r fd); by apply Ht).
    destruct (named_file none s i ti fd f T (Z.le_refl 0) Hi Hf) as (y & Hy & _ & Hc).
    destruct (fileclose_run none s f y T Hy ltac:(unfold none; lia)) as (s1 & E1 & T1 & O1 & _). unfold calls. rewrite (bind_ret _ _ _ _ _ E1).
    assert (Hi1 : ofiles s1 !! i = Some ti) by congruence.
    destruct (set_fd_spec _ s1 i fd ti (Some f) None T1 Hi1 Hf) as [E2 T2]; [done|]. rewrite (bind_ret _ _ _ _ _ E2).
    apply (IH (S fd) _ (<[fd := None]> ti)).
    + unfold good. ext_bumps.
    + cbn [set_ofiles ofiles]. apply list_lookup_insert_eq. by eapply lookup_lt_Some.
    + intros k d Hk. rewrite list_lookup_insert_ne by lia. replace (S fd + k)%nat with (fd + S k)%nat by lia. by apply Ht.
  - apply (IH (S fd) s ti); try done. intros k d Hk. replace (S fd + k)%nat with (fd + S k)%nat by lia. by apply Ht.
Qed.

End Spec.

(** ** Swap files *)

Lemma sum_zero {A : Type} (g : A -> Z) l : (forall a, a ∈ l -> g a = 0) -> sum_list_Z (map g l) = 0.
Proof.
  induction l as [|a l IH]; intros Hl; [done|]. simpl. rewrite (Hl a) by left. rewrite IH; [done|]. intros b Hb. apply Hl. by right.
Qed.

(** A file that is counted is named somewhere. *)
Lemma sum_pos {A : Type} (g : A -> Z) l : 1 <= sum_list_Z (map g l) -> exists i a, l !! i = Some a /\ 1 <= g a.
Proof.
  induction l as [|a l IH]; simpl; [lia|]. intros Hs. destruct (decide (1 <= g a)) as [E|E]; [by exists O, a|].
  destruct IH as (i & b & Hb & Hg); [lia|]. by exists (S i), b.
Qed.
Lemma count_named f ts : 1 <= count f ts -> exists i t fd, ts !! i = Some t /\ t !! fd = Some (Some f).
Proof.
  intros (i & t & Hi & Ht)%sum_pos. apply sum_pos in Ht as (fd & d & Hd & Hn). exists i, t, fd. split; [done|].
  unfold names in Hn. destruct (decide (d = Some f)) as [->|]; [done|lia].
Qed.


Section World.
Context {I : Type} `{InodeLayer I} `{SwapNames I} `{!LayerReturns}.
Abbreviation sys := (system (I := I)).

(** The root directory takes the swap files' names and gives them back. *)
Class SwapReturns : Prop := {
  sr_create : forall pid m, exists n m', create_swap pid m = Ret (Some n) m';
  sr_unlink : forall pid m, exists m', unlink_swap pid m = Ret 0 m'
}.
Context `{SwapReturns}.
Implicit Types (s : sys) (w : world (I := I)).

(** A reference the caller holds goes to a process for its swap file, and comes back. *)
Lemma take_swap sw f y s : table_ok sw (bump f 1 none) s -> ftable s !! f = Some y -> type y = FD_INODE ->
  table_ok (bump f 1 sw) none s.
Proof.
  intros [K1 K2 K3 K4 K5 K6 K7 K8 K9] Hy Ht. split; try done.
  - intros k z Hz. destruct (K3 k z Hz) as [-> ?]. unfold bump, none in *. repeat (destruct (decide _)); split; lia.
  - intros k z Hz. unfold bump. destruct (decide (k = f)) as [->|Hne]; [intros _; congruence|by apply K9].
Qed.
Lemma give_swap sw f s : table_ok (bump f 1 sw) none s -> (forall k, 0 <= sw k) -> table_ok sw (bump f 1 none) s.
Proof.
  intros [K1 K2 K3 K4 K5 K6 K7 K8 K9] Hsw. split; try done.
  - intros k z Hz. destruct (K3 k z Hz) as [-> ?]. unfold bump, none in *. repeat (destruct (decide _)); split; lia.
  - intros k z Hz Hk. apply (K9 k z Hz). unfold bump. destruct (decide _); lia.
Qed.
Lemma table_ok_swaps sw sw' x s : (forall f, sw f = sw' f) -> table_ok sw x s -> table_ok sw' x s.
Proof.
  intros E [K1 K2 K3 K4 K5 K6 K7 K8 K9]. split; try done.
  - intros k z Hz. rewrite <- E. by apply K3.
  - intros k z Hz. rewrite <- E. by apply K9.
Qed.

Lemma on_files_run {A : Type} (m : M sys A) w a s : m (files w) = Ret a s -> on_files m w = Ret a (set_files s w).
Proof. intros E. unfold on_files, zoom. by rewrite E. Qed.

(** The file table has no free entry. *)
Definition table_full s : bool := negb (existsb (fun y => ref y =? 0) (ftable s)).
Lemma full_filealloc s : table_full s = true -> filealloc s = Ret None s.
Proof.
  unfold table_full. rewrite negb_true_iff. intros Hf. unfold filealloc.
  rewrite (bind_ret _ _ _ _ _ (eq_refl : gets ftable s = Ret (ftable s) s)).
  destruct (find_index _ (ftable s)) as [f|] eqn:E; [|done]. exfalso.
  apply find_index_Some in E as (y & Hy & Hr & _). rewrite <- not_true_iff_false in Hf. apply Hf, existsb_exists.
  exists y. split; [|done]. apply list_elem_of_In. by eapply list_elem_of_lookup_2.
Qed.
Lemma not_full_filealloc s : table_full s = false -> filealloc s <> Ret None s.
Proof.
  unfold table_full. rewrite negb_false_iff. intros (y & Hy & Hr)%existsb_exists. unfold filealloc.
  rewrite (bind_ret _ _ _ _ _ (eq_refl : gets ftable s = Ret (ftable s) s)).
  destruct (find_index _ (ftable s)) as [f|] eqn:E; [done|].
  apply list_elem_of_In, list_elem_of_lookup in Hy as (i & Hi).
  rewrite (proj1 (find_index_None _ _) E i y Hi) in Hr. done.
Qed.

Lemma createSwapFile_spec sw p pid w : (forall f, 0 <= sw f) -> table_ok sw none (files w) ->
  if table_full (files w) then createSwapFile p pid w = Panic "no slot for files on /store"
  else exists f s, createSwapFile p pid w = Ret tt (mkWorld s (<[p := Some f]> (swapFile w)) (pids w) (nextpid w)) /\
    table_ok (bump f 1 sw) none s /\ ofiles s = ofiles (files w) /\ (f < NFILE)%nat.
Proof.
  intros Hsw T. unfold createSwapFile. destruct w as [s l ps np]. cbn [files swapFile pids nextpid] in *.
  destruct (lr_begin_op (inodes s)) as [i1 R1]. rewrite (bind_ret _ _ _ _ _ (on_files_run _ (mkWorld s l ps np) _ _ (fs_run _ s _ _ R1))).
  destruct (sr_create pid i1) as (n & i2 & R2).
  rewrite (bind_ret _ _ _ _ _ (on_files_run _ (mkWorld (set_inodes i1 s) l ps np) _ _ (fs_run _ (set_inodes i1 s) _ _ R2))).
  destruct (lr_iunlock n i2) as [i3 R3].
  rewrite (bind_ret _ _ _ _ _ (on_files_run _ (mkWorld (set_inodes i2 s) l ps np) _ _ (fs_run _ (set_inodes i2 s) _ _ R3))).
  assert (Es : set_inodes i3 (set_inodes i2 s) = set_inodes i3 s) by done. rewrite Es. clear Es.
  set (s3 := set_inodes i3 s). assert (T3 : table_ok sw none s3) by by apply table_ok_inodes.
  change (set_files s3 (mkWorld (set_inodes i2 s) l ps np)) with (mkWorld s3 l ps np).
  destruct (table_full s) eqn:Ef.
  - rewrite (bind_ret _ _ _ _ _ (on_files_run filealloc (mkWorld s3 l ps np) _ _ (full_filealloc s3 Ef))).
    by erewrite bind_ret by reflexivity.
  - destruct (filealloc_spec sw none s3 T3) as [E|(f & y & Hy & Hr & Ht & E & T4)]; [by destruct (not_full_filealloc s3 Ef)|].
    rewrite (bind_ret _ _ _ _ _ (on_files_run filealloc (mkWorld s3 l ps np) _ _ E)). erewrite bind_ret by reflexivity.
    set (s4 := set_ftable (<[f := set_ref 1 y]> (ftable s3)) s3) in *.
    assert (Hf4 : ftable s4 !! f = Some (set_ref 1 y)) by (apply list_lookup_insert_eq; by eapply lookup_lt_Some).
    change (set_swapFile _ (set_files s4 _)) with (mkWorld s4 (<[p := Some f]> l) ps np).
    set (y' := mkFile FD_INODE 1 true true (fpipe y) n 0).
    set (s5 := set_ftable (<[f := y']> (ftable s4)) s4).
    assert (E5 : upd_file f (fun x => mkFile FD_INODE (ref x) (negb (O_WRONLY =? 0)) (negb (O_RDWR =? 0)) (fpipe x) n 0) s4 = Ret tt s5)
      by (rewrite (upd_file_run f _ s4 _ Hf4); reflexivity).
    rewrite (bind_ret _ _ _ _ _ (on_files_run _ (mkWorld s4 (<[p := Some f]> l) ps np) _ _ E5)).
    change (set_files s5 _) with (mkWorld s5 (<[p := Some f]> l) ps np).
    destruct (lr_end_op (inodes s5)) as [i6 R6].
    rewrite (on_files_run _ (mkWorld s5 (<[p := Some f]> l) ps np) _ _ (fs_run _ s5 _ _ R6)).
    exists f, (set_inodes i6 s5). split_and!; [done| |done|].
    + apply table_ok_inodes. apply (take_swap sw f y').
      * apply (retype_file sw _ s4 f (set_ref 1 y) y' T4 Hf4); try done. cbn [set_ref type]. congruence.
      * unfold s5. cbn [set_ftable ftable]. apply list_lookup_insert_eq. by eapply lookup_lt_Some.
      * done.
    + rewrite <- (tk_len _ _ _ T3). by eapply lookup_lt_Some.
Qed.

Lemma removeSwapFile_spec sw p pid f w : (forall k, 0 <= sw k) -> table_ok (bump f 1 sw) none (files w) ->
  swapFile w !! p = Some (Some f) -> (f < NFILE)%nat ->
  exists s, removeSwapFile p pid w = Ret 0 (set_files s w) /\ table_ok sw none s /\ ofiles s = ofiles (files w).
Proof.
  intros Hsw T Hp Hf. unfold removeSwapFile. rewrite (bind_ret _ _ _ _ _ (eq_refl : gets (fun w => swapFile w !! p) w = Ret (swapFile w !! p) w)).
  rewrite Hp. pose proof (give_swap _ _ _ T Hsw) as T1.
  destruct (lookup_lt_is_Some_2 (ftable (files w)) f) as [y Hy]; [by rewrite (tk_len _ _ _ T)|].
  destruct (fileclose_run sw Hsw _ (files w) f y T1 Hy) as (s1 & E1 & T2 & O1 & _); [apply held|].
  rewrite (bind_ret _ _ _ _ _ (on_files_run _ w _ _ E1)).
  destruct (sr_unlink pid (inodes s1)) as [i2 R2]. exists (set_inodes i2 s1). split_and!; [| |done].
  - rewrite (on_files_run _ (set_files s1 w) _ _ (fs_run _ s1 _ _ R2)). done.
  - apply table_ok_inodes. eapply table_ok_ext; [|exact T2]. intros k. unfold bump, none. repeat (destruct (decide _)); lia.
Qed.

(** ** Runs of calls *)

(** The calls on descriptors, by process [i]. A pipe's page is one kalloc just gave, so no
    pipe's; fork's child is a slot allocproc takes, with no descriptor, and there may be too
    little memory for it. *)
Inductive call : Type :=
| Dup (i : nat) (fd : Z) | Close (i : nat) (fd : Z) | MakePipe (i : nat) (page : option nat) (junk : list Z)
| Open (i n : nat) (omode : Z) | Fork (i child : nat) (m : memory_left) | Exit (i : nat).

Definition do_call (c : call) : M (world (I := I)) unit :=
  match c with
  | Dup i fd => on_files (sys_dup i fd;; ret tt)
  | Close i fd => on_files (sys_close i fd;; ret tt)
  | MakePipe i page junk => on_files (sys_pipe i page junk;; ret tt)
  | Open i n omode => on_files (open_inode i n omode;; ret tt)
  | Fork i child m => fork_process i child m
  | Exit i => exit_process i
  end.
Definition caller (c : call) : nat :=
  match c with Dup i _ | Close i _ | MakePipe i _ _ | Open i _ _ | Fork i _ _ | Exit i => i end.

(** A run: the kernel's data, the slots that hold a process that has not exited, and the files
    that were the swap file of a child whose fork failed after allocproc. *)
Record run_state : Type := mkRun { now : world (I := I); live : list bool; leaked : list nat }.
Definition next (c : call) (st : run_state) (w : world (I := I)) : run_state :=
  match c with
  | Fork _ child Enough => mkRun w (<[child := true]> (live st)) (leaked st)
  | Fork _ child NoCopy => mkRun w (live st) (match swapFile w !! child with Some (Some f) => f :: leaked st | _ => leaked st end)
  | Exit i => mkRun w (<[i := false]> (live st)) (leaked st)
  | _ => mkRun w (live st) (leaked st)
  end.

(** The swap files of the processes there are, and how many references to [f] they are, with
    those that were leaked. *)
Definition held_swaps (st : run_state) : list (option nat) :=
  zip_with (fun (b : bool) o => if b then o else None) (live st) (swapFile (now st)).
Definition swaps (st : run_state) (f : nat) : Z := count_in f (held_swaps st) + count_in f (map Some (leaked st)).

(** Calls of processes there are; init does not exit, and the pids have not run out. *)
Definition allowed (c : call) (st : run_state) : Prop :=
  live st !! caller c = Some true /\ is_Some (ofiles (files (now st)) !! caller c) /\
  match c with
  | MakePipe _ page _ => forall id, page = Some id -> pipes (files (now st)) !! id = None
  | Fork i child _ => live st !! child = Some false /\ ofiles (files (now st)) !! child = Some (replicate NOFILE None) /\
      nextpid (now st) + 1 < 2 ^ 31
  | Exit i => i <> O
  | _ => True
  end.

(** The calls that panic: fork, if it gets as far as the swap file and is not making process 2,
    when the file table is full; and exit of a process that has no swap file, as process 2 has
    none. *)
Definition panics (c : call) (st : run_state) : option string :=
  match c with
  | Fork _ _ NoStack => None
  | Fork _ _ _ => if negb (nextpid (now st) =? 2) && table_full (files (now st)) then Some "no slot for files on /store"%string else None
  | Exit i => match swapFile (now st) !! i with Some (Some _) => None | _ => Some "Swap File Remove Failed"%string end
  | _ => None
  end.

Record run_ok (st : run_state) : Prop := {
  rk_table : table_ok (swaps st) none (files (now st));
  rk_len : length (live st) = length (swapFile (now st)) /\ length (live st) = length (pids (now st));
  rk_files : forall i f, live st !! i = Some true -> swapFile (now st) !! i = Some (Some f) -> (f < NFILE)%nat;
  rk_next : 2 <= nextpid (now st) /\ (nextpid (now st) = 2 -> forall i o, swapFile (now st) !! i = Some o -> o = None)
}.

Lemma swaps_pos st f : 0 <= swaps st f.
Proof. unfold swaps. pose proof (count_in_nonneg f (held_swaps st)). pose proof (count_in_nonneg f (map Some (leaked st))). lia. Qed.

Lemma count_in_set f t i old new : t !! i = Some old -> count_in f (<[i := new]> t) = count_in f t - names f old + names f new.
Proof. intros Hi. unfold count_in. by apply sum_insert. Qed.

Lemma held_lookup st i (b : bool) o : live st !! i = Some b -> swapFile (now st) !! i = Some o ->
  held_swaps st !! i = Some (if b then o else None).
Proof. intros Hb Ho. unfold held_swaps. apply lookup_zip_with_Some. eauto. Qed.
Lemma held_set w w' (lv : list bool) (lk lk' : list nat) i (b : bool) o : swapFile w' = <[i := o]> (swapFile w) ->
  held_swaps (mkRun w' (<[i := b]> lv) lk') = <[i := if b then o else None]> (held_swaps (mkRun w lv lk)).
Proof. intros E. unfold held_swaps. cbn [now live]. rewrite E. symmetry. apply (insert_zip_with (fun (b : bool) o => if b then o else None)). Qed.

Lemma bump_names f k (d : Z) (x : nat -> Z) : bump f d x k = x k + d * names k (Some f).
Proof. unfold bump, names. repeat (destruct (decide _)); simplify_eq; lia. Qed.

(** How a call that only changes the files leaves the rest. *)
Lemma files_ok {A : Type} (m : M sys A) st : run_ok st -> calls (swaps st) m (files (now st)) ->
  exists w', on_files (m;; ret tt) (now st) = Ret tt w' /\ run_ok (mkRun w' (live st) (leaked st)).
Proof.
  intros [T L F N] (r & s' & E & T'). exists (set_files s' (now st)). split.
  - apply on_files_run. by rewrite (bind_ret _ _ _ _ _ E).
  - by split.
Qed.

(** allocproc's part of fork, for a child in slot [j]. *)
Lemma alloc_swap_ok st j : run_ok st -> live st !! j = Some false -> nextpid (now st) + 1 < 2 ^ 31 ->
  if negb (nextpid (now st) =? 2) && table_full (files (now st)) then alloc_swap j (now st) = Panic "no slot for files on /store"
  else exists w o, alloc_swap j (now st) = Ret tt w /\ ofiles (files w) = ofiles (files (now st)) /\
    swapFile w = <[j := o]> (swapFile (now st)) /\ length (pids w) = length (pids (now st)) /\ 2 < nextpid w /\
    (forall f, o = Some f -> (f < NFILE)%nat) /\
    table_ok (match o with Some f => bump f 1 (swaps st) | None => swaps st end) none (files w).
Proof.
  intros [T [L1 L2] F [N1 N2]] Hj Hn. destruct st as [[s l ps np] lv lk]. cbn [now live files swapFile pids nextpid] in *.
  unfold alloc_swap. erewrite bind_ret by reflexivity. cbn [files swapFile pids nextpid].
  rewrite s32_small by lia. replace (np =? 1) with false by lia. cbn [orb].
  destruct (Z.eqb_spec np 2) as [E2|E2]; cbn [negb andb when].
  - exists (mkWorld s l (<[j := np]> ps) (np + 1)), None. split_and!; cbn [files swapFile pids nextpid]; try done; [|by rewrite length_insert|lia].
    symmetry. apply list_insert_id. destruct (lookup_lt_is_Some_2 l j) as [o Ho]; [rewrite <- L1; by eapply lookup_lt_Some|].
    by rewrite Ho, (N2 E2 j o Ho).
  - pose proof (createSwapFile_spec (swaps (mkRun (mkWorld s l ps np) lv lk)) j np (mkWorld s l (<[j := np]> ps) (np + 1))
      (swaps_pos _) T) as Hc. cbn [files swapFile pids nextpid] in Hc. destruct (table_full s); [exact Hc|].
    destruct Hc as (f & s' & E & T' & O & Hf). exists (mkWorld s' (<[j := Some f]> l) (<[j := np]> ps) (np + 1)), (Some f).
    split_and!; cbn [files swapFile pids nextpid]; try done; [by rewrite length_insert|lia|by intros ? [= <-]].
Qed.

(** The books after fork and after exit. *)
Lemma swaps_fork st w j o m k : m <> NoStack -> run_ok st -> live st !! j = Some false -> swapFile w = <[j := o]> (swapFile (now st)) ->
  swaps (next (Fork 0 j m) st w) k = match o with Some f => bump f 1 (swaps st) k | None => swaps st k end.
Proof.
  intros Hm [_ [L1 _] _ _] Hj E. destruct (lookup_lt_is_Some_2 (swapFile (now st)) j) as [o0 Ho0]; [rewrite <- L1; by eapply lookup_lt_Some|].
  pose proof (held_lookup st j false o0 Hj Ho0) as Hh. cbv iota in Hh. destruct st as [w0 lv lk]. cbn [now live] in *.
  assert (Hw : swapFile w !! j = Some o) by (rewrite E; apply list_lookup_insert_eq; by eapply lookup_lt_Some).
  destruct m; [done|unfold next, swaps at 1; cbn [now live leaked]..].
  - rewrite <- (list_insert_id lv j false Hj) at 1. rewrite (held_set w0 w lv lk _ j false o E), (list_insert_id _ j None Hh), Hw.
    destruct o as [f|]; [|done]. rewrite bump_names. unfold swaps, count_in. cbn [now live leaked map sum_list_Z foldr]. lia.
  - rewrite (held_set w0 w lv lk lk j true o E), (count_in_set k _ j None o Hh).
    destruct o as [f|]; rewrite ?bump_names; unfold swaps; cbn [now live leaked]; unfold names; repeat (destruct (decide _)); simplify_eq; lia.
Qed.
Lemma swaps_exit st w i f k : run_ok st -> live st !! i = Some true -> swapFile (now st) !! i = Some (Some f) ->
  swapFile w = swapFile (now st) -> swaps (next (Exit i) st w) k = bump f (-1) (swaps st) k.
Proof.
  intros _ Hi Hf E. pose proof (held_lookup st i true (Some f) Hi Hf) as Hh. cbv iota in Hh. destruct st as [w0 lv lk]. cbn [now live] in *.
  unfold next, swaps at 1. cbn [now live leaked].
  rewrite (held_set w0 w lv lk lk i false (Some f)) by (by rewrite E, list_insert_id).
  rewrite (count_in_set k _ i (Some f) None Hh), bump_names. unfold swaps. cbn [leaked].
  unfold names at 2. rewrite decide_False by done. lia.
Qed.
Lemma exit_holds st i f : live st !! i = Some true -> swapFile (now st) !! i = Some (Some f) -> 1 <= swaps st f.
Proof.
  intros Hi Hf. pose proof (held_lookup st i true (Some f) Hi Hf) as Hh. cbv iota in Hh. unfold swaps.
  pose proof (sum_ge (names f) _ (fun d => proj1 (names_range f d)) i (Some f) Hh) as Hs.
  unfold names in Hs at 1. rewrite decide_True in Hs by done. pose proof (count_in_nonneg f (map Some (leaked st))). unfold count_in at 1. lia.
Qed.

(** After allocproc's part. *)
Lemma fork_run_ok st w j o i m : m <> NoStack -> run_ok st -> live st !! j = Some false ->
  swapFile w = <[j := o]> (swapFile (now st)) -> length (pids w) = length (pids (now st)) -> 2 < nextpid w ->
  (forall f, o = Some f -> (f < NFILE)%nat) ->
  table_ok (match o with Some f => bump f 1 (swaps st) | None => swaps st end) none (files w) ->
  run_ok (next (Fork i j m) st w).
Proof.
  intros Hm R Hj S Lp Hnp Hof T. pose proof R as [_ [L1 L2] F _]. pose proof (fun k => swaps_fork st w j o m k Hm R Hj S) as Hsw.
  assert (Hnow : now (next (Fork i j m) st w) = w) by by destruct m. split; rewrite ?Hnow.
  - eapply table_ok_swaps; [|exact T]. intros k. change (next (Fork i j m) st w) with (next (Fork 0 j m) st w).
    rewrite Hsw. by destruct o.
  - rewrite S, length_insert, Lp. by destruct m; cbn [next live]; rewrite ?length_insert.
  - rewrite S. intros k f Hk [(<- & -> & _)|[Hkj Hkf]]%list_lookup_insert_Some; [by apply Hof|]. apply (F k f); [|done].
    destruct m; cbn [next live] in Hk; [done|done|by rewrite list_lookup_insert_ne in Hk].
  - split; lia.
Qed.

Lemma fork_ok st i j m : run_ok st -> allowed (Fork i j m) st ->
  match panics (Fork i j m) st with
  | Some msg => do_call (Fork i j m) (now st) = Panic msg
  | None => exists w', do_call (Fork i j m) (now st) = Ret tt w' /\ run_ok (next (Fork i j m) st w')
  end.
Proof.
  intros R ([Hi [t Ht]] & Hj & Hfree & Hn)%and_assoc. cbn [caller do_call] in *. pose proof R as [T [L1 L2] F [N1 N2]].
  destruct (decide (m = NoStack)) as [->|Hm].
  { cbn [panics fork_process next]. eexists. split; [reflexivity|]. split; cbn [now live leaked files swapFile pids nextpid]; try done.
    - by rewrite length_insert.
    - rewrite s32_small by lia. split; lia. }
  pose proof (alloc_swap_ok st j R Hj Hn) as Ha.
  replace (panics (Fork i j m) st) with
    (if negb (nextpid (now st) =? 2) && table_full (files (now st)) then Some "no slot for files on /store"%string else None) by by destruct m.
  destruct (negb (nextpid (now st) =? 2) && table_full (files (now st))).
  { destruct m; [done|exact Ha|]. by apply bind_panic. }
  destruct Ha as (w & o & E & O & S & Lp & Hnp & Hof & T'). destruct m; cbn [fork_process]; [done| |].
  { exists w. split; [done|]. by apply (fork_run_ok st w j o). }
  rewrite (bind_ret _ _ _ _ _ E). assert (Hne : j <> i) by (intros ->; congruence).
  assert (Hit : ofiles (files w) !! i = Some t) by congruence.
  rewrite (bind_ret _ _ _ _ _ (on_files_run _ w _ _ (the_table_run i (files w) t Hit))).
  replace (set_files (files w) w) with w by by destruct w.
  destruct (fork_files_ok (match o with Some f => bump f 1 (swaps st) | None => swaps st end)
    ltac:(intros k; pose proof (swaps_pos st k); destruct o; [unfold bump; destruct (decide _)|]; lia)
    i j t Hne t 0 (files w) (replicate NOFILE None) T' Hit ltac:(congruence)) as ([] & s' & E' & Tg); [done| |].
  { intros k Hk. apply lookup_replicate_2. lia. }
  exists (set_files s' w). split; [by apply on_files_run|]. by apply (fork_run_ok st _ j o).
Qed.

Lemma exit_ok st i : run_ok st -> allowed (Exit i) st ->
  match panics (Exit i) st with
  | Some msg => do_call (Exit i) (now st) = Panic msg
  | None => exists w', do_call (Exit i) (now st) = Ret tt w' /\ run_ok (next (Exit i) st w')
  end.
Proof.
  intros R ([Hi [t Ht]] & Hz)%and_assoc. cbn [caller] in *. pose proof R as [T [L1 L2] F N]. cbn [panics do_call]. unfold exit_process.
  destruct (exit_files_ok (swaps st) (swaps_pos st) i t 0 (files (now st)) t T Ht ltac:(done)) as ([] & s' & E' & T').
  rewrite (bind_ret _ _ _ _ _ (on_files_run _ (now st) _ _ (the_table_run i (files (now st)) t Ht))).
  replace (set_files (files (now st)) (now st)) with (now st) by by destruct (now st).
  rewrite (bind_ret _ _ _ _ _ (on_files_run _ (now st) _ _ E')).
  destruct (lookup_lt_is_Some_2 (pids (now st)) i) as [pid Hpid]; [rewrite <- L2; by eapply lookup_lt_Some|].
  set (w1 := set_files s' (now st)).
  rewrite (bind_ret (gets (fun w => pids w !! i)) _ w1 (Some pid) w1) by (unfold gets; cbn; by rewrite Hpid).
  erewrite bind_ret by reflexivity.
  destruct (lookup_lt_is_Some_2 (swapFile (now st)) i) as [o Ho]; [rewrite <- L1; by eapply lookup_lt_Some|].
  rewrite Ho. destruct o as [f|].
  - pose proof (exit_holds st i f Hi Ho) as Hge.
    assert (Hpos : forall k, 0 <= bump f (-1) (swaps st) k).
    { intros k. pose proof (swaps_pos st k). unfold bump. destruct (decide _); [subst|]; lia. }
    destruct (removeSwapFile_spec (bump f (-1) (swaps st)) i pid f w1 Hpos) as (s2 & E2 & T2 & _); [|done|by apply (F i f)|].
    { eapply table_ok_swaps; [|exact T']. intros k. unfold bump. repeat (destruct (decide _)); lia. }
    rewrite (bind_ret _ _ _ _ _ E2). exists (set_files s2 w1). split; [done|]. split.
    + eapply table_ok_swaps; [|exact T2]. intros k. symmetry. by apply (swaps_exit st _ i f).
    + cbn [next live now set_files swapFile pids]. by rewrite length_insert.
    + cbn [next live now set_files swapFile]. intros k g [(<- & ? & _)|[Hki Hk]]%list_lookup_insert_Some Hg; [done|by apply (F k g)].
    + exact N.
  - rewrite (bind_ret _ _ w1 (-1) w1); [done|]. unfold removeSwapFile.
    rewrite (bind_ret (gets (fun w => swapFile w !! i)) _ w1 (Some None) w1) by (unfold gets; cbn; by rewrite Ho). done.
Qed.

Lemma do_call_ok c st : run_ok st -> allowed c st ->
  match panics c st with
  | Some msg => do_call c (now st) = Panic msg
  | None => exists w', do_call c (now st) = Ret tt w' /\ run_ok (next c st w')
  end.
Proof.
  intros R Ha. destruct c as [i fd|i fd|i page junk|i n omode|i child m|i]; [..|by apply fork_ok|by apply exit_ok];
    destruct Ha as (_ & [t Hi] & Hc); cbn [panics do_call next caller] in *; (apply files_ok; [done|]); destruct R as [T _ _ _].
  - by eapply sys_dup_ok; [apply swaps_pos|..].
  - by eapply sys_close_ok; [apply swaps_pos|..].
  - by eapply sys_pipe_ok; [apply swaps_pos|..].
  - by eapply open_inode_ok; [apply swaps_pos|..].
Qed.

(** From boot: init, in slot 0, has no swap file; the next process gets pid 2. *)
Definition boot_files (n : nat) (layer : I) : sys :=
  mkSystem (replicate NFILE (mkFile FD_NONE 0 false false 0 0 0)) ∅ (replicate n (replicate NOFILE None)) layer.
Definition boot (n : nat) (layer : I) : run_state :=
  mkRun (mkWorld (boot_files n layer) (replicate n None) (<[0%nat := 1]> (replicate n 0)) 2) (<[0%nat := true]> (replicate n false)) [].
Inductive reach (n : nat) (layer : I) : run_state -> Prop :=
| reach_boot : reach n layer (boot n layer)
| reach_call st c r w' : reach n layer st -> allowed c st -> do_call c (now st) = Ret r w' -> reach n layer (next c st w').

Lemma boot_swaps n layer f : swaps (boot n layer) f = 0.
Proof.
  unfold swaps. cbn [boot leaked map]. change (count_in f []) with 0. unfold count_in. rewrite sum_zero; [done|].
  intros d Hd. apply list_elem_of_lookup in Hd as (i & Hi). apply lookup_zip_with_Some in Hi as (b & o & -> & Hb & Ho).
  cbn [boot now swapFile] in Ho. apply lookup_replicate in Ho as [-> _]. by destruct b.
Qed.

Lemma boot_run_ok n layer : run_ok (boot n layer).
Proof.
  assert (F : forall f y, ftable (boot_files n layer) !! f = Some y -> y = mkFile FD_NONE 0 false false 0 0 0).
  { intros f y Hy. by apply lookup_replicate in Hy as [-> _]. }
  split.
  - cbn [boot now files]. split; cbn [boot_files pipes ofiles]; try done.
    + intros i t [-> _]%lookup_replicate. rewrite length_replicate. split; [done|]. by intros fd f [? _]%lookup_replicate.
    + intros f y Hy. rewrite (F f y Hy), boot_swaps. split; [|done]. cbn [ref none]. unfold count. rewrite sum_zero; [done|].
      intros t [-> _]%elem_of_replicate. unfold count_in. apply sum_zero. by intros d [-> _]%elem_of_replicate.
    + intros f y Hy. by rewrite (F f y Hy).
    + intros f y Hy. by rewrite (F f y Hy).
    + intros id w f y f' y' Hy _ [Ht _]. by rewrite (F f y Hy) in Ht.
    + intros f y Hy. rewrite boot_swaps. lia.
  - cbn [boot now live swapFile pids]. by rewrite !length_insert, !length_replicate.
  - cbn [boot now swapFile]. by intros i f _ [? _]%lookup_replicate.
  - cbn [boot now nextpid swapFile]. split; [done|]. by intros _ i o [-> _]%lookup_replicate.
Qed.

Lemma reach_ok n layer st : reach n layer st -> run_ok st.
Proof.
  induction 1 as [|st c r w' Hr IH Ha Hrun]; [apply boot_run_ok|]. pose proof (do_call_ok c st IH Ha) as Hc.
  destruct (panics c st); [congruence|]. destruct Hc as (w1 & E & R). congruence.
Qed.

(** C27: from boot, whatever calls the processes make on their descriptors (dup, close, pipe,
    the end of open), and as they fork and exit: the reference count of each entry of the file
    table is the number of descriptors that name it, and of processes whose swap file it is,
    and of the times it was left behind by a fork that failed after allocproc had made the
    child's swap file (such an entry is never freed); an end of a pipe is open exactly while
    some descriptor names it, and a pipe with both ends closed is gone; and each next call
    returns, but for two: fork panics when the file table is full (unless it makes process 2,
    which has no swap file), and exit panics when the process has no swap file. It is taken
    that the inode layer returns, that the root directory takes the swap files' names and gives
    them back, and that nextpid stays below 2^31. *)
Theorem descriptors_counted n layer st : reach n layer st ->
  let s := files (now st) in
  (forall f y, ftable s !! f = Some y ->
     ref y = count f (ofiles s) + count_in f (held_swaps st) + count_in f (map Some (leaked st))) /\
  (forall id p e, pipes s !! id = Some p ->
    (open_end e p = true <-> exists i t fd f y, ofiles s !! i = Some t /\ t !! fd = Some (Some f) /\ ftable s !! f = Some y /\ is_end id e y) /\
    (readopen p = true \/ writeopen p = true)) /\
  forall c, allowed c st ->
    match panics c st with
    | Some msg => do_call c (now st) = Panic msg
    | None => exists w', do_call c (now st) = Ret tt w' /\ reach n layer (next c st w')
    end.
Proof.
  intros R. pose proof (reach_ok n layer st R) as Rk. pose proof (rk_table _ Rk) as T. cbv zeta. split_and!.
  - intros f y Hy. destruct (tk_ref _ _ _ T f y Hy) as [E _]. unfold none, swaps in E. lia.
  - intros id p e Hp. split; [|by apply (tk_used _ _ _ T id)]. rewrite (tk_open _ _ _ T id p e Hp). split; [|naive_solver].
    intros (f & y & Hy & He). destruct (tk_ref _ _ _ T f y Hy) as [E Hge]. unfold none in E.
    assert (ref y <> 0) by (intros Ez; pose proof (tk_none _ _ _ T f y Hy Ez); destruct He as [He _]; congruence).
    assert (swaps st f < 1).
    { destruct (Z_lt_le_dec (swaps st f) 1) as [|Hs]; [done|]. pose proof (tk_swap _ _ _ T f y Hy Hs). destruct He as [He _]. congruence. }
    destruct (count_named f (ofiles (files (now st)))) as (i & t & fd & Hi & Hfd); [lia|]. by exists i, t, fd, f, y.
  - intros c Hc. pose proof (do_call_ok c st Rk Hc) as Ho. destruct (panics c st); [done|].
    destruct Ho as (w' & E & _). exists w'. split; [done|]. by apply (reach_call n layer st c tt).
Qed.
End World.

(** A layer that does nothing. *)
#[local] Instance idle_layer : InodeLayer unit := {|
  begin_op := ret tt; end_op := ret tt; ilock _ := ret tt; iunlock _ := ret tt; iput _ := ret tt; iunlockput _ := ret tt;
  stati _ := ret (mkStat 0 0 0 0 0); readi _ _ _ := ret (0, []); writei _ _ _ := ret 0
|}.
#[local] Instance idle_names : SwapNames unit := {| create_swap _ := ret (Some 9%nat); unlink_swap _ := ret 0 |}.
#[local] Instance idle_returns : LayerReturns.
Proof. split; intros; by eexists. Qed.
#[local] Instance idle_swap_returns : SwapReturns.
Proof. split; intros; [by eexists _, _|by eexists]. Qed.

(** Runs of calls, executably: each must be allowed and return. *)
Definition allowedb (c : call) (st : run_state (I := unit)) : bool :=
  bool_decide (live st !! caller c = Some true) && bool_decide (is_Some (ofiles (files (now st)) !! caller c)) &&
  match c with
  | MakePipe _ page _ => match page with Some id => bool_decide (pipes (files (now st)) !! id = None) | None => true end
  | Fork i child _ => bool_decide (live st !! child = Some false) &&
      bool_decide (ofiles (files (now st)) !! child = Some (replicate NOFILE None)) && (nextpid (now st) + 1 <? 2 ^ 31)
  | Exit i => negb (i =? 0)%nat
  | _ => true
  end.
Fixpoint run_calls (cs : list call) (st : run_state (I := unit)) : option run_state :=
  match cs with
  | [] => Some st
  | c :: cs =>
      if allowedb c st then match do_call c (now st) with Ret _ w => run_calls cs (next c st w) | _ => None end else None
  end.

Lemma allowedb_ok c st : allowedb c st = true -> allowed c st.
Proof.
  unfold allowedb, allowed. intros [[H1%bool_decide_eq_true H2%bool_decide_eq_true]%andb_prop H3]%andb_prop. split_and!; [done..|].
  destruct c as [| |i page junk| |i child m|i]; try done.
  - destruct page as [id|]; [|done]. intros ? [= <-]. by apply bool_decide_eq_true in H3.
  - apply andb_prop in H3 as [[H3%bool_decide_eq_true H4%bool_decide_eq_true]%andb_prop H5]. split_and!; [done|done|lia].
  - apply negb_true_iff, Nat.eqb_neq in H3. done.
Qed.
Lemma run_calls_reach n cs : forall st st', reach n tt st -> run_calls cs st = Some st' -> reach n tt st'.
Proof.
  induction cs as [|c cs IH]; intros st st' R E; cbn [run_calls] in E; [by injection E as <-|].
  destruct (allowedb c st) eqn:Ha; [|done]. destruct (do_call c (now st)) as [[] w| | |] eqn:Ed; try done.
  apply (IH _ _ (reach_call n tt st c tt w R (allowedb_ok _ _ Ha) Ed) E).
Qed.

(** Init forks process 2, which makes a pipe (descriptors 0 and 1) and forks process 3, with a
    swap file; process 2 closes its read end; a fork fails for want of memory and leaves a file
    behind; process 3 exits: only the write end is left. *)
Definition demo_calls : list call :=
  [Fork 0 1 Enough; MakePipe 1 (Some 7%nat) []; Fork 1 2 Enough; Close 1 0; Fork 1 3 NoCopy; Fork 1 3 NoStack; Exit 2].
Definition demo_end : run_state (I := unit) :=
  match run_calls demo_calls (boot 4 tt) with Some st => st | None => boot 4 tt end.

Lemma demo_reach : reach 4 tt demo_end.
Proof. apply (run_calls_reach 4 demo_calls (boot 4 tt)); [apply reach_boot|by vm_compute]. Qed.

Lemma descriptors_counted_witness :
  reach 4 tt demo_end /\
  (exists p, pipes (files (now demo_end)) !! 7%nat = Some p /\ readopen p = false /\ writeopen p = true) /\
  (exists y, ftable (files (now demo_end)) !! 3%nat = Some y /\ leaked demo_end = [3%nat] /\
     ref y = count 3 (ofiles (files (now demo_end))) + count_in 3 (held_swaps demo_end) + 1) /\
  (exists w', do_call (Close 1 1) (now demo_end) = Ret tt w' /\ reach 4 tt (next (Close 1 1) demo_end w')) /\
  do_call (Exit 1) (now demo_end) = Panic "Swap File Remove Failed".
Proof.
  pose proof (descriptors_counted 4 tt demo_end demo_reach) as Hd. cbv zeta in Hd. destruct Hd as (Hc & _ & Hn).
  split; [exact demo_reach|]. split; [eexists; split; [by vm_compute|by vm_compute]|]. split.
  - destruct (ftable (files (now demo_end)) !! 3%nat) as [y|] eqn:Ey; [|by vm_compute in Ey]. exists y.
    split; [done|]. split; [by vm_compute|]. rewrite (Hc 3%nat y Ey).
    replace (count_in 3 (map Some (leaked demo_end))) with 1 by by vm_compute. done.
  - split; [exact (Hn (Close 1 1) (allowedb_ok (Close 1 1) demo_end ltac:(by vm_compute)))|
      exact (Hn (Exit 1) (allowedb_ok (Exit 1) demo_end ltac:(by vm_compute)))].
Defined.
