(* ===== verification/FileIo.v ===== *)
(** * FileIo: reading and writing through descriptors (offline_4/xv6/file.c, sysfile.c)

    fileread, filewrite and filestat, and the system calls on top. The inode layer is the
    interface [InodeLayer] of File.v; [InodeLaws] below states what it promises for files that
    hold bytes, and FileFs.v proves the promise of fs.c over log.c and bio.c. *)

From S2P Require Import Prelude Memory Mmu Syscall Cache Inode Fcntl Pipe File.

Section Calls.
Context {I : Type} `{InodeLayer I}.
Abbreviation K := (M (system (I := I))).

(** A section of piperead or pipewrite on the pipe of page [id]. *)
Definition with_pipe (id : nat) (g : pipe -> pipe * ended (list Z)) : K (ended (list Z)) :=
  p ← gets (fun s => pipes s !! id);
  p ← deref p;
  let '(p, r) := g p in
  modify (fun s => set_pipes (<[id := p]> (pipes s)) s);;
  ret r.

(** f->off += r. *)
Definition advance (f : nat) (r : Z) : K unit := upd_file f (fun x => set_off (u32 (off x + r)) x).

(** The bytes are those stored at addr. A pipe's reader may have to sleep. *)
Definition fileread (killed : bool) (f : nat) (n : Z) : K (ended (list Z)) :=
  x ← the_file f;
  if negb (readable x) then ret (Returned (-1) [])
  else
    match type x with
    | FD_PIPE => with_pipe (fpipe x) (piperead killed n)
    | FD_INODE =>
        fs (ilock (ip x));;
        '(r, bytes) ← fs (readi (ip x) (off x) n);
        when (0 <? r) (advance f r);;
        fs (iunlock (ip x));;
        ret (Returned r bytes)
    | FD_NONE => panic "fileread"
    end.

(** One round of filewrite's loop: the bytes, at most [filewrite_max], in a transaction. *)
Definition write_chunk (f : nat) (bytes : list Z) : K Z :=
  x ← the_file f;
  fs begin_op;;
  fs (ilock (ip x));;
  r ← fs (writei (ip x) bytes (off x));
  when (0 <? r) (advance f r);;
  fs (iunlock (ip x));;
  fs end_op;;
  ret r.
(** The loop, from [i] on; the value is the last [i]. *)
Fixpoint filewrite_loop (f : nat) (addr : list Z) (i : Z) (fuel : nat) : K Z :=
  match fuel with
  | O => fun _ => OutOfFuel
  | S fuel =>
      let n := Z.of_nat (length addr) in
      if i <? n then
        let n1 := if filewrite_max <? n - i then filewrite_max else n - i in
        r ← write_chunk f (take (Z.to_nat n1) (drop (Z.to_nat i) addr));
        if r <? 0 then ret i
        else panic_if (negb (r =? n1)) "short filewrite";; filewrite_loop f addr (i + r) fuel
      else ret i
  end.
Definition filewrite (killed : bool) (f : nat) (addr : list Z) : K (ended (list Z)) :=
  x ← the_file f;
  if negb (writable x) then ret (Returned (-1) addr)
  else
    match type x with
    | FD_PIPE => with_pipe (fpipe x) (pipewrite killed (Z.of_nat (length addr)) addr)
    | FD_INODE =>
        i ← filewrite_loop f addr 0 (S (length addr));
        ret (Returned (if i =? Z.of_nat (length addr) then Z.of_nat (length addr) else -1) (drop (Z.to_nat i) addr))
    | FD_NONE => panic "filewrite"
    end.

Definition filestat (f : nat) : K (option stat) :=
  x ← the_file f;
  match type x with
  | FD_INODE => fs (ilock (ip x));; st ← fs (stati (ip x)); fs (iunlock (ip x));; ret (Some st)
  | _ => ret None
  end.

(** ** The system calls of process [i], whose arguments are on its user stack *)

Definition user_bytes (u : uctx) (p n : Z) : list Z := map (fun k => load8 (u_mem u) (p + k)) (seqZ 0 n).

(** The file of argument 0, and what [k] makes of it; -1 if there is none. *)
Definition with_fd {A} (i : nat) (u : uctx) (bad : A) (k : nat -> K A) : K A :=
  match argint u 0 with
  | None => ret bad
  | Some fd => f ← argfd i fd; match f with Some f => k f | None => ret bad end
  end.
Definition sys_read (killed : bool) (i : nat) (u : uctx) : K (ended (list Z)) :=
  with_fd i u (Returned (-1) []) (fun f =>
    match (n ← argint u 2; p ← argptr u 1 n; Some (n, p)) with
    | Some (n, p) => fileread killed f n
    | None => ret (Returned (-1) [])
    end).
Definition sys_write (killed : bool) (i : nat) (u : uctx) : K (ended (list Z)) :=
  with_fd i u (Returned (-1) []) (fun f =>
    match (n ← argint u 2; p ← argptr u 1 n; Some (n, p)) with
    | Some (n, p) => filewrite killed f (user_bytes u p n)
    | None => ret (Returned (-1) [])
    end).
Definition sizeof_stat : Z := 20.
Definition sys_fstat (i : nat) (u : uctx) : K (option stat) :=
  with_fd i u None (fun f => match argptr u 1 sizeof_stat with Some _ => filestat f | None => ret None end).
End Calls.

(** ** What the inode layer promises

    What a caller sees of the layer: whether a transaction is open, and whether a chunk was
    written in it; the inode it has locked; the bytes of the files; free blocks enough for
    [vw_free] allocations. *)
Inductive phase : Type := Idle | Fresh | Used.
Record iview : Type := mkView { vw_tx : phase; vw_locked : option nat; vw_files : gmap nat (list Z); vw_free : Z }.

Definition max_size : Z := MAXFILE * BSIZE.
(** The blocks a chunk may take: four for data, and one indirect block with each. *)
Definition chunk_blocks : Z := 8.
(** The file [c] with [l] written at offset [o]. *)
Definition overwrite (o : Z) (l c : list Z) : list Z := take (Z.to_nat o) c ++ l ++ drop (Z.to_nat o + length l) c.

Class InodeLaws (I : Type) `{InodeLayer I} : Type := {
  layer_rep : I -> iview -> Prop;
  law_begin s fm fr : layer_rep s (mkView Idle None fm fr) -> exists s', begin_op s = Ret tt s' /\ layer_rep s' (mkView Fresh None fm fr);
  law_end s p fm fr : layer_rep s (mkView p None fm fr) -> p <> Idle -> exists s', end_op s = Ret tt s' /\ layer_rep s' (mkView Idle None fm fr);
  law_lock s p n fm fr : layer_rep s (mkView p None fm fr) -> is_Some (fm !! n) -> exists s', ilock n s = Ret tt s' /\ layer_rep s' (mkView p (Some n) fm fr);
  law_unlock s p n fm fr : layer_rep s (mkView p (Some n) fm fr) -> exists s', iunlock n s = Ret tt s' /\ layer_rep s' (mkView p None fm fr);
  law_size s w n c : layer_rep s w -> vw_files w !! n = Some c -> Z.of_nat (length c) <= max_size;
  law_stat s p n c fm fr : layer_rep s (mkView p (Some n) fm fr) -> fm !! n = Some c ->
    exists st s', stati n s = Ret st s' /\ st_size st = Z.of_nat (length c) /\ layer_rep s' (mkView p (Some n) fm fr);
  law_read s n c fm fr o k : layer_rep s (mkView Idle (Some n) fm fr) -> fm !! n = Some c -> 0 <= o <= Z.of_nat (length c) -> 0 <= k < 2 ^ 31 ->
    exists s', readi n o k s = Ret (Z.of_nat (length (take (Z.to_nat k) (drop (Z.to_nat o) c))), take (Z.to_nat k) (drop (Z.to_nat o) c)) s' /\
      layer_rep s' (mkView Idle (Some n) fm fr);
  law_write s n c fm fr o l : layer_rep s (mkView Fresh (Some n) fm fr) -> fm !! n = Some c -> Forall (fun b => 0 <= b < 256) l ->
    0 <= o <= Z.of_nat (length c) -> Z.of_nat (length l) <= filewrite_max -> o + Z.of_nat (length l) <= max_size -> chunk_blocks <= fr ->
    exists s', writei n l o s = Ret (Z.of_nat (length l)) s' /\ layer_rep s' (mkView Used (Some n) (<[n := overwrite o l c]> fm) (fr - chunk_blocks));
  law_write_big s n c fm fr o l : layer_rep s (mkView Fresh (Some n) fm fr) -> fm !! n = Some c ->
    0 <= o <= Z.of_nat (length c) -> Z.of_nat (length l) <= filewrite_max -> max_size < o + Z.of_nat (length l) ->
    exists s', writei n l o s = Ret (-1) s' /\ layer_rep s' (mkView Fresh (Some n) fm fr)
}.

Lemma filewrite_max_eq : filewrite_max = 1536.
Proof. done. Qed.

Lemma overwrite_length o l c : 0 <= o <= Z.of_nat (length c) -> Z.of_nat (length (overwrite o l c)) = Z.of_nat (length c) `max` (o + Z.of_nat (length l)).
Proof. intros Ho. unfold overwrite. rewrite !length_app, length_take, length_drop. lia. Qed.
Lemma overwrite_nil o c : 0 <= o <= Z.of_nat (length c) -> overwrite o [] c = c.
Proof. intros Ho. unfold overwrite. cbn [length app]. rewrite Nat.add_0_r. apply take_drop. Qed.
(** Writing in two pieces is writing the whole. *)
Lemma overwrite_app o l l' c : 0 <= o <= Z.of_nat (length c) -> overwrite (o + Z.of_nat (length l)) l' (overwrite o l c) = overwrite o (l ++ l') c.
Proof.
  intros Ho. unfold overwrite. set (a := take (Z.to_nat o) c).
  assert (Ha : length a = Z.to_nat o) by (unfold a; rewrite length_take; lia).
  replace (Z.to_nat (o + Z.of_nat (length l))) with (length (a ++ l)) by (rewrite length_app; lia).
  rewrite (app_assoc a l), take_app_length, <- !app_assoc. f_equal. f_equal. f_equal.
  rewrite (app_assoc a l), drop_app_add, drop_drop, !length_app. f_equal. lia.
Qed.

Section Runs.
Context {I : Type} `{InodeLaws I}.
Implicit Types (s : system (I := I)) (y : file) (fm : gmap nat (list Z)) (fr : Z).

Lemma layer_run {A} (m : M I A) s a i : m (inodes s) = Ret a i -> fs m s = Ret a (set_inodes i s).
Proof. intros E. unfold fs, zoom. by rewrite E. Qed.
Lemma file_run f s y : ftable s !! f = Some y -> the_file f s = Ret y s.
Proof. intros Hf. unfold the_file, gets, mbind, M_bind, deref. by rewrite Hf. Qed.
Lemma advance_run f r s y : ftable s !! f = Some y -> advance f r s = Ret tt (set_ftable (<[f := set_off (u32 (off y + r)) y]> (ftable s)) s).
Proof. intros Hf. unfold advance, upd_file, modify. by rewrite (list_alter_insert _ _ _ y Hf). Qed.

(** One step of a call on the layer. *)
Ltac on_layer E := match goal with |- context [(fs ?m ≫= _) ?s] => rewrite (bind_ret _ _ _ _ _ (layer_run m s _ _ E)) end.
Ltac layer L i' := let E := fresh "E" in let R := fresh "R" in
  destruct L as (i' & E & R); [eassumption|first [done|by eexists]..|]; on_layer E.

Definition moved f y o k s (i : I) : system (I := I) := mkSystem (<[f := set_off (o + k) y]> (ftable s)) (pipes s) (ofiles s) i.

Lemma max_size_eq : max_size = 71680.
Proof. done. Qed.

Lemma write_chunk_fits f s y c fm fr l :
  ftable s !! f = Some y -> layer_rep (inodes s) (mkView Idle None fm fr) -> fm !! ip y = Some c -> Forall (fun b => 0 <= b < 256) l ->
  0 <= off y <= Z.of_nat (length c) -> 0 < Z.of_nat (length l) <= filewrite_max -> off y + Z.of_nat (length l) <= max_size -> chunk_blocks <= fr ->
  exists i, write_chunk f l s = Ret (Z.of_nat (length l)) (moved f y (off y) (Z.of_nat (length l)) s i) /\
    layer_rep i (mkView Idle None (<[ip y := overwrite (off y) l c]> fm) (fr - chunk_blocks)).
Proof.
  intros Hf R0 Hc Hl Ho Hn Hmax Hfr. unfold write_chunk. rewrite (bind_ret _ _ _ _ _ (file_run f s y Hf)).
  layer (law_begin (inodes s) fm fr) i1. layer (law_lock i1 Fresh (ip y) fm fr) i2.
  destruct (law_write i2 (ip y) c fm fr (off y) l) as (i3 & E1 & R2); try done; [lia|].
  on_layer E1. rewrite (proj2 (Z.ltb_lt 0 _)) by lia. cbn [when].
  rewrite (bind_ret _ _ _ _ _ (advance_run f _ (set_inodes i3 (set_inodes i2 (set_inodes i1 s))) y Hf)).
  layer (law_unlock i3 Used (ip y) (<[ip y := overwrite (off y) l c]> fm) (fr - chunk_blocks)) i4.
  layer (law_end i4 Used (<[ip y := overwrite (off y) l c]> fm) (fr - chunk_blocks)) i5.
  exists i5. split; [|done]. rewrite u32_small by (rewrite max_size_eq in Hmax; lia). done.
Qed.

Lemma write_chunk_big f s y c fm fr l :
  ftable s !! f = Some y -> layer_rep (inodes s) (mkView Idle None fm fr) -> fm !! ip y = Some c ->
  0 <= off y <= Z.of_nat (length c) -> Z.of_nat (length l) <= filewrite_max -> max_size < off y + Z.of_nat (length l) ->
  exists i, write_chunk f l s = Ret (-1) (set_inodes i s) /\ layer_rep i (mkView Idle None fm fr).
Proof.
  intros Hf R0 Hc Ho Hn Hmax. unfold write_chunk. rewrite (bind_ret _ _ _ _ _ (file_run f s y Hf)).
  layer (law_begin (inodes s) fm fr) i1. layer (law_lock i1 Fresh (ip y) fm fr) i2.
  destruct (law_write_big i2 (ip y) c fm fr (off y) l) as (i3 & E1 & R2); try done.
  on_layer E1. cbn [Z.ltb Z.compare when]. step_m.
  layer (law_unlock i3 Fresh (ip y) fm fr) i4. layer (law_end i4 Fresh fm fr) i5. by exists i5.
Qed.

(** How many of [n] bytes at offset [o] filewrite writes before it stops: all, or as many whole
    chunks as the largest file has room for. *)
Definition accepted (o n : Z) : Z := if o + n <=? max_size then n else (max_size - o) / filewrite_max * filewrite_max.
Definition chunks (n : Z) : Z := (n + (filewrite_max - 1)) / filewrite_max.

Lemma accepted_step o n : 0 < n -> 0 <= o -> let n1 := if filewrite_max <? n then filewrite_max else n in o + n1 <= max_size ->
  accepted o n = n1 + accepted (o + n1) (n - n1).
Proof.
  intros Hn Ho n1. unfold accepted, n1. rewrite filewrite_max_eq, max_size_eq. intros H1.
  destruct (Z.ltb_spec 1536 n), (Z.leb_spec (o + n) 71680), (Z.leb_spec (o + n + 0) 71680); repeat case_if; to_prop; dlia.
Qed.
Lemma accepted_range o n : 0 <= n -> 0 <= o <= max_size -> 0 <= accepted o n <= n.
Proof. unfold accepted. rewrite filewrite_max_eq, max_size_eq. intros Hn Ho. case_if; to_prop; dlia. Qed.
Lemma chunks_step n : 0 < n -> let n1 := if filewrite_max <? n then filewrite_max else n in chunks n = 1 + chunks (n - n1).
Proof. intros Hn. unfold chunks. rewrite filewrite_max_eq. cbv zeta. case_if; to_prop; dlia. Qed.
Lemma chunks_nonneg n : 0 <= n -> 0 <= chunks n.
Proof. intros Hn. unfold chunks. rewrite filewrite_max_eq. dlia. Qed.

Lemma moved_twice f y o k k' s i i' : (f < length (ftable s))%nat ->
  moved f (set_off (o + k) y) (o + k) k' (moved f y o k s i) i' = moved f y o (k + k') s i'.
Proof.
  intros Hf. unfold moved. cbn [ftable pipes ofiles]. rewrite list_insert_insert_eq. by rewrite Z.add_assoc.
Qed.
Lemma moved_none f y s i : ftable s !! f = Some y -> moved f y (off y) 0 s i = set_inodes i s.
Proof. intros Hf. unfold moved. rewrite Z.add_0_r. replace (set_off (off y) y) with y by (by destruct y). by rewrite list_insert_id. Qed.

Lemma filewrite_loop_spec f addr (Hb : Forall (fun b => 0 <= b < 256) addr) fuel : forall i s y c fm fr,
  let n := Z.of_nat (length addr) in
  0 <= i <= n -> n - i < Z.of_nat fuel -> ftable s !! f = Some y -> layer_rep (inodes s) (mkView Idle None fm fr) -> fm !! ip y = Some c ->
  0 <= off y <= Z.of_nat (length c) -> chunk_blocks * chunks (n - i) <= fr ->
  let k := accepted (off y) (n - i) in
  exists i' fr', filewrite_loop f addr i fuel s = Ret (i + k) (moved f y (off y) k s i') /\ fr - chunk_blocks * chunks (n - i) <= fr' /\
    layer_rep i' (mkView Idle None (<[ip y := overwrite (off y) (take (Z.to_nat k) (drop (Z.to_nat i) addr)) c]> fm) fr').
Proof.
  induction fuel as [|fuel IH]; intros i s y c fm fr n Hi Hfuel Hf R Hc Ho Hfr k; [lia|]. cbn [filewrite_loop]. fold n.
  pose proof (law_size _ _ _ _ R Hc) as Hmax. destruct (Z.ltb_spec i n) as [Hlt|Hge].
  2: { assert (Ek : k = 0) by (unfold k, accepted; replace (n - i) with 0 by lia; rewrite Z.add_0_r, (proj2 (Z.leb_le _ _)) by lia; done).
    rewrite Ek. exists (inodes s), fr. rewrite moved_none, Z.add_0_r by done. split; [by destruct s|]. split; [pose proof (chunks_nonneg (n - i) ltac:(lia)); unfold chunk_blocks; lia|].
    cbn [Z.to_nat take]. rewrite overwrite_nil, insert_id by done. done. }
  set (n1 := if filewrite_max <? n - i then filewrite_max else n - i).
  assert (Hn1 : 0 < n1 <= n - i /\ n1 <= filewrite_max) by (unfold n1; rewrite filewrite_max_eq; case_if; to_prop; lia).
  assert (Hch : chunks (n - i) = 1 + chunks (n - (i + n1))) by (replace (n - (i + n1)) with (n - i - n1) by lia; apply chunks_step; lia).
  pose proof (chunks_nonneg (n - (i + n1)) ltac:(lia)) as Hch0.
  set (l := take (Z.to_nat n1) (drop (Z.to_nat i) addr)).
  assert (Hll : Z.of_nat (length l) = n1) by (unfold l; rewrite length_take, length_drop; lia).
  assert (Hlb : Forall (fun b => 0 <= b < 256) l) by (by apply Forall_take, Forall_drop).
  destruct (Z.le_gt_cases (off y + n1) max_size) as [Hfit|Hbig].
  - destruct (write_chunk_fits f s y c fm fr l) as (i1 & E1 & R1); try done; try (unfold chunk_blocks in *; lia).
    rewrite (bind_ret _ _ _ _ _ E1), Hll in *. rewrite (proj2 (Z.ltb_ge n1 0)), Z.eqb_refl by lia. cbn [negb]. step_m.
    set (y1 := set_off (off y + n1) y). assert (Hf1 : (f < length (ftable s))%nat) by (by eapply lookup_lt_Some).
    destruct (IH (i + n1) (moved f y (off y) n1 s i1) y1 (overwrite (off y) l c) (<[ip y := overwrite (off y) l c]> fm) (fr - chunk_blocks)) as (i2 & fr2 & E2 & Hfr2 & R2); try done.
    + fold n. lia.
    + fold n. lia.
    + by apply list_lookup_insert_eq.
    + apply lookup_insert_eq.
    + rewrite overwrite_length by lia. cbn [off set_off y1]. lia.
    + fold n. unfold chunk_blocks in *. lia.
    + fold n in E2, Hfr2, R2. cbn [off set_off y1 ip] in E2, R2. set (k2 := accepted (off y + n1) (n - (i + n1))) in *.
      assert (Hk : k = n1 + k2) by (unfold k, k2; replace (n - (i + n1)) with (n - i - n1) by lia; apply accepted_step; lia).
      assert (Hk2 : 0 <= k2) by (apply accepted_range; lia).
      exists i2, fr2. split; [rewrite E2, Hk; f_equal; [lia|]; by apply moved_twice|]. split; [unfold chunk_blocks in *; lia|].
      rewrite insert_insert_eq, <- Hll, overwrite_app in R2 by lia.
      replace (take (Z.to_nat k) (drop (Z.to_nat i) addr)) with (l ++ take (Z.to_nat k2) (drop (Z.to_nat (i + Z.of_nat (length l))) addr)); [done|].
      unfold l. rewrite Hk, (Z2Nat.inj_add n1 k2), <- take_take_drop, drop_drop by lia. f_equal. f_equal. f_equal. fold l. lia.
  - assert (Ek : k = 0).
    { unfold k, accepted. rewrite (proj2 (Z.leb_gt _ _)) by lia. rewrite Z.div_small; [done|]. rewrite filewrite_max_eq in *. lia. }
    destruct (write_chunk_big f s y c fm fr l) as (i1 & E1 & R1); try done; try lia.
    rewrite (bind_ret _ _ _ _ _ E1), (proj2 (Z.ltb_lt (-1) 0)), Ek by lia. exists i1, fr. rewrite moved_none, Z.add_0_r by done.
    split; [done|]. split; [unfold chunk_blocks; lia|]. cbn [Z.to_nat take]. by rewrite overwrite_nil, insert_id.
Qed.

(** ** Each call, on a file that holds the bytes [c] *)

Lemma filewrite_run killed f addr s y c fm fr :
  Forall (fun b => 0 <= b < 256) addr -> ftable s !! f = Some y -> type y = FD_INODE -> writable y = true ->
  layer_rep (inodes s) (mkView Idle None fm fr) -> fm !! ip y = Some c -> 0 <= off y <= Z.of_nat (length c) ->
  chunk_blocks * chunks (Z.of_nat (length addr)) <= fr ->
  let n := Z.of_nat (length addr) in let k := accepted (off y) n in
  exists i' fr', filewrite killed f addr s = Ret (Returned (if k =? n then n else -1) (drop (Z.to_nat k) addr)) (moved f y (off y) k s i') /\
    fr - chunk_blocks * chunks n <= fr' /\
    layer_rep i' (mkView Idle None (<[ip y := overwrite (off y) (take (Z.to_nat k) addr) c]> fm) fr').
Proof.
  intros Hb Hf Ht Hw R Hc Ho Hfr n k. unfold filewrite. rewrite (bind_ret _ _ _ _ _ (file_run f s y Hf)), Hw, Ht. cbn [negb].
  destruct (filewrite_loop_spec f addr Hb (S (length addr)) 0 s y c fm fr) as (i' & fr' & E & Hfr' & R'); try done; try lia.
  { by rewrite Z.sub_0_r. }
  rewrite Z.sub_0_r, Z.add_0_l in *. cbn [Z.to_nat drop] in R'. fold n in E, Hfr', R'. fold k in E, R'.
  exists i', fr'. rewrite (bind_ret _ _ _ _ _ E). by fold n.
Qed.

Lemma fileread_run killed f n s y c fm fr :
  ftable s !! f = Some y -> type y = FD_INODE -> File.readable y = true -> layer_rep (inodes s) (mkView Idle None fm fr) -> fm !! ip y = Some c ->
  0 <= off y <= Z.of_nat (length c) -> 0 <= n < 2 ^ 31 ->
  let b := take (Z.to_nat n) (drop (Z.to_nat (off y)) c) in
  exists i', fileread killed f n s = Ret (Returned (Z.of_nat (length b)) b) (moved f y (off y) (Z.of_nat (length b)) s i') /\
    layer_rep i' (mkView Idle None fm fr).
Proof.
  intros Hf Ht Hr R0 Hc Ho Hn b. unfold fileread. rewrite (bind_ret _ _ _ _ _ (file_run f s y Hf)), Hr, Ht. cbn [negb].
  layer (law_lock (inodes s) Idle (ip y) fm fr) i1.
  destruct (law_read i1 (ip y) c fm fr (off y) n) as (i2 & E1 & R1); try done. on_layer E1. fold b.
  set (s2 := set_inodes i2 (set_inodes i1 s)).
  assert (Ea : when (0 <? Z.of_nat (length b)) (advance f (Z.of_nat (length b))) s2 = Ret tt (moved f y (off y) (Z.of_nat (length b)) s i2)).
  { destruct (Z.ltb_spec 0 (Z.of_nat (length b))) as [Hl|Hl]; cbn [when].
    - pose proof (law_size _ _ _ _ R0 Hc) as Hm. rewrite max_size_eq in Hm.
      assert (Hlb : Z.of_nat (length b) <= Z.of_nat (length c)) by (unfold b; rewrite length_take, length_drop; lia).
      rewrite (advance_run f _ s2 y Hf), u32_small by lia. done.
    - replace (Z.of_nat (length b)) with 0 by lia. by rewrite moved_none. }
  rewrite (bind_ret _ _ _ _ _ Ea). layer (law_unlock i2 Idle (ip y) fm fr) i3. exists i3. done.
Qed.

Lemma filestat_run f s y c fm fr :
  ftable s !! f = Some y -> type y = FD_INODE -> layer_rep (inodes s) (mkView Idle None fm fr) -> fm !! ip y = Some c ->
  exists st i', filestat f s = Ret (Some st) (set_inodes i' s) /\ st_size st = Z.of_nat (length c) /\ layer_rep i' (mkView Idle None fm fr).
Proof.
  intros Hf Ht R0 Hc. unfold filestat. rewrite (bind_ret _ _ _ _ _ (file_run f s y Hf)), Ht.
  layer (law_lock (inodes s) Idle (ip y) fm fr) i1.
  destruct (law_stat i1 Idle (ip y) c fm fr) as (st & i2 & E1 & Hs & R1); try done. on_layer E1.
  layer (law_unlock i2 Idle (ip y) fm fr) i3. by exists st, i3.
Qed.

(** ** System calls on files as bytes with positions *)

Inductive io_call : Type := CRead (i : nat) (u : uctx) | CWrite (i : nat) (u : uctx) | CFstat (i : nat) (u : uctx).
Inductive io_result : Type := RBytes (e : ended (list Z)) | RSize (n : option Z).
Definition who (c : io_call) : nat := match c with CRead i _ | CWrite i _ | CFstat i _ => i end.

Definition do_call (killed : bool) (c : io_call) : M (system (I := I)) io_result :=
  match c with
  | CRead i u => e ← sys_read killed i u; ret (RBytes e)
  | CWrite i u => e ← sys_write killed i u; ret (RBytes e)
  | CFstat i u => st ← sys_fstat i u; ret (RSize (st_size <$> st))
  end.
Fixpoint do_calls (killed : bool) (cs : list io_call) : M (system (I := I)) (list io_result) :=
  match cs with [] => ret [] | c :: cs => r ← do_call killed c; rs ← do_calls killed cs; ret (r :: rs) end.

(** The open files and the files' bytes. *)
Definition io_state : Type := list file * gmap nat (list Z).
Definition fd_file (ofs : list (list (option nat))) (i : nat) (u : uctx) : option nat :=
  match argint u 0, ofs !! i with
  | Some fd, Some t => if (fd <? 0) || (Z.of_nat NOFILE <=? fd) then None else default None (t !! Z.to_nat fd)
  | _, _ => None
  end.
Definition buffer (u : uctx) : option (Z * Z) := n ← argint u 2; p ← argptr u 1 n; Some (n, p).

Definition spec_read (f : nat) (n : Z) (x : io_state) : io_result * io_state :=
  match x.1 !! f with
  | None => (RBytes (Returned (-1) []), x)
  | Some y =>
      if negb (File.readable y) then (RBytes (Returned (-1) []), x)
      else
        let b := take (Z.to_nat n) (drop (Z.to_nat (off y)) (default [] (x.2 !! ip y))) in
        (RBytes (Returned (Z.of_nat (length b)) b), (<[f := set_off (off y + Z.of_nat (length b)) y]> x.1, x.2))
  end.
Definition spec_write (f : nat) (l : list Z) (x : io_state) : io_result * io_state :=
  match x.1 !! f with
  | None => (RBytes (Returned (-1) l), x)
  | Some y =>
      if negb (writable y) then (RBytes (Returned (-1) l), x)
      else
        let n := Z.of_nat (length l) in let k := accepted (off y) n in
        (RBytes (Returned (if k =? n then n else -1) (drop (Z.to_nat k) l)),
         (<[f := set_off (off y + k) y]> x.1, <[ip y := overwrite (off y) (take (Z.to_nat k) l) (default [] (x.2 !! ip y))]> x.2))
  end.
Definition spec_fstat (f : nat) (x : io_state) : io_result * io_state :=
  (RSize (y ← x.1 !! f; Some (Z.of_nat (length (default [] (x.2 !! ip y))))), x).

Definition spec_call (ofs : list (list (option nat))) (c : io_call) (x : io_state) : io_result * io_state :=
  let bad := (RBytes (Returned (-1) []), x) in
  match c with
  | CRead i u => match fd_file ofs i u, buffer u with Some f, Some (n, _) => spec_read f n x | _, _ => bad end
  | CWrite i u => match fd_file ofs i u, buffer u with Some f, Some (n, p) => spec_write f (user_bytes u p n) x | _, _ => bad end
  | CFstat i u => match fd_file ofs i u, argptr u 1 sizeof_stat with Some f, Some _ => spec_fstat f x | _, _ => (RSize None, x) end
  end.
Fixpoint spec_calls (ofs : list (list (option nat))) (cs : list io_call) (x : io_state) : list io_result * io_state :=
  match cs with
  | [] => ([], x)
  | c :: cs => let '(r, x) := spec_call ofs c x in let '(rs, x) := spec_calls ofs cs x in (r :: rs, x)
  end.

(** The free blocks the writes may take. *)
Definition cost (c : io_call) : Z :=
  match c with CWrite _ u => match buffer u with Some (n, _) => chunk_blocks * chunks n | None => 0 end | _ => 0 end.
Definition costs (cs : list io_call) : Z := foldr (fun c z => cost c + z) 0 cs.

(** Every descriptor is a file's, and every open file's position is inside its file. *)
Record io_ok s fm : Prop := {
  ik_fds : forall i t fd f, ofiles s !! i = Some t -> t !! fd = Some (Some f) -> exists y, ftable s !! f = Some y /\ type y = FD_INODE;
  ik_off : forall f y, ftable s !! f = Some y -> type y = FD_INODE -> exists c, fm !! ip y = Some c /\ 0 <= off y <= Z.of_nat (length c)
}.

Lemma with_fd_run {A} i u (bad : A) (k : nat -> M (system (I := I)) A) s : is_Some (ofiles s !! i) ->
  with_fd i u bad k s = match fd_file (ofiles s) i u with Some f => k f s | None => Ret bad s end.
Proof.
  intros [t Ht]. unfold with_fd, fd_file. rewrite Ht. destruct (argint u 0) as [fd|]; [|done].
  assert (E : argfd i fd s = Ret (if (fd <? 0) || (Z.of_nat NOFILE <=? fd) then None else default None (t !! Z.to_nat fd)) s).
  { unfold argfd, the_table, gets, mbind, M_bind, deref. rewrite Ht. by destruct (_ || _). }
  rewrite (bind_ret _ _ _ _ _ E). by destruct (if _ : bool then _ else _).
Qed.

Lemma buffer_range u n p : buffer u = Some (n, p) -> 0 <= n < 2 ^ 31.
Proof.
  unfold buffer. destruct (argint u 2) as [k|] eqn:Ek; [|done]. cbn [mbind option_bind]. destruct (argptr u 1 k) as [q|] eqn:Eq; [|done].
  intros [= <- <-]. split.
  - unfold argptr in Eq. destruct (argint u 1); [|done]. cbn [mbind option_bind] in Eq. destruct (Z.ltb_spec k 0); [done|lia].
  - unfold argint, fetchint in Ek. case_if; [done|]. injection Ek as <-. apply s32_range.
Qed.
Lemma user_bytes_ok u p n : Forall (fun b => 0 <= b < 256) (user_bytes u p n).
Proof. unfold user_bytes. apply Forall_fmap, Forall_true. intros k. unfold load8. apply u8_range. Qed.
Lemma user_bytes_length u p n : 0 <= n -> Z.of_nat (length (user_bytes u p n)) = n.
Proof. intros Hn. unfold user_bytes. rewrite length_map, length_seqZ. lia. Qed.

Lemma io_ok_moved s fm f y c c' o k i : io_ok s fm -> ftable s !! f = Some y -> type y = FD_INODE -> fm !! ip y = Some c ->
  (length c <= length c')%nat -> 0 <= o + k <= Z.of_nat (length c') -> io_ok (moved f y o k s i) (<[ip y := c']> fm).
Proof.
  intros [K1 K2] Hf Ht Hc Hle Ho. split; cbn [ofiles ftable moved].
  - intros j t fd g Hj Hg. destruct (K1 j t fd g Hj Hg) as (z & Hz & Tz). destruct (decide (f = g)) as [<-|Hne].
    + exists (set_off (o + k) y). split; [apply list_lookup_insert_eq; by eapply lookup_lt_Some|done].
    + exists z. by rewrite list_lookup_insert_ne.
  - intros g z [(<- & <- & _)|[Hne Hz]]%list_lookup_insert_Some Tz; [exists c'; split; [apply lookup_insert_eq|done]|].
    destruct (K2 g z Hz Tz) as (cz & Hcz & Hoz). destruct (decide (ip z = ip y)) as [E|E].
    + exists c'. rewrite E, lookup_insert_eq. split; [done|]. rewrite E, Hc in Hcz. injection Hcz as <-. lia.
    + exists cz. by rewrite lookup_insert_ne by congruence.
Qed.

Lemma fd_file_open s fm i u f : io_ok s fm -> fd_file (ofiles s) i u = Some f -> exists y c, ftable s !! f = Some y /\ type y = FD_INODE /\ fm !! ip y = Some c /\ 0 <= off y <= Z.of_nat (length c).
Proof.
  intros [K1 K2] Hf. unfold fd_file in Hf. destruct (argint u 0) as [fd|]; [|done]. destruct (ofiles s !! i) as [t|] eqn:Et; [|done].
  case_if; [done|]. destruct (t !! Z.to_nat fd) as [[g|]|] eqn:Eg; try done. injection Hf as ->.
  destruct (K1 i t _ f Et Eg) as (y & Hy & Ty). destruct (K2 f y Hy Ty) as (c & Hc & Ho). by exists y, c.
Qed.

(** A call does what the specification says, from here to there. *)
Definition call_refines killed (c : io_call) s fm fr : Prop :=
  let x := spec_call (ofiles s) c (ftable s, fm) in
  exists s' fr', do_call killed c s = Ret x.1 s' /\ (ftable s' = x.2.1 /\ pipes s' = pipes s /\ ofiles s' = ofiles s) /\
    layer_rep (inodes s') (mkView Idle None x.2.2 fr') /\ fr - cost c <= fr' /\ io_ok s' x.2.2.

Lemma read_refines killed i u s fm fr :
  io_ok s fm -> layer_rep (inodes s) (mkView Idle None fm fr) -> is_Some (ofiles s !! i) -> call_refines killed (CRead i u) s fm fr.
Proof.
  intros Hok R Hi. unfold call_refines. cbn [do_call spec_call cost]. unfold sys_read. fold (buffer u).
  assert (Hbad : exists s' fr', Ret (RBytes (Returned (-1) [])) s = Ret (RBytes (Returned (-1) [])) s' /\
    (ftable s' = ftable s /\ pipes s' = pipes s /\ ofiles s' = ofiles s) /\ layer_rep (inodes s') (mkView Idle None fm fr') /\ fr - 0 <= fr' /\ io_ok s' fm)
    by (exists s, fr; split_and!; try done; lia).
  unfold mbind at 1, M_bind at 1. rewrite with_fd_run by done. destruct (fd_file (ofiles s) i u) as [f|] eqn:Ef; [|exact Hbad].
  destruct (buffer u) as [[n p]|] eqn:Eb; [|exact Hbad]. destruct (fd_file_open s fm i u f Hok Ef) as (y & c & Hy & Ty & Hc & Ho).
  unfold spec_read. cbn [fst snd]. rewrite Hy. destruct (File.readable y) eqn:Er; cbn [negb].
  - rewrite Hc. cbn [default]. set (b := take (Z.to_nat n) (drop (Z.to_nat (off y)) c)).
    destruct (fileread_run killed f n s y c fm fr Hy Ty Er R Hc Ho (buffer_range _ _ _ Eb)) as (i' & E & R'). fold b in E.
    rewrite E. eexists _, fr. split; [done|]. split; [done|]. split; [done|]. split; [lia|].
    rewrite <- (insert_id fm (ip y) c Hc). apply (io_ok_moved s fm f y c c); try done.
    unfold b. rewrite length_take, length_drop. lia.
  - unfold fileread. rewrite (bind_ret _ _ _ _ _ (file_run f s y Hy)), Er. exact Hbad.
Qed.

Lemma write_refines killed i u s fm fr :
  io_ok s fm -> layer_rep (inodes s) (mkView Idle None fm fr) -> is_Some (ofiles s !! i) -> cost (CWrite i u) <= fr -> call_refines killed (CWrite i u) s fm fr.
Proof.
  intros Hok R Hi Hcost. unfold call_refines. cbn [do_call spec_call cost] in *. unfold sys_write. fold (buffer u).
  assert (Hz : 0 <= fr - (fr - match buffer u with Some (n, _) => chunk_blocks * chunks n | None => 0 end)).
  { destruct (buffer u) as [[n p]|] eqn:Eb; [|lia]. pose proof (chunks_nonneg n (proj1 (buffer_range _ _ _ Eb))). unfold chunk_blocks. lia. }
  unfold mbind at 1, M_bind at 1. rewrite with_fd_run by done. destruct (fd_file (ofiles s) i u) as [f|] eqn:Ef; [|exists s, fr; split_and!; try done; lia].
  destruct (buffer u) as [[n p]|] eqn:Eb; [|exists s, fr; split_and!; try done; lia]. pose proof (buffer_range _ _ _ Eb) as Hn.
  destruct (fd_file_open s fm i u f Hok Ef) as (y & c & Hy & Ty & Hc & Ho). unfold spec_write. cbn [fst snd]. rewrite Hy.
  set (l := user_bytes u p n). pose proof (user_bytes_length u p n ltac:(lia)) as Hl. fold l in Hl. destruct (writable y) eqn:Ew; cbn [negb].
  - rewrite Hc. cbn [default]. destruct (filewrite_run killed f l s y c fm fr (user_bytes_ok u p n) Hy Ty Ew R Hc Ho) as (i' & fr' & E & Hfr' & R'); [by rewrite Hl|].
    rewrite E. eexists _, fr'. split; [done|]. split; [done|]. split; [done|]. split; [by rewrite Hl in Hfr'|].
    pose proof (law_size _ _ _ _ R Hc) as Hm. destruct (accepted_range (off y) (Z.of_nat (length l))) as [Ha1 Ha2]; [lia|lia|].
    assert (Hlen : Z.of_nat (length (take (Z.to_nat (accepted (off y) (Z.of_nat (length l)))) l)) = accepted (off y) (Z.of_nat (length l))) by (rewrite length_take; lia).
    pose proof (overwrite_length (off y) (take (Z.to_nat (accepted (off y) (Z.of_nat (length l)))) l) c Ho) as Hov. rewrite Hlen in Hov.
    cbn [fst snd]. unfold id. apply (io_ok_moved s fm f y c); try done; lia.
  - unfold filewrite. rewrite (bind_ret _ _ _ _ _ (file_run f s y Hy)), Ew. exists s, fr. split_and!; try done; lia.
Qed.

Lemma fstat_refines killed i u s fm fr :
  io_ok s fm -> layer_rep (inodes s) (mkView Idle None fm fr) -> is_Some (ofiles s !! i) -> call_refines killed (CFstat i u) s fm fr.
Proof.
  intros Hok R Hi. unfold call_refines. cbn [do_call spec_call cost]. unfold sys_fstat.
  unfold mbind at 1, M_bind at 1. rewrite with_fd_run by done. destruct (fd_file (ofiles s) i u) as [f|] eqn:Ef; [|exists s, fr; split_and!; try done; lia].
  destruct (argptr u 1 sizeof_stat) as [p|]; [|exists s, fr; split_and!; try done; lia].
  destruct (fd_file_open s fm i u f Hok Ef) as (y & c & Hy & Ty & Hc & Ho). unfold spec_fstat. cbn [fst snd].
  destruct (filestat_run f s y c fm fr Hy Ty R Hc) as (st & i' & E & Hs & R'). rewrite E, Hy. cbn [mbind option_bind]. rewrite Hc. cbn [default].
  exists (set_inodes i' s), fr. unfold id. rewrite <- Hs. split_and!; try done; [lia|]. by destruct Hok.
Qed.

Lemma do_call_refines killed c s fm fr :
  io_ok s fm -> layer_rep (inodes s) (mkView Idle None fm fr) -> is_Some (ofiles s !! who c) -> cost c <= fr -> call_refines killed c s fm fr.
Proof. destruct c; cbn [who]; intros; [by apply read_refines|by apply write_refines|by apply fstat_refines]. Qed.

Lemma cost_nonneg c : 0 <= cost c.
Proof.
  destruct c as [| i u|]; cbn [cost]; [lia| |lia]. destruct (buffer u) as [[n p]|] eqn:Eb; [|lia].
  pose proof (chunks_nonneg n (proj1 (buffer_range _ _ _ Eb))). unfold chunk_blocks. lia.
Qed.
Lemma costs_nonneg cs : 0 <= costs cs.
Proof. induction cs as [|c cs IH]; cbn; [lia|]. pose proof (cost_nonneg c). unfold costs in IH. lia. Qed.

(** C28: read, write and fstat on descriptors of files do what they promise. Whatever sequence of
    these calls the processes make, on descriptors that share open files or files, with any
    arguments on their stacks, every call returns the specification's result: a file is a list
    of bytes, an open file a position in one; bad descriptors, buffers outside the process and
    the wrong access mode give -1; a read returns what is left up to the end; a write of any
    length replaces and extends the bytes, in as many transactions as the log's space needs, and
    one past the largest file size stops after whole chunks with -1. The disk has the free
    blocks the writes may need. *)
Theorem file_calls_refine killed cs : forall s fm fr,
  io_ok s fm -> layer_rep (inodes s) (mkView Idle None fm fr) -> Forall (fun c => is_Some (ofiles s !! who c)) cs -> costs cs <= fr ->
  let x := spec_calls (ofiles s) cs (ftable s, fm) in
  exists s' fr', do_calls killed cs s = Ret x.1 s' /\ ftable s' = x.2.1 /\ pipes s' = pipes s /\ ofiles s' = ofiles s /\
    layer_rep (inodes s') (mkView Idle None x.2.2 fr').
Proof.
  induction cs as [|c cs IH]; intros s fm fr Hok R Hcs Hfr; [by exists s, fr|].
  apply Forall_cons in Hcs as [Hc Hcs]. cbn [costs foldr] in Hfr. fold (costs cs) in Hfr. pose proof (cost_nonneg c). pose proof (costs_nonneg cs).
  destruct (do_call_refines killed c s fm fr Hok R Hc ltac:(lia)) as (s1 & fr1 & E1 & (T1 & P1 & O1) & R1 & Hfr1 & Hok1).
  cbn [spec_calls do_calls]. rewrite (bind_ret _ _ _ _ _ E1). destruct (spec_call (ofiles s) c (ftable s, fm)) as [r [t1 fm1]]. cbn [fst snd] in *.
  destruct (IH s1 fm1 fr1 Hok1 R1) as (s2 & fr2 & E2 & T2 & P2 & O2 & R2); [by rewrite O1|lia|]. rewrite O1, T1 in *.
  rewrite (bind_ret _ _ _ _ _ E2). destruct (spec_calls (ofiles s) cs (t1, fm1)) as [rs x2]. cbn [fst snd] in *.
  exists s2, fr2. split_and!; try done; congruence.
Qed.
End Runs.
