(* ===== verification/FileFs.v ===== *)
(** * FileFs: the file system keeps the promise of the inode layer

    [InodeLaws] of FileIo.v, proved of the inodes of fs.c (Inode.v) inside the transactions of
    log.c (Log.v) over any buffer cache: one call at a time, its blocks within the log's space. *)

From S2P Require Import Prelude Memory Spinlock Cache Bio Log Tx Fs Inode Dir DirSpec Sysfile Unlink Fcntl Pipe File FileIo.

(** Bytes as memory at address 0, and memory as bytes. *)
Definition mem_of (l : list Z) : memory := fun a => default 0 (l !! Z.to_nat a).
Definition bytes_at (m : memory) (n : Z) : list Z := map (fun k => load8 m k) (seqZ 0 n).

Section Layer.
Context {T : Type} `{BlockCache T}.
Abbreviation fsys := (fstate (lstate T) fcore).
Context (devsw_read devsw_write : Z -> option (nat -> memory -> Z -> Z -> M fsys (Z * memory))).

#[global] Instance fs_layer : InodeLayer fsys := {|
  File.begin_op := in_disk Log.begin_op;
  File.end_op := in_disk Log.end_op;
  File.ilock := Inode.ilock;
  File.iunlock := Inode.iunlock;
  File.iput := Inode.iput;
  File.iunlockput := Inode.iunlockput;
  File.stati := Inode.stati;
  File.readi n o k := '(r, m) ← Inode.readi devsw_read n (fun _ => 0) 0 o k; ret (r, bytes_at m r);
  File.writei n l o := '(r, _) ← Inode.writei devsw_write n (mem_of l) 0 o (Z.of_nat (length l)); ret r
|}.
End Layer.

(** ** Views that agree outside the log *)

Section Agree.
Context {T : Type} `{BlockCache T} (g : geometry) (sbx : superblock) (Hsb : sb_ok g sbx).
Implicit Types (v : dview) (x : inode).

Definition agree v v' : Prop := forall n, sb_inodestart sbx <= n -> dv_data v' n = dv_data v n.

Lemma used_agree v v' b : agree v v' -> in_range sbx b -> used sbx v' b = used sbx v b.
Proof.
  intros Ha Hb. unfold used. rewrite Ha; [done|]. rewrite (BBLOCK_eq g sbx Hsb) by done. pose proof (sb_bounds g sbx Hsb).
  unfold in_range in Hb. unfold BPB, BSIZE. dlia.
Qed.
Lemma alloced_agree v v' a : agree v v' -> alloced sbx v a <-> alloced sbx v' a.
Proof.
  intros Ha. unfold alloced. pose proof (sb_bounds g sbx Hsb). split; intros [Hr Hu]; (split; [done|]).
  - by rewrite (used_agree v) by (unfold in_range; try done; lia).
  - by rewrite (used_agree v) in Hu by (unfold in_range; try done; lia).
Qed.
Lemma alloced_data_agree v v' a : agree v v' -> alloced sbx v a -> dv_data v' a = dv_data v a.
Proof. intros Ha [Hr _]. apply Ha. pose proof (sb_bounds g sbx Hsb). lia. Qed.
Lemma baddr_agree v v' x k : agree v v' -> inode_ok sbx v x -> baddr v' x k = baddr v x k.
Proof.
  intros Ha Hi. destruct (decide (k < NDIRECT)); [by rewrite !baddr_direct|].
  destruct (decide (nth_addr x NDIRECT = 0)) as [Hz|Hz]; [by rewrite !baddr_none by lia|].
  rewrite !baddr_ind by (lia || done). by rewrite (alloced_data_agree v v') by (try done; by apply (io_ind _ _ _ Hi)).
Qed.
Lemma inode_ok_agree v v' x : agree v v' -> inode_ok sbx v x -> inode_ok sbx v' x.
Proof.
  intros Ha Hi. assert (Hk : forall k, baddr v' x k = baddr v x k) by (intros k; by apply baddr_agree). destruct Hi as [L1 L2 L3 L4 L5].
  split; [done|..].
  - intros Hz. by apply (alloced_agree v v'), L2.
  - intros q Hq. rewrite Hk. intros Hz. by apply (alloced_agree v v'), L3.
  - intros q q' Hq Hq'. rewrite !Hk. by apply L4.
  - intros q Hq. rewrite Hk. by apply L5.
Qed.
Lemma owns_agree v v' x a : agree v v' -> inode_ok sbx v x -> owns v' x a <-> owns v x a.
Proof. intros Ha Hi. unfold owns. by setoid_rewrite (fun k => baddr_agree v v' x k Ha Hi). Qed.
Lemma content_agree v v' x k : agree v v' -> inode_ok sbx v x -> 0 <= k < MAXFILE * BSIZE -> baddr v x (k / BSIZE) <> 0 -> content v' x k = content v x k.
Proof.
  intros Ha Hi Hk Hz. unfold content. rewrite (baddr_agree v v') by done.
  rewrite (alloced_data_agree v v' _ Ha); [done|]. apply (io_addr _ _ _ Hi); [by apply block_index|done].
Qed.
Lemma no_holes_agree v v' x : agree v v' -> inode_ok sbx v x -> no_holes v x -> no_holes v' x.
Proof. intros Ha Hi [Hs Hn]. split; [done|]. intros k Hk. rewrite (baddr_agree v v') by done. by apply Hn. Qed.
Lemma fs_ok_agree v v' : agree v v' -> dv_held v' = ∅ -> fs_ok sbx v -> fs_ok sbx v'.
Proof.
  intros Ha Hh [F1 F2]. split; [|intros i n; by rewrite Hh, lookup_empty].
  intros m Hm. pose proof (sb_bounds g sbx Hsb). rewrite (used_agree v) by (unfold in_range; try done; lia). by apply F1.
Qed.
Lemma free_list_agree v v' : agree v v' -> free_list sbx v' = free_list sbx v.
Proof. intros Ha. apply filter_ext_in. intros m [? ?]%elem_of_seqZ. by rewrite (used_agree v) by (unfold in_range; try done; lia). Qed.
End Agree.

Section Promise.
Context {T : Type} `{BlockCache T}.
Abbreviation fsys := (fstate (lstate T) fcore).
Context (devsw_read devsw_write : Z -> option (nat -> memory -> Z -> Z -> M fsys (Z * memory))).
(** The disk's superblock; its bitmap is one block, as on the disks mkfs makes. *)
Context (sbx : superblock) (Hbm : sb_size sbx < BPB).
Implicit Types (s : fsys) (d : lstate T) (c : fcore) (v : dview) (x : inode) (w : iview) (fm : gmap nat (list Z)).

(** The inode [x] holds the bytes [l]. *)
Record file_inv v x (l : list Z) : Prop := {
  fi_ok : inode_ok sbx v x;
  fi_type : i_type x <> T_DEV;
  fi_inum : 0 <= i_inum x < sb_ninodes sbx;
  fi_holes : no_holes v x;
  fi_size : i_size x = Z.of_nat (length l);
  fi_bytes : forall k, 0 <= k < i_size x -> l !! Z.to_nat k = Some (content v x k)
}.
Definition lock_ok (locked : option nat) (n : nat) (pid : Z) x : Prop :=
  1 <= i_ref x /\ i_valid x = true /\
  if decide (locked = Some n) then i_lock x = mkSleep true pid else sl_locked (i_lock x) = false.
(** The log between calls, at the start of a transaction, and after a chunk. *)
Definition phase_ok (p : phase) d v : Prop :=
  committing (lg d) = false /\
  match p with
  | Idle => outstanding (lg d) = 0 /\ dv_logged v = ∅
  | Fresh => outstanding (lg d) = 1 /\ dv_logged v = ∅
  | Used => outstanding (lg d) = 1
  end.

Record layer_view s w v : Prop := {
  lv_disk : disk_rep (log_geometry (fs_disk s)) (fs_disk s) v;
  lv_held : dv_held v = ∅;
  lv_phase : phase_ok (vw_tx w) (fs_disk s) v;
  lv_size : 12 <= l_size (lg (fs_disk s));
  lv_layout : sb_ok (log_geometry (fs_disk s)) sbx;
  lv_sb : sb (fs_core s) = sbx;
  lv_fs : fs_ok sbx v;
  lv_free : vw_free w <= Z.of_nat (length (free_list sbx v));
  lv_locked : forall n, vw_locked w = Some n -> is_Some (vw_files w !! n);
  lv_files : forall n l, vw_files w !! n = Some l ->
    exists x, icache (fs_core s) !! n = Some x /\ file_inv v x l /\ lock_ok (vw_locked w) n (fs_pid (fs_core s)) x;
  lv_apart : forall n m x y, n <> m -> is_Some (vw_files w !! n) -> is_Some (vw_files w !! m) ->
    icache (fs_core s) !! n = Some x -> icache (fs_core s) !! m = Some y -> forall a, owns v x a -> ~ owns v y a
}.
Definition layer_ok s w : Prop := exists v, layer_view s w v.

Lemma disk_rep_geometry g d v : disk_rep g d v -> g = log_geometry d.
Proof. intros (cv & R). apply (tx_g _ _ _ _ R). Qed.
Lemma geometry_same d d' : log_geometry d' = log_geometry d ->
  outstanding (lg d') = outstanding (lg d) /\ committing (lg d') = committing (lg d) /\ l_size (lg d') = l_size (lg d) /\ l_start (lg d') = l_start (lg d).
Proof. unfold log_geometry. by intros [= _ _ E1 E2 E3 E4]. Qed.

Lemma wp_run {A} (m : M fsys A) d c v Q : disk_rep (log_geometry d) d v -> wp (log_geometry d) m v c Q no_panic ->
  exists a d' c' v', m (mkF d c) = Ret a (mkF d' c') /\ disk_rep (log_geometry d') d' v' /\ log_geometry d' = log_geometry d /\ Q a v' c'.
Proof.
  intros Hd Hm. specialize (Hm d Hd). destruct (m (mkF d c)) as [a [d' c']|msg|k|]; try done. destruct Hm as (v' & Hd' & HQ).
  pose proof (disk_rep_geometry _ _ _ Hd') as E. cbn [fs_disk fs_core] in *. exists a, d', c', v'. by rewrite E in Hd' |- * at 1.
Qed.
Lemma wp_unbind {A} g (m : M fsys A) v c Q E : wp g (m ≫= ret) v c Q E -> wp g m v c Q E.
Proof. intros Hm d Hd. specialize (Hm d Hd). unfold mbind, M_bind in Hm. by destruct (m (mkF d c)) as [a [d' c']| | |]. Qed.

Lemma inode_ok_lock v x l : inode_ok sbx v x -> inode_ok sbx v (set_i_lock l x).
Proof. intros [L1 L2 L3 L4 L5]. by split. Qed.
Lemma file_inv_lock v x l b : file_inv v x b -> file_inv v (set_i_lock l x) b.
Proof. intros [F1 F2 F3 F4 F5 F6]. split; try done. by apply inode_ok_lock. Qed.

(** Locking and unlocking. *)
Lemma layer_view_lock d c p o o' n x k fm fr v d' :
  layer_view (mkF d c) (mkView p o fm fr) v -> icache c !! n = Some x -> is_Some (fm !! n) -> disk_rep (log_geometry d') d' v -> log_geometry d' = log_geometry d ->
  (forall m, m <> n -> o <> Some m) -> (forall m, m <> n -> o' <> Some m) -> lock_ok o' n (fs_pid c) (set_i_lock k x) ->
  layer_view (mkF d' (set_inode n (set_i_lock k x) c)) (mkView p o' fm fr) v.
Proof using Hbm.
  intros [V1 V2 V3 V4 V5 V6 V7 V8 V9 VF VA] Hx Hn Hd' Eg Ho Ho' Hl. destruct (geometry_same _ _ Eg) as (G1 & G2 & G3 & G4).
  cbn [fs_disk fs_core vw_tx vw_locked vw_files vw_free] in *.
  assert (Hc : forall m, m <> n -> icache (set_inode n (set_i_lock k x) c) !! m = icache c !! m) by (intros m Hm; by apply set_inode_ne).
  assert (Hcn : icache (set_inode n (set_i_lock k x) c) !! n = Some (set_i_lock k x)) by (by eapply set_inode_lookup).
  split; cbn [fs_disk fs_core vw_tx vw_locked vw_files vw_free]; try done.
  - unfold phase_ok in *. by rewrite G1, G2.
  - by rewrite G3.
  - by rewrite Eg.
  - intros m Hm. destruct (decide (m = n)) as [->|Hne]; [done|]. by destruct (Ho' m Hne).
  - intros m l Hm. destruct (decide (m = n)) as [->|Hne].
    + destruct (VF n l Hm) as (y & Hy & Fy & _). assert (y = x) as -> by congruence. exists (set_i_lock k x). split; [done|]. split; [by apply file_inv_lock|done].
    + destruct (VF m l Hm) as (y & Hy & Fy & Ly). exists y. rewrite Hc by done. split; [done|]. split; [done|].
      unfold lock_ok in *. rewrite decide_False in Ly by (by apply Ho). rewrite decide_False by (by apply Ho'). done.
  - intros a b y z Hab Ha Hb Hy Hz.
    assert (Hown : forall m y, icache (set_inode n (set_i_lock k x) c) !! m = Some y -> exists y0, icache c !! m = Some y0 /\ forall q, owns v y q <-> owns v y0 q).
    { intros m y0 Hm. destruct (decide (m = n)) as [->|Hne]; [exists x; split; [done|]; rewrite Hcn in Hm; injection Hm as <-; done|]. rewrite Hc in Hm by done. by exists y0. }
    destruct (Hown a y Hy) as (y0 & Hy0 & Oy), (Hown b z Hz) as (z0 & Hz0 & Oz). intros q. rewrite Oy, Oz. by apply (VA a b).
Qed.

Lemma fs_law_lock s p n fm fr : layer_ok s (mkView p None fm fr) -> is_Some (fm !! n) -> exists s', Inode.ilock n s = Ret tt s' /\ layer_ok s' (mkView p (Some n) fm fr).
Proof using Hbm.
  intros (v & V) Hn. destruct s as [d c], Hn as [l Hl]. destruct (lv_files _ _ _ V n l Hl) as (x & Hx & Fx & Lx). cbn [fs_core vw_locked] in *.
  destruct Lx as (Lr & Lv & Ll). rewrite decide_False in Ll by done.
  destruct (wp_run (Inode.ilock n) d c v (fun _ v' c' => v' = v /\ c' = set_inode n (set_i_lock (mkSleep true (fs_pid c)) x) c)) as (a & d' & c' & v' & E & Hd' & Eg & -> & ->).
  { apply (lv_disk _ _ _ V). }
  { apply wp_unbind. eapply wp_ilock; try done. by apply wp_ret. }
  destruct a. eexists. split; [exact E|]. exists v.
  apply (layer_view_lock d c p None (Some n) n x _ fm fr v d'); try done; [congruence|]. unfold lock_ok. by rewrite decide_True.
Qed.

Lemma fs_law_unlock s p n fm fr : layer_ok s (mkView p (Some n) fm fr) -> exists s', Inode.iunlock n s = Ret tt s' /\ layer_ok s' (mkView p None fm fr).
Proof using Hbm.
  intros (v & V). destruct s as [d c]. pose proof (lv_locked _ _ _ V n eq_refl) as Hn. destruct Hn as [l Hl]. destruct (lv_files _ _ _ V n l Hl) as (x & Hx & Fx & Lx). cbn [fs_core vw_locked] in *.
  destruct Lx as (Lr & Lv & Ll). rewrite decide_True in Ll by done.
  destruct (wp_run (Inode.iunlock n) d c v (fun _ v' c' => v' = v /\ c' = set_inode n (set_i_lock (mkSleep false 0) x) c)) as (a & d' & c' & v' & E & Hd' & Eg & -> & ->).
  { apply (lv_disk _ _ _ V). }
  { apply wp_unbind. eapply wp_iunlock; try done. by apply wp_ret. }
  destruct a. eexists. split; [exact E|]. exists v.
  apply (layer_view_lock d c p (Some n) None n x _ fm fr v d'); try done; congruence.
Qed.

Lemma fs_law_size s w n l : layer_ok s w -> vw_files w !! n = Some l -> Z.of_nat (length l) <= max_size.
Proof. intros (v & V) Hn. destruct (lv_files _ _ _ V n l Hn) as (x & _ & F & _). rewrite <- (fi_size _ _ _ F). apply (fi_holes _ _ _ F). Qed.

Lemma fs_law_stat s p n l fm fr : layer_ok s (mkView p (Some n) fm fr) -> fm !! n = Some l ->
  exists st s', Inode.stati n s = Ret st s' /\ st_size st = Z.of_nat (length l) /\ layer_ok s' (mkView p (Some n) fm fr).
Proof.
  intros (v & V) Hl. destruct (lv_files _ _ _ V n l Hl) as (x & Hx & F & _). exists (mkStat (i_type x) (i_dev x) (i_inum x) (i_nlink x) (i_size x)), s.
  split; [|split; [apply (fi_size _ _ _ F)|by exists v]]. unfold Inode.stati, the_inode, mbind, M_bind. by rewrite Hx.
Qed.

Lemma bytes_at_eq (m : memory) n (b : list Z) : Z.of_nat (length b) = n -> (forall k, 0 <= k < n -> b !! Z.to_nat k = Some (load8 m k)) -> bytes_at m n = b.
Proof.
  intros Hn Hb. apply list_eq. intros i. unfold bytes_at. rewrite (list_lookup_fmap (fun k => load8 m k)). destruct (decide (i < length b)%nat) as [Hi|Hi].
  - rewrite lookup_seqZ_lt by lia. cbn [fmap option_fmap option_map]. specialize (Hb (Z.of_nat i) ltac:(lia)). rewrite Nat2Z.id in Hb. by rewrite Hb, Z.add_0_l.
  - rewrite lookup_seqZ_ge by lia. by rewrite lookup_ge_None_2 by lia.
Qed.

(** The disk and the inode of the file a call works on. *)
Lemma layer_file d c p n l fm fr v : layer_view (mkF d c) (mkView p (Some n) fm fr) v -> fm !! n = Some l ->
  exists x, icache c !! n = Some x /\ file_inv v x l /\ i_size x <= MAXFILE * BSIZE /\ file_at sbx n x v c.
Proof.
  intros V Hl. destruct (lv_files _ _ _ V n l Hl) as (x & Hx & F & _). exists x. pose proof (proj1 (fi_holes _ _ _ F)). split_and!; try done; [lia|].
  split; try apply F; try done; try apply V.
Qed.
Lemma layer_cache s w v : layer_view s w v -> (12 <= cache_size)%nat /\ l_size (lg (fs_disk s)) <= Z.of_nat cache_size.
Proof. intros V. destruct (lv_disk _ _ _ V) as (cv & R). pose proof (g_cache _ _ (tx_geom _ _ _ _ R)) as [? ?]. pose proof (lv_size _ _ _ V). lia. Qed.

Lemma fs_law_read s n l fm fr o k : layer_ok s (mkView Idle (Some n) fm fr) -> fm !! n = Some l -> 0 <= o <= Z.of_nat (length l) -> 0 <= k < 2 ^ 31 ->
  exists s', File.readi (InodeLayer := fs_layer devsw_read devsw_write) n o k s =
      Ret (Z.of_nat (length (take (Z.to_nat k) (drop (Z.to_nat o) l))), take (Z.to_nat k) (drop (Z.to_nat o) l)) s' /\
    layer_ok s' (mkView Idle (Some n) fm fr).
Proof using Hbm.
  intros (v & V) Hl Ho Hk. destruct s as [d c]. destruct (layer_file _ _ _ _ _ _ _ _ V Hl) as (x & Hx & F & Hs & _).
  pose proof (layer_cache _ _ _ V) as [Hcs _]. pose proof (lv_phase _ _ _ V) as (_ & _ & Hlog). cbn [vw_tx] in Hlog.
  pose proof (fi_size _ _ _ F) as Hsz. rewrite MAXFILE_eq in Hs. unfold BSIZE in Hs.
  destruct (wp_run (Inode.readi devsw_read n (fun _ => 0) 0 o k) d c v (fun r v' c' => v' = v /\ c' = c /\ r.1 = Inode.readable (i_size x) o k /\
      fetched v x (fun _ => 0) r.2 0 o (o + Inode.readable (i_size x) o k))) as ([r m] & d' & c' & v' & E & Hd' & Eg & -> & -> & Hr & Hf).
  { apply (lv_disk _ _ _ V). }
  { apply (readi_spec (log_geometry d) sbx (lv_layout _ _ _ V) devsw_read n x); try apply F; try done; try lia; try apply V.
    rewrite Hlog, size_empty. cbn [log_geometry g_bufs]. lia. }
  cbn [fst snd] in Hr, Hf. set (b := take (Z.to_nat k) (drop (Z.to_nat o) l)).
  assert (Hb : Z.of_nat (length b) = Inode.readable (i_size x) o k).
  { unfold b, Inode.readable. rewrite length_take, length_drop. destruct (Z.ltb_spec (i_size x) (o + k)); lia. }
  assert (Eb : bytes_at m r = b).
  { apply bytes_at_eq; [congruence|]. intros q Hq. destruct Hf as [Hf _]. specialize (Hf (o + q) ltac:(lia)).
    replace (0 + (o + q - o)) with q in Hf by lia. rewrite Hf. unfold b. rewrite lookup_take_lt, lookup_drop by (unfold Inode.readable in *; case_if; lia).
    rewrite <- Z2Nat.inj_add by lia. apply (fi_bytes _ _ _ F). unfold Inode.readable in *. case_if; to_prop; lia. }
  exists (mkF d' c). split.
  - cbn [File.readi fs_layer]. rewrite (bind_ret _ _ _ _ _ E). unfold ret. by rewrite Eb, Hb, Hr.
  - exists v. destruct V as [V1 V2 V3 V4 V5 V6 V7 V8 V9 VF VA]. destruct (geometry_same _ _ Eg) as (G1 & G2 & G3 & G4).
    split; cbn [fs_disk fs_core vw_tx vw_locked vw_files vw_free] in *; try done; [|by rewrite G3|by rewrite Eg].
    unfold phase_ok in *. by rewrite G1, G2.
Qed.

Lemma fs_law_write_big s n l fm fr o b : layer_ok s (mkView Fresh (Some n) fm fr) -> fm !! n = Some l -> 0 <= o <= Z.of_nat (length l) ->
  Z.of_nat (length b) <= filewrite_max -> max_size < o + Z.of_nat (length b) ->
  exists s', File.writei (InodeLayer := fs_layer devsw_read devsw_write) n b o s = Ret (-1) s' /\ layer_ok s' (mkView Fresh (Some n) fm fr).
Proof using Hbm.
  intros (v & V) Hl Ho Hb Hmax. exists s. split; [|by exists v]. destruct s as [d c]. destruct (layer_file _ _ _ _ _ _ _ _ V Hl) as (x & Hx & F & Hs & _).
  rewrite max_size_eq in Hmax. rewrite filewrite_max_eq in Hb. rewrite MAXFILE_eq in Hs. unfold BSIZE in Hs. pose proof (fi_size _ _ _ F) as Hsz.
  assert (E : Inode.writei devsw_write n (mem_of b) 0 o (Z.of_nat (length b)) (mkF d c) = Ret (-1, mem_of b) (mkF d c)).
  { assert (Ei : the_inode n (mkF d c) = Ret x (mkF d c)) by (unfold the_inode; cbn [fs_core]; by rewrite Hx).
    unfold Inode.writei. rewrite (bind_ret _ _ _ _ _ Ei). rewrite (proj2 (Z.eqb_neq _ _)) by apply F.
    rewrite u32_small by lia. rewrite !(proj2 (Z.ltb_ge _ _)) by lia. cbn [orb]. rewrite (proj2 (Z.ltb_lt _ _)) by (rewrite MAXFILE_eq; unfold BSIZE; lia). done. }
  cbn [File.writei fs_layer]. by rewrite (bind_ret _ _ _ _ _ E).
Qed.

Lemma overwrite_lookup o b l i : 0 <= o <= Z.of_nat (length l) ->
  overwrite o b l !! i = if decide (o <= Z.of_nat i < o + Z.of_nat (length b)) then b !! (i - Z.to_nat o)%nat else l !! i.
Proof.
  intros Ho. unfold overwrite. set (a := take (Z.to_nat o) l). assert (Ha : length a = Z.to_nat o) by (unfold a; rewrite length_take; lia).
  destruct (decide (Z.of_nat i < o)).
  - rewrite lookup_app_l, decide_False by lia. unfold a. by rewrite lookup_take_lt by lia.
  - rewrite lookup_app_r, Ha by lia. case_decide.
    + by rewrite lookup_app_l by lia.
    + rewrite lookup_app_r, lookup_drop by lia. f_equal. lia.
Qed.

(** What a write to the file [n] does to the bytes of the files. *)
Lemma wrote_inv v x v' x' l o b : Forall (fun q => 0 <= q < 256) b -> 0 <= o <= Z.of_nat (length l) -> o + Z.of_nat (length b) <= max_size -> file_inv v x l ->
  wrote_file sbx (fun k => load8 (mem_of b) (0 + (k - o))) o (Z.of_nat (length b)) v x v' x' -> file_inv v' x' (overwrite o b l).
Proof.
  intros Hb Ho Hmax [F1 F2 F3 F4 F5 F6] W. pose proof (wf_same _ _ _ _ _ _ _ _ W) as Es. pose proof (overwrite_length o b l Ho) as Hl. pose proof (wf_size _ _ _ _ _ _ _ _ W) as Hs.
  split; [apply W| | |apply (wf_holes _ _ _ _ _ _ _ _ W)| |].
  - rewrite <- Es in F2. exact F2.
  - rewrite <- Es in F3. exact F3.
  - lia.
  - intros k Hk. rewrite overwrite_lookup, Z2Nat.id by lia. rewrite (wf_content _ _ _ _ _ _ _ _ W) by done. case_decide as Hd.
    + unfold load8, mem_of. rewrite Z.add_0_l. destruct (lookup_lt_is_Some_2 b (Z.to_nat (k - o))) as [q Hq]; [lia|].
      rewrite Hq. cbn [default]. unfold id. rewrite u8_small by (by apply (Forall_lookup_1 _ _ _ _ Hb Hq)). rewrite <- Hq. f_equal. lia.
    + apply F6. lia.
Qed.
Lemma wrote_other (f : Z -> Z) o k v x v' x' y l : wrote_file sbx f o k v x v' x' -> file_inv v y l -> (forall a, owns v x a -> ~ owns v y a) ->
  file_inv v' y l /\ (forall a, owns v' x' a -> ~ owns v' y a) /\ (forall a, owns v' y a <-> owns v y a).
Proof.
  intros W [F1 F2 F3 F4 F5 F6] Hsep. destruct (wf_others _ _ _ _ _ _ _ _ W y F1 Hsep) as (O1 & O2 & O3).
  assert (Hk : forall q, 0 <= q < MAXFILE -> baddr v' y q = baddr v y q) by (intros q Hq; by apply (wf_baddr _ _ _ _ _ _ _ _ W)).
  split; [|split; [done|]].
  - destruct F4 as [N1 N2]. split; try done.
    + split; [done|]. intros q Hq. rewrite Hk by (apply block_index; lia). by apply N2.
    + intros q Hq. rewrite O3 by (try lia; by apply N2). by apply F6.
  - intros a. unfold owns. split; intros [Ha [?|(q & Hq & ->)]]; (split; [done|]); try (by left); right; exists q; rewrite ?Hk in * by done; done.
Qed.

Lemma fs_law_write s n l fm fr o b : layer_ok s (mkView Fresh (Some n) fm fr) -> fm !! n = Some l -> Forall (fun q => 0 <= q < 256) b ->
  0 <= o <= Z.of_nat (length l) -> Z.of_nat (length b) <= filewrite_max -> o + Z.of_nat (length b) <= max_size -> chunk_blocks <= fr ->
  exists s', File.writei (InodeLayer := fs_layer devsw_read devsw_write) n b o s = Ret (Z.of_nat (length b)) s' /\
    layer_ok s' (mkView Used (Some n) (<[n := overwrite o b l]> fm) (fr - chunk_blocks)).
Proof using Hbm.
  intros (v & V) Hl Hb Ho Hn Hmax Hfr. destruct s as [d c]. destruct (layer_file _ _ _ _ _ _ _ _ V Hl) as (x & Hx & F & Hs & Hat).
  destruct (layer_cache _ _ _ V) as [Hcs Hcl]. pose proof (lv_phase _ _ _ V) as (_ & Hout & Hlog). cbn [vw_tx fs_disk] in *. pose proof (lv_size _ _ _ V) as Hls. cbn [fs_disk] in Hls.
  pose proof (fi_size _ _ _ F) as Hsz. set (m := Z.of_nat (length b)) in *. set (it := chunk_rounds m). assert (Hit4 : (it <= 4)%nat) by (unfold it, chunk_rounds; lia).
  pose proof (lv_layout _ _ _ V) as Hsb. pose proof (lv_free _ _ _ V) as Hfree. cbn [vw_free fs_disk] in *.
  pose proof (footprint_one_bitmap _ _ Hsb v Hbm) as Hfp. rewrite Hlog, size_empty in Hfp.
  destruct (wp_run (Inode.writei devsw_write n (mem_of b) 0 o m) d c v (fun r v' c' => r = (m, mem_of b) /\ exists x', file_at sbx n x' v' c' /\ c' = set_inode n x' c /\
       wrote_file sbx (fun k => load8 (mem_of b) (0 + (k - o))) o m v x v' x' /\ (length (free_list sbx v) <= length (free_list sbx v') + 2 * it)%nat))
    as (r & d' & c' & v' & E & Hd' & Eg & -> & x' & Hat' & -> & W & Hfl).
  { apply (lv_disk _ _ _ V). }
  { eapply wp_mono; [eapply (writei_file (log_geometry d) sbx Hsb devsw_write n x v c (mem_of b) 0 o m it); try done; try lia| |].
    - apply chunk_rounds_enough. lia.
    - unfold it, chunk_rounds. lia.
    - unfold fits. rewrite (lv_held _ _ _ V), map_size_empty. cbn [log_geometry g_room g_bufs]. unfold log_room. rewrite Hout.
      cbn [Z.leb Z.compare Pos.compare Pos.compare_cont]. unfold LOGSIZE, MAXOPBLOCKS. lia.
    - intros r v' c' (-> & x' & A1 & A2 & A3 & _ & A5). split; [done|]. by exists x'.
    - intros msg (_ & Hlt). exfalso. unfold chunk_blocks in Hfr. lia. }
  exists (mkF d' (set_inode n x' c)). split; [cbn [File.writei fs_layer]; by rewrite (bind_ret _ _ _ _ _ E)|]. exists v'.
  pose proof (wrote_inv v x v' x' l o b Hb Ho Hmax F W) as F'. pose proof (wf_same _ _ _ _ _ _ _ _ W) as Es.
  assert (Hcm : forall q, q <> n -> icache (set_inode n x' c) !! q = icache c !! q) by (intros q Hq; by apply set_inode_ne).
  assert (Hcn : icache (set_inode n x' c) !! n = Some x') by (by eapply set_inode_lookup).
  destruct V as [V1 V2 V3 V4 V5 V6 V7 V8 V9 VF VA]. destruct (geometry_same _ _ Eg) as (G1 & G2 & G3 & G4). cbn [fs_disk fs_core vw_tx vw_locked vw_files vw_free] in *.
  assert (Hapart : forall q y, q <> n -> is_Some (fm !! q) -> icache c !! q = Some y -> forall a, owns v x a -> ~ owns v y a).
  { intros q y Hq Hqf Hy. by apply (VA n q x y). }
  split; cbn [fs_disk fs_core vw_tx vw_locked vw_files vw_free]; try done.
  - by rewrite (wf_held _ _ _ _ _ _ _ _ W).
  - destruct V3 as (V3 & V3' & _). split; congruence.
  - by rewrite G3.
  - by rewrite Eg.
  - apply W.
  - unfold chunk_blocks in *. lia.
  - intros q [= <-]. by rewrite lookup_insert_eq.
  - intros q lq. destruct (decide (q = n)) as [->|Hq].
    + rewrite lookup_insert_eq. intros [= <-]. exists x'. split; [done|]. split; [done|]. destruct (VF n l Hl) as (x0 & Hx0 & _ & Lx). assert (x0 = x) as -> by congruence.
      rewrite <- Es in Lx. exact Lx.
    + rewrite lookup_insert_ne by done. intros Hlq. destruct (VF q lq Hlq) as (y & Hy & Fy & Ly). exists y. rewrite Hcm by done. split; [done|]. split; [|done].
      apply (wrote_other _ _ _ _ _ _ _ _ _ W Fy). by apply (Hapart q).
  - assert (Hsome : forall q, q <> n -> is_Some (<[n := overwrite o b l]> fm !! q) -> is_Some (fm !! q)) by (intros q Hq; by rewrite lookup_insert_ne).
    assert (Hinv : forall q y, is_Some (fm !! q) -> icache c !! q = Some y -> exists lq, file_inv v y lq).
    { intros q y [lq Hlq] Hy. destruct (VF q lq Hlq) as (y0 & Hy0 & Fy & _). exists lq. congruence. }
    intros p q y z Hpq Hp Hq Hy Hz. destruct (decide (p = n)) as [->|Hpn]; [|destruct (decide (q = n)) as [->|Hqn]].
    + rewrite Hcn in Hy. injection Hy as <-. apply Hsome in Hq; [|done]. rewrite Hcm in Hz by done. destruct (Hinv q z Hq Hz) as [lq Fz].
      apply (wrote_other _ _ _ _ _ _ _ _ _ W Fz). by apply (Hapart q).
    + rewrite Hcn in Hz. injection Hz as <-. apply Hsome in Hp; [|done]. rewrite Hcm in Hy by done. destruct (Hinv p y Hp Hy) as [lp Fy].
      intros a Ha Hxa. destruct (wrote_other _ _ _ _ _ _ _ _ _ W Fy ltac:(by apply (Hapart p))) as (_ & Hsep & _). by apply (Hsep a).
    + apply Hsome in Hp; [|done]. apply Hsome in Hq; [|done]. rewrite Hcm in Hy, Hz by done.
      destruct (Hinv p y Hp Hy) as [lp Fy], (Hinv q z Hq Hz) as [lq Fz].
      destruct (wrote_other _ _ _ _ _ _ _ _ _ W Fy ltac:(by apply (Hapart p))) as (_ & _ & Oy), (wrote_other _ _ _ _ _ _ _ _ _ W Fz ltac:(by apply (Hapart q))) as (_ & _ & Oz).
      intros a. rewrite Oy, Oz. by apply (VA p q).
Qed.

Lemma in_disk_run {A} (m : M (lstate T) A) s a d' : m (fs_disk s) = Ret a d' -> in_disk m s = Ret a (mkF d' (fs_core s)).
Proof. intros E. unfold in_disk, zoom. by rewrite E. Qed.

(** begin_op and end_op between calls. *)
Lemma begin_op_run d v : disk_rep (log_geometry d) d v -> dv_logged v = ∅ -> committing (lg d) = false -> outstanding (lg d) = 0 ->
  exists d', Log.begin_op d = Ret tt d' /\ disk_rep (log_geometry d') d' v /\ lg d' = set_outstanding 1 (lg d) /\ lg_cache d' = lg_cache d.
Proof.
  intros (cv & R) Hl Hc Ho. pose proof (tx_logged_size _ _ _ _ R) as Hn. rewrite Hl, size_empty in Hn. pose proof (tx_n _ _ _ _ R) as [Hn1 _].
  unfold Log.begin_op. step_m. rewrite Hc, Ho. rewrite (proj2 (Z.ltb_ge _ _)) by (unfold LOGSIZE, MAXOPBLOCKS; lia).
  eexists. split; [reflexivity|]. cbn [lg lg_cache]. rewrite Ho. split; [|done]. exists cv.
  destruct R. split; cbn [lg lg_cache set_outstanding]; try done. by destruct tx_geom.
Qed.

Lemma end_op_run d v : disk_rep (log_geometry d) d v -> dv_held v = ∅ -> committing (lg d) = false -> outstanding (lg d) = 1 ->
  exists d' v', Log.end_op d = Ret tt d' /\ disk_rep (log_geometry d') d' v' /\ dv_held v' = ∅ /\ dv_logged v' = ∅ /\
    (forall n, data_block (lg d) n -> dv_data v' n = dv_data v n) /\
    outstanding (lg d') = 0 /\ committing (lg d') = false /\ l_start (lg d') = l_start (lg d) /\ l_size (lg d') = l_size (lg d) /\
    cache_blocks (lg_cache d') = cache_blocks (lg_cache d).
Proof.
  intros Hd Hh Hc Ho. destruct (tx_log_ok _ _ _ Hd Hh) as (cv & Hok & Ed & Ep).
  set (d2 := mkL (lg_cache d) (set_committing true (set_outstanding 0 (lg d)))).
  assert (Hok2 : log_ok d2 cv) by (destruct Hok as [A1 A2 A3 A4 A5 A6 A7 A8]; split; try done; by destruct A2).
  destruct (commit_ok d2 cv Hok2) as (d3 & cv3 & ws & E & Hok3 & L3 & S1 & S2 & S3 & S4 & S5 & _ & _ & D3 & _).
  set (d4 := mkL (lg_cache d3) (set_committing false (lg d3))).
  assert (Hok4 : log_ok d4 cv3) by (destruct Hok3 as [A1 A2 A3 A4 A5 A6 A7 A8]; split; try done; by destruct A2).
  exists d4, (mkD (v_data cv3) (v_pinned cv3) ∅). split.
  { unfold Log.end_op. rewrite (bind_ret _ _ _ _ _ (upd_log_run _ _)). step_m. cbn [lg set_outstanding committing outstanding]. rewrite Hc, Ho. cbn [panic_if].
    step_m. change (1 - 1 =? 0) with true. cbn [when]. rewrite (bind_ret _ _ _ _ _ (upd_log_run _ _)). by rewrite (bind_ret _ _ _ _ _ E). }
  split; [by apply log_ok_tx|]. split; [done|]. split; [cbn [dv_logged]; rewrite (lo_pinned _ _ Hok3), L3; done|].
  split; [intros n Hn; cbn [dv_data]; rewrite <- Ed; by apply D3|]. cbn [d4 lg lg_cache set_committing outstanding committing l_start l_size]. done.
Qed.

(** The view of the files does not depend on the log. *)
Lemma layer_view_agree d d' c p p' fm fr v v' :
  layer_view (mkF d c) (mkView p None fm fr) v -> agree sbx v v' -> disk_rep (log_geometry d') d' v' -> dv_held v' = ∅ -> phase_ok p' d' v' ->
  l_start (lg d') = l_start (lg d) -> l_size (lg d') = l_size (lg d) -> cache_blocks (lg_cache d') = cache_blocks (lg_cache d) ->
  layer_view (mkF d' c) (mkView p' None fm fr) v'.
Proof.
  intros [V1 V2 V3 V4 V5 V6 V7 V8 V9 VF VA] Ha Hd Hh Hp E1 E2 E3. cbn [fs_disk fs_core vw_tx vw_locked vw_files vw_free] in *.
  assert (Hinv : forall x l, file_inv v x l -> file_inv v' x l).
  { intros x l [F1 F2 F3 F4 F5 F6]. split; try done; [by apply (inode_ok_agree (log_geometry d) sbx V5 v)|by apply (no_holes_agree (log_geometry d) sbx V5 v)|].
    intros k Hk. rewrite (content_agree (log_geometry d) sbx V5 v) by (try done; try (pose proof (proj1 F4); lia); by apply (proj2 F4)). by apply F6. }
  split; cbn [fs_disk fs_core vw_tx vw_locked vw_files vw_free]; try done.
  - by rewrite E2.
  - destruct V5 as [S1 S2 S3 S4]. split; cbn [log_geometry g_logstart g_logsize g_blocks] in *; rewrite ?E1, ?E2, ?E3; done.
  - by apply (fs_ok_agree (log_geometry d) sbx V5 v).
  - by rewrite (free_list_agree (log_geometry d) sbx V5 v).
  - intros n l Hl. destruct (VF n l Hl) as (x & Hx & Fx & Lx). exists x. split; [done|]. split; [by apply Hinv|done].
  - intros n m x y Hnm [ln Hln] [lm Hlm] Hx Hy a.
    destruct (VF n ln Hln) as (x0 & Hx0 & Fx & _), (VF m lm Hlm) as (y0 & Hy0 & Fy & _). assert (x0 = x) as -> by congruence. assert (y0 = y) as -> by congruence.
    rewrite (owns_agree (log_geometry d) sbx V5 v v' x a Ha (fi_ok _ _ _ Fx)), (owns_agree (log_geometry d) sbx V5 v v' y a Ha (fi_ok _ _ _ Fy)).
    by apply (VA n m).
Qed.

Lemma fs_law_begin s fm fr : layer_ok s (mkView Idle None fm fr) -> exists s', File.begin_op (InodeLayer := fs_layer devsw_read devsw_write) s = Ret tt s' /\ layer_ok s' (mkView Fresh None fm fr).
Proof using Hbm.
  intros (v & V). destruct s as [d c]. pose proof (lv_phase _ _ _ V) as (Hc & Ho & Hl). cbn [vw_tx fs_disk] in *.
  destruct (begin_op_run d v (lv_disk _ _ _ V) Hl Hc Ho) as (d' & E & Hd' & El & Ec).
  eexists. split; [exact (in_disk_run Log.begin_op (mkF d c) tt d' E)|]. exists v. cbn [fs_core].
  apply (layer_view_agree d d' c Idle Fresh fm fr v v); rewrite ?El, ?Ec; try done; [apply (lv_held _ _ _ V)|]. unfold phase_ok. by rewrite El.
Qed.

Lemma fs_law_end s p fm fr : layer_ok s (mkView p None fm fr) -> p <> Idle -> exists s', File.end_op (InodeLayer := fs_layer devsw_read devsw_write) s = Ret tt s' /\ layer_ok s' (mkView Idle None fm fr).
Proof using Hbm.
  intros (v & V) Hp. destruct s as [d c]. pose proof (lv_phase _ _ _ V) as (Hc & Ho). cbn [vw_tx fs_disk] in *.
  assert (Ho' : outstanding (lg d) = 1) by (destruct p; [done|apply Ho|done]).
  destruct (end_op_run d v (lv_disk _ _ _ V) (lv_held _ _ _ V) Hc Ho') as (d' & v' & E & Hd' & Hh & Hl & Hdata & O1 & O2 & O3 & O4 & O5).
  eexists. split; [exact (in_disk_run Log.end_op (mkF d c) tt d' E)|]. exists v'. cbn [fs_core].
  apply (layer_view_agree d d' c p Idle fm fr v v'); try done. intros n Hn. apply Hdata.
  pose proof (not_in_log _ _ (lv_layout _ _ _ V) n Hn) as Hlog. done.
Qed.

#[global] Program Instance fs_laws : @InodeLaws fsys (fs_layer devsw_read devsw_write) := {| layer_rep := layer_ok |}.
Next Obligation. exact fs_law_begin. Qed.
Next Obligation. exact fs_law_end. Qed.
Next Obligation. exact fs_law_lock. Qed.
Next Obligation. exact fs_law_unlock. Qed.
Next Obligation. exact fs_law_size. Qed.
Next Obligation. exact fs_law_stat. Qed.
Next Obligation. exact fs_law_read. Qed.
Next Obligation. exact fs_law_write. Qed.
Next Obligation. exact fs_law_write_big. Qed.
End Promise.
