(* ===== verification/FileDemo.v ===== *)
(** * FileDemo: read and write calls on the whole stack, for the witness of FileIo.v

    Process 0 has three descriptors: two open files on an empty file, and one on a file of 100
    bytes; below them inodes, the log, the buffer cache and the disk of FsDemo.v. *)

From S2P Require Import Prelude Memory Mmu Syscall Spinlock Cache Bio Log LogDemo Tx Fs Inode Dir DirSpec Sysfile Unlink FsDemo Fcntl Pipe File FileIo FileFs.

(** Between calls. *)
Definition idle_log : logstate := mkLog 2 30 0 false 0 (replicate 30 0).
Definition idle_kernel : lstate bstate := mkL (binit (Z.to_nat NBUF) fs_disk0 1000 1) idle_log.
Lemma idle_ok : log_ok idle_kernel (demo_view fs_disk0).
Proof. pose proof fs_log_ok as [A1 A2 A3 A4 A5 A6 A7 A8]. split; try done. by destruct A2. Qed.

Definition plain_inode (inum size : Z) (addrs : list Z) : inode := mkInode 1 inum 1 initsleeplock true T_FILE 0 0 1 size addrs.
Definition new_inode : inode := plain_inode 3 0 (replicate 13 0).
Definition old_inode : inode := plain_inode 5 100 (36 :: replicate 12 0).
Definition idle_core : fcore := mkCore fs_sb [new_inode; old_inode] 1 0.
Definition old_bytes : list Z := 77 :: replicate 99 0.
Definition demo_files : gmap nat (list Z) := {[ 0%nat := []; 1%nat := old_bytes ]}.

Lemma new_inv : file_inv fs_sb fs_view new_inode [].
Proof.
  assert (Hz : forall k, baddr fs_view new_inode k = baddr fs_view (empty_inode T_FILE 3) k) by done.
  pose proof (empty_ok T_FILE 3) as [L1 L2 L3 L4 L5]. split; try done.
  - split; [done|]. cbn. lia.
  - cbn. lia.
Qed.
Lemma old_inv : file_inv fs_sb fs_view old_inode old_bytes.
Proof.
  assert (Hi : inode_ok fs_sb fs_view old_inode) by (apply (one_ok _ 36); [done|by left]). split; try done.
  - split; [done|]. intros k Hk. cbn in Hk. rewrite (one_baddr old_inode 36) by (try done; rewrite MAXFILE_eq; unfold BSIZE; dlia).
    rewrite decide_True by (unfold BSIZE; dlia). done.
  - assert (Hall : forallb (fun k => bool_decide (old_bytes !! Z.to_nat k = Some (content fs_view old_inode k))) (seqZ 0 100) = true) by (vm_compute; reflexivity).
    intros k Hk. rewrite forallb_forall in Hall. eapply bool_decide_eq_true, Hall. apply list_elem_of_In, elem_of_seqZ. exact Hk.
Qed.

Lemma demo_layer : layer_ok fs_sb (mkF idle_kernel idle_core) (mkView Idle None demo_files 24).
Proof.
  exists fs_view. split; cbn [fs_disk fs_core vw_tx vw_locked vw_files vw_free]; try done.
  - exact (log_ok_tx idle_kernel (demo_view fs_disk0) idle_ok).
  - apply fs_fs_ok.
  - intros n l Hl. unfold demo_files in Hl. apply lookup_insert_Some in Hl as [[<- <-]|[_ [<- <-]%lookup_singleton_Some]].
    + exists new_inode. split; [done|]. split; [apply new_inv|done].
    + exists old_inode. split; [done|]. split; [apply old_inv|done].
  - assert (Hnew : forall a, ~ owns fs_view new_inode a).
    { intros a [Ha [->|(k & Hk & ->)]]; [by destruct Ha|]. rewrite <- (empty_baddr T_FILE 3 k Hk) in Ha. done. }
    intros n m x y Hnm Hn Hm Hx Hy a Ha Hb.
    destruct n as [|[|n]]; [| |by cbn in Hx]; injection Hx as <-; [by destruct (Hnew a)|].
    destruct m as [|[|m]]; [| |by cbn in Hy]; injection Hy as <-; [by destruct (Hnew a)|done].
Qed.

(** ** Three descriptors *)

Definition demo_ftable : list file :=
  [mkFile FD_INODE 1 false true 0 0 0; mkFile FD_INODE 1 true false 0 0 0; mkFile FD_INODE 1 true false 0 1 98].
Definition demo_system : system := mkSystem demo_ftable ∅ [[Some 0%nat; Some 1%nat; Some 2%nat]] (mkF idle_kernel idle_core).

(** The user stack with the arguments [fd], [p], [n], and "hi\n" at 2000. *)
Definition user (fd p n : Z) : uctx :=
  mkUctx 4096 1000 (store32 (store32 (store32 (store8 (store8 (store8 (fun _ => 0) 2000 104) 2001 105) 2002 10) 1004 fd) 1008 p) 1012 n).
(** write(0, 2000, 3); read(1, 3000, 10); read(2, 3000, 10); read(0, 3000, 10); write(0, 4095, 3); fstat(1, 3000). *)
Definition demo_io : list io_call :=
  [CWrite 0 (user 0 2000 3); CRead 0 (user 1 3000 10); CRead 0 (user 2 3000 10); CRead 0 (user 0 3000 10); CWrite 0 (user 0 4095 3); CFstat 0 (user 1 3000 0)].

Lemma file_calls_refine_witness :
  exists s', do_calls (H := fs_layer no_dev no_dev) false demo_io demo_system =
    Ret [RBytes (Returned 3 []); RBytes (Returned 3 [104; 105; 10]); RBytes (Returned 2 [0; 0]); RBytes (Returned (-1) []); RBytes (Returned (-1) []); RSize (Some 3)] s'.
Proof.
  assert (Hbm : sb_size fs_sb < BPB) by (vm_compute; reflexivity).
  assert (Hok : io_ok demo_system demo_files).
  { split.
    - intros i t fd f Hi Hf. destruct i; [|done]. injection Hi as <-. destruct fd as [|[|[|fd]]]; try done; injection Hf as <-; by eexists.
    - intros f y Hf _. destruct f as [|[|[|f]]]; try done; injection Hf as <-; eexists; (split; [reflexivity|]); cbn; lia. }
  destruct (file_calls_refine (H0 := fs_laws no_dev no_dev fs_sb Hbm) false demo_io demo_system demo_files 24 Hok demo_layer) as (s' & fr' & E & _).
  - repeat (apply Forall_cons_2; [by eexists|]). apply Forall_nil_2.
  - vm_compute. discriminate.
  - exists s'. rewrite E. f_equal.
Defined.
