(* ===== verification/Mkfs.v ===== *)
(** * Mkfs: the first file system (mkfs.c)

    mkfs runs on the host: it writes the image the kernel boots from. The image is a file of
    sectors; reading past its end makes mkfs exit, writing there makes it longer. The host's
    seek and write calls succeed. The files to install are given as their names on the command
    line and what each read of them returns. *)

From S2P Require Import Prelude Memory Spinlock Cache Bio Ide Log Tx Fs Inode Dir DirSpec FileFs.

Definition NINODES : Z := 200.
Definition nbitmap : Z := FSSIZE / (BSIZE * 8) + 1.
Definition ninodeblocks : Z := NINODES / IPB + 1.
Definition nlog : Z := LOGSIZE.
Definition nmeta : Z := 2 + nlog + ninodeblocks + nbitmap.
Definition mkfs_sb : superblock := mkSb FSSIZE (FSSIZE - nmeta) NINODES nlog 2 (2 + nlog) (2 + nlog + ninodeblocks).

Definition zeroes : block := fun _ => 0.

Record image : Type := mkImage {
  sectors : Z -> block;
  nsectors : Z;
  freeinode : Z;
  freeblock : Z
}.
Abbreviation K := (M image).

Definition wsect (sec : Z) (buf : block) : K unit :=
  let n := u32 (sec * BSIZE) / BSIZE in
  modify (fun s => mkImage (upd_block (sectors s) n buf) (nsectors s `max` (n + 1)) (freeinode s) (freeblock s)).
Definition rsect (sec : Z) : K block :=
  let n := u32 (sec * BSIZE) / BSIZE in
  s ← get;
  panic_if (nsectors s <=? n) "read";;
  ret (sectors s n).

(** struct dinode, with the fields an inode has in the kernel's cache left blank. xshort and xint
    lay integers out the way the processor does, as [store_dinode] and [load_dinode] do. *)
Definition dinode_of (inum type nlink size : Z) (addrs : list Z) : inode :=
  mkInode 0 inum 0 initsleeplock false type 0 0 nlink size addrs.
Definition winode (inum : Z) (ip : inode) : K unit :=
  let bn := IBLOCK inum mkfs_sb in
  buf ← rsect bn;
  wsect bn (store_dinode ip buf).
Definition rinode (inum : Z) : K inode :=
  let bn := IBLOCK inum mkfs_sb in
  buf ← rsect bn;
  ret (load_dinode buf (dinode_of inum 0 0 0 [])).

Definition ialloc (type : Z) : K Z :=
  inum ← gets freeinode;
  modify (fun s => mkImage (sectors s) (nsectors s) (u32 (freeinode s + 1)) (freeblock s));;
  winode inum (dinode_of inum type 1 0 (replicate 13 0));;
  ret inum.

Fixpoint balloc_loop (buf : block) (i : Z) (k : nat) : block :=
  match k with O => buf | S k => balloc_loop (mark_used i buf) (i + 1) k end.
Definition balloc (used : Z) : K unit :=
  panic_if (negb (used <? BSIZE * 8)) "used < BSIZE*8";;
  wsect (sb_bmapstart mkfs_sb) (balloc_loop zeroes 0 (Z.to_nat used)).

(** freeblock++ *)
Definition take_block : K Z :=
  b ← gets freeblock;
  modify (fun s => mkImage (sectors s) (nsectors s) (freeinode s) (u32 (freeblock s + 1)));;
  ret b.

(** The block for index [fbn] of the file. *)
Definition indirect_block (din : inode) : K inode :=
  if nth_addr din NDIRECT =? 0 then b ← take_block; ret (set_addr NDIRECT b din) else ret din.
Definition file_block (din : inode) (fbn : Z) : K (Z * inode) :=
  if fbn <? NDIRECT then
    if nth_addr din fbn =? 0 then b ← take_block; ret (b, set_addr fbn b din)
    else ret (nth_addr din fbn, din)
  else
    din ← indirect_block din;
    indirect ← rsect (nth_addr din NDIRECT);
    if load32 indirect (4 * (fbn - NDIRECT)) =? 0 then
      b ← take_block;
      wsect (nth_addr din NDIRECT) (store32 indirect (4 * (fbn - NDIRECT)) b);;
      ret (b, din)
    else ret (load32 indirect (4 * (fbn - NDIRECT)), din).

Fixpoint iappend_loop (din : inode) (off : Z) (xp : memory) (p n : Z) (fuel : nat) : K (inode * Z) :=
  match fuel with
  | O => fun _ => OutOfFuel
  | S fuel =>
      if negb (0 <? n) then ret (din, off)
      else
        let fbn := off / BSIZE in
        panic_if (negb (fbn <? MAXFILE)) "fbn < MAXFILE";;
        '(x, din) ← file_block din fbn;
        let n1 := n `min` u32 ((fbn + 1) * BSIZE - off) in
        buf ← rsect x;
        wsect x (move_in buf (off - fbn * BSIZE) xp p n1);;
        iappend_loop din (u32 (off + n1)) xp (p + n1) (n - n1) fuel
  end.
Definition iappend (inum : Z) (xp : memory) (n : Z) : K unit :=
  din ← rinode inum;
  '(din, off) ← iappend_loop din (i_size din) xp 0 n (rounds n);
  winode inum (set_i_size off din).

(** An entry for the root directory: its number, then its name, in a cleared struct dirent at
    address 0; the string argument lies at address 16. *)
Definition named (m : memory) (name : list Z) : memory := fun a => if a <? 16 then m a else mem_of (name ++ [0]) (a - 16).
Definition cleared_dirent (inum : Z) : memory := store16 (memset (fun _ => 0) 0 0 sizeof_dirent) 0 (u16 inum).
Definition strcpy_dirent (inum : Z) (name : list Z) : memory := move_in (cleared_dirent inum) 2 (mem_of (name ++ [0])) 0 (Z.of_nat (length name) + 1).
Definition strncpy_dirent (inum : Z) (name : list Z) : memory := strncpy (named (cleared_dirent inum) name) 2 16 DIRSIZ.

Fixpoint add_content (inum : Z) (reads : list (list Z)) : K unit :=
  match reads with
  | [] => ret tt
  | buf :: reads => iappend inum (mem_of buf) (Z.of_nat (length buf));; add_content inum reads
  end.

Definition underscore : Z := 95.
Definition installed (arg : list Z) : list Z := match arg with c :: name => if c =? underscore then name else arg | [] => [] end.
Definition add_file (rootino : Z) (file : list Z * list (list Z)) : K unit :=
  let '(arg, reads) := file in
  panic_if (existsb (Z.eqb SLASH) arg) "index(argv[i], '/') == 0";;
  inum ← ialloc T_FILE;
  iappend rootino (strncpy_dirent inum (installed arg)) sizeof_dirent;;
  add_content inum reads.
Fixpoint add_files (rootino : Z) (files : list (list Z * list (list Z))) : K unit :=
  match files with [] => ret tt | f :: files => add_file rootino f;; add_files rootino files end.

Fixpoint wipe (i : Z) (k : nat) : K unit :=
  match k with O => ret tt | S k => wsect i zeroes;; wipe (i + 1) k end.

Definition superblock_bytes (x : superblock) : block :=
  store_words zeroes 0 [sb_size x; sb_nblocks x; sb_ninodes x; sb_nlog x; sb_logstart x; sb_inodestart x; sb_bmapstart x].

Definition mkfs (files : list (list Z * list (list Z))) : K unit :=
  modify (fun s => mkImage (sectors s) (nsectors s) (freeinode s) nmeta);;
  wipe 0 (Z.to_nat FSSIZE);;
  wsect 1 (superblock_bytes mkfs_sb);;
  rootino ← ialloc T_DIR;
  panic_if (negb (rootino =? ROOTINO)) "rootino == ROOTINO";;
  iappend rootino (strcpy_dirent rootino [46]) sizeof_dirent;;
  iappend rootino (strcpy_dirent rootino [46; 46]) sizeof_dirent;;
  add_files rootino files;;
  din ← rinode rootino;
  winode rootino (set_i_size (u32 ((i_size din / BSIZE + 1) * BSIZE)) din);;
  used ← gets freeblock;
  balloc used.

(** The image file has just been opened and truncated. *)
Definition truncated : image := mkImage (fun _ => zeroes) 0 1 0.

(** ** The sizes *)

Lemma nmeta_eq : nmeta = 59.
Proof. done. Qed.
Lemma MAXFILE_bytes : MAXFILE * BSIZE = 71680.
Proof. done. Qed.
Lemma IBLOCK_eq i : 0 <= i < NINODES -> IBLOCK i mkfs_sb = i / 8 + 32 /\ 32 <= IBLOCK i mkfs_sb < 58.
Proof. unfold NINODES. intros Hi. change (IBLOCK i mkfs_sb) with (u32 (i / 8 + 32)). rewrite u32_small by dlia. dlia. Qed.
Lemma superblock_written : superblock_of (superblock_bytes mkfs_sb) = mkfs_sb.
Proof. vm_compute. reflexivity. Qed.

Definition blocks_of (n : Z) : Z := (n + (BSIZE - 1)) / BSIZE.
(** The blocks a file of [n] bytes takes, the one with addresses included. *)
Definition needed (n : Z) : Z := blocks_of n + (if NDIRECT <? blocks_of n then 1 else 0).

(** ** The code on images without a panic *)

Definition with_sector (s : image) (n : Z) (b : block) : image := mkImage (upd_block (sectors s) n b) (nsectors s) (freeinode s) (freeblock s).

Lemma sector_small n : 0 <= n < FSSIZE -> u32 (n * BSIZE) / BSIZE = n.
Proof. unfold FSSIZE, BSIZE. intros Hn. rewrite u32_small by lia. dlia. Qed.

Section Sectors.
Context (s : image) (Hs : nsectors s = FSSIZE).

Lemma rsect_run n : 0 <= n < FSSIZE -> rsect n s = Ret (sectors s n) s.
Proof. intros Hn. unfold rsect. rewrite sector_small by done. unfold mbind, M_bind, get. by rewrite Hs, (proj2 (Z.leb_gt _ _)) by lia. Qed.
Lemma wsect_run n b : 0 <= n < FSSIZE -> wsect n b s = Ret tt (with_sector s n b).
Proof. intros Hn. unfold wsect, modify, with_sector. rewrite sector_small by done. by rewrite Hs, Z.max_l by lia. Qed.
Lemma rinode_run i : 0 <= i < NINODES -> rinode i s = Ret (load_dinode (sectors s (IBLOCK i mkfs_sb)) (dinode_of i 0 0 0 [])) s.
Proof. intros Hi. destruct (IBLOCK_eq i Hi) as [_ Hb]. unfold rinode. rewrite (bind_ret _ _ _ _ _ (rsect_run (IBLOCK i mkfs_sb) ltac:(unfold FSSIZE; lia))). done. Qed.
Lemma winode_run i x : 0 <= i < NINODES ->
  winode i x s = Ret tt (with_sector s (IBLOCK i mkfs_sb) (store_dinode x (sectors s (IBLOCK i mkfs_sb)))).
Proof.
  intros Hi. destruct (IBLOCK_eq i Hi) as [_ Hb]. unfold winode.
  rewrite (bind_ret _ _ _ _ _ (rsect_run (IBLOCK i mkfs_sb) ltac:(unfold FSSIZE; lia))). apply wsect_run. unfold FSSIZE. lia.
Qed.
End Sectors.

(** ** The blocks of one file *)

Definition view (d : Z -> block) : dview := mkD d ∅ ∅.

(** The inode [x] has its first [nb] blocks, between the metadata and block [fb]; they hold the
    bytes [l] and zeros after them. *)
Record laid (d : Z -> block) (fb nb : Z) (x : inode) (l : list Z) : Prop := {
  la_len : length (i_addrs x) = 13%nat;
  la_range : 0 <= nb <= MAXFILE;
  la_addr : forall k, 0 <= k < nb -> nmeta <= baddr (view d) x k < fb;
  la_none : forall k, nb <= k < MAXFILE -> baddr (view d) x k = 0;
  la_ind : if NDIRECT <? nb then nmeta <= nth_addr x NDIRECT < fb else nth_addr x NDIRECT = 0;
  la_inj : forall k m, 0 <= k < nb -> 0 <= m < nb -> baddr (view d) x k = baddr (view d) x m -> k = m;
  la_ne : forall k, 0 <= k < nb -> baddr (view d) x k <> nth_addr x NDIRECT;
  la_bytes : forall q, 0 <= q < nb * BSIZE -> content (view d) x q = default 0 (l !! Z.to_nat q)
}.

(** One file's blocks changed, from [d], [fb], [x] to [d'], [fb'], [x']: it got the blocks from
    [fb] on, and no block of another file was written. *)
Record changed (d : Z -> block) (fb : Z) (x : inode) (d' : Z -> block) (fb' : Z) (x' : inode) : Prop := {
  ch_same : x' = set_i_addrs (i_addrs x') x;
  ch_le : fb <= fb';
  ch_frame : forall n, n < fb -> ~ owns (view d) x n -> d' n = d n;
  ch_zero : forall n a, fb' <= n -> d' n a = d n a;
  ch_owns : forall a, owns (view d') x' a <-> owns (view d) x a \/ fb <= a < fb'
}.

Lemma changed_refl d fb x : changed d fb x d fb x.
Proof. split; try done; [by destruct x|]. intros a. split; [by left|]. intros [Ha|Ha]; [done|lia]. Qed.
Lemma changed_trans d fb x d1 fb1 x1 d2 fb2 x2 : changed d fb x d1 fb1 x1 -> changed d1 fb1 x1 d2 fb2 x2 -> changed d fb x d2 fb2 x2.
Proof.
  intros [A1 A2 A3 A4 A5] [B1 B2 B3 B4 B5]. split.
  - rewrite B1, A1. done.
  - lia.
  - intros n Hn Ho. rewrite B3, A3; try done; [lia|]. rewrite A5. intros [?|?]; [done|lia].
  - intros n a Hn. rewrite B4, A4; [done|lia|lia].
  - intros a. rewrite B5, A5. split; [intros [[?|?]|?]; [by left|right; lia|right; lia]|].
    intros [?|?]; [by left; left|]. destruct (decide (a < fb1)); [left; right; lia|right; lia].
Qed.

Section Laid.
Context (d : Z -> block) (fb nb : Z) (x : inode) (l : list Z) (L : laid d fb nb x l).

Lemma laid_owns a : owns (view d) x a <-> (exists k, 0 <= k < nb /\ a = baddr (view d) x k) \/ (NDIRECT < nb /\ a = nth_addr x NDIRECT).
Proof.
  pose proof (la_ind _ _ _ _ _ L) as Hi. pose proof (la_range _ _ _ _ _ L) as Hr. rewrite nmeta_eq in Hi. unfold owns. split.
  - intros [Ha [E|(k & Hk & E)]].
    + right. destruct (Z.ltb_spec NDIRECT nb); [done|congruence].
    + left. exists k. split; [|done]. destruct (decide (k < nb)); [lia|]. by rewrite (la_none _ _ _ _ _ L) in E by lia.
  - intros [(k & Hk & E)|[Hk E]].
    + pose proof (la_addr _ _ _ _ _ L k Hk) as Hb. rewrite nmeta_eq in Hb. split; [lia|]. right. exists k. split; [lia|done].
    + rewrite (proj2 (Z.ltb_lt _ _)) in Hi by done. split; [lia|by left].
Qed.
Lemma laid_owns_range a : owns (view d) x a -> nmeta <= a < fb.
Proof.
  intros [(k & Hk & ->)|[Hk ->]]%laid_owns; [by apply (la_addr _ _ _ _ _ L)|]. pose proof (la_ind _ _ _ _ _ L) as Hi. by rewrite (proj2 (Z.ltb_lt _ _)) in Hi by done.
Qed.

(** The file does not notice what happens to blocks it does not own. *)
Lemma laid_baddr_frame d' k : (forall n, owns (view d) x n -> d' n = d n) -> baddr (view d') x k = baddr (view d) x k.
Proof.
  intros Hd. destruct (decide (k < NDIRECT)); [by rewrite !baddr_direct|].
  destruct (decide (nth_addr x NDIRECT = 0)) as [Hz|Hz]; [by rewrite !baddr_none by lia|].
  rewrite !baddr_ind by (lia || done). cbn [view dv_data]. rewrite Hd; [done|]. split; [done|by left].
Qed.
Lemma laid_frame d' fb' : (forall n, owns (view d) x n -> d' n = d n) -> fb <= fb' -> laid d' fb' nb x l.
Proof.
  intros Hd Hle. assert (E : forall k, baddr (view d') x k = baddr (view d) x k) by (intros k; by apply laid_baddr_frame). pose proof L as [L1 L2 L3 L4 L5 L6 L7 L8]. split; try done.
  - intros k Hk. rewrite E. specialize (L3 k Hk). lia.
  - intros k Hk. rewrite E. by apply L4.
  - destruct (NDIRECT <? nb); [lia|done].
  - intros k m Hk Hm. rewrite !E. by apply L6.
  - intros k Hk. rewrite E. by apply L7.
  - intros q Hq. rewrite <- L8 by done. unfold content. rewrite E. cbn [view dv_data]. rewrite Hd; [done|]. apply laid_owns. left. exists (q / BSIZE).
    split; [|done]. unfold BSIZE in *. dlia.
Qed.

(** A new last block [a]. *)
Record added d' fb' x' a : Prop := {
  ad_same : x' = set_i_addrs (i_addrs x') x;
  ad_len : length (i_addrs x') = 13%nat;
  ad_addr : forall k, 0 <= k < MAXFILE -> baddr (view d') x' k = if decide (k = nb) then a else baddr (view d) x k;
  ad_new : a = fb /\ fb' = fb + 1 /\ nth_addr x' NDIRECT = nth_addr x NDIRECT /\ nb <> NDIRECT \/
           a = fb + 1 /\ fb' = fb + 2 /\ nth_addr x' NDIRECT = fb /\ nb = NDIRECT;
  ad_data : forall n, n <> nth_addr x' NDIRECT \/ nth_addr x' NDIRECT = 0 -> d' n = d n
}.

Lemma laid_added d' fb' x' a : nmeta <= fb -> nb < MAXFILE -> Z.of_nat (length l) <= nb * BSIZE -> (forall n q, fb <= n -> d n q = 0) ->
  added d' fb' x' a -> laid d' fb' (nb + 1) x' l.
Proof.
  intros Hfb Hnb Hl Hzero [A1 A2 A3 A4 A5]. pose proof L as [L1 L2 L3 L4 L5 L6 L7 L8]. rewrite nmeta_eq in *.
  assert (Hold : forall k, 0 <= k < nb -> baddr (view d') x' k = baddr (view d) x k) by (intros k Hk; rewrite A3, decide_False by lia; done).
  assert (Hnew : baddr (view d') x' nb = a) by (rewrite A3, decide_True by lia; done).
  assert (Hae : a <> nth_addr x' NDIRECT).
  { destruct A4 as [(-> & _ & -> & _)|(-> & _ & -> & _)]; [|lia]. destruct (NDIRECT <? nb); lia. }
  assert (Hne : forall k, 0 <= k < nb -> baddr (view d) x k <> nth_addr x' NDIRECT).
  { intros k Hk. destruct A4 as [(_ & _ & -> & _)|(_ & _ & -> & _)]; [by apply L7|]. specialize (L3 k Hk). lia. }
  split; [done|lia|..].
  - intros k Hk. destruct (decide (k = nb)) as [->|]; [rewrite Hnew, nmeta_eq; lia|]. rewrite Hold, nmeta_eq by lia. specialize (L3 k). lia.
  - intros k Hk. rewrite A3, decide_False by lia. apply L4. lia.
  - rewrite nmeta_eq. unfold NDIRECT in *. destruct A4 as [(-> & -> & E & Hn)|(-> & -> & E & Hn)]; rewrite E.
    + destruct (Z.ltb_spec 12 nb); [rewrite (proj2 (Z.ltb_lt _ _)) by lia; lia|by rewrite (proj2 (Z.ltb_ge _ _)) by lia].
    + rewrite (proj2 (Z.ltb_lt _ _)) by lia. lia.
  - intros k m Hk Hm. destruct (decide (k = nb)) as [->|], (decide (m = nb)) as [->|]; [done|rewrite Hnew, Hold by lia; specialize (L3 m); lia|rewrite Hnew, Hold by lia; specialize (L3 k); lia|].
    rewrite !Hold by lia. apply L6; lia.
  - intros k Hk. destruct (decide (k = nb)) as [->|]; [by rewrite Hnew|]. rewrite Hold by lia. apply Hne. lia.
  - intros q Hq. unfold content. cbn [view dv_data]. destruct (decide (q < nb * BSIZE)) as [Hlt|Hge].
    + assert (Hk : 0 <= q / BSIZE < nb) by (unfold BSIZE in *; dlia). rewrite Hold, A5 by (by try (left; apply Hne)). apply L8. lia.
    + assert (E : q / BSIZE = nb) by (unfold BSIZE in *; dlia). rewrite E, Hnew, A5 by (by left). unfold load8. rewrite Hzero by lia.
      rewrite lookup_ge_None_2 by lia. done.
Qed.
End Laid.

Lemma added_changed d fb nb x l d' fb' x' a : laid d fb nb x l -> laid d' fb' (nb + 1) x' l -> nmeta <= fb -> nb < MAXFILE ->
  added d fb nb x d' fb' x' a -> changed d fb x d' fb' x'.
Proof.
  intros L L' Hfb Hnb A. pose proof A as [A1 A2 A3 A4 A5]. pose proof (la_range _ _ _ _ _ L) as Hr.
  pose proof (la_ind _ _ _ _ _ L) as Hi. unfold NDIRECT in *. rewrite nmeta_eq in *.
  assert (Hown : forall n, owns (view d') x' n <-> owns (view d) x n \/ fb <= n < fb').
  { intros n. rewrite (laid_owns _ _ _ _ _ L'), (laid_owns _ _ _ _ _ L). unfold NDIRECT. split.
    - intros [(k & Hk & ->)|[Hk ->]]; [rewrite A3 by lia; destruct (decide (k = nb)); [right; lia|left; left; exists k; split; [lia|done]]|].
      destruct A4 as [(_ & _ & -> & Hn)|(_ & -> & -> & _)]; [left; right; split; [lia|done]|right; lia].
    - intros [[(k & Hk & ->)|[Hk ->]]|Hn].
      + left. exists k. split; [lia|]. by rewrite A3, decide_False by lia.
      + right. destruct A4 as [(_ & _ & -> & _)|(_ & _ & _ & ->)]; [split; [lia|done]|lia].
      + destruct (decide (n = a)) as [->|]; [left; exists nb; split; [lia|]; by rewrite A3, decide_True by lia|].
        destruct A4 as [(? & ? & _)|(? & ? & -> & ?)]; [lia|right; lia]. }
  split; try done.
  - lia.
  - intros n Hn Ho. apply A5. destruct (decide (n = nth_addr x' 12)) as [E|]; [|by left]. right.
    destruct A4 as [(_ & _ & E' & _)|(_ & _ & E' & _)]; [|lia]. rewrite E' in *. destruct (Z.ltb_spec 12 nb); [|done].
    destruct Ho. apply (laid_owns _ _ _ _ _ L). right. by unfold NDIRECT.
  - intros n q Hn. rewrite A5; [done|]. left. destruct A4 as [(_ & -> & -> & _)|(_ & -> & -> & _)]; [|lia]. destruct (12 <? nb); lia.
Qed.

(** ** Appending to a file *)

(** The image before and after blocks were taken and written for one file. *)
Record progress (s : image) (x : inode) (s' : image) (x' : inode) : Prop := {
  pr_changed : changed (sectors s) (freeblock s) x (sectors s') (freeblock s') x';
  pr_len : nsectors s' = nsectors s;
  pr_inode : freeinode s' = freeinode s
}.
Lemma progress_trans s x s1 x1 s2 x2 : progress s x s1 x1 -> progress s1 x1 s2 x2 -> progress s x s2 x2.
Proof. intros [A1 A2 A3] [B1 B2 B3]. split; [by eapply changed_trans|congruence|congruence]. Qed.

Definition blank_from (s : image) : Prop := forall n q, freeblock s <= n -> sectors s n q = 0.
Lemma blank_progress s x s' x' : blank_from s -> progress s x s' x' -> blank_from s'.
Proof. intros Hb [[_ Hle _ Hz _] _ _] n q Hn. rewrite Hz by done. apply Hb. lia. Qed.

Lemma take_block_run s : 0 <= freeblock s < FSSIZE -> take_block s = Ret (freeblock s) (mkImage (sectors s) (nsectors s) (freeinode s) (freeblock s + 1)).
Proof. intros Hf. unfold take_block, mbind, M_bind, gets, modify, ret. rewrite u32_small by (unfold FSSIZE in *; lia). done. Qed.

Lemma set_addr_same k a x : set_addr k a x = set_i_addrs (i_addrs (set_addr k a x)) x.
Proof. done. Qed.
Lemma load32_blank b a : (forall q, b q = 0) -> load32 b a = 0.
Proof. intros Hb. unfold load32, load8. by rewrite !Hb. Qed.

(** The cost of one more block when the file has [nb]. *)
Definition block_cost (nb : Z) : Z := if nb =? NDIRECT then 2 else 1.

(** A new entry of the indirect block. *)
Lemma indirect_new s x fbn : nsectors s = FSSIZE -> NDIRECT <= fbn < MAXFILE -> 0 < nth_addr x NDIRECT < FSSIZE ->
  load32 (sectors s (nth_addr x NDIRECT)) (4 * (fbn - NDIRECT)) = 0 -> 0 <= freeblock s < FSSIZE ->
  let s' := mkImage (upd_block (sectors s) (nth_addr x NDIRECT) (store32 (sectors s (nth_addr x NDIRECT)) (4 * (fbn - NDIRECT)) (freeblock s)))
    (nsectors s) (freeinode s) (freeblock s + 1) in
  (indirect ← rsect (nth_addr x NDIRECT);
    if load32 indirect (4 * (fbn - NDIRECT)) =? 0 then
      b ← take_block;
      wsect (nth_addr x NDIRECT) (store32 indirect (4 * (fbn - NDIRECT)) b);;
      ret (b, x)
    else ret (load32 indirect (4 * (fbn - NDIRECT)), x)) s = Ret (freeblock s, x) s' /\
  (forall n, n <> nth_addr x NDIRECT -> sectors s' n = sectors s n) /\
  (forall k, 0 <= k < MAXFILE -> baddr (view (sectors s')) x k = if decide (k = fbn) then freeblock s else baddr (view (sectors s)) x k).
Proof.
  intros Hs Hk Hi H0 Hf s'. split; [|split].
  - rewrite (bind_ret _ _ _ _ _ (rsect_run s Hs (nth_addr x NDIRECT) ltac:(lia))), H0. cbn [Z.eqb]. rewrite (bind_ret _ _ _ _ _ (take_block_run s Hf)).
    rewrite (bind_ret _ _ _ _ _ (wsect_run (mkImage _ _ _ _) Hs (nth_addr x NDIRECT) _ ltac:(lia))). done.
  - intros n Hn. by apply upd_block_ne.
  - intros k Hkr. unfold baddr. destruct (Z.ltb_spec k NDIRECT); [by rewrite decide_False by lia|].
    rewrite (proj2 (Z.eqb_neq _ _)) by lia. cbn [view dv_data s' sectors]. rewrite upd_block_eq. destruct (decide (k = fbn)) as [->|].
    + rewrite load32_store32_eq. apply u32_small. unfold FSSIZE in Hf. lia.
    + apply load32_store32_ne. lia.
Qed.

Lemma file_block_new s x l nb : nsectors s = FSSIZE -> laid (sectors s) (freeblock s) nb x l -> nmeta <= freeblock s ->
  nb < MAXFILE -> Z.of_nat (length l) <= nb * BSIZE -> blank_from s -> freeblock s + block_cost nb <= FSSIZE ->
  exists s' x', file_block x nb s = Ret (baddr (view (sectors s')) x' nb, x') s' /\ added (sectors s) (freeblock s) nb x (sectors s') (freeblock s') x' (baddr (view (sectors s')) x' nb) /\
    nsectors s' = nsectors s /\ freeinode s' = freeinode s /\ freeblock s' = freeblock s + block_cost nb.
Proof.
  intros Hs L Hm Hnb Hl Hz Hc. pose proof L as [L1 L2 L3 L4 L5 L6 L7 L8]. rewrite nmeta_eq, MAXFILE_eq in *. pose proof MAXFILE_eq as HM. unfold file_block, block_cost in *.
  pose proof (L4 nb ltac:(lia)) as H0. destruct (Z.ltb_spec nb NDIRECT) as [Hd|Hi].
  - rewrite baddr_direct in H0 by done. rewrite H0. cbn [Z.eqb]. destruct (Z.eqb_spec nb NDIRECT) as [?|_]; [lia|].
    rewrite (bind_ret _ _ _ _ _ (take_block_run s ltac:(lia))). exists (mkImage (sectors s) (nsectors s) (freeinode s) (freeblock s + 1)), (set_addr nb (freeblock s) x). unfold ret.
    assert (E : forall k, 0 <= k -> nth_addr (set_addr nb (freeblock s) x) k = if decide (k = nb) then freeblock s else nth_addr x k).
    { intros k Hk. apply nth_set_addr; [rewrite L1; unfold NDIRECT in *; lia|done]. }
    unfold NDIRECT in *.
    assert (Ei : nth_addr (set_addr nb (freeblock s) x) 12 = nth_addr x 12) by (rewrite E, decide_False by lia; done).
    assert (Ek : forall k, 0 <= k -> baddr (view (sectors s)) (set_addr nb (freeblock s) x) k = if decide (k = nb) then freeblock s else baddr (view (sectors s)) x k).
    { intros k Hk. unfold baddr, NDIRECT. rewrite Ei. destruct (Z.ltb_spec k 12); [by apply E|]. by rewrite decide_False by lia. }
    cbn [sectors nsectors freeinode freeblock]. split; [by rewrite Ek, decide_True by lia|]. split_and!; try done. split; try done.
    + by rewrite set_addr_length.
    + intros k Hk. rewrite !Ek by lia. rewrite (decide_True (P := nb = nb)) by done. done.
    + left. rewrite Ek, decide_True by lia. unfold NDIRECT. split_and!; lia || done.
  - assert (Hr : NDIRECT <= nb < 140) by lia. assert (Hi13 : 0 <= NDIRECT < Z.of_nat (length (i_addrs x))) by (rewrite L1; unfold NDIRECT; lia).
    destruct (Z.eqb_spec nb NDIRECT) as [->|Hne].
    + rewrite (proj2 (Z.ltb_ge _ _)) in L5 by lia.
      set (s1 := mkImage (sectors s) (nsectors s) (freeinode s) (freeblock s + 1)). set (x1 := set_addr NDIRECT (freeblock s) x).
      assert (E1 : indirect_block x s = Ret x1 s1) by (unfold indirect_block; rewrite L5; cbn [Z.eqb]; by rewrite (bind_ret _ _ _ _ _ (take_block_run s ltac:(lia)))).
      rewrite (bind_ret _ _ _ _ _ E1).
      assert (Ei : nth_addr x1 NDIRECT = freeblock s) by (unfold x1; rewrite nth_set_addr, decide_True by (unfold NDIRECT; lia); done).
      destruct (indirect_new s1 x1 NDIRECT Hs) as (E2 & E3 & E4); [lia|rewrite Ei; cbn; lia|rewrite Ei; apply load32_blank; intros q; apply Hz; lia|cbn; lia|].
      match type of E2 with _ = Ret _ ?t => set (s' := t) in * end. rewrite E2. exists s', x1. split; [rewrite E4, decide_True by lia; done|]. split_and!; try done; [|cbn; lia].
      split; try done.
      * unfold x1. by rewrite set_addr_length.
      * intros k Hk. rewrite !E4 by lia. rewrite (decide_True (P := NDIRECT = NDIRECT)) by done. destruct (decide (k = NDIRECT)) as [->|]; [done|]. destruct (decide (k < NDIRECT)).
        -- rewrite !baddr_direct by done. unfold x1. by rewrite nth_set_addr, decide_False by lia.
        -- rewrite L4 by lia. cbn [view dv_data s1 sectors]. rewrite baddr_ind by (rewrite ?Ei; lia). rewrite Ei. apply load32_blank. intros q. apply Hz. lia.
      * right. rewrite E4, decide_True by lia. split_and!; [done|cbn; lia|exact Ei|done].
      * intros n [Hn|Hn]; [|lia]. by apply E3.
    + assert (Ei : nmeta <= nth_addr x NDIRECT < freeblock s) by (rewrite (proj2 (Z.ltb_lt _ _)) in L5 by lia; rewrite nmeta_eq; lia). rewrite nmeta_eq in Ei.
      assert (E1 : indirect_block x s = Ret x s) by (unfold indirect_block; by rewrite (proj2 (Z.eqb_neq _ _)) by lia).
      rewrite (bind_ret _ _ _ _ _ E1).
      destruct (indirect_new s x nb Hs) as (E2 & E3 & E4); [lia|lia|rewrite baddr_ind in H0 by lia; done|lia|].
      match type of E2 with _ = Ret _ ?t => set (s' := t) in * end. rewrite E2. exists s', x. split; [rewrite E4, decide_True by lia; done|]. split_and!; try done.
      split; try done.
      * by destruct x.
      * intros k Hk. rewrite !E4, (decide_True (P := nb = nb)) by lia. done.
      * left. rewrite E4, decide_True by lia. by split_and!.
      * intros n [Hn|Hn]; [|lia]. by apply E3.
Qed.

Lemma file_block_old s x l nb k : nsectors s = FSSIZE -> laid (sectors s) (freeblock s) nb x l -> freeblock s <= FSSIZE -> 0 <= k < nb ->
  file_block x k s = Ret (baddr (view (sectors s)) x k, x) s.
Proof.
  intros Hs L Hf Hk. pose proof (la_addr _ _ _ _ _ L k Hk) as Ha. pose proof (la_ind _ _ _ _ _ L) as Hi. rewrite nmeta_eq in *.
  unfold file_block. destruct (Z.ltb_spec k NDIRECT).
  - rewrite baddr_direct in * by done. by rewrite (proj2 (Z.eqb_neq _ _)) by lia.
  - rewrite (proj2 (Z.ltb_lt _ _)) in Hi by lia. assert (E1 : indirect_block x s = Ret x s) by (unfold indirect_block; by rewrite (proj2 (Z.eqb_neq _ _)) by lia).
    rewrite baddr_ind in * by lia. cbn [view dv_data] in *.
    rewrite (bind_ret _ _ _ _ _ E1), (bind_ret _ _ _ _ _ (rsect_run s Hs (nth_addr x NDIRECT) ltac:(lia))). by rewrite (proj2 (Z.eqb_neq _ _)) by lia.
Qed.

(** Bytes [bs] at address [p]. *)
Definition bytes_in (m : memory) (p : Z) (bs : list Z) : Prop := forall i, 0 <= i < Z.of_nat (length bs) -> load8 m (p + i) = default 0 (bs !! Z.to_nat i).

Lemma laid_write d fb nb x l m p bs : laid d fb nb x l -> nmeta <= fb -> bytes_in m p bs ->
  Z.of_nat (length l) < nb * BSIZE -> Z.of_nat (length l) mod BSIZE + Z.of_nat (length bs) <= BSIZE ->
  let a := baddr (view d) x (Z.of_nat (length l) / BSIZE) in
  let d' := upd_block d a (move_in (d a) (Z.of_nat (length l) mod BSIZE) m p (Z.of_nat (length bs))) in
  laid d' fb nb x (l ++ bs) /\ changed d fb x d' fb x.
Proof.
  intros L Hfb Hm Hl Hb a d'. set (n := Z.of_nat (length l)) in *. assert (Hk : 0 <= n / BSIZE < nb) by (unfold BSIZE in *; dlia).
  assert (Ho : owns (view d) x a) by (apply (laid_owns _ _ _ _ _ L); left; by exists (n / BSIZE)).
  assert (Hd : forall b, b <> a -> d' b = d b) by (intros b Hb'; by apply upd_block_ne).
  assert (E : forall k, baddr (view d') x k = baddr (view d) x k).
  { intros k. destruct (decide (k < NDIRECT)); [by rewrite !baddr_direct|]. destruct (decide (nth_addr x NDIRECT = 0)); [by rewrite !baddr_none by lia|].
    rewrite !baddr_ind by lia. cbn [view dv_data]. rewrite Hd; [done|]. apply not_eq_sym. by apply (la_ne _ _ _ _ _ L). }
  pose proof L as [L1 L2 L3 L4 L5 L6 L7 L8]. split.
  - split; try done.
    + intros k Hk'. rewrite E. by apply L3.
    + intros k Hk'. rewrite E. by apply L4.
    + intros k j Hk' Hj. rewrite !E. by apply L6.
    + intros k Hk'. rewrite E. by apply L7.
    + intros q Hq. assert (Hqk : 0 <= q / BSIZE < nb) by (unfold BSIZE in *; dlia). unfold content. rewrite E. cbn [view dv_data].
      specialize (L8 q Hq). unfold content in L8. cbn [view dv_data] in L8. destruct (decide (q / BSIZE = n / BSIZE)) as [Eq|Eq].
      * rewrite Eq in L8 |- *. fold a. fold a in L8. unfold d'. rewrite upd_block_eq, load8_move_in. case_decide as Hin.
        -- rewrite Hm by lia. rewrite lookup_app_r by (unfold n, BSIZE in *; dlia). do 2 f_equal. unfold n, BSIZE in *. dlia.
        -- rewrite L8. destruct (decide (q < n)); [by rewrite lookup_app_l by (unfold n in *; lia)|].
           rewrite !lookup_ge_None_2; [done|rewrite length_app; unfold n, BSIZE in *; dlia|unfold n in *; lia].
      * rewrite Hd by (intros E'; apply Eq, L6; [done|done|exact E']). rewrite L8.
        destruct (decide (q < n)); [by rewrite lookup_app_l by (unfold n in *; lia)|].
        rewrite !lookup_ge_None_2; [done|rewrite length_app; unfold n, BSIZE in *; dlia|unfold n in *; lia].
  - split; [by destruct x|lia|..].
    + intros b _ Hb'. apply Hd. by intros ->.
    + intros b q Hb'. rewrite Hd; [done|]. pose proof (laid_owns_range _ _ _ _ _ L a Ho). lia.
    + intros b. unfold owns. setoid_rewrite E. split; [by left|intros [?|?]; [done|lia]].
Qed.

(** One round of the loop. *)
Lemma append_round s x l m p bs : nsectors s = FSSIZE -> laid (sectors s) (freeblock s) (blocks_of (Z.of_nat (length l))) x l -> nmeta <= freeblock s ->
  blank_from s -> bytes_in m p bs -> bs <> [] -> Z.of_nat (length l) mod BSIZE + Z.of_nat (length bs) <= BSIZE ->
  Z.of_nat (length (l ++ bs)) <= MAXFILE * BSIZE -> freeblock s + needed (Z.of_nat (length (l ++ bs))) - needed (Z.of_nat (length l)) <= FSSIZE ->
  let off := Z.of_nat (length l) in
  exists s' x', ('(a, din) ← file_block x (off / BSIZE); buf ← rsect a; wsect a (move_in buf (off - off / BSIZE * BSIZE) m p (Z.of_nat (length bs)));; ret din) s = Ret x' s' /\
    progress s x s' x' /\ laid (sectors s') (freeblock s') (blocks_of (Z.of_nat (length (l ++ bs)))) x' (l ++ bs) /\
    freeblock s' = freeblock s + needed (Z.of_nat (length (l ++ bs))) - needed off.
Proof.
  intros Hs L Hf Hz Hm Hbs Hb Hmax Hcost off. rewrite length_app in *. assert (Hl : (0 < length bs)%nat) by (destruct bs; [done|simpl; lia]).
  pose proof MAXFILE_eq as HM. unfold needed, blocks_of in *. fold off in L, Hb, Hmax, Hcost |- *.
  set (nb := (off + (BSIZE - 1)) / BSIZE) in *. set (fbn := off / BSIZE) in *.
  replace ((Z.of_nat (length l + length bs) + (BSIZE - 1)) / BSIZE) with (fbn + 1) in * by (unfold off, fbn, BSIZE in *; dlia).
  assert (Hnb : nb = fbn \/ nb = fbn + 1) by (unfold off, nb, fbn, BSIZE; dlia).
  assert (Hoff : off - fbn * BSIZE = off mod BSIZE) by (unfold fbn, BSIZE; dlia). rewrite Hoff.
  assert (Hr : 0 <= fbn < MAXFILE) by (unfold off, fbn, BSIZE in *; dlia).
  assert (Step1 : exists s1 x1, file_block x fbn s = Ret (baddr (view (sectors s1)) x1 fbn, x1) s1 /\ progress s x s1 x1 /\
    laid (sectors s1) (freeblock s1) (fbn + 1) x1 l /\ freeblock s1 = freeblock s + (fbn + 1 + (if NDIRECT <? fbn + 1 then 1 else 0)) - (nb + (if NDIRECT <? nb then 1 else 0))).
  { destruct Hnb as [E|E]; rewrite E in *.
    - assert (Ec : fbn + 1 + (if NDIRECT <? fbn + 1 then 1 else 0) - (fbn + (if NDIRECT <? fbn then 1 else 0)) = block_cost fbn).
      { unfold block_cost, NDIRECT. destruct (Z.ltb_spec 12 (fbn + 1)), (Z.ltb_spec 12 fbn), (Z.eqb_spec fbn 12); lia. }
      assert (Hfull : off <= fbn * BSIZE) by (unfold off, nb, fbn, BSIZE in *; dlia).
      destruct (file_block_new s x l fbn Hs L Hf ltac:(lia) Hfull Hz ltac:(lia)) as (s1 & x1 & E1 & A & N1 & N2 & N3).
      assert (L1 : laid (sectors s1) (freeblock s1) (fbn + 1) x1 l) by (eapply laid_added; [exact L|exact Hf|lia|exact Hfull|exact Hz|exact A]). exists s1, x1. split; [done|]. split; [|split; [done|lia]].
      split; [|done|done]. apply (added_changed _ _ _ _ _ _ _ _ _ L L1 Hf ltac:(lia) A).
    - exists s, x. split; [apply (file_block_old s x l (fbn + 1)); try done; destruct (NDIRECT <? fbn + 1); lia|]. split; [|split; [done|lia]].
      split; [apply changed_refl|done|done]. }
  destruct Step1 as (s1 & x1 & E1 & P1 & L1 & F1). rewrite (bind_ret _ _ _ _ _ E1).
  pose proof (pr_changed _ _ _ _ P1) as C1. pose proof (ch_le _ _ _ _ _ _ C1) as Hle. pose proof (la_addr _ _ _ _ _ L1 fbn ltac:(lia)) as Ha. rewrite nmeta_eq in Ha.
  assert (Hs1 : nsectors s1 = FSSIZE) by (rewrite (pr_len _ _ _ _ P1); done). set (a := baddr _ x1 fbn) in *.
  assert (Hfs : freeblock s1 <= FSSIZE) by lia.
  destruct (laid_write _ _ _ _ _ m p bs L1 ltac:(lia) Hm ltac:(fold off; unfold fbn, BSIZE; dlia) Hb) as [L2 C2].
  eexists (with_sector s1 a _), x1. split.
  { rewrite (bind_ret _ _ _ _ _ (rsect_run s1 Hs1 a ltac:(lia))). rewrite (bind_ret _ _ _ _ _ (wsect_run s1 Hs1 a _ ltac:(lia))). done. }
  split; [|split; [exact L2|exact F1]]. eapply progress_trans; [exact P1|]. split; [exact C2|done|done].
Qed.

Lemma blocks_of_mono n m : n <= m -> blocks_of n <= blocks_of m.
Proof. intros Hn. unfold blocks_of, BSIZE. dlia. Qed.
Lemma needed_mono n m : n <= m -> needed n <= needed m.
Proof. intros Hn%blocks_of_mono. unfold needed, NDIRECT. destruct (Z.ltb_spec 12 (blocks_of n)), (Z.ltb_spec 12 (blocks_of m)); lia. Qed.

Lemma iappend_loop_run m fuel : forall s x l p bs, let off := Z.of_nat (length l) in
  nsectors s = FSSIZE -> laid (sectors s) (freeblock s) (blocks_of off) x l -> nmeta <= freeblock s -> blank_from s -> bytes_in m p bs ->
  Z.of_nat (length (l ++ bs)) <= MAXFILE * BSIZE -> freeblock s + needed (Z.of_nat (length (l ++ bs))) - needed off <= FSSIZE ->
  (0 < fuel)%nat -> (bs <> [] -> off mod BSIZE + Z.of_nat (length bs) <= BSIZE * (Z.of_nat fuel - 1)) ->
  exists s' x', iappend_loop x off m p (Z.of_nat (length bs)) fuel s = Ret (x', Z.of_nat (length (l ++ bs))) s' /\
    progress s x s' x' /\ laid (sectors s') (freeblock s') (blocks_of (Z.of_nat (length (l ++ bs)))) x' (l ++ bs) /\
    freeblock s' = freeblock s + needed (Z.of_nat (length (l ++ bs))) - needed off.
Proof.
  induction fuel as [|fuel IH]; intros s x l p bs off Hs L Hf Hz Hm Hmax Hcost Hfuel Hrounds; [lia|]. cbn [iappend_loop].
  destruct (decide (bs = [])) as [->|Hbs].
  { rewrite app_nil_r. cbn [length Z.of_nat Z.ltb Z.compare negb]. exists s, x. split; [done|]. split; [split; [apply changed_refl|done|done]|]. split; [done|unfold off; lia]. }
  assert (Hl : (0 < length bs)%nat) by (destruct bs; [done|simpl; lia]). specialize (Hrounds Hbs).
  rewrite (proj2 (Z.ltb_lt 0 _)) by lia. cbn [negb]. set (k := Z.to_nat (Z.of_nat (length bs) `min` (BSIZE - off mod BSIZE))).
  assert (Hoff : 0 <= off mod BSIZE < BSIZE) by (apply Z.mod_pos_bound; done).
  assert (Hk : (0 < k <= length bs)%nat) by (unfold k; lia). rewrite MAXFILE_bytes in *. rewrite length_app in Hmax.
  assert (Hsmall : u32 ((off / BSIZE + 1) * BSIZE - off) = BSIZE - off mod BSIZE) by (rewrite u32_small; unfold BSIZE; dlia). rewrite Hsmall.
  replace (Z.of_nat (length bs) `min` (BSIZE - off mod BSIZE)) with (Z.of_nat k) by (unfold k; lia).
  assert (Hlt : length (take k bs) = k) by (rewrite length_take; lia). assert (Hld : length (drop k bs) = (length bs - k)%nat) by apply length_drop.
  destruct (append_round s x l m p (take k bs)) as (s1 & x1 & E & P1 & L1 & F1); try done.
  { intros i Hi. rewrite Hlt in Hi. rewrite lookup_take_lt by lia. apply Hm. lia. }
  { intros E. rewrite E in Hlt. simpl in Hlt. lia. }
  { rewrite Hlt. fold off. unfold k. lia. }
  { rewrite length_app, Hlt, MAXFILE_bytes. lia. }
  { pose proof (needed_mono (Z.of_nat (length (l ++ take k bs))) (Z.of_nat (length (l ++ bs)))) as Hn. unfold off in Hcost. rewrite !length_app, Hlt in *. lia. }
  rewrite Hlt in E. fold off in E, F1. apply bind_inv in E as ([a din] & t1 & E1 & E). apply bind_inv in E as (buf & t2 & E2 & E).
  apply bind_inv in E as ([] & t3 & E3 & E). injection E as -> ->.
  assert (Hp : panic_if (negb (off / BSIZE <? MAXFILE)) "fbn < MAXFILE" s = Ret tt s) by (rewrite (proj2 (Z.ltb_lt _ _)); [done|]; unfold off, MAXFILE, NDIRECT, NINDIRECT, BSIZE; dlia).
  rewrite (bind_ret _ _ _ _ _ Hp), (bind_ret _ _ _ _ _ E1). cbv beta iota. rewrite (bind_ret _ _ _ _ _ E2), (bind_ret _ _ _ _ _ E3).
  replace (u32 (off + Z.of_nat k)) with (Z.of_nat (length (l ++ take k bs))) by (rewrite length_app, Hlt, u32_small; unfold off; lia).
  replace (Z.of_nat (length bs) - Z.of_nat k) with (Z.of_nat (length (drop k bs))) by lia.
  assert (Eapp : (l ++ take k bs) ++ drop k bs = l ++ bs) by (by rewrite <- app_assoc, take_drop).
  destruct (IH s1 x1 (l ++ take k bs) (p + Z.of_nat k) (drop k bs)) as (s' & x' & E' & P' & L' & F'); try done.
  - by rewrite (pr_len _ _ _ _ P1).
  - pose proof (ch_le _ _ _ _ _ _ (pr_changed _ _ _ _ P1)). lia.
  - by eapply blank_progress.
  - intros i Hi. rewrite lookup_drop. replace (k + Z.to_nat i)%nat with (Z.to_nat (Z.of_nat k + i)) by lia. rewrite <- Hm by lia. f_equal. lia.
  - by rewrite Eapp, length_app.
  - rewrite Eapp. lia.
  - unfold k, off, BSIZE in *. dlia.
  - intros Hd. assert (Hne : (k < length bs)%nat) by (destruct (drop k bs) eqn:Ed; [done|simpl in Hld; lia]).
    rewrite length_app, Hlt, Hld. assert (Ek : Z.of_nat k = BSIZE - off mod BSIZE) by (unfold k in *; lia). unfold off, BSIZE in *. dlia.
  - rewrite Eapp in *. exists s', x'. split; [exact E'|]. split; [by eapply progress_trans|]. split; [done|lia].
Qed.

(** ** The whole image *)

(** An inode on the disk, the fields of the kernel's cache blank. *)
Definition dinode_on (s : image) (i : Z) : inode := load_dinode (sectors s (IBLOCK i mkfs_sb)) (dinode_of i 0 0 0 []).

(** The file of inode [i]: a type and its bytes. *)
Record file_on (s : image) (i : Z) (t : Z) (l : list Z) : Prop := {
  fo_type : i_type (dinode_on s i) = t;
  fo_nlink : i_nlink (dinode_on s i) = 1;
  fo_size : i_size (dinode_on s i) = Z.of_nat (length l);
  fo_max : Z.of_nat (length l) <= MAXFILE * BSIZE;
  fo_laid : laid (sectors s) (freeblock s) (blocks_of (Z.of_nat (length l))) (dinode_on s i) l
}.
Definition owner (s : image) (i a : Z) : Prop := owns (view (sectors s)) (dinode_on s i) a.

(** The image holds the files [fs], of inodes 1, 2, ...: the blocks from [nmeta] to [freeblock]
    are theirs, each of one of them, and what follows is blank. *)
Record built (s : image) (fs : list (Z * list Z)) : Prop := {
  bu_len : nsectors s = FSSIZE;
  bu_inode : freeinode s = Z.of_nat (length fs) + 1;
  bu_room : Z.of_nat (length fs) < NINODES;
  bu_block : nmeta <= freeblock s <= FSSIZE;
  bu_blank : blank_from s;
  bu_sb : superblock_of (sectors s 1) = mkfs_sb;
  bu_log : forall n q, 2 <= n < 32 -> sectors s n q = 0;
  bu_files : forall j t l, fs !! j = Some (t, l) -> file_on s (Z.of_nat j + 1) t l;
  bu_free : forall i, freeinode s <= i < NINODES -> i_type (dinode_on s i) = 0;
  bu_apart : forall j k a, (j < length fs)%nat -> (k < length fs)%nat -> owner s (Z.of_nat j + 1) a -> owner s (Z.of_nat k + 1) a -> j = k;
  bu_cover : forall a, nmeta <= a < freeblock s -> exists j, (j < length fs)%nat /\ owner s (Z.of_nat j + 1) a
}.

Lemma s16_range v : - 2 ^ 15 <= s16 v < 2 ^ 15.
Proof. unfold s16. pose proof (Z.mod_pos_bound (v + 2 ^ 15) (2 ^ 16)). lia. Qed.
Lemma load_words_range b k : forall a, Forall (fun w => 0 <= w < 2 ^ 32) (load_words b a k).
Proof. induction k as [|k IH]; intros a; constructor; [apply load32_range|apply IH]. Qed.
Lemma dinode_on_fits s i : inode_fits (dinode_on s i).
Proof. unfold dinode_on, load_dinode. split; cbn [i_type i_major i_minor i_nlink i_size i_addrs]; try apply s16_range; [apply load32_range|done|apply load_words_range]. Qed.

(** Writing one inode leaves the others. *)
Lemma dinode_written s i x j : 0 <= i < NINODES -> 0 <= j < NINODES -> inode_fits x -> i_inum x = i ->
  dinode_on (with_sector s (IBLOCK i mkfs_sb) (store_dinode x (sectors s (IBLOCK i mkfs_sb)))) j =
    if decide (j = i) then mkInode 0 i 0 initsleeplock false (i_type x) (i_major x) (i_minor x) (i_nlink x) (i_size x) (i_addrs x) else dinode_on s j.
Proof.
  intros Hi Hj Hx Ei. unfold dinode_on, with_sector. cbn [sectors]. destruct (IBLOCK_eq i Hi) as [E1 _], (IBLOCK_eq j Hj) as [E2 _].
  rewrite upd_block_cases. destruct (decide (IBLOCK j mkfs_sb = IBLOCK i mkfs_sb)) as [E|E].
  - rewrite (dinode_roundtrip x _ _ Hx), Ei. cbn [dinode_of i_inum i_dev i_ref i_lock i_valid]. unfold IPB, BSIZE.
    change (512 / 64) with 8. destruct (decide (j = i)) as [->|Hne]; [by rewrite decide_True|]. rewrite decide_False by dlia. by rewrite E.
  - rewrite decide_False; [done|]. by intros ->.
Qed.

Lemma laid_set_size d fb nb n x l : laid d fb nb x l <-> laid d fb nb (set_i_size n x) l.
Proof. split; intros [L1 L2 L3 L4 L5 L6 L7 L8]; by split. Qed.
Lemma owner_range s i t l a : file_on s i t l -> owner s i a -> nmeta <= a < freeblock s.
Proof. intros F. apply (laid_owns_range _ _ _ _ _ (fo_laid _ _ _ _ F)). Qed.

Lemma laid_addrs_fit d fb nb x l : laid d fb nb x l -> fb <= FSSIZE -> Forall (fun a => 0 <= a < 2 ^ 32) (i_addrs x).
Proof.
  intros [L1 L2 L3 L4 L5 L6 L7 L8] Hfb. pose proof MAXFILE_eq. rewrite nmeta_eq in *. unfold FSSIZE, NDIRECT in *. apply Forall_lookup. intros k a Hk.
  pose proof (lookup_lt_Some _ _ _ Hk) as Hlt. assert (E : a = nth_addr x (Z.of_nat k)) by (unfold nth_addr; by rewrite Nat2Z.id, Hk).
  destruct (decide (k = 12%nat)) as [->|].
  - change (Z.of_nat 12) with 12 in E. destruct (12 <? nb); lia.
  - rewrite <- (baddr_direct (view d)) in E by (unfold NDIRECT; lia). destruct (decide (Z.of_nat k < nb)).
    + specialize (L3 (Z.of_nat k)). lia.
    + rewrite L4 in E; lia.
Qed.
Lemma set_addrs_size n a x : set_i_size n (set_i_addrs a x) = mkInode (i_dev x) (i_inum x) (i_ref x) (i_lock x) (i_valid x) (i_type x) (i_major x) (i_minor x) (i_nlink x) n a.
Proof. done. Qed.

Section Append.
Context (s : image) (fs : list (Z * list Z)) (B : built s fs) (j : nat) (t : Z) (l : list Z) (Hj : fs !! j = Some (t, l)).
Abbreviation inum k := (Z.of_nat k + 1).

Lemma inum_ok k : (k < length fs)%nat -> 0 <= inum k < NINODES.
Proof. intros Hk. pose proof (bu_room _ _ B). lia. Qed.
Lemma file_at_index k : (k < length fs)%nat -> exists f, fs !! k = Some f /\ file_on s (inum k) f.1 f.2.
Proof. intros Hk. destruct (lookup_lt_is_Some_2 fs k Hk) as [[t' l'] Hf]. exists (t', l'). split; [done|]. by apply (bu_files _ _ B). Qed.

(** The file grows to [l'], its inode is [x'] and is written with its new size. *)
Context (s1 : image) (x' : inode) (l' : list Z) (P : progress s (dinode_on s (inum j)) s1 x')
  (L : laid (sectors s1) (freeblock s1) (blocks_of (Z.of_nat (length l'))) x' l') (Hmax : Z.of_nat (length l') <= MAXFILE * BSIZE)
  (Hroom : freeblock s1 <= FSSIZE).
Let n : Z := IBLOCK (inum j) mkfs_sb.
Let s2 : image := with_sector s1 n (store_dinode (set_i_size (Z.of_nat (length l')) x') (sectors s1 n)).

Lemma old_inum : 0 <= inum j < NINODES.
Proof. apply inum_ok. by eapply lookup_lt_Some. Qed.
Lemma meta_same k : k < nmeta -> sectors s1 k = sectors s k.
Proof.
  intros Hk. apply (ch_frame _ _ _ _ _ _ (pr_changed _ _ _ _ P)); [pose proof (bu_block _ _ B); lia|].
  intros Ho. pose proof (owner_range _ _ _ _ _ (bu_files _ _ B _ _ _ Hj) Ho). lia.
Qed.
Lemma grown_inode : set_i_size (Z.of_nat (length l')) x' = mkInode 0 (inum j) 0 initsleeplock false t (i_major (dinode_on s (inum j))) (i_minor (dinode_on s (inum j))) 1 (Z.of_nat (length l')) (i_addrs x').
Proof.
  pose proof (bu_files _ _ B _ _ _ Hj) as F. rewrite (ch_same _ _ _ _ _ _ (pr_changed _ _ _ _ P)) at 1.
  rewrite set_addrs_size, (fo_type _ _ _ _ F), (fo_nlink _ _ _ _ F). done.
Qed.
Lemma dinodes_after k : 0 <= k < NINODES -> dinode_on s2 k = if decide (k = inum j) then set_i_size (Z.of_nat (length l')) x' else dinode_on s k.
Proof.
  intros Hk. pose proof old_inum as Hi. pose proof (dinode_on_fits s (inum j)) as Fx. pose proof (bu_files _ _ B _ _ _ Hj) as F. unfold s2, n.
  rewrite dinode_written; try done.
  - rewrite grown_inode. cbn [i_type i_major i_minor i_nlink i_size i_addrs]. destruct (decide (k = inum j)); [done|].
    unfold dinode_on. rewrite meta_same; [done|]. destruct (IBLOCK_eq k Hk). rewrite nmeta_eq. lia.
  - rewrite grown_inode. rewrite MAXFILE_bytes in Hmax. rewrite <- (fo_type _ _ _ _ F). split; cbn [i_type i_major i_minor i_nlink i_size i_addrs]; try apply Fx; try lia; [by apply (la_len _ _ _ _ _ L)|].
    by apply (laid_addrs_fit _ _ _ _ _ L).
  - by rewrite grown_inode.
Qed.
Lemma data_after a : nmeta <= a -> sectors s2 a = sectors s1 a.
Proof. intros Ha. unfold s2, with_sector. cbn [sectors]. apply upd_block_ne. pose proof (IBLOCK_eq _ old_inum). unfold n. rewrite nmeta_eq in Ha. lia. Qed.
Lemma others_kept k a : (k < length fs)%nat -> k <> j -> owner s (inum k) a -> sectors s2 a = sectors s a.
Proof.
  intros Hk Hne Ho. destruct (file_at_index k Hk) as (f & _ & F). pose proof (owner_range _ _ _ _ _ F Ho) as Hr.
  rewrite data_after by lia. apply (ch_frame _ _ _ _ _ _ (pr_changed _ _ _ _ P)); [lia|]. intros Ho'.
  apply Hne, (bu_apart _ _ B k j a); [done|by eapply lookup_lt_Some|done|done].
Qed.
Lemma inode_other k : (k < length fs)%nat -> k <> j -> dinode_on s2 (inum k) = dinode_on s (inum k).
Proof. intros Hk Hne. rewrite dinodes_after by (by apply inum_ok). by rewrite decide_False by lia. Qed.
Lemma owner_other k a : (k < length fs)%nat -> k <> j -> owner s2 (inum k) a <-> owner s (inum k) a.
Proof.
  intros Hk Hne. unfold owner. rewrite inode_other by done. destruct (file_at_index k Hk) as (f & _ & F).
  unfold owns. by setoid_rewrite (fun m => laid_baddr_frame _ _ (sectors s2) m (fun a => others_kept k a Hk Hne)).
Qed.
Lemma laid_self : laid (sectors s2) (freeblock s1) (blocks_of (Z.of_nat (length l'))) x' l'.
Proof. apply (laid_frame _ _ _ _ _ L); [|lia]. intros a Ha%(laid_owns_range _ _ _ _ _ L). apply data_after. lia. Qed.
Lemma owner_self a : owner s2 (inum j) a <-> owner s (inum j) a \/ freeblock s <= a < freeblock s1.
Proof.
  unfold owner. rewrite dinodes_after, decide_True by (done || apply old_inum). rewrite <- (ch_owns _ _ _ _ _ _ (pr_changed _ _ _ _ P)).
  assert (E : forall k, baddr (view (sectors s2)) x' k = baddr (view (sectors s1)) x' k).
  { intros k. apply laid_baddr_frame. intros b Hb%(laid_owns_range _ _ _ _ _ L). apply data_after. lia. }
  unfold owns. change (nth_addr (set_i_size (Z.of_nat (length l')) x') NDIRECT) with (nth_addr x' NDIRECT).
  change (baddr (view (sectors s2)) (set_i_size (Z.of_nat (length l')) x')) with (baddr (view (sectors s2)) x'). by setoid_rewrite E.
Qed.

Lemma append_built : built s2 (<[j := (t, l')]> fs).
Proof.
  pose proof (ch_le _ _ _ _ _ _ (pr_changed _ _ _ _ P)) as Hle. pose proof (bu_block _ _ B) as Hb. pose proof (lookup_lt_Some _ _ _ Hj) as Hlt.
  assert (Fself : file_on s2 (inum j) t l').
  { assert (E : dinode_on s2 (inum j) = set_i_size (Z.of_nat (length l')) x') by (rewrite dinodes_after, decide_True by (done || apply old_inum); done).
    split; rewrite ?E; [by rewrite grown_inode|by rewrite grown_inode|done|done|]. apply laid_set_size, laid_self. }
  split; rewrite ?length_insert.
  - cbn. by rewrite (pr_len _ _ _ _ P), (bu_len _ _ B).
  - cbn. by rewrite (pr_inode _ _ _ _ P), (bu_inode _ _ B).
  - apply (bu_room _ _ B).
  - cbn. lia.
  - intros a q Ha. rewrite data_after by (cbn in Ha; lia). exact (blank_progress s _ s1 x' (bu_blank _ _ B) P a q Ha).
  - unfold s2, with_sector. cbn [sectors]. rewrite upd_block_ne by (pose proof (IBLOCK_eq _ old_inum); unfold n; lia).
    rewrite meta_same by (rewrite nmeta_eq; lia). apply (bu_sb _ _ B).
  - intros m q Hm. unfold s2, with_sector. cbn [sectors]. rewrite upd_block_ne by (pose proof (IBLOCK_eq _ old_inum); unfold n; lia).
    rewrite meta_same by (rewrite nmeta_eq; lia). by apply (bu_log _ _ B).
  - intros k t' l'' Hk. apply list_lookup_insert_Some in Hk as [(-> & [= <- <-] & _)|[Hne Hk]]; [done|].
    pose proof (lookup_lt_Some _ _ _ Hk) as Hkl. pose proof (bu_files _ _ B _ _ _ Hk) as [F1 F2 F3 F4 F5].
    split; rewrite ?inode_other by done; try done. apply (laid_frame _ _ _ _ _ F5); [|cbn; lia]. intros a Ha. by apply (others_kept k).
  - intros k Hk. cbn in Hk. rewrite (pr_inode _ _ _ _ P) in Hk. pose proof (bu_inode _ _ B) as Hi.
    rewrite dinodes_after, decide_False by lia. apply (bu_free _ _ B). lia.
  - assert (K : forall k a, (k < length fs)%nat -> k <> j -> owner s2 (inum k) a -> owner s2 (inum j) a -> False).
    { intros k a Hk Hne H1 H2. rewrite owner_other in H1 by done. rewrite owner_self in H2. destruct H2 as [H2|H2].
      - apply Hne. exact (bu_apart _ _ B k j a Hk Hlt H1 H2).
      - destruct (file_at_index k Hk) as (f & _ & F). pose proof (owner_range _ _ _ _ _ F H1). lia. }
    intros k m a Hk Hm H1 H2. destruct (decide (k = j)) as [->|Hkj], (decide (m = j)) as [->|Hmj]; [reflexivity|destruct (K m a Hm Hmj H2 H1)|destruct (K k a Hk Hkj H1 H2)|].
    rewrite owner_other in H1, H2 by assumption. exact (bu_apart _ _ B k m a Hk Hm H1 H2).
  - intros a Ha. cbn in Ha. destruct (decide (a < freeblock s)) as [Hlt'|Hge].
    + destruct (bu_cover _ _ B a) as (k & Hk & Ho); [lia|]. exists k. split; [done|]. destruct (decide (k = j)) as [->|Hne]; [rewrite owner_self; left; exact Ho|rewrite owner_other by assumption; exact Ho].
    + exists j. split; [exact Hlt|]. rewrite owner_self. right. lia.
Qed.
End Append.

Lemma bytes_at_length m n : 0 <= n -> length (bytes_at m n) = Z.to_nat n.
Proof. intros Hn. unfold bytes_at. by rewrite length_map, length_seqZ. Qed.
Lemma bytes_at_in m n : bytes_in m 0 (bytes_at m n).
Proof.
  intros i Hi. destruct (decide (0 <= n)); [|unfold bytes_at in Hi; rewrite length_map, length_seqZ in Hi; lia]. rewrite bytes_at_length in Hi by done.
  unfold bytes_at. rewrite list_lookup_fmap, lookup_seqZ_lt by lia. cbn. f_equal. lia.
Qed.

Lemma iappend_run s fs j t l m n : built s fs -> fs !! j = Some (t, l) -> 0 <= n -> Z.of_nat (length l) + n <= MAXFILE * BSIZE ->
  freeblock s + needed (Z.of_nat (length l) + n) - needed (Z.of_nat (length l)) <= FSSIZE ->
  exists s', iappend (Z.of_nat j + 1) m n s = Ret tt s' /\ built s' (<[j := (t, l ++ bytes_at m n)]> fs) /\
    freeblock s' = freeblock s + needed (Z.of_nat (length l) + n) - needed (Z.of_nat (length l)).
Proof.
  intros B Hj Hn Hmax Hcost. pose proof (lookup_lt_Some _ _ _ Hj) as Hlt. pose proof (inum_ok s fs B j Hlt) as Hi. pose proof (bu_files _ _ B _ _ _ Hj) as F.
  assert (Hlen : Z.of_nat (length (l ++ bytes_at m n)) = Z.of_nat (length l) + n) by (rewrite length_app, bytes_at_length; lia).
  unfold iappend. rewrite (bind_ret _ _ _ _ _ (rinode_run s (bu_len _ _ B) _ Hi)). fold (dinode_on s (Z.of_nat j + 1)). rewrite (fo_size _ _ _ _ F).
  destruct (iappend_loop_run m (rounds n) s (dinode_on s (Z.of_nat j + 1)) l 0 (bytes_at m n)) as (s1 & x1 & E & P & L & Fb).
  - apply (bu_len _ _ B).
  - apply F.
  - apply (bu_block _ _ B).
  - apply (bu_blank _ _ B).
  - apply bytes_at_in.
  - by rewrite Hlen.
  - by rewrite Hlen.
  - unfold rounds, BSIZE. dlia.
  - intros _. rewrite bytes_at_length by done. unfold rounds, BSIZE. dlia.
  - rewrite bytes_at_length, Z2Nat.id in E by done. rewrite (bind_ret _ _ _ _ _ E). cbv beta iota.
    rewrite (winode_run s1) by (rewrite ?(pr_len _ _ _ _ P); try apply (bu_len _ _ B); done).
    eexists. split; [done|]. rewrite Hlen in Fb. split; [|exact Fb]. eapply append_built; [done|done|exact P|exact L|by rewrite Hlen|lia].
Qed.

(** ** A new inode *)

Section NewInode.
Context (s : image) (fs : list (Z * list Z)) (B : built s fs) (t : Z) (Ht : - 2 ^ 15 <= t < 2 ^ 15) (Hroom : Z.of_nat (length fs) + 1 < NINODES).
Abbreviation inum k := (Z.of_nat k + 1).
Let i : Z := inum (length fs).
Let x : inode := dinode_of i t 1 0 (replicate 13 0).
Let s1 : image := mkImage (sectors s) (nsectors s) (i + 1) (freeblock s).
Let s2 : image := with_sector s1 (IBLOCK i mkfs_sb) (store_dinode x (sectors s1 (IBLOCK i mkfs_sb))).

Lemma new_inum_ok : 0 <= i < NINODES.
Proof. unfold i. lia. Qed.
Lemma dinodes_new k : 0 <= k < NINODES -> dinode_on s2 k = if decide (k = i) then x else dinode_on s k.
Proof.
  intros Hk. unfold s2. rewrite (dinode_written s1 i x k new_inum_ok Hk); [done| |done].
  split; cbn; try lia. repeat constructor; lia.
Qed.
Lemma data_new a : nmeta <= a -> sectors s2 a = sectors s a.
Proof. intros Ha. unfold s2, with_sector. cbn [sectors]. apply upd_block_ne. pose proof (IBLOCK_eq _ new_inum_ok). rewrite nmeta_eq in Ha. lia. Qed.
Lemma blank_baddr d k : baddr (view d) x k = 0.
Proof.
  assert (E : forall m, nth_addr x m = 0).
  { intros m. unfold nth_addr. cbn [x dinode_of i_addrs]. destruct (replicate 13 0 !! Z.to_nat m) as [a|] eqn:Em; [|done]. by apply lookup_replicate in Em as [-> _]. }
  destruct (decide (k < NDIRECT)); [by rewrite baddr_direct|]. rewrite baddr_none by (try apply E; lia). done.
Qed.
Lemma kept_new k : (k < length fs)%nat -> dinode_on s2 (inum k) = dinode_on s (inum k).
Proof. intros Hk. pose proof (inum_ok s fs B k Hk) as Hi. rewrite dinodes_new by done. rewrite decide_False; [done|]. unfold i. lia. Qed.
Lemma owner_new k a : (k < length fs)%nat -> owner s2 (inum k) a <-> owner s (inum k) a.
Proof.
  intros Hk. unfold owner. rewrite kept_new by done. destruct (file_at_index s fs B k Hk) as (f & _ & F). unfold owns.
  by setoid_rewrite (fun m => laid_baddr_frame _ _ (sectors s2) m (fun a Ha => data_new a (proj1 (owner_range _ _ _ _ _ F Ha)))).
Qed.
Lemma owner_blank a : ~ owner s2 i a.
Proof.
  unfold owner. rewrite dinodes_new, decide_True by (done || apply new_inum_ok). intros [Ha [E|(k & _ & E)]]; [by rewrite E in Ha|]. by rewrite blank_baddr in E.
Qed.

Lemma new_built : built s2 (fs ++ [(t, [])]).
Proof.
  pose proof (bu_block _ _ B) as Hb. pose proof (bu_inode _ _ B) as Hi. assert (Elen : length (fs ++ [(t, [])]) = S (length fs)) by (rewrite length_app; simpl; lia).
  assert (Hcase : forall k, (k < S (length fs))%nat -> (k < length fs)%nat \/ k = length fs) by lia.
  split; rewrite ?Elen.
  - apply (bu_len _ _ B).
  - cbn. unfold i. lia.
  - lia.
  - exact Hb.
  - intros a q Ha. rewrite data_new by (cbn in Ha; lia). exact (bu_blank _ _ B a q Ha).
  - unfold s2, with_sector. cbn [sectors]. rewrite upd_block_ne by (pose proof (IBLOCK_eq _ new_inum_ok); lia). apply (bu_sb _ _ B).
  - intros m q Hm. unfold s2, with_sector. cbn [sectors]. rewrite upd_block_ne by (pose proof (IBLOCK_eq _ new_inum_ok); lia). by apply (bu_log _ _ B).
  - intros k t' l [Hk|[Hk [E [= <- <-]]%list_lookup_singleton_Some]]%lookup_app_Some.
    + pose proof (lookup_lt_Some _ _ _ Hk) as Hkl. pose proof (bu_files _ _ B _ _ _ Hk) as F. pose proof F as [F1 F2 F3 F4 F5].
      split; rewrite ?kept_new by done; try done. apply (laid_frame _ _ _ _ _ F5); [|cbn; lia]. intros a Ha. apply data_new. exact (proj1 (owner_range _ _ _ _ _ F Ha)).
    + replace (Z.of_nat k + 1) with i by (unfold i; lia).
      assert (Ex : dinode_on s2 i = x) by (rewrite dinodes_new, decide_True by (done || apply new_inum_ok); done).
      split; rewrite ?Ex; try done. change (blocks_of (Z.of_nat (length (@nil Z)))) with 0. split; try done; try lia.
      intros m Hm. apply blank_baddr.
  - intros k Hk. cbn in Hk. unfold i in Hk. rewrite dinodes_new, decide_False by (unfold i; lia). apply (bu_free _ _ B). lia.
  - intros k m a [Hk| ->]%Hcase [Hm| ->]%Hcase H1 H2; [|by destruct (owner_blank a)|by destruct (owner_blank a)|done].
    rewrite owner_new in H1, H2 by done. exact (bu_apart _ _ B k m a Hk Hm H1 H2).
  - intros a Ha. destruct (bu_cover _ _ B a Ha) as (k & Hk & Ho). exists k. split; [lia|]. by rewrite owner_new.
Qed.

Lemma ialloc_run : exists s', ialloc t s = Ret i s' /\ built s' (fs ++ [(t, [])]) /\ freeblock s' = freeblock s.
Proof.
  exists s2. split; [|split; [apply new_built|done]]. unfold ialloc. rewrite (bind_ret (gets freeinode) _ s (freeinode s) s eq_refl).
  pose proof (bu_inode _ _ B) as Hi. pose proof new_inum_ok as Hr.
  assert (Es : modify (fun s => mkImage (sectors s) (nsectors s) (u32 (freeinode s + 1)) (freeblock s)) s = Ret tt s1).
  { unfold modify, s1. rewrite Hi, u32_small by (unfold NINODES in *; lia). done. }
  rewrite (bind_ret _ _ _ _ _ Es). rewrite Hi. fold i x. rewrite (bind_ret _ _ _ _ _ (winode_run s1 (bu_len _ _ B) i x Hr)). done.
Qed.
End NewInode.

(** ** The root directory *)

(** 16 bytes that hold an entry: an inode number and a name. *)
Definition is_dirent (b : list Z) (e : Z * list Z) : Prop :=
  length b = 16%nat /\ load16 (mem_of b) 0 = e.1 /\ field_string (mem_of b) 2 14 = e.2.

Lemma bytes_at_load m k n : 0 <= k < n -> load8 (mem_of (bytes_at m n)) k = load8 m k.
Proof.
  intros Hk. unfold load8 at 1. unfold mem_of, bytes_at. rewrite list_lookup_fmap, lookup_seqZ_lt by lia. cbn.
  replace (0 + Z.of_nat (Z.to_nat k)) with k by lia. apply u8_idem.
Qed.
Lemma dirent_of_memory m inum name : load16 m 0 = inum -> field_string m 2 14 = name -> is_dirent (bytes_at m sizeof_dirent) (inum, name).
Proof.
  intros E1 E2. unfold sizeof_dirent. split; [done|]. cbn [fst snd]. split.
  - rewrite <- E1. apply load16_shift; apply bytes_at_load; lia.
  - rewrite <- E2. apply field_string_shift. intros k Hk. apply bytes_at_load. lia.
Qed.
Lemma cleared_dirent_inum inum : 0 <= inum < 2 ^ 16 -> load16 (cleared_dirent inum) 0 = inum.
Proof. intros Hi. unfold cleared_dirent. rewrite load16_store16_eq. unfold u16. rewrite Z.mod_mod, Z.mod_small by lia. done. Qed.
Lemma name_field_take m name : Forall (fun c => 0 < c < 256) name -> forall p k, (forall i, 0 <= i <= Z.of_nat (length name) -> load8 m (p + i) = default 0 (name !! Z.to_nat i)) ->
  field_string m p k = take k name.
Proof.
  induction 1 as [|c name Hc Hn IH]; intros p k Hm; destruct k as [|k]; try done; rewrite field_string_S; pose proof (Hm 0 ltac:(lia)) as H0; rewrite Z.add_0_r in H0; rewrite H0; cbn.
  - done.
  - change (default 0 ((c :: name) !! Z.to_nat 0)) with c. cbv beta in Hc. rewrite (proj2 (Z.eqb_neq _ _)) by lia. change (take (S k) (c :: name)) with (c :: take k name). f_equal. apply IH. intros i Hi. replace (p + 1 + i) with (p + (i + 1)) by lia. rewrite Hm by (simpl; lia).
    by replace (Z.to_nat (i + 1)) with (S (Z.to_nat i)) by lia.
Qed.
Lemma string_memory name i : Forall (fun c => 0 < c < 256) name -> 0 <= i <= Z.of_nat (length name) -> load8 (mem_of (name ++ [0])) i = default 0 (name !! Z.to_nat i).
Proof.
  intros Hn Hi. unfold load8, mem_of. destruct (decide (i < Z.of_nat (length name))).
  - rewrite lookup_app_l by lia. destruct (lookup_lt_is_Some_2 name (Z.to_nat i)) as [c Hc]; [lia|]. rewrite Hc. cbn. rewrite Forall_lookup in Hn. apply u8_small. specialize (Hn _ _ Hc). lia.
  - rewrite lookup_app_r by lia. replace (Z.to_nat i - length name)%nat with 0%nat by lia. by rewrite (lookup_ge_None_2 name) by lia.
Qed.
Lemma strncpy_dirent_ok inum name : 0 <= inum < 2 ^ 16 -> Forall (fun c => 0 < c < 256) name ->
  is_dirent (bytes_at (strncpy_dirent inum name) sizeof_dirent) (inum, take 14 name).
Proof.
  intros Hi Hn. apply dirent_of_memory; unfold strncpy_dirent, strncpy; change (Z.to_nat DIRSIZ) with 14%nat.
  - rewrite <- (cleared_dirent_inum inum Hi) at 2. apply load16_shift; rewrite strncpy_loop_out by lia; done.
  - rewrite strncpy_loop_string by lia. apply name_field_take; [done|]. intros i Hk. rewrite <- string_memory by done.
    unfold named, load8 at 1. rewrite (proj2 (Z.ltb_ge (16 + i) 16)) by lia. by replace (16 + i - 16) with i by lia.
Qed.

Fixpoint entries_from (inum : Z) (files : list (list Z * list (list Z))) : list (Z * list Z) :=
  match files with [] => [] | f :: files => (inum, take 14 (installed f.1)) :: entries_from (inum + 1) files end.
(** What the root directory lists. *)
Definition root_entries (files : list (list Z * list (list Z))) : list (Z * list Z) := (1, [46]) :: (1, [46; 46]) :: entries_from 2 files.
Definition lists (l : list Z) (es : list (Z * list Z)) : Prop := exists bs, l = concat bs /\ Forall2 is_dirent bs es.

Lemma lists_snoc l es b e : lists l es -> is_dirent b e -> lists (l ++ b) (es ++ [e]).
Proof. intros (bs & -> & F) Hb. exists (bs ++ [b]). split; [rewrite concat_app; cbn; by rewrite app_nil_r|]. apply Forall2_app; [done|by constructor]. Qed.
Lemma lists_length l es : lists l es -> length l = (16 * length es)%nat.
Proof. intros (bs & -> & F). induction F as [|b e bs es [Hb _] F IH]; [done|]. cbn [concat length]. rewrite length_app, IH, Hb. simpl. lia. Qed.
Lemma lists_lookup l es k e : lists l es -> es !! k = Some e -> exists b, is_dirent b e /\ forall q, (q < 16)%nat -> l !! (16 * k + q)%nat = b !! q.
Proof.
  intros (bs & -> & F). revert k. induction F as [|b e' bs es Hb F IH]; intros k Hk; [done|]. pose proof (proj1 Hb) as Hl. cbn [concat]. destruct k as [|k].
  - injection Hk as <-. exists b. split; [done|]. intros q Hq. rewrite lookup_app_l by lia. done.
  - destruct (IH k Hk) as (c & Hc & E). exists c. split; [done|]. intros q Hq. rewrite lookup_app_r by lia. rewrite <- E by done. f_equal. lia.
Qed.

(** ** The run of mkfs *)

Definition content_of (f : list Z * list (list Z)) : list Z := concat f.2.
Definition installed_files (files : list (list Z * list (list Z))) : list (Z * list Z) := map (fun f => (T_FILE, content_of f)) files.
Definition blocks_needed (files : list (list Z * list (list Z))) : Z := foldr (fun f n => needed (Z.of_nat (length (content_of f))) + n) 0 files.

(** Names without a slash, files the file system can hold, and room for all of them. *)
Definition file_ok (f : list Z * list (list Z)) : Prop :=
  Forall (fun c => 0 < c < 256 /\ c <> SLASH) f.1 /\ Forall (fun b => 0 <= b < 256) (content_of f) /\ Z.of_nat (length (content_of f)) <= MAXFILE * BSIZE.
Record installable (files : list (list Z * list (list Z))) : Prop := {
  in_files : Forall file_ok files;
  in_number : Z.of_nat (length files) + 1 < NINODES;
  in_room : nmeta + needed (16 * (Z.of_nat (length files) + 2)) + blocks_needed files <= FSSIZE
}.

Lemma bytes_at_mem_of l : Forall (fun b => 0 <= b < 256) l -> bytes_at (mem_of l) (Z.of_nat (length l)) = l.
Proof.
  intros Hl. apply list_eq. intros k. unfold bytes_at. rewrite list_lookup_fmap. destruct (decide (k < length l)%nat) as [Hk|Hk].
  - rewrite lookup_seqZ_lt by lia. cbn. destruct (lookup_lt_is_Some_2 l k Hk) as [b Hb]. unfold load8, mem_of. replace (Z.to_nat (0 + Z.of_nat k)) with k by lia.
    rewrite Hb. cbn. rewrite Forall_lookup in Hl. f_equal. apply u8_small. exact (Hl _ _ Hb).
  - rewrite lookup_seqZ_ge by lia. by rewrite lookup_ge_None_2 by lia.
Qed.

Lemma add_content_run reads : forall s fs j t l, built s fs -> fs !! j = Some (t, l) -> Forall (fun b => 0 <= b < 256) (concat reads) ->
  Z.of_nat (length (l ++ concat reads)) <= MAXFILE * BSIZE ->
  freeblock s + needed (Z.of_nat (length (l ++ concat reads))) - needed (Z.of_nat (length l)) <= FSSIZE ->
  exists s', add_content (Z.of_nat j + 1) reads s = Ret tt s' /\ built s' (<[j := (t, l ++ concat reads)]> fs) /\
    freeblock s' = freeblock s + needed (Z.of_nat (length (l ++ concat reads))) - needed (Z.of_nat (length l)).
Proof.
  induction reads as [|b reads IH]; intros s fs j t l B Hj Hb Hmax Hcost; cbn [add_content concat] in *.
  - rewrite app_nil_r. exists s. split; [done|]. split; [by rewrite list_insert_id|lia].
  - rewrite app_assoc in *. apply Forall_app in Hb as [Hb Hr]. assert (E : Z.of_nat (length (l ++ b)) = Z.of_nat (length l) + Z.of_nat (length b)) by (rewrite length_app; lia).
    assert (Hle : Z.of_nat (length (l ++ b)) <= Z.of_nat (length ((l ++ b) ++ concat reads))) by (rewrite (length_app (l ++ b)); lia).
    pose proof (needed_mono _ _ Hle) as Hn. rewrite E in Hn, Hle.
    destruct (iappend_run s fs j t l (mem_of b) (Z.of_nat (length b)) B Hj) as (s1 & E1 & B1 & F1); [lia|lia|lia|].
    rewrite bytes_at_mem_of in B1 by done. rewrite (bind_ret _ _ _ _ _ E1).
    destruct (IH s1 _ j t (l ++ b) B1) as (s' & E' & B' & F'); [apply list_lookup_insert_eq; by eapply lookup_lt_Some|done|done|rewrite E; lia|].
    rewrite list_insert_insert_eq in B'. exists s'. split; [done|]. split; [done|]. rewrite F', F1, E. lia.
Qed.

Lemma root_append s fs r es m inum name : built s ((T_DIR, r) :: fs) -> lists r es -> is_dirent (bytes_at m sizeof_dirent) (inum, name) ->
  (length es < 200)%nat -> freeblock s + needed (16 * Z.of_nat (S (length es))) - needed (16 * Z.of_nat (length es)) <= FSSIZE ->
  exists s', iappend ROOTINO m sizeof_dirent s = Ret tt s' /\ built s' ((T_DIR, r ++ bytes_at m sizeof_dirent) :: fs) /\ lists (r ++ bytes_at m sizeof_dirent) (es ++ [(inum, name)]) /\
    freeblock s' = freeblock s + needed (16 * Z.of_nat (S (length es))) - needed (16 * Z.of_nat (length es)).
Proof.
  intros B Hr Hd Hes Hcost. pose proof (lists_length _ _ Hr) as Hlen. assert (E : Z.of_nat (length r) = 16 * Z.of_nat (length es)) by lia.
  assert (E2 : Z.of_nat (length r) + sizeof_dirent = 16 * Z.of_nat (S (length es))) by (unfold sizeof_dirent; lia).
  destruct (iappend_run s ((T_DIR, r) :: fs) 0 T_DIR r m sizeof_dirent B eq_refl) as (s' & E' & B' & F'); rewrite ?E2, ?E; [done|rewrite MAXFILE_bytes; lia|done|].
  exists s'. split; [exact E'|]. split; [exact B'|]. split; [by apply lists_snoc|]. by rewrite F', E2, E.
Qed.

Lemma installed_ok f : file_ok f -> existsb (Z.eqb SLASH) f.1 = false /\ Forall (fun c => 0 < c < 256) (installed f.1).
Proof.
  intros (Hf & _). split.
  - induction Hf as [|c l [_ Hc] _ IH]; [done|]. change (existsb (Z.eqb SLASH) (c :: l)) with ((SLASH =? c) || existsb (Z.eqb SLASH) l). rewrite IH. by rewrite (proj2 (Z.eqb_neq SLASH c)) by done.
  - assert (H : Forall (fun c => 0 < c < 256) f.1) by (eapply Forall_impl; [exact Hf|]; cbn; tauto).
    unfold installed. destruct f.1 as [|c l]; [done|]. destruct (c =? underscore); [by inversion H|done].
Qed.

Definition dir_cost (n : nat) : Z := needed (16 * Z.of_nat n).

Lemma add_file_run s fs r es f : built s ((T_DIR, r) :: fs) -> lists r es -> length es = S (S (length fs)) -> file_ok f -> Z.of_nat (length es) < NINODES ->
  freeblock s + dir_cost (S (length es)) - dir_cost (length es) + needed (Z.of_nat (length (content_of f))) <= FSSIZE ->
  exists s' r', add_file ROOTINO f s = Ret tt s' /\ built s' ((T_DIR, r') :: fs ++ [(T_FILE, content_of f)]) /\
    lists r' (es ++ [(Z.of_nat (length es), take 14 (installed f.1))]) /\
    freeblock s' = freeblock s + dir_cost (S (length es)) - dir_cost (length es) + needed (Z.of_nat (length (content_of f))).
Proof.
  intros B Hr Hes Hf Hn Hcost. destruct (installed_ok f Hf) as [Hslash Hname]. destruct Hf as (_ & Hb & Hmax). unfold dir_cost in *. destruct f as [arg reads].
  assert (Hpos : forall n, 0 <= n -> 0 <= needed n) by (intros n Hn'; pose proof (needed_mono 0 n Hn'); change (needed 0) with 0 in *; lia).
  unfold add_file. cbn [fst snd] in Hslash |- *. rewrite Hslash. rewrite (bind_ret _ _ s tt s eq_refl).
  destruct (ialloc_run s _ B T_FILE) as (s1 & E1 & B1 & F1); [unfold T_FILE; lia|simpl; lia|].
  rewrite (bind_ret _ _ _ _ _ E1). replace (Z.of_nat (length ((T_DIR, r) :: fs)) + 1) with (Z.of_nat (length es)) by (simpl; lia).
  change (((T_DIR, r) :: fs) ++ [(T_FILE, [])]) with ((T_DIR, r) :: fs ++ [(T_FILE, [])]) in B1.
  destruct (root_append s1 _ r es (strncpy_dirent (Z.of_nat (length es)) (installed arg)) (Z.of_nat (length es)) (take 14 (installed arg)) B1 Hr) as (s2 & E2 & B2 & R2 & F2).
  { apply strncpy_dirent_ok; [unfold NINODES in Hn; lia|done]. } { unfold NINODES in Hn. lia. }
  { specialize (Hpos (Z.of_nat (length (content_of (arg, reads)))) ltac:(lia)). lia. }
  rewrite (bind_ret _ _ _ _ _ E2). set (r' := r ++ bytes_at _ _) in *.
  assert (Hlast : ((T_DIR, r') :: fs ++ [(T_FILE, [])]) !! S (length fs) = Some (T_FILE, [])).
  { change ((fs ++ [(T_FILE, [])]) !! length fs = Some (T_FILE, @nil Z)). rewrite lookup_app_r, Nat.sub_diag by lia. done. }
  destruct (add_content_run reads s2 _ (S (length fs)) T_FILE [] B2 Hlast) as (s3 & E3 & B3 & F3); [done|done|cbn [app length]; change (needed (Z.of_nat 0)) with 0; unfold content_of in *; cbn [snd] in *; lia|].
  replace (Z.of_nat (S (length fs)) + 1) with (Z.of_nat (length es)) in E3 by lia. exists s3, r'. split; [exact E3|]. split.
  - change ((T_DIR, r') :: fs ++ [(T_FILE, [])]) with (((T_DIR, r') :: fs) ++ [(T_FILE, [])]) in B3.
    rewrite insert_app_r_alt in B3 by (simpl; lia). replace (S (length fs) - length ((T_DIR, r') :: fs))%nat with 0%nat in B3 by (simpl; lia). exact B3.
  - split; [done|]. rewrite F3, F2, F1. cbn [app length]. change (needed (Z.of_nat 0)) with 0. unfold content_of. cbn [snd]. lia.
Qed.

Lemma add_files_run files : forall s fs r es, built s ((T_DIR, r) :: fs) -> lists r es -> length es = S (S (length fs)) -> Forall file_ok files ->
  Z.of_nat (length es) + Z.of_nat (length files) <= NINODES ->
  freeblock s + dir_cost (length es + length files) - dir_cost (length es) + blocks_needed files <= FSSIZE ->
  exists s' r', add_files ROOTINO files s = Ret tt s' /\ built s' ((T_DIR, r') :: fs ++ installed_files files) /\
    lists r' (es ++ entries_from (Z.of_nat (length es)) files) /\
    freeblock s' = freeblock s + dir_cost (length es + length files) - dir_cost (length es) + blocks_needed files.
Proof.
  induction files as [|f files IH]; intros s fs r es B Hr Hes Hf Hn Hcost; cbn [add_files entries_from installed_files map blocks_needed foldr length] in *.
  - exists s, r. rewrite !app_nil_r, Nat.add_0_r. split; [done|]. split; [done|]. split; [done|lia].
  - apply Forall_cons in Hf as [Hf Hfs]. fold (blocks_needed files) in *.
    assert (Hpos : 0 <= blocks_needed files).
    { clear. induction files as [|g files IH]; [done|]. cbn [blocks_needed foldr]. fold (blocks_needed files). pose proof (needed_mono 0 (Z.of_nat (length (content_of g))) ltac:(lia)) as H. change (needed 0) with 0 in H. lia. }
    assert (Hmono : dir_cost (S (length es)) <= dir_cost (length es + S (length files))) by (apply needed_mono; lia).
    destruct (add_file_run s fs r es f B Hr Hes Hf) as (s1 & r1 & E1 & B1 & R1 & F1); [lia|lia|].
    rewrite (bind_ret _ _ _ _ _ E1).
    assert (Hl : length (es ++ [(Z.of_nat (length es), take 14 (installed f.1))]) = S (length es)) by (rewrite length_app; simpl; lia).
    replace (length es + S (length files))%nat with (S (length es) + length files)%nat in * by lia.
    destruct (IH s1 _ r1 _ B1 R1) as (s' & r' & E' & B' & R' & F'); rewrite ?Hl; [rewrite length_app; simpl; lia|done|lia|lia|].
    rewrite Hl in R', F'. rewrite <- app_assoc in B', R'. exists s', r'. split; [exact E'|]. split; [exact B'|]. split; [|lia].
    replace (Z.of_nat (S (length es))) with (Z.of_nat (length es) + 1) in R' by lia. exact R'.
Qed.

Definition all_blank (s : image) : Prop := forall n a, sectors s n a = 0.
Lemma wipe_run k : forall s i, all_blank s -> nsectors s = i -> 0 <= i -> i + Z.of_nat k <= FSSIZE ->
  exists s', wipe i k s = Ret tt s' /\ all_blank s' /\ nsectors s' = i + Z.of_nat k /\ freeinode s' = freeinode s /\ freeblock s' = freeblock s.
Proof.
  induction k as [|k IH]; intros s i Hb Hs Hi Hk; cbn [wipe]; [exists s; split; [done|]; split_and!; try done; lia|].
  assert (E : wsect i zeroes s = Ret tt (mkImage (upd_block (sectors s) i zeroes) (i + 1) (freeinode s) (freeblock s))).
  { unfold wsect, modify. rewrite sector_small by lia. by rewrite Hs, Z.max_r by lia. }
  rewrite (bind_ret _ _ _ _ _ E). destruct (IH (mkImage (upd_block (sectors s) i zeroes) (i + 1) (freeinode s) (freeblock s)) (i + 1)) as (s' & E' & B' & N' & I' & F'); try lia; try done.
  { intros n a. cbn [sectors]. rewrite upd_block_cases. destruct (decide (n = i)); [done|apply Hb]. }
  exists s'. split; [exact E'|]. split_and!; try done. lia.
Qed.

Lemma built_empty s : all_blank s -> nsectors s = FSSIZE -> freeinode s = 1 -> freeblock s = nmeta ->
  built (with_sector s 1 (superblock_bytes mkfs_sb)) [].
Proof.
  intros Hb Hs Hi Hf. split; cbn [with_sector nsectors freeinode freeblock sectors length]; try done.
  - rewrite Hf, nmeta_eq. unfold FSSIZE. lia.
  - intros n q Hn. cbn [with_sector sectors freeblock] in *. rewrite Hf, nmeta_eq in Hn. rewrite upd_block_ne by lia. apply Hb.
  - intros n q Hn. rewrite upd_block_ne by lia. apply Hb.
  - intros i Hr. rewrite Hi in Hr. destruct (IBLOCK_eq i ltac:(lia)) as [_ Hr']. unfold dinode_on, load_dinode. cbn [with_sector sectors i_type]. rewrite upd_block_ne by lia.
    unfold load16, load8. by rewrite !Hb.
  - intros j k a Hj. simpl in Hj. lia.
  - intros a Ha. lia.
Qed.

(** The image before the root's size is rounded and the bitmap written. *)
Lemma mkfs_filled files : installable files -> exists s r,
  built s ((T_DIR, r) :: installed_files files) /\ lists r (root_entries files) /\
  mkfs files truncated = (din ← rinode ROOTINO; winode ROOTINO (set_i_size (u32 ((i_size din / BSIZE + 1) * BSIZE)) din);; used ← gets freeblock; balloc used) s.
Proof.
  intros [I1 I2 I3]. set (s0 := mkImage (fun _ => zeroes) 0 1 nmeta).
  destruct (wipe_run (Z.to_nat FSSIZE) s0 0) as (s1 & E1 & B1 & N1 & F1 & G1); [done|done|lia|done|].
  assert (Hs1 : nsectors s1 = FSSIZE) by (rewrite N1; done).
  pose proof (wsect_run s1 Hs1 1 (superblock_bytes mkfs_sb) ltac:(unfold FSSIZE; lia)) as E2.
  pose proof (built_empty s1 B1 Hs1 F1 G1) as B2. set (s2 := with_sector s1 1 _) in *.
  destruct (ialloc_run s2 [] B2 T_DIR) as (s3 & E3 & B3 & G3); [unfold T_DIR; lia|done|].
  assert (Hroom : dir_cost 2 = 1 /\ dir_cost 1 = 1 /\ dir_cost 0 = 0) by done. unfold dir_cost in Hroom.
  assert (Hn : nmeta + dir_cost (2 + length files) + blocks_needed files <= FSSIZE) by (unfold dir_cost; replace (Z.of_nat (2 + length files)) with (Z.of_nat (length files) + 2) by lia; done).
  assert (Hf3 : freeblock s3 = nmeta) by (rewrite G3; exact G1).
  destruct (root_append s3 [] [] [] (strcpy_dirent 1 [46]) 1 [46] B3) as (s4 & E4 & B4 & R4 & F4); [by exists []|by apply dirent_of_memory|simpl; lia|rewrite Hf3, nmeta_eq; cbn [length]; unfold FSSIZE; lia|].
  set (r4 := [] ++ bytes_at _ _) in *. assert (Hf4 : freeblock s4 = nmeta + 1) by (rewrite F4, Hf3; cbn [length]; lia).
  destruct (root_append s4 [] r4 _ (strcpy_dirent 1 [46; 46]) 1 [46; 46] B4 R4) as (s5 & E5 & B5 & R5 & F5); [by apply dirent_of_memory|simpl; lia|rewrite Hf4, nmeta_eq; cbn [length app]; unfold FSSIZE; lia|].
  assert (Hf5 : freeblock s5 = nmeta + 1) by (rewrite F5, Hf4; cbn [length app]; lia).
  destruct (add_files_run files s5 [] _ _ B5 R5) as (s6 & r6 & E6 & B6 & R6 & F6); [done|done|cbn [length app]; lia|rewrite Hf5; cbn [length app]; unfold dir_cost in *; lia|].
  exists s6, r6. split; [exact B6|]. split; [exact R6|]. unfold mkfs.
  assert (E0 : modify (fun s => mkImage (sectors s) (nsectors s) (freeinode s) nmeta) truncated = Ret tt s0) by done.
  rewrite (bind_ret _ _ _ _ _ E0), (bind_ret _ _ _ _ _ E1), (bind_ret _ _ _ _ _ E2), (bind_ret _ _ _ _ _ E3).
  change (negb (Z.of_nat (length (@nil (Z * list Z))) + 1 =? ROOTINO)) with false. rewrite (bind_ret _ _ s3 tt s3 eq_refl).
  change (Z.of_nat (length (@nil (Z * list Z))) + 1) with ROOTINO. rewrite (bind_ret _ _ _ _ _ E4), (bind_ret _ _ _ _ _ E5), (bind_ret _ _ _ _ _ E6). done.
Qed.

(** ** What the kernel finds *)

Lemma balloc_loop_bits k : forall buf i a q, 0 <= i -> 0 <= q < 8 ->
  Z.testbit (load8 (balloc_loop buf i k) a) q = Z.testbit (load8 buf a) q || (bool_decide (i <= 8 * a + q < i + Z.of_nat k)).
Proof.
  induction k as [|k IH]; intros buf i a q Hi Hq; cbn [balloc_loop].
  - by rewrite bool_decide_false, orb_false_r by lia.
  - rewrite IH, load8_mark_used, <- orb_assoc by lia. f_equal.
    destruct (Z.eqb_spec a (i / 8)) as [->|Ha], (Z.eqb_spec q (i mod 8)) as [->|Hq']; cbn [andb orb].
    + rewrite bool_decide_true by dlia. done.
    + apply bool_decide_ext. dlia.
    + apply bool_decide_ext. dlia.
    + apply bool_decide_ext. dlia.
Qed.

(** The inode the kernel reads into the cache entry [y]. *)
Definition disk_inode (d : Z -> block) (x : superblock) (y : inode) : inode := load_dinode (d (IBLOCK (i_inum y) x)) y.

(** The entry a name leads to: the first with that name. *)
Definition lookup_name (s : list Z) (es : list (Z * list Z)) : option Z :=
  k ← find_index (fun e => bool_decide (e.2 = s)) es; fst <$> es !! k.

(** A disk in the order every call of the kernel's file system keeps, with the given files:
    inode j + 2 is the j-th file, inode 1 the root directory that names them. *)
Record boots (d : Z -> block) (files : list (list Z * list (list Z))) (x : superblock) : Prop := {
  bo_layout : forall g, g_blocks g = FSSIZE -> g_logstart g = sb_logstart x -> g_logsize g = sb_nlog x -> sb_ok g x;
  bo_log : forall n q, sb_logstart x <= n < sb_inodestart x -> d n q = 0;
  bo_fs : fs_ok x (view d);
  bo_files : forall j f y, files !! j = Some f -> i_inum y = Z.of_nat j + 2 ->
    file_inv x (view d) (disk_inode d x y) (content_of f) /\ i_type (disk_inode d x y) = T_FILE /\ i_nlink (disk_inode d x y) = 1;
  bo_root : forall y, i_inum y = ROOTINO ->
    i_type (disk_inode d x y) = T_DIR /\ i_size (disk_inode d x y) mod 16 = 0 /\ inode_ok x (view d) (disk_inode d x y);
  bo_names : forall y, i_inum y = ROOTINO -> (Z.of_nat (length files) + 2) mod 32 <> 0 ->
    no_holes (view d) (disk_inode d x y) /\ forall s, dir_inum (view d) (disk_inode d x y) s = lookup_name s (root_entries files);
  bo_hole : forall y, i_inum y = ROOTINO -> (Z.of_nat (length files) + 2) mod 32 = 0 -> ~ no_holes (view d) (disk_inode d x y);
  bo_apart : forall y z a, 1 <= i_inum y <= Z.of_nat (length files) + 1 -> 1 <= i_inum z <= Z.of_nat (length files) + 1 ->
    owns (view d) (disk_inode d x y) a -> owns (view d) (disk_inode d x z) a -> i_inum y = i_inum z;
  bo_used : forall a, 0 <= a < sb_size x ->
    (used x (view d) a = true <-> a < data_start x \/ exists y, 1 <= i_inum y <= Z.of_nat (length files) + 1 /\ owns (view d) (disk_inode d x y) a);
  bo_free : forall y, Z.of_nat (length files) + 1 < i_inum y < sb_ninodes x -> i_type (disk_inode d x y) = 0
}.

Lemma addrs_baddr v x y k : i_addrs x = i_addrs y -> baddr v x k = baddr v y k.
Proof. intros E. unfold baddr, nth_addr. by rewrite E. Qed.
Lemma addrs_owns v x y a : i_addrs x = i_addrs y -> owns v x a <-> owns v y a.
Proof. intros E. unfold owns, nth_addr. rewrite E. by setoid_rewrite (fun k => addrs_baddr v x y k E). Qed.
Lemma laid_addrs d fb nb x y l : i_addrs x = i_addrs y -> laid d fb nb x l -> laid d fb nb y l.
Proof.
  intros E [L1 L2 L3 L4 L5 L6 L7 L8]. assert (En : forall k, nth_addr y k = nth_addr x k) by (intros k; unfold nth_addr; by rewrite E).
  assert (Eb : forall k, baddr (view d) y k = baddr (view d) x k) by (intros k; by apply addrs_baddr). split; rewrite ?En; try done.
  - by rewrite <- E.
  - intros k Hk. rewrite Eb. by apply L3.
  - intros k Hk. rewrite Eb. by apply L4.
  - intros k m Hk Hm. rewrite !Eb. by apply L6.
  - intros k Hk. rewrite Eb. by apply L7.
  - intros q Hq. unfold content. rewrite Eb. by apply L8.
Qed.

(** A laid file in the kernel's terms, once its blocks are marked. *)
Section Kernel.
Context (d : Z -> block) (fb nb : Z) (x : inode) (l : list Z) (L : laid d fb nb x l) (Hfb : fb <= FSSIZE)
  (Hu : forall a, nmeta <= a < fb -> used mkfs_sb (view d) a = true).
Lemma laid_alloced a : nmeta <= a < fb -> alloced mkfs_sb (view d) a.
Proof. intros Ha. split; [|by apply Hu]. change (data_start mkfs_sb) with nmeta. change (sb_size mkfs_sb) with FSSIZE. lia. Qed.
Lemma laid_inode_ok : inode_ok mkfs_sb (view d) x.
Proof.
  pose proof L as [L1 L2 L3 L4 L5 L6 L7 L8].
  assert (Hk : forall k, 0 <= k < MAXFILE -> baddr (view d) x k <> 0 -> 0 <= k < nb) by (intros k Hk Hne; destruct (decide (k < nb)); [lia|]; by rewrite L4 in Hne by lia).
  split; [done|..].
  - intros Hne. apply laid_alloced. by destruct (NDIRECT <? nb).
  - intros k Hr Hne. apply laid_alloced, L3. by apply Hk.
  - intros k m Hr Hm Hne E. apply L6; [by apply Hk| |done]. apply Hk; [done|congruence].
  - intros k Hr Hne. apply L7. by apply Hk.
Qed.
Lemma laid_no_holes : i_size x <= nb * BSIZE -> 0 <= i_size x -> no_holes (view d) x.
Proof.
  intros Hs Hs0. pose proof (la_range _ _ _ _ _ L). split; [unfold BSIZE in *; lia|]. intros k Hk.
  pose proof (la_addr _ _ _ _ _ L (k / BSIZE) ltac:(unfold BSIZE in *; dlia)) as Ha. rewrite nmeta_eq in Ha. lia.
Qed.
End Kernel.

Section Finish.
Context (s : image) (r : list Z) (files : list (list Z * list (list Z))) (B : built s ((T_DIR, r) :: installed_files files)) (R : lists r (root_entries files))
  (Hf : Forall file_ok files).
Abbreviation fs := ((T_DIR, r) :: installed_files files).
Let root_size : Z := (Z.of_nat (length r) / BSIZE + 1) * BSIZE.
Let x1 : inode := set_i_size root_size (dinode_on s 1).
Let sa : image := with_sector s (IBLOCK 1 mkfs_sb) (store_dinode x1 (sectors s (IBLOCK 1 mkfs_sb))).
Let sb : image := with_sector sa (sb_bmapstart mkfs_sb) (balloc_loop zeroes 0 (Z.to_nat (freeblock s))).

Lemma files_length : length fs = S (length files).
Proof. cbn [length]. unfold installed_files. by rewrite length_map. Qed.
Lemma root_file : file_on s 1 T_DIR r.
Proof. exact (bu_files _ _ B 0%nat T_DIR r eq_refl). Qed.
Lemma root_length : Z.of_nat (length r) = 16 * (Z.of_nat (length files) + 2) /\ length (root_entries files) = (length files + 2)%nat.
Proof.
  assert (E : forall fl i, length (entries_from i fl) = length fl) by (intros fl; induction fl as [|g fl IH]; intros i; [done|]; cbn [entries_from length]; by rewrite IH).
  pose proof (lists_length _ _ R) as Hl. unfold root_entries in *. cbn [length] in *. rewrite E in *. lia.
Qed.

Lemma finish_run : (din ← rinode ROOTINO; winode ROOTINO (set_i_size (u32 ((i_size din / BSIZE + 1) * BSIZE)) din);; used ← gets freeblock; balloc used) s = Ret tt sb.
Proof.
  pose proof (bu_block _ _ B) as Hb. pose proof root_file as F. pose proof (bu_len _ _ B) as Hs. unfold FSSIZE in Hb.
  rewrite (bind_ret _ _ _ _ _ (rinode_run s Hs 1 ltac:(done))). fold (dinode_on s 1). rewrite (fo_size _ _ _ _ F).
  pose proof (fo_max _ _ _ _ F) as Hm. rewrite MAXFILE_bytes in Hm. rewrite u32_small by (unfold BSIZE; dlia). fold root_size x1.
  rewrite (bind_ret _ _ _ _ _ (winode_run s Hs 1 x1 ltac:(done))). fold sa.
  rewrite (bind_ret (gets freeblock) _ sa (freeblock s) sa eq_refl). unfold balloc. rewrite (proj2 (Z.ltb_lt _ _)) by (unfold BSIZE; lia).
  assert (Ep : panic_if (negb true) "used < BSIZE*8" sa = Ret tt sa) by done. rewrite (bind_ret _ _ _ _ _ Ep). apply (wsect_run sa Hs). split; [done|]. unfold FSSIZE. by vm_compute.
Qed.

Lemma dinodes_fin k : 0 <= k < NINODES -> dinode_on sb k = if decide (k = 1) then x1 else dinode_on s k.
Proof.
  intros Hk. destruct (IBLOCK_eq k Hk) as [_ Hb]. assert (E : dinode_on sb k = dinode_on sa k).
  { unfold dinode_on, sb. cbn [with_sector sectors]. rewrite upd_block_ne; [done|]. change (sb_bmapstart mkfs_sb) with 58. lia. }
  rewrite E. unfold sa. rewrite (dinode_written s 1 x1 k ltac:(done) Hk); [done| |done].
  pose proof (dinode_on_fits s 1) as [F1 F2 F3 F4 F5 F6 F7]. split; try done. cbn [x1 set_i_size i_size]. unfold root_size.
  pose proof (fo_max _ _ _ _ root_file) as Hm. rewrite MAXFILE_bytes in Hm. unfold BSIZE. dlia.
Qed.
Lemma data_fin a : nmeta <= a -> sectors sb a = sectors s a.
Proof. rewrite nmeta_eq. intros Ha. unfold sb, sa. cbn [with_sector sectors]. rewrite !upd_block_ne; [done|change (IBLOCK 1 mkfs_sb) with 32; lia|change (sb_bmapstart mkfs_sb) with 58; lia]. Qed.
Lemma addrs_fin y : 0 <= i_inum y < NINODES -> i_addrs (disk_inode (sectors sb) mkfs_sb y) = i_addrs (dinode_on s (i_inum y)).
Proof.
  intros Hy. pose proof (dinodes_fin (i_inum y) Hy) as E. apply (f_equal i_addrs) in E. transitivity (i_addrs (dinode_on sb (i_inum y))); [done|].
  rewrite E. by destruct (decide (i_inum y = 1)) as [->|].
Qed.
Lemma numbered y : 1 <= i_inum y <= Z.of_nat (length files) + 1 -> 0 <= i_inum y < NINODES /\
  exists j t l, (j < length fs)%nat /\ i_inum y = Z.of_nat j + 1 /\ fs !! j = Some (t, l) /\ file_on s (i_inum y) t l.
Proof.
  intros Hy. pose proof files_length as Hl. pose proof (bu_room _ _ B) as Hr. rewrite Hl in Hr. split; [lia|].
  assert (Hj : (Z.to_nat (i_inum y - 1) < length fs)%nat) by (rewrite Hl; lia). destruct (file_at_index s fs B _ Hj) as ([t l] & Hlk & F).
  exists (Z.to_nat (i_inum y - 1)), t, l. replace (Z.of_nat (Z.to_nat (i_inum y - 1)) + 1) with (i_inum y) in * by lia. done.
Qed.
Lemma laid_fin y t l : 0 <= i_inum y < NINODES -> file_on s (i_inum y) t l -> laid (sectors sb) (freeblock s) (blocks_of (Z.of_nat (length l))) (disk_inode (sectors sb) mkfs_sb y) l.
Proof.
  intros Hy F. apply (laid_addrs _ _ _ (dinode_on s (i_inum y))); [by rewrite addrs_fin|]. apply (laid_frame _ _ _ _ _ (fo_laid _ _ _ _ F)); [|lia].
  intros a Ha. apply data_fin. exact (proj1 (owner_range _ _ _ _ _ F Ha)).
Qed.
Lemma owns_fin y a : 1 <= i_inum y <= Z.of_nat (length files) + 1 -> owns (view (sectors sb)) (disk_inode (sectors sb) mkfs_sb y) a <-> owner s (i_inum y) a.
Proof.
  intros Hy. destruct (numbered y Hy) as (Hr & j & t & l & _ & _ & _ & F). rewrite (addrs_owns _ _ (dinode_on s (i_inum y))) by (by apply addrs_fin).
  unfold owner, owns. by setoid_rewrite (fun m => laid_baddr_frame (sectors s) (dinode_on s (i_inum y)) (sectors sb) m (fun a Ha => data_fin a (proj1 (owner_range _ _ _ _ _ F Ha)))).
Qed.
Lemma used_fin a : 0 <= a < FSSIZE -> used mkfs_sb (view (sectors sb)) a = bool_decide (a < freeblock s).
Proof.
  unfold FSSIZE. intros Ha. pose proof (bu_block _ _ B) as Hb. unfold used. assert (E : BBLOCK a mkfs_sb = 58).
  { unfold BBLOCK. change (sb_bmapstart mkfs_sb) with 58. rewrite u32_small; unfold BPB, BSIZE; dlia. }
  rewrite E. unfold sb at 1. cbn [view dv_data with_sector sectors]. change (sb_bmapstart mkfs_sb) with 58. rewrite upd_block_eq.
  replace (a mod BPB) with a by (unfold BPB, BSIZE; dlia). rewrite balloc_loop_bits by dlia.
  assert (E0 : Z.testbit (load8 zeroes (a / 8)) (a mod 8) = false) by apply Z.bits_0.
  rewrite E0, orb_false_l. apply bool_decide_ext. rewrite nmeta_eq in Hb. dlia.
Qed.

Section Root.
Context (y : inode) (Hy : i_inum y = ROOTINO).
Abbreviation x := (disk_inode (sectors sb) mkfs_sb y).

Lemma root_fields : i_type x = T_DIR /\ i_size x = root_size.
Proof.
  pose proof (dinodes_fin 1 ltac:(done)) as E. pose proof (f_equal i_type E) as Et. pose proof (f_equal i_size E) as Es. cbn in Et, Es.
  unfold disk_inode, load_dinode. rewrite Hy. cbn [i_type i_size]. split; [|exact Es]. etransitivity; [exact Et|]. exact (fo_type _ _ _ _ root_file).
Qed.
Lemma root_laid : laid (sectors sb) (freeblock s) (blocks_of (Z.of_nat (length r))) x r.
Proof. apply (laid_fin y T_DIR r); rewrite Hy; [done|exact root_file]. Qed.
Lemma root_partial : (Z.of_nat (length files) + 2) mod 32 <> 0 -> root_size = blocks_of (Z.of_nat (length r)) * BSIZE.
Proof. intros Hm. destruct root_length as [E _]. unfold root_size, blocks_of, BSIZE. rewrite E. dlia. Qed.

Section Names.
Context (Hm : (Z.of_nat (length files) + 2) mod 32 <> 0).
Lemma root_entry k e : root_entries files !! k = Some e -> entry_inum (view (sectors sb)) x (Z.of_nat k) = e.1 /\ entry_name (view (sectors sb)) x (Z.of_nat k) = e.2.
Proof.
  intros Hk. destruct (lists_lookup _ _ _ _ R Hk) as (b & (Hl & <- & <-) & Hb). pose proof (lookup_lt_Some _ _ _ Hk) as Hlt. destruct root_length as [Er El].
  assert (Hc : forall q, 0 <= q < 16 -> load8 (content (view (sectors sb)) x) (16 * Z.of_nat k + q) = load8 (mem_of b) q).
  { intros q Hq. unfold load8. f_equal. rewrite (la_bytes _ _ _ _ _ root_laid) by (unfold blocks_of, BSIZE; dlia).
    unfold mem_of. rewrite <- Hb by lia. do 2 f_equal. lia. }
  split.
  - apply load16_shift; [rewrite <- Hc by lia; f_equal; lia|rewrite <- Hc by lia; f_equal; lia].
  - apply field_string_shift. intros q Hq. rewrite <- Hc by lia. f_equal. lia.
Qed.
Lemma root_rest k : (length (root_entries files) <= k)%nat -> Z.of_nat k < root_size / 16 -> entry_inum (view (sectors sb)) x (Z.of_nat k) = 0.
Proof.
  intros Hk Hs. destruct root_length as [Er El]. rewrite root_partial in Hs by done.
  assert (Hc : forall q, 0 <= q < 2 -> load8 (content (view (sectors sb)) x) (16 * Z.of_nat k + q) = 0).
  { intros q Hq. unfold load8. rewrite (la_bytes _ _ _ _ _ root_laid) by (unfold BSIZE in *; dlia). by rewrite lookup_ge_None_2 by lia. }
  unfold entry_inum, load16. rewrite Hc by lia. pose proof (Hc 0 ltac:(lia)) as H0. rewrite Z.add_0_r in H0. by rewrite H0.
Qed.
Lemma root_numbers k e : root_entries files !! k = Some e -> e.1 <> 0.
Proof.
  assert (E : forall fl i j e, 2 <= i -> entries_from i fl !! j = Some e -> e.1 <> 0).
  { induction fl as [|f fl IH]; intros i j e' Hi Hj; [done|]. destruct j as [|j]; [injection Hj as <-; cbn; lia|]. apply (IH (i + 1) j e'); [lia|exact Hj]. }
  unfold root_entries. destruct k as [|[|k]]; intros Hk; [by injection Hk as <-|by injection Hk as <-|]. by apply (E files 2 k e).
Qed.
Lemma root_find t : dir_find (view (sectors sb)) x t = find_index (fun e => bool_decide (e.2 = t)) (root_entries files).
Proof.
  destruct root_length as [Er El]. destruct root_fields as [_ Es].
  assert (Hle : Z.of_nat (length (root_entries files)) <= root_size / 16) by (rewrite root_partial by done; unfold blocks_of, BSIZE; dlia).
  assert (Hentry : forall k e, root_entries files !! k = Some e -> entry_is (view (sectors sb)) x t (Z.of_nat k) = bool_decide (e.2 = t)).
  { intros k e Hk. destruct (root_entry k e Hk) as [E1 E2]. unfold entry_is. rewrite E1, E2. by rewrite (proj2 (Z.eqb_neq _ _)) by (by apply (root_numbers k)). }
  destruct (find_index _ (root_entries files)) as [k|] eqn:Ek.
  - apply find_index_Some in Ek as (e & Hk & He & Hmin). pose proof (lookup_lt_Some _ _ _ Hk) as Hlt. apply dir_find_Some. rewrite Es. split; [lia|]. split; [by rewrite (Hentry k e)|].
    intros j Hj. destruct (lookup_lt_is_Some_2 (root_entries files) (Z.to_nat j)) as [e' He']; [lia|].
    rewrite <- (Z2Nat.id j) by lia. rewrite (Hentry _ _ He'). apply (Hmin (Z.to_nat j)); [lia|done].
  - apply dir_find_None. rewrite Es. intros j Hj. rewrite <- (Z2Nat.id j) by lia. destruct (root_entries files !! Z.to_nat j) as [e|] eqn:He.
    + rewrite (Hentry _ _ He). exact (proj1 (find_index_None _ _) Ek _ _ He).
    + apply lookup_ge_None_1 in He. unfold entry_is. by rewrite root_rest by lia.
Qed.
Lemma root_names t : dir_inum (view (sectors sb)) x t = lookup_name t (root_entries files).
Proof.
  unfold dir_inum, lookup_name. rewrite root_find. destruct (find_index _ (root_entries files)) as [k|] eqn:Ek; [|done]. cbn.
  apply find_index_Some in Ek as (e & Hk & _). rewrite Hk. cbn. f_equal. by apply root_entry.
Qed.
End Names.

Lemma root_hole : (Z.of_nat (length files) + 2) mod 32 = 0 -> ~ no_holes (view (sectors sb)) x.
Proof.
  intros Hm [_ Hn]. destruct root_length as [Er El]. destruct root_fields as [_ Es]. pose proof (bu_room _ _ B) as Hr. rewrite files_length in Hr. unfold NINODES in Hr.
  set (m := Z.of_nat (length r) / BSIZE) in *. assert (Hrm : Z.of_nat (length r) = m * BSIZE) by (unfold m, BSIZE; rewrite Er; dlia).
  assert (Hm0 : 0 <= m) by (unfold m, BSIZE; dlia). apply (Hn (m * BSIZE)); [rewrite Es; unfold root_size; fold m; unfold BSIZE; lia|]. replace (m * BSIZE / BSIZE) with m by (unfold BSIZE; dlia).
  pose proof (la_none _ _ _ _ _ root_laid m) as Hb. apply Hb. replace (blocks_of (Z.of_nat (length r))) with m by (rewrite Hrm; unfold blocks_of, BSIZE; dlia).
  rewrite MAXFILE_eq. unfold BSIZE in Hrm. lia.
Qed.
End Root.

Lemma used_below a : nmeta <= a < freeblock s -> used mkfs_sb (view (sectors sb)) a = true.
Proof. intros Ha. pose proof (bu_block _ _ B). rewrite nmeta_eq in *. rewrite used_fin by (unfold FSSIZE in *; lia). apply bool_decide_true. lia. Qed.

Lemma finish_boots : superblock_of (sectors sb 1) = mkfs_sb /\ boots (sectors sb) files mkfs_sb.
Proof.
  pose proof (bu_block _ _ B) as Hb. pose proof (bu_inode _ _ B) as Hi. rewrite files_length in Hi. split.
  { unfold sb, sa. cbn [with_sector sectors]. change (IBLOCK 1 mkfs_sb) with 32. change (sb_bmapstart mkfs_sb) with 58. rewrite !upd_block_ne by lia. apply (bu_sb _ _ B). }
  split.
  - intros g G1 G2 G3. split; rewrite ?G1, ?G2, ?G3; by vm_compute.
  - intros n q Hn. change (2 <= n < 32) in Hn. unfold sb, sa. cbn [with_sector sectors]. change (IBLOCK 1 mkfs_sb) with 32. change (sb_bmapstart mkfs_sb) with 58.
    rewrite !upd_block_ne by lia. by apply (bu_log _ _ B).
  - split; [|intros i n Hn; discriminate Hn]. intros m Hm. change (data_start mkfs_sb) with nmeta in Hm. rewrite nmeta_eq in *. rewrite used_fin by (unfold FSSIZE in *; lia). apply bool_decide_true. lia.
  - intros j f y Hj Hy. assert (Hlk : fs !! S j = Some (T_FILE, content_of f)) by (change (installed_files files !! j = Some (T_FILE, content_of f)); unfold installed_files; by rewrite list_lookup_fmap, Hj).
    pose proof (bu_files _ _ B _ _ _ Hlk) as F. replace (Z.of_nat (S j) + 1) with (i_inum y) in F by lia. pose proof (lookup_lt_Some _ _ _ Hj) as Hlt.
    assert (Hr : 0 <= i_inum y < NINODES) by (pose proof (bu_room _ _ B) as Hr; rewrite files_length in Hr; lia).
    pose proof (laid_fin y _ _ Hr F) as L. pose proof (dinodes_fin (i_inum y) Hr) as E. rewrite decide_False in E by lia.
    pose proof (f_equal i_type E) as Et. pose proof (f_equal i_size E) as Es. pose proof (f_equal i_nlink E) as En.
    rewrite (fo_type _ _ _ _ F) in Et. rewrite (fo_size _ _ _ _ F) in Es. rewrite (fo_nlink _ _ _ _ F) in En.
    change (i_type (disk_inode (sectors sb) mkfs_sb y) = T_FILE) in Et. change (i_size (disk_inode (sectors sb) mkfs_sb y) = Z.of_nat (length (content_of f))) in Es.
    split; [|split; [exact Et|exact En]]. split.
    + apply (laid_inode_ok _ _ _ _ _ L); [lia|exact used_below].
    + by rewrite Et.
    + exact Hr.
    + apply (laid_no_holes _ _ _ _ _ L); rewrite Es; [unfold blocks_of, BSIZE; dlia|lia].
    + exact Es.
    + intros k Hk. rewrite Es in Hk. rewrite (la_bytes _ _ _ _ _ L) by (unfold blocks_of, BSIZE; dlia). destruct (lookup_lt_is_Some_2 (content_of f) (Z.to_nat k)) as [b Hb']; [lia|]. by rewrite Hb'.
  - intros y Hy. destruct (root_fields y Hy) as [E1 E2]. rewrite E1, E2. split; [done|]. split; [unfold root_size, BSIZE; dlia|].
    apply (laid_inode_ok _ _ _ _ _ (root_laid y Hy)); [lia|exact used_below].
  - intros y Hy Hm. destruct (root_fields y Hy) as [E1 E2]. split; [|by apply root_names].
    apply (laid_no_holes _ _ _ _ _ (root_laid y Hy)); rewrite E2; [by rewrite root_partial|unfold root_size, BSIZE; dlia].
  - exact root_hole.
  - intros y z a Hy Hz Ho1 Ho2. rewrite owns_fin in Ho1, Ho2 by done.
    destruct (numbered y Hy) as (_ & j & t & l & Hj & Ej & _), (numbered z Hz) as (_ & k & t' & l' & Hk & Ek & _). rewrite Ej in Ho1 |- *. rewrite Ek in Ho2 |- *.
    by rewrite (bu_apart _ _ B j k a Hj Hk Ho1 Ho2).
  - intros a Ha. change (sb_size mkfs_sb) with FSSIZE in Ha. rewrite used_fin, bool_decide_eq_true by done. change (data_start mkfs_sb) with nmeta. split.
    + intros Hlt. destruct (decide (a < nmeta)); [by left|]. right. destruct (bu_cover _ _ B a) as (j & Hj & Ho); [lia|]. rewrite files_length in Hj.
      exists (dinode_of (Z.of_nat j + 1) 0 0 0 []). cbn [dinode_of i_inum]. split; [lia|]. rewrite owns_fin; cbn [dinode_of i_inum]; [done|lia].
    + intros [Hlt|(y & Hy & Ho)]; [lia|]. rewrite owns_fin in Ho by done. destruct (numbered y Hy) as (_ & j & t & l & _ & _ & _ & F). pose proof (owner_range _ _ _ _ _ F Ho). lia.
  - intros y Hy. change (sb_ninodes mkfs_sb) with NINODES in Hy. pose proof (dinodes_fin (i_inum y) ltac:(lia)) as E. rewrite decide_False in E by lia.
    pose proof (f_equal i_type E) as Et. rewrite (bu_free _ _ B (i_inum y)) in Et by lia. exact Et.
Qed.
End Finish.

(** C16: mkfs makes a disk the kernel can use. For files whose names have no slash and that the
    disk has room for, mkfs ends without an error. On the image it leaves, the superblock
    describes a layout in order with an empty log; each file's inode has the file's bytes, in blocks of its own
    that are marked in use; the root directory maps "." and "..", and the names on the command
    line without their underscore, cut at 14 characters, to the files' inodes; the blocks
    marked in use are the metadata and the files' blocks and no others, so nothing is lost or
    shared; the other inodes are free. *)
Theorem mkfs_image files (H : installable files) :
  exists s, mkfs files truncated = Ret tt s /\ boots (sectors s) files (superblock_of (sectors s 1)).
Proof.
  destruct (mkfs_filled files H) as (s & r & B & R & E). pose proof (finish_run s r files B) as Ef. rewrite <- E in Ef.
  destruct (finish_boots s r files B R) as [Es Hb]. eexists. split; [exact Ef|]. by rewrite Es.
Qed.

(** _cat, of 612 bytes that came in two reads, and RE, of one byte. *)
Definition demo_image_files : list (list Z * list (list Z)) :=
  [([95; 99; 97; 116], [replicate 512 1; replicate 100 2]); ([82; 69], [[7]])].

Lemma demo_installable : installable demo_image_files.
Proof.
  split; [|done|vm_compute; discriminate].
  apply Forall_cons_2; [|apply Forall_cons_2; [|apply Forall_nil_2]]; (split; [|split; [|vm_compute; discriminate]]).
  1, 3: repeat (apply Forall_cons_2; [cbn; unfold SLASH; lia|]); apply Forall_nil_2.
  - unfold content_of. cbn [snd concat]. rewrite app_nil_r. apply Forall_app_2; apply Forall_replicate; lia.
  - apply Forall_singleton. lia.
Qed.
Lemma mkfs_image_witness :
  exists s, mkfs demo_image_files truncated = Ret tt s /\
    forall y, i_inum y = ROOTINO -> dir_inum (view (sectors s)) (disk_inode (sectors s) (superblock_of (sectors s 1)) y) [99; 97; 116] = Some 2.
Proof.
  destruct (mkfs_image demo_image_files demo_installable) as (s & E & B). exists s. split; [exact E|].
  intros y Hy. rewrite (proj2 (bo_names _ _ _ B y Hy ltac:(discriminate))). reflexivity.
Defined.
