(* ===== verification/Boot.v ===== *)
(** * Boot: the kernel on a disk that mkfs made (mkfs.c, log.c, fs.c, file.c, sysfile.c)

    The parts put together: the image of Mkfs.v under the buffer cache of Bio.v, the log of
    Log.v after initlog, the inodes of Inode.v as ilock reads them, and the system calls of
    FileIo.v on top. *)

From S2P Require Import Prelude Memory Mmu Syscall Spinlock Cache Bio Ide Log LogDemo Tx Fs Inode Dir DirSpec FsDemo Fcntl Pipe File FileIo FileFs FileDemo Mkfs.

(** The kernel before its first process runs forkret: an empty cache over the disk [d]. *)
Definition fresh_kernel (d : Z -> block) : lstate bstate := mkL (binit (Z.to_nat NBUF) d FSSIZE 1) (boot_log 0 0).

(** A cached inode that has been read from the disk. *)
Definition cache_entry (inum : Z) : inode := mkInode ROOTDEV inum 1 initsleeplock true 0 0 0 0 0 [].
Definition opened (d : Z -> block) (x : superblock) (inum : Z) : inode := disk_inode d x (cache_entry inum).

(** Cache entries for the chosen files, and the bytes behind them. *)
Definition cached (d : Z -> block) (x : superblock) (chosen : list nat) : list inode := (fun j => opened d x (Z.of_nat j + 2)) <$> chosen.
Definition contents (files : list (list Z * list (list Z))) (chosen : list nat) : gmap nat (list Z) :=
  map_seq 0 ((fun j => content_of (nth j files ([], []))) <$> chosen).

Lemma header_blank b : (forall q, b q = 0) -> header_n b = 0 /\ header_list b = [].
Proof. intros Hb. assert (E : header_n b = 0) by (unfold header_n; by rewrite load32_blank). split; [done|]. unfold header_list. by rewrite E. Qed.

Section Booted.
Context (d : Z -> block) (files : list (list Z * list (list Z))) (x : superblock) (B : boots d files x) (Hx : x = mkfs_sb).

Lemma log_booted : exists k v, initlog (sb_logstart x) (sb_nlog x) (fresh_kernel d) = Ret tt k /\
  disk_rep (log_geometry k) k v /\ dv_held v = ∅ /\ dv_logged v = ∅ /\ outstanding (lg k) = 0 /\ committing (lg k) = false /\ l_size (lg k) = LOGSIZE /\
  l_start (lg k) = sb_logstart x /\ g_blocks (log_geometry k) = FSSIZE /\ agree x (view d) v.
Proof.
  pose proof (bo_log _ _ _ B) as Hl. subst x.
  destruct (header_blank (d 2) (fun q => Hl 2 q ltac:(done))) as [Hn Hh].
  assert (Hr : cache_rep (lg_cache (fresh_kernel d)) (LogDemo.demo_view d)) by exact (binit_rep d FSSIZE 1).
  destruct (boot_rel (fresh_kernel d) (LogDemo.demo_view d) 2 LOGSIZE eq_refl Hr eq_refl eq_refl demo_geom) as (k & v & E & R).
  { split; cbn [boot_log l_start l_size demo_view v_disk]; rewrite ?Hn, ?Hh; [by vm_compute|constructor|by intros n ?%elem_of_nil]. }
  pose proof (tr_ok _ _ _ _ _ _ _ R) as Ho. destruct (tr_place _ _ _ _ _ _ _ R) as (P1 & P2 & P3). destruct (tr_out _ _ _ _ _ _ _ R) as [O1 O2].
  exists k, (mkD (v_data v) (v_pinned v) ∅). split; [exact E|]. split; [by apply log_ok_tx|]. split; [done|].
  split; [cbn; rewrite (lo_pinned _ _ Ho), (tr_logged _ _ _ _ _ _ _ R); done|]. split_and!; try done.
  - intros n Hn'. cbn [dv_data view]. rewrite (tr_cur _ _ _ _ _ _ _ R).
    + cbn [t_cur demo_view v_disk]. unfold redo. cbn [boot_log l_start]. by rewrite Hh.
    + unfold data_block. cbn [boot_log l_start l_size]. change (32 <= n) in Hn'. change LOGSIZE with 30. lia.
Qed.

(** The chosen files in the cache are as FileFs.v wants them. *)
Lemma layer_booted chosen : NoDup chosen -> Forall (fun j => (j < length files)%nat) chosen ->
  exists k, initlog (sb_logstart x) (sb_nlog x) (fresh_kernel d) = Ret tt k /\
    forall pid cwd, layer_ok x (mkF k (mkCore x (cached d x chosen) pid cwd)) (FileIo.mkView Idle None (contents files chosen) (Z.of_nat (length (free_list x (view d))))).
Proof.
  intros Hnd Hch. destruct log_booted as (k & v & E & V1 & V2 & V3 & V4 & V5 & V6 & V7 & V8 & V9). exists k. split; [exact E|]. intros pid cwd. exists v.
  assert (Hsb : sb_ok (log_geometry k) x) by (apply (bo_layout _ _ _ B); [done|done|by rewrite Hx]).
  assert (Hfile : forall n l, contents files chosen !! n = Some l -> exists j, chosen !! n = Some j /\ cached d x chosen !! n = Some (opened d x (Z.of_nat j + 2)) /\ file_inv x (view d) (opened d x (Z.of_nat j + 2)) l).
  { intros n l Hn. unfold contents in Hn. rewrite lookup_map_seq_0, list_lookup_fmap in Hn. apply fmap_Some in Hn as (j & Hj & ->).
    exists j. split; [done|]. split; [unfold cached; by rewrite list_lookup_fmap, Hj|]. rewrite Forall_lookup in Hch. pose proof (Hch _ _ Hj) as Hlt.
    destruct (lookup_lt_is_Some_2 files j Hlt) as [f Hf]. rewrite (nth_lookup_Some _ _ _ _ Hf). by apply (bo_files _ _ _ B j f). }
  split; cbn [fs_disk fs_core vw_tx vw_locked vw_files vw_free icache sb]; try done.
  - by rewrite V6.
  - apply (fs_ok_agree (log_geometry k) x Hsb (view d)); [done|done|]. apply (bo_fs _ _ _ B).
  - rewrite (free_list_agree (log_geometry k) x Hsb (view d) v) by done. lia.
  - intros n l Hn. destruct (Hfile n l Hn) as (j & Hj & Hc & F). eexists. split; [exact Hc|]. split; [|done].
    pose proof F as [F1 F2 F3 F4 F5 F6]. split; try done.
    + by apply (inode_ok_agree (log_geometry k) x Hsb (view d)).
    + by apply (no_holes_agree (log_geometry k) x Hsb (view d)).
    + intros q Hq. rewrite (content_agree (log_geometry k) x Hsb (view d)) by (try done; try (pose proof (proj1 F4); lia); by apply (proj2 F4)). by apply F6.
  - intros n m y z Hnm [l Hn] [l' Hm] Hy Hz a Ha Hb.
    destruct (Hfile n l Hn) as (j & Hj & Hc & F), (Hfile m l' Hm) as (i & Hi & Hc' & F'). rewrite Hc in Hy. rewrite Hc' in Hz. injection Hy as <-. injection Hz as <-.
    rewrite (owns_agree (log_geometry k) x Hsb (view d)) in Ha by (try done; apply F). rewrite (owns_agree (log_geometry k) x Hsb (view d)) in Hb by (try done; apply F').
    rewrite Forall_lookup in Hch. pose proof (Hch _ _ Hj). pose proof (Hch _ _ Hi).
    pose proof (bo_apart _ _ _ B (cache_entry (Z.of_nat j + 2)) (cache_entry (Z.of_nat i + 2)) a ltac:(cbn; lia) ltac:(cbn; lia) Ha Hb) as Eq. cbn in Eq. assert (i = j) as -> by lia.
    apply Hnm. by apply (NoDup_lookup chosen n m j).
Qed.
End Booted.

Definition kernel : Type := fstate (lstate bstate) fcore.
#[local] Existing Instance fs_layer.

(** C15: the files put on a disk by mkfs are the files the kernel serves. Take any files mkfs can
    install, boot on the image it leaves (initlog finds an empty log), and open any of the files
    with descriptors of any processes, shared or not. Then a read, write or fstat of any process
    with any arguments returns what the specification of FileIo.v returns on the bytes that were
    installed, for as many free blocks as the image has. *)
Theorem boot_serves_files files (H : installable files) (killed : bool) (chosen : list nat) (Hnd : NoDup chosen)
    (Hch : Forall (fun j => (j < length files)%nat) chosen) :
  exists img k, mkfs files truncated = Ret tt img /\
    let d := sectors img in let x := superblock_of (d 1) in
    initlog (sb_logstart x) (sb_nlog x) (fresh_kernel d) = Ret tt k /\
    forall t ps ofs pid cwd (c : io_call), let s := mkSystem t ps ofs (mkF k (mkCore x (cached d x chosen) pid cwd)) in
      io_ok s (contents files chosen) -> is_Some (ofs !! who c) -> cost c <= Z.of_nat (length (free_list x (view d))) ->
      exists s', do_call (H := fs_layer no_dev no_dev) killed c s = Ret (spec_call ofs c (t, contents files chosen)).1 s'.
Proof.
  destruct (mkfs_filled files H) as (s0 & r & Bu & R & E). pose proof (finish_run s0 r files Bu) as Ef. rewrite <- E in Ef.
  destruct (finish_boots s0 r files Bu R) as [Es Bo]. eexists. set (img := with_sector _ _ _) in *. cbn zeta. rewrite Es.
  destruct (layer_booted (sectors img) files mkfs_sb Bo eq_refl chosen Hnd Hch) as (k & Ek & L). exists k. split; [exact Ef|]. split; [exact Ek|].
  intros t ps ofs pid cwd c Hok Hw Hc. assert (Hbm : sb_size mkfs_sb < BPB) by (vm_compute; reflexivity).
  destruct (do_call_refines (H0 := fs_laws no_dev no_dev mkfs_sb Hbm) killed c _ _ _ Hok (L pid cwd) Hw Hc) as (s' & fr' & Er & _).
  exists s'. exact Er.
Qed.

(** A process with descriptor 0 at byte 508 of the installed file "cat" reads 10 bytes: the end
    of the first part and the start of the second. *)
Definition boot_table : list file := [mkFile FD_INODE 1 true false 0 0 508].
Lemma boot_serves_files_witness :
  exists img k s', mkfs demo_image_files truncated = Ret tt img /\
    do_call (H := fs_layer no_dev no_dev) false (CRead 0 (user 0 3000 10))
      (mkSystem boot_table ∅ [[Some 0%nat]] (mkF k (mkCore (superblock_of (sectors img 1)) (cached (sectors img) (superblock_of (sectors img 1)) [0%nat]) 1 0))) =
    Ret (RBytes (Returned 10 [1; 1; 1; 1; 2; 2; 2; 2; 2; 2])) s'.
Proof.
  destruct (boot_serves_files demo_image_files demo_installable false [0%nat] ltac:(apply NoDup_singleton) ltac:(apply Forall_singleton; cbn; lia))
    as (img & k & Em & _ & Hc). exists img, k.
  destruct (Hc boot_table ∅ [[Some 0%nat]] 1 0%nat (CRead 0 (user 0 3000 10))) as (s' & Es).
  - split.
    + intros i t fd f Hi Hf. destruct i; [|discriminate]. injection Hi as <-. destruct fd; [|discriminate]. injection Hf as <-.
      exists (mkFile FD_INODE 1 true false 0 0 508). split; reflexivity.
    + intros f y Hf _. destruct f; [|discriminate]. injection Hf as <-. exists (content_of (nth 0 demo_image_files ([], []))). split; [unfold contents; by rewrite lookup_map_seq_0|].
      change (length (content_of _)) with 612%nat. cbn. lia.
  - by eexists.
  - cbn. lia.
  - exists s'. split; [exact Em|]. rewrite Es. f_equal.
Defined.
